(* ===== verification/_CoqProject ===== *)
-Q . S2P
Prelude.v
Regex.v
PyRegex.v
Sha256.v
Json.v
Posix.v
Binary64.v
FloatText.v
Lineage.v
Router.v
RouterPairs.v
RouterLocks.v
RouterRound.v
RouterOrder.v
RouterProps.v
Coordination.v
CoordLemmas.v
CoordProps.v
CoordLock.v
HeldAction.v
PyText.v
JsonProps.v
PyTime.v
Shlex.v
Workboard.v
WorkboardProps.v
WorkboardAppend.v
Compaction.v
CompactionProps.v
FocusGate.v
FocusGateProps.v
Privacy.v
PlanItems.v
PlanItemsProps.v
Contract.v
ContractProps.v
RoleContext.v
Envelope.v
EnvelopeProps.v
Clearance.v
ClearanceProps.v
Notes.v
NotesProps.v
Lifecycle.v
LifecycleProps.v
ProcessTruth.v
ProcessTruthProps.v
ProcessTree.v
ProcessTreeProps.v
Admission.v
AdmissionProps.v
Registry.v
Settlement.v
RegistryProps.v
SettlementProps.v
Promotion.v
PromotionProps.v
Notices.v
NoticeSessions.v
ResourceWatch.v
NoticeOutbox.v
NoticesProps.v
NoticeOutboxProps.v
ResourceWatchProps.v
NoticeSessionsProps.v
