(* ===== verification/Prelude.v ===== *)
(** * Vibe Squad control plane: a verification development

    Vibe Squad dispatches work to several model CLIs ("lanes") through files on
    one host.  Its control plane, the Python under [src/scripts/python/] and
    [src/plugins/chrono-vault/], decides which tasks may run, what each may
    touch and remember, which results count and when a plan item is finished.
    This library models that decision logic as executable definitions and
    proves what it guarantees.

    ** Parts and how they interact

    - Prelude, Regex, PyRegex, Sha256, Json, Posix, PyText, PyTime, Binary64, FloatText:
      what the modules use of Python.  Exceptions are the error values of [res]; [re.fullmatch]
      is a derivative matcher proved against its language, [re.sub] a
      backtracking search; [hashlib.sha256] and
      [hmac] are computed; [json.dumps]/[json.loads] are functions with a
      round-trip theorem; [os.path] and [pathlib] work on component lists;
      floats are Rocq's binary64.  [sort] is insertion sort, proved unique.
    - Lineage ([delegation_lineage.py]): chain bounds of a delegation and the
      intersection of authorities.
    - Router, RouterPairs, RouterLocks, RouterRound, RouterOrder, RouterProps
      ([board_router.py]): one scheduling round.  Router has the definitions;
      RouterPairs the pairwise conflict test, RouterLocks the shared-resource
      table as a reference count of claims, RouterRound the admission loop,
      RouterOrder independence from listing order, RouterProps the properties.
    - Coordination, CoordLemmas, CoordProps ([coordination.py]): the store of
      delegation checkpoints over its files; a call returns its value or
      exception and the atomic file writes it makes, so a crash is a prefix of
      the writes.  It uses Lineage for admission and Router's task record for
      the board task it emits.
    - CoordLock ([coordination.py], the store lock): a step relation over the
      atomic file-system actions of several threads, with process crashes.
    - HeldAction ([held_action_gate.py]): one-shot operator tokens.
    - PlanItems, PlanItemsProps ([plan_item_binding.py]): the evidence rule
      that closes a plan item and the two-file move of its ledger entry.
    - Contract, ContractProps ([verification_contract.py]): derivation and
      validation of verification contracts.
    - RoleContext ([role_context_compiler.py]): the compiled role context.
    - Envelope, EnvelopeProps ([runtime_envelope.py]): the sealed claims of one
      launch, their verification and the worker command they allow.
    - Clearance, ClearanceProps ([plugins/chrono-vault/clearance.py]): the
      memory aperture of an engagement, over the pinned policy table.
    - Privacy ([privacy.py] there): the screening patterns and the check every
      stored text passes.
    - Notes, NotesProps ([notes.py] and the parser of [index.py] there):
      normalising, writing and reading back a note; it applies the aperture's
      record policy and the privacy check.
    - Lifecycle, LifecycleProps ([lifecycle.py], [curation_queue.py] there):
      the compare-and-swap status change with its staged publication under
      faults, and usage feedback.
    - ProcessTruth, ProcessTruthProps ([board_process_truth.py]): dispatch
      descriptors, the identity of the process behind one, and the three
      writers of a receipt.  A call reads the files at several moments, between
      which anything may happen to them; it publishes with one atomic link.
    - ProcessTree, ProcessTreeProps (the teardown there): freezing, signalling
      and watching a process tree, as programs over the kernel's operations;
      nothing is assumed of the kernel's answers.
    - Admission, AdmissionProps ([host_admission.py]): the clauses that admit,
      queue or refuse a vector of tasks, and the scan of the board they count.
      It reads the board through ProcessTruth.
    - JsonProps: dictionaries and documents the other proofs share.
    - Shlex: the lexer of Python's [shlex], [quote] and their round trip.
    - Workboard, WorkboardProps, WorkboardAppend ([chrono_state/workboard.py]):
      the coordinator's ledger.  Workboard has the event schema, the line
      parser, the projection of the records onto a board, the validator, the
      append with its simulation and its write loop, and the command-line
      flags; WorkboardProps the invariant of the board and what a valid one is;
      WorkboardAppend what an append does.
    - Compaction, CompactionProps (same file): the census, the plan that splits
      a ledger into active part and archive, and [compact] on its two files with a
      fault at every file operation; CompactionProps follows every line and event.
    - FocusGate, FocusGateProps ([chrono_state/focus_gate.py]): the hook that
      classifies tools and shell commands and refuses the mutating ones while
      the projected board has no focus.  It reads the ledger through Workboard
      and its repair is one append.
    - Registry, RegistryProps ([registry_reconciler.py], [active-tasks.json]):
      loading, registration with the review policy and the packet's provenance,
      the claim of a queued task by a lane or a pooled worker, close and
      reopening, and the lines a closed review's loop appends to the coordinator's
      queue.  The file system answers each write ([write_answer], [Storage]): not
      written, written but not synced, or landed.  An operation returns its value or
      exception with the registry it leaves on disk and the lines it has queued;
      RegistryProps says which keys each may touch.
    - Settlement, SettlementProps (same file, [settle_review]): the choice of
      the landed response, its fences, the three kinds of review, the verdict
      with its fallback in the review's artifact, and the settled entry.  The
      strict front matter is [dispatch_context_builder.py]'s, the terminal
      review contract Contract's, the process descriptor ProcessTruth's.
      SettlementProps runs all operations of the registry as one state machine.
    - Promotion, PromotionProps ([memory_promotion.py] and
      [memory_promotion_message]): the promotion that follows a settlement.  The
      tables of the index are two finite tables; the notes and the
      compare-and-swap are Lifecycle's.
    - Notices, NoticesProps ([chrono_state/notifications.py], the store): durable
      notices in one file, with every operation as a transaction that may fail
      before or after its replacement of the file; the size limit is that of
      the text [json.dumps] writes (FloatText).  NoticesProps runs the operations
      of all processes as one state machine.
    - NoticeSessions, NoticeSessionsProps (the sessions there): the leases of a
      session's waiter and sampler in the same file.
    - ResourceWatch, ResourceWatchProps ([chrono_state/resource_watch.py]): the
      levels and episodes of disk and memory, published through Notices.
    - NoticeOutbox, NoticeOutboxProps ([registry_reconciler.py],
      [publish_durable_notices]): the intents in the entries of Registry and
      their enqueueing into Notices.

    ** What the theorems show

    Safety of a scheduling round, its independence of input order and the
    round trip of its reservations (RouterProps); caps, the one
    edge each call may move a record along, and idempotence of the delegation
    store in every crash state (CoordProps);
    exclusion and recovery of its lock, with the schedule in which exclusion is
    lost (CoordLock); exactness and one-shot use of tokens (HeldAction); the
    exact conditions of "done" and the crash-safe move (PlanItemsProps);
    self-consistency and limits of contracts (ContractProps); soundness of a
    verified envelope and of the launch it allows (EnvelopeProps); what a bound
    engagement may write, read and hold in its environment (ClearanceProps);
    screened texts match no pattern (Privacy); a recorded note is one new clean
    file that reads back, with two notes that do not (NotesProps); status
    changes keep the supersession graph acyclic whatever fails, do exactly what
    was asked or nothing (LifecycleProps); the first receipt of an attempt is
    the one that stays, writers are fenced by the exact live process, a receipt
    reads back, and what the worker printed cannot forge an identity
    (ProcessTruthProps); every signal of a teardown goes to an identity just
    observed, success leaves no member, and the teardown ends (ProcessTreeProps);
    an admission answers yes exactly when all its clauses hold, the family cap
    against the board its scan found included (two dispatches that scan the same
    board can exceed it together, see the example), and a reaped attempt no longer
    blocks the scan (AdmissionProps).
    A closed item never reopens; on a ledger of whole lines an accepted append is
    the one event asked for, its identities resolved, applied; ledgers built by
    appends are valid as long as no write is cut short, and what a cut one leaves
    is a first part of the admitted lines (WorkboardProps, WorkboardAppend);
    compaction, whatever fails, keeps the board, archives every other line word
    for word and states the openings of the open items again (CompactionProps);
    the gate refuses exactly on a proven loss of focus, the repair it prints is
    let through and works on every ledger that ends in a line feed (on another it
    is refused, see the example), and a command taken for read-only is one plain
    command (FocusGateProps).
    A held task is settled only with the warrant of a review, by the configured
    reviewer or an attestation in the coordinator's name, with an approving verdict
    or a recorded force, and once; that the reviewer's family is not the author's
    holds of the families as the settlement reads them, and for claude the two
    tables of the source differ (see [own_family_reviews]); a claim needs the
    current attempt and the exact fence; over any operations no task is dropped,
    the histories only grow, statuses follow the lifecycle, a pooled worker has one
    task in flight, and an operation that raises leaves the old registry or its own
    complete result, whatever the storage answers (RegistryProps, SettlementProps).
    After a settlement memory is promoted only if the review approved, and only
    the notes the task reported as used (PromotionProps).
    A notice is consumed by an acknowledgment of its id and by nothing else, for
    good; batches are written whole; a leased notice is not offered twice and
    wakes sessions at most four times (NoticesProps); no event is lost between
    registry and store, and a replay changes nothing (NoticeOutboxProps); a
    session has one waiter and stays ended (NoticeSessionsProps); worse levels
    are announced at once, better ones after a run, each under its own identity
    and together with the state (ResourceWatchProps).
    Statements about hashes name the two texts that would have to collide.

    ** Conventions, bounds and fuel

    Strings are lists of code points below 256; the file system, git, clocks
    and random sources are arguments.  Python integers are [Z].  Recursion is
    structural except for the dependency search (fuel: one plus the edges of
    the index, proved enough), [json.loads] (fuel: the length of the text,
    proved enough for what [dumps] writes), the supersession walk (the code's
    own bound, enough for a vault of fewer notes), the scan of a process census
    (fuel: one more than its rows, proved enough), the grace period of a
    teardown (fuel: the readings of the clock it may take), decimal digits and SHA-256 blocks
    (fuel from the size of the input), and the count of a marker in a text
    (fuel: one more than its length), and [repr] of a float (fuel: seventeen
    digits, the place of the point searched from an estimate).  A random source is a list of draws; one
    that runs out stands for a run that goes on drawing.  The answers of
    [os.write] are a list; one that runs out stands for the process dying.
    Messages of exceptions keep their
    constant text only.

    ** Not modelled

    The sweep of the task registry, its pane notices and the repair of an envelope
    (which alone reopens a closed task); command lines and printing; subprocess and file-system effects other than
    the ones named above; lone surrogates and code points above 255; floats
    in JSON that is read.  The components not listed here are in the manifest with
    their reasons. *)

From stdpp Require Export base tactics option list strings gmap sets sorting.
From Stdlib Require Export ZArith Ascii Lia.

#[global] Set Default Proof Using "Type".

(** ** Errors: Python exceptions as values *)

(** The exception classes the modelled modules raise. *)
Inductive exn_class :=
  | ValueError | TypeError | KeyError | TimeoutError | OverflowError
  | DelegationDenied | HeldActionDenied | PlanItemBindingError
  | ContractError | EnvelopeError | RoleContextError | HostStateError
  | ClearanceError | LifecycleError | NoteNotFound | RevisionConflict | UsageConflict
  | SchemaError | NoteWriteError | MalformedNote | IndexError | JsonlAppendError | OSError
  | ProcessTruthError | RuntimeError | AssertionError
  | WorkboardConsistencyError | WorkboardMigrationError | WorkboardCompactionError
  | RegistryCorruptError | AttributeError | BatchCloseRefused | DispatchContextError.

#[export] Instance exn_class_eq_dec : EqDecision exn_class.
Proof. solve_decision. Defined.

(** An exception: its class and the constant text of its message.  Values the
    code interpolates into a message are not kept. *)
Record exn := Exn { exn_kind : exn_class; exn_msg : string }.

#[export] Instance exn_eq_dec : EqDecision exn.
Proof. solve_decision. Defined.

Inductive res (A : Type) :=
  | Ok (a : A)
  | Err (e : exn).
Arguments Ok {A} a.
Arguments Err {A} e.

#[export] Instance res_ret : MRet res := @Ok.
#[export] Instance res_bind : MBind res :=
  λ A B f m, match m with Ok a => f a | Err e => Err e end.
#[export] Instance res_fmap : FMap res :=
  λ A B f m, match m with Ok a => Ok (f a) | Err e => Err e end.
#[export] Instance res_eq_dec `{EqDecision A} : EqDecision (res A).
Proof. solve_decision. Defined.

(** [if cond: raise cls(msg)] *)
Definition raise_if (b : bool) (cls : exn_class) (msg : string) : res unit :=
  if b then Err (Exn cls msg) else Ok tt.

(** [except cls as exc: raise cls'(...)] around a computation. *)
Definition reraise {A} (handled : exn_class → bool) (cls' : exn_class) (m : res A) : res A :=
  match m with
  | Ok a => Ok a
  | Err e => if handled (exn_kind e) then Err (Exn cls' (exn_msg e)) else Err e
  end.

Definition is_ok {A} (m : res A) : bool := match m with Ok _ => true | Err _ => false end.

(** [for x in l: f(x)] where the body only checks. *)
Fixpoint for_each {A} (f : A → res unit) (l : list A) : res unit :=
  match l with
  | [] => Ok tt
  | x :: l => f x;; for_each f l
  end.

(** [[f(x) for x in l]] where [f] may raise. *)
Fixpoint map_res {A B} (f : A → res B) (l : list A) : res (list B) :=
  match l with
  | [] => Ok []
  | x :: l => y ← f x; ys ← map_res f l; Ok (y :: ys)
  end.

Lemma bind_Ok {A B} (m : res A) (f : A → res B) b :
  (m ≫= f) = Ok b ↔ ∃ a, m = Ok a ∧ f a = Ok b.
Proof. destruct m; cbn; split; [eauto|by intros (? & [= ->] & ?)|done|by intros (? & ? & ?)]. Qed.

Lemma bind_Err {A B} (m : res A) (f : A → res B) e :
  (m ≫= f) = Err e ↔ m = Err e ∨ ∃ a, m = Ok a ∧ f a = Err e.
Proof.
  destruct m as [a|e']; split.
  - intros H. right. by exists a.
  - intros [[=]|(? & [= <-] & ?)]; done.
  - intros [= ->]. by left.
  - intros [[= ->]|(? & [=] & ?)]; done.
Qed.

Lemma bind_intro {A B} (m : res A) (f : A → res B) a b :
  m = Ok a → f a = Ok b → (m ≫= f) = Ok b.
Proof. by intros ->. Qed.

Lemma bind_ret {A B} (a : A) (f : A → res B) : (Ok a ≫= f) = f a.
Proof. done. Qed.

Lemma bind_err {A B} e (f : A → res B) : (Err e ≫= f) = Err e.
Proof. done. Qed.

Lemma raise_if_false cls msg : raise_if false cls msg = Ok tt.
Proof. done. Qed.

Lemma raise_if_true cls msg : raise_if true cls msg = Err (Exn cls msg).
Proof. done. Qed.

Create HintDb res.
#[export] Hint Rewrite @bind_ret @bind_err @raise_if_false @raise_if_true : res.

(** Run the monad as far as its tests are decided. *)
Ltac res_simpl := autorewrite with res; cbv beta.

Lemma raise_if_Ok b cls msg u : raise_if b cls msg = Ok u ↔ b = false.
Proof. destruct b, u; cbn; naive_solver. Qed.

Lemma raise_if_Err b cls msg e :
  raise_if b cls msg = Err e ↔ b = true ∧ e = Exn cls msg.
Proof. destruct b; cbn; split; [by intros [= <-]|by intros [_ ->]|done|by intros []]. Qed.

Lemma for_each_Ok {A} (f : A → res unit) l u :
  for_each f l = Ok u ↔ Forall (λ x, f x = Ok tt) l.
Proof.
  destruct u. induction l as [|x l IH]; cbn; [naive_solver|].
  rewrite bind_Ok, Forall_cons, <- IH. split.
  - intros ([] & ? & ?); done.
  - intros [? ?]; by exists tt.
Qed.

Lemma map_res_Ok {A B} (f : A → res B) l ys :
  map_res f l = Ok ys ↔ Forall2 (λ x y, f x = Ok y) l ys.
Proof.
  revert ys; induction l as [|x l IH]; intros ys; cbn.
  - split; [by intros [= <-]|]. by intros ->%Forall2_nil_inv_l.
  - rewrite bind_Ok. setoid_rewrite bind_Ok. setoid_rewrite IH. split.
    + intros (y & ? & ys' & ? & [= <-]). by constructor.
    + inversion 1; subst. eauto 6.
Qed.

Lemma reraise_Ok {A} h c (m : res A) a : reraise h c m = Ok a ↔ m = Ok a.
Proof. destruct m as [|e]; cbn; [done|]. destruct (h (exn_kind e)); done. Qed.

(** Inversion of monadic successes in hypotheses. *)
Ltac res_inv :=
  repeat match goal with
  | H : Ok _ = Ok _ |- _ => injection H as H; try subst
  | H : Err _ = Err _ |- _ => injection H as H; try subst
  | H : Ok _ = Err _ |- _ => discriminate H
  | H : Err _ = Ok _ |- _ => discriminate H
  | H : mret _ = Ok _ |- _ => injection H as H; try subst
  | H : (_ ≫= _) = Ok _ |- _ => apply bind_Ok in H as (? & ? & H)
  | H : raise_if _ _ _ = Ok _ |- _ => apply raise_if_Ok in H
  | H : for_each _ _ = Ok _ |- _ => apply for_each_Ok in H
  | x : unit |- _ => destruct x
  end.

(** Boolean hypotheses to propositions. *)
Ltac bool_inv :=
  repeat match goal with
  | H : _ || _ = false |- _ => apply orb_false_iff in H as [? ?]
  | H : _ && _ = true |- _ => apply andb_true_iff in H as [? ?]
  | H : negb _ = false |- _ => apply negb_false_iff in H
  | H : negb _ = true |- _ => apply negb_true_iff in H
  | H : bool_decide _ = true |- _ => apply bool_decide_eq_true in H
  | H : bool_decide _ = false |- _ => apply bool_decide_eq_false in H
  | H : (_ <=? _)%Z = true |- _ => apply Z.leb_le in H
  | H : (_ <=? _)%Z = false |- _ => apply Z.leb_gt in H
  | H : (_ <? _)%Z = true |- _ => apply Z.ltb_lt in H
  | H : (_ <? _)%Z = false |- _ => apply Z.ltb_ge in H
  | H : (_ =? _)%Z = true |- _ => apply Z.eqb_eq in H
  | H : (_ =? _)%Z = false |- _ => apply Z.eqb_neq in H
  end.

(** ** Stable sorting ([sorted], [list.sort(key=...)]) *)

Section sorting.
  Context {A : Type} (leb : A → A → bool).

(** Insert before the first element that is not smaller: equal elements keep
    their order, as Python's sort does. *)
Fixpoint insert_by (x : A) (l : list A) : list A :=
  match l with
  | [] => [x]
  | y :: l' => if leb x y then x :: l else y :: insert_by x l'
  end.

Definition sort_by (l : list A) : list A := foldr insert_by [] l.

Lemma insert_by_perm x l : insert_by x l ≡ₚ x :: l.
Proof.
  induction l as [|y l IH]; cbn; [done|]. destruct (leb x y); [done|].
  rewrite IH. apply perm_swap.
Qed.

Lemma sort_by_perm l : sort_by l ≡ₚ l.
Proof.
  induction l as [|x l IH]; [done|].
  change (sort_by (x :: l)) with (insert_by x (sort_by l)). by rewrite insert_by_perm, IH.
Qed.

Lemma elem_of_sort_by x l : x ∈ sort_by l ↔ x ∈ l.
Proof. by rewrite sort_by_perm. Qed.

Hypothesis leb_total : ∀ x y, leb x y = true ∨ leb y x = true.
Hypothesis leb_trans : ∀ x y z, leb x y = true → leb y z = true → leb x z = true.

Lemma insert_by_sorted x l :
  StronglySorted (λ a b, leb a b = true) l →
  StronglySorted (λ a b, leb a b = true) (insert_by x l).
Proof using leb_total leb_trans.
  induction 1 as [|y l Hl IH Hy]; cbn; [repeat constructor|].
  destruct (leb x y) eqn:E.
  - constructor; [by constructor|]. constructor; [done|].
    eapply Forall_impl; [exact Hy|]. cbn. eauto.
  - constructor; [done|]. rewrite insert_by_perm. constructor; [|done].
    destruct (leb_total x y); congruence.
Qed.

Lemma sort_by_sorted l : StronglySorted (λ a b, leb a b = true) (sort_by l).
Proof using leb_total leb_trans.
  induction l as [|x l IH]; [constructor|].
  change (sort_by (x :: l)) with (insert_by x (sort_by l)). by apply insert_by_sorted.
Qed.

Lemma insert_by_id x l :
  Forall (λ y, leb x y = true) l → insert_by x l = x :: l.
Proof. destruct 1 as [|y l Hy _]; cbn; [done|]. by rewrite Hy. Qed.

Lemma sort_by_id l :
  StronglySorted (λ a b, leb a b = true) l → sort_by l = l.
Proof.
  induction 1 as [|x l Hl IH Hx]; [done|].
  change (sort_by (x :: l)) with (insert_by x (sort_by l)). rewrite IH. by apply insert_by_id.
Qed.

(** Two permutations of one list sort to the same list when the order is
    antisymmetric on their elements. *)
Lemma sort_by_unique l1 l2 :
  (∀ x y, x ∈ l1 → y ∈ l1 → leb x y = true → leb y x = true → x = y) →
  l1 ≡ₚ l2 → sort_by l1 = sort_by l2.
Proof using leb_total leb_trans.
  intros Hanti Hp.
  apply (StronglySorted_unique_strong (λ a b, leb a b = true)).
  - intros x y Hx Hy. apply Hanti; [by apply elem_of_sort_by|].
    rewrite Hp. by apply elem_of_sort_by.
  - apply sort_by_sorted.
  - apply sort_by_sorted.
  - by rewrite !sort_by_perm.
Qed.
End sorting.

(** ** Strings *)

(** A Python [str] whose code points are below 256 is a [string]; its
    characters are the code points. *)
Definition code (c : ascii) : Z := Z.of_N (N_of_ascii c).
Definition chr (z : Z) : ascii := ascii_of_N (Z.to_N z).

Fixpoint str_forallb (p : ascii → bool) (s : string) : bool :=
  match s with "" => true | String c s => p c && str_forallb p s end.
Fixpoint str_existsb (p : ascii → bool) (s : string) : bool :=
  match s with "" => false | String c s => p c || str_existsb p s end.

(** [str.isspace] on one character. *)
Definition py_isspace (c : ascii) : bool :=
  let z := code c in
  (9 <=? z)%Z && (z <=? 13)%Z || (28 <=? z)%Z && (z <=? 32)%Z || (z =? 133)%Z || (z =? 160)%Z.

Fixpoint lstrip_by (p : ascii → bool) (s : string) : string :=
  match s with
  | "" => ""
  | String c s' => if p c then lstrip_by p s' else s
  end.
Fixpoint rstrip_by (p : ascii → bool) (s : string) : string :=
  match s with
  | "" => ""
  | String c s' =>
      match rstrip_by p s' with
      | "" => if p c then "" else String c ""
      | r => String c r
      end
  end.

(** [s.strip()] and [s.rstrip("/")]. *)
Definition py_strip (s : string) : string := rstrip_by py_isspace (lstrip_by py_isspace s).
Definition is_slash (c : ascii) : bool := bool_decide (c = "/"%char).
Definition rstrip_slash (s : string) : string := rstrip_by is_slash s.

Definition startswith (s p : string) : bool := String.prefix p s.

Fixpoint str_rev_app (s acc : string) : string :=
  match s with "" => acc | String c s => str_rev_app s (String c acc) end.
Definition str_rev (s : string) : string := str_rev_app s "".
Definition endswith (s p : string) : bool := String.prefix (str_rev p) (str_rev s).

(** [needle in hay] *)
Fixpoint str_in (needle hay : string) : bool :=
  String.prefix needle hay ||
  match hay with "" => false | String _ hay' => str_in needle hay' end.

Definition char_in (c : ascii) (s : string) : bool := str_existsb (λ d, bool_decide (d = c)) s.

(** [s.split(sep)] for a one-character separator: never the empty list. *)
Fixpoint split_char (sep : ascii) (s : string) : list string :=
  match s with
  | "" => [""]
  | String c s' =>
      if decide (c = sep) then "" :: split_char sep s'
      else match split_char sep s' with
           | w :: ws => String c w :: ws
           | [] => [String c ""]
           end
  end.

(** [sep.join(ws)] *)
Fixpoint py_join (sep : string) (ws : list string) : string :=
  match ws with
  | [] => ""
  | [w] => w
  | w :: ws => w +:+ sep +:+ py_join sep ws
  end.

(** Lower case of a code point below 256. *)
Definition py_lower_char (c : ascii) : ascii :=
  let z := code c in
  if (65 <=? z)%Z && (z <=? 90)%Z || (192 <=? z)%Z && (z <=? 222)%Z && negb (z =? 215)%Z
  then chr (z + 32) else c.
Fixpoint py_lower (s : string) : string :=
  match s with "" => "" | String c s => String (py_lower_char c) (py_lower s) end.

(** [str.casefold] below code point 256: lower case, and sharp s becomes [ss].
    (The micro sign folds to U+03BC, which nothing else here folds to, and is
    kept.) *)
Definition casefold_char (c : ascii) : string :=
  if (code c =? 223)%Z then "ss" else String (py_lower_char c) "".
Fixpoint py_casefold (s : string) : string :=
  match s with "" => "" | String c s => casefold_char c +:+ py_casefold s end.

(** Python's order on strings: by code points, a prefix first. *)
Fixpoint str_leb (s t : string) : bool :=
  match s, t with
  | "", _ => true
  | String _ _, "" => false
  | String a s', String b t' =>
      (code a <? code b)%Z || (code a =? code b)%Z && str_leb s' t'
  end.

Definition sort_strings (l : list string) : list string := sort_by str_leb l.

Definition is_ascii_str (s : string) : bool := str_forallb (λ c, (code c <? 128)%Z) s.
Definition is_digit (c : ascii) : bool := (48 <=? code c)%Z && (code c <=? 57)%Z.
Definition is_lower (c : ascii) : bool := (97 <=? code c)%Z && (code c <=? 122)%Z.
Definition is_upper (c : ascii) : bool := (65 <=? code c)%Z && (code c <=? 90)%Z.
Definition is_hex (c : ascii) : bool := is_digit c || (97 <=? code c)%Z && (code c <=? 102)%Z.
Definition is_alnum (c : ascii) : bool := is_digit c || is_lower c || is_upper c.

(** ** String lemmas *)

Lemma code_inj a b : code a = code b → a = b.
Proof.
  unfold code. intros H%N2Z.inj.
  by rewrite <- (ascii_N_embedding a), H, ascii_N_embedding.
Qed.

Lemma code_range c : (0 <= code c < 256)%Z.
Proof. unfold code. pose proof (N_ascii_bounded c). lia. Qed.

Lemma chr_code c : chr (code c) = c.
Proof. unfold chr, code. by rewrite N2Z.id, ascii_N_embedding. Qed.

Lemma code_chr z : (0 <= z < 256)%Z → code (chr z) = z.
Proof. intros Hz. unfold chr, code. rewrite N_ascii_embedding; lia. Qed.

Lemma str_app_cons c s t : String c s +:+ t = String c (s +:+ t).
Proof. done. Qed.

Lemma str_app_nil_l s : "" +:+ s = s.
Proof. done. Qed.

Lemma str_app_assoc s t u : (s +:+ t) +:+ u = s +:+ (t +:+ u).
Proof. induction s as [|c s IH]; [done|]. rewrite !str_app_cons. by f_equal. Qed.

Lemma str_app_nil_r s : s +:+ "" = s.
Proof. induction s as [|c s IH]; [done|]. rewrite !str_app_cons. by f_equal. Qed.

Lemma str_length_app s t : String.length (s +:+ t) = (String.length s + String.length t)%nat.
Proof. induction s as [|c s IH]; [done|]. rewrite str_app_cons. cbn. by rewrite IH. Qed.

Lemma str_forallb_app p s t : str_forallb p (s +:+ t) = str_forallb p s && str_forallb p t.
Proof. induction s as [|c s IH]; [done|]. rewrite str_app_cons. cbn. by rewrite IH, andb_assoc. Qed.

Lemma str_forallb_impl (p q : ascii → bool) s :
  (∀ c, p c = true → q c = true) → str_forallb p s = true → str_forallb q s = true.
Proof.
  intros Hpq. induction s as [|c s IH]; cbn; [done|].
  intros [? ?]%andb_true_iff. rewrite Hpq, IH by done. done.
Qed.

Lemma char_in_cons c d s : char_in c (String d s) = bool_decide (d = c) || char_in c s.
Proof. done. Qed.

Lemma char_in_app c s t : char_in c (s +:+ t) = char_in c s || char_in c t.
Proof.
  induction s as [|d s IH]; [done|].
  by rewrite str_app_cons, !char_in_cons, IH, orb_assoc.
Qed.

Lemma str_forallb_not_in p c s :
  str_forallb p s = true → p c = false → char_in c s = false.
Proof.
  intros Hs Hc. induction s as [|d s IH]; [done|].
  cbn in Hs. apply andb_true_iff in Hs as [Hd Hs].
  rewrite char_in_cons, IH, orb_false_r by done.
  apply bool_decide_eq_false. congruence.
Qed.

Lemma str_leb_refl s : str_leb s s = true.
Proof.
  induction s as [|c s IH]; cbn; [done|].
  by rewrite Z.eqb_refl, IH, orb_true_r.
Qed.

Lemma str_leb_total s t : str_leb s t = true ∨ str_leb t s = true.
Proof.
  revert t; induction s as [|a s IH]; intros [|b t]; cbn; auto.
  destruct (Z.lt_trichotomy (code a) (code b)) as [H|[H|H]].
  - left. by rewrite (proj2 (Z.ltb_lt _ _)).
  - rewrite H, Z.ltb_irrefl, Z.eqb_refl. cbn. apply IH.
  - right. by rewrite (proj2 (Z.ltb_lt _ _)).
Qed.

Lemma str_leb_cons a s b t :
  str_leb (String a s) (String b t) = true ↔
  (code a < code b)%Z ∨ code a = code b ∧ str_leb s t = true.
Proof.
  cbn. rewrite orb_true_iff, andb_true_iff, Z.ltb_lt, Z.eqb_eq. done.
Qed.

Lemma str_leb_trans s t u :
  str_leb s t = true → str_leb t u = true → str_leb s u = true.
Proof.
  revert t u; induction s as [|a s IH]; intros [|b t] [|c u]; try done.
  rewrite !str_leb_cons. intros [?|[? ?]] [?|[? ?]]; [left; lia..|].
  right. split; [lia|]. eauto.
Qed.

Lemma str_leb_antisym s t : str_leb s t = true → str_leb t s = true → s = t.
Proof.
  revert t; induction s as [|a s IH]; intros [|b t]; try done.
  rewrite !str_leb_cons. intros [?|[? ?]] [?|[? ?]]; try lia.
  f_equal; [by apply code_inj|auto].
Qed.

Lemma sort_strings_perm l : sort_strings l ≡ₚ l.
Proof. apply sort_by_perm. Qed.

Lemma sort_strings_eq l1 l2 : l1 ≡ₚ l2 → sort_strings l1 = sort_strings l2.
Proof.
  apply sort_by_unique; eauto using str_leb_total, str_leb_trans, str_leb_antisym.
Qed.

Lemma sort_strings_idemp l : sort_strings (sort_strings l) = sort_strings l.
Proof. apply sort_strings_eq, sort_strings_perm. Qed.

Lemma py_join_cons sep w ws :
  ws ≠ [] → py_join sep (w :: ws) = w +:+ sep +:+ py_join sep ws.
Proof. destruct ws; done. Qed.

Lemma split_char_nonempty sep s : split_char sep s ≠ [].
Proof.
  destruct s as [|c s]; cbn; [done|]. case_decide; [done|].
  by destruct (split_char sep s).
Qed.

Lemma join_split sep s : py_join (String sep "") (split_char sep s) = s.
Proof.
  induction s as [|c s IH]; [done|]. cbn [split_char].
  pose proof (split_char_nonempty sep s). case_decide as E; [subst|].
  - rewrite py_join_cons by done. rewrite str_app_nil_l, IH. done.
  - destruct (split_char sep s) as [|w ws]; [done|].
    destruct ws as [|w' ws]; [cbn in *; congruence|].
    rewrite py_join_cons in IH |- * by done. by rewrite str_app_cons, IH.
Qed.

(** No piece of a split contains the separator. *)
Lemma split_char_pieces sep s : Forall (λ w, char_in sep w = false) (split_char sep s).
Proof.
  induction s as [|c s IH]; cbn; [by repeat constructor|].
  case_decide as E; [by constructor|].
  destruct (split_char sep s) as [|w ws] eqn:Es; [by destruct (split_char_nonempty sep s)|].
  inversion IH; subst. constructor; [|done].
  rewrite char_in_cons. by rewrite bool_decide_eq_false_2.
Qed.

Create HintDb strings.
#[export] Hint Resolve str_leb_refl str_leb_total str_leb_trans str_leb_antisym : strings.
#[export] Hint Resolve sort_strings_perm sort_strings_idemp : strings.

(** Sorting commutes with a map that keeps the order. *)
Lemma insert_by_map {A B} (f : A → B) leb leb' x l :
  (∀ x y, leb' (f x) (f y) = leb x y) →
  insert_by leb' (f x) (map f l) = map f (insert_by leb x l).
Proof.
  intros Hf. induction l as [|y l IH]; cbn; [done|]. rewrite Hf.
  destruct (leb x y); cbn; [done|]. by rewrite IH.
Qed.

Lemma sort_by_map {A B} (f : A → B) leb leb' l :
  (∀ x y, leb' (f x) (f y) = leb x y) →
  sort_by leb' (map f l) = map f (sort_by leb l).
Proof.
  intros Hf. induction l as [|x l IH]; [done|].
  change (insert_by leb' (f x) (sort_by leb' (map f l)) = map f (insert_by leb x (sort_by leb l))).
  rewrite IH. by apply insert_by_map.
Qed.

Lemma lstrip_by_head p c s : p c = false → lstrip_by p (String c s) = String c s.
Proof. intros H. cbn. by rewrite H. Qed.

(** ** List lemmas *)

Lemma elem_of_filter_list {A} (p : A → bool) x l : x ∈ List.filter p l ↔ x ∈ l ∧ p x = true.
Proof. by rewrite !list_elem_of_In, List.filter_In. Qed.

Lemma filter_sublist {A} (p : A → bool) l : List.filter p l `sublist_of` l.
Proof. induction l as [|x l IH]; cbn; [done|]. destruct (p x); by constructor. Qed.

Lemma filter_ext_list {A} (p q : A → bool) l :
  (∀ x, p x = q x) → List.filter p l = List.filter q l.
Proof. intros H. induction l as [|x l IH]; cbn; [done|]. by rewrite H, IH. Qed.

Lemma filter_perm_list {A} (p : A → bool) l m :
  l ≡ₚ m → List.filter p l ≡ₚ List.filter p m.
Proof.
  induction 1 as [|x l m _ IH|x y l|]; cbn; [done| | |by etrans].
  - destruct (p x); by rewrite IH.
  - destruct (p x), (p y); try done. apply perm_swap.
Qed.

Lemma for_each_raise {A} (p : A → bool) cls msg l :
  for_each (λ x, raise_if (p x) cls msg) l = raise_if (existsb p l) cls msg.
Proof. induction l as [|x l IH]; [done|]. cbn. destruct (p x); [done|]. exact IH. Qed.

Lemma existsb_ext {A} (f g : A → bool) l : (∀ a, f a = g a) → existsb f l = existsb g l.
Proof. intros H. induction l as [|x l IH]; cbn; [done|]. by rewrite H, IH. Qed.

Lemma existsb_perm {A} (p : A → bool) l m : l ≡ₚ m → existsb p l = existsb p m.
Proof.
  intros Hp. apply eq_true_iff_eq. rewrite !existsb_exists.
  setoid_rewrite <- list_elem_of_In. by setoid_rewrite Hp.
Qed.

Lemma string_app_inj p s t : p +:+ s = p +:+ t → s = t.
Proof. induction p as [|c p IH]; [done|]. rewrite !str_app_cons. intros [= H]. by apply IH. Qed.

Lemma map_inj_in {A B} (f : A → B) l m :
  (∀ x y, f x = f y → x = y) → map f l = map f m → l = m.
Proof.
  intros Hf. revert m. induction l as [|x l IH]; intros [|y m]; try done.
  intros [= H1 H2]. f_equal; auto.
Qed.

Lemma filter_length_perm {A} (p : A → bool) l m :
  l ≡ₚ m → length (List.filter p l) = length (List.filter p m).
Proof. intros Hp. by rewrite (filter_perm_list p l m Hp). Qed.

Lemma filter_length_mono {A} (p q : A → bool) l :
  (∀ x, p x = true → q x = true) → (length (List.filter p l) ≤ length (List.filter q l))%nat.
Proof.
  intros Hpq. induction l as [|x l IH]; cbn; [done|].
  destruct (p x) eqn:E; [rewrite (Hpq x E); cbn; lia|]. destruct (q x); cbn; lia.
Qed.

(** Prove a closed decidable proposition by evaluating its decision. *)
Ltac by_decide :=
  match goal with |- ?P => apply (proj1 (bool_decide_eq_true P)); vm_compute; reflexivity end.

(** Decide the closed tests of a goal. *)
Ltac decide_simpl :=
  repeat first [rewrite decide_True by done | rewrite decide_False by done].
