(* ===== verification/Regex.v ===== *)
(** * Regular expressions

    The fragment of Python's [re] the modules use with [fullmatch]: character
    classes, sequence, alternatives, repetition.  [fullmatch] runs
    Brzozowski derivatives; [re_lang] says what a pattern means and
    [fullmatch_spec] that the two agree.  The analyses [re_within] (which
    characters can occur) and [re_min_len] are checked on the pattern alone and
    hold of every string it matches. *)
From S2P Require Import Prelude.

Inductive re :=
  | RNone
  | REps
  | RChr (p : ascii → bool)
  | RSeq (a b : re)
  | RAlt (a b : re)
  | RStar (a : re).

(** [re_lang r s]: the whole of [s] matches [r]. *)
Inductive re_lang : re → string → Prop :=
  | lang_eps : re_lang REps ""
  | lang_chr p c : p c = true → re_lang (RChr p) (String c "")
  | lang_seq a b s t : re_lang a s → re_lang b t → re_lang (RSeq a b) (s +:+ t)
  | lang_alt_l a b s : re_lang a s → re_lang (RAlt a b) s
  | lang_alt_r a b s : re_lang b s → re_lang (RAlt a b) s
  | lang_star_nil a : re_lang (RStar a) ""
  | lang_star_app a s t : re_lang a s → re_lang (RStar a) t → re_lang (RStar a) (s +:+ t).

Fixpoint nullable (r : re) : bool :=
  match r with
  | RNone => false
  | REps => true
  | RChr _ => false
  | RSeq a b => nullable a && nullable b
  | RAlt a b => nullable a || nullable b
  | RStar _ => true
  end.

(** Constructors that drop dead branches, so derivatives stay small. *)
Definition mk_seq (a b : re) : re :=
  match a with RNone => RNone | REps => b | _ => RSeq a b end.
Definition mk_alt (a b : re) : re :=
  match a, b with RNone, _ => b | _, RNone => a | _, _ => RAlt a b end.

Fixpoint deriv (c : ascii) (r : re) : re :=
  match r with
  | RNone | REps => RNone
  | RChr p => if p c then REps else RNone
  | RSeq a b =>
      if nullable a then mk_alt (mk_seq (deriv c a) b) (deriv c b)
      else mk_seq (deriv c a) b
  | RAlt a b => mk_alt (deriv c a) (deriv c b)
  | RStar a => mk_seq (deriv c a) (RStar a)
  end.

Fixpoint fullmatch (r : re) (s : string) : bool :=
  match s with
  | "" => nullable r
  | String c s => fullmatch (deriv c r) s
  end.

(** Patterns. *)
Definition rlit_char (c : ascii) : re := RChr (λ d, bool_decide (d = c)).
Fixpoint rlit (s : string) : re :=
  match s with "" => REps | String c s => RSeq (rlit_char c) (rlit s) end.
Definition ropt (r : re) : re := RAlt REps r.
Fixpoint rtimes (n : nat) (r : re) : re :=
  match n with O => REps | S n => RSeq r (rtimes n r) end.
Fixpoint rupto (n : nat) (r : re) : re :=
  match n with O => REps | S n => ropt (RSeq r (rupto n r)) end.
(** [r{lo,hi}] *)
Definition rrep (lo hi : nat) (r : re) : re := RSeq (rtimes lo r) (rupto (hi - lo) r).

(** All 256 code points. *)
Definition all_ascii : list ascii := ascii_of_nat <$> seq 0 256.

(** Every class of [r] is included in [p]. *)
Fixpoint re_within (r : re) (p : ascii → bool) : bool :=
  match r with
  | RNone | REps => true
  | RChr q => forallb (λ c, implb (q c) (p c)) all_ascii
  | RSeq a b | RAlt a b => re_within a p && re_within b p
  | RStar a => re_within a p
  end.

Fixpoint re_min_len (r : re) : nat :=
  match r with
  | RNone | REps => 0
  | RChr _ => 1
  | RSeq a b => re_min_len a + re_min_len b
  | RAlt a b => re_min_len a `min` re_min_len b
  | RStar _ => 0
  end.

Lemma elem_of_all_ascii c : c ∈ all_ascii.
Proof.
  apply list_elem_of_fmap. exists (nat_of_ascii c). split.
  - by rewrite ascii_nat_embedding.
  - apply elem_of_seq. pose proof (nat_ascii_bounded c). lia.
Qed.

Lemma lang_eps_inv s : re_lang REps s ↔ s = "".
Proof. split; [by inversion 1|]. intros ->. constructor. Qed.

Lemma lang_none_inv s : ¬ re_lang RNone s.
Proof. by inversion 1. Qed.

Lemma lang_alt_inv a b s : re_lang (RAlt a b) s ↔ re_lang a s ∨ re_lang b s.
Proof. split; [inversion 1; auto|]. intros []; by constructor. Qed.

Lemma lang_seq_inv a b s :
  re_lang (RSeq a b) s ↔ ∃ s1 s2, s = s1 +:+ s2 ∧ re_lang a s1 ∧ re_lang b s2.
Proof.
  split; [inversion 1; subst; eauto|]. intros (s1 & s2 & -> & ? & ?). by constructor.
Qed.

Lemma mk_seq_lang a b s : re_lang (mk_seq a b) s ↔ re_lang (RSeq a b) s.
Proof.
  destruct a; try done; cbn.
  - split; [by intros ?%lang_none_inv|].
    by intros (? & ? & ? & ?%lang_none_inv & ?)%lang_seq_inv.
  - rewrite lang_seq_inv. split.
    + intros H. exists "", s. split; [done|]. split; [constructor|done].
    + intros (s1 & s2 & -> & ->%lang_eps_inv & ?). done.
Qed.

Lemma mk_alt_lang a b s : re_lang (mk_alt a b) s ↔ re_lang (RAlt a b) s.
Proof.
  rewrite lang_alt_inv.
  destruct a, b; cbn; rewrite ?lang_alt_inv;
    pose proof (lang_none_inv s); tauto.
Qed.

Lemma nullable_lang r : nullable r = true ↔ re_lang r "".
Proof.
  induction r as [| |p|a IHa b IHb|a IHa b IHb|a IHa]; cbn.
  - split; [done|]. by intros ?%lang_none_inv.
  - by rewrite lang_eps_inv.
  - split; [done|]. by inversion 1.
  - rewrite andb_true_iff, IHa, IHb, lang_seq_inv. split.
    + intros [? ?]. by exists "", "".
    + intros (s1 & s2 & Hs & ? & ?). destruct s1; [|done].
      rewrite str_app_nil_l in Hs. by subst.
  - by rewrite orb_true_iff, IHa, IHb, lang_alt_inv.
  - split; [constructor|done].
Qed.

(** A non-empty match of a repetition starts with a non-empty match of its body. *)
Lemma lang_star_cons a c s :
  re_lang (RStar a) (String c s) ↔ ∃ s1 s2, s = s1 +:+ s2 ∧ re_lang a (String c s1) ∧ re_lang (RStar a) s2.
Proof.
  split.
  - remember (RStar a) as r eqn:Er. remember (String c s) as w eqn:Ew. intros H. revert c s Er Ew.
    induction H as [| | | | | |a' s1 t H1 _ H2 IH]; intros c0 s0 Er Ew; try done. injection Er as ->.
    destruct s1 as [|d s1]; [by apply IH|]. rewrite str_app_cons in Ew. injection Ew as -> <-. by exists s1, t.
  - intros (s1 & s2 & -> & H1 & H2). change (String c (s1 +:+ s2)) with (String c s1 +:+ s2). by constructor.
Qed.

Lemma deriv_lang c r s : re_lang (deriv c r) s ↔ re_lang r (String c s).
Proof.
  revert s. induction r as [| |p|a IHa b IHb|a IHa b IHb|a IHa]; intros s; cbn.
  - split; by intros ?%lang_none_inv.
  - split; [by intros ?%lang_none_inv|]. by inversion 1.
  - destruct (p c) eqn:E.
    + rewrite lang_eps_inv. split; [intros ->; by constructor|]. by inversion 1.
    + split; [by intros ?%lang_none_inv|]. inversion 1; congruence.
  - assert (Hseq : re_lang (RSeq a b) (String c s) ↔
      re_lang (RSeq (deriv c a) b) s ∨ nullable a = true ∧ re_lang (deriv c b) s).
    { rewrite !lang_seq_inv, IHb, nullable_lang. split.
      - intros ([|d s1] & s2 & Hs & Ha & Hb).
        + right. rewrite str_app_nil_l in Hs. by subst.
        + left. rewrite str_app_cons in Hs. injection Hs as <- ->.
          exists s1, s2. by rewrite IHa.
      - intros [(s1 & s2 & -> & Ha & Hb)|[Ha Hb]].
        + exists (String c s1), s2. by rewrite str_app_cons, <- IHa.
        + by exists "", (String c s). }
    destruct (nullable a); rewrite ?mk_alt_lang, ?lang_alt_inv, mk_seq_lang, Hseq; intuition congruence.
  - by rewrite mk_alt_lang, !lang_alt_inv, IHa, IHb.
  - rewrite mk_seq_lang, lang_seq_inv, lang_star_cons. by setoid_rewrite IHa.
Qed.

(** The derivative matcher decides the language of the pattern. *)
Lemma fullmatch_spec r s : fullmatch r s = true ↔ re_lang r s.
Proof.
  revert r. induction s as [|c s IH]; intros r; cbn.
  - apply nullable_lang.
  - by rewrite IH, deriv_lang.
Qed.

Lemma re_within_sound r p s : re_within r p = true → re_lang r s → str_forallb p s = true.
Proof.
  intros Hr Hs. induction Hs as [|q c Hq|a b s t Ha IHa Hb IHb|a b s Ha IH|a b s Hb IH|a|a s t Ha IHa Hb IHb];
    cbn [re_within] in Hr; bool_inv.
  - done.
  - rewrite forallb_forall in Hr.
    pose proof (Hr c (proj1 (list_elem_of_In _ _) (elem_of_all_ascii c))) as Hc.
    rewrite Hq in Hc. cbn in Hc |- *. by rewrite Hc.
  - rewrite str_forallb_app. rewrite IHa, IHb; done.
  - auto.
  - auto.
  - done.
  - rewrite str_forallb_app. rewrite IHa, IHb; done.
Qed.

Lemma re_len_sound r s : re_lang r s → re_min_len r ≤ String.length s.
Proof.
  induction 1; cbn; rewrite ?str_length_app; lia.
Qed.

Lemma fullmatch_within r p s :
  re_within r p = true → fullmatch r s = true → str_forallb p s = true.
Proof. intros ? ?%fullmatch_spec. by eapply re_within_sound. Qed.

(** A character no class of the pattern contains is in no match. *)
Lemma fullmatch_not_in r c s :
  re_within r (λ d, negb (bool_decide (d = c))) = true →
  fullmatch r s = true → char_in c s = false.
Proof.
  intros Hr Hs. eapply str_forallb_not_in; [by eapply fullmatch_within|].
  cbn. by rewrite bool_decide_eq_true_2.
Qed.

Lemma fullmatch_len r s :
  fullmatch r s = true → re_min_len r ≤ String.length s.
Proof. rewrite fullmatch_spec. apply re_len_sound. Qed.

Lemma fullmatch_nonempty r s :
  fullmatch r s = true → 0 < re_min_len r → s ≠ "".
Proof. intros H%fullmatch_len Hr ->. cbn in H. lia. Qed.

#[export] Hint Resolve fullmatch_within fullmatch_not_in : strings.
