(* ===== verification/PyRegex.v ===== *)
(** * Searching with backtracking

    The part of [re.sub] and [re.search] the screening module uses: greedy
    matching from the leftmost position, with bounded and unbounded repetition,
    word boundaries and fixed-width look-behind.  [run] explores the
    alternatives in the order [re] does, with the continuation of the match as
    an argument; [pre] is the text before the position, reversed. *)
From S2P Require Import Prelude.

Inductive rx :=
  | XChr (p : ascii → bool)
  | XSeq (a b : rx)
  | XAlt (a b : rx)
  | XRep (lo : nat) (hi : option nat) (a : rx)
  | XBoundary
  | XBehind (ps : list (ascii → bool)).

(** [str.isalnum] or an underscore, below code point 256. *)
Definition word_char (c : ascii) : bool :=
  let z := code c in
  is_alnum c || bool_decide (c = "_"%char) ||
  (z =? 170)%Z || (z =? 178)%Z || (z =? 179)%Z || (z =? 181)%Z || (z =? 185)%Z || (z =? 186)%Z ||
  (188 <=? z)%Z && (z <=? 190)%Z || (192 <=? z)%Z && negb (z =? 215)%Z && negb (z =? 247)%Z.

Definition head_word (s : string) : bool := match s with String c _ => word_char c | "" => false end.

(** The characters just before the position, last one first. *)
Fixpoint behind (ps : list (ascii → bool)) (pre : string) : bool :=
  match ps, pre with
  | [], _ => true
  | p :: ps, String c pre => p c && behind ps pre
  | _ :: _, "" => false
  end.

Section Run.
Context {R : Type}.
Notation cont := (string → string → option R).

(** Repetition of a one-step matcher: as many as possible first.  A step that
    consumes nothing ends the repetition, so the length of the rest bounds it. *)
Fixpoint rep (step : cont → cont) (fuel lo : nat) (hi : option nat) (k : cont) (pre s : string) : option R :=
  match fuel with
  | O => None
  | S fuel =>
      let more :=
        match hi with
        | Some O => None
        | _ => step (λ pre' s',
                 if (String.length s' <? String.length s)%nat
                 then rep step fuel (pred lo) (pred <$> hi) k pre' s' else None) pre s
        end in
      match more with
      | Some x => Some x
      | None => match lo with O => k pre s | S _ => None end
      end
  end.

Fixpoint run (r : rx) (k : cont) (pre s : string) : option R :=
  match r with
  | XChr p => match s with String c s => if p c then k (String c pre) s else None | "" => None end
  | XSeq a b => run a (run b k) pre s
  | XAlt a b => match run a k pre s with Some x => Some x | None => run b k pre s end
  | XRep lo hi a => rep (run a) (S (String.length s)) lo hi k pre s
  | XBoundary => if Bool.eqb (head_word pre) (head_word s) then None else k pre s
  | XBehind ps => if behind ps pre then k pre s else None
  end.
End Run.

(** The match at a position: the reversed text before its end and the rest. *)
Definition match_at (r : rx) (pre s : string) : option (string * string) := run r (λ pre s, Some (pre, s)) pre s.

(** [re.sub(new, s)] for a pattern that matches no empty text. *)
Fixpoint sub_from (fuel : nat) (r : rx) (new pre s : string) : string :=
  match fuel with
  | O => s
  | S fuel =>
      match match_at r pre s with
      | Some (pre', s') => new +:+ sub_from fuel r new pre' s'
      | None => match s with "" => "" | String c s => String c (sub_from fuel r new (String c pre) s) end
      end
  end.
Definition sub (r : rx) (new s : string) : string := sub_from (S (String.length s)) r new "" s.

(** No match anywhere in the text. *)
Definition no_match (r : rx) (s : string) : Prop := ∀ a b, s = a +:+ b → match_at r (str_rev a) b = None.

(** Every match contains a character of [q]. *)
Fixpoint must (r : rx) (q : ascii → bool) : bool :=
  match r with
  | XChr p => forallb (λ c, implb (p c) (q c)) (ascii_of_nat <$> seq 0 256)
  | XSeq a b => must a q || must b q
  | XAlt a b => must a q && must b q
  | XRep lo _ a => (0 <? lo) && must a q
  | XBoundary | XBehind _ => false
  end.

(** Patterns. *)
Definition XEps : rx := XRep 0 (Some O) XBoundary.
Definition xeq (c : ascii) : ascii → bool := λ d, bool_decide (d = c).
Fixpoint xlit (s : string) : rx :=
  match s with "" => XEps | String c "" => XChr (xeq c) | String c s => XSeq (XChr (xeq c)) (xlit s) end.

(** ** What a match consumes *)

(** [k] succeeds after some prefix [w] of the text, of which [P] holds. *)
Definition consumes {R} (P : string → Prop) (k : string → string → option R) (pre s : string) (x : R) : Prop :=
  ∃ w s', s = w +:+ s' ∧ k (str_rev_app w pre) s' = Some x ∧ P w.

Lemma rev_app_app v w pre : str_rev_app (v +:+ w) pre = str_rev_app w (str_rev_app v pre).
Proof. revert pre. induction v as [|c v IH]; intros pre; [done|]. rewrite str_app_cons. apply IH. Qed.

Lemma consumes_seq {R} (P Q T : string → Prop) (k : string → string → option R) k' pre s x :
  (∀ v w, P v → Q w → T (v +:+ w)) →
  (∀ pre s x, k' pre s = Some x → consumes Q k pre s x) → consumes P k' pre s x → consumes T k pre s x.
Proof.
  intros HT Hk (v & s1 & -> & H & Hv). apply Hk in H as (w & s2 & -> & H & Hw).
  exists (v +:+ w), s2. rewrite str_app_assoc, rev_app_app. eauto.
Qed.

Lemma existsb_app q v w : str_existsb q (v +:+ w) = str_existsb q v || str_existsb q w.
Proof.
  induction v as [|c v IH]; [by rewrite str_app_nil_l|]. rewrite str_app_cons. cbn. by rewrite IH, orb_assoc.
Qed.

(** [w] has a character of [q] if [b] says so. *)
Definition has (q : ascii → bool) (b : bool) (w : string) : Prop := b = true → str_existsb q w = true.

Lemma rep_consumes {R} q b (step : (string → string → option R) → string → string → option R) fuel lo hi k pre s x :
  (∀ k pre s x, step k pre s = Some x → consumes (has q b) k pre s x) →
  rep step fuel lo hi k pre s = Some x → consumes (has q ((0 <? lo)%nat && b)) k pre s x.
Proof.
  intros Hstep. revert lo hi k pre s x. induction fuel as [|fuel IH]; intros lo hi k pre s x; [done|]. cbn [rep].
  set (more := match hi with Some O => None | _ => _ end).
  assert (Hmore : ∀ y, more = Some y → consumes (has q b) k pre s y).
  { intros y Hy. assert (∃ h, step (λ pre' s', if (String.length s' <? String.length s)%nat
       then rep step fuel (pred lo) h k pre' s' else None) pre s = Some y) as (h & Hs).
    { subst more. destruct hi as [[|n]|]; [done|by eexists..]. }
    apply Hstep in Hs. eapply (consumes_seq (has q b) (λ _, True)); [|intros pre' s' z Hz|exact Hs].
    - intros v w Hv _ Hb. by rewrite existsb_app, Hv.
    - cbv beta in Hz. destruct (String.length s' <? _)%nat; [|done]. apply IH in Hz as (w & s2 & ? & ? & _). by exists w, s2. }
  destruct more as [y|].
  - intros [= ->]. destruct (Hmore x eq_refl) as (w & s' & -> & Hk & Hw). exists w, s'. split_and!; [done..|].
    intros [_ Hb]%andb_true_iff. auto.
  - destruct lo; [|done]. intros Hk. exists "", s. by split_and!.
Qed.

Lemma run_consumes {R} q r (k : string → string → option R) pre s x :
  run r k pre s = Some x → consumes (has q (must r q)) k pre s x.
Proof.
  revert k pre s x. induction r as [p|a IHa b IHb|a IHa b IHb|lo hi a IHa| |ps]; intros k pre s x; cbn [run must].
  - destruct s as [|c s]; [done|]. destruct (p c) eqn:Hp; [|done]. intros Hk. exists (String c ""), s. split_and!; [done..|].
    intros Hall. assert (q c = true) as Hq; [|cbn; by rewrite Hq].
    assert (c ∈ ascii_of_nat <$> seq 0 256) as Hin.
    { apply list_elem_of_fmap. exists (nat_of_ascii c). split; [by rewrite ascii_nat_embedding|].
      apply elem_of_seq. pose proof (nat_ascii_bounded c). lia. }
    eapply forallb_forall in Hall; [|by apply list_elem_of_In, Hin]. by rewrite Hp in Hall.
  - intros H%IHa. eapply consumes_seq; [|intros ????; by apply IHb|exact H]. intros v w Hv Hw Hb.
    rewrite existsb_app. apply orb_true_iff in Hb as [Hb|Hb]; apply orb_true_iff; auto.
  - intros H. assert (consumes (has q (must a q)) k pre s x ∨ consumes (has q (must b q)) k pre s x) as [Hc|Hc].
    { destruct (run a k pre s) eqn:E; [left; injection H as ->|right]; auto. }
    all: destruct Hc as (w & s' & -> & Hk & Hw); exists w, s'; (split_and!; [done..|]); intros [? ?]%andb_true_iff; auto.
  - intros H. by eapply rep_consumes in H.
  - destruct (Bool.eqb _ _); [done|]. intros Hk. by exists "", s.
  - destruct (behind ps pre); [|done]. intros Hk. by exists "", s.
Qed.

Lemma match_at_spec q r pre s pre' s' :
  match_at r pre s = Some (pre', s') → must r q = true →
  ∃ w, s = w +:+ s' ∧ pre' = str_rev_app w pre ∧ str_existsb q w = true.
Proof. intros (w & s2 & -> & [= <- <-] & Hw)%(run_consumes q) Hm. exists w. split_and!; [done..|]. by apply Hw. Qed.

(** How many characters of a text [q] holds of. *)
Fixpoint count (q : ascii → bool) (s : string) : nat :=
  match s with "" => 0 | String c s => (if q c then 1 else 0) + count q s end.

Lemma count_app q s t : count q (s +:+ t) = count q s + count q t.
Proof. induction s as [|c s IH]; [done|]. rewrite str_app_cons. cbn. lia. Qed.

Lemma count_exists q s : str_existsb q s = true → 0 < count q s.
Proof. induction s as [|c s IH]; cbn; [done|]. destruct (q c); cbn; [lia|]. intros. by apply IH. Qed.

(** Substituting matches that all have a character of [q] by a text that has
    none loses characters of [q] wherever there is a match. *)
Lemma sub_from_count fuel r new q pre s :
  must r q = true → count q new = 0 →
  count q (sub_from fuel r new pre s) ≤ count q s ∧
  (String.length s < fuel → count q (sub_from fuel r new pre s) = count q s →
   sub_from fuel r new pre s = s ∧ ∀ a b, s = a +:+ b → match_at r (str_rev_app a pre) b = None).
Proof.
  intros Hr Hnew. revert pre s. induction fuel as [|fuel IH]; intros pre s; cbn [sub_from]; [split; [done|lia]|].
  destruct (match_at r pre s) as [[pre' s']|] eqn:Hm.
  - apply (match_at_spec q) in Hm as (w & -> & -> & Hw%count_exists); [|done].
    destruct (IH (str_rev_app w pre) s') as [Hle _]. rewrite !count_app. split; lia.
  - destruct s as [|c s].
    + split; [done|]. intros _ _. split; [done|]. intros a b Hab. by destruct a, b.
    + destruct (IH (String c pre) s) as [Hle Heq]. cbn [count String.length]. split; [lia|]. intros Hf Hc.
      destruct Heq as [E Hno]; [lia..|]. split; [by rewrite E|]. intros a b Hab. destruct a as [|d a].
      * rewrite str_app_nil_l in Hab. by subst b.
      * rewrite str_app_cons in Hab. injection Hab as <- ->. by apply Hno.
Qed.

Lemma sub_count r new q s :
  must r q = true → count q new = 0 →
  count q (sub r new s) ≤ count q s ∧ (count q (sub r new s) = count q s → sub r new s = s ∧ no_match r s).
Proof.
  intros Hr Hn. unfold sub. destruct (sub_from_count (S (String.length s)) r new q "" s Hr Hn) as [Hle Heq]. split; [done|].
  intros Hc. destruct Heq as [E Hno]; [lia..|]. split; [done|]. intros a b ->. by apply Hno.
Qed.

(** Substitution brings in no characters but the replacement's. *)
Lemma sub_chars p r new s : str_forallb p new = true → str_forallb p s = true → str_forallb p (sub r new s) = true.
Proof.
  intros Hn. unfold sub. generalize (S (String.length s)) as fuel. intros fuel. generalize "" as pre. revert s.
  induction fuel as [|fuel IH]; intros s pre Hs; cbn [sub_from]; [done|].
  destruct (match_at r pre s) as [[pre' s']|] eqn:Hm.
  - apply (run_consumes (λ _, true)) in Hm as (w & s2 & -> & [= <- <-] & _). rewrite str_forallb_app in *.
    apply andb_true_iff in Hs as [_ Hs]. by rewrite Hn, IH.
  - destruct s as [|c s]; [done|]. cbn in *. apply andb_true_iff in Hs as [-> Hs]. by rewrite IH.
Qed.

(** A text without the characters every match needs is left alone. *)
Lemma sub_none q r new s : must r q = true → str_existsb q s = false → sub r new s = s.
Proof.
  intros Hr. unfold sub. generalize (S (String.length s)) as fuel. intros fuel. generalize "" as pre. revert s.
  induction fuel as [|fuel IH]; intros s pre Hs; cbn [sub_from]; [done|].
  destruct (match_at r pre s) as [[pre' s']|] eqn:Hm.
  - apply (match_at_spec q) in Hm as (w & -> & _ & Hw); [|done]. rewrite existsb_app, Hw in Hs. done.
  - destruct s as [|c s]; [done|]. cbn in Hs. apply orb_false_iff in Hs as [_ Hs]. by rewrite IH.
Qed.
