(* ===== verification/Sha256.v ===== *)
(** * [hashlib.sha256], [hmac.new] and [str.encode]

    SHA-256 (FIPS 180-4) and HMAC-SHA-256 (RFC 2104) as functions on byte
    strings, so that every digest the modules compute is computed here too.
    Bytes and 32-bit words are [Z]s; words are truncated to 32 bits where the
    standard does.  Collision resistance is not assumed anywhere: theorems that
    depend on it end in an explicit [sha256_collide]. *)
From S2P Require Import Prelude Regex.

#[local] Open Scope Z_scope.

(** A Python [bytes] object. *)
Abbreviation bytes := (list Z).

(** [s.encode("utf-8")] for code points below 256. *)
Fixpoint encode_utf8 (s : string) : bytes :=
  match s with
  | "" => []
  | String c s =>
      let z := code c in
      if z <? 128 then z :: encode_utf8 s
      else Z.lor 192 (Z.shiftr z 6) :: Z.lor 128 (Z.land z 63) :: encode_utf8 s
  end.

Definition w32 (z : Z) : Z := Z.land z 0xffffffff.
Definition rotr (n x : Z) : Z := Z.lor (Z.shiftr x n) (w32 (Z.shiftl x (32 - n))).
Definition sha_ch (x y z : Z) : Z := Z.lxor (Z.land x y) (Z.land (Z.lxor x 0xffffffff) z).
Definition sha_maj (x y z : Z) : Z :=
  Z.lxor (Z.lxor (Z.land x y) (Z.land x z)) (Z.land y z).
Definition big_sigma0 (x : Z) : Z := Z.lxor (Z.lxor (rotr 2 x) (rotr 13 x)) (rotr 22 x).
Definition big_sigma1 (x : Z) : Z := Z.lxor (Z.lxor (rotr 6 x) (rotr 11 x)) (rotr 25 x).
Definition small_sigma0 (x : Z) : Z := Z.lxor (Z.lxor (rotr 7 x) (rotr 18 x)) (Z.shiftr x 3).
Definition small_sigma1 (x : Z) : Z := Z.lxor (Z.lxor (rotr 17 x) (rotr 19 x)) (Z.shiftr x 10).

(** The largest [r] below [2^n] with [r^k <= x]. *)
Fixpoint root_below (n : nat) (k x acc : Z) : Z :=
  match n with
  | O => acc
  | S n =>
      let acc' := acc + 2 ^ Z.of_nat n in
      root_below n k x (if acc' ^ k <=? x then acc' else acc)
  end.

(** The first 32 bits of the fractional part of the [k]-th root of [p]. *)
Definition root_fraction (k p : Z) : Z := w32 (root_below 37 k (p * 2 ^ (32 * k)) 0).

Fixpoint primes_from (fuel : nat) (n : Z) (found : list Z) : list Z :=
  match fuel with
  | O => rev found
  | S fuel =>
      primes_from fuel (n + 1) (if existsb (λ p, n mod p =? 0) found then found else n :: found)
  end.

(** The round constants come from the cube roots of the first 64 primes, the
    initial words from the square roots of the first eight. *)
Definition first_primes : list Z := Eval vm_compute in primes_from 310 2 [].
Definition sha_K : list Z := Eval vm_compute in map (root_fraction 3) first_primes.

(** The chaining value: eight words. *)
Record sha_state := ShaState { hA : Z; hB : Z; hC : Z; hD : Z; hE : Z; hF : Z; hG : Z; hH : Z }.

Definition sha_init : sha_state := Eval vm_compute in
  match map (root_fraction 2) first_primes with
  | a :: b :: c :: d :: e :: f :: g :: h :: _ => ShaState a b c d e f g h
  | _ => ShaState 0 0 0 0 0 0 0 0
  end.

(** Big-endian integers of [n] bytes. *)
Fixpoint be_bytes (n : nat) (z : Z) : bytes :=
  match n with
  | O => []
  | S n => Z.land (Z.shiftr z (8 * Z.of_nat n)) 255 :: be_bytes n z
  end.

Fixpoint be_words (n : nat) (b : bytes) : list Z :=
  match n, b with
  | S n, b0 :: b1 :: b2 :: b3 :: b =>
      Z.lor (Z.shiftl b0 24) (Z.lor (Z.shiftl b1 16) (Z.lor (Z.shiftl b2 8) b3)) :: be_words n b
  | _, _ => []
  end.

(** The message schedule: [w] holds the words so far, newest first. *)
Fixpoint sha_schedule (n : nat) (w : list Z) : list Z :=
  match n with
  | O => rev w
  | S n =>
      let at_ i := nth i w 0 in
      sha_schedule n
        (w32 (small_sigma1 (at_ 1%nat) + at_ 6%nat + small_sigma0 (at_ 14%nat) + at_ 15%nat) :: w)
  end.

Definition sha_round (s : sha_state) (kw : Z * Z) : sha_state :=
  let t1 := hH s + big_sigma1 (hE s) + sha_ch (hE s) (hF s) (hG s) + kw.1 + kw.2 in
  let t2 := big_sigma0 (hA s) + sha_maj (hA s) (hB s) (hC s) in
  ShaState (w32 (t1 + t2)) (hA s) (hB s) (hC s) (w32 (hD s + t1)) (hE s) (hF s) (hG s).

Definition sha_block (s : sha_state) (b : bytes) : sha_state :=
  let ws := sha_schedule 48 (rev (be_words 16 b)) in
  let t := fold_left sha_round (zip sha_K ws) s in
  ShaState (w32 (hA s + hA t)) (w32 (hB s + hB t)) (w32 (hC s + hC t)) (w32 (hD s + hD t))
           (w32 (hE s + hE t)) (w32 (hF s + hF t)) (w32 (hG s + hG t)) (w32 (hH s + hH t)).

Definition sha_pad (m : bytes) : bytes :=
  let n := Z.of_nat (length m) in
  m ++ 128 :: replicate (Z.to_nat ((55 - n) mod 64)) 0 ++ be_bytes 8 (8 * n).

Fixpoint sha_blocks (fuel : nat) (s : sha_state) (b : bytes) : sha_state :=
  match fuel with
  | O => s
  | S fuel =>
      match b with
      | [] => s
      | _ => sha_blocks fuel (sha_block s (take 64 b)) (drop 64 b)
      end
  end.

Definition sha_words (s : sha_state) : list Z :=
  [hA s; hB s; hC s; hD s; hE s; hF s; hG s; hH s].

Definition sha256_words (m : bytes) : list Z :=
  let b := sha_pad m in sha_words (sha_blocks (length b) sha_init b).

(** [.digest()] *)
Definition sha256 (m : bytes) : bytes := concat (be_bytes 4 <$> sha256_words m).

Definition hex_digit (z : Z) : ascii := chr (if z <? 10 then 48 + z else 87 + z).
Fixpoint hex_of (b : bytes) : string :=
  match b with
  | [] => ""
  | z :: b => String (hex_digit (Z.shiftr (Z.land z 255) 4)) (String (hex_digit (Z.land z 15)) (hex_of b))
  end.

(** [hashlib.sha256(m).hexdigest()] *)
Definition sha256_hex (m : bytes) : string := hex_of (sha256 m).

(** [hmac.new(key, m, hashlib.sha256).hexdigest()] *)
Definition hmac_pad (key : bytes) (x : Z) : bytes :=
  let k := if (64 <? length key)%nat then sha256 key else key in
  Z.lxor x <$> (k ++ replicate (64 - length k) 0).
Definition hmac_sha256_hex (key m : bytes) : string :=
  sha256_hex (hmac_pad key 0x5c ++ sha256 (hmac_pad key 0x36 ++ m)).

#[global] Arguments sha256_hex _ : simpl never.
#[global] Arguments hmac_sha256_hex _ _ : simpl never.

(** [hmac.compare_digest] on two [str]s: a [TypeError] on non-ASCII text. *)
Definition compare_digest (a b : string) : res bool :=
  if is_ascii_str a && is_ascii_str b then Ok (bool_decide (a = b))
  else Err (Exn TypeError "comparing strings with non-ASCII characters is not supported").

Definition hex_class : re := RChr is_hex.
(** [^[0-9a-f]{64}$] *)
Definition SHA256_RE : re := rrep 64 64 hex_class.

(** Two texts, named, that are different and have one digest.  Digests are
    32 bytes, so some collision exists: only a named pair says anything. *)
Definition sha256_collide (s t : string) : Prop :=
  s ≠ t ∧ sha256_hex (encode_utf8 s) = sha256_hex (encode_utf8 t).

Example sha256_abc :
  sha256_hex (encode_utf8 "abc") = "ba7816bf8f01cfea414140de5dae2223b00361a396177a9cb410ff61f20015ad".
Proof. vm_compute. reflexivity. Qed.

Example sha256_empty :
  sha256_hex [] = "e3b0c44298fc1c149afbf4c8996fb92427ae41e4649b934ca495991b7852b855".
Proof. vm_compute. reflexivity. Qed.

Example hmac_jefe :
  hmac_sha256_hex (encode_utf8 "Jefe") (encode_utf8 "what do ya want for nothing?") =
  "5bdcc146bf60754e6a042426089575c75a003f089d2739839dec58b964ec3843".
Proof. vm_compute. reflexivity. Qed.

(** ** Shape of digests *)

Lemma be_bytes_length n z : length (be_bytes n z) = n.
Proof. induction n; cbn; congruence. Qed.

Lemma sha256_length m : length (sha256 m) = 32%nat.
Proof. reflexivity. Qed.

Lemma hex_digit_is_hex z : 0 <= z < 16 → is_hex (hex_digit z) = true.
Proof.
  intros Hz. unfold is_hex, is_digit, hex_digit.
  destruct (z <? 10) eqn:E; bool_inv; rewrite !code_chr by lia; lia.
Qed.

Lemma land_range z n : 0 <= n → 0 <= Z.land z (Z.ones n) < 2 ^ n.
Proof. intros ?. rewrite Z.land_ones by done. apply Z.mod_pos_bound. lia. Qed.

Lemma hex_of_hex b : str_forallb is_hex (hex_of b) = true.
Proof.
  induction b as [|z b IH]; [done|]. cbn [hex_of str_forallb].
  rewrite IH, !hex_digit_is_hex; [done| |].
  - apply (land_range z 4). lia.
  - pose proof (land_range z 8 ltac:(lia)). change (Z.ones 8) with 255 in *.
    rewrite Z.shiftr_div_pow2 by lia. split; [apply Z.div_pos; lia|].
    apply Z.div_lt_upper_bound; lia.
Qed.

Lemma hex_of_length b : String.length (hex_of b) = (2 * length b)%nat.
Proof. induction b as [|z b IH]; cbn; [done|]. rewrite IH. lia. Qed.

Lemma rtimes_class p n s :
  String.length s = n → str_forallb p s = true → re_lang (rtimes n (RChr p)) s.
Proof.
  revert n. induction s as [|c s IH]; intros n <- Hs; cbn in *; [constructor|].
  bool_inv. rewrite <- (str_app_nil_l s), <- str_app_cons.
  constructor; [by constructor|auto].
Qed.

(** A hex digest always matches [SHA256_RE]. *)
Lemma sha256_hex_shape m : fullmatch SHA256_RE (sha256_hex m) = true.
Proof.
  apply fullmatch_spec. unfold SHA256_RE, rrep. rewrite <- (str_app_nil_r (sha256_hex m)).
  constructor; [|constructor].
  apply rtimes_class; [|apply hex_of_hex].
  unfold sha256_hex. by rewrite hex_of_length, sha256_length.
Qed.

Lemma hmac_hex_shape key m : fullmatch SHA256_RE (hmac_sha256_hex key m) = true.
Proof. apply sha256_hex_shape. Qed.

Lemma is_hex_ascii c : is_hex c = true → (code c <? 128) = true.
Proof. unfold is_hex, is_digit. lia. Qed.

Lemma sha256_re_ascii s : fullmatch SHA256_RE s = true → is_ascii_str s = true.
Proof. apply fullmatch_within. vm_compute. reflexivity. Qed.

Lemma compare_digest_Ok a b same :
  is_ascii_str a = true → compare_digest a b = Ok same → same = bool_decide (a = b).
Proof. intros Ha. unfold compare_digest. destruct (_ && _); [by intros [= <-]|done]. Qed.

Lemma compare_digest_same a : is_ascii_str a = true → compare_digest a a = Ok true.
Proof. intros Ha. unfold compare_digest. rewrite Ha. cbn. by rewrite bool_decide_eq_true_2. Qed.

Lemma hmac_ascii key m : is_ascii_str (hmac_sha256_hex key m) = true.
Proof. apply sha256_re_ascii, hmac_hex_shape. Qed.

(** ** [encode_utf8] is injective *)

Lemma land_lt_128 z : 0 <= z < 256 → Z.lor 192 (Z.shiftr z 6) = 192 + z / 64.
Proof.
  intros Hz. rewrite Z.shiftr_div_pow2 by lia. change (2 ^ 6) with 64.
  assert (0 <= z / 64 < 4) by (split; [apply Z.div_pos|apply Z.div_lt_upper_bound]; lia).
  assert (Hq : z / 64 = 0 ∨ z / 64 = 1 ∨ z / 64 = 2 ∨ z / 64 = 3) by lia.
  by destruct Hq as [Hq|[Hq|[Hq|Hq]]]; rewrite Hq.
Qed.

Lemma lor_128_land z : 0 <= z < 256 → Z.lor 128 (Z.land z 63) = 128 + z mod 64.
Proof.
  intros Hz. change 63 with (Z.ones 6). rewrite Z.land_ones by lia. change (2 ^ 6) with 64.
  pose proof (Z.mod_pos_bound z 64 ltac:(lia)).
  rewrite <- Z.lxor_lor, <- Z.add_nocarry_lxor; [done| |].
  all: change 128 with (2 ^ 7); apply Z.bits_inj'; intros n Hn;
    rewrite Z.land_spec, Z.bits_0;
    destruct (Z.eq_dec n 7) as [->|]; [|rewrite Z.pow2_bits_false by lia; done];
    rewrite (Z.testbit_eqb (z mod 64) 7) by lia; rewrite (Z.div_small (z mod 64)) by lia;
    by rewrite andb_false_r.
Qed.

Lemma encode_utf8_inj s t : encode_utf8 s = encode_utf8 t → s = t.
Proof.
  revert t. induction s as [|a s IH]; intros [|b t]; cbn; try done.
  - destruct (_ <? _); done.
  - destruct (_ <? _); done.
  - pose proof (code_range a); pose proof (code_range b).
    destruct (code a <? 128) eqn:Ea, (code b <? 128) eqn:Eb; bool_inv;
      rewrite ?land_lt_128, ?lor_128_land by lia; intros [=].
    + f_equal; [by apply code_inj|auto].
    + assert (2 <= code b / 64) by (apply Z.div_le_lower_bound; lia). lia.
    + assert (2 <= code a / 64) by (apply Z.div_le_lower_bound; lia). lia.
    + f_equal; [|auto]. apply code_inj.
      rewrite (Z.div_mod (code a) 64), (Z.div_mod (code b) 64) by lia. lia.
Qed.

(** Equal digests of two texts: the texts agree or a collision is at hand. *)
Lemma sha256_text_inj s t :
  sha256_hex (encode_utf8 s) = sha256_hex (encode_utf8 t) → s = t ∨ sha256_collide s t.
Proof. intros H. destruct (decide (s = t)) as [|Hne]; [by left|]. by right. Qed.

#[export] Hint Resolve sha256_hex_shape hmac_hex_shape sha256_re_ascii : strings.
