(* ===== verification/Json.v ===== *)
(** * JSON values, [json.dumps] and [json.loads]

    Python values that cross a JSON boundary: [None], booleans, integers,
    strings, lists and dictionaries (association lists in insertion order).
    Floats are not part of the type, and [loads] refuses them.  [dumps ea] is
    [json.dumps(v, sort_keys=True, separators=(',', ':'), ensure_ascii=ea)];
    [loads_dumps] proves that reading back gives the value with its keys
    sorted, and [dumps_inj] that equal texts come from equal such values. *)
From S2P Require Import Prelude.

Inductive json :=
  | JNull
  | JBool (b : bool)
  | JInt (z : Z)
  | JStr (s : string)
  | JList (l : list json)
  | JObj (kvs : list (string * json)).

(** Induction through the lists. *)
Definition json_nested_ind (P : json → Prop)
    (Pnull : P JNull) (Pbool : ∀ b, P (JBool b)) (Pint : ∀ z, P (JInt z))
    (Pstr : ∀ s, P (JStr s)) (Plist : ∀ l, Forall P l → P (JList l))
    (Pobj : ∀ kvs, Forall (λ kv, P kv.2) kvs → P (JObj kvs)) : ∀ v, P v :=
  fix go v :=
    match v with
    | JNull => Pnull
    | JBool b => Pbool b
    | JInt z => Pint z
    | JStr s => Pstr s
    | JList l =>
        Plist l ((fix gol l : Forall P l :=
          match l with [] => Forall_nil_2 _ | x :: l => Forall_cons_2 _ _ _ (go x) (gol l) end) l)
    | JObj kvs =>
        Pobj kvs ((fix gok kvs : Forall (λ kv, P kv.2) kvs :=
          match kvs with
          | [] => Forall_nil_2 _
          | kv :: kvs => Forall_cons_2 _ _ _ (go kv.2) (gok kvs)
          end) kvs)
    end.

(** ** Dictionaries *)

(** [d.get(k)] *)
Fixpoint dict_get {A} (k : string) (d : list (string * A)) : option A :=
  match d with
  | [] => None
  | (k', v) :: d => if decide (k' = k) then Some v else dict_get k d
  end.

(** [d[k] = v]: in place when the key is present, at the end otherwise. *)
Fixpoint dict_set {A} (k : string) (v : A) (d : list (string * A)) : list (string * A) :=
  match d with
  | [] => [(k, v)]
  | (k', v') :: d => if decide (k' = k) then (k, v) :: d else (k', v') :: dict_set k v d
  end.

Definition dict_of_pairs {A} (kvs : list (string * A)) : list (string * A) :=
  fold_left (λ d kv, dict_set kv.1 kv.2 d) kvs [].

(** [d.update(e)] *)
Definition dict_update {A} (d e : list (string * A)) : list (string * A) :=
  fold_left (λ d kv, dict_set kv.1 kv.2 d) e d.

(** [d.pop(k, None)] *)
Definition dict_del {A} (k : string) (d : list (string * A)) : list (string * A) :=
  List.filter (λ kv, negb (bool_decide (kv.1 = k))) d.

(** [d.setdefault(k, v)] *)
Definition dict_default {A} (k : string) (v : A) (d : list (string * A)) : list (string * A) :=
  match dict_get k d with Some _ => d | None => dict_set k v d end.

Definition dict_has {A} (k : string) (d : list (string * A)) : bool :=
  match dict_get k d with Some _ => true | None => false end.

(** Keys are unique at every level. *)
Fixpoint json_wf (v : json) : bool :=
  match v with
  | JNull | JBool _ | JInt _ | JStr _ => true
  | JList l => forallb json_wf l
  | JObj kvs => bool_decide (NoDup kvs.*1) && forallb (λ kv, json_wf kv.2) kvs
  end.

(** Python's [==]: [True == 1], and dictionaries compare without order. *)
Fixpoint py_eq (v w : json) {struct v} : bool :=
  match v, w with
  | JNull, JNull => true
  | JBool a, JBool b => Bool.eqb a b
  | JBool a, JInt z | JInt z, JBool a => (z =? Z.b2z a)%Z
  | JInt x, JInt y => (x =? y)%Z
  | JStr s, JStr t => bool_decide (s = t)
  | JList l, JList m =>
      (fix go l m :=
        match l, m with
        | [], [] => true
        | x :: l, y :: m => py_eq x y && go l m
        | _, _ => false
        end) l m
  | JObj d, JObj e =>
      (length d =? length e)%nat &&
      forallb (λ kv, match dict_get kv.1 e with Some w => py_eq kv.2 w | None => false end) d
  | _, _ => false
  end.

(** ** Integers in decimal *)

Definition digit_char (d : Z) : ascii := chr (48 + d).

Fixpoint dec_digits (fuel : nat) (n : Z) (acc : string) : string :=
  match fuel with
  | O => acc
  | S fuel =>
      let acc := String (digit_char (n mod 10)) acc in
      if (n <? 10)%Z then acc else dec_digits fuel (n / 10) acc
  end.

Definition str_of_nonneg (n : Z) : string := dec_digits (S (Z.to_nat (Z.log2 n))) n "".

(** [str(z)] *)
Definition str_of_int (z : Z) : string :=
  if (z <? 0)%Z then String "-"%char (str_of_nonneg (- z)) else str_of_nonneg z.

(** ** [json.dumps] *)

Definition quote_char : ascii := "034"%char.
Definition backslash : ascii := "092"%char.

Definition hex4_digit (z : Z) : ascii := chr (if (z <? 10)%Z then 48 + z else 87 + z)%Z.

(** One character of a JSON string; [ea] is [ensure_ascii]. *)
Definition json_escape (ea : bool) (c : ascii) : string :=
  let z := code c in
  if decide (c = quote_char) then String backslash (String quote_char "")
  else if decide (c = backslash) then String backslash (String backslash "")
  else if (z =? 8)%Z then String backslash "b"
  else if (z =? 9)%Z then String backslash "t"
  else if (z =? 10)%Z then String backslash "n"
  else if (z =? 12)%Z then String backslash "f"
  else if (z =? 13)%Z then String backslash "r"
  else if (z <? 32)%Z || ea && (126 <? z)%Z then
    String backslash (String "u" (String "0" (String "0"
      (String (hex4_digit (z / 16)) (String (hex4_digit (z mod 16)) "")))))
  else String c "".

Fixpoint json_escape_str (ea : bool) (s : string) : string :=
  match s with "" => "" | String c s => json_escape ea c +:+ json_escape_str ea s end.

Definition json_quote (ea : bool) (s : string) : string :=
  String quote_char (json_escape_str ea s +:+ String quote_char "").

Definition key_leb {A} (x y : string * A) : bool := str_leb x.1 y.1.

Fixpoint dumps (ea : bool) (v : json) : string :=
  match v with
  | JNull => "null"
  | JBool true => "true"
  | JBool false => "false"
  | JInt z => str_of_int z
  | JStr s => json_quote ea s
  | JList l => "[" +:+ py_join "," (map (dumps ea) l) +:+ "]"
  | JObj kvs =>
      "{" +:+ py_join "," (map (λ ks, json_quote ea ks.1 +:+ ":" +:+ ks.2)
        (sort_by key_leb (map (λ kv, (kv.1, dumps ea kv.2)) kvs))) +:+ "}"
  end.

(** Keys sorted at every level. *)
Fixpoint json_canon (v : json) : json :=
  match v with
  | JList l => JList (map json_canon l)
  | JObj kvs => JObj (sort_by key_leb (map (λ kv, (kv.1, json_canon kv.2)) kvs))
  | _ => v
  end.

(** ** [json.loads] *)

Definition is_json_ws (c : ascii) : bool :=
  let z := code c in (z =? 32)%Z || (z =? 9)%Z || (z =? 10)%Z || (z =? 13)%Z.

Definition skip_ws (s : string) : string := lstrip_by is_json_ws s.

Definition hex_val (c : ascii) : option Z :=
  let z := code c in
  if (48 <=? z)%Z && (z <=? 57)%Z then Some (z - 48)%Z
  else if (97 <=? z)%Z && (z <=? 102)%Z then Some (z - 87)%Z
  else if (65 <=? z)%Z && (z <=? 70)%Z then Some (z - 55)%Z
  else None.

(** A simple escape after the backslash. *)
Definition unescape (c : ascii) : option ascii :=
  if decide (c = quote_char) then Some quote_char
  else if decide (c = backslash) then Some backslash
  else if decide (c = "/"%char) then Some "/"%char
  else if decide (c = "b"%char) then Some "008"%char
  else if decide (c = "f"%char) then Some "012"%char
  else if decide (c = "n"%char) then Some "010"%char
  else if decide (c = "r"%char) then Some "013"%char
  else if decide (c = "t"%char) then Some "009"%char
  else None.

(** The rest of a string literal after its opening quote.  A [\u] escape above
    255 is outside the string model and is refused. *)
Fixpoint parse_string (s : string) : option (string * string) :=
  match s with
  | "" => None
  | String c s1 =>
      if decide (c = quote_char) then Some ("", s1)
      else if decide (c = backslash) then
        match s1 with
        | String e s2 =>
            if decide (e = "u"%char) then
              match s2 with
              | String a (String b (String x (String y s3))) =>
                  match hex_val a, hex_val b, hex_val x, hex_val y with
                  | Some a, Some b, Some x, Some y =>
                      if (a =? 0)%Z && (b =? 0)%Z then
                        match parse_string s3 with
                        | Some (t, r) => Some (String (chr (16 * x + y)) t, r)
                        | None => None
                        end
                      else None
                  | _, _, _, _ => None
                  end
              | _ => None
              end
            else match unescape e with
                 | Some d => match parse_string s2 with
                             | Some (t, r) => Some (String d t, r)
                             | None => None
                             end
                 | None => None
                 end
        | "" => None
        end
      else if (code c <? 32)%Z then None
      else match parse_string s1 with
           | Some (t, r) => Some (String c t, r)
           | None => None
           end
  end.

(** [str.isdigit] below code point 128. *)
Definition isdigit (s : string) : bool := negb (bool_decide (s = "")) && str_forallb is_digit s.

Fixpoint read_digits (acc : Z) (s : string) : Z * string :=
  match s with
  | "" => (acc, "")
  | String c s' =>
      if is_digit c then read_digits (10 * acc + (code c - 48))%Z s' else (acc, s)
  end.

(** A fraction or an exponent would make the number a float. *)
Definition float_tail (s : string) : bool :=
  match s with
  | String c _ => bool_decide (c = "."%char) || bool_decide (c = "e"%char) || bool_decide (c = "E"%char)
  | "" => false
  end.

Definition parse_nonneg (s : string) : option (Z * string) :=
  match s with
  | String c s' =>
      if decide (c = "0"%char) then Some (0%Z, s')
      else if is_digit c then Some (read_digits 0 s)
      else None
  | "" => None
  end.

Definition parse_number (s : string) : option (Z * string) :=
  let signed := match s with String c s' => if decide (c = "-"%char) then Some s' else None | "" => None end in
  match (match signed with
         | Some s' => match parse_nonneg s' with Some (n, r) => Some ((- n)%Z, r) | None => None end
         | None => parse_nonneg s
         end) with
  | Some (n, r) => if float_tail r then None else Some (n, r)
  | None => None
  end.

Fixpoint drop_prefix (p s : string) : option string :=
  match p, s with
  | "", _ => Some s
  | String a p, String b s => if decide (a = b) then drop_prefix p s else None
  | _, _ => None
  end.

(** The parser; [hook] is what becomes of the pairs of an object
    ([object_pairs_hook]), [None] when it raises. *)
Section Parser.
Context (hook : list (string * json) → option json).

Fixpoint parse_value (fuel : nat) (s : string) : option (json * string) :=
  match fuel with
  | O => None
  | S fuel =>
      match skip_ws s with
      | "" => None
      | String c s1 =>
          if decide (c = quote_char) then
            match parse_string s1 with Some (t, r) => Some (JStr t, r) | None => None end
          else if decide (c = "["%char) then
            match skip_ws s1 with
            | String d s2 =>
                if decide (d = "]"%char) then Some (JList [], s2)
                else match parse_elems fuel (String d s2) with
                     | Some (l, r) => Some (JList l, r)
                     | None => None
                     end
            | "" => None
            end
          else if decide (c = "{"%char) then
            match skip_ws s1 with
            | String d s2 =>
                if decide (d = "}"%char) then Some (JObj [], s2)
                else match parse_members fuel (String d s2) with
                     | Some (kvs, r) => match hook kvs with Some v => Some (v, r) | None => None end
                     | None => None
                     end
            | "" => None
            end
          else if decide (c = "n"%char) then
            match drop_prefix "ull" s1 with Some r => Some (JNull, r) | None => None end
          else if decide (c = "t"%char) then
            match drop_prefix "rue" s1 with Some r => Some (JBool true, r) | None => None end
          else if decide (c = "f"%char) then
            match drop_prefix "alse" s1 with Some r => Some (JBool false, r) | None => None end
          else match parse_number (String c s1) with
               | Some (n, r) => Some (JInt n, r)
               | None => None
               end
      end
  end
with parse_elems (fuel : nat) (s : string) : option (list json * string) :=
  match fuel with
  | O => None
  | S fuel =>
      match parse_value fuel s with
      | None => None
      | Some (v, s1) =>
          match skip_ws s1 with
          | String c s2 =>
              if decide (c = "]"%char) then Some ([v], s2)
              else if decide (c = ","%char) then
                match parse_elems fuel s2 with Some (vs, r) => Some (v :: vs, r) | None => None end
              else None
          | "" => None
          end
      end
  end
with parse_members (fuel : nat) (s : string) : option (list (string * json) * string) :=
  match fuel with
  | O => None
  | S fuel =>
      match skip_ws s with
      | String q s0 =>
          if decide (q = quote_char) then
            match parse_string s0 with
            | None => None
            | Some (k, s1) =>
                match skip_ws s1 with
                | String c s2 =>
                    if decide (c = ":"%char) then
                      match parse_value fuel s2 with
                      | None => None
                      | Some (v, s3) =>
                          match skip_ws s3 with
                          | String d s4 =>
                              if decide (d = "}"%char) then Some ([(k, v)], s4)
                              else if decide (d = ","%char) then
                                match parse_members fuel s4 with
                                | Some (kvs, r) => Some ((k, v) :: kvs, r)
                                | None => None
                                end
                              else None
                          | "" => None
                          end
                      end
                    else None
                | "" => None
                end
            end
          else None
      | "" => None
      end
  end.

(** [json.loads(s, object_pairs_hook=hook)]; [None] is a [ValueError].  The
    nesting of a value is bounded by the length of its text, so the fuel is
    enough. *)
Definition loads_with (s : string) : option json :=
  match parse_value (S (String.length s)) s with
  | Some (v, r) => if decide (skip_ws r = "") then Some v else None
  | None => None
  end.

End Parser.

Definition as_dict (kvs : list (string * json)) : option json := Some (JObj (dict_of_pairs kvs)).
(** A hook that raises on a repeated key. *)
Definition as_unique (kvs : list (string * json)) : option json :=
  if bool_decide (NoDup kvs.*1) then Some (JObj kvs) else None.

(** [json.loads(s)] *)
Definition loads (s : string) : option json := loads_with as_dict s.
Definition loads_unique (s : string) : option json := loads_with as_unique s.

(** ** Reading back what [dumps] wrote *)

(** What may follow a number for it to end there. *)
Definition num_end (s : string) : bool :=
  match s with "" => true | String c _ => negb (is_digit c) && negb (float_tail s) end.

Definition member_text (ea : bool) (kv : string * json) : string :=
  json_quote ea kv.1 +:+ ":" +:+ dumps ea kv.2.

(** A measure of nesting and length that bounds the parser's recursion. *)
Fixpoint json_size (v : json) : nat :=
  match v with
  | JList l => S (sum_list (map (λ x, S (json_size x)) l))
  | JObj kvs => S (sum_list (map (λ kv, S (json_size kv.2)) kvs))
  | _ => 1
  end.

Lemma sort_key_map {A B} (f : A → B) (kvs : list (string * A)) :
  sort_by key_leb (map (λ kv, (kv.1, f kv.2)) kvs) =
  map (λ kv, (kv.1, f kv.2)) (sort_by key_leb kvs).
Proof. by apply sort_by_map. Qed.

Lemma dumps_obj ea kvs :
  dumps ea (JObj kvs) =
  "{" +:+ py_join "," (map (member_text ea) (sort_by key_leb kvs)) +:+ "}".
Proof.
  cbn [dumps]. rewrite (sort_key_map (dumps ea)), map_map. done.
Qed.

Lemma canon_obj kvs :
  json_canon (JObj kvs) =
  JObj (map (λ kv, (kv.1, json_canon kv.2)) (sort_by key_leb kvs)).
Proof. cbn [json_canon]. by rewrite sort_key_map. Qed.

Lemma digit_char_props d :
  (0 <= d < 10)%Z → is_digit (digit_char d) = true ∧ code (digit_char d) = (48 + d)%Z.
Proof. intros Hd. unfold is_digit, digit_char. rewrite code_chr by lia. split; lia. Qed.

Lemma read_dec_digits fuel n acc :
  (0 <= n < 2 ^ Z.of_nat fuel)%Z → fuel ≠ 0 →
  read_digits 0 (dec_digits fuel n acc) = read_digits n acc.
Proof.
  revert n acc. induction fuel as [|fuel IH]; intros n acc Hn Hf; [done|].
  pose proof (Z.mod_pos_bound n 10 ltac:(lia)) as Hm.
  destruct (digit_char_props _ Hm) as [Hd Hc].
  cbn [dec_digits]. destruct (n <? 10)%Z eqn:E; bool_inv.
  - cbn [read_digits]. rewrite Hd, Hc, Z.mod_small by lia. f_equal. lia.
  - rewrite IH.
    + cbn [read_digits]. rewrite Hd, Hc. f_equal. pose proof (Z.div_mod n 10). lia.
    + rewrite Nat2Z.inj_succ, Z.pow_succ_r in Hn by lia. split; [apply Z.div_pos; lia|].
      apply Z.div_lt_upper_bound; lia.
    + intros ->. cbn in Hn. lia.
Qed.

(** The leading digit of a positive number is not zero. *)
Lemma dec_digits_head fuel n acc :
  (0 < n < 2 ^ Z.of_nat fuel)%Z →
  ∃ c t, dec_digits fuel n acc = String c t ∧ is_digit c = true ∧ c ≠ "0"%char.
Proof.
  revert n acc. induction fuel as [|fuel IH]; intros n acc Hn; [cbn in Hn; lia|].
  cbn [dec_digits]. destruct (n <? 10)%Z eqn:E; bool_inv.
  - destruct (digit_char_props (n mod 10)) as [Hd Hc]; [apply Z.mod_pos_bound; lia|].
    eexists _, _. split; [done|]. split; [done|]. intros H0. rewrite H0 in Hc.
    rewrite Z.mod_small in Hc by lia. change (code "0") with 48%Z in Hc. lia.
  - apply IH. rewrite Nat2Z.inj_succ, Z.pow_succ_r in Hn by lia.
    split; [apply Z.div_str_pos; lia|]. apply Z.div_lt_upper_bound; lia.
Qed.

Lemma log2_fuel n : (0 < n)%Z → (0 < n < 2 ^ Z.of_nat (S (Z.to_nat (Z.log2 n))))%Z.
Proof.
  intros Hn. pose proof (Z.log2_spec n Hn). pose proof (Z.log2_nonneg n).
  rewrite Nat2Z.inj_succ, Z2Nat.id by lia. lia.
Qed.

Lemma read_digits_end n s : num_end s = true → read_digits n s = (n, s).
Proof. destruct s as [|c s]; cbn; [done|]. by destruct (is_digit c). Qed.

Lemma num_end_float s : num_end s = true → float_tail s = false.
Proof.
  destruct s as [|c s]; [done|]. unfold num_end.
  intros [_ ?%negb_true_iff]%andb_true_iff. done.
Qed.

Lemma dec_digits_app fuel n acc rest :
  dec_digits fuel n (acc +:+ rest) = dec_digits fuel n acc +:+ rest.
Proof.
  revert n acc. induction fuel as [|fuel IH]; intros n acc; [done|].
  cbn [dec_digits]. rewrite <- str_app_cons. destruct (n <? 10)%Z; [done|]. apply IH.
Qed.

Lemma parse_str_of_nonneg n rest :
  (0 <= n)%Z → num_end rest = true →
  parse_nonneg (str_of_nonneg n +:+ rest) = Some (n, rest).
Proof.
  intros Hn Hr. unfold str_of_nonneg. rewrite <- dec_digits_app, str_app_nil_l.
  destruct (decide (n = 0%Z)) as [->|Hn0].
  { cbn. done. }
  pose proof (log2_fuel n ltac:(lia)) as Hl.
  destruct (dec_digits_head _ n rest Hl) as (c & t & Hc & Hd & H0).
  unfold parse_nonneg. rewrite Hc. rewrite decide_False by done. rewrite Hd, <- Hc.
  rewrite read_dec_digits by lia. by rewrite read_digits_end.
Qed.

Lemma str_of_nonneg_head n :
  (0 <= n)%Z → ∃ c t, str_of_nonneg n = String c t ∧ is_digit c = true.
Proof.
  intros Hn. unfold str_of_nonneg. destruct (decide (n = 0%Z)) as [->|Hn0].
  - by exists "0"%char, "".
  - destruct (dec_digits_head _ n "" (log2_fuel n ltac:(lia))) as (c & t & ? & ? & ?). eauto.
Qed.

Lemma parse_str_of_int z rest :
  num_end rest = true → parse_number (str_of_int z +:+ rest) = Some (z, rest).
Proof.
  intros Hr. unfold str_of_int, parse_number. destruct (z <? 0)%Z eqn:E; bool_inv.
  - rewrite str_app_cons, decide_True by done.
    rewrite parse_str_of_nonneg by (done || lia). rewrite num_end_float by done.
    by rewrite Z.opp_involutive.
  - destruct (str_of_nonneg_head z) as (c & t & Hc & Hd); [done|].
    rewrite Hc, str_app_cons. rewrite decide_False by (by intros ->).
    rewrite <- str_app_cons, <- Hc, parse_str_of_nonneg by done.
    by rewrite num_end_float.
Qed.

Lemma str_of_int_inj x y : str_of_int x = str_of_int y → x = y.
Proof.
  intros H. pose proof (parse_str_of_int x "" eq_refl) as Hx.
  rewrite H, parse_str_of_int in Hx by done. congruence.
Qed.

(** The characters a value's text can start with. *)
Definition json_head (c : ascii) : bool :=
  is_digit c || str_existsb (λ d, bool_decide (d = c)) "-[{ntf" || bool_decide (c = quote_char).

Lemma json_head_not_ws c : json_head c = true → is_json_ws c = false ∧ c ≠ "]"%char.
Proof. destruct c as [[] [] [] [] [] [] [] []]; vm_compute; intros; split; congruence. Qed.

Lemma str_of_int_head z :
  ∃ c t, str_of_int z = String c t ∧ (c = "-"%char ∨ is_digit c = true).
Proof.
  unfold str_of_int. destruct (z <? 0)%Z eqn:E; bool_inv; [eauto|].
  destruct (str_of_nonneg_head z) as (c & t & ? & ?); eauto.
Qed.

Lemma dumps_head ea v : ∃ c t, dumps ea v = String c t ∧ json_head c = true.
Proof.
  destruct v as [|[]|z|s|l|kvs]; try (eexists _, _; split; [reflexivity|done]).
  destruct (str_of_int_head z) as (c & t & Ht & Hc). exists c, t. split; [done|].
  unfold json_head. destruct Hc as [->| ->]; done.
Qed.

Lemma skip_ws_dumps ea v rest : skip_ws (dumps ea v +:+ rest) = dumps ea v +:+ rest.
Proof.
  destruct (dumps_head ea v) as (c & t & -> & Hc). rewrite str_app_cons.
  apply lstrip_by_head. by apply json_head_not_ws.
Qed.

Lemma parse_escape ea c t :
  parse_string (json_escape ea c +:+ t) =
  match parse_string t with Some (s, r) => Some (String c s, r) | None => None end.
Proof. destruct ea, c as [[] [] [] [] [] [] [] []]; reflexivity. Qed.

Lemma parse_escape_str ea s rest :
  parse_string (json_escape_str ea s +:+ String quote_char rest) = Some (s, rest).
Proof.
  induction s as [|c s IH]; [done|]. cbn [json_escape_str].
  by rewrite str_app_assoc, parse_escape, IH.
Qed.

Lemma json_quote_app ea s rest :
  json_quote ea s +:+ rest = String quote_char (json_escape_str ea s +:+ String quote_char rest).
Proof. unfold json_quote. by rewrite str_app_cons, str_app_assoc, str_app_cons, str_app_nil_l. Qed.

Lemma dict_set_fresh {A} k (v : A) d :
  k ∉ d.*1 → dict_set k v d = d ++ [(k, v)].
Proof.
  induction d as [|[k' v'] d IH]; cbn; [done|]. intros [? ?]%not_elem_of_cons.
  rewrite decide_False by done. by rewrite IH.
Qed.

Lemma dict_of_pairs_nodup {A} (kvs : list (string * A)) :
  NoDup kvs.*1 → dict_of_pairs kvs = kvs.
Proof.
  unfold dict_of_pairs. enough (∀ d, NoDup (d ++ kvs).*1 →
    fold_left (λ d kv, dict_set kv.1 kv.2 d) kvs d = d ++ kvs) as H by apply (H []).
  induction kvs as [|[k v] kvs IH]; intros d Hd; cbn; [by rewrite app_nil_r|].
  rewrite dict_set_fresh.
  - rewrite IH; rewrite <- app_assoc; done.
  - rewrite fmap_app in Hd. apply NoDup_app in Hd as (_ & Hd & _).
    intros Hk. apply (Hd k Hk). cbn. left.
Qed.

(** A character that is not white space stays in place. *)
Ltac json_ws :=
  repeat match goal with
  | |- context [skip_ws (String ?c ?s)] =>
      change (skip_ws (String c s)) with (String c s); cbv beta iota
  end.

Section ReadBack.
Context (hook : list (string * json) → option json).
Context (Hhook : ∀ kvs, NoDup kvs.*1 → hook kvs = Some (JObj kvs)).

Definition reads_back (ea : bool) (v : json) : Prop :=
  ∀ fuel rest, json_size v ≤ fuel → num_end rest = true →
    parse_value hook fuel (dumps ea v +:+ rest) = Some (json_canon v, rest).

Lemma parse_elems_ok ea l fuel rest :
  l ≠ [] → Forall (reads_back ea) l →
  sum_list (map (λ x, S (json_size x)) l) ≤ fuel →
  parse_elems hook fuel (py_join "," (map (dumps ea) l) +:+ "]" +:+ rest) =
  Some (map json_canon l, rest).
Proof.
  intros Hne Hl. revert fuel. induction Hl as [|v l Hv Hl IH]; intros fuel Hf; [done|].
  destruct fuel as [|fuel]; cbn in Hf; [lia|].
  cbn [parse_elems]. destruct l as [|w l].
  - cbn [map py_join]. rewrite Hv by (done || lia). done.
  - rewrite (map_cons (dumps ea) v), py_join_cons, !str_app_assoc by done.
    rewrite Hv by (done || lia). rewrite str_app_cons, str_app_nil_l. json_ws.
    rewrite decide_False, decide_True by done.
    rewrite IH by (done || lia). done.
Qed.

Lemma parse_members_ok ea kvs fuel rest :
  kvs ≠ [] → Forall (λ kv, reads_back ea kv.2) kvs →
  sum_list (map (λ kv, S (json_size kv.2)) kvs) ≤ fuel →
  parse_members hook fuel (py_join "," (map (member_text ea) kvs) +:+ "}" +:+ rest) =
  Some (map (λ kv, (kv.1, json_canon kv.2)) kvs, rest).
Proof.
  intros Hne Hl. revert fuel. induction Hl as [|[k v] kvs Hv Hl IH]; intros fuel Hf; [done|].
  destruct fuel as [|fuel]; cbn in Hf; [lia|]. cbn [snd] in Hv.
  set (tail := match kvs with [] => "}" +:+ rest
    | _ => String ","%char (py_join "," (map (member_text ea) kvs) +:+ "}" +:+ rest) end).
  assert (Htext : py_join "," (map (member_text ea) ((k, v) :: kvs)) +:+ "}" +:+ rest =
    String quote_char (json_escape_str ea k +:+ String quote_char (String ":"%char (dumps ea v +:+ tail)))).
  { subst tail. destruct kvs as [|w kvs].
    - cbn [map py_join]. unfold member_text at 1. cbn [fst snd].
      by rewrite str_app_assoc, json_quote_app, !str_app_cons, str_app_nil_l.
    - cbn [map]. rewrite py_join_cons by done. unfold member_text at 1. cbn [fst snd].
      by rewrite !str_app_assoc, json_quote_app, !str_app_cons, !str_app_nil_l. }
  rewrite Htext. cbn [parse_members]. json_ws.
  rewrite decide_True by done. rewrite parse_escape_str. json_ws. rewrite decide_True by done.
  rewrite Hv; [|lia|subst tail; by destruct kvs].
  subst tail. destruct kvs as [|w kvs]; [done|].
  json_ws. rewrite decide_False, decide_True by done. rewrite IH by (done || lia). done.
Qed.

Lemma sort_size kvs :
  sum_list (map (λ kv : string * json, S (json_size kv.2)) (sort_by key_leb kvs)) =
  sum_list (map (λ kv, S (json_size kv.2)) kvs).
Proof.
  enough (∀ l1 l2 : list (string * json), l1 ≡ₚ l2 →
    sum_list (map (λ kv, S (json_size kv.2)) l1) = sum_list (map (λ kv, S (json_size kv.2)) l2)) as H
    by apply H, sort_by_perm.
  induction 1; cbn; lia.
Qed.

Lemma json_wf_obj kvs :
  json_wf (JObj kvs) = true ↔ NoDup kvs.*1 ∧ Forall (λ kv, json_wf kv.2 = true) kvs.
Proof.
  cbn [json_wf]. rewrite andb_true_iff, bool_decide_eq_true, forallb_forall, Forall_forall.
  setoid_rewrite list_elem_of_In. done.
Qed.

Lemma json_wf_list l : json_wf (JList l) = true ↔ Forall (λ v, json_wf v = true) l.
Proof.
  cbn [json_wf]. rewrite forallb_forall, Forall_forall.
  setoid_rewrite list_elem_of_In. done.
Qed.

(** Values with a text of their own, whose first character decides the parser's branch. *)
Lemma parse_value_int fuel s :
  (∃ c t, s = String c t ∧ (c = "-"%char ∨ is_digit c = true)) →
  parse_value hook (S fuel) s =
  match parse_number s with Some (n, r) => Some (JInt n, r) | None => None end.
Proof.
  intros (c & t & -> & Hc). cbn [parse_value].
  assert (skip_ws (String c t) = String c t) as ->.
  { apply lstrip_by_head. destruct Hc as [->|Hc]; [done|].
    revert Hc. unfold is_json_ws, is_digit. lia. }
  repeat (rewrite decide_False; [|intros ->; by destruct Hc]). done.
Qed.

Lemma dumps_list_head ea w l rest :
  ∃ c t, py_join "," (map (dumps ea) (w :: l)) +:+ rest = String c t ∧ json_head c = true.
Proof.
  destruct (dumps_head ea w) as (c & t & Hw & Hc). cbn [map]. destruct l as [|w' l].
  - exists c, (t +:+ rest). cbn [map py_join]. by rewrite Hw, str_app_cons.
  - eexists c, _. rewrite py_join_cons, Hw, !str_app_assoc, str_app_cons by done. done.
Qed.

Lemma members_head ea kv kvs rest :
  ∃ t, py_join "," (map (member_text ea) (kv :: kvs)) +:+ rest = String quote_char t.
Proof.
  cbn [map]. unfold member_text at 1. destruct kvs as [|kv' kvs].
  - eexists. cbn [map py_join]. by rewrite str_app_assoc, json_quote_app.
  - eexists. by rewrite py_join_cons, !str_app_assoc, json_quote_app by done.
Qed.

Lemma dumps_reads_back ea v : json_wf v = true → reads_back ea v.
Proof using Hhook.
  induction v as [|[]|z|s|l IH|kvs IH] using json_nested_ind; intros Hwf [|fuel] rest Hf Hr;
    try (cbn in Hf; lia).
  - done.
  - done.
  - done.
  - change (dumps ea (JInt z)) with (str_of_int z). rewrite parse_value_int.
    + by rewrite parse_str_of_int.
    + destruct (str_of_int_head z) as (c & t & -> & ?). rewrite str_app_cons. eauto.
  - change (dumps ea (JStr s)) with (json_quote ea s). rewrite json_quote_app. cbn [parse_value].
    json_ws. rewrite decide_True by done. by rewrite parse_escape_str.
  - apply json_wf_list in Hwf. cbn in Hf.
    change (dumps ea (JList l)) with ("[" +:+ py_join "," (map (dumps ea) l) +:+ "]").
    rewrite !str_app_assoc, str_app_cons, str_app_nil_l.
    destruct l as [|w l]; [done|]. cbn [parse_value]. json_ws.
    rewrite decide_False, decide_True by done.
    pose proof (parse_elems_ok ea (w :: l) fuel rest ltac:(done)) as Hel.
    destruct (dumps_list_head ea w l ("]" +:+ rest)) as (c & t & Ht & Hc).
    rewrite Ht in Hel |- *. destruct (json_head_not_ws _ Hc) as [Hws Hne].
    unfold skip_ws. rewrite lstrip_by_head by done. cbv beta iota. rewrite decide_False by done.
    rewrite Hel; [done| |lia].
    rewrite Forall_forall in IH, Hwf |- *. eauto.
  - apply json_wf_obj in Hwf as [Hnd Hwf]. cbn in Hf.
    rewrite dumps_obj, canon_obj. rewrite !str_app_assoc, str_app_cons, str_app_nil_l.
    rewrite <- sort_size in Hf.
    assert (Hrb : Forall (λ kv, reads_back ea kv.2) (sort_by key_leb kvs)).
    { rewrite sort_by_perm. rewrite Forall_forall in IH, Hwf |- *. eauto. }
    assert (Hnd' : NoDup (map (λ kv, (kv.1, json_canon kv.2)) (sort_by key_leb kvs)).*1).
    { rewrite <- list_fmap_compose, (sort_by_perm key_leb kvs). done. }
    cbn [parse_value]. json_ws. rewrite !decide_False, decide_True by done.
    clear IH Hwf Hnd.
    destruct (sort_by key_leb kvs) as [|kv kvs']; [done|].
    pose proof (parse_members_ok ea (kv :: kvs') fuel rest ltac:(done) Hrb ltac:(lia)) as Hm.
    destruct (members_head ea kv kvs' ("}" +:+ rest)) as (t & Ht).
    rewrite Ht in Hm |- *. json_ws. rewrite decide_False by done.
    rewrite Hm. by rewrite Hhook.
Qed.

End ReadBack.

Lemma as_dict_nodup kvs : NoDup kvs.*1 → as_dict kvs = Some (JObj kvs).
Proof. intros H. unfold as_dict. by rewrite dict_of_pairs_nodup. Qed.
Lemma as_unique_nodup kvs : NoDup kvs.*1 → as_unique kvs = Some (JObj kvs).
Proof. intros H. unfold as_unique. by rewrite bool_decide_eq_true_2. Qed.

Lemma sum_le_join f (l : list json) :
  Forall (λ v, json_size v ≤ String.length (f v)) l →
  sum_list (map (λ x, S (json_size x)) l) ≤ S (String.length (py_join "," (map f l))).
Proof.
  induction 1 as [|v l Hv Hl IH]; [cbn; lia|].
  rewrite !map_cons. destruct l as [|w l]; [cbn; lia|].
  rewrite py_join_cons, !str_length_app by done. cbn [sum_list foldr] in *. cbn. cbn in IH. lia.
Qed.

Lemma sum_le_members ea (kvs : list (string * json)) :
  Forall (λ kv, json_size kv.2 ≤ String.length (dumps ea kv.2)) kvs →
  sum_list (map (λ kv, S (json_size kv.2)) kvs) ≤
  S (String.length (py_join "," (map (member_text ea) kvs))).
Proof.
  induction 1 as [|kv kvs Hv Hl IH]; [cbn; lia|].
  assert (S (json_size kv.2) ≤ String.length (member_text ea kv)) as Hm.
  { unfold member_text. rewrite !str_length_app. cbn. lia. }
  rewrite !map_cons. destruct kvs as [|w kvs]; [cbn in *; lia|].
  rewrite py_join_cons, !str_length_app by done. cbn. cbn in IH. lia.
Qed.

Lemma json_size_length ea v : json_size v ≤ String.length (dumps ea v).
Proof.
  induction v as [|[]|z|s|l IH|kvs IH] using json_nested_ind; cbn [json_size]; try (cbn; lia).
  - destruct (str_of_int_head z) as (c & t & Ht & _). cbn. rewrite Ht. cbn. lia.
  - pose proof (sum_le_join _ _ IH). cbn [dumps]. rewrite !str_length_app. cbn. lia.
  - rewrite <- sort_size, dumps_obj, !str_length_app.
    assert (Hs : Forall (λ kv, json_size kv.2 ≤ String.length (dumps ea kv.2)) (sort_by key_leb kvs))
      by by rewrite sort_by_perm.
    apply sum_le_members in Hs. cbn. lia.
Qed.

(** Reading back the canonical text gives the value with its keys sorted. *)
Lemma loads_with_dumps hook ea v :
  (∀ kvs, NoDup kvs.*1 → hook kvs = Some (JObj kvs)) → json_wf v = true →
  loads_with hook (dumps ea v) = Some (json_canon v).
Proof.
  intros Hh Hwf. unfold loads_with.
  pose proof (dumps_reads_back hook Hh ea v Hwf (S (String.length (dumps ea v))) "") as H.
  rewrite str_app_nil_r in H. rewrite H; [done| |done].
  pose proof (json_size_length ea v). lia.
Qed.

Lemma loads_dumps ea v : json_wf v = true → loads (dumps ea v) = Some (json_canon v).
Proof. apply loads_with_dumps, as_dict_nodup. Qed.

Lemma loads_unique_dumps ea v : json_wf v = true → loads_unique (dumps ea v) = Some (json_canon v).
Proof. apply loads_with_dumps, as_unique_nodup. Qed.

(** Equal canonical texts come from values that differ at most in key order. *)
Lemma dumps_inj ea v w :
  json_wf v = true → json_wf w = true →
  dumps ea v = dumps ea w → json_canon v = json_canon w.
Proof.
  intros Hv Hw H. pose proof (loads_dumps ea v Hv) as H1.
  rewrite H, loads_dumps in H1 by done. congruence.
Qed.

Lemma key_leb_total {A} (x y : string * A) : key_leb x y = true ∨ key_leb y x = true.
Proof. apply str_leb_total. Qed.
Lemma key_leb_trans {A} (x y z : string * A) :
  key_leb x y = true → key_leb y z = true → key_leb x z = true.
Proof. apply str_leb_trans. Qed.

Lemma nodup_key_unique {A} (kvs : list (string * A)) x y :
  NoDup kvs.*1 → x ∈ kvs → y ∈ kvs → x.1 = y.1 → x = y.
Proof.
  induction kvs as [|kv kvs IH]; [by intros _ ?%elem_of_nil|].
  intros [Hk Hnd]%NoDup_cons. rewrite !elem_of_cons.
  assert (∀ z, z ∈ kvs → z.1 = kv.1 → False) as Hf.
  { intros z Hz Hz1. apply Hk. rewrite <- Hz1. by apply list_elem_of_fmap_2. }
  intros [->|Hx] [->|Hy] E; [done|naive_solver..].
Qed.

Lemma sort_keys_perm {A} (d e : list (string * A)) :
  NoDup d.*1 → d ≡ₚ e → sort_by key_leb d = sort_by key_leb e.
Proof.
  intros Hd. apply sort_by_unique; [apply key_leb_total|apply key_leb_trans|].
  intros x y Hx Hy Hxy Hyx. eapply nodup_key_unique; [done..|].
  by apply str_leb_antisym.
Qed.

Lemma json_canon_idemp v : json_wf v = true → json_canon (json_canon v) = json_canon v.
Proof.
  induction v as [|[]|z|s|l IH|kvs IH] using json_nested_ind; intros Hwf; try done.
  - apply json_wf_list in Hwf. cbn. f_equal. rewrite map_map.
    apply map_ext_in. intros x Hx%list_elem_of_In. rewrite Forall_forall in IH, Hwf. eauto.
  - apply json_wf_obj in Hwf as [Hnd Hwf]. rewrite !canon_obj.
    rewrite (sort_key_map json_canon), map_map.
    rewrite (sort_by_id key_leb (sort_by key_leb kvs)).
    + f_equal. apply map_ext_in. intros kv Hkv%list_elem_of_In. cbn. f_equal.
      rewrite Forall_forall in IH, Hwf. rewrite elem_of_sort_by in Hkv. eauto.
    + apply sort_by_sorted; [apply key_leb_total|apply key_leb_trans].
Qed.

Lemma json_canon_wf v : json_wf v = true → json_wf (json_canon v) = true.
Proof.
  induction v as [|[]|z|s|l IH|kvs IH] using json_nested_ind; intros Hwf; try done.
  - rewrite json_wf_list in Hwf. cbn [json_canon]. rewrite json_wf_list.
    rewrite Forall_forall in IH, Hwf |- *. intros x Hx. apply list_elem_of_fmap in Hx as (y & -> & Hy). eauto.
  - rewrite json_wf_obj in Hwf. destruct Hwf as [Hnd Hwf]. rewrite canon_obj, json_wf_obj. split.
    + rewrite <- list_fmap_compose, (sort_by_perm key_leb kvs). done.
    + rewrite Forall_forall in IH, Hwf |- *. intros x Hx.
      apply list_elem_of_fmap in Hx as (y & -> & Hy). cbn. rewrite elem_of_sort_by in Hy. eauto.
Qed.

(** Sorting the keys first does not change the text. *)
Lemma dumps_canon ea v : json_wf v = true → dumps ea (json_canon v) = dumps ea v.
Proof.
  induction v as [|[]|z|s|l IH|kvs IH] using json_nested_ind; intros Hwf; try done.
  - rewrite json_wf_list in Hwf. cbn. rewrite map_map. do 3 f_equal.
    apply map_ext_in. intros x Hx%list_elem_of_In. rewrite Forall_forall in IH, Hwf. eauto.
  - rewrite json_wf_obj in Hwf. destruct Hwf as [Hnd Hwf].
    rewrite canon_obj, !dumps_obj, (sort_key_map json_canon), map_map.
    rewrite (sort_by_id key_leb (sort_by key_leb kvs))
      by (apply sort_by_sorted; [apply key_leb_total|apply key_leb_trans]).
    do 3 f_equal. apply map_ext_in. intros kv Hkv%list_elem_of_In.
    unfold member_text. cbn. do 2 f_equal.
    rewrite Forall_forall in IH, Hwf. rewrite elem_of_sort_by in Hkv. eauto.
Qed.

Lemma json_canon_dumps ea v w :
  json_wf v = true → json_wf w = true → json_canon v = json_canon w → dumps ea v = dumps ea w.
Proof. intros Hv Hw H. by rewrite <- (dumps_canon ea v), H, dumps_canon. Qed.

(** ** Lookups *)

Lemma dict_get_set {A} k k' (v : A) d :
  dict_get k' (dict_set k v d) = if decide (k = k') then Some v else dict_get k' d.
Proof.
  induction d as [|[k0 v0] d IH]; cbn; [done|].
  destruct (decide (k0 = k)) as [->|Hk]; cbn.
  - case_decide; done.
  - rewrite IH. repeat case_decide; congruence.
Qed.

Lemma dict_has_set {A} k k' (v : A) d :
  dict_has k' (dict_set k v d) = bool_decide (k = k') || dict_has k' d.
Proof.
  unfold dict_has. rewrite dict_get_set. case_decide; subst.
  - by rewrite bool_decide_eq_true_2.
  - by rewrite bool_decide_eq_false_2.
Qed.

Lemma dict_get_elem {A} k (d : list (string * A)) v :
  NoDup d.*1 → dict_get k d = Some v ↔ (k, v) ∈ d.
Proof.
  induction d as [|[k0 v0] d IH]; intros Hnd; cbn.
  - split; [done|by intros ?%elem_of_nil].
  - apply NoDup_cons in Hnd as [Hk Hnd]. rewrite elem_of_cons. case_decide as E; subst.
    + split; [intros [= ->]; by left|]. intros [[= ->]|Hv]; [done|].
      destruct Hk. by apply (list_elem_of_fmap_2 fst _ (k, v)).
    + rewrite IH by done. split; [by right|]. by intros [[= -> _]|].
Qed.

Lemma dict_get_key {A} k (d : list (string * A)) : k ∈ d.*1 ↔ is_Some (dict_get k d).
Proof.
  induction d as [|[k0 v0] d IH]; cbn.
  - split; [by intros ?%elem_of_nil|by intros [? ?]].
  - rewrite elem_of_cons, IH. case_decide as E; subst; split; try naive_solver.
Qed.

Lemma dict_get_perm {A} k (d e : list (string * A)) :
  NoDup d.*1 → d ≡ₚ e → dict_get k d = dict_get k e.
Proof.
  intros Hd Hp. assert (NoDup e.*1) as He by by rewrite <- Hp.
  apply option_eq. intros v. rewrite !dict_get_elem by done. by rewrite Hp.
Qed.

Lemma dict_get_map {A B} (f : A → B) k d :
  dict_get k (map (λ kv, (kv.1, f kv.2)) d) = f <$> dict_get k d.
Proof. induction d as [|[k0 v0] d IH]; cbn; [done|]. by case_decide. Qed.

(** A canonical object holds the canonical values under the same keys. *)
Lemma dict_get_canon k kvs :
  NoDup kvs.*1 →
  dict_get k (map (λ kv, (kv.1, json_canon kv.2)) (sort_by key_leb kvs)) =
  json_canon <$> dict_get k kvs.
Proof.
  intros Hnd. rewrite dict_get_map. f_equal. symmetry.
  apply dict_get_perm; [done|]. by rewrite sort_by_perm.
Qed.

(** ** [ensure_ascii] *)

Lemma ascii_app s t : is_ascii_str (s +:+ t) = is_ascii_str s && is_ascii_str t.
Proof. apply str_forallb_app. Qed.

Lemma ascii_join sep ws :
  is_ascii_str sep = true → Forall (λ w, is_ascii_str w = true) ws → is_ascii_str (py_join sep ws) = true.
Proof.
  intros Hs. induction 1 as [|w ws Hw Hws IH]; [done|]. destruct ws as [|w' ws]; [done|].
  rewrite py_join_cons by done. by rewrite !ascii_app, Hw, Hs.
Qed.

Lemma escape_ascii c : is_ascii_str (json_escape true c) = true.
Proof.
  assert (H : Forall (λ c, is_ascii_str (json_escape true c) = true) (ascii_of_nat <$> seq 0 256)).
  { apply Forall_forall. intros d Hd. apply (proj1 (forallb_forall (λ d, is_ascii_str (json_escape true d)) (ascii_of_nat <$> seq 0 256))).
    - vm_compute. reflexivity.
    - by apply list_elem_of_In. }
  rewrite Forall_forall in H. apply H. apply list_elem_of_fmap. exists (nat_of_ascii c).
  split; [by rewrite ascii_nat_embedding|]. apply elem_of_seq. pose proof (nat_ascii_bounded c). lia.
Qed.

Lemma quote_ascii s : is_ascii_str (json_quote true s) = true.
Proof.
  assert (H : is_ascii_str (json_escape_str true s) = true).
  { induction s as [|c s IH]; [done|]. cbn [json_escape_str]. by rewrite ascii_app, escape_ascii, IH. }
  unfold json_quote. change (is_ascii_str (String quote_char "" +:+ (json_escape_str true s +:+ String quote_char "")) = true).
  by rewrite !ascii_app, H.
Qed.

Lemma int_chars (p : ascii → bool) z :
  (∀ c, is_digit c = true → p c = true) → p "-"%char = true → str_forallb p (str_of_int z) = true.
Proof.
  intros Hp Hm.
  assert (Hd : ∀ fuel n acc, (0 <= n)%Z → str_forallb p acc = true → str_forallb p (dec_digits fuel n acc) = true).
  { induction fuel as [|fuel IH]; intros n acc Hn Ha; [done|]. cbn [dec_digits].
    assert (Hacc : str_forallb p (String (digit_char (n mod 10)) acc) = true).
    { cbn [str_forallb]. rewrite Ha, andb_true_r. apply Hp.
      pose proof (Z.mod_pos_bound n 10 ltac:(lia)). destruct (digit_char_props (n mod 10)) as [-> _]; lia || done. }
    destruct (n <? 10)%Z; [done|]. apply IH; [apply Z.div_pos; lia|done]. }
  unfold str_of_int, str_of_nonneg. destruct (z <? 0)%Z eqn:E; bool_inv; [cbn [str_forallb]; rewrite Hm; cbn [andb]|];
    by apply Hd; [lia|].
Qed.

Lemma int_ascii z : is_ascii_str (str_of_int z) = true.
Proof.
  apply int_chars; [|done]. intros c Hc. unfold is_digit in Hc. bool_inv. apply Z.ltb_lt. lia.
Qed.

(** Under [ensure_ascii] the text of any value is ASCII. *)
Lemma dumps_ascii v : is_ascii_str (dumps true v) = true.
Proof.
  induction v as [|[]|z|s|l IH|kvs IH] using json_nested_ind; try done.
  - apply int_ascii.
  - apply quote_ascii.
  - cbn [dumps]. rewrite !ascii_app, ascii_join; [done|done|]. by apply Forall_map.
  - cbn [dumps]. rewrite !ascii_app, ascii_join; [done|done|]. apply Forall_map.
    rewrite sort_by_perm. apply Forall_map. eapply Forall_impl; [exact IH|]. intros [k v] Hv. cbn [fst snd] in *.
    by rewrite !ascii_app, quote_ascii, Hv.
Qed.

Create HintDb json.
#[export] Hint Resolve json_canon_wf loads_dumps : json.
#[export] Hint Rewrite @dict_get_set : json.
