(* ===== verification/Posix.v ===== *)
(** * [posixpath] and [pathlib.PurePosixPath]

    The purely lexical path functions the modules call: [isabs], [join],
    [normpath], [commonpath] of two paths, and the way [pathlib] parses and
    prints a path.  [commonpath_spec] reads a [commonpath(p, d) == d] test as
    what it is used for: containment of [p]'s components under [d]'s. *)
From S2P Require Import Prelude.

Definition slash : ascii := "/"%char.

(** [os.path.isabs] *)
Definition isabs (p : string) : bool := startswith p "/".

(** [os.path.join(a, b)] *)
Definition path_join (a b : string) : string :=
  if isabs b then b
  else if bool_decide (a = "") || endswith a "/" then a +:+ b
  else a +:+ "/" +:+ b.

(** [posixpath.splitroot], the root and the rest. *)
Definition splitroot (p : string) : string * string :=
  match p with
  | String a p1 =>
      if decide (a = slash) then
        match p1 with
        | String b p2 =>
            if decide (b = slash) then
              match p2 with
              | String c _ => if decide (c = slash) then ("/", p1) else ("//", p2)
              | "" => ("//", p2)
              end
            else ("/", p1)
        | "" => ("/", p1)
        end
      else ("", p)
  | "" => ("", "")
  end.

Definition real_comp (c : string) : bool := negb (bool_decide (c = "")) && negb (bool_decide (c = ".")).

(** The components of a path that are neither empty nor [.]. *)
Definition path_comps (p : string) : list string := List.filter real_comp (split_char slash p).

(** One step of [normpath]'s loop; the list is kept reversed. *)
Definition norm_step (root : string) (acc : list string) (c : string) : list string :=
  if negb (real_comp c) then acc
  else match acc with
       | [] => if bool_decide (c ≠ "..") || bool_decide (root = "") then [c] else []
       | last :: acc' =>
           if bool_decide (c ≠ "..") || bool_decide (last = "..") then c :: acc else acc'
       end.

Definition norm_comps (root : string) (cs : list string) : list string :=
  rev (fold_left (norm_step root) cs []).

(** [os.path.normpath] *)
Definition normpath (p : string) : string :=
  if decide (p = "") then "."
  else let '(root, rest) := splitroot p in
       let r := root +:+ py_join "/" (norm_comps root (split_char slash rest)) in
       if decide (r = "") then "." else r.

Fixpoint common_prefix (l m : list string) : list string :=
  match l, m with
  | x :: l, y :: m => if decide (x = y) then x :: common_prefix l m else []
  | _, _ => []
  end.

(** [os.path.commonpath((p, q))] *)
Definition commonpath (p q : string) : res string :=
  if bool_decide (isabs p = isabs q) then
    Ok ((if isabs p then "/" else "") +:+ py_join "/" (common_prefix (path_comps p) (path_comps q)))
  else Err (Exn ValueError "Can't mix absolute and relative paths").

(** [str(PurePosixPath(p))] *)
Definition path_str (p : string) : string :=
  let '(root, rest) := splitroot p in
  let r := root +:+ py_join "/" (path_comps rest) in
  if decide (r = "") then "." else r.

(** [str(Path(a) / b)] *)
Definition path_div (a b : string) : string := path_str (path_join a b).

(** A component as [split] leaves it after filtering. *)
Definition comp_ok (c : string) : Prop := real_comp c = true ∧ char_in slash c = false.

Lemma real_comp_true c : real_comp c = true ↔ c ≠ "" ∧ c ≠ ".".
Proof. unfold real_comp. rewrite andb_true_iff, !negb_true_iff, !bool_decide_eq_false. done. Qed.

Lemma split_no_sep sep s : char_in sep s = false → split_char sep s = [s].
Proof.
  induction s as [|c s IH]; [done|]. rewrite char_in_cons. intros [Hc Hs]%orb_false_iff.
  apply bool_decide_eq_false in Hc. cbn. rewrite decide_False by done. by rewrite IH.
Qed.

Lemma split_app sep s t :
  char_in sep s = false → split_char sep (s +:+ String sep t) = s :: split_char sep t.
Proof.
  induction s as [|c s IH].
  - intros _. rewrite str_app_nil_l. cbn. by rewrite decide_True.
  - rewrite char_in_cons. intros [Hc Hs]%orb_false_iff. apply bool_decide_eq_false in Hc.
    rewrite str_app_cons. cbn. rewrite decide_False by done. by rewrite IH.
Qed.

Lemma split_join sep cs :
  cs ≠ [] → Forall (λ c, char_in sep c = false) cs →
  split_char sep (py_join (String sep "") cs) = cs.
Proof.
  intros Hne. induction 1 as [|c cs Hc Hcs IH]; [done|]. destruct cs as [|c' cs].
  - by apply split_no_sep.
  - rewrite py_join_cons by done. rewrite str_app_cons, str_app_nil_l, split_app by done.
    by rewrite IH.
Qed.

Lemma path_comps_ok p : Forall comp_ok (path_comps p).
Proof.
  unfold path_comps. pose proof (split_char_pieces slash p) as H.
  rewrite Forall_forall in H |- *. intros c [Hin Hr]%list_elem_of_In%List.filter_In.
  split; [done|]. by apply H, list_elem_of_In.
Qed.

Lemma filter_real_id cs : Forall comp_ok cs → List.filter real_comp cs = cs.
Proof. induction 1 as [|c cs [Hr _] _ IH]; cbn; [done|]. by rewrite Hr, IH. Qed.

Lemma path_comps_join cs : Forall comp_ok cs → path_comps (py_join "/" cs) = cs.
Proof.
  intros Hcs. destruct cs as [|c cs]; [done|]. unfold path_comps.
  rewrite split_join; [|done|].
  - by apply filter_real_id.
  - eapply Forall_impl; [done|]. by intros ? [].
Qed.

Lemma path_comps_slash p : path_comps (String slash p) = path_comps p.
Proof. unfold path_comps. cbn. by rewrite decide_True. Qed.

Lemma norm_step_ok root acc c :
  Forall comp_ok acc → char_in slash c = false → Forall comp_ok (norm_step root acc c).
Proof.
  intros Ha Hc. unfold norm_step. destruct (real_comp c) eqn:Hr; cbn; [|done].
  assert (comp_ok c) by done.
  destruct Ha as [|l acc Hl Ha]; destruct (_ || _); eauto using Forall_nil_2, Forall_cons_2.
Qed.

Lemma norm_comps_ok root p : Forall comp_ok (norm_comps root (split_char slash p)).
Proof.
  unfold norm_comps. apply Forall_rev. pose proof (split_char_pieces slash p) as H.
  assert (Ha : Forall comp_ok []) by constructor. revert Ha. generalize (@nil string).
  induction H as [|c cs Hc Hcs IH]; intros acc Ha; cbn; [done|].
  apply IH. by apply norm_step_ok.
Qed.

Lemma norm_comps_filter root cs :
  norm_comps root (List.filter real_comp cs) = norm_comps root cs.
Proof.
  unfold norm_comps. f_equal. generalize (@nil string).
  induction cs as [|c cs IH]; intros acc; cbn; [done|].
  destruct (real_comp c) eqn:E; cbn; [done|]. rewrite IH. f_equal.
  unfold norm_step. by rewrite E.
Qed.

(** A last component that is not [..] survives normalisation. *)
Lemma norm_comps_snoc root cs c :
  real_comp c = true → c ≠ ".." → norm_comps root (cs ++ [c]) = norm_comps root cs ++ [c].
Proof.
  intros Hr Hc. unfold norm_comps. rewrite fold_left_app. cbn. unfold norm_step at 1.
  rewrite Hr. cbn. rewrite bool_decide_true by done. cbn.
  by destruct (fold_left _ cs []).
Qed.

Lemma common_prefix_l l m : common_prefix l m = m ↔ m `prefix_of` l.
Proof.
  revert m. induction l as [|x l IH]; intros [|y m]; cbn.
  - split; [by exists []|done].
  - split; [done|]. by intros ?%prefix_nil_inv.
  - split; [intros _; apply prefix_nil|done].
  - split.
    + case_decide as E; [|done]. intros [= H]. subst. apply prefix_cons. by apply IH.
    + intros H. assert (y = x) as -> by by eapply prefix_cons_inv_1.
      rewrite decide_True by done. f_equal. apply IH. by eapply prefix_cons_inv_2.
Qed.

Lemma join_comps_inj l m :
  Forall comp_ok l → Forall comp_ok m → py_join "/" l = py_join "/" m → l = m.
Proof.
  intros Hl Hm H. rewrite <- (path_comps_join l Hl), H. by apply path_comps_join.
Qed.

Lemma common_prefix_ok l m : Forall comp_ok l → Forall comp_ok (common_prefix l m).
Proof.
  intros Hl. revert m. induction Hl as [|x l Hx Hl IH]; intros [|y m]; cbn;
    try apply Forall_nil_2.
  case_decide; [by apply Forall_cons_2|apply Forall_nil_2].
Qed.

(** An absolute path with one leading slash and clean components. *)
Definition plain_abs (p : string) (cs : list string) : Prop :=
  p = "/" +:+ py_join "/" cs ∧ Forall comp_ok cs.

Lemma plain_abs_comps p cs : plain_abs p cs → path_comps p = cs ∧ isabs p = true.
Proof.
  intros [-> Hcs]. rewrite str_app_cons, str_app_nil_l. split.
  - exact (eq_trans (path_comps_slash _) (path_comps_join cs Hcs)).
  - by destruct (py_join "/" cs).
Qed.

Lemma commonpath_spec p d ds :
  isabs p = true → plain_abs d ds →
  commonpath p d = Ok d ↔ ds `prefix_of` path_comps p.
Proof.
  intros Hp Hd. destruct (plain_abs_comps d ds Hd) as [Hc Ha]. destruct Hd as [-> Hds].
  unfold commonpath. rewrite Hp, Ha, bool_decide_true, Hc by done.
  rewrite <- common_prefix_l. split.
  - rewrite !str_app_cons, !str_app_nil_l. intros [= H%join_comps_inj]; [done| |done].
    apply common_prefix_ok, path_comps_ok.
  - by intros ->.
Qed.

(** ** Joining a component to an absolute path *)

Lemma split_char_app sep s t :
  split_char sep (s +:+ String sep t) = split_char sep s ++ split_char sep t.
Proof.
  induction s as [|c s IH]; [rewrite str_app_nil_l; cbn; by rewrite decide_True|].
  rewrite str_app_cons. cbn [split_char]. rewrite IH.
  pose proof (split_char_nonempty sep s). case_decide; [done|].
  by destruct (split_char sep s).
Qed.

Lemma path_comps_app a b : path_comps (a +:+ String slash b) = path_comps a ++ path_comps b.
Proof. unfold path_comps. by rewrite split_char_app, List.filter_app. Qed.

Lemma str_rev_app_spec s acc : str_rev_app s acc = str_rev s +:+ acc.
Proof.
  unfold str_rev. revert acc. induction s as [|c s IH]; intros acc; [done|].
  cbn [str_rev_app]. rewrite IH, (IH (String c "")), str_app_assoc. done.
Qed.

Lemma str_rev_cons c s : str_rev (String c s) = str_rev s +:+ String c "".
Proof. unfold str_rev at 1. cbn [str_rev_app]. apply str_rev_app_spec. Qed.

Lemma str_rev_snoc s c : str_rev (s +:+ String c "") = String c (str_rev s).
Proof.
  induction s as [|d s IH]; [done|]. by rewrite str_app_cons, !str_rev_cons, IH, str_app_cons.
Qed.

Lemma str_rev_involutive s : str_rev (str_rev s) = s.
Proof. induction s as [|c s IH]; [done|]. by rewrite str_rev_cons, str_rev_snoc, IH. Qed.

Lemma endswith_slash p : endswith p "/" = true → ∃ q, p = q +:+ String slash "".
Proof.
  unfold endswith. pose proof (str_rev_involutive p) as Hi. destruct (str_rev p) as [|c t]; [done|].
  cbn. case_match; [|done]. subst c. intros _. exists (str_rev t).
  by rewrite <- Hi, str_rev_cons.
Qed.

Lemma path_comps_join_path a b :
  isabs b = false → path_comps (path_join a b) = path_comps a ++ path_comps b.
Proof.
  intros Hb. unfold path_join. rewrite Hb. destruct (bool_decide (a = "")) eqn:Ea; cbn [orb].
  - bool_inv. subst. done.
  - destruct (endswith a "/") eqn:Ee; [|apply path_comps_app].
    apply endswith_slash in Ee as [q ->].
    rewrite str_app_assoc, str_app_cons, str_app_nil_l, !path_comps_app.
    change (path_comps "") with (@nil string). by rewrite app_nil_r.
Qed.

Lemma isabs_cons d x y : isabs (String d x) = isabs (String d y).
Proof. unfold isabs, startswith. cbn. case_match; [by destruct x, y|done]. Qed.

Lemma comp_relative c : comp_ok c → isabs c = false.
Proof.
  intros [_ Hs]. destruct c as [|d c]; [done|]. rewrite char_in_cons in Hs.
  apply orb_false_iff in Hs as [Hd _]. apply bool_decide_eq_false in Hd.
  unfold isabs, startswith. cbn. case_match; [by subst d|done].
Qed.

Lemma comps_relative cs : Forall comp_ok cs → isabs (py_join "/" cs) = false.
Proof.
  destruct 1 as [|c cs Hc Hcs]; [done|]. apply comp_relative in Hc as Hr. destruct cs as [|c' cs]; [done|].
  rewrite py_join_cons by done. destruct c as [|d c]; [by destruct Hc as [? _]|]. by rewrite str_app_cons, (isabs_cons d _ c).
Qed.

(** One leading slash exactly. *)
Lemma splitroot_single p : isabs p = false → splitroot (String slash p) = ("/", p).
Proof.
  intros Hp. unfold splitroot. rewrite decide_True by done. destruct p as [|d p]; [done|].
  destruct (decide (d = slash)) as [->|Hd]; [by destruct p|].
  done.
Qed.

Lemma path_join_comp a b : isabs a = false → isabs b = false → b ≠ "" →
  ∃ x, path_join (String slash a) b = String slash x ∧ isabs x = false.
Proof.
  intros Ha Hb Hn. unfold path_join. rewrite Hb. rewrite bool_decide_eq_false_2 by done. cbn [orb].
  destruct a as [|d a].
  - cbn. eauto.
  - destruct (endswith _ _); rewrite !str_app_cons; eexists; (split; [reflexivity|]);
      by rewrite (isabs_cons d _ a).
Qed.

(** [Path(p) / b] appends the components of a relative path. *)
Lemma path_div_rel p cs b :
  plain_abs p cs → isabs b = false → b ≠ "" → plain_abs (path_div p b) (cs ++ path_comps b).
Proof.
  intros [-> Hcs] Hr Hne. assert (Forall comp_ok (cs ++ path_comps b)) as Hall by (by apply Forall_app_2; [|apply path_comps_ok]).
  rewrite str_app_cons, str_app_nil_l. unfold path_div, path_str.
  destruct (path_join_comp (py_join "/" cs) b (comps_relative cs Hcs) Hr Hne) as (x & Hx & Hxr).
  pose proof (path_comps_join_path (String slash (py_join "/" cs)) b Hr) as Hj.
  unfold slash in *. rewrite Hx, splitroot_single by done.
  rewrite Hx, !path_comps_slash, (path_comps_join cs Hcs) in Hj.
  rewrite Hj, str_app_cons, str_app_nil_l. rewrite decide_False by done.
  split; [done|exact Hall].
Qed.

Lemma path_div_comp p cs c : plain_abs p cs → comp_ok c → plain_abs (path_div p c) (cs ++ [c]).
Proof.
  intros Hp Hc. assert (path_comps c = [c]) as <- by (exact (path_comps_join [c] (Forall_cons_2 _ _ _ Hc (Forall_nil_2 _)))).
  apply path_div_rel; [done|by apply comp_relative|]. by intros ->; destruct Hc as [? _].
Qed.

(** Nothing to normalise without [..]. *)
Lemma norm_comps_id cs : Forall comp_ok cs → ".." ∉ cs → norm_comps "/" cs = cs.
Proof.
  induction cs as [|c cs IH] using rev_ind; [done|]. intros [Hcs Hc]%Forall_app Hin.
  apply Forall_cons in Hc as [[Hc _] _]. rewrite norm_comps_snoc; [|done|set_solver].
  rewrite IH; [done..|set_solver].
Qed.

(** [normpath] on plain absolute paths. *)
Lemma normpath_plain p cs : plain_abs p cs → plain_abs (normpath p) (norm_comps "/" cs).
Proof.
  intros [-> Hcs]. rewrite str_app_cons, str_app_nil_l. unfold normpath.
  rewrite decide_False by done. rewrite splitroot_single by by apply comps_relative.
  assert (norm_comps "/" (split_char slash (py_join "/" cs)) = norm_comps "/" cs) as ->.
  { rewrite <- norm_comps_filter. f_equal. exact (path_comps_join cs Hcs). }
  rewrite str_app_cons, str_app_nil_l. rewrite decide_False by done. split; [done|].
  rewrite <- (path_comps_join cs Hcs). unfold path_comps. rewrite norm_comps_filter. apply norm_comps_ok.
Qed.

Lemma plain_abs_inj p cs ds : plain_abs p cs → plain_abs p ds → cs = ds.
Proof. intros H1%plain_abs_comps H2%plain_abs_comps. destruct H1, H2. congruence. Qed.
