(* ===== verification/Binary64.v ===== *)
(** * Python [float]: IEEE 754 binary64

    Floats are the Standard Library's [spec_float], with precision 53 and
    largest exponent 1024: sums round to nearest even, comparisons are false
    on a NaN, and [float(z)] raises [OverflowError] when the rounded value is
    not finite. *)
From S2P Require Import Prelude.
From Stdlib Require Import SpecFloat.

#[local] Open Scope Z_scope.

Abbreviation float := spec_float.

#[export] Instance float_eq_dec : EqDecision float.
Proof. solve_decision. Defined.

Definition float_add (x y : float) : float := SFadd 53 1024 x y.
Definition float_sub (x y : float) : float := SFsub 53 1024 x y.
Definition float_mul (x y : float) : float := SFmul 53 1024 x y.
Definition float_div (x y : float) : float := SFdiv 53 1024 x y.
Definition float_geb (x y : float) : bool := SFleb y x.
Definition float_leb (x y : float) : bool := SFleb x y.
Definition float_gtb (x y : float) : bool := SFltb y x.

(** [math.isfinite] *)
Definition isfinite (x : float) : bool :=
  match x with S754_zero _ | S754_finite _ _ _ => true | _ => false end.

(** [float(z)] *)
Definition float_of_int (z : Z) : res float :=
  let x := binary_normalize 53 1024 z 0 false in
  if isfinite x then Ok x else Err (Exn OverflowError "int too large to convert to float").

(** The float of an integer of small magnitude, exact. *)
Definition float_lit (z : Z) : float := binary_normalize 53 1024 z 0 false.

Lemma float_geb_nan_l y : float_geb S754_nan y = false.
Proof. by destruct y. Qed.

Lemma float_geb_nan_r x : float_geb x S754_nan = false.
Proof. by destruct x. Qed.

(** Comparisons are total away from NaN. *)
Lemma float_geb_total x y : x ≠ S754_nan → y ≠ S754_nan → float_geb x y = negb (float_gtb y x).
Proof.
  unfold float_geb, float_gtb, SFleb, SFltb. intros Hx Hy.
  destruct x as [sx|sx| |sx mx ex], y as [sy|sy| |sy my ey]; try done; cbn;
    repeat match goal with s : bool |- _ => destruct s end; try done.
  - rewrite (Z.compare_antisym ey ex). destruct (ey ?= ex) eqn:E; cbn; try done.
    change (Pos.compare_cont Eq my mx) with (Pos.compare my mx).
    change (Pos.compare_cont Eq mx my) with (Pos.compare mx my).
    rewrite (Pos.compare_antisym my mx). by destruct (Pos.compare my mx).
  - rewrite (Z.compare_antisym ey ex). destruct (ey ?= ex) eqn:E; cbn; try done.
    change (Pos.compare_cont Eq my mx) with (Pos.compare my mx).
    change (Pos.compare_cont Eq mx my) with (Pos.compare mx my).
    rewrite (Pos.compare_antisym my mx). by destruct (Pos.compare my mx).
Qed.
