(* ===== verification/FloatText.v ===== *)
(** * JSON documents with floats

    [repr] of a binary64 float, the shortest decimal that reads back as it, and
    the size of what [json.dumps] writes with sorted keys and the default
    separators, floats included. *)
From S2P Require Import Prelude Sha256 Json Binary64.
From Stdlib Require Import SpecFloat.

#[local] Open Scope Z_scope.

(** [c * 10^k], correctly rounded. *)
Definition dec_float (c k : Z) : float :=
  if c =? 0 then S754_zero false
  else if 0 <=? k then float_lit (c * 10 ^ k)
  else SFdiv 53 1024 (S754_finite false (Z.to_pos c) 0) (S754_finite false (Z.to_pos (10 ^ (- k))) 0).

(** The numerator and denominator of [m * 2^e]. *)
Definition fraction (m : positive) (e : Z) : Z * Z :=
  if 0 <=? e then (Zpos m * 2 ^ e, 1) else (Zpos m, 2 ^ (- e)).
(** [a/b * 10^k] as a fraction. *)
Definition scale (q : Z * Z) (k : Z) : Z * Z := if 0 <=? k then (q.1 * 10 ^ k, q.2) else (q.1, q.2 * 10 ^ (- k)).
Definition below (q : Z * Z) (d : Z) : bool := let s := scale q (- d) in s.1 <? s.2.

(** The place of the decimal point: the least [d] with [q < 10^d], searched
    upwards from an estimate below it. *)
Fixpoint point_from (fuel : nat) (q : Z * Z) (d : Z) : Z :=
  match fuel with O => d | S fuel => if below q d then d else point_from fuel q (d + 1) end.
Definition decimal_point (m : positive) (e : Z) : Z :=
  let bits := Z.log2 (Zpos m) + e in point_from 8 (fraction m e) (bits * 30103 / 100000 - 2).

(** The [n]-digit decimals next to [q], the nearer one first. *)
Definition neighbours (q : Z * Z) (k : Z) : list Z :=
  let s := scale q k in
  let lo := s.1 / s.2 in
  if 2 * (s.1 - lo * s.2) <=? s.2 then [lo; lo + 1] else [lo + 1; lo].
Fixpoint shortest (todo : nat) (n : Z) (x : float) (q : Z * Z) (d : Z) : Z * Z :=
  match List.filter (λ c, bool_decide (dec_float c (d - n) = x)) (neighbours q (n - d)) with
  | c :: _ => (c, d - n)
  | [] => match todo with O => (0, 0) | S todo => shortest todo (n + 1) x q d end
  end.

Fixpoint zeros (n : nat) : string := match n with O => "" | S n => String "0" (zeros n) end.
Definition is_zero (c : ascii) : bool := bool_decide (c = "0"%char).
(** The digits [c * 10^k] without trailing zeros, at the place of the point. *)
Definition digits_text (c k : Z) : string :=
  let ds := str_of_nonneg c in
  let len := Z.of_nat (String.length ds) in
  let d := len + k in
  let ds := rstrip_by is_zero ds in
  let n := String.length ds in
  if (-4 <? d) && (d <=? 16) then
    if d <=? 0 then "0." +:+ zeros (Z.to_nat (- d)) +:+ ds
    else if Z.of_nat n <=? d then ds +:+ zeros (Z.to_nat d - n) +:+ ".0"
    else String.substring 0 (Z.to_nat d) ds +:+ "." +:+ String.substring (Z.to_nat d) (n - Z.to_nat d) ds
  else
    String.substring 0 1 ds +:+ (if (1 <? n)%nat then "." +:+ String.substring 1 (n - 1) ds else "") +:+ "e" +:+
    (if d - 1 <? 0 then "-" else "+") +:+ (if Z.abs (d - 1) <? 10 then "0" else "") +:+ str_of_nonneg (Z.abs (d - 1)).

(** [float.__repr__], which [json.dumps] uses for a finite float. *)
Definition float_text (x : float) : string :=
  match x with
  | S754_nan => "NaN"
  | S754_infinity s => if s then "-Infinity" else "Infinity"
  | S754_zero s => if s then "-0.0" else "0.0"
  | S754_finite s m e =>
      let '(c, k) := shortest 16 1 (S754_finite false m e) (fraction m e) (decimal_point m e) in
      (if s then "-" else "") +:+ digits_text c k
  end.

(** ** Documents *)

Inductive value :=
  | VNull
  | VBool (b : bool)
  | VInt (z : Z)
  | VFloat (x : float)
  | VStr (s : string)
  | VList (l : list value)
  | VObj (kvs : list (string * value)).

Fixpoint of_json (v : json) : value :=
  match v with
  | JNull => VNull
  | JBool b => VBool b
  | JInt z => VInt z
  | JStr s => VStr s
  | JList l => VList (map of_json l)
  | JObj kvs => VObj (map (λ kv, (kv.1, of_json kv.2)) kvs)
  end.

(** [json.dumps(v, sort_keys=True, ensure_ascii=False)] *)
Fixpoint value_dumps (v : value) : string :=
  match v with
  | VNull => "null"
  | VBool b => if b then "true" else "false"
  | VInt z => str_of_int z
  | VFloat x => float_text x
  | VStr s => json_quote false s
  | VList l => "[" +:+ py_join ", " (map value_dumps l) +:+ "]"
  | VObj kvs =>
      "{" +:+ py_join ", " (map (λ ks, json_quote false ks.1 +:+ ": " +:+ ks.2)
        (sort_by key_leb (map (λ kv, (kv.1, value_dumps kv.2)) kvs))) +:+ "}"
  end.

(** [len(text.encode("utf-8"))] *)
Definition utf8_length (s : string) : Z := Z.of_nat (length (encode_utf8 s)).

(** Entries of an object that are present. *)
Definition opt_field {A} (k : string) (f : A → value) (x : option A) : list (string * value) :=
  match x with Some a => [(k, f a)] | None => [] end.

Example float_text_1 :
  map float_text [float_lit 60; dec_float 1 (-1); dec_float 17906905672512345 (-7); float_lit (10 ^ 16); dec_float 1 (-5); S754_finite false 1 (-1074)] =
  ["60.0"; "0.1"; "1790690567.2512345"; "1e+16"; "1e-05"; "5e-324"].
Proof. vm_compute. reflexivity. Qed.
Example value_dumps_1 : value_dumps (VObj [("b", VList [VFloat (dec_float 5 (-1)); VNull]); ("a", VInt 3)]) =
  "{" +:+ json_quote false "a" +:+ ": 3, " +:+ json_quote false "b" +:+ ": [0.5, null]}".
Proof. vm_compute. reflexivity. Qed.
