(* ===== verification/Lineage.v ===== *)
(** * Delegation lineage and authority ([delegation_lineage.py])

    The value a delegation chain carries from hop to hop, the budget that
    bounds it, its strict reading back from JSON, and the intersection of
    authorities.  Lineages are plain data and every operation is pure, so each
    is a function; a denied hop or a malformed value is an [Err]. *)
From S2P Require Import Prelude Sha256 Json.

#[local] Open Scope Z_scope.

Record LineageBudget := {
  max_depth : Z;
  max_children_per_delegation : Z;
  max_total_delegations : Z
}.

Definition default_budget : LineageBudget := {|
  max_depth := 1; max_children_per_delegation := 1; max_total_delegations := 3
|}.

(** [LineageBudget.validate] *)
Definition budget_validate (b : LineageBudget) : res unit :=
  for_each (λ v, raise_if (v <? 0) ValueError "must be a non-negative integer")
    [max_depth b; max_children_per_delegation b; max_total_delegations b].

Record DelegationLineage := {
  originating_parent : string;
  chain_depth : Z;
  visited_specialists : list string;
  total_delegations : Z
}.

#[export] Instance lineage_eq_dec : EqDecision DelegationLineage.
Proof. solve_decision. Defined.

Definition root_lineage (parent requester : string) : res DelegationLineage :=
  raise_if (bool_decide (parent = "")) ValueError "originating_parent must be a non-empty string";;
  raise_if (bool_decide (requester = "")) ValueError "requester_specialist must be a non-empty string";;
  Ok {| originating_parent := parent; chain_depth := 0;
        visited_specialists := [requester]; total_delegations := 0 |}.

Definition advance (l : DelegationLineage) (target_specialist : string) (b : LineageBudget) :
    res DelegationLineage :=
  budget_validate b;;
  raise_if (bool_decide (target_specialist = "")) ValueError
    "target_specialist must be a non-empty string";;
  raise_if (max_depth b <=? chain_depth l) DelegationDenied "depth exceeded";;
  raise_if (bool_decide (target_specialist ∈ visited_specialists l)) DelegationDenied "cycle";;
  raise_if (max_total_delegations b <=? total_delegations l) DelegationDenied "budget exhausted";;
  Ok {| originating_parent := originating_parent l;
        chain_depth := chain_depth l + 1;
        visited_specialists := visited_specialists l ++ [target_specialist];
        total_delegations := total_delegations l + 1 |}.

Definition lineage_to_dict (l : DelegationLineage) : list (string * json) :=
  [("originating_parent", JStr (originating_parent l));
   ("chain_depth", JInt (chain_depth l));
   ("visited_specialists", JList (map JStr (visited_specialists l)));
   ("total_delegations", JInt (total_delegations l))].

(** [value[key]]: a missing key is a [KeyError], a value that is not a
    mapping a [TypeError]. *)
Definition get_item (v : json) (k : string) : res json :=
  match v with
  | JObj d => match dict_get k d with Some x => Ok x | None => Err (Exn KeyError k) end
  | _ => Err (Exn TypeError "not a mapping")
  end.

Definition nonempty_str (v : json) : option string :=
  match v with JStr s => if decide (s = "") then None else Some s | _ => None end.

Definition caught_malformed (c : exn_class) : bool :=
  match c with KeyError | TypeError | ValueError => true | _ => false end.

Definition nonneg_int (name : string) (v : json) : res Z :=
  match v with
  | JInt z => if z <? 0 then Err (Exn ValueError (name +:+ " must be non-negative")) else Ok z
  | _ => Err (Exn ValueError (name +:+ " must be an integer"))
  end.

Definition lineage_from_dict (value : json) : res DelegationLineage :=
  reraise caught_malformed DelegationDenied (
    parent_raw ← get_item value "originating_parent";
    parent ← match nonempty_str parent_raw with
             | Some s => Ok s
             | None => Err (Exn ValueError "originating_parent must be a non-empty string")
             end;
    depth_raw ← get_item value "chain_depth";
    depth ← nonneg_int "chain_depth" depth_raw;
    total_raw ← get_item value "total_delegations";
    total ← nonneg_int "total_delegations" total_raw;
    visited_raw ← get_item value "visited_specialists";
    items ← match visited_raw with
            | JList l => Ok l
            | _ => Err (Exn ValueError "visited_specialists must be a list")
            end;
    visited ← match mapM nonempty_str items with
              | Some vs => Ok vs
              | None => Err (Exn ValueError "visited_specialists entries must be non-empty strings")
              end;
    raise_if (negb (bool_decide (NoDup visited))) ValueError
      "visited_specialists must not contain duplicates";;
    raise_if (negb (depth =? Z.of_nat (length visited) - 1)) ValueError
      "chain_depth is inconsistent with visited_specialists length";;
    raise_if (negb (total =? depth)) ValueError
      "total_delegations is inconsistent with chain_depth";;
    Ok {| originating_parent := parent; chain_depth := depth;
          visited_specialists := visited; total_delegations := total |}).

Definition lineage_sha256 (l : DelegationLineage) : string :=
  sha256_hex (encode_utf8 (dumps true (JObj (lineage_to_dict l)))).

(** ** Authority *)

Definition _DATA_CLASS_RANK (c : string) : option Z :=
  if decide (c = "public") then Some 0
  else if decide (c = "internal") then Some 1
  else if decide (c = "restricted") then Some 2
  else None.

Record DelegationAuthority := {
  read_paths : gset string;
  write_paths : gset string;
  external_targets : gset string;
  data_class : string;
  resources : gset (string * string)
}.

(** [DelegationAuthority.validate] *)
Definition authority_validate (a : DelegationAuthority) : res unit :=
  raise_if (bool_decide (_DATA_CLASS_RANK (data_class a) = None)) ValueError "unknown data_class".

Definition rank_or_0 (c : string) : Z := default 0 (_DATA_CLASS_RANK c).

(** [min(values, key=rank)]: the first value of least rank. *)
Fixpoint min_data_class (best : string) (cs : list string) : string :=
  match cs with
  | [] => best
  | c :: cs => min_data_class (if rank_or_0 c <? rank_or_0 best then c else best) cs
  end.

Definition intersect_authority
    (parent requester requested_scope target_safety_policy : DelegationAuthority) :
    res DelegationAuthority :=
  for_each authority_validate [parent; requester; requested_scope; target_safety_policy];;
  Ok {| read_paths := read_paths parent ∩ read_paths requester ∩
                      read_paths requested_scope ∩ read_paths target_safety_policy;
        write_paths := ∅;
        external_targets := external_targets parent ∩ external_targets requester ∩
                            external_targets requested_scope ∩ external_targets target_safety_policy;
        data_class := min_data_class (data_class parent)
          [data_class requester; data_class requested_scope; data_class target_safety_policy];
        resources := resources parent ∩ resources requester ∩
                     resources requested_scope ∩ resources target_safety_policy |}.

Definition pair_leb (x y : string * string) : bool :=
  if decide (x.1 = y.1) then str_leb x.2 y.2 else str_leb x.1 y.1.

Definition sorted_set (s : gset string) : list string := sort_strings (elements s).
Definition sorted_pairs (s : gset (string * string)) : list (string * string) :=
  sort_by pair_leb (elements s).

Definition authority_to_dict (a : DelegationAuthority) : list (string * json) :=
  [("read_paths", JList (map JStr (sorted_set (read_paths a))));
   ("write_paths", JList (map JStr (sorted_set (write_paths a))));
   ("external_targets", JList (map JStr (sorted_set (external_targets a))));
   ("data_class", JStr (data_class a));
   ("resources", JList (map (λ p, JList [JStr p.1; JStr p.2]) (sorted_pairs (resources a))))].

Definition authority_sha256 (a : DelegationAuthority) : string :=
  sha256_hex (encode_utf8 (dumps true (JObj (authority_to_dict a)))).

(** ** Well-formed lineages *)

(** What [root_lineage] and [advance] keep true. *)
Record lineage_ok (l : DelegationLineage) : Prop := {
  ok_parent : originating_parent l ≠ "";
  ok_entries : Forall (λ s, s ≠ "") (visited_specialists l);
  ok_nodup : NoDup (visited_specialists l);
  ok_depth : chain_depth l = Z.of_nat (length (visited_specialists l)) - 1;
  ok_total : total_delegations l = chain_depth l;
  ok_seeded : visited_specialists l ≠ []
}.

(** Lineages a chain can hold: seeded once, then only advanced. *)
Inductive lineage_reachable : DelegationLineage → Prop :=
  | reach_root p r l : root_lineage p r = Ok l → lineage_reachable l
  | reach_advance l t b l' :
      lineage_reachable l → advance l t b = Ok l' → lineage_reachable l'.

(** A whole chain of hops under one budget. *)
Fixpoint advance_chain (l : DelegationLineage) (ts : list string) (b : LineageBudget) :
    res DelegationLineage :=
  match ts with
  | [] => Ok l
  | t :: ts => l' ← advance l t b; advance_chain l' ts b
  end.

(** [a] grants nothing that [b] does not. *)
Record authority_le (a b : DelegationAuthority) : Prop := {
  le_read : read_paths a ⊆ read_paths b;
  le_write : write_paths a ⊆ write_paths b;
  le_ext : external_targets a ⊆ external_targets b;
  le_res : resources a ⊆ resources b;
  le_class : rank_or_0 (data_class a) <= rank_or_0 (data_class b)
}.

(** ** Lemmas *)

Lemma budget_validate_Ok b u :
  budget_validate b = Ok u ↔
  0 <= max_depth b ∧ 0 <= max_children_per_delegation b ∧ 0 <= max_total_delegations b.
Proof.
  unfold budget_validate. rewrite for_each_Ok, !Forall_cons, Forall_nil.
  rewrite !raise_if_Ok, !Z.ltb_ge. tauto.
Qed.

Lemma advance_Ok l t b l' :
  advance l t b = Ok l' ↔
  (0 <= max_depth b ∧ 0 <= max_children_per_delegation b ∧ 0 <= max_total_delegations b) ∧
  t ≠ "" ∧ chain_depth l < max_depth b ∧ t ∉ visited_specialists l ∧
  total_delegations l < max_total_delegations b ∧
  l' = {| originating_parent := originating_parent l;
          chain_depth := chain_depth l + 1;
          visited_specialists := visited_specialists l ++ [t];
          total_delegations := total_delegations l + 1 |}.
Proof.
  unfold advance. split.
  - intros H. res_inv. bool_inv.
    repeat match goal with E : budget_validate _ = _ |- _ => apply budget_validate_Ok in E end.
    split_and!; tauto || lia || done.
  - intros ((? & ? & ?) & ? & ? & ? & ? & ->).
    rewrite (proj2 (budget_validate_Ok b tt)) by done.
    rewrite (bool_decide_eq_false_2 (t = "")), (bool_decide_eq_false_2 (t ∈ _)) by done.
    rewrite !(proj2 (Z.leb_gt _ _)) by done. done.
Qed.

Lemma root_lineage_Ok p r l :
  root_lineage p r = Ok l ↔
  p ≠ "" ∧ r ≠ "" ∧
  l = {| originating_parent := p; chain_depth := 0; visited_specialists := [r];
         total_delegations := 0 |}.
Proof.
  unfold root_lineage. split.
  - intros H. res_inv. bool_inv. done.
  - intros (? & ? & ->). by rewrite !bool_decide_eq_false_2.
Qed.

Lemma root_lineage_ok p r l : root_lineage p r = Ok l → lineage_ok l.
Proof.
  intros (? & ? & ->)%root_lineage_Ok. split; cbn; try done.
  - by repeat constructor.
  - apply NoDup_singleton.
Qed.

Lemma advance_ok l t b l' : lineage_ok l → advance l t b = Ok l' → lineage_ok l'.
Proof.
  intros [] (_ & ? & _ & ? & _ & ->)%advance_Ok. split; cbn; try done.
  - by apply Forall_app_2; [|by repeat constructor].
  - apply NoDup_app. split; [done|]. split; [|apply NoDup_singleton].
    intros x ? ->%list_elem_of_singleton. done.
  - rewrite length_app. cbn. lia.
  - lia.
  - by destruct (visited_specialists l).
Qed.

Lemma reachable_ok l : lineage_reachable l → lineage_ok l.
Proof. induction 1; eauto using root_lineage_ok, advance_ok. Qed.

Lemma mapM_nonempty_JStr vs :
  Forall (λ s, s ≠ "") vs → mapM nonempty_str (map JStr vs) = Some vs.
Proof.
  induction 1 as [|v vs Hv _ IH]; cbn; [done|].
  rewrite decide_False by done. cbn. by rewrite IH.
Qed.

Lemma nonempty_str_Some v s : nonempty_str v = Some s ↔ v = JStr s ∧ s ≠ "".
Proof.
  destruct v; cbn; try (split; [done|by intros [[=] _]]).
  case_decide; split; [done|by intros [[= ->] ?]|by intros [= ->]|by intros [[= ->] ?]].
Qed.

Lemma mapM_nonempty_Some items vs :
  mapM nonempty_str items = Some vs → items = map JStr vs ∧ Forall (λ s, s ≠ "") vs.
Proof.
  intros H%mapM_Some. induction H as [|x y l k [-> ?]%nonempty_str_Some _ [-> IH]]; cbn; [done|].
  split; [done|by constructor].
Qed.

Lemma get_item_Ok v k x :
  get_item v k = Ok x ↔ ∃ d, v = JObj d ∧ dict_get k d = Some x.
Proof.
  destruct v; cbn; try (split; [done|by intros (? & [=] & _)]).
  destruct (dict_get k kvs) eqn:E; split; try (intros [= ->]; eauto);
    intros (? & [= <-] & ?); congruence.
Qed.

Lemma nonneg_int_Ok name v z : nonneg_int name v = Ok z ↔ v = JInt z ∧ 0 <= z.
Proof.
  destruct v; cbn; try (split; [done|by intros [[=] _]]).
  destruct (z0 <? 0) eqn:E; bool_inv; split; try done.
  - intros [[= ->] ?]. lia.
  - by intros [= ->].
  - by intros [[= ->] ?].
Qed.

(** Reading back exactly inverts writing out on well-formed lineages. *)
Lemma lineage_from_to_dict l : lineage_ok l → lineage_from_dict (JObj (lineage_to_dict l)) = Ok l.
Proof.
  intros [Hp He Hn Hd Ht Hs]. destruct l as [p d vs t]; cbn in *. subst t.
  assert (length vs ≠ 0)%nat by by destruct vs.
  apply reraise_Ok.
  eapply bind_intro; [reflexivity|].
  eapply bind_intro; [cbn; by rewrite decide_False by done|].
  do 2 (eapply bind_intro; [reflexivity|]; eapply bind_intro;
        [apply nonneg_int_Ok; split; [done|cbn; lia]|]).
  do 2 (eapply bind_intro; [reflexivity|]).
  eapply bind_intro; [cbn; by rewrite mapM_nonempty_JStr|].
  rewrite bool_decide_eq_true_2, Hd, !Z.eqb_refl by done. done.
Qed.

Lemma lineage_from_dict_ok v l : lineage_from_dict v = Ok l → lineage_ok l.
Proof.
  unfold lineage_from_dict. rewrite reraise_Ok. intros H. res_inv.
  repeat match goal with
  | E : nonneg_int _ _ = Ok _ |- _ => apply nonneg_int_Ok in E as [-> ?]
  | E : match nonempty_str ?x with _ => _ end = Ok _ |- _ =>
      destruct (nonempty_str x) eqn:?; res_inv
  | E : match mapM nonempty_str ?x with _ => _ end = Ok _ |- _ =>
      destruct (mapM nonempty_str x) eqn:?; res_inv
  | E : nonempty_str _ = Some _ |- _ => apply nonempty_str_Some in E as [-> ?]
  | E : mapM nonempty_str _ = Some _ |- _ => apply mapM_nonempty_Some in E as [? ?]
  end. bool_inv. split; cbn; try done. intros ->. cbn in *. lia.
Qed.

Lemma advance_chain_cons l t ts b :
  advance_chain l (t :: ts) b = advance l t b ≫= λ l', advance_chain l' ts b.
Proof. done. Qed.

(** What a chain of hops leaves, when it is admitted. *)
Lemma advance_chain_Ok l ts b l' :
  advance_chain l ts b = Ok l' ↔
  (ts = [] ∧ l' = l) ∨
  (ts ≠ [] ∧
   (0 <= max_depth b ∧ 0 <= max_children_per_delegation b ∧ 0 <= max_total_delegations b) ∧
   Forall (λ t, t ≠ "") ts ∧ NoDup ts ∧ (∀ t, t ∈ ts → t ∉ visited_specialists l) ∧
   chain_depth l + Z.of_nat (length ts) <= max_depth b ∧
   total_delegations l + Z.of_nat (length ts) <= max_total_delegations b ∧
   l' = {| originating_parent := originating_parent l;
           chain_depth := chain_depth l + Z.of_nat (length ts);
           visited_specialists := visited_specialists l ++ ts;
           total_delegations := total_delegations l + Z.of_nat (length ts) |}).
Proof.
  revert l. induction ts as [|t ts IH]; intros l.
  { cbn. split; [intros [= <-]; auto|]. intros [[_ ->]|[[] _]]; done. }
  rewrite advance_chain_cons, bind_Ok. split.
  - intros (l1 & (Hb & Ht & Hd & Hv & Htot & ->)%advance_Ok & H). right. split; [done|].
    apply IH in H as [[-> ->]|(Hne & _ & He & Hn & Hnv & Hd' & Ht' & ->)]; cbn in *.
    + split_and!; try done; try lia.
      * by repeat constructor.
      * apply NoDup_singleton.
      * by intros t' ->%list_elem_of_singleton.
    + split_and!; try tauto; try lia.
      * by constructor.
      * apply NoDup_cons. split; [|done]. intros Hin. apply (Hnv t Hin).
        apply elem_of_app. right. by apply list_elem_of_singleton.
      * intros t' [->|Hin]%elem_of_cons; [done|]. intros Hv'. apply (Hnv t' Hin).
        apply elem_of_app. by left.
      * rewrite <- app_assoc. cbn. f_equal; lia.
  - intros [[[=] _]|(_ & Hb & [Ht He]%Forall_cons & [Htn Hn]%NoDup_cons & Hv & Hd & Htot & ->)].
    cbn [length] in *. eexists. split.
    + apply advance_Ok. split_and!; try tauto; try lia. apply Hv. by left.
    + apply IH. destruct ts as [|t' ts].
      { left. cbn. split; [done|]. f_equal; lia. }
      right. cbn [chain_depth total_delegations visited_specialists originating_parent].
      split_and!; try tauto; try lia.
      * done.
      * intros x Hx [Hxv| ->%list_elem_of_singleton]%elem_of_app; [|done].
        apply (Hv x); [by right|done].
      * rewrite <- app_assoc. cbn. f_equal; lia.
Qed.

Lemma authority_validate_Ok a u :
  authority_validate a = Ok u ↔ is_Some (_DATA_CLASS_RANK (data_class a)).
Proof.
  unfold authority_validate. rewrite raise_if_Ok, bool_decide_eq_false, not_eq_None_Some. done.
Qed.

Lemma min_data_class_spec best cs :
  min_data_class best cs ∈ best :: cs ∧
  (∀ c, c ∈ best :: cs → rank_or_0 (min_data_class best cs) <= rank_or_0 c).
Proof.
  revert best. induction cs as [|c cs IH]; intros best; cbn.
  - split; [by left|]. by intros c ->%list_elem_of_singleton.
  - destruct (rank_or_0 c <? rank_or_0 best) eqn:E; bool_inv;
      destruct (IH (if rank_or_0 c <? rank_or_0 best then c else best)) as [Hin Hle].
    + rewrite (proj2 (Z.ltb_lt _ _)) in Hin, Hle by done. split; [set_solver|].
      intros d Hd. assert (rank_or_0 (min_data_class c cs) <= rank_or_0 c) by (apply Hle; by left).
      apply elem_of_cons in Hd as [->|Hd]; [lia|]. by apply Hle.
    + rewrite (proj2 (Z.ltb_ge _ _)) in Hin, Hle by done. split; [set_solver|].
      intros d Hd. assert (rank_or_0 (min_data_class best cs) <= rank_or_0 best) by (apply Hle; by left).
      apply elem_of_cons in Hd as [->|[->|Hd]%elem_of_cons]; [lia|lia|].
      apply Hle. by right.
Qed.

#[local] Opaque min_data_class.

Lemma sorted_set_inj s t : sorted_set s = sorted_set t → s = t.
Proof.
  unfold sorted_set. intros H. apply set_eq. intros x.
  rewrite <- !elem_of_elements, <- (sort_strings_perm (elements s)), H, sort_strings_perm. done.
Qed.

Lemma sorted_pairs_inj s t : sorted_pairs s = sorted_pairs t → s = t.
Proof.
  unfold sorted_pairs. intros H. apply set_eq. intros x.
  rewrite <- !elem_of_elements, <- (sort_by_perm pair_leb (elements s)), H, sort_by_perm. done.
Qed.

Lemma map_JStr_inj l m : map JStr l = map JStr m → l = m.
Proof.
  revert m. induction l as [|x l IH]; intros [|y m]; try done. intros [= -> H]. f_equal. auto.
Qed.

Lemma map_pair_inj (l m : list (string * string)) :
  map (λ p, JList [JStr p.1; JStr p.2]) l = map (λ p, JList [JStr p.1; JStr p.2]) m → l = m.
Proof.
  revert m. induction l as [|[a b] l IH]; intros [|[c d] m]; try done.
  cbn. intros [= -> -> H]. f_equal. auto.
Qed.

Lemma authority_to_dict_inj a b : authority_to_dict a = authority_to_dict b → a = b.
Proof.
  destruct a, b. unfold authority_to_dict. cbn.
  intros [= ?%map_JStr_inj ?%map_JStr_inj ?%map_JStr_inj ? ?%map_pair_inj].
  f_equal; eauto using sorted_set_inj, sorted_pairs_inj.
Qed.

Lemma lineage_dict_wf l : lineage_ok l → json_wf (JObj (lineage_to_dict l)) = true.
Proof.
  intros _. apply json_wf_obj. split; [by_decide|].
  unfold lineage_to_dict. repeat constructor. cbn [snd]. apply json_wf_list.
  apply Forall_fmap. by apply Forall_true.
Qed.

Lemma authority_dict_wf a : json_wf (JObj (authority_to_dict a)) = true.
Proof.
  apply json_wf_obj. split; [by_decide|]. unfold authority_to_dict.
  repeat constructor; cbn [snd]; apply json_wf_list; apply Forall_fmap; by apply Forall_true.
Qed.

Lemma map_canon_strs l : map json_canon (map JStr l) = map JStr l.
Proof. induction l as [|x l IH]; cbn; [done|]. by rewrite IH. Qed.

Lemma map_canon_pairs (l : list (string * string)) :
  map json_canon (map (λ p, JList [JStr p.1; JStr p.2]) l) = map (λ p, JList [JStr p.1; JStr p.2]) l.
Proof. induction l as [|x l IH]; cbn; [done|]. by rewrite IH. Qed.

Lemma authority_canon_inj a b :
  json_canon (JObj (authority_to_dict a)) = json_canon (JObj (authority_to_dict b)) → a = b.
Proof.
  rewrite !canon_obj. unfold authority_to_dict. intros [= H1 H2 H3 H4 H5].
  apply authority_to_dict_inj. unfold authority_to_dict.
  rewrite !map_canon_strs in H2, H3, H5. rewrite !map_canon_pairs in H4. congruence.
Qed.

(** [lineage_from_dict] reads an object through its keys only. *)
Lemma lineage_from_dict_canon l :
  lineage_from_dict (json_canon (JObj (lineage_to_dict l))) =
  lineage_from_dict (JObj (lineage_to_dict l)).
Proof.
  assert (Hg : ∀ k, get_item (json_canon (JObj (lineage_to_dict l))) k =
                    get_item (JObj (lineage_to_dict l)) k).
  { intros k. rewrite canon_obj. cbn [get_item].
    rewrite dict_get_canon by by_decide.
    cbn. repeat (case_decide; [cbn; try done|]); try done.
    rewrite map_map. done. }
  unfold lineage_from_dict. by rewrite !Hg.
Qed.

Lemma lineage_from_dict_fields v l :
  lineage_from_dict v = Ok l →
  ∃ d, v = JObj d ∧ ∀ k x, dict_get k (lineage_to_dict l) = Some x → dict_get k d = Some x.
Proof.
  unfold lineage_from_dict. rewrite reraise_Ok. intros H. res_inv.
  repeat match goal with
  | E : get_item _ _ = Ok _ |- _ => apply get_item_Ok in E as (? & ? & E)
  | E : nonneg_int _ _ = Ok _ |- _ => apply nonneg_int_Ok in E as [-> ?]
  | E : match nonempty_str ?x with _ => _ end = Ok _ |- _ =>
      destruct (nonempty_str x) eqn:?; res_inv
  | E : match mapM nonempty_str ?x with _ => _ end = Ok _ |- _ =>
      destruct (mapM nonempty_str x) eqn:?; res_inv
  | E : match ?x with JNull => _ | _ => _ end = Ok _ |- _ => destruct x eqn:?; res_inv
  | E : nonempty_str _ = Some _ |- _ => apply nonempty_str_Some in E as [-> ?]
  | E : mapM nonempty_str _ = Some _ |- _ => apply mapM_nonempty_Some in E as [-> ?]
  end. subst. simplify_eq. eexists. split; [done|].
  intros k x. cbn. repeat (case_decide; [naive_solver|]). done.
Qed.

(** ** Properties *)

(** A lineage that any chain of delegations can hold survives the JSON
    boundary unchanged: [lineage_from_dict] of the value the store wrote and
    re-read (its text parsed back, keys sorted) is the very lineage. *)
Theorem lineage_json_roundtrip l :
  lineage_reachable l →
  ∃ v, loads (dumps true (JObj (lineage_to_dict l))) = Some v ∧ lineage_from_dict v = Ok l.
Proof.
  intros Hl%reachable_ok. exists (json_canon (JObj (lineage_to_dict l))).
  split; [apply loads_dumps; by apply lineage_dict_wf|].
  rewrite <- (lineage_from_to_dict l Hl). apply lineage_from_dict_canon.
Qed.

Lemma lineage_json_roundtrip_witness :
  let l := {| originating_parent := "TASK-1"; chain_depth := 1;
              visited_specialists := ["lead"; "auditor"]; total_delegations := 1 |} in
  lineage_reachable l ∧
  ∃ v, loads (dumps true (JObj (lineage_to_dict l))) = Some v ∧ lineage_from_dict v = Ok l.
Proof.
  intros l. assert (lineage_reachable l) as Hl.
  { apply (reach_advance (default {| originating_parent := ""; chain_depth := 0;
      visited_specialists := []; total_delegations := 0 |}
      (match root_lineage "TASK-1" "lead" with Ok l => Some l | Err _ => None end))
      "auditor" default_budget); [|vm_compute; reflexivity].
    apply (reach_root "TASK-1" "lead"). vm_compute. reflexivity. }
  split; [exact Hl|]. apply (lineage_json_roundtrip l Hl).
Defined.

(** C40. Whatever [lineage_from_dict] accepts satisfies every invariant that
    [root_lineage] and [advance] maintain, and the accepted value carries
    exactly the fields of the lineage returned: no forged counter, duplicate
    or empty specialist gets through, and nothing is coerced. *)
Theorem lineage_from_dict_sound v l :
  lineage_from_dict v = Ok l →
  lineage_ok l ∧
  ∃ d, v = JObj d ∧ ∀ k x, dict_get k (lineage_to_dict l) = Some x → dict_get k d = Some x.
Proof.
  intros H. split; [by eapply lineage_from_dict_ok|]. by apply lineage_from_dict_fields.
Qed.

Lemma lineage_from_dict_sound_witness :
  let l := {| originating_parent := "TASK-1"; chain_depth := 0;
              visited_specialists := ["lead"]; total_delegations := 0 |} in
  lineage_from_dict (JObj (("extra", JNull) :: lineage_to_dict l)) = Ok l ∧ lineage_ok l.
Proof.
  intros l. assert (H : lineage_from_dict (JObj (("extra", JNull) :: lineage_to_dict l)) = Ok l)
    by (vm_compute; reflexivity).
  split; [exact H|]. exact (proj1 (lineage_from_dict_sound _ _ H)).
Defined.

(** The global cap, exactly: a non-empty run of hops under one budget is
    admitted if and only if the budget is valid, the targets are non-empty,
    distinct and new to the chain, and neither the depth nor the total count
    passes its cap however many parents the chain goes through. *)
Theorem advance_chain_admitted l ts b :
  ts ≠ [] →
  is_ok (advance_chain l ts b) = true ↔
  (0 <= max_depth b ∧ 0 <= max_children_per_delegation b ∧ 0 <= max_total_delegations b) ∧
  Forall (λ t, t ≠ "") ts ∧ NoDup ts ∧ (∀ t, t ∈ ts → t ∉ visited_specialists l) ∧
  chain_depth l + Z.of_nat (length ts) <= max_depth b ∧
  total_delegations l + Z.of_nat (length ts) <= max_total_delegations b.
Proof.
  intros Hne. split.
  - destruct (advance_chain l ts b) as [l'|] eqn:E; [|done]. intros _.
    apply advance_chain_Ok in E as [[-> _]|E]; [done|]. tauto.
  - intros H.
    erewrite (proj2 (advance_chain_Ok l ts b _)); [reflexivity|]. right. tauto.
Qed.

Lemma advance_chain_admitted_witness :
  let l := {| originating_parent := "TASK-1"; chain_depth := 0;
              visited_specialists := ["lead"]; total_delegations := 0 |} in
  let b := {| max_depth := 2; max_children_per_delegation := 1; max_total_delegations := 3 |} in
  is_ok (advance_chain l ["auditor"; "tester"] b) = true ∧
  chain_depth l + 2 <= max_depth b.
Proof.
  intros l b. assert (is_ok (advance_chain l ["auditor"; "tester"] b) = true) as H
    by (vm_compute; reflexivity).
  split; [exact H|]. apply (advance_chain_admitted l ["auditor"; "tester"] b) in H; [|done].
  apply H.
Defined.

(** [intersect_authority] is the greatest authority below all four inputs
    that grants no write: it never exceeds any input, its write scope is
    empty, and every read-only authority below the four is below it. *)
Theorem intersect_authority_glb p q s t a :
  intersect_authority p q s t = Ok a →
  write_paths a = ∅ ∧
  (∀ x, x ∈ [p; q; s; t] → authority_le a x) ∧
  (∀ x, write_paths x = ∅ → (∀ y, y ∈ [p; q; s; t] → authority_le x y) → authority_le x a).
Proof.
  unfold intersect_authority. intros H. res_inv.
  destruct (min_data_class_spec (data_class p) [data_class q; data_class s; data_class t])
    as [Hin Hle].
  set (m := min_data_class _ _) in *. clearbody m. cbn [write_paths]. split; [done|].
  split.
  - intros x Hx. assert (data_class x ∈ data_class p :: [data_class q; data_class s; data_class t])
      as Hc by (by apply (list_elem_of_fmap_2 data_class [p; q; s; t])).
    split; cbn; [set_solver..|by apply Hle].
  - intros x Hw Hx.
    assert (Hp : authority_le x p) by (apply Hx; set_solver).
    assert (Hq : authority_le x q) by (apply Hx; set_solver).
    assert (Hs : authority_le x s) by (apply Hx; set_solver).
    assert (Ht : authority_le x t) by (apply Hx; set_solver).
    split; cbn [read_paths write_paths external_targets resources data_class].
    + repeat apply intersection_greatest; by apply le_read.
    + by rewrite Hw.
    + repeat apply intersection_greatest; by apply le_ext.
    + repeat apply intersection_greatest; by apply le_res.
    + rewrite !elem_of_cons in Hin.
      destruct Hin as [->|[->|[->|[->|Hin]]]]; [by apply le_class..|by apply elem_of_nil in Hin].
Qed.

#[local] Transparent min_data_class.

Lemma intersect_authority_glb_witness :
  let mk c r := {| read_paths := r; write_paths := {["src"]}; external_targets := ∅;
                   data_class := c; resources := ∅ |} in
  let p := mk "internal" {["src"; "docs"]} in
  let q := mk "public" {["src"]} in
  ∃ a, intersect_authority p q p p = Ok a ∧ write_paths a = ∅.
Proof.
  intros mk p q.
  destruct (intersect_authority p q p p) as [a|e] eqn:E; [|vm_compute in E; discriminate].
  exists a. split; [reflexivity|]. exact (proj1 (intersect_authority_glb p q p p a E)).
Defined.
