(* ===== verification/Router.v ===== *)
(** * The board router ([board_router.py])

    The parallel-safety scheduler: given ready tasks, a persisted snapshot of
    reservations and the settled predecessors, decide which tasks may run now.
    Three axes are modelled as the code has them: file scopes (compared through
    the operating system's [realpath] and [stat], which are parameters), the
    transitive [depends_on] relation (a depth-first search), and the typed
    shared resources behind a lock table with all-or-nothing acquisition. *)
From S2P Require Import Prelude Sha256 Json Posix.

#[local] Open Scope Z_scope.

(** ** Data *)

Definition KNOWN_RESOURCE_CLASSES : list string :=
  ["task_registry"; "vault_db"; "vault_index"; "vault_compaction"; "git_refs"; "git_config";
   "git_hooks"; "git_remotes"; "integration_branch"; "outbox"; "reconciler"; "board_state";
   "queue_ledger"; "claim_ledger"; "attempt_ledger"; "generation_ledger"; "mcp_server";
   "browser_profile"; "port"; "daemon"; "cache"; "credential_broker"; "provider_quota"; "tmux";
   "status_line"; "temp"].

Definition _VALID_MODES : list string := ["read"; "write"; "count"].

Record DepEdge := {
  dep_task_id : string;
  dep_generation : Z;
  dep_artifact_sha256 : string
}.

Record ResourceClaim := {
  resource_class : string;
  target : string;
  mode : string;
  units : Z
}.

Record BoardTask := {
  task_id : string;
  write_paths : list string;
  read_paths : list string;
  depends_on : list DepEdge;
  resources : list ResourceClaim;
  worktree_root : string;
  metadata_complete : bool;
  priority : Z
}.

Record TaskReservation := { resv_task_id : string; token : string; task : BoardTask }.
Record ReservationRelease := { release_token : string; outcome : string }.

Record ScheduleResult := {
  run_now : list string;
  must_wait : list string;
  reasons : list (string * string);
  reservations : list TaskReservation;
  reservation_snapshot_sha256 : string
}.

#[export] Instance DepEdge_eq_dec : EqDecision DepEdge.
Proof. solve_decision. Defined.
#[export] Instance ResourceClaim_eq_dec : EqDecision ResourceClaim.
Proof. solve_decision. Defined.
#[export] Instance BoardTask_eq_dec : EqDecision BoardTask.
Proof. solve_decision. Defined.
#[export] Instance TaskReservation_eq_dec : EqDecision TaskReservation.
Proof. solve_decision. Defined.

(** What the router asks of the file system: [os.path.realpath], and [os.stat]
    reduced to [(st_dev, st_ino)], [None] when it raises [OSError]. *)
Record FileSystem := {
  os_realpath : string → string;
  os_stat : string → option (Z * Z)
}.

(** ** Canonical path handling *)

Section paths.
Context (fs : FileSystem).

Definition _canonical_path (path worktree_root : string) : string * option (Z * Z) :=
  let rooted := if isabs path then path else path_join worktree_root path in
  let real := os_realpath fs rooted in
  let key := py_casefold real in
  (key, os_stat fs real).

Definition _is_ancestor (ancestor_key descendant_key : string) : bool :=
  if decide (ancestor_key = descendant_key) then false
  else startswith descendant_key (rstrip_slash ancestor_key +:+ "/").

Definition _paths_alias (task_a : BoardTask) (path_a : string)
    (task_b : BoardTask) (path_b : string) : bool :=
  let '(key_a, ident_a) := _canonical_path path_a (worktree_root task_a) in
  let '(key_b, ident_b) := _canonical_path path_b (worktree_root task_b) in
  if bool_decide (ident_a ≠ None ∧ ident_a = ident_b) then true
  else if bool_decide (key_a = key_b) then true
  else _is_ancestor key_a key_b || _is_ancestor key_b key_a.

Definition _claims (t : BoardTask) : list (string * string) :=
  map (λ p, (p, "write")) (write_paths t) ++ map (λ p, (p, "read")) (read_paths t).

Definition files_conflict (task_a task_b : BoardTask) : bool :=
  existsb (λ ca, existsb (λ cb,
      if bool_decide (ca.2 = "read" ∧ cb.2 = "read") then false
      else _paths_alias task_a ca.1 task_b cb.1) (_claims task_b)) (_claims task_a).
End paths.

(** ** Metadata completeness *)

Definition nul : ascii := "000"%char.

Definition claim_ambiguous (c : ResourceClaim) : bool :=
  negb (bool_decide (resource_class c ∈ KNOWN_RESOURCE_CLASSES)) ||
  negb (bool_decide (target c = py_strip (target c))) ||
  negb (bool_decide (mode c ∈ _VALID_MODES)) ||
  (units c <=? 0).

(** The [isinstance] tests of the code hold by the types of the record. *)
Definition is_ambiguous (t : BoardTask) : bool :=
  bool_decide (task_id t = "") ||
  negb (metadata_complete t) ||
  char_in nul (worktree_root t) ||
  (negb (bool_decide (worktree_root t = "")) && negb (isabs (worktree_root t))) ||
  existsb (λ path, bool_decide (path = "") || char_in nul path ||
      (negb (isabs path) && bool_decide (worktree_root t = "")))
    (write_paths t ++ read_paths t) ||
  existsb claim_ambiguous (resources t).

(** ** Dependencies *)

Definition _direct_dep (task_a task_b : BoardTask) : bool :=
  existsb (λ e, bool_decide (dep_task_id e = task_id task_b)) (depends_on task_a) ||
  existsb (λ e, bool_decide (dep_task_id e = task_id task_a)) (depends_on task_b).

(** The adjacency dictionary of [DependencyIndex]; a [frozenset] of successors
    is a list without duplicates. *)
Abbreviation DependencyIndex := (list (string * list string)).

Definition successors (adj : DependencyIndex) (n : string) : list string :=
  default [] (dict_get n adj).

(** [DependencyIndex.reachable]'s loop; the top of the stack is the head. *)
Fixpoint reachable_loop (fuel : nat) (adj : DependencyIndex) (tgt : string)
    (stack seen : list string) : option bool :=
  match fuel with
  | O => None
  | S fuel =>
      match stack with
      | [] => Some false
      | node :: stack =>
          if decide (node = tgt) then Some true
          else if decide (node ∈ seen) then reachable_loop fuel adj tgt stack seen
          else reachable_loop fuel adj tgt (successors adj node ++ stack) (node :: seen)
      end
  end.

(** Every node is expanded at most once, so the pushes are bounded by the edges. *)
Definition edge_count (adj : DependencyIndex) : nat :=
  sum_list (map (λ kv, length kv.2) adj).

Definition reachable_fuel (adj : DependencyIndex) (source : string) : nat :=
  S (length (successors adj source) + edge_count adj).

Definition reachable (adj : DependencyIndex) (source tgt : string) : bool :=
  default false
    (reachable_loop (reachable_fuel adj source) adj tgt (successors adj source) []).

Definition depends_either (adj : DependencyIndex) (a b : string) : bool :=
  reachable adj a b || reachable adj b a.

Definition build_dependency_index (tasks : list BoardTask) : DependencyIndex :=
  fold_left (λ adj t, dict_set (task_id t) (remove_dups (map dep_task_id (depends_on t))) adj)
    tasks [].

(** ** Shared resources *)

(** A capacity key: a class, a [(class, target)] pair, or anything else. *)
Inductive cap_key :=
  | CapClass (c : string)
  | CapTarget (c t : string)
  | CapOther.
#[export] Instance cap_key_eq_dec : EqDecision cap_key.
Proof. solve_decision. Defined.

Abbreviation Capacities := (list (cap_key * Z)).

Fixpoint cap_get (k : cap_key) (cs : Capacities) : option Z :=
  match cs with
  | [] => None
  | (k', z) :: cs => if decide (k' = k) then Some z else cap_get k cs
  end.

Definition _capacities_valid (cs : Capacities) : bool :=
  forallb (λ kv,
    (0 <? kv.2) &&
    match kv.1 with
    | CapClass c => bool_decide (c ∈ KNOWN_RESOURCE_CLASSES)
    | CapTarget c t => bool_decide (c ∈ KNOWN_RESOURCE_CLASSES) && bool_decide (t = py_strip t)
    | CapOther => false
    end) cs.

Definition _capacity (cs : Capacities) (rc t : string) : Z :=
  match cap_get (CapTarget rc t) cs with
  | Some z => z
  | None => match cap_get (CapClass rc) cs with Some z => z | None => 1 end
  end.

Definition _resource_conflict_pairwise (task_a task_b : BoardTask) (cs : Capacities) : bool :=
  existsb (λ a, existsb (λ b,
      if bool_decide ((resource_class a, target a) ≠ (resource_class b, target b)) then false
      else if bool_decide (mode a = "read" ∧ mode b = "read") then false
      else if bool_decide (mode a = "count" ∧ mode b = "count") then
        _capacity cs (resource_class a) (target a) <? units a + units b
      else true) (resources task_b)) (resources task_a).

(** *** The lock table *)

Record LockState := { ls_mode : string; ls_count : Z; ls_units : Z }.
Abbreviation LockTable := (gmap (string * string) LockState).

Definition claim_key (c : ResourceClaim) : string * string := (resource_class c, target c).

(** [_LockTable._grant]: the new table when the claim is granted. *)
Definition _grant (cs : Capacities) (tbl : LockTable) (c : ResourceClaim) : option LockTable :=
  let key := claim_key c in
  let state := tbl !! key in
  if decide (mode c = "write") then
    match state with
    | Some s => if 0 <? ls_count s then None
                else Some (<[key := {| ls_mode := "write"; ls_count := 1; ls_units := 1 |}]> tbl)
    | None => Some (<[key := {| ls_mode := "write"; ls_count := 1; ls_units := 1 |}]> tbl)
    end
  else if decide (mode c = "read") then
    match state with
    | None => Some (<[key := {| ls_mode := "read"; ls_count := 1; ls_units := 0 |}]> tbl)
    | Some s =>
        if decide (ls_mode s = "read") then
          Some (<[key := {| ls_mode := "read"; ls_count := ls_count s + 1; ls_units := ls_units s |}]> tbl)
        else None
    end
  else
    let capacity := _capacity cs (resource_class c) (target c) in
    match state with
    | None =>
        if capacity <? units c then None
        else Some (<[key := {| ls_mode := "count"; ls_count := 1; ls_units := units c |}]> tbl)
    | Some s =>
        if decide (ls_mode s = "count") then
          if capacity <? ls_units s + units c then None
          else Some (<[key := {| ls_mode := "count"; ls_count := ls_count s + 1;
                                 ls_units := ls_units s + units c |}]> tbl)
        else None
    end.

(** [_LockTable._release] *)
Definition _release (tbl : LockTable) (c : ResourceClaim) : LockTable :=
  let key := claim_key c in
  match tbl !! key with
  | None => tbl
  | Some s =>
      let u := if decide (mode c = "count") then ls_units s - units c else ls_units s in
      let n := ls_count s - 1 in
      if n <=? 0 then delete key tbl
      else <[key := {| ls_mode := ls_mode s; ls_count := n; ls_units := u |}]> tbl
  end.

Definition claim_leb (a b : ResourceClaim) : bool :=
  if decide (resource_class a = resource_class b) then
    if decide (target a = target b) then str_leb (mode a) (mode b)
    else str_leb (target a) (target b)
  else str_leb (resource_class a) (resource_class b).

(** The loop of [_LockTable.try_acquire]; [held] is newest first, which is the
    order the rollback releases in. *)
Fixpoint acquire_loop (cs : Capacities) (tbl : LockTable) (todo held : list ResourceClaim) :
    bool * LockTable :=
  match todo with
  | [] => (true, tbl)
  | c :: todo =>
      match _grant cs tbl c with
      | Some tbl' => acquire_loop cs tbl' todo (c :: held)
      | None => (false, fold_left _release held tbl)
      end
  end.

Definition try_acquire (cs : Capacities) (tbl : LockTable) (t : BoardTask) : bool * LockTable :=
  acquire_loop cs tbl (sort_by claim_leb (resources t)) [].

(** ** Pairwise predicate *)

Section router.
Context (fs : FileSystem).

Definition _conflict_reason (task_a task_b : BoardTask) (idx : option DependencyIndex)
    (cs : Capacities) : option string :=
  if decide (task_id task_a = task_id task_b) then
    Some ("duplicate task identity: " +:+ task_id task_a)
  else if is_ambiguous task_a || is_ambiguous task_b then
    Some "ambiguous or missing metadata (serialized)"
  else if _direct_dep task_a task_b ||
          match idx with
          | Some adj => depends_either adj (task_id task_a) (task_id task_b)
          | None => false
          end then
    Some ("dependency edge with " +:+ task_id task_b)
  else if files_conflict fs task_a task_b then
    Some ("write-scope collision with " +:+ task_id task_b)
  else if _resource_conflict_pairwise task_a task_b cs then
    Some ("shared-resource conflict with " +:+ task_id task_b)
  else None.

Definition can_parallelize (task_a task_b : BoardTask) (idx : option DependencyIndex)
    (cs : Capacities) : bool :=
  if negb (_capacities_valid cs) then false
  else bool_decide (_conflict_reason task_a task_b idx cs = None).

(** ** Reservations *)

Definition json_strs (l : list string) : json := JList (map JStr l).

Definition reservation_material (t : BoardTask) : json :=
  JObj [("depends_on", JList (map (λ e, JList [JStr (dep_task_id e); JInt (dep_generation e);
                                               JStr (dep_artifact_sha256 e)]) (depends_on t)));
        ("metadata_complete", JBool (metadata_complete t));
        ("priority", JInt (priority t));
        ("read_paths", json_strs (read_paths t));
        ("resources", JList (map (λ c, JList [JStr (resource_class c); JStr (target c);
                                              JStr (mode c); JInt (units c)]) (resources t)));
        ("task_id", JStr (task_id t));
        ("worktree_root", JStr (worktree_root t));
        ("write_paths", json_strs (write_paths t))].

Definition _reservation_for (t : BoardTask) : TaskReservation := {|
  resv_task_id := task_id t;
  token := "resv-" +:+ sha256_hex (encode_utf8 (dumps true (reservation_material t)));
  task := t
|}.

Definition _reservation_snapshot_sha256 (rs : list TaskReservation) : string :=
  sha256_hex (encode_utf8 (dumps true
    (JList (map (λ r, JList [JStr (resv_task_id r); JStr (token r)]) rs)))).

(** ** One scheduling round *)

Definition resv_leb (a b : TaskReservation) : bool := str_leb (resv_task_id a) (resv_task_id b).
Definition task_leb (a b : BoardTask) : bool :=
  (priority a <? priority b) || (priority a =? priority b) && str_leb (task_id a) (task_id b).
Definition task_id_leb (a b : BoardTask) : bool := str_leb (task_id a) (task_id b).

(** The release events, as a dictionary from token to outcome. *)
Fixpoint collect_releases (events : list ReservationRelease) (acc : list (string * string)) :
    res (list (string * string)) :=
  match events with
  | [] => Ok acc
  | e :: events =>
      raise_if (negb (bool_decide (outcome e ∈ ["settled"; "cancelled"]))) ValueError
        "reservation release must be settled or cancelled";;
      raise_if (dict_has (release_token e) acc) ValueError "duplicate reservation release token";;
      collect_releases events (dict_set (release_token e) (outcome e) acc)
  end.

(** Ids of ready tasks that repeat an active or an earlier ready id. *)
Fixpoint duplicate_ids (seen : list string) (ready : list BoardTask) : list string :=
  match ready with
  | [] => []
  | t :: ready =>
      if decide (task_id t ∈ seen) then task_id t :: duplicate_ids (task_id t :: seen) ready
      else duplicate_ids (task_id t :: seen) ready
  end.

(** Validate the persisted active snapshot, returning the table of its locks. *)
Fixpoint validate_active (idx : DependencyIndex) (cs : Capacities) (tbl : LockTable)
    (validated : list BoardTask) (active : list BoardTask) : res LockTable :=
  match active with
  | [] => Ok tbl
  | t :: active =>
      for_each (λ other, raise_if (bool_decide (_conflict_reason t other (Some idx) cs ≠ None))
        ValueError "active reservation snapshot conflicts") validated;;
      let '(ok, tbl') := try_acquire cs tbl t in
      raise_if (negb ok) ValueError "active reservation snapshot exceeds resource capacity";;
      validate_active idx cs tbl' (validated ++ [t]) active
  end.

Definition unmet_dependency (settled : gmap string (Z * string)) (t : BoardTask) : option DepEdge :=
  List.find (λ e, bool_decide
    (settled !! dep_task_id e ≠ Some (dep_generation e, dep_artifact_sha256 e))) (depends_on t).

(** Why a ready task cannot be considered this round, if it cannot. *)
Definition defer_reason (dups : list string) (settled : gmap string (Z * string))
    (t : BoardTask) : option string :=
  if decide (task_id t ∈ dups) then Some "duplicate task identity (deferred)"
  else if is_ambiguous t then Some "ambiguous or missing metadata (deferred)"
  else match unmet_dependency settled t with
       | Some e => Some ("unmet dependency: " +:+ dep_task_id e +:+ "@gen" +:+
                         str_of_int (dep_generation e))
       | None => None
       end.

(** Step 1, runnability: the runnable tasks and the reasons of the others. *)
Fixpoint runnable_loop (dups : list string) (settled : gmap string (Z * string))
    (ready : list BoardTask) (rsn : list (string * string)) (acc : list BoardTask) :
    list BoardTask * list (string * string) :=
  match ready with
  | [] => (acc, rsn)
  | t :: ready =>
      match defer_reason dups settled t with
      | Some r => runnable_loop dups settled ready (dict_set (task_id t) r rsn) acc
      | None => runnable_loop dups settled ready rsn (acc ++ [t])
      end
  end.

(** [d.setdefault(k, v)] *)
Definition set_default {A} (k : string) (v : A) (d : list (string * A)) : list (string * A) :=
  if dict_has k d then d else dict_set k v d.

Fixpoint first_conflict (t : BoardTask) (others : list BoardTask) (idx : DependencyIndex)
    (cs : Capacities) : option string :=
  match others with
  | [] => None
  | o :: others =>
      match _conflict_reason t o (Some idx) cs with
      | Some r => Some r
      | None => first_conflict t others idx cs
      end
  end.

(** Step 3, admission of the sorted runnable tasks. *)
Fixpoint admit_loop (concurrency : Z) (idx : DependencyIndex) (cs : Capacities)
    (active : list BoardTask) (runnable admitted : list BoardTask) (tbl : LockTable)
    (rsn : list (string * string)) : list BoardTask * list (string * string) :=
  match runnable with
  | [] => (admitted, rsn)
  | t :: runnable =>
      if concurrency <=? Z.of_nat (length active + length admitted) then
        admit_loop concurrency idx cs active runnable admitted tbl
          (set_default (task_id t) "concurrency bound reached" rsn)
      else
        match first_conflict t (active ++ admitted) idx cs with
        | Some c => admit_loop concurrency idx cs active runnable admitted tbl
                      (set_default (task_id t) c rsn)
        | None =>
            let '(ok, tbl') := try_acquire cs tbl t in
            if ok then admit_loop concurrency idx cs active runnable (admitted ++ [t]) tbl' rsn
            else admit_loop concurrency idx cs active runnable admitted tbl'
                   (set_default (task_id t) "shared-resource lock unavailable" rsn)
        end
  end.

(** [admission_gate]: [None] when the caller supplies none; a call that raises
    or answers something other than a boolean is [None]. *)
Abbreviation Gate := (option (list BoardTask → option bool)).

(** Step 4, the caller's predicate over active plus proposed work. *)
Definition apply_gate (gate : Gate) (logical_only : bool) (active admitted : list BoardTask)
    (rsn : list (string * string)) : list BoardTask * list (string * string) :=
  if negb (bool_decide (admitted = [])) && negb logical_only then
    let gate_ok := match gate with
                   | Some g => bool_decide (g (active ++ admitted) = Some true)
                   | None => false
                   end in
    if gate_ok then (admitted, rsn)
    else ([], fold_left (λ rsn t, dict_set (task_id t)
                "caller scheduling predicate unavailable or deferred" rsn) admitted rsn)
  else (admitted, rsn).

(** The persisted snapshot, checked and with the released tokens dropped. *)
Definition restore_active (active_reservations : list TaskReservation)
    (active_snapshot_sha256 : option string) (release_events : list ReservationRelease) :
    res (list BoardTask) :=
  for_each (λ r, raise_if (negb (bool_decide (r = _reservation_for (task r)))) ValueError
    "active reservation token or task snapshot is invalid") active_reservations;;
  let supplied := sort_by resv_leb active_reservations in
  let expected := _reservation_snapshot_sha256 supplied in
  raise_if (negb (bool_decide (supplied = [])) && bool_decide (active_snapshot_sha256 = None))
    ValueError "active reservation snapshot hash is required";;
  raise_if (match active_snapshot_sha256 with
            | Some h => negb (bool_decide (h = expected))
            | None => false
            end) ValueError "active reservation snapshot hash mismatch";;
  releases ← collect_releases release_events [];
  raise_if (negb (forallb (λ kv, bool_decide (kv.1 ∈ map token supplied)) releases)) ValueError
    "reservation release token is not active";;
  Ok (map task (List.filter (λ r, negb (dict_has (token r) releases)) supplied)).

Definition schedule (ready_tasks : list BoardTask) (concurrency : Z)
    (active_reservations : list TaskReservation) (active_snapshot_sha256 : option string)
    (release_events : list ReservationRelease) (settled : gmap string (Z * string))
    (capacities : Capacities) (admission_gate : Gate) (logical_only : bool) :
    res ScheduleResult :=
  raise_if (concurrency <=? 0) ValueError "concurrency must be a positive integer";;
  raise_if (logical_only && match admission_gate with Some _ => true | None => false end) ValueError
    "logical_only cannot bypass a supplied admission gate";;
  active_tasks ← restore_active active_reservations active_snapshot_sha256 release_events;
  for_each (λ t, raise_if (bool_decide (task_id t = "")) ValueError
    "task id must be a non-empty string") (active_tasks ++ ready_tasks);;
  raise_if (negb (_capacities_valid capacities)) ValueError
    "capacities must use validated resource keys and positive integers";;
  for_each (λ t, raise_if (is_ambiguous t) ValueError "active task metadata is ambiguous")
    active_tasks;;
  let active := sort_by task_leb active_tasks in
  raise_if (negb (bool_decide (NoDup (map task_id active)))) ValueError
    "active reservation snapshot contains duplicate task ids";;
  let dups := duplicate_ids (map task_id active) ready_tasks in
  let idx := build_dependency_index (active ++ ready_tasks) in
  lock ← validate_active idx capacities ∅ [] active;
  let '(runnable, rsn1) := runnable_loop dups settled ready_tasks [] [] in
  let runnable := sort_by task_leb runnable in
  let '(admitted0, rsn2) := admit_loop concurrency idx capacities active runnable [] lock rsn1 in
  let '(admitted, rsn3) := apply_gate admission_gate logical_only active admitted0 rsn2 in
  let run_ids := map task_id admitted in
  let waiting := List.filter (λ i, negb (bool_decide (i ∈ run_ids))) (map task_id ready_tasks) in
  let resvs := map _reservation_for (sort_by task_id_leb (active ++ admitted)) in
  Ok {| run_now := run_ids;
        must_wait := waiting;
        reasons := rsn3;
        reservations := resvs;
        reservation_snapshot_sha256 := _reservation_snapshot_sha256 resvs |}.
End router.
