(* ===== verification/RouterPairs.v ===== *)
(** * The router's relations: reachability and pairwise conflicts

    [DependencyIndex.reachable] terminates and decides the transitive closure
    of [depends_on]; the pairwise conflict predicate is symmetric. *)
From S2P Require Import Prelude Sha256 Json Posix Router.

#[local] Open Scope Z_scope.

(** ** Reachability is the transitive closure of [depends_on] *)

Definition dep_edge (adj : DependencyIndex) (a b : string) : Prop := b ∈ successors adj a.

(** Edges out of nodes not expanded yet. *)
Definition pending (adj : DependencyIndex) (seen : list string) : nat :=
  sum_list (map (λ kv : string * list string, if decide (kv.1 ∈ seen) then O else length kv.2) adj).

Lemma pending_mono adj n seen : (pending adj (n :: seen) ≤ pending adj seen)%nat.
Proof.
  unfold pending. induction adj as [|[k es] adj IH]; cbn; [lia|].
  assert (k ∈ seen → k ∈ n :: seen) by (by right). repeat case_decide; try tauto; lia.
Qed.

Lemma pending_step adj n seen :
  n ∉ seen → (pending adj (n :: seen) + length (successors adj n) ≤ pending adj seen)%nat.
Proof.
  intros Hn. unfold successors. induction adj as [|[k es] adj IH]; cbn -[decide]; [lia|].
  destruct (decide (k = n)) as [->|Hk].
  - cbn. rewrite decide_True by by left. rewrite decide_False by done.
    pose proof (pending_mono adj n seen). unfold pending in *. lia.
  - unfold pending in IH. cbn -[decide] in IH.
    destruct (decide (k ∈ seen)), (decide (k ∈ n :: seen)) as [Hin|Hin];
      rewrite ?elem_of_cons in Hin; try tauto; lia.
Qed.

Lemma reachable_loop_total fuel adj tgt stack seen :
  (length stack + pending adj seen < fuel)%nat →
  is_Some (reachable_loop fuel adj tgt stack seen).
Proof.
  revert stack seen. induction fuel as [|fuel IH]; intros stack seen Hf; [lia|].
  destruct stack as [|node stack]; cbn -[decide] in *; [by eexists|].
  case_decide; [by eexists|]. case_decide as Hin.
  - apply IH. lia.
  - apply IH. rewrite length_app. pose proof (pending_step adj node seen Hin). lia.
Qed.

Lemma reachable_loop_true fuel adj tgt stack seen :
  reachable_loop fuel adj tgt stack seen = Some true →
  ∃ s, s ∈ stack ∧ rtc (dep_edge adj) s tgt.
Proof.
  revert stack seen. induction fuel as [|fuel IH]; intros stack seen; cbn -[decide]; [done|].
  destruct stack as [|node stack]; [done|].
  case_decide; subst.
  - intros _. exists tgt. split; [by left|done].
  - case_decide.
    + intros (s & ? & ?)%IH. exists s. split; [by right|done].
    + intros (s & Hs & ?)%IH. apply elem_of_app in Hs as [Hs|Hs].
      * exists node. split; [by left|]. by eapply rtc_l.
      * exists s. split; [by right|done].
Qed.

Lemma reachable_loop_false fuel adj tgt stack seen :
  reachable_loop fuel adj tgt stack seen = Some false →
  (∀ n, n ∈ seen → n ≠ tgt ∧ ∀ m, dep_edge adj n m → m ∈ seen ∨ m ∈ stack) →
  ∃ closed : list string, (∀ x, x ∈ stack ∨ x ∈ seen → x ∈ closed) ∧ tgt ∉ closed ∧
    ∀ n m, n ∈ closed → dep_edge adj n m → m ∈ closed.
Proof.
  revert stack seen. induction fuel as [|fuel IH]; intros stack seen; cbn -[decide]; [done|].
  destruct stack as [|node stack].
  - intros _ Hinv. exists seen. split; [|split].
    + intros x [?%elem_of_nil|?]; done.
    + intros Hin. by destruct (Hinv tgt Hin).
    + intros n m Hn Hm. destruct (Hinv n Hn) as [_ H].
      destruct (H m Hm) as [?|?%elem_of_nil]; done.
  - case_decide as Ht; [done|]. case_decide as Hs; intros Hl Hinv.
    + destruct (IH _ _ Hl) as (cl & Hsub & ? & ?).
      { intros n Hn. destruct (Hinv n Hn) as [? H]. split; [done|].
        intros m Hm. destruct (H m Hm) as [?|[->|?]%elem_of_cons]; auto. }
      exists cl. split; [|done]. intros x [[->|?]%elem_of_cons|?]; auto.
    + destruct (IH _ _ Hl) as (cl & Hsub & ? & ?).
      { intros n [->|Hn]%elem_of_cons.
        - split; [done|]. intros m Hm. right. apply elem_of_app. by left.
        - destruct (Hinv n Hn) as [? H]. split; [done|]. intros m Hm.
          rewrite elem_of_cons, elem_of_app.
          destruct (H m Hm) as [?|[->|?]%elem_of_cons]; auto. }
      exists cl. split; [|done]. intros x [[->|?]%elem_of_cons|?]; apply Hsub.
      * right. by left.
      * left. apply elem_of_app. by right.
      * right. by right.
Qed.

Lemma pending_nil adj : pending adj [] = edge_count adj.
Proof. done. Qed.

Lemma reachable_tc adj s t : reachable adj s t = true ↔ tc (dep_edge adj) s t.
Proof.
  unfold reachable.
  destruct (reachable_loop_total (reachable_fuel adj s) adj t (successors adj s) []) as [b Hb].
  { rewrite pending_nil. unfold reachable_fuel. lia. }
  rewrite Hb. cbn. destruct b.
  - split; [intros _|done]. apply reachable_loop_true in Hb as (m & Hm & Hr).
    eapply tc_rtc_r; [by apply tc_once|done].
  - split; [done|]. intros Htc.
    apply reachable_loop_false in Hb as (cl & Hsub & Hnt & Hcl); [|by intros ? ?%elem_of_nil].
    assert (∀ x y, tc (dep_edge adj) x y → x ∈ cl → y ∈ cl) as Hclosed.
    { induction 1; eauto. }
    exfalso. apply Hnt. apply tc_nsteps in Htc as (n & Hn & Hsteps).
    inversion Hsteps as [|n' ? m ? Hm Hrest]; subst; [lia|].
    assert (Hm' : m ∈ cl) by (apply Hsub; by left).
    assert (rtc (dep_edge adj) m t) as Hr by (apply rtc_nsteps; eauto).
    clear -Hr Hm' Hcl. induction Hr; eauto.
Qed.

(** ** The pairwise predicate is symmetric *)

Lemma existsb_swap {A B} (f : A → B → bool) l m :
  existsb (λ a, existsb (f a) m) l = existsb (λ b, existsb (λ a, f a b) l) m.
Proof.
  apply eq_true_iff_eq. rewrite !existsb_exists. setoid_rewrite existsb_exists. naive_solver.
Qed.

Lemma paths_alias_sym fs a pa b pb :
  _paths_alias fs a pa b pb = _paths_alias fs b pb a pa.
Proof.
  unfold _paths_alias. destruct (_canonical_path fs pa _) as [ka ia].
  destruct (_canonical_path fs pb _) as [kb ib].
  rewrite (bool_decide_ext (ia ≠ None ∧ ia = ib) (ib ≠ None ∧ ib = ia)) by naive_solver.
  rewrite (bool_decide_ext (ka = kb) (kb = ka)) by naive_solver.
  by rewrite (orb_comm (_is_ancestor ka kb)).
Qed.

Lemma files_conflict_sym fs a b : files_conflict fs a b = files_conflict fs b a.
Proof.
  unfold files_conflict. rewrite existsb_swap.
  apply existsb_ext. intros cb. apply existsb_ext. intros ca.
  rewrite (bool_decide_ext (ca.2 = "read" ∧ cb.2 = "read") (cb.2 = "read" ∧ ca.2 = "read")) by tauto.
  by rewrite paths_alias_sym.
Qed.

Lemma direct_dep_sym a b : _direct_dep a b = _direct_dep b a.
Proof. unfold _direct_dep. apply orb_comm. Qed.

Lemma depends_either_sym adj a b : depends_either adj a b = depends_either adj b a.
Proof. unfold depends_either. apply orb_comm. Qed.

Lemma resource_conflict_sym a b cs :
  _resource_conflict_pairwise a b cs = _resource_conflict_pairwise b a cs.
Proof.
  unfold _resource_conflict_pairwise. rewrite existsb_swap.
  apply existsb_ext. intros cb. apply existsb_ext. intros ca.
  destruct (decide ((resource_class ca, target ca) = (resource_class cb, target cb))) as [E|E].
  - rewrite !(bool_decide_eq_false_2 (_ ≠ _)) by naive_solver.
    rewrite (bool_decide_ext (mode ca = "read" ∧ mode cb = "read") (mode cb = "read" ∧ mode ca = "read")) by tauto.
    rewrite (bool_decide_ext (mode ca = "count" ∧ mode cb = "count") (mode cb = "count" ∧ mode ca = "count")) by tauto.
    injection E as -> ->. by rewrite Z.add_comm.
  - rewrite !(bool_decide_eq_true_2 (_ ≠ _)) by naive_solver. done.
Qed.

Lemma conflict_reason_None fs a b idx cs :
  _conflict_reason fs a b idx cs = None ↔
  task_id a ≠ task_id b ∧ is_ambiguous a = false ∧ is_ambiguous b = false ∧
  _direct_dep a b = false ∧
  match idx with Some adj => depends_either adj (task_id a) (task_id b) = false | None => True end ∧
  files_conflict fs a b = false ∧ _resource_conflict_pairwise a b cs = false.
Proof.
  unfold _conflict_reason. case_decide; [naive_solver|].
  destruct (is_ambiguous a), (is_ambiguous b); cbn; try naive_solver.
  destruct (_direct_dep a b); cbn; [naive_solver|].
  destruct idx as [adj|]; [destruct (depends_either _ _ _); [naive_solver|]|];
    destruct (files_conflict fs a b); try naive_solver;
    destruct (_resource_conflict_pairwise a b cs); naive_solver.
Qed.

Lemma conflict_reason_sym fs a b idx cs :
  _conflict_reason fs a b idx cs = None ↔ _conflict_reason fs b a idx cs = None.
Proof.
  rewrite !conflict_reason_None, direct_dep_sym, files_conflict_sym, resource_conflict_sym.
  destruct idx as [adj|]; [rewrite (depends_either_sym adj (task_id a))|]; naive_solver.
Qed.

(** ** [setdefault] *)

Lemma set_default_key {A} k (v : A) d : dict_has k (set_default k v d) = true.
Proof.
  unfold set_default. destruct (dict_has k d) eqn:E; [done|].
  by rewrite dict_has_set, bool_decide_eq_true_2.
Qed.

Lemma set_default_has {A} k k' (v : A) d :
  dict_has k' d = true → dict_has k' (set_default k v d) = true.
Proof.
  intros H. unfold set_default. destruct (dict_has k d); [done|].
  by rewrite dict_has_set, H, orb_true_r.
Qed.
