(* ===== verification/RouterLocks.v ===== *)
(** * The router's lock table

    What the table means: it records, per resource, the multiset of claims
    granted so far, and grants a claim exactly when the resource can serve all
    of them together.  Acquisition is all or nothing and independent of order. *)
From S2P Require Import Prelude Sha256 Json Posix Router.

#[local] Open Scope Z_scope.

(** ** What a lock table means *)

(** The claims on one resource. *)
Definition on_key (k : string * string) (held : list ResourceClaim) : list ResourceClaim :=
  filter (λ c, claim_key c = k) held.

Definition total_units (l : list ResourceClaim) : Z := foldr (λ c n, units c + n) 0 l.

(** One resource can serve a set of claims at once: readers only, one writer,
    or counted claims within the capacity. *)
Definition compatible (cap : Z) (l : list ResourceClaim) : Prop :=
  Forall (λ c, mode c = "read") l ∨
  (∃ c, l = [c] ∧ mode c = "write") ∨
  (Forall (λ c, mode c = "count") l ∧ total_units l <= cap).

Definition key_capacity (cs : Capacities) (k : string * string) : Z := _capacity cs k.1 k.2.

Definition all_compatible (cs : Capacities) (l : list ResourceClaim) : Prop :=
  ∀ k, compatible (key_capacity cs k) (on_key k l).

Definition valid_claim (c : ResourceClaim) : Prop := mode c ∈ _VALID_MODES ∧ 0 < units c.

(** The entry the table keeps for the claims granted on one resource. *)
Definition summary (l : list ResourceClaim) : option LockState :=
  match l with
  | [] => None
  | c :: _ => Some {|
      ls_mode := mode c;
      ls_count := Z.of_nat (length l);
      ls_units := if decide (mode c = "count") then total_units l
                  else if decide (mode c = "write") then 1 else 0 |}
  end.

(** The table [tbl] records exactly the granted claims [held]. *)
Definition represents (cs : Capacities) (tbl : LockTable) (held : list ResourceClaim) : Prop :=
  all_compatible cs held ∧ ∀ k, tbl !! k = summary (on_key k held).

Lemma total_units_perm l m : l ≡ₚ m → total_units l = total_units m.
Proof. intros Hp. unfold total_units. induction Hp; cbn; lia. Qed.

Lemma total_units_app l m : total_units (l ++ m) = total_units l + total_units m.
Proof. unfold total_units. induction l as [|c l IH]; cbn; lia. Qed.

Lemma total_units_nonneg l : Forall valid_claim l → 0 <= total_units l.
Proof. unfold total_units. induction 1 as [|c l [_ ?] _ IH]; cbn; lia. Qed.

Lemma on_key_app k l m : on_key k (l ++ m) = on_key k l ++ on_key k m.
Proof. apply filter_app. Qed.

Lemma on_key_perm k l m : l ≡ₚ m → on_key k l ≡ₚ on_key k m.
Proof. unfold on_key. by intros ->. Qed.

Lemma on_key_cons_eq c l : on_key (claim_key c) (c :: l) = c :: on_key (claim_key c) l.
Proof. unfold on_key. by rewrite filter_cons_True. Qed.

Lemma on_key_cons_ne k c l : claim_key c ≠ k → on_key k (c :: l) = on_key k l.
Proof. intros. unfold on_key. by rewrite filter_cons_False. Qed.

Lemma on_key_valid k l : Forall valid_claim l → Forall valid_claim (on_key k l).
Proof. 
  rewrite !Forall_forall. intros H c [_ Hc]%list_elem_of_filter. eauto.
Qed.

Lemma compatible_perm cap l m : l ≡ₚ m → compatible cap l → compatible cap m.
Proof.
  intros Hp [H|[(c & -> & H)|[H Hu]]].
  - left. by rewrite <- Hp.
  - right; left. apply Permutation_singleton_l in Hp as <-. eauto.
  - right; right. rewrite <- (total_units_perm l m Hp). by rewrite <- Hp.
Qed.

Lemma compatible_app_l cap l m :
  Forall valid_claim m → compatible cap (l ++ m) → compatible cap l.
Proof.
  intros Hm [H|[(c & Hc & H)|[H Hu]]].
  - left. by apply Forall_app in H as [? _].
  - destruct l as [|d l]; [by left|]. injection Hc as -> Hc.
    apply app_eq_nil in Hc as [-> _]. right; left. eauto.
  - right; right. apply Forall_app in H as [? _]. split; [done|].
    rewrite total_units_app in Hu. pose proof (total_units_nonneg m Hm). lia.
Qed.

Lemma all_compatible_perm cs l m : l ≡ₚ m → all_compatible cs l → all_compatible cs m.
Proof. intros Hp H k. eapply compatible_perm; [by apply on_key_perm|done]. Qed.

Lemma all_compatible_app_l cs l m :
  Forall valid_claim m → all_compatible cs (l ++ m) → all_compatible cs l.
Proof.
  intros Hm H k. specialize (H k). rewrite on_key_app in H.
  eapply compatible_app_l; [by apply on_key_valid|done].
Qed.

Lemma represents_unique cs t1 t2 held :
  represents cs t1 held → represents cs t2 held → t1 = t2.
Proof. intros [_ H1] [_ H2]. apply map_eq. intros k. by rewrite H1, H2. Qed.

Lemma represents_empty cs : represents cs ∅ [].
Proof. split; [|intros k; by rewrite lookup_empty]. intros k. left. constructor. Qed.

(** Adding one claim to the resource it names. *)
Lemma represents_insert cs tbl held c s :
  represents cs tbl held →
  compatible (key_capacity cs (claim_key c)) (c :: on_key (claim_key c) held) →
  summary (c :: on_key (claim_key c) held) = Some s →
  represents cs (<[claim_key c := s]> tbl) (c :: held).
Proof.
  intros [Hc Ht] Hcomp Hs. split; intros k; destruct (decide (claim_key c = k)) as [<-|Hk].
  - by rewrite on_key_cons_eq.
  - by rewrite on_key_cons_ne.
  - by rewrite lookup_insert_eq, on_key_cons_eq.
  - rewrite lookup_insert_ne, on_key_cons_ne by done. apply Ht.
Qed.

(** A modal case analysis of the claims a compatible resource can hold. *)
Lemma compatible_inv cap c l :
  compatible cap (c :: l) →
  (mode c = "read" ∧ Forall (λ d, mode d = "read") l) ∨
  (mode c = "write" ∧ l = []) ∨
  (mode c = "count" ∧ Forall (λ d, mode d = "count") l ∧ units c + total_units l <= cap).
Proof.
  intros [H|[(d & [= -> ->] & ?)|[H Hu]]]; [|eauto|]; apply Forall_cons in H as [? ?]; eauto.
Qed.

Lemma valid_claim_mode c :
  valid_claim c → mode c = "read" ∨ mode c = "write" ∨ mode c = "count".
Proof. intros [H _]. unfold _VALID_MODES in H. set_solver. Qed.

Ltac mode_simpl :=
  repeat match goal with
  | H : mode ?c = _ |- context [mode ?c] => rewrite H
  | H : mode ?c = _, H' : context [mode ?c] |- _ => rewrite H in H'
  end.

(** [_grant] admits exactly the claims the resource can serve next to those it holds. *)
Lemma grant_spec cs tbl held c :
  valid_claim c → Forall valid_claim held → represents cs tbl held →
  match _grant cs tbl c with
  | Some tbl' => represents cs tbl' (c :: held)
  | None => ¬ compatible (key_capacity cs (claim_key c)) (c :: on_key (claim_key c) held)
  end.
Proof.
  intros Hv Hheld Hr. pose proof Hr as [Hc Ht].
  specialize (Hc (claim_key c)). specialize (Ht (claim_key c)).
  unfold _grant. rewrite Ht. change (_capacity cs (resource_class c) (target c))
    with (key_capacity cs (claim_key c)).
  pose proof (represents_insert cs tbl held c) as Hins.
  pose proof (on_key_valid (claim_key c) held Hheld) as Hval.
  set (cap := key_capacity cs (claim_key c)) in *. clearbody cap.
  destruct (on_key (claim_key c) held) as [|d l] eqn:El; cbn [summary].
  - destruct (valid_claim_mode c Hv) as [Hm|[Hm|Hm]]; rewrite Hm; decide_simpl.
    + apply Hins; [done|left; by constructor|]. cbn. rewrite Hm. by decide_simpl.
    + apply Hins; [done|right; left; eauto|]. cbn. rewrite Hm. by decide_simpl.
    + destruct (cap <? units c) eqn:E; bool_inv.
      * intros [[? _]|[[? _]|(_ & _ & ?)]]%compatible_inv; [congruence..|]. cbn in *. lia.
      * apply Hins; [done| |].
        -- right; right. split; [by constructor|]. cbn. lia.
        -- cbn. rewrite Hm. decide_simpl. do 2 f_equal. lia.
  - apply compatible_inv in Hc as [[Hd Hl]|[[Hd ->]|(Hd & Hl & Hu)]];
      destruct (valid_claim_mode c Hv) as [Hm|[Hm|Hm]]; rewrite Hm, Hd; decide_simpl;
      cbn [ls_mode ls_count ls_units]; decide_simpl.
    + apply Hins; [done|left; by repeat constructor|]. cbn [summary]. rewrite Hm. decide_simpl.
      do 2 f_equal. cbn [length]. lia.
    + rewrite (proj2 (Z.ltb_lt _ _)) by (cbn [length]; lia).
      intros [[? _]|[[_ ?]|(? & _)]]%compatible_inv; congruence.
    + intros [[? _]|[[_ ?]|(_ & [? _]%Forall_cons & _)]]%compatible_inv; congruence.
    + intros [[_ [? _]%Forall_cons]|[[_ ?]|(? & _)]]%compatible_inv; congruence.
    + cbn [length Z.of_nat]. intros [[? _]|[[_ ?]|(? & _)]]%compatible_inv; congruence.
    + intros [[? _]|[[_ ?]|(_ & [? _]%Forall_cons & _)]]%compatible_inv; congruence.
    + intros [[_ [? _]%Forall_cons]|[[_ ?]|(? & _)]]%compatible_inv; congruence.
    + rewrite (proj2 (Z.ltb_lt _ _)) by (cbn [length]; lia).
      intros [[? _]|[[_ ?]|(? & _)]]%compatible_inv; congruence.
    + destruct (cap <? _) eqn:E; bool_inv.
      * intros [[? _]|[[? _]|(_ & _ & Hcap)]]%compatible_inv; [congruence..|]. cbn in *. lia.
      * apply Hins; [done| |].
        -- right; right. split; [by repeat constructor|]. cbn in *. lia.
        -- cbn [summary]. rewrite Hm. decide_simpl. do 2 f_equal; cbn [length total_units foldr]; lia.
Qed.

(** The entry does not depend on the order of compatible claims. *)
Lemma summary_perm l m : l ≡ₚ m → (∃ cap, compatible cap l) → summary l = summary m.
Proof.
  intros Hp [cap Hc]. destruct l as [|c l]; [by apply Permutation_nil_l in Hp as ->|].
  pose proof (total_units_perm _ _ Hp) as Hu. pose proof (Permutation_length Hp) as Hlen.
  destruct m as [|d m]; [done|].
  pose proof (compatible_perm _ _ _ Hp Hc) as Hc'.
  cbn [summary]. rewrite Hlen, Hu. assert (mode c = mode d) as ->; [|done].
  assert (Hin : d ∈ c :: l) by (rewrite Hp; by left).
  apply compatible_inv in Hc as [[Hm Hl]|[[Hm ->]|(Hm & Hl & _)]].
  - rewrite Forall_forall in Hl. apply elem_of_cons in Hin as [->|Hin]; [done|].
    rewrite (Hl _ Hin). done.
  - by apply list_elem_of_singleton in Hin as ->.
  - rewrite Forall_forall in Hl. apply elem_of_cons in Hin as [->|Hin]; [done|].
    rewrite (Hl _ Hin). done.
Qed.

(** [_release] undoes the newest grant on a resource. *)
Lemma release_spec cs tbl held c :
  valid_claim c → Forall valid_claim held →
  represents cs tbl (c :: held) → represents cs (_release tbl c) held.
Proof.
  intros Hv Hheld [Hc Ht].
  assert (Hch : all_compatible cs held).
  { apply (all_compatible_app_l cs held [c]); [by constructor|].
    eapply all_compatible_perm; [|exact Hc]. apply Permutation_cons_append. }
  split; [done|]. intros k.
  pose proof (Ht (claim_key c)) as Hk. rewrite on_key_cons_eq in Hk. cbn [summary] in Hk.
  unfold _release. rewrite Hk. cbn [ls_mode ls_count ls_units length].
  specialize (Hc (claim_key c)). rewrite on_key_cons_eq in Hc.
  destruct (on_key (claim_key c) held) as [|d l] eqn:El.
  - rewrite (proj2 (Z.leb_le _ _)) by (cbn; lia).
    destruct (decide (claim_key c = k)) as [<-|Hne].
    + by rewrite lookup_delete_eq, El.
    + rewrite lookup_delete_ne by done. by rewrite Ht, on_key_cons_ne.
  - rewrite (proj2 (Z.leb_gt _ _)) by (cbn [length]; lia).
    destruct (decide (claim_key c = k)) as [<-|Hne].
    + rewrite lookup_insert_eq, El. cbn [summary].
      apply compatible_inv in Hc as [[Hm [Hd _]%Forall_cons]|[[_ ?]|(Hm & [Hd _]%Forall_cons & _)]];
        [|done|]; rewrite Hm, Hd; decide_simpl; do 2 f_equal; cbn [length total_units foldr]; lia.
    + rewrite lookup_insert_ne by done. by rewrite Ht, on_key_cons_ne.
Qed.

Lemma release_all_spec cs tbl held base :
  Forall valid_claim held → Forall valid_claim base →
  represents cs tbl (held ++ base) → represents cs (fold_left _release held tbl) base.
Proof.
  intros Hh Hb. revert tbl. induction Hh as [|c held Hc Hh IH]; intros tbl Hr; [done|].
  cbn. apply IH. apply release_spec; [done| |done]. by apply Forall_app.
Qed.

Lemma acquire_loop_spec cs tbl todo held base :
  Forall valid_claim todo → Forall valid_claim held → Forall valid_claim base →
  represents cs tbl (held ++ base) →
  match acquire_loop cs tbl todo held with
  | (true, tbl') => represents cs tbl' (rev todo ++ held ++ base)
  | (false, tbl') => represents cs tbl' base ∧ ¬ all_compatible cs (todo ++ held ++ base)
  end.
Proof.
  intros Ht Hh Hb. revert tbl held Hh. induction Ht as [|c todo Hc Ht IH]; intros tbl held Hh Hr.
  - done.
  - cbn [acquire_loop].
    assert (Hhb : Forall valid_claim (held ++ base)) by (by apply Forall_app).
    pose proof (grant_spec cs tbl (held ++ base) c Hc Hhb Hr) as Hg.
    destruct (_grant cs tbl c) as [tbl'|].
    + specialize (IH tbl' (c :: held)). cbn [rev app] in *.
      destruct (acquire_loop cs tbl' todo (c :: held)) as [[] tbl''].
      * rewrite <- app_assoc. cbn [app]. apply IH; [by constructor|done].
      * destruct IH as [? Hn]; [by constructor|done|]. split; [done|].
        intros Hall. apply Hn. eapply all_compatible_perm; [|exact Hall].
        apply Permutation_middle.
    + split; [by eapply release_all_spec|]. intros Hall. apply Hg.
      apply (all_compatible_perm cs _ ((c :: held ++ base) ++ todo)) in Hall.
      2:{ cbn. apply perm_skip. apply Permutation_app_comm. }
      apply all_compatible_app_l in Hall; [|done].
      specialize (Hall (claim_key c)). by rewrite on_key_cons_eq in Hall.
Qed.

(** Acquisition is all or nothing: it succeeds exactly when the task's claims
    are compatible with those held, and a failure leaves the table as it was. *)
Lemma try_acquire_spec cs tbl base t :
  Forall valid_claim (resources t) → Forall valid_claim base → represents cs tbl base →
  match try_acquire cs tbl t with
  | (true, tbl') => represents cs tbl' (resources t ++ base)
  | (false, tbl') => tbl' = tbl ∧ ¬ all_compatible cs (resources t ++ base)
  end.
Proof.
  intros Ht Hb Hr. unfold try_acquire.
  assert (Hs : Forall valid_claim (sort_by claim_leb (resources t))) by (by rewrite sort_by_perm).
  pose proof (acquire_loop_spec cs tbl (sort_by claim_leb (resources t)) [] base
    Hs (Forall_nil_2 _) Hb Hr) as H.
  destruct (acquire_loop _ _ _ _) as [[] tbl'].
  - cbn [app] in H. destruct H as [Hc Hk]. assert (Hp : rev (sort_by claim_leb (resources t)) ++ base
      ≡ₚ resources t ++ base) by (by rewrite <- Permutation_rev, sort_by_perm).
    split; [by eapply all_compatible_perm|]. intros k. rewrite Hk.
    apply summary_perm; [by apply on_key_perm|]. exists (key_capacity cs k). apply Hc.
  - destruct H as [H Hn]. split; [by eapply represents_unique|].
    intros Hall. apply Hn. cbn [app]. eapply all_compatible_perm; [|exact Hall].
    by rewrite sort_by_perm.
Qed.
