(* ===== verification/RouterRound.v ===== *)
(** * The router's scheduling round

    The vocabulary of a round and the invariants of its loops: runnability,
    admission against the active and already admitted tasks, the lock table
    they leave, and the partition of the ready ids.  Order independence and the
    replay of a round's reservations are in RouterOrder and RouterProps. *)
From S2P Require Import Prelude Sha256 Json Posix Router RouterPairs RouterLocks.

#[local] Open Scope Z_scope.

(** ** Vocabulary *)

Definition claims_of (ts : list BoardTask) : list ResourceClaim := concat (map resources ts).

Section round.
Context (fs : FileSystem).

(** No conflict in the round's own dependency index and capacities. *)
Definition clear_of (idx : DependencyIndex) (cs : Capacities) (a b : BoardTask) : Prop :=
  _conflict_reason fs a b (Some idx) cs = None.

(** A set of tasks the round may hold at once. *)
Record co_runnable (idx : DependencyIndex) (cs : Capacities) (ts : list BoardTask) : Prop := {
  co_clear : List.ForallOrdPairs (clear_of idx cs) ts;
  co_known : Forall (λ t, is_ambiguous t = false) ts;
  co_locks : all_compatible cs (claims_of ts)
}.

(** ** Lemmas *)

Lemma not_ambiguous_claims t : is_ambiguous t = false → Forall valid_claim (resources t).
Proof.
  unfold is_ambiguous. intros H. bool_inv.
  match goal with E : existsb claim_ambiguous _ = false |- _ => rename E into Hex end.
  rewrite Forall_forall. intros c Hc%list_elem_of_In.
  destruct (claim_ambiguous c) eqn:Hcl.
  { assert (existsb claim_ambiguous (resources t) = true) by (apply existsb_exists; eauto).
    congruence. }
  unfold claim_ambiguous in Hcl. bool_inv. by split.
Qed.

Lemma claims_of_valid ts :
  Forall (λ t, is_ambiguous t = false) ts → Forall valid_claim (claims_of ts).
Proof.
  induction 1 as [|t ts Ht _ IH]; [constructor|]. cbn.
  apply Forall_app. split; [by apply not_ambiguous_claims|done].
Qed.

Lemma claims_of_app l m : claims_of (l ++ m) = claims_of l ++ claims_of m.
Proof. unfold claims_of. by rewrite map_app, concat_app. Qed.

Lemma claims_of_perm l m : l ≡ₚ m → claims_of l ≡ₚ claims_of m.
Proof.
  unfold claims_of. induction 1; cbn; [done|by f_equiv| |by etrans].
  rewrite !app_assoc. f_equiv. apply Permutation_app_comm.
Qed.

Lemma represents_perm cs tbl l m : l ≡ₚ m → represents cs tbl l → represents cs tbl m.
Proof.
  intros Hp [Hc Hk]. split; [by eapply all_compatible_perm|]. intros k. rewrite Hk.
  apply summary_perm; [by apply on_key_perm|]. eexists. apply Hc.
Qed.

Lemma clear_of_sym idx cs a b : clear_of idx cs a b → clear_of idx cs b a.
Proof. apply conflict_reason_sym. Qed.

Lemma FOP_snoc {A} (R : A → A → Prop) l x :
  List.ForallOrdPairs R (l ++ [x]) ↔ List.ForallOrdPairs R l ∧ Forall (λ y, R y x) l.
Proof.
  induction l as [|y l IH]; cbn.
  - split; [intros _; split; constructor|]. intros _. repeat constructor.
  - split.
    + inversion 1 as [|? ? Hy Hl]; subst. apply IH in Hl as [? ?].
      apply Forall_app in Hy as [? [? _]%Forall_cons]. split; by constructor.
    + intros [Hl Hx]. inversion Hl; subst. apply Forall_cons in Hx as [? ?].
      constructor; [|by apply IH]. apply Forall_app. by repeat constructor.
Qed.

Lemma FOP_perm {A} (R : A → A → Prop) l m :
  (∀ x y, R x y → R y x) → l ≡ₚ m → List.ForallOrdPairs R l → List.ForallOrdPairs R m.
Proof.
  intros Hsym. induction 1 as [|x l m Hp IH|x y l|l m k _ IH1 _ IH2]; auto.
  - inversion 1; subst. constructor; [by rewrite <- Hp|auto].
  - inversion 1 as [|? ? Hx Hl]; subst. inversion Hl as [|? ? Hy Hl']; subst.
    apply Forall_cons in Hx as [? ?]. constructor; [by constructor; auto|by constructor].
Qed.

Lemma co_runnable_perm idx cs l m : l ≡ₚ m → co_runnable idx cs l → co_runnable idx cs m.
Proof.
  intros Hp [H1 H2 H3]. split.
  - eapply FOP_perm; [by apply clear_of_sym|done..].
  - by rewrite <- Hp.
  - eapply all_compatible_perm; [by apply claims_of_perm|done].
Qed.

Lemma co_runnable_nil idx cs : co_runnable idx cs [].
Proof. split; [constructor|constructor|]. intros k. left. constructor. Qed.

(** One more task joins: clear of each one present, and the lock table grants it. *)
Lemma co_runnable_snoc idx cs tbl ts t :
  co_runnable idx cs ts → represents cs tbl (claims_of ts) → is_ambiguous t = false →
  Forall (λ o, clear_of idx cs t o) ts →
  match try_acquire cs tbl t with
  | (true, tbl') => co_runnable idx cs (ts ++ [t]) ∧ represents cs tbl' (claims_of (ts ++ [t]))
  | (false, tbl') => tbl' = tbl ∧ ¬ all_compatible cs (claims_of (ts ++ [t]))
  end.
Proof.
  intros [H1 H2 H3] Hr Ht Hcl.
  assert (Hp : resources t ++ claims_of ts ≡ₚ claims_of (ts ++ [t])).
  { rewrite claims_of_app. unfold claims_of at 3. cbn. rewrite app_nil_r.
    apply Permutation_app_comm. }
  pose proof (try_acquire_spec cs tbl (claims_of ts) t (not_ambiguous_claims t Ht)
    (claims_of_valid ts H2) Hr) as Ha.
  destruct (try_acquire cs tbl t) as [[] tbl'].
  - apply (represents_perm _ _ _ _ Hp) in Ha. split; [|done]. split.
    + apply FOP_snoc. split; [done|]. eapply Forall_impl; [done|]. cbn. intros o. apply clear_of_sym.
    + apply Forall_app. by repeat constructor.
    + apply Ha.
  - destruct Ha as [-> Hn]. split; [done|]. intros Hall. apply Hn.
    eapply all_compatible_perm; [|exact Hall]. by symmetry.
Qed.

Lemma validate_active_spec idx cs tbl validated active tbl' :
  validate_active fs idx cs tbl validated active = Ok tbl' →
  Forall (λ t, is_ambiguous t = false) active →
  co_runnable idx cs validated → represents cs tbl (claims_of validated) →
  co_runnable idx cs (validated ++ active) ∧ represents cs tbl' (claims_of (validated ++ active)).
Proof.
  revert tbl validated. induction active as [|t active IH]; intros tbl validated H Ha Hco Hr.
  - cbn in H. res_inv. by rewrite app_nil_r.
  - apply Forall_cons in Ha as [Ht Ha]. cbn [validate_active] in H. res_inv.
    assert (Hcl : Forall (λ o, clear_of idx cs t o) validated).
    { match goal with E : Forall _ validated |- _ => eapply Forall_impl; [exact E|] end.
      cbn. intros o Ho%raise_if_Ok%bool_decide_eq_false. by apply dec_stable. }
    pose proof (co_runnable_snoc idx cs tbl validated t Hco Hr Ht Hcl) as Hs.
    destruct (try_acquire cs tbl t) as [ok tbl1]. res_inv. bool_inv. subst ok.
    destruct Hs as [Hco' Hr']. rewrite (cons_middle t validated active), app_assoc.
    eapply IH; done.
Qed.

Lemma first_conflict_None t others idx cs :
  first_conflict fs t others idx cs = None ↔ Forall (λ o, clear_of idx cs t o) others.
Proof.
  induction others as [|o others IH]; cbn; [by split|].
  rewrite Forall_cons. unfold clear_of at 1. destruct (_conflict_reason _ _ _ _ _); [naive_solver|].
  rewrite IH. naive_solver.
Qed.

(** What the admission loop keeps: the admitted tasks join the active ones
    one at a time, within the bound, taken in order from the runnable list. *)
Lemma admit_loop_spec conc idx cs active runnable admitted tbl rsn adm' rsn' :
  admit_loop fs conc idx cs active runnable admitted tbl rsn = (adm', rsn') →
  Forall (λ t, is_ambiguous t = false) runnable →
  co_runnable idx cs (active ++ admitted) → represents cs tbl (claims_of (active ++ admitted)) →
  co_runnable idx cs (active ++ adm') ∧
  (∃ new, adm' = admitted ++ new ∧ new `sublist_of` runnable) ∧
  (adm' = admitted ∨ Z.of_nat (length active + length adm') <= conc) ∧
  (∀ k, dict_has k rsn = true → dict_has k rsn' = true) ∧
  (∀ t, t ∈ runnable → t ∈ adm' ∨ dict_has (task_id t) rsn' = true).
Proof.
  revert admitted tbl rsn. induction runnable as [|t runnable IH]; intros admitted tbl rsn H Ha Hco Hr.
  - cbn in H. injection H as <- <-. split; [done|]. split; [exists []; by rewrite app_nil_r|].
    split; [by left|]. split; [done|]. by intros ? ?%elem_of_nil.
  - apply Forall_cons in Ha as [Ht Ha]. cbn [admit_loop] in H.
    assert (Hskip : ∀ r, admit_loop fs conc idx cs active runnable admitted tbl
        (set_default (task_id t) r rsn) = (adm', rsn') →
      co_runnable idx cs (active ++ adm') ∧
      (∃ new, adm' = admitted ++ new ∧ new `sublist_of` t :: runnable) ∧
      (adm' = admitted ∨ Z.of_nat (length active + length adm') <= conc) ∧
      (∀ k, dict_has k rsn = true → dict_has k rsn' = true) ∧
      (∀ u, u ∈ t :: runnable → u ∈ adm' ∨ dict_has (task_id u) rsn' = true)).
    { intros r Hl. apply IH in Hl as (? & (new & -> & ?) & ? & Hk & Hu); [|done..].
      split; [done|]. split; [exists new; split; [done|by apply sublist_cons]|]. split; [done|].
      split.
      - intros k Hd. apply Hk. by apply set_default_has.
      - intros u [->|Hin]%elem_of_cons; [|by apply Hu]. right. apply Hk, set_default_key. }
    destruct (conc <=? _) eqn:Ec; [by eapply Hskip|]. apply Z.leb_gt in Ec.
    destruct (first_conflict fs t (active ++ admitted) idx cs) eqn:Ef; [by eapply Hskip|].
    apply first_conflict_None in Ef.
    pose proof (co_runnable_snoc idx cs tbl (active ++ admitted) t Hco Hr Ht Ef) as Hs.
    destruct (try_acquire cs tbl t) as [[] tbl1].
    + rewrite <- app_assoc in Hs. destruct Hs as [Hco' Hr'].
      apply IH in H as (? & (new & -> & ?) & Hlen & Hk & Hu); [|done..].
      split; [done|]. split; [exists (t :: new); by rewrite <- app_assoc; split; [|constructor]|].
      split; [|split; [done|]].
      * right. destruct Hlen as [Hlen|]; [|done]. rewrite Hlen, !length_app. cbn. lia.
      * intros u [->|Hin]%elem_of_cons; [|by apply Hu]. left. set_solver.
    + destruct Hs as [-> _]. by eapply Hskip.
Qed.

(** ** The steps of a successful round *)

Record round_steps (ready : list BoardTask) (conc : Z) (resvs : list TaskReservation)
    (snap : option string) (rel : list ReservationRelease) (settled : gmap string (Z * string))
    (cs : Capacities) (gate : option (list BoardTask → option bool)) (lo : bool)
    (act : list BoardTask) (lock : LockTable) (runnable adm0 adm : list BoardTask)
    (rsn1 rsn2 rsn3 : list (string * string)) : Prop := {
  rs_conc : 0 < conc;
  rs_gate : lo = true → gate = None;
  rs_restore : restore_active resvs snap rel = Ok act;
  rs_ids : Forall (λ t, task_id t ≠ "") (act ++ ready);
  rs_caps : _capacities_valid cs = true;
  rs_known : Forall (λ t, is_ambiguous t = false) act;
  rs_nodup : NoDup (map task_id act);
  rs_lock : validate_active fs (build_dependency_index (sort_by task_leb act ++ ready)) cs ∅ []
              (sort_by task_leb act) = Ok lock;
  rs_runnable : runnable_loop (duplicate_ids (map task_id (sort_by task_leb act)) ready) settled
                  ready [] [] = (runnable, rsn1);
  rs_admit : admit_loop fs conc (build_dependency_index (sort_by task_leb act ++ ready)) cs
               (sort_by task_leb act) (sort_by task_leb runnable) [] lock rsn1 = (adm0, rsn2);
  rs_applied : apply_gate gate lo (sort_by task_leb act) adm0 rsn2 = (adm, rsn3)
}.

Definition round_result (ready act adm : list BoardTask) (rsn : list (string * string)) :
    ScheduleResult :=
  let resvs := map _reservation_for (sort_by task_id_leb (sort_by task_leb act ++ adm)) in
  {| run_now := map task_id adm;
     must_wait := List.filter (λ i, negb (bool_decide (i ∈ map task_id adm))) (map task_id ready);
     reasons := rsn;
     reservations := resvs;
     reservation_snapshot_sha256 := _reservation_snapshot_sha256 resvs |}.

Lemma for_each_raise_Ok {A} (p : A → bool) cls msg l u :
  for_each (λ x, raise_if (p x) cls msg) l = Ok u ↔ Forall (λ x, p x = false) l.
Proof. rewrite for_each_Ok. apply Forall_iff. intros x. apply raise_if_Ok. Qed.

Lemma nodup_ids_sorted act :
  NoDup (map task_id (sort_by task_leb act)) ↔ NoDup (map task_id act).
Proof. by rewrite (sort_by_perm task_leb act). Qed.

Lemma schedule_inv ready conc resvs snap rel settled cs gate lo r :
  schedule fs ready conc resvs snap rel settled cs gate lo = Ok r →
  ∃ act lock runnable adm0 adm rsn1 rsn2 rsn3,
    round_steps ready conc resvs snap rel settled cs gate lo act lock runnable adm0 adm rsn1 rsn2 rsn3 ∧
    r = round_result ready act adm rsn3.
Proof.
  unfold schedule. intros H.
  apply bind_Ok in H as ([] & Hc%raise_if_Ok & H). apply bind_Ok in H as ([] & Hg%raise_if_Ok & H).
  apply bind_Ok in H as (act & Hr & H). apply bind_Ok in H as ([] & Hi%for_each_raise_Ok & H).
  apply bind_Ok in H as ([] & Hv%raise_if_Ok & H). apply bind_Ok in H as ([] & Hk%for_each_raise_Ok & H).
  apply bind_Ok in H as ([] & Hn%raise_if_Ok & H). apply bind_Ok in H as (lock & Hl & H).
  destruct (runnable_loop _ _ _ _ _) as [runnable rsn1] eqn:E1.
  destruct (admit_loop _ _ _ _ _ _ _ _) as [adm0 rsn2] eqn:E2.
  destruct (apply_gate _ _ _ _ _) as [adm rsn3] eqn:E3. injection H as <-. bool_inv.
  exists act, lock, runnable, adm0, adm, rsn1, rsn2, rsn3. split; [|done]. split; try done.
  - intros ->. by destruct gate.
  - eapply Forall_impl; [exact Hi|]. cbn. intros t. by rewrite bool_decide_eq_false.
  - by apply nodup_ids_sorted.
Qed.

Lemma schedule_intro ready conc resvs snap rel settled cs gate lo
    act lock runnable adm0 adm rsn1 rsn2 rsn3 :
  round_steps ready conc resvs snap rel settled cs gate lo act lock runnable adm0 adm rsn1 rsn2 rsn3 →
  schedule fs ready conc resvs snap rel settled cs gate lo = Ok (round_result ready act adm rsn3).
Proof.
  intros [Hc Hg Hr Hi Hv Hk Hn Hl E1 E2 E3]. unfold schedule.
  eapply (bind_intro _ _ tt); [apply raise_if_Ok, Z.leb_gt; done|].
  eapply (bind_intro _ _ tt); [apply raise_if_Ok; destruct lo; [by rewrite Hg|done]|].
  eapply bind_intro; [exact Hr|].
  eapply bind_intro; [apply (for_each_raise_Ok _ _ _ _ tt); eapply Forall_impl; [exact Hi|];
    cbn; intros t ?; by apply bool_decide_eq_false|].
  eapply (bind_intro _ _ tt); [apply raise_if_Ok; by rewrite Hv|].
  eapply bind_intro; [by apply (for_each_raise_Ok _ _ _ _ tt)|].
  eapply (bind_intro _ _ tt); [apply raise_if_Ok, negb_false_iff, bool_decide_eq_true;
    by apply nodup_ids_sorted|].
  eapply bind_intro; [exact Hl|]. by rewrite E1, E2, E3.
Qed.

(** ** Step 1: which ready tasks are runnable *)

Lemma runnable_loop_spec dups settled ready rsn acc runnable rsn' :
  runnable_loop dups settled ready rsn acc = (runnable, rsn') →
  runnable = acc ++ List.filter (λ t, bool_decide (defer_reason dups settled t = None)) ready ∧
  (∀ k, dict_has k rsn = true → dict_has k rsn' = true) ∧
  (∀ t, t ∈ ready → defer_reason dups settled t = None ∨ dict_has (task_id t) rsn' = true).
Proof.
  revert rsn acc. induction ready as [|t ready IH]; intros rsn acc H; cbn in H.
  - injection H as <- <-. cbn. rewrite app_nil_r. split; [done|]. split; [done|].
    by intros ? ?%elem_of_nil.
  - cbn [List.filter]. destruct (defer_reason dups settled t) as [r|] eqn:E.
    + apply IH in H as (-> & Hk & Ht). split; [done|]. split.
      * intros k Hd. apply Hk. by rewrite dict_has_set, Hd, orb_true_r.
      * intros u [->|Hu]%elem_of_cons; [|by apply Ht]. right. apply Hk.
        by rewrite dict_has_set, bool_decide_eq_true_2.
    + apply IH in H as (-> & Hk & Ht). rewrite bool_decide_eq_true_2 by done.
      split; [by rewrite <- app_assoc|]. split; [done|].
      intros u [->|Hu]%elem_of_cons; [by left|by apply Ht].
Qed.

Lemma defer_reason_None dups settled t :
  defer_reason dups settled t = None ↔
  task_id t ∉ dups ∧ is_ambiguous t = false ∧
  Forall (λ e, settled !! dep_task_id e = Some (dep_generation e, dep_artifact_sha256 e)) (depends_on t).
Proof.
  unfold defer_reason, unmet_dependency. case_decide as Hd; [naive_solver|].
  destruct (is_ambiguous t); [naive_solver|].
  destruct (List.find _ (depends_on t)) as [e|] eqn:E.
  - apply List.find_some in E as [Hin He%bool_decide_eq_true]. split; [done|].
    intros (_ & _ & Hall). rewrite Forall_forall in Hall. destruct He. apply Hall.
    by apply list_elem_of_In.
  - split; [intros _|done]. split; [done|]. split; [done|]. rewrite Forall_forall.
    intros e He%list_elem_of_In. pose proof (List.find_none _ _ E e He) as Hf.
    by apply bool_decide_eq_false, dec_stable in Hf.
Qed.

(** The tasks with a given id. *)
Definition with_id (x : string) (l : list BoardTask) : list BoardTask := filter (λ t, task_id t = x) l.

Lemma duplicate_ids_spec seen ready x :
  x ∈ duplicate_ids seen ready ↔
  (x ∈ seen ∧ (1 ≤ length (with_id x ready))%nat) ∨ (2 ≤ length (with_id x ready))%nat.
Proof.
  revert seen. induction ready as [|t ready IH]; intros seen; cbn [duplicate_ids].
  - rewrite elem_of_nil. cbn. lia.
  - assert (Hd : x ∈ (if decide (task_id t ∈ seen) then task_id t :: duplicate_ids (task_id t :: seen) ready
        else duplicate_ids (task_id t :: seen) ready) ↔
      (task_id t = x ∧ x ∈ seen) ∨ x ∈ duplicate_ids (task_id t :: seen) ready).
    { case_decide; rewrite ?elem_of_cons; naive_solver. }
    rewrite Hd, IH, elem_of_cons. unfold with_id. rewrite (filter_cons _ t ready).
    destruct (decide (task_id t = x)) as [Heq|Hne]; cbn [length];
      set (n := length (filter _ ready)); clearbody n.
    + destruct (decide (x ∈ seen)) as [Hs|Hs].
      * split; intros _; left; split; (done || lia).
      * split; [intros [[_ ?]|[[_ ?]|?]]; [done|right; lia..]|].
        intros [[? _]|?]; [done|]. right. left. split; [by left|lia].
    + split; [intros [[? _]|[[[?|?] ?]|?]]; [congruence..|by left|by right]|].
      intros [[? ?]|?]; right; [left; split; [by right|done]|by right].
Qed.

(** An id outside the duplicates names one ready task and no active one. *)
Lemma not_duplicate_unique seen ready t u :
  task_id t ∉ duplicate_ids seen ready → t ∈ ready → u ∈ ready → task_id u = task_id t →
  u = t ∧ task_id t ∉ seen.
Proof.
  rewrite duplicate_ids_spec. intros Hn Ht Hu Hid.
  assert (Ht' : t ∈ with_id (task_id t) ready) by (by apply list_elem_of_filter).
  assert (Hu' : u ∈ with_id (task_id t) ready) by (by apply list_elem_of_filter).
  destruct (with_id (task_id t) ready) as [|a [|b l]] eqn:E.
  - by apply elem_of_nil in Ht'.
  - apply list_elem_of_singleton in Ht', Hu'. split; [congruence|].
    intros Hs. apply Hn. left. split; [done|]. cbn. lia.
  - exfalso. apply Hn. right. cbn. lia.
Qed.
End round.
