(* ===== verification/RouterOrder.v ===== *)
(** * The router's dependence on its inputs

    The dependency index as a relation on tasks; dictionaries up to their
    order; what a round reads from the order of the ready tasks; and the
    acceptance of a round's own snapshot by the next one. *)
From S2P Require Import Prelude Sha256 Json Posix Router RouterPairs RouterLocks RouterRound.

#[local] Open Scope Z_scope.

(** ** Dictionaries up to the order of their keys *)

Definition dict_equiv {A} (d e : list (string * A)) : Prop := ∀ k, dict_get k d = dict_get k e.

#[export] Instance dict_equiv_equivalence {A} : Equivalence (@dict_equiv A).
Proof.
  split; [done|by intros ? ? H k|]. intros ? ? ? H1 H2 k. by rewrite H1.
Qed.

#[export] Instance dict_set_proper {A} k (v : A) :
  Proper (dict_equiv ==> dict_equiv) (dict_set k v).
Proof. intros d e H k'. by rewrite !dict_get_set, H. Qed.

#[export] Instance dict_has_proper {A} k : Proper (@dict_equiv A ==> eq) (dict_has k).
Proof. intros d e H. unfold dict_has. by rewrite H. Qed.

#[export] Instance set_default_proper {A} k (v : A) :
  Proper (dict_equiv ==> dict_equiv) (set_default k v).
Proof.
  intros d e H. unfold set_default. rewrite (dict_has_proper k d e H).
  destruct (dict_has k e); [done|by apply dict_set_proper].
Qed.

Lemma dict_set_swap {A} k1 k2 (v1 v2 : A) d :
  k1 ≠ k2 → dict_equiv (dict_set k1 v1 (dict_set k2 v2 d)) (dict_set k2 v2 (dict_set k1 v1 d)).
Proof. intros Hne k. rewrite !dict_get_set. repeat case_decide; congruence. Qed.

(** Two indexes with the same edges. *)
Definition index_equiv (adj adj' : DependencyIndex) : Prop :=
  ∀ n m, dep_edge adj n m ↔ dep_edge adj' n m.

Lemma tc_impl {A} (R S : A → A → Prop) x y : (∀ a b, R a b → S a b) → tc R x y → tc S x y.
Proof. intros HRS. induction 1; [by apply tc_once, HRS|eapply tc_l; [by apply HRS|done]]. Qed.

Lemma reachable_equiv adj adj' s t : index_equiv adj adj' → reachable adj s t = reachable adj' s t.
Proof.
  intros He. apply eq_true_iff_eq. rewrite !reachable_tc.
  split; apply tc_impl; intros a b; apply He.
Qed.

Lemma conflict_reason_equiv fs a b adj adj' cs :
  index_equiv adj adj' →
  _conflict_reason fs a b (Some adj) cs = _conflict_reason fs a b (Some adj') cs.
Proof.
  intros He. unfold _conflict_reason, depends_either.
  by rewrite !(reachable_equiv adj adj').
Qed.

(** ** The index a round builds *)

Definition deps (t : BoardTask) : list string := remove_dups (map dep_task_id (depends_on t)).

Lemma build_index_get n l acc :
  dict_get n (fold_left (λ adj t, dict_set (task_id t) (deps t) adj) l acc) =
  match last (with_id n l) with Some t => Some (deps t) | None => dict_get n acc end.
Proof.
  revert acc. induction l as [|t l IH]; intros acc; [done|]. cbn [fold_left]. rewrite IH.
  unfold with_id. rewrite filter_cons. fold (with_id n l).
  destruct (with_id n l) as [|u us] eqn:E.
  - rewrite dict_get_set. case_decide; done.
  - destruct (proj2 (last_is_Some (u :: us))) as [x Hx]; [done|].
    case_decide; rewrite ?last_cons_cons, Hx; done.
Qed.

Lemma dep_edge_build n m l :
  dep_edge (build_dependency_index l) n m ↔
  ∃ t, last (with_id n l) = Some t ∧ m ∈ map dep_task_id (depends_on t).
Proof.
  unfold dep_edge, successors. unfold build_dependency_index.
  change (λ adj t, dict_set (task_id t) (remove_dups (map dep_task_id (depends_on t))) adj)
    with (λ adj t, dict_set (task_id t) (deps t) adj).
  rewrite build_index_get. destruct (last (with_id n l)) as [t|]; cbn.
  - unfold deps. rewrite elem_of_remove_dups. naive_solver.
  - split; [by intros ?%elem_of_nil|naive_solver].
Qed.

Lemma with_id_le_1 n l : NoDup (map task_id l) → (length (with_id n l) ≤ 1)%nat.
Proof.
  unfold with_id. induction l as [|t l IH]; [cbn; lia|]. cbn [map]. intros [Hn Hl]%NoDup_cons.
  rewrite filter_cons. case_decide as E; [|by apply IH].
  cbn. destruct (filter (λ u, task_id u = n) l) as [|u us] eqn:Hf; [done|].
  destruct Hn. rewrite E.
  assert (Hu : u ∈ filter (λ u, task_id u = n) l) by (rewrite Hf; by left).
  apply list_elem_of_filter in Hu as [<- Hu]. by apply list_elem_of_fmap_2.
Qed.

Lemma with_id_perm n l m : NoDup (map task_id l) → l ≡ₚ m → with_id n l = with_id n m.
Proof.
  intros Hn Hp. pose proof (with_id_le_1 n l Hn) as Hle.
  assert (Hf : with_id n l ≡ₚ with_id n m) by (unfold with_id; by rewrite Hp).
  destruct (with_id n l) as [|x [|? ?]]; [|..|cbn in Hle; lia].
  - by apply Permutation_nil_l in Hf.
  - by apply Permutation_singleton_l in Hf.
Qed.

Lemma last_with_id l t :
  NoDup (map task_id l) → t ∈ l → last (with_id (task_id t) l) = Some t.
Proof.
  intros Hn Ht. pose proof (with_id_le_1 (task_id t) l Hn) as Hle.
  assert (Hin : t ∈ with_id (task_id t) l) by (unfold with_id; by apply list_elem_of_filter).
  destruct (with_id (task_id t) l) as [|x [|? ?]]; [|..|cbn in Hle; lia].
  - by apply elem_of_nil in Hin.
  - apply list_elem_of_singleton in Hin. by subst.
Qed.

Lemma last_with_id_elem n l t : last (with_id n l) = Some t → t ∈ l ∧ task_id t = n.
Proof.
  intros H%last_Some_elem_of. unfold with_id in H. apply list_elem_of_filter in H. tauto.
Qed.

(** With unique ids the index is the tasks' own [depends_on]. *)
Lemma dep_edge_build_nodup l n m :
  NoDup (map task_id l) →
  dep_edge (build_dependency_index l) n m ↔
  ∃ t, t ∈ l ∧ task_id t = n ∧ m ∈ map dep_task_id (depends_on t).
Proof.
  intros Hn. rewrite dep_edge_build. split.
  - intros (t & Ht & Hm). destruct (last_with_id_elem _ _ _ Ht). eauto.
  - intros (t & Ht & <- & Hm). exists t. split; [by apply last_with_id|done].
Qed.

Lemma build_index_perm act l m :
  NoDup (map task_id l) → l ≡ₚ m →
  index_equiv (build_dependency_index (act ++ l)) (build_dependency_index (act ++ m)).
Proof.
  intros Hn Hp n k. rewrite !dep_edge_build. unfold with_id. rewrite !filter_app.
  fold (with_id n l) (with_id n m). by rewrite (with_id_perm n l m).
Qed.

(** ** The loops read the index and the reasons only through lookups *)

Section order.
Context (fs : FileSystem).

Lemma validate_active_equiv idx idx' cs tbl validated active :
  index_equiv idx idx' →
  validate_active fs idx cs tbl validated active = validate_active fs idx' cs tbl validated active.
Proof.
  intros He. revert tbl validated. induction active as [|t active IH]; intros tbl validated; [done|].
  cbn [validate_active]. rewrite !for_each_raise.
  rewrite (existsb_ext _ (λ o, bool_decide (_conflict_reason fs t o (Some idx') cs ≠ None))).
  2:{ intros o. by rewrite (conflict_reason_equiv fs t o idx idx'). }
  destruct (raise_if _ _ _) as [[]|]; [|done]. rewrite !bind_ret.
  destruct (try_acquire cs tbl t) as [ok tbl']. destruct (raise_if _ _ _); [|done]. apply IH.
Qed.

Lemma first_conflict_equiv t others idx idx' cs :
  index_equiv idx idx' → first_conflict fs t others idx cs = first_conflict fs t others idx' cs.
Proof.
  intros He. induction others as [|o others IH]; cbn; [done|].
  by rewrite (conflict_reason_equiv fs t o idx idx'), IH.
Qed.

Lemma admit_loop_equiv conc idx idx' cs active runnable admitted tbl rsn rsn' :
  index_equiv idx idx' → dict_equiv rsn rsn' →
  (admit_loop fs conc idx cs active runnable admitted tbl rsn).1 =
  (admit_loop fs conc idx' cs active runnable admitted tbl rsn').1 ∧
  dict_equiv (admit_loop fs conc idx cs active runnable admitted tbl rsn).2
             (admit_loop fs conc idx' cs active runnable admitted tbl rsn').2.
Proof.
  intros He. revert admitted tbl rsn rsn'.
  induction runnable as [|t runnable IH]; intros admitted tbl rsn rsn' Hr; [done|].
  cbn [admit_loop]. rewrite <- (first_conflict_equiv t _ idx idx' cs He).
  destruct (conc <=? _); [apply IH; by f_equiv|].
  destruct (first_conflict _ _ _ _ _); [apply IH; by f_equiv|].
  destruct (try_acquire cs tbl t) as [[] tbl']; apply IH; [done|by f_equiv].
Qed.

Lemma apply_gate_equiv gate lo active adm rsn rsn' :
  dict_equiv rsn rsn' →
  (apply_gate gate lo active adm rsn).1 = (apply_gate gate lo active adm rsn').1 ∧
  dict_equiv (apply_gate gate lo active adm rsn).2 (apply_gate gate lo active adm rsn').2.
Proof.
  intros Hr. unfold apply_gate. destruct (negb _ && negb lo); [|done].
  destruct (match gate with Some g => _ | None => false end); [done|]. split; [done|]. cbn.
  revert rsn rsn' Hr. induction adm as [|t adm IH]; intros rsn rsn' Hr; [done|].
  cbn. apply IH. by f_equiv.
Qed.

(** The reasons of step 1, as one fold. *)
Lemma runnable_loop_reasons dups settled ready rsn acc :
  (runnable_loop dups settled ready rsn acc).2 =
  fold_left (λ d t, match defer_reason dups settled t with
                    | Some r => dict_set (task_id t) r d
                    | None => d end) ready rsn.
Proof.
  revert rsn acc. induction ready as [|t ready IH]; intros rsn acc; [done|]. cbn.
  destruct (defer_reason dups settled t); apply IH.
Qed.

Lemma reasons_equiv (f : BoardTask → option string) l rsn rsn' :
  dict_equiv rsn rsn' →
  dict_equiv
    (fold_left (λ d t, match f t with Some r => dict_set (task_id t) r d | None => d end) l rsn)
    (fold_left (λ d t, match f t with Some r => dict_set (task_id t) r d | None => d end) l rsn').
Proof.
  revert rsn rsn'. induction l as [|t l IH]; intros rsn rsn' Hr; [done|]. cbn. apply IH.
  destruct (f t); [by f_equiv|done].
Qed.

Lemma reasons_perm (f : BoardTask → option string) l m rsn :
  NoDup (map task_id l) → l ≡ₚ m →
  dict_equiv
    (fold_left (λ d t, match f t with Some r => dict_set (task_id t) r d | None => d end) l rsn)
    (fold_left (λ d t, match f t with Some r => dict_set (task_id t) r d | None => d end) m rsn).
Proof.
  intros Hn Hp. revert rsn. induction Hp as [|t l m Hp IH|t u l|l m k H1 IH1 H2 IH2]; intros rsn.
  - done.
  - cbn in *. apply NoDup_cons in Hn as [_ Hn]. by apply IH.
  - cbn. apply reasons_equiv. cbn in Hn. apply NoDup_cons in Hn as [Hn _].
    assert (task_id t ≠ task_id u) by (intros E; apply Hn; rewrite E; by left).
    destruct (f t), (f u); try done. by apply dict_set_swap.
  - etrans; [by apply IH1|]. apply IH2. by rewrite <- H1.
Qed.

Lemma duplicate_ids_perm seen l m x : l ≡ₚ m → x ∈ duplicate_ids seen l ↔ x ∈ duplicate_ids seen m.
Proof. intros Hp. rewrite !duplicate_ids_spec. unfold with_id. by rewrite Hp. Qed.

Lemma defer_reason_equiv dups dups' settled t :
  (task_id t ∈ dups ↔ task_id t ∈ dups') →
  defer_reason dups settled t = defer_reason dups' settled t.
Proof. intros He. unfold defer_reason. by rewrite (decide_ext _ _ _ _ He). Qed.

End order.
