(* ===== verification/RouterProps.v ===== *)
(** * Properties of the board router

    The theorems about [schedule], [can_parallelize], [DependencyIndex] and
    the lock table, with a concrete round as their witness. *)
From S2P Require Import Prelude Sha256 Json Posix Router RouterPairs RouterLocks RouterRound RouterOrder.

#[local] Open Scope Z_scope.

(** ** A concrete round for the witnesses

    Three ready tasks: [B] writes below [A]'s scope, [C] reads elsewhere and
    depends on the settled task [P]. *)
Definition demo_fs : FileSystem := {| os_realpath := λ p, p; os_stat := λ _, None |}.

Definition demo_task (id : string) (prio : Z) (wr rd : list string) (ds : list DepEdge)
    (rs : list ResourceClaim) : BoardTask := {|
  task_id := id; write_paths := wr; read_paths := rd; depends_on := ds; resources := rs;
  worktree_root := "/repo"; metadata_complete := true; priority := prio
|}.

Definition demo_claim (cls m : string) (u : Z) : ResourceClaim :=
  {| resource_class := cls; target := ""; mode := m; units := u |}.

Definition demo_A : BoardTask := demo_task "A" 1 ["src"] [] [] [demo_claim "git_refs" "write" 1].
Definition demo_B : BoardTask := demo_task "B" 1 ["src/x.py"] [] [] [].
Definition demo_C : BoardTask :=
  demo_task "C" 0 [] ["docs"] [{| dep_task_id := "P"; dep_generation := 1; dep_artifact_sha256 := "aa" |}]
    [demo_claim "mcp_server" "count" 2].
Definition demo_caps : Capacities := [(CapClass "mcp_server", 3)].

Definition demo_round (ready : list BoardTask) : res ScheduleResult :=
  schedule demo_fs ready 2 [] None [] {["P" := (1, "aa")]} demo_caps None true.

Section facts.
Context (fs : FileSystem).

Lemma task_leb_total a b : task_leb a b = true ∨ task_leb b a = true.
Proof.
  unfold task_leb. destruct (Z.lt_trichotomy (priority a) (priority b)) as [H|[H|H]].
  - left. by rewrite (proj2 (Z.ltb_lt _ _)).
  - rewrite H, Z.ltb_irrefl, Z.eqb_refl. cbn. apply str_leb_total.
  - right. by rewrite (proj2 (Z.ltb_lt _ _)).
Qed.

Lemma task_leb_iff a b :
  task_leb a b = true ↔
  priority a < priority b ∨ priority a = priority b ∧ str_leb (task_id a) (task_id b) = true.
Proof. unfold task_leb. by rewrite orb_true_iff, andb_true_iff, Z.ltb_lt, Z.eqb_eq. Qed.

Lemma task_leb_trans a b c : task_leb a b = true → task_leb b c = true → task_leb a c = true.
Proof.
  rewrite !task_leb_iff. intros [?|[? ?]] [?|[? ?]]; [left; lia..|].
  right. split; [lia|]. by eapply str_leb_trans.
Qed.

Lemma nodup_ids_unique (l : list BoardTask) a b :
  NoDup (map task_id l) → a ∈ l → b ∈ l → task_id a = task_id b → a = b.
Proof.
  induction l as [|c l IH]; [by intros _ ?%elem_of_nil|]. cbn. intros [Hc Hl]%NoDup_cons.
  assert (∀ z, z ∈ l → task_id z = task_id c → False) as Hf.
  { intros z Hz Hzc. apply Hc. rewrite <- Hzc. by apply list_elem_of_fmap_2. }
  rewrite !elem_of_cons. intros [->|Ha] [->|Hb] E; [done| | |by apply IH].
  - destruct (Hf b Hb). by symmetry.
  - by destruct (Hf a Ha).
Qed.

(** Two orders of the same tasks sort alike when ids are unique. *)
Lemma sort_tasks_perm l m :
  NoDup (map task_id l) → l ≡ₚ m → sort_by task_leb l = sort_by task_leb m.
Proof.
  intros Hn. apply sort_by_unique; [apply task_leb_total|apply task_leb_trans|].
  intros x y Hx Hy [?|[? H1]]%task_leb_iff [?|[? H2]]%task_leb_iff; [lia..|].
  apply (nodup_ids_unique l); [done..|]. by apply str_leb_antisym.
Qed.

Lemma sort_ids_perm l m :
  NoDup (map task_id l) → l ≡ₚ m → sort_by task_id_leb l = sort_by task_id_leb m.
Proof.
  intros Hn. apply sort_by_unique.
  - intros x y. apply str_leb_total.
  - intros x y z. apply str_leb_trans.
  - intros x y Hx Hy H1 H2. apply (nodup_ids_unique l); [done..|]. by apply str_leb_antisym.
Qed.

Lemma map_task_reservation l : map task (map _reservation_for l) = l.
Proof. rewrite map_map. apply map_id. Qed.

Lemma apply_gate_spec gate lo active adm0 rsn2 adm rsn3 :
  apply_gate gate lo active adm0 rsn2 = (adm, rsn3) →
  (adm = adm0 ∨ adm = []) ∧
  (∀ k, dict_has k rsn2 = true → dict_has k rsn3 = true) ∧
  (∀ t, t ∈ adm0 → t ∈ adm ∨ dict_has (task_id t) rsn3 = true) ∧
  (adm ≠ [] → lo = false → ∃ g, gate = Some g ∧ g (active ++ adm) = Some true).
Proof.
  unfold apply_gate. destruct (bool_decide (adm0 = [])) eqn:E0; cbn.
  { apply bool_decide_eq_true in E0 as ->. intros [= <- <-]. split; [auto|]. split; [done|].
    split; [auto|]. done. }
  destruct lo; cbn.
  { intros [= <- <-]. split; [auto|]. split; [done|]. split; [auto|]. done. }
  assert (Hfold : ∀ l (d : list (string * string)) msg,
    (∀ k, dict_has k d = true → dict_has k (fold_left (λ d t, dict_set (task_id t) msg d) l d) = true) ∧
    (∀ t, t ∈ l → dict_has (task_id t) (fold_left (λ d t, dict_set (task_id t) msg d) l d) = true)).
  { induction l as [|t l IH]; intros d msg; cbn; [split; [done|by intros ? ?%elem_of_nil]|].
    destruct (IH (dict_set (task_id t) msg d) msg) as [H1 H2]. split.
    - intros k Hk. apply H1. by rewrite dict_has_set, Hk, orb_true_r.
    - intros u [->|Hu]%elem_of_cons; [|by apply H2]. apply H1.
      by rewrite dict_has_set, bool_decide_eq_true_2. }
  destruct gate as [g|]; [destruct (bool_decide (g (active ++ adm0) = Some true)) eqn:Eg|].
  - intros [= <- <-]. apply bool_decide_eq_true in Eg. split; [auto|]. split; [done|].
    split; [auto|]. intros _ _. eauto.
  - intros [= <- <-]. split; [auto|]. split; [apply Hfold|]. split; [|done].
    intros t Ht. right. by apply Hfold.
  - intros [= <- <-]. split; [auto|]. split; [apply Hfold|]. split; [|done].
    intros t Ht. right. by apply Hfold.
Qed.

(** The facts every successful round leaves, in one place. *)
Lemma round_facts ready conc resvs snap rel settled cs gate lo act lock runnable adm0 adm rsn1 rsn2 rsn3 :
  round_steps fs ready conc resvs snap rel settled cs gate lo act lock runnable adm0 adm rsn1 rsn2 rsn3 →
  let idx := build_dependency_index (sort_by task_leb act ++ ready) in
  let dups := duplicate_ids (map task_id (sort_by task_leb act)) ready in
  co_runnable fs idx cs (sort_by task_leb act ++ adm) ∧
  (adm = [] ∨ Z.of_nat (length (sort_by task_leb act) + length adm) <= conc) ∧
  (∀ t, t ∈ adm → t ∈ ready ∧ defer_reason dups settled t = None) ∧
  (∀ t, t ∈ ready → t ∈ adm ∨ dict_has (task_id t) rsn3 = true).
Proof.
  intros [Hc Hg Hr Hi Hv Hk Hn Hl E1 E2 E3] idx dups.
  assert (Hact : Forall (λ t, is_ambiguous t = false) (sort_by task_leb act)).
  { by rewrite (sort_by_perm task_leb act). }
  apply validate_active_spec in Hl as [Hco Hrep]; [|done|apply co_runnable_nil|apply represents_empty].
  cbn [app] in Hco, Hrep.
  apply runnable_loop_spec in E1 as (-> & _ & Hrs). cbn [app] in *.
  set (run := List.filter _ ready) in *.
  assert (Hrun : ∀ t, t ∈ sort_by task_leb run ↔ t ∈ ready ∧ defer_reason dups settled t = None).
  { intros t. rewrite elem_of_sort_by. unfold run. by rewrite elem_of_filter_list, bool_decide_eq_true. }
  apply admit_loop_spec in E2 as (Hco2 & (new & -> & Hsub) & Hlen & Hk2 & Hu).
  2:{ rewrite Forall_forall. intros t [_ Ht]%Hrun. by apply defer_reason_None in Ht as (_ & ? & _). }
  2,3: by rewrite app_nil_r.
  cbn [app] in *.
  destruct (apply_gate_spec _ _ _ _ _ _ _ E3) as (Hadm & Hk3 & Hgr & _).
  split; [|split; [|split]].
  - destruct Hadm as [->| ->]; [done|]. by rewrite app_nil_r.
  - destruct Hadm as [->| ->]; [|by left]. destruct Hlen as [->|?]; [by left|by right].
  - intros t Ht. apply Hrun. eapply elem_of_submseteq, sublist_submseteq; [|exact Hsub].
    destruct Hadm as [->| ->]; [done|by apply elem_of_nil in Ht].
  - intros t Ht. destruct (Hrs t Ht) as [Hd|Hd].
    + destruct (Hu t) as [Hin|Hin]; [by apply Hrun|by apply Hgr|]. right. by apply Hk3.
    + right. by apply Hk3, Hk2.
Qed.

Lemma running_perm act adm :
  map task (map _reservation_for (sort_by task_id_leb (sort_by task_leb act ++ adm))) ≡ₚ
  sort_by task_leb act ++ adm.
Proof. rewrite map_task_reservation. apply sort_by_perm. Qed.

Lemma FOP_impl {A} (R S : A → A → Prop) l :
  (∀ x y, x ∈ l → y ∈ l → R x y → S x y) → List.ForallOrdPairs R l → List.ForallOrdPairs S l.
Proof.
  intros HRS. induction 1 as [|a l Ha Hl IH]; constructor.
  - rewrite Forall_forall in Ha |- *. intros b Hb. apply HRS; [by left|by right|by apply Ha].
  - apply IH. intros x y ? ?. apply HRS; by right.
Qed.

Lemma FOP_app_l {A} (R : A → A → Prop) l m :
  List.ForallOrdPairs R (l ++ m) → List.ForallOrdPairs R l.
Proof.
  induction l as [|a l IH]; cbn; [constructor|]. inversion 1 as [|? ? Ha Hl]; subst.
  apply Forall_app in Ha as [Ha _]. constructor; [done|by apply IH].
Qed.

Lemma nodup_ids_filter p l : NoDup (map task_id l) → NoDup (map task_id (List.filter p l)).
Proof.
  intros Hn. eapply sublist_NoDup; [exact Hn|].
  apply (fmap_sublist task_id), filter_sublist.
Qed.

(** Step 1 on two orders of the ready tasks. *)
Lemma runnable_perm seen settled ready ready' :
  NoDup (map task_id ready) → ready ≡ₚ ready' →
  let '(run, rsn) := runnable_loop (duplicate_ids seen ready) settled ready [] [] in
  let '(run', rsn') := runnable_loop (duplicate_ids seen ready') settled ready' [] [] in
  sort_by task_leb run = sort_by task_leb run' ∧ dict_equiv rsn rsn'.
Proof.
  intros Hn Hp.
  assert (Hd : ∀ t, defer_reason (duplicate_ids seen ready) settled t =
                    defer_reason (duplicate_ids seen ready') settled t).
  { intros t. by apply defer_reason_equiv, duplicate_ids_perm. }
  pose proof (runnable_loop_reasons (duplicate_ids seen ready) settled ready [] []) as H1.
  pose proof (runnable_loop_reasons (duplicate_ids seen ready') settled ready' [] []) as H2.
  destruct (runnable_loop (duplicate_ids seen ready) _ _ _ _) as [run rsn] eqn:E1.
  destruct (runnable_loop (duplicate_ids seen ready') _ _ _ _) as [run' rsn'] eqn:E2.
  apply runnable_loop_spec in E1 as [-> _], E2 as [-> _]. cbn [app snd] in *. subst. split.
  - rewrite (filter_ext_list _ (λ t, bool_decide (defer_reason (duplicate_ids seen ready') settled t = None)))
      by (intros t; by rewrite Hd).
    apply sort_tasks_perm; [by apply nodup_ids_filter|by apply filter_perm_list].
  - etrans; [by apply (reasons_perm (defer_reason (duplicate_ids seen ready) settled) ready ready')|].
    set (f := defer_reason (duplicate_ids seen ready) settled) in *.
    set (g := defer_reason (duplicate_ids seen ready') settled) in *.
    clearbody f g. generalize (@nil (string * string)) as d. clear -Hd.
    induction ready' as [|t l IH]; intros d; [done|]. cbn. rewrite Hd. apply IH.
Qed.

(** ** A round's own snapshot *)

Lemma validate_active_complete idx cs tbl validated active :
  co_runnable fs idx cs (validated ++ active) → represents cs tbl (claims_of validated) →
  ∃ tbl', validate_active fs idx cs tbl validated active = Ok tbl'.
Proof.
  revert tbl validated. induction active as [|t active IH]; intros tbl validated Hco Hr; [by eexists|].
  rewrite (cons_middle t validated active), app_assoc in Hco.
  destruct Hco as [H1 H2 H3]. pose proof H1 as H1'%FOP_app_l. pose proof H2 as [H2' _]%Forall_app.
  apply FOP_snoc in H1' as [Hv Hcl]. apply Forall_app in H2' as [Hkv Ht'].
  pose proof Ht' as [Ht _]%Forall_cons.
  assert (Hall : all_compatible cs (claims_of (validated ++ [t]))).
  { rewrite claims_of_app in H3. eapply all_compatible_app_l; [|exact H3].
    apply claims_of_valid. by apply Forall_app in H2 as [_ ?]. }
  assert (Hcov : co_runnable fs idx cs validated).
  { split; [done..|]. rewrite claims_of_app in Hall. eapply all_compatible_app_l; [|exact Hall].
    by apply claims_of_valid. }
  assert (Hclear : Forall (λ o, clear_of fs idx cs t o) validated).
  { eapply Forall_impl; [exact Hcl|]. cbn. intros o. apply clear_of_sym. }
  pose proof (co_runnable_snoc fs idx cs tbl validated t Hcov Hr Ht Hclear) as Hs.
  cbn [validate_active]. rewrite for_each_raise.
  destruct (existsb _ validated) eqn:Ex.
  { apply existsb_exists in Ex as (o & Ho%list_elem_of_In & Hb). bool_inv.
    rewrite Forall_forall in Hclear. by destruct (Hb (Hclear o Ho)). }
  rewrite raise_if_false, bind_ret.
  destruct (try_acquire cs tbl t) as [[] tbl1]; [|by destruct Hs].
  rewrite raise_if_false, bind_ret. apply IH; [by split|apply Hs].
Qed.

Lemma co_runnable_ids idx cs l : co_runnable fs idx cs l → NoDup (map task_id l).
Proof.
  intros [H _ _]. induction H as [|t l Ht Hl IH]; cbn; constructor; [|done].
  rewrite list_elem_of_fmap. intros (u & E & Hu). rewrite Forall_forall in Ht.
  specialize (Ht u Hu). apply conflict_reason_None in Ht. naive_solver.
Qed.

Lemma FOP_pair {A} (R : A → A → Prop) l x y :
  (∀ a b, R a b → R b a) → List.ForallOrdPairs R l → x ∈ l → y ∈ l → x = y ∨ R x y.
Proof.
  intros Hsym. induction 1 as [|a l Ha Hl IH]; [by intros ?%elem_of_nil|].
  rewrite Forall_forall in Ha. rewrite !elem_of_cons. intros [->|?] [->|?]; auto.
Qed.

(** Among tasks that are pairwise clear, the only paths in the index of those
    tasks alone are self-loops. *)
Lemma clear_no_path idx cs l m a b :
  co_runnable fs idx cs l → m ≡ₚ l → a ∈ l → b ∈ l → task_id a ≠ task_id b →
  reachable (build_dependency_index m) (task_id a) (task_id b) = false.
Proof.
  intros Hco Hp Ha Hb Hne. pose proof (co_runnable_ids _ _ _ Hco) as Hn.
  assert (Hdir : ∀ x y, x ∈ l → y ∈ l → task_id y ∈ map dep_task_id (depends_on x) → x = y).
  { intros x y Hx Hy Hd. destruct Hco as [H1 _ _].
    destruct (FOP_pair _ l x y (clear_of_sym fs idx cs) H1 Hx Hy) as [|Hc]; [done|].
    apply conflict_reason_None in Hc as (_ & _ & _ & Hdd & _). exfalso.
    unfold _direct_dep in Hdd. bool_inv. apply list_elem_of_fmap in Hd as (e & Hid & He).
    match goal with E : existsb _ (depends_on x) = false |- _ => rename E into Hex end.
    enough (existsb (λ e, bool_decide (dep_task_id e = task_id y)) (depends_on x) = true) by congruence.
    apply existsb_exists. exists e. split; [by apply list_elem_of_In|by apply bool_decide_eq_true]. }
  apply not_true_iff_false. rewrite reachable_tc. intros Htc.
  assert (Hgen : ∀ i j, tc (dep_edge (build_dependency_index m)) i j →
    i = task_id a → j = task_id b → False); [|by eapply Hgen].
  clear Htc. intros i j Htc. induction Htc as [i j He|i k j He Htc IH]; intros -> ->;
    apply dep_edge_build_nodup in He as (x & Hx & Hid & Hd); try (by rewrite Hp);
    rewrite Hp in Hx; assert (x = a) as -> by (by apply (nodup_ids_unique l)).
  - by rewrite (Hdir a b Ha Hb Hd) in Hne.
  - apply IH; [|done]. apply tc_nsteps in Htc as (n & ? & Hs).
    inversion Hs as [|n' ? k' ? He2 Hs2]; subst; [lia|].
    apply dep_edge_build_nodup in He2 as (y & Hy & Hyid & _); [|by rewrite Hp].
    rewrite Hp in Hy. rewrite <- Hyid in Hd |- *. by rewrite (Hdir a y Ha Hy Hd).
Qed.

Lemma co_runnable_reindex idx cs l m :
  co_runnable fs idx cs l → m ≡ₚ l → co_runnable fs (build_dependency_index m) cs m.
Proof.
  intros Hco Hp. apply (co_runnable_perm fs _ _ l); [done|].
  pose proof (co_runnable_ids _ _ _ Hco) as Hn. destruct (Hco) as [H1 H2 H3]. split; [|done..].
  eapply FOP_impl; [|exact H1]. intros a b Ha Hb Hc.
  apply conflict_reason_None in Hc as (Hid & ? & ? & ? & _ & ? & ?).
  apply conflict_reason_None. split_and!; try done.
  unfold depends_either. apply orb_false_iff. split; by eapply clear_no_path.
Qed.

Lemma sort_resvs l : sort_by resv_leb (map _reservation_for l) = map _reservation_for (sort_by task_id_leb l).
Proof. by apply sort_by_map. Qed.

Lemma sort_ids_sorted l : sort_by task_id_leb (sort_by task_id_leb l) = sort_by task_id_leb l.
Proof.
  apply sort_by_id, sort_by_sorted; intros *; [apply str_leb_total|apply str_leb_trans].
Qed.

(** The reservations a round hands out, with their hash, restore its tasks. *)
Lemma restore_running l :
  let rs := map _reservation_for (sort_by task_id_leb l) in
  restore_active rs (Some (_reservation_snapshot_sha256 rs)) [] = Ok (sort_by task_id_leb l).
Proof.
  intros rs. unfold restore_active. rewrite for_each_raise.
  assert (existsb (λ r, negb (bool_decide (r = _reservation_for (task r)))) rs = false) as ->.
  { apply not_true_iff_false. rewrite existsb_exists. intros (r & Hr%list_elem_of_In & Hb).
    apply list_elem_of_fmap in Hr as (t & -> & _). by rewrite bool_decide_eq_true_2 in Hb. }
  unfold rs. rewrite raise_if_false, bind_ret, sort_resvs, sort_ids_sorted.
  rewrite bool_decide_eq_true_2 by done. rewrite andb_comm. cbn [andb negb].
  rewrite bool_decide_eq_false_2 by done. cbn [andb]. rewrite !raise_if_false, !bind_ret.
  cbn [collect_releases]. rewrite bind_ret. cbn [forallb negb]. rewrite raise_if_false, bind_ret.
  f_equal. rewrite (filter_ext_list _ (λ _, true)) by done.
  rewrite <- (map_task_reservation (sort_by task_id_leb l)) at 2. f_equal.
  generalize (map _reservation_for (sort_by task_id_leb l)) as k.
  induction k as [|r k IH]; cbn; [done|]. by rewrite IH.
Qed.

Lemma json_strs_inj l m : json_canon (json_strs l) = json_canon (json_strs m) → l = m.
Proof.
  unfold json_strs. cbn [json_canon]. rewrite !map_map. intros [= H].
  revert H. apply map_inj_in. by intros x y [= ->].
Qed.

Lemma reservation_material_wf t : json_wf (reservation_material t) = true.
Proof.
  unfold reservation_material, json_strs. apply json_wf_obj. split; [by by_decide|].
  repeat (constructor; [cbn [snd]; first [done|apply json_wf_list]|]); try done;
    rewrite Forall_forall; intros v Hv%list_elem_of_fmap; by destruct Hv as (x & -> & _).
Qed.

Lemma reservation_material_inj t u :
  json_canon (reservation_material t) = json_canon (reservation_material u) → t = u.
Proof.
  destruct t as [i w r d c root mc pr], u as [i' w' r' d' c' root' mc' pr'].
  unfold reservation_material. cbn [task_id write_paths read_paths depends_on resources worktree_root
    metadata_complete priority]. rewrite !canon_obj. intros [= Hd <- <- Hr Hc <- <- Hw].
  f_equal; [by apply json_strs_inj; cbn; f_equal|by apply json_strs_inj; cbn; f_equal|..].
  - rewrite !map_map in Hd. revert Hd. apply map_inj_in.
    intros [] []. cbn. by intros [= -> -> ->].
  - rewrite !map_map in Hc. revert Hc. apply map_inj_in.
    intros [] []. cbn. by intros [= -> -> -> ->].
Qed.
End facts.

(** ** Properties *)

(** C1. Safety of a round.  The tasks holding a reservation afterwards, active
    and newly admitted alike, can run together: every two pass the code's own
    pairwise test in the round's dependency index, their resource claims are
    jointly servable on every resource (readers only, a single writer, or
    counted claims within capacity, so three-way excesses are caught), no
    metadata is ambiguous, and unless nothing was admitted the concurrency
    bound holds. *)
Theorem schedule_safe fs ready conc resvs snap rel settled cs gate lo r :
  schedule fs ready conc resvs snap rel settled cs gate lo = Ok r →
  ∃ act, restore_active resvs snap rel = Ok act ∧
  let idx := build_dependency_index (sort_by task_leb act ++ ready) in
  let running := map task (reservations r) in
  List.ForallOrdPairs (λ a b, can_parallelize fs a b (Some idx) cs = true) running ∧
  all_compatible cs (claims_of running) ∧
  Forall (λ t, is_ambiguous t = false) running ∧
  (run_now r = [] ∨ Z.of_nat (length running) <= conc).
Proof.
  intros (act & lock & runnable & adm0 & adm & rsn1 & rsn2 & rsn3 & Hs & ->)%schedule_inv.
  exists act. split; [apply Hs|]. intros idx running.
  destruct (round_facts _ _ _ _ _ _ _ _ _ _ _ _ _ _ _ _ _ _ Hs) as (Hco & Hlen & _ & _).
  assert (Hp : running ≡ₚ sort_by task_leb act ++ adm) by apply running_perm.
  cbn [run_now round_result] in *. clearbody running.
  apply (co_runnable_perm fs _ _ _ running) in Hco; [|by symmetry].
  destruct Hco as [H1 H2 H3]. split; [|split; [done|split; [done|]]].
  - eapply FOP_impl; [|exact H1]. intros a b _ _ Hab. unfold can_parallelize.
    rewrite (rs_caps _ _ _ _ _ _ _ _ _ _ _ _ _ _ _ _ _ _ Hs). by apply bool_decide_eq_true.
  - destruct Hlen as [->|?]; [by left|right]. by rewrite Hp, length_app.
Qed.

Lemma schedule_safe_witness :
  ∃ r, demo_round [demo_A; demo_B; demo_C] = Ok r ∧ run_now r = ["C"; "A"] ∧
    all_compatible demo_caps (claims_of (map task (reservations r))).
Proof.
  destruct (demo_round [demo_A; demo_B; demo_C]) as [r|e] eqn:E; [|vm_compute in E; discriminate].
  exists r. split; [done|]. split; [vm_compute in E; by injection E as <-|].
  destruct (schedule_safe _ _ _ _ _ _ _ _ _ _ _ E) as (act & _ & _ & H & _). exact H.
Defined.

(** A task starts only when it may: each id to run names a ready task, the
    only ready one with that id and not an active one, whose metadata is
    complete and whose every declared predecessor is settled at exactly the
    generation and artifact hash it names. *)
Theorem schedule_admits_settled fs ready conc resvs snap rel settled cs gate lo r i :
  schedule fs ready conc resvs snap rel settled cs gate lo = Ok r →
  i ∈ run_now r →
  ∃ t, t ∈ ready ∧ task_id t = i ∧ is_ambiguous t = false ∧
    (∀ u, u ∈ ready → task_id u = i → u = t) ∧
    (∀ act, restore_active resvs snap rel = Ok act → i ∉ map task_id act) ∧
    Forall (λ e, settled !! dep_task_id e = Some (dep_generation e, dep_artifact_sha256 e))
      (depends_on t).
Proof.
  intros (act & lock & runnable & adm0 & adm & rsn1 & rsn2 & rsn3 & Hs & ->)%schedule_inv Hi.
  cbn [run_now round_result] in Hi. apply list_elem_of_fmap in Hi as (t & -> & Ht).
  destruct (round_facts _ _ _ _ _ _ _ _ _ _ _ _ _ _ _ _ _ _ Hs) as (_ & _ & Hadm & _).
  destruct (Hadm t Ht) as [Hin (Hd & Ha & Hdep)%defer_reason_None].
  exists t. split_and!; try done.
  - intros u Hu Hid. by destruct (not_duplicate_unique _ _ t u Hd Hin Hu Hid).
  - intros act' Hact'. rewrite (rs_restore _ _ _ _ _ _ _ _ _ _ _ _ _ _ _ _ _ _ Hs) in Hact'.
    injection Hact' as <-. destruct (not_duplicate_unique _ _ t t Hd Hin Hin eq_refl) as [_ Hna].
    by rewrite (sort_by_perm task_leb act) in Hna.
Qed.

Lemma schedule_admits_settled_witness :
  ∃ r, demo_round [demo_A; demo_B; demo_C] = Ok r ∧ "C" ∈ run_now r ∧
    ∃ t, t ∈ [demo_A; demo_B; demo_C] ∧ task_id t = "C" ∧ is_ambiguous t = false.
Proof.
  destruct (demo_round [demo_A; demo_B; demo_C]) as [r|e] eqn:E; [|vm_compute in E; discriminate].
  exists r. assert (Hi : "C" ∈ run_now r) by (vm_compute in E; injection E as <-; by left).
  split; [done|]. split; [exact Hi|].
  destruct (schedule_admits_settled _ _ _ _ _ _ _ _ _ _ _ _ E Hi) as (t & H1 & H2 & H3 & _).
  exists t. auto.
Defined.

(** Nothing is lost: every ready id is either to run now or waiting, never
    both, and a task that was not admitted has a recorded reason. *)
Theorem schedule_partition fs ready conc resvs snap rel settled cs gate lo r t :
  schedule fs ready conc resvs snap rel settled cs gate lo = Ok r →
  t ∈ ready →
  (task_id t ∈ run_now r ∧ task_id t ∉ must_wait r) ∨
  (task_id t ∉ run_now r ∧ task_id t ∈ must_wait r ∧ dict_has (task_id t) (reasons r) = true).
Proof.
  intros (act & lock & runnable & adm0 & adm & rsn1 & rsn2 & rsn3 & Hs & ->)%schedule_inv Ht.
  destruct (round_facts _ _ _ _ _ _ _ _ _ _ _ _ _ _ _ _ _ _ Hs) as (_ & _ & _ & Hrs).
  cbn [run_now must_wait reasons round_result]. rewrite !elem_of_filter_list, negb_true_iff, bool_decide_eq_false.
  destruct (decide (task_id t ∈ map task_id adm)) as [Hin|Hin]; [left|right].
  - split; [done|]. by intros [_ ?].
  - split; [done|]. split; [split; [by apply list_elem_of_fmap_2|done]|].
    destruct (Hrs t Ht) as [Hadm|]; [|done]. destruct Hin. by apply list_elem_of_fmap_2.
Qed.

Lemma schedule_partition_witness :
  ∃ r, demo_round [demo_A; demo_B; demo_C] = Ok r ∧ dict_has "B" (reasons r) = true.
Proof.
  destruct (demo_round [demo_A; demo_B; demo_C]) as [r|e] eqn:E; [|vm_compute in E; discriminate].
  exists r. split; [done|].
  destruct (schedule_partition _ _ _ _ _ _ _ _ _ _ _ demo_B E) as [[H _]|(_ & _ & H)]; [set_solver| |done].
  exfalso. vm_compute in E. injection E as <-. cbn in H. set_solver.
Defined.

(** The schedule is a function of the set of ready tasks, not of the order
    they are listed in: on any two orders of tasks with distinct ids the round
    fails alike, or runs the same ids in the same order, holds the same
    reservations under the same snapshot hash, gives each id the same reason
    and leaves the same ids waiting. *)
Theorem schedule_order_independent fs ready ready' conc resvs snap rel settled cs gate lo :
  NoDup (map task_id ready) → ready ≡ₚ ready' →
  match schedule fs ready conc resvs snap rel settled cs gate lo,
        schedule fs ready' conc resvs snap rel settled cs gate lo with
  | Ok r, Ok r' =>
      run_now r = run_now r' ∧ reservations r = reservations r' ∧
      reservation_snapshot_sha256 r = reservation_snapshot_sha256 r' ∧
      must_wait r ≡ₚ must_wait r' ∧ dict_equiv (reasons r) (reasons r')
  | Err e, Err e' => e = e'
  | _, _ => False
  end.
Proof.
  intros Hn Hp. unfold schedule.
  destruct (raise_if (conc <=? 0) _ _); [rewrite !bind_ret|done].
  destruct (raise_if (lo && _) _ _); [rewrite !bind_ret|done].
  destruct (restore_active resvs snap rel) as [act|]; [rewrite !bind_ret|done].
  rewrite !for_each_raise, (existsb_perm _ (act ++ ready) (act ++ ready')) by (by rewrite Hp).
  destruct (raise_if (existsb _ (act ++ ready')) _ _); [rewrite !bind_ret|done].
  destruct (raise_if (negb (_capacities_valid cs)) _ _); [rewrite !bind_ret|done].
  destruct (raise_if (existsb _ act) _ _); [rewrite !bind_ret|done].
  destruct (raise_if (negb _) _ _); [rewrite !bind_ret|done].
  set (active := sort_by task_leb act).
  pose proof (build_index_perm active ready ready' Hn Hp) as He.
  rewrite (validate_active_equiv fs _ _ cs ∅ [] active He).
  destruct (validate_active _ _ _ _ _ _) as [lock|]; [rewrite !bind_ret|done].
  pose proof (runnable_perm (map task_id active) settled ready ready' Hn Hp) as Hr.
  destruct (runnable_loop (duplicate_ids _ ready) _ _ _ _) as [run rsn].
  destruct (runnable_loop (duplicate_ids _ ready') _ _ _ _) as [run' rsn'].
  destruct Hr as [-> Hr].
  destruct (admit_loop_equiv fs conc _ _ cs active (sort_by task_leb run') [] lock _ _ He Hr) as [Ha Hr2].
  destruct (admit_loop _ _ (build_dependency_index (active ++ ready)) _ _ _ _ _ _) as [adm rsn2].
  destruct (admit_loop _ _ (build_dependency_index (active ++ ready')) _ _ _ _ _ _) as [adm' rsn2'].
  cbn [fst snd] in Ha, Hr2. subst adm'.
  destruct (apply_gate_equiv gate lo active adm _ _ Hr2) as [Hg Hr3].
  destruct (apply_gate gate lo active adm rsn2) as [adm1 rsn3].
  destruct (apply_gate gate lo active adm rsn2') as [adm1' rsn3'].
  cbn [fst snd] in Hg, Hr3. subst adm1'. cbn [run_now reservations reservation_snapshot_sha256 must_wait reasons].
  split_and!; try done. apply filter_perm_list. by rewrite Hp.
Qed.

Lemma schedule_order_independent_witness :
  ∃ r r', demo_round [demo_A; demo_B; demo_C] = Ok r ∧ demo_round [demo_C; demo_A; demo_B] = Ok r' ∧
    run_now r = run_now r'.
Proof.
  pose proof (schedule_order_independent demo_fs [demo_A; demo_B; demo_C] [demo_C; demo_A; demo_B]
    2 [] None [] {["P" := (1, "aa")]} demo_caps None true ltac:(by_decide)
    ltac:(apply (Permutation_app_comm [demo_A; demo_B] [demo_C]))) as H.
  fold (demo_round [demo_A; demo_B; demo_C]) (demo_round [demo_C; demo_A; demo_B]) in H.
  destruct (demo_round [demo_A; demo_B; demo_C]) as [r|e] eqn:E; [|vm_compute in E; discriminate].
  destruct (demo_round [demo_C; demo_A; demo_B]) as [r'|e]; [|done].
  exists r, r'. split; [done|]. split; [done|]. apply H.
Defined.

(** The snapshot round trip: the reservations and hash a round returns are
    accepted by a later round with the same capacities, whatever its bound,
    settled map and gate; without new work that round restores exactly the same
    reservations under the same hash and admits nothing. *)
Theorem schedule_snapshot_replay fs ready conc resvs snap rel settled cs gate lo r conc' settled' gate' lo' :
  schedule fs ready conc resvs snap rel settled cs gate lo = Ok r →
  0 < conc' → (lo' = true → gate' = None) →
  schedule fs [] conc' (reservations r) (Some (reservation_snapshot_sha256 r)) [] settled' cs gate' lo' =
  Ok {| run_now := []; must_wait := []; reasons := []; reservations := reservations r;
        reservation_snapshot_sha256 := reservation_snapshot_sha256 r |}.
Proof.
  intros (act & lock & runnable & adm0 & adm & rsn1 & rsn2 & rsn3 & Hs & ->)%schedule_inv Hc' Hg'.
  destruct (round_facts _ _ _ _ _ _ _ _ _ _ _ _ _ _ _ _ _ _ Hs) as (Hco & _ & _ & _).
  cbn [reservations reservation_snapshot_sha256 round_result].
  set (L := sort_by task_leb act ++ adm) in *. set (run := sort_by task_id_leb L).
  assert (Hp : run ≡ₚ L) by apply sort_by_perm.
  assert (Hp' : sort_by task_leb run ≡ₚ L) by by rewrite (sort_by_perm task_leb run).
  pose proof (co_runnable_ids _ _ _ _ Hco) as Hn.
  assert (Hco' := co_runnable_reindex fs _ cs L (sort_by task_leb run) Hco Hp').
  rewrite <- (app_nil_r (sort_by task_leb run)) in Hco' at 1.
  destruct (validate_active_complete fs _ cs ∅ [] _ Hco' (represents_empty cs)) as [lock' Hl].
  assert (Hk : Forall (λ t, is_ambiguous t = false) run) by (rewrite Hp; apply Hco).
  rewrite (schedule_intro fs [] conc' _ _ [] settled' cs gate' lo' run lock' [] [] [] [] [] []).
  - unfold round_result. do 2 f_equal; rewrite app_nil_r;
      (rewrite (sort_ids_perm (sort_by task_leb run) L); [done|by rewrite Hp'|done]).
  - split; try done.
    + apply (restore_running L).
    + rewrite app_nil_r. eapply Forall_impl; [exact Hk|]. cbn. intros t Ha Hid.
      unfold is_ambiguous in Ha. rewrite (bool_decide_eq_true_2 _ Hid) in Ha. done.
    + apply (rs_caps _ _ _ _ _ _ _ _ _ _ _ _ _ _ _ _ _ _ Hs).
    + by rewrite Hp.
Qed.

Lemma schedule_snapshot_replay_witness :
  ∃ r r', demo_round [demo_A; demo_B; demo_C] = Ok r ∧ length (reservations r) = 2%nat ∧
    schedule demo_fs [] 1 (reservations r) (Some (reservation_snapshot_sha256 r)) [] ∅ demo_caps
      None false = Ok r' ∧ reservations r' = reservations r.
Proof.
  destruct (demo_round [demo_A; demo_B; demo_C]) as [r|e] eqn:E; [|vm_compute in E; discriminate].
  eexists r, _. split; [done|]. split; [vm_compute in E; by injection E as <-|].
  split; [apply (schedule_snapshot_replay _ _ _ _ _ _ _ _ _ _ _ 1 ∅ None false E); [lia|done]|done].
Defined.

(** The depth-first search decides transitive dependence: over tasks with
    distinct ids, [reachable] in their index holds exactly when a non-empty
    chain of [depends_on] edges leads from the one to the other, cycles and
    edges to unknown tasks included.  In particular the search terminates. *)
Theorem dependency_index_reachable tasks a b :
  NoDup (map task_id tasks) →
  reachable (build_dependency_index tasks) a b = true ↔
  tc (λ x y, ∃ t, t ∈ tasks ∧ task_id t = x ∧ y ∈ map dep_task_id (depends_on t)) a b.
Proof.
  intros Hn. rewrite reachable_tc. split; apply tc_impl; intros x y; by apply dep_edge_build_nodup.
Qed.

Lemma dependency_index_reachable_witness :
  let edge i := {| dep_task_id := i; dep_generation := 0; dep_artifact_sha256 := "" |} in
  let ts := [demo_task "X" 0 [] [] [edge "Y"] []; demo_task "Y" 0 [] [] [edge "Z"; edge "X"] []] in
  tc (λ x y, ∃ t, t ∈ ts ∧ task_id t = x ∧ y ∈ map dep_task_id (depends_on t)) "X" "Z".
Proof.
  intros edge ts. apply (dependency_index_reachable ts "X" "Z"); [by_decide|reflexivity].
Defined.

(** The pairwise test does not depend on the order of its arguments,
    whatever the file system answers, the index and the capacities. *)
Theorem can_parallelize_sym fs a b idx cs :
  can_parallelize fs a b idx cs = can_parallelize fs b a idx cs.
Proof.
  unfold can_parallelize. destruct (negb _); [done|]. apply bool_decide_ext, conflict_reason_sym.
Qed.

(** Lock acquisition is all or nothing and exact: from a table recording
    the claims held, it succeeds exactly when every resource can serve the held
    and the new claims together, then recording both; otherwise the rollback
    restores the very table it started from. *)
Theorem try_acquire_all_or_nothing cs tbl held t :
  Forall valid_claim (resources t) → Forall valid_claim held → represents cs tbl held →
  let '(ok, tbl') := try_acquire cs tbl t in
  (ok = true ↔ all_compatible cs (resources t ++ held)) ∧
  (ok = true → represents cs tbl' (resources t ++ held)) ∧
  (ok = false → tbl' = tbl).
Proof.
  intros Ht Hh Hr. pose proof (try_acquire_spec cs tbl held t Ht Hh Hr) as H.
  destruct (try_acquire cs tbl t) as [[] tbl']; [|naive_solver].
  split_and!; [|done..]. split; [intros _; apply H|done].
Qed.

Lemma try_acquire_all_or_nothing_witness :
  (try_acquire demo_caps ∅ demo_C).1 = true ∧
  all_compatible demo_caps (resources demo_C ++ []).
Proof.
  assert (Hv : Forall valid_claim (resources demo_C)).
  { apply List.Forall_cons; [split; cbn; [set_solver|lia]|constructor]. }
  pose proof (try_acquire_all_or_nothing demo_caps ∅ [] demo_C Hv (Forall_nil_2 _)
    (represents_empty demo_caps)) as H.
  assert (E : (try_acquire demo_caps ∅ demo_C).1 = true) by (vm_compute; reflexivity).
  split; [exact E|]. destruct (try_acquire demo_caps ∅ demo_C) as [ok tbl']. cbn in E.
  by apply H.
Defined.

(** A reservation token stands for the whole task: two tasks with the same
    token are equal in every field, or the two texts hashed for them are a
    SHA-256 collision. *)
Theorem reservation_token_binds t u :
  token (_reservation_for t) = token (_reservation_for u) →
  t = u ∨ sha256_collide (dumps true (reservation_material t)) (dumps true (reservation_material u)).
Proof.
  unfold _reservation_for, token. intros H%string_app_inj%sha256_text_inj. destruct H as [H|]; [left|by right].
  apply reservation_material_inj.
  apply dumps_inj in H; [done|apply reservation_material_wf..].
Qed.

Lemma reservation_token_binds_witness :
  token (_reservation_for demo_A) = token (_reservation_for demo_A) ∧
  (demo_A = demo_A ∨ sha256_collide (dumps true (reservation_material demo_A))
                       (dumps true (reservation_material demo_A))).
Proof. split; [reflexivity|]. apply (reservation_token_binds demo_A demo_A). reflexivity. Defined.
