(* ===== verification/Coordination.v ===== *)
(** * The delegation checkpoint store ([coordination.py])

    [CoordinationStore] keeps one JSON file per delegation and one ledger file
    per lineage root.  Its state here is those files: a map from path to the
    record it holds and a map from path to the ledger's JSON.  Every method
    runs under the store lock, so it is a function of the files it finds to a
    value or exception together with the sequence of atomic file writes it
    performs; a crash is a prefix of that sequence.  Records are the ones this
    class writes; reading one back gives it with its result's keys sorted. *)
From S2P Require Import Prelude Regex Sha256 Json Posix Binary64 Lineage.
From S2P Require Router.
From Stdlib Require Import SpecFloat.

#[local] Open Scope Z_scope.

Definition CHECKPOINT_SCHEMA : string := "delegation-checkpoint/v1".
Definition NON_TERMINAL_STATES : list string := ["checkpointed"; "dispatched"].
Definition TERMINAL_STATES : list string := ["settled"; "cancelled"; "stale"].
Definition DEFAULT_TTL_SECONDS : float := float_lit 300.
Definition MAX_TTL_SECONDS : float := float_lit 2592000.
(** [^deleg-[0-9a-f]{32}$] *)
Definition DELEGATION_ID_RE : re := RSeq (rlit "deleg-") (rrep 32 32 hex_class).

Definition _canonical_json (value : list (string * json)) : string := dumps true (JObj value).
Definition _sha256_text (value : string) : string := sha256_hex (encode_utf8 value).

(** The values a caller may pass for [ttl_seconds]. *)
Inductive TtlArg :=
  | TtlNone | TtlBool (b : bool) | TtlInt (z : Z) | TtlFloat (x : float) | TtlOther.

Definition _validate_ttl (ttl_seconds : TtlArg) : res float :=
  match ttl_seconds with
  | TtlNone => Ok DEFAULT_TTL_SECONDS
  | TtlBool _ | TtlOther => Err (Exn DelegationDenied "ttl_seconds must be a finite number")
  | TtlInt _ | TtlFloat _ =>
      value ← match ttl_seconds with TtlInt z => float_of_int z | TtlFloat x => Ok x | _ => Ok S754_nan end;
      raise_if (negb (isfinite value) || float_leb value (S754_zero false) ||
                float_gtb value MAX_TTL_SECONDS) DelegationDenied
        "ttl_seconds must be finite, positive, and at most MAX_TTL_SECONDS";;
      Ok value
  end.

(** [s[:n]] *)
Definition str_take (n : nat) (s : string) : string := String.substring 0 n s.

Definition delegation_material (parent_task_id parent_attempt_id : string) (parent_generation : Z)
    (target_specialist question authority_hash : string) : list (string * json) :=
  [("parent_task_id", JStr parent_task_id);
   ("parent_attempt_id", JStr parent_attempt_id);
   ("parent_generation", JInt parent_generation);
   ("target_specialist", JStr target_specialist);
   ("question", JStr question);
   ("authority_sha256", JStr authority_hash)].

Definition _delegation_id (parent_task_id parent_attempt_id : string) (parent_generation : Z)
    (target_specialist question authority_hash : string) : string :=
  "deleg-" +:+ str_take 32 (_sha256_text (_canonical_json
    (delegation_material parent_task_id parent_attempt_id parent_generation target_specialist
       question authority_hash))).

(** ** The files *)

Record Checkpoint := {
  delegation_id : string;
  parent_task_id : string;
  parent_attempt_id : string;
  parent_generation : Z;
  requester_specialist : string;
  target_specialist : string;
  question : string;
  lineage : DelegationLineage;
  ck_lineage_sha256 : string;
  authority : DelegationAuthority;
  ck_authority_sha256 : string;
  state : string;
  result : json;
  result_sha256 : option string;
  created_at_epoch : float;
  ttl_seconds : float;
  expires_at_epoch : float;
  cancel_reason : option string;
  root_admitted_total : Z
}.

(** [dict(record, state=...)] and the other updates the methods make. *)
Definition with_state (r : Checkpoint) (st : string) : Checkpoint := {|
  delegation_id := delegation_id r; parent_task_id := parent_task_id r;
  parent_attempt_id := parent_attempt_id r; parent_generation := parent_generation r;
  requester_specialist := requester_specialist r; target_specialist := target_specialist r;
  question := question r; lineage := lineage r; ck_lineage_sha256 := ck_lineage_sha256 r;
  authority := authority r; ck_authority_sha256 := ck_authority_sha256 r; state := st;
  result := result r; result_sha256 := result_sha256 r; created_at_epoch := created_at_epoch r;
  ttl_seconds := ttl_seconds r; expires_at_epoch := expires_at_epoch r;
  cancel_reason := cancel_reason r; root_admitted_total := root_admitted_total r
|}.

Definition with_outcome (r : Checkpoint) (res : json) (sha reason : option string) : Checkpoint := {|
  delegation_id := delegation_id r; parent_task_id := parent_task_id r;
  parent_attempt_id := parent_attempt_id r; parent_generation := parent_generation r;
  requester_specialist := requester_specialist r; target_specialist := target_specialist r;
  question := question r; lineage := lineage r; ck_lineage_sha256 := ck_lineage_sha256 r;
  authority := authority r; ck_authority_sha256 := ck_authority_sha256 r; state := state r;
  result := res; result_sha256 := sha; created_at_epoch := created_at_epoch r;
  ttl_seconds := ttl_seconds r; expires_at_epoch := expires_at_epoch r;
  cancel_reason := reason; root_admitted_total := root_admitted_total r
|}.

Record CoordState := {
  checkpoints : gmap string Checkpoint;
  root_ledgers : gmap string json
}.

Definition empty_store : CoordState := {| checkpoints := ∅; root_ledgers := ∅ |}.

(** One [_atomic_write_json]: the file is replaced whole or not at all. *)
Inductive Write :=
  | WLedger (path : string) (payload : json)
  | WRecord (path : string) (record : Checkpoint).

(** What a later read of the written file gives. *)
Definition reread (r : Checkpoint) : Checkpoint :=
  with_outcome r (json_canon (result r)) (result_sha256 r) (cancel_reason r).

Definition _atomic_write_json (s : CoordState) (w : Write) : CoordState :=
  match w with
  | WLedger p v => {| checkpoints := checkpoints s; root_ledgers := <[p := json_canon v]> (root_ledgers s) |}
  | WRecord p r => {| checkpoints := <[p := reread r]> (checkpoints s); root_ledgers := root_ledgers s |}
  end.

Definition apply_writes (s : CoordState) (ws : list Write) : CoordState :=
  fold_left _atomic_write_json ws s.

(** A method's outcome: its value or exception, and the writes it made. *)
Definition Outcome (A : Type) : Type := res A * list Write.

(** Continue with the value of a check or read; an exception writes nothing. *)
Definition attempt {A B} (m : res A) (k : A → Outcome B) : Outcome B :=
  match m with Ok a => k a | Err e => (Err e, []) end.
#[local] Notation "x <-- m ; k" := (attempt m (λ x, k)) (at level 100, m at next level, right associativity).
#[local] Notation "m ;>> k" := (attempt m (λ _, k)) (at level 100, right associativity).

Section store.
Context (state_dir : string).

(** ** Paths *)

Definition checkpoint_dir : string := path_div state_dir "delegation-checkpoints".

Definition _path (delegation_id : string) : res string :=
  raise_if (negb (fullmatch DELEGATION_ID_RE delegation_id)) DelegationDenied "invalid delegation id";;
  let candidate := path_div checkpoint_dir (delegation_id +:+ ".json") in
  let normalized_candidate := normpath candidate in
  let normalized_checkpoint_dir := normpath checkpoint_dir in
  common ← commonpath normalized_candidate normalized_checkpoint_dir;
  raise_if (negb (bool_decide (common = normalized_checkpoint_dir))) DelegationDenied
    "delegation id escapes the checkpoint store";;
  Ok candidate.

Definition _root_ledger_path (originating_parent : string) : string :=
  path_div (path_div state_dir "delegation-root-ledgers")
    ("root-" +:+ str_take 32 (_sha256_text originating_parent) +:+ ".json").

(** ** The trusted root ledger *)

Definition _read_root_ledger (s : CoordState) (originating_parent : string) : res Z :=
  match root_ledgers s !! _root_ledger_path originating_parent with
  | None => Ok 0
  | Some payload =>
      value ← get_item payload "total_delegations_admitted";
      match value with
      | JInt z => raise_if (z <? 0) DelegationDenied "corrupt trusted root delegation ledger";; Ok z
      | _ => Err (Exn DelegationDenied "corrupt trusted root delegation ledger")
      end
  end.

Definition _write_root_ledger (originating_parent : string) (total : Z) : Write :=
  WLedger (_root_ledger_path originating_parent)
    (JObj [("originating_parent", JStr originating_parent);
           ("total_delegations_admitted", JInt total)]).

Definition records (s : CoordState) : list Checkpoint := (map_to_list (checkpoints s)).*2.

Definition _lineage_previously_admitted (s : CoordState) (l : DelegationLineage) : bool :=
  existsb (λ r, bool_decide (ck_lineage_sha256 r = lineage_sha256 l)) (records s).

Definition _trusted_root_identity (s : CoordState) (l : DelegationLineage) (parent_task_id : string) :
    res string :=
  if chain_depth l =? 0 then
    raise_if (negb (bool_decide (originating_parent l = parent_task_id))) DelegationDenied
      "lineage forgery: a root-level lineage's originating_parent must equal the acting parent_task_id";;
    Ok parent_task_id
  else
    raise_if (negb (_lineage_previously_admitted s l)) DelegationDenied
      "lineage forgery: a non-root lineage was presented that this store never advanced";;
    Ok (originating_parent l).

Definition get (s : CoordState) (delegation_id : string) : res (option Checkpoint) :=
  p ← _path delegation_id; Ok (checkpoints s !! p).

Definition _require (s : CoordState) (delegation_id : string) : res Checkpoint :=
  r ← get s delegation_id;
  match r with
  | Some r => Ok r
  | None => Err (Exn DelegationDenied "unknown delegation")
  end.

Definition in_flight_of (parent : string) (r : Checkpoint) : bool :=
  bool_decide (state r ∈ NON_TERMINAL_STATES) && bool_decide (parent_task_id r = parent).

Definition _count_in_flight (s : CoordState) (parent : string) : Z :=
  Z.of_nat (length (List.filter (in_flight_of parent) (records s))).

(** ** The methods *)

(** The keyword arguments of [checkpoint], and the clock's reading. *)
Record Request := {
  rq_parent_task_id : string;
  rq_parent_attempt_id : string;
  rq_parent_generation : Z;
  rq_requester_specialist : string;
  rq_target_specialist : string;
  rq_question : string;
  rq_lineage : DelegationLineage;
  rq_budget : LineageBudget;
  rq_authority : DelegationAuthority;
  rq_ttl_seconds : TtlArg;
  rq_now : float
}.

Definition request_id (q : Request) : string :=
  _delegation_id (rq_parent_task_id q) (rq_parent_attempt_id q) (rq_parent_generation q)
    (rq_target_specialist q) (rq_question q) (authority_sha256 (rq_authority q)).

(** The record [checkpoint] builds. *)
Definition new_record (q : Request) (advanced : DelegationLineage) (ttl : float) (total : Z) :
    Checkpoint := {|
  delegation_id := request_id q;
  parent_task_id := rq_parent_task_id q;
  parent_attempt_id := rq_parent_attempt_id q;
  parent_generation := rq_parent_generation q;
  requester_specialist := rq_requester_specialist q;
  target_specialist := rq_target_specialist q;
  question := rq_question q;
  lineage := advanced;
  ck_lineage_sha256 := lineage_sha256 advanced;
  authority := rq_authority q;
  ck_authority_sha256 := authority_sha256 (rq_authority q);
  state := "checkpointed";
  result := JNull;
  result_sha256 := None;
  created_at_epoch := rq_now q;
  ttl_seconds := ttl;
  expires_at_epoch := float_add (rq_now q) ttl;
  cancel_reason := None;
  root_admitted_total := total
|}.

Definition checkpoint (s : CoordState) (q : Request) : Outcome Checkpoint :=
  raise_if (rq_parent_generation q <=? 0) ValueError "parent_generation must be a positive integer" ;>>
  ttl <-- _validate_ttl (rq_ttl_seconds q) ;
  authority_validate (rq_authority q) ;>>
  existing <-- get s (request_id q) ;
  match existing with
  | Some r => (Ok r, [])
  | None =>
      raise_if (max_children_per_delegation (rq_budget q) <=? _count_in_flight s (rq_parent_task_id q))
        DelegationDenied "concurrency exceeded" ;>>
      trusted_root <-- _trusted_root_identity s (rq_lineage q) (rq_parent_task_id q) ;
      advanced <-- advance (rq_lineage q) (rq_target_specialist q) (rq_budget q) ;
      current_root_total <-- _read_root_ledger s trusted_root ;
      let new_root_total := current_root_total + 1 in
      raise_if (max_total_delegations (rq_budget q) <? new_root_total) DelegationDenied
        "global budget exhausted (trusted ledger)" ;>>
      let record := new_record q advanced ttl new_root_total in
      p <-- _path (request_id q) ;
      (Ok record, [_write_root_ledger trusted_root new_root_total; WRecord p record])
  end.

Definition dispatched (s : CoordState) (delegation_id : string) : Outcome Checkpoint :=
  record <-- _require s delegation_id ;
  if negb (bool_decide (state record = "checkpointed")) then (Ok record, [])
  else
    let record := with_state record "dispatched" in
    p <-- _path delegation_id ;
    (Ok record, [WRecord p record]).

Definition inject_result (s : CoordState) (delegation_id : string) (parent_gen : Z)
    (res_payload : list (string * json)) (claimed_sha256 : string) (now : float) : Outcome Checkpoint :=
  record <-- _require s delegation_id ;
  raise_if (negb (parent_generation record =? parent_gen)) DelegationDenied
    "parent generation mismatch" ;>>
  if bool_decide (state record = "settled") then
    if bool_decide (result_sha256 record = Some claimed_sha256) then (Ok record, [])
    else (Err (Exn DelegationDenied "already settled with a different result"), [])
  else
    raise_if (bool_decide (state record ∈ ["cancelled"; "stale"])) DelegationDenied
      "cannot inject result into a terminal checkpoint" ;>>
    raise_if (negb (bool_decide (state record = "dispatched"))) DelegationDenied
      "cannot settle before dispatch" ;>>
    p <-- _path delegation_id ;
    if float_geb now (expires_at_epoch record) then
      (Err (Exn DelegationDenied "checkpoint expired (late return fenced)"),
       [WRecord p (with_state record "stale")])
    else
      let actual_sha256 := _sha256_text (_canonical_json res_payload) in
      same <-- compare_digest actual_sha256 claimed_sha256 ;
      raise_if (negb same) DelegationDenied "result hash mismatch" ;>>
      let record := with_outcome (with_state record "settled") (JObj res_payload)
                      (Some claimed_sha256) (cancel_reason record) in
      (Ok record, [WRecord p record]).

Definition cancel (s : CoordState) (delegation_id reason : string) : Outcome Checkpoint :=
  record <-- _require s delegation_id ;
  if bool_decide (state record ∈ TERMINAL_STATES) then (Ok record, [])
  else
    let record := with_outcome (with_state record "cancelled") (result record)
                    (result_sha256 record) (Some reason) in
    p <-- _path delegation_id ;
    (Ok record, [WRecord p record]).

(** [sweep_expired]'s loop over the sorted record files. *)
Fixpoint sweep_loop (moment : float) (paths : list string) (s : CoordState) :
    list Checkpoint * list Write :=
  match paths with
  | [] => ([], [])
  | path :: paths =>
      match checkpoints s !! path with
      | None => sweep_loop moment paths s
      | Some record =>
          if negb (bool_decide (state record ∈ NON_TERMINAL_STATES)) then sweep_loop moment paths s
          else if float_geb moment (expires_at_epoch record) then
            let record := with_state record "stale" in
            let '(expired, ws) := sweep_loop moment paths (_atomic_write_json s (WRecord path record)) in
            (record :: expired, WRecord path record :: ws)
          else sweep_loop moment paths s
      end
  end.

Definition sweep_expired (s : CoordState) (moment : float) : list Checkpoint * list Write :=
  sweep_loop moment (sort_strings (map_to_list (checkpoints s)).*1) s.

(** ** Executions *)

Inductive Op :=
  | OpCheckpoint (q : Request)
  | OpDispatched (id : string)
  | OpInject (id : string) (gen : Z) (res_payload : list (string * json)) (sha : string) (now : float)
  | OpCancel (id reason : string)
  | OpSweep (moment : float).

Definition op_writes (s : CoordState) (op : Op) : list Write :=
  match op with
  | OpCheckpoint q => (checkpoint s q).2
  | OpDispatched id => (dispatched s id).2
  | OpInject id gen payload sha now => (inject_result s id gen payload sha now).2
  | OpCancel id reason => (cancel s id reason).2
  | OpSweep moment => (sweep_expired s moment).2
  end.

(** One call, cut short after [n] writes when the process dies there. *)
Definition step (s : CoordState) (call : Op * nat) : CoordState :=
  apply_writes s (take call.2 (op_writes s call.1)).

Definition run (s : CoordState) (calls : list (Op * nat)) : CoordState := fold_left step calls s.
End store.

(** ** A delegation as a board task *)

Definition delegation_board_task (c : Checkpoint) : Router.BoardTask := {|
  Router.task_id := delegation_id c;
  Router.write_paths := [];
  Router.read_paths := sorted_set (read_paths (authority c));
  Router.depends_on := [];
  Router.resources := map (λ p, {| Router.resource_class := p.1; Router.target := p.2;
                                   Router.mode := "read"; Router.units := 1 |})
                        (sorted_pairs (resources (authority c)));
  Router.worktree_root := "";
  Router.metadata_complete := true;
  Router.priority := 0
|}.
