(* ===== verification/CoordLemmas.v ===== *)
(** * The checkpoint store: what one call can do

    The admission conditions of [checkpoint], the evolution of a record, and
    the classification of every call, cut short anywhere, as nothing, a ledger
    reservation, an admission, or updates of existing records. *)
From S2P Require Import Prelude Regex Sha256 Json Posix Binary64 Lineage Coordination.
From Stdlib Require Import SpecFloat.

#[local] Open Scope Z_scope.

Section lemmas.
Context (sd : string).

(** Everything [checkpoint] requires before it writes. *)
Record admits (s : CoordState) (q : Request) (root : string) (adv : DelegationLineage)
    (ttl : float) (cur : Z) (p : string) : Prop := {
  adm_gen : 0 < rq_parent_generation q;
  adm_ttl : _validate_ttl (rq_ttl_seconds q) = Ok ttl;
  adm_auth : authority_validate (rq_authority q) = Ok tt;
  adm_path : _path sd (request_id q) = Ok p;
  adm_fresh : checkpoints s !! p = None;
  adm_flight : _count_in_flight s (rq_parent_task_id q) < max_children_per_delegation (rq_budget q);
  adm_root : _trusted_root_identity s (rq_lineage q) (rq_parent_task_id q) = Ok root;
  adm_adv : advance (rq_lineage q) (rq_target_specialist q) (rq_budget q) = Ok adv;
  adm_ledger : _read_root_ledger sd s root = Ok cur;
  adm_total : cur + 1 <= max_total_delegations (rq_budget q)
}.

Definition admission_writes (q : Request) (root : string) (adv : DelegationLineage) (ttl : float)
    (cur : Z) (p : string) : list Write :=
  [_write_root_ledger sd root (cur + 1); WRecord p (new_record q adv ttl (cur + 1))].

Lemma attempt_inv {A B} (m : res A) (k : A → Outcome B) r ws :
  attempt m k = (r, ws) →
  (∃ a, m = Ok a ∧ k a = (r, ws)) ∨ (∃ e, m = Err e ∧ r = Err e ∧ ws = []).
Proof. destruct m as [a|e]; cbn; [eauto|]. intros [= <- <-]. right. eauto. Qed.

Lemma attempt_Ok {A B} (m : res A) (k : A → Outcome B) a : m = Ok a → attempt m k = k a.
Proof. by intros ->. Qed.

Lemma get_Ok s id o : get sd s id = Ok o ↔ ∃ p, _path sd id = Ok p ∧ checkpoints s !! p = o.
Proof.
  unfold get. rewrite bind_Ok. split.
  - intros (p & ? & [= <-]). eauto.
  - intros (p & ? & <-). eauto.
Qed.

Lemma checkpoint_inv s q r ws :
  checkpoint sd s q = (r, ws) →
  (∃ root adv ttl cur p, admits s q root adv ttl cur p ∧
     r = Ok (new_record q adv ttl (cur + 1)) ∧ ws = admission_writes q root adv ttl cur p) ∨
  (ws = [] ∧ ∀ x, r = Ok x → get sd s (request_id q) = Ok (Some x)).
Proof.
  unfold checkpoint. intros H.
  repeat match goal with
  | E : attempt _ _ = _ |- _ =>
      apply attempt_inv in E as [(? & ? & E)|(? & ? & -> & ->)]; [|by right]
  | E : (match ?x with Some _ => _ | None => _ end) = _ |- _ =>
      destruct x eqn:?; [injection E as <- <-; right; split; [done|]; intros ? [= <-]; done|]
  end.
  subst. injection H as <- <-. left.
  repeat match goal with
  | E : raise_if _ _ _ = Ok _ |- _ => apply raise_if_Ok in E
  | u : unit |- _ => destruct u
  | E : get _ _ _ = Ok _ |- _ => apply get_Ok in E as (? & ? & ?)
  end. bool_inv. simplify_eq.
  match goal with E1 : _path _ _ = Ok ?a, E2 : _path _ _ = Ok ?b |- _ =>
    assert (a = b) as -> by congruence end.
  do 5 eexists. split; [by split; eauto; lia|]. done.
Qed.

Lemma checkpoint_admits s q root adv ttl cur p :
  admits s q root adv ttl cur p →
  checkpoint sd s q = (Ok (new_record q adv ttl (cur + 1)), admission_writes q root adv ttl cur p).
Proof.
  intros []. unfold checkpoint.
  rewrite (attempt_Ok _ _ tt) by (apply raise_if_Ok, Z.leb_gt; done).
  rewrite (attempt_Ok _ _ ttl) by done. rewrite (attempt_Ok _ _ tt) by done.
  rewrite (attempt_Ok _ _ None) by (apply get_Ok; eauto).
  rewrite (attempt_Ok _ _ tt) by (apply raise_if_Ok, Z.leb_gt; done).
  rewrite (attempt_Ok _ _ root), (attempt_Ok _ _ adv), (attempt_Ok _ _ cur) by done.
  rewrite (attempt_Ok _ _ tt) by (apply raise_if_Ok, Z.ltb_ge; done).
  by rewrite (attempt_Ok _ _ p).
Qed.

(** ** How a record evolves *)

Inductive evolves (r : Checkpoint) : Checkpoint → Prop :=
  | ev_dispatch : state r = "checkpointed" → evolves r (with_state r "dispatched")
  | ev_settle payload sha :
      state r = "dispatched" →
      evolves r (with_outcome (with_state r "settled") payload sha (cancel_reason r))
  | ev_cancel reason :
      state r ∈ NON_TERMINAL_STATES →
      evolves r (with_outcome (with_state r "cancelled") (result r) (result_sha256 r) reason)
  | ev_stale : state r ∈ NON_TERMINAL_STATES → evolves r (with_state r "stale").

(** One record file replaced by its successor. *)
Inductive update (s : CoordState) : CoordState → Prop :=
  | update_intro p r r' :
      checkpoints s !! p = Some r → evolves r r' → update s (_atomic_write_json s (WRecord p r')).

(** States a record can be in. *)
Definition known_states (s : CoordState) : Prop :=
  map_Forall (λ _ r, state r ∈ NON_TERMINAL_STATES ∨ state r ∈ TERMINAL_STATES) (checkpoints s).

Lemma evolves_state r r' :
  evolves r r' → state r ∈ NON_TERMINAL_STATES ∧
  (state r' ∈ NON_TERMINAL_STATES ∨ state r' ∈ TERMINAL_STATES).
Proof. destruct 1 as [H|? ? H| |]; rewrite ?H; cbn; split; try done; set_solver. Qed.

Lemma require_inv s id r : _require sd s id = Ok r → ∃ p, _path sd id = Ok p ∧ checkpoints s !! p = Some r.
Proof.
  unfold _require. intros (o & Ho & H)%bind_Ok. destruct o; [|done]. injection H as <-.
  by apply get_Ok.
Qed.

Lemma require_intro s id r p : _path sd id = Ok p → checkpoints s !! p = Some r → _require sd s id = Ok r.
Proof.
  intros Hp Hr. unfold _require. apply (bind_intro _ _ (Some r)); [|done]. apply get_Ok. eauto.
Qed.

Lemma dispatched_writes s id r ws :
  dispatched sd s id = (r, ws) →
  ws = [] ∨ ∃ p rec, checkpoints s !! p = Some rec ∧ state rec = "checkpointed" ∧
    ws = [WRecord p (with_state rec "dispatched")].
Proof.
  unfold dispatched. intros [(rec & (p & Hp & Hr)%require_inv & H)|(? & ? & _ & ->)]%attempt_inv; [|by left].
  destruct (negb _) eqn:E; [injection H as _ <-; by left|]. bool_inv.
  rewrite (attempt_Ok _ _ p) in H by done. injection H as _ <-. right. eauto.
Qed.

Lemma cancel_writes s id reason r ws :
  known_states s → cancel sd s id reason = (r, ws) →
  ws = [] ∨ ∃ p rec, checkpoints s !! p = Some rec ∧ state rec ∈ NON_TERMINAL_STATES ∧
    ws = [WRecord p (with_outcome (with_state rec "cancelled") (result rec) (result_sha256 rec) (Some reason))].
Proof.
  intros Hk. unfold cancel.
  intros [(rec & (p & Hp & Hr)%require_inv & H)|(? & ? & _ & ->)]%attempt_inv; [|by left].
  destruct (bool_decide _) eqn:E; [injection H as _ <-; by left|]. bool_inv.
  rewrite (attempt_Ok _ _ p) in H by done. injection H as _ <-. right.
  exists p, rec. split; [done|]. split; [|done]. destruct (Hk p rec Hr); done.
Qed.

Lemma inject_writes s id gen payload sha now r ws :
  inject_result sd s id gen payload sha now = (r, ws) →
  ws = [] ∨ ∃ p rec, checkpoints s !! p = Some rec ∧ state rec = "dispatched" ∧
    (ws = [WRecord p (with_state rec "stale")] ∨
     ws = [WRecord p (with_outcome (with_state rec "settled") (JObj payload) (Some sha) (cancel_reason rec))]).
Proof.
  unfold inject_result.
  intros [(rec & (p & Hp & Hr)%require_inv & H)|(? & ? & _ & ->)]%attempt_inv; [|by left].
  apply attempt_inv in H as [(_ & _ & H)|(? & ? & _ & ->)]; [|by left].
  destruct (bool_decide (state rec = "settled")).
  { destruct (bool_decide _); injection H as _ <-; by left. }
  apply attempt_inv in H as [(_ & _ & H)|(? & ? & _ & ->)]; [|by left].
  apply attempt_inv in H as [(_ & Hd%raise_if_Ok & H)|(? & ? & _ & ->)]; [|by left]. bool_inv.
  rewrite (attempt_Ok _ _ p) in H by done.
  destruct (float_geb now (expires_at_epoch rec)).
  { injection H as _ <-. right. eauto 10. }
  apply attempt_inv in H as [(same & _ & H)|(? & ? & _ & ->)]; [|by left].
  apply attempt_inv in H as [(_ & _ & H)|(? & ? & _ & ->)]; [|by left].
  injection H as _ <-. right. eauto 10.
Qed.

(** ** The sweep *)

Definition expired_at (moment : float) (r : Checkpoint) : bool :=
  bool_decide (state r ∈ NON_TERMINAL_STATES) && float_geb moment (expires_at_epoch r).

(** The file a sweep rewrites at [p], if it does. *)
Definition sweep_hit (moment : float) (s : CoordState) (p : string) : option (string * Checkpoint) :=
  match checkpoints s !! p with
  | Some r => if expired_at moment r then Some (p, with_state r "stale") else None
  | None => None
  end.

(** On distinct paths the loop treats each file as it was at the start. *)
Lemma sweep_loop_spec moment paths s :
  NoDup paths →
  sweep_loop moment paths s =
  let hits := omap (sweep_hit moment s) paths in (hits.*2, map (λ h, WRecord h.1 h.2) hits).
Proof.
  intros Hn. revert s. induction Hn as [|p paths Hp Hn IH]; intros s; [done|].
  assert (Hh : sweep_hit moment s p =
    match checkpoints s !! p with
    | Some r => if expired_at moment r then Some (p, with_state r "stale") else None
    | None => None end) by done.
  cbn [sweep_loop omap list_omap]. rewrite Hh.
  destruct (checkpoints s !! p) as [r|] eqn:Er; [|apply IH].
  unfold expired_at. destruct (bool_decide (state r ∈ NON_TERMINAL_STATES)); cbn [negb andb]; [|apply IH].
  destruct (float_geb moment (expires_at_epoch r)); [|apply IH].
  rewrite IH. set (s' := _atomic_write_json _ _).
  assert (omap (sweep_hit moment s') paths = omap (sweep_hit moment s) paths) as ->; [|done].
  apply list_omap_ext, Forall_Forall2_diag, Forall_forall. intros x Hx.
  unfold sweep_hit. cbn. rewrite lookup_insert_ne; [done|]. by intros <-.
Qed.

Lemma sweep_paths_nodup s : NoDup (sort_strings (map_to_list (checkpoints s)).*1).
Proof. rewrite sort_strings_perm. apply NoDup_fst_map_to_list. Qed.

(** Writing successors of records at distinct paths, in any prefix. *)
Lemma update_many (s : CoordState) (hits : list (string * Checkpoint)) :
  NoDup hits.*1 →
  Forall (λ h, ∃ r, checkpoints s !! h.1 = Some r ∧ evolves r h.2) hits →
  rtc update s (apply_writes s (map (λ h, WRecord h.1 h.2) hits)).
Proof.
  revert s. induction hits as [|[p r'] hits IH]; intros s; [constructor|].
  cbn [fmap list_fmap fst]. intros [Hp Hn]%NoDup_cons [(r & Hr & He) Hf]%Forall_cons.
  eapply rtc_l; [by eapply update_intro|]. cbn. apply IH; [done|].
  rewrite Forall_forall in Hf |- *. intros [p2 r2] Hin. destruct (Hf _ Hin) as (r0 & Hr0 & He0).
  exists r0. split; [|done]. cbn. rewrite lookup_insert_ne; [done|]. intros <-. apply Hp.
  by apply (list_elem_of_fmap_2 fst) in Hin.
Qed.

Lemma sweep_hits moment s :
  ∃ hits : list (string * Checkpoint),
    sweep_expired s moment = (hits.*2, map (λ h, WRecord h.1 h.2) hits) ∧ NoDup hits.*1 ∧
    Forall (λ h, ∃ r, checkpoints s !! h.1 = Some r ∧ expired_at moment r = true ∧ h.2 = with_state r "stale") hits.
Proof.
  unfold sweep_expired. rewrite sweep_loop_spec by apply sweep_paths_nodup.
  set (f := sweep_hit moment s). set (paths := sort_strings _). exists (omap f paths). split; [done|].
  assert (Hf : ∀ p h, f p = Some h → h.1 = p ∧
    ∃ r, checkpoints s !! p = Some r ∧ expired_at moment r = true ∧ h.2 = with_state r "stale").
  { intros p h. unfold f, sweep_hit. destruct (checkpoints s !! p) as [r|]; [|done].
    destruct (expired_at moment r) eqn:E; [|done]. intros [= <-]. split; [done|]. by exists r. }
  split.
  - assert (Hsub : (omap f paths).*1 `sublist_of` paths).
    { clearbody paths. induction paths as [|p l IH]; [constructor|]. cbn.
      destruct (f p) as [h|] eqn:E; [|by apply sublist_cons].
      destruct (Hf _ _ E) as [<- _]. by apply sublist_skip. }
    eapply sublist_NoDup; [apply sweep_paths_nodup|exact Hsub].
  - rewrite Forall_forall. intros h Hh. apply list_elem_of_omap in Hh as (p & _ & E).
    destruct (Hf _ _ E) as [-> ?]. done.
Qed.

(** The complete sweep, file by file. *)
Lemma sweep_writes_apply moment paths s s0 :
  NoDup paths → (∀ p, p ∈ paths → checkpoints s !! p = checkpoints s0 !! p) →
  let s' := apply_writes s (map (λ h, WRecord h.1 h.2) (omap (sweep_hit moment s0) paths)) in
  root_ledgers s' = root_ledgers s ∧
  ∀ p, checkpoints s' !! p =
    if decide (p ∈ paths)
    then (λ r, if expired_at moment r then reread (with_state r "stale") else r) <$> checkpoints s !! p
    else checkpoints s !! p.
Proof.
  intros Hn. revert s. induction Hn as [|q paths Hq Hn IH]; intros s Hs; cbn [omap list_omap].
  { split; [done|]. intros p. by rewrite decide_False by apply not_elem_of_nil. }
  assert (Hpq : ∀ p, p ∈ paths → p ≠ q) by (intros p Hp ->; done).
  assert (Hh : sweep_hit moment s0 q = match checkpoints s !! q with
    | Some r => if expired_at moment r then Some (q, with_state r "stale") else None | None => None end).
  { unfold sweep_hit. rewrite <- (Hs q); [done|by left]. }
  rewrite Hh.
  assert (Hkeep : match checkpoints s !! q with Some r => expired_at moment r = false | None => True end →
    ∀ p, (if decide (p ∈ q :: paths)
      then (λ r, if expired_at moment r then reread (with_state r "stale") else r) <$> checkpoints s !! p
      else checkpoints s !! p) =
    (if decide (p ∈ paths)
      then (λ r, if expired_at moment r then reread (with_state r "stale") else r) <$> checkpoints s !! p
      else checkpoints s !! p)).
  { intros Hk p. destruct (decide (p = q)) as [->|Hne].
    - rewrite decide_True by by left. rewrite decide_False by done.
      destruct (checkpoints s !! q) as [r|]; [|done]. cbn. by rewrite Hk.
    - repeat case_decide; try done; rewrite ?elem_of_cons in *; tauto. }
  destruct (checkpoints s !! q) as [r|] eqn:Er; [destruct (expired_at moment r) eqn:Ee|].
  - cbn [map apply_writes fold_left fst snd]. set (s1 := _atomic_write_json s _).
    destruct (IH s1) as [H1 H2].
    { intros p Hp. unfold s1. cbn. rewrite lookup_insert_ne by (symmetry; by apply Hpq). apply Hs. by right. }
    split; [exact H1|]. intros p. rewrite H2. unfold s1. cbn [checkpoints _atomic_write_json].
    destruct (decide (p = q)) as [->|Hne].
    + rewrite lookup_insert_eq, decide_False by done. rewrite decide_True by by left.
      rewrite Er. cbn. by rewrite Ee.
    + rewrite lookup_insert_ne by done. repeat case_decide; try done; rewrite ?elem_of_cons in *; tauto.
  - destruct (IH s) as [H1 H2]; [intros p Hp; apply Hs; by right|]. split; [done|].
    intros p. rewrite H2. symmetry. by apply Hkeep.
  - destruct (IH s) as [H1 H2]; [intros p Hp; apply Hs; by right|]. split; [done|].
    intros p. rewrite H2. symmetry. by apply Hkeep.
Qed.

Lemma sweep_writes_all moment paths s :
  NoDup paths → (∀ p r, checkpoints s !! p = Some r → p ∈ paths) →
  let s' := apply_writes s (map (λ h, WRecord h.1 h.2) (omap (sweep_hit moment s) paths)) in
  checkpoints s' =
    (λ r, if expired_at moment r then reread (with_state r "stale") else r) <$> checkpoints s ∧
  root_ledgers s' = root_ledgers s.
Proof.
  intros Hn Hall. destruct (sweep_writes_apply moment paths s s Hn) as [H1 H2]; [done|].
  split; [|done]. apply map_eq. intros p. rewrite H2, lookup_fmap. case_decide as Hp; [done|].
  destruct (checkpoints s !! p) as [r|] eqn:E; [|done]. by destruct (Hp (Hall p r E)).
Qed.

(** ** Every call, cut short anywhere *)

Variant effect (s : CoordState) : Op → CoordState → Prop :=
  | ef_none op : effect s op s
  | ef_reserve q root adv ttl cur p :
      admits s q root adv ttl cur p →
      ∀ s', s' = _atomic_write_json s (_write_root_ledger sd root (cur + 1)) →
      effect s (OpCheckpoint q) s'
  | ef_admit q root adv ttl cur p :
      admits s q root adv ttl cur p →
      ∀ s', s' = apply_writes s (admission_writes q root adv ttl cur p) →
      effect s (OpCheckpoint q) s'
  | ef_update op s' : rtc update s s' → effect s op s'.

Lemma effect_single s op p r r' n :
  checkpoints s !! p = Some r → evolves r r' → effect s op (apply_writes s (take n [WRecord p r'])).
Proof.
  intros Hr He. destruct n; [apply ef_none|]. cbn. rewrite take_nil.
  apply ef_update, rtc_once. by eapply update_intro.
Qed.

Lemma step_effect s op n : known_states s → effect s op (step sd s (op, n)).
Proof.
  intros Hk. unfold step. cbn [fst snd]. destruct op as [q|id|id gen payload sha now|id reason|moment]; cbn [op_writes].
  - destruct (checkpoint sd s q) as [r ws] eqn:E. apply checkpoint_inv in E as
      [(root & adv & ttl & cur & p & Ha & _ & ->)|[-> _]]; cbn [snd].
    + destruct n as [|[|n]]; cbn [take admission_writes]; [apply ef_none|by eapply ef_reserve|].
      rewrite take_nil. by eapply ef_admit.
    + rewrite take_nil. apply ef_none.
  - destruct (dispatched sd s id) as [r ws] eqn:E. apply dispatched_writes in E as
      [->|(p & rec & Hr & Hs & ->)]; cbn [snd]; [rewrite take_nil; apply ef_none|].
    eapply effect_single; [done|]. by constructor.
  - destruct (inject_result sd s id gen payload sha now) as [r ws] eqn:E. apply inject_writes in E as
      [->|(p & rec & Hr & Hs & Hw)]; cbn [snd]; [rewrite take_nil; apply ef_none|].
    destruct Hw as [->| ->]; (eapply effect_single; [done|]).
    + apply ev_stale. rewrite Hs. set_solver.
    + by apply ev_settle.
  - destruct (cancel sd s id reason) as [r ws] eqn:E. apply cancel_writes in E as
      [->|(p & rec & Hr & Hs & ->)]; cbn [snd]; [rewrite take_nil; apply ef_none| |done].
    eapply effect_single; [done|]. by apply ev_cancel.
  - destruct (sweep_hits moment s) as (hits & -> & Hn & Hf). cbn [snd]. apply ef_update.
    change (map (λ h, WRecord h.1 h.2) hits) with ((λ h : string * Checkpoint, WRecord h.1 h.2) <$> hits). rewrite <- fmap_take. apply update_many.
    + eapply sublist_NoDup; [exact Hn|]. apply fmap_sublist, sublist_take.
    + apply Forall_take. eapply Forall_impl; [exact Hf|]. intros h (r & ? & He & ->).
      exists r. split; [done|]. apply ev_stale. unfold expired_at in He. bool_inv. done.
Qed.
End lemmas.
