(* ===== verification/CoordProps.v ===== *)
(** * Properties of the delegation checkpoint store

    Invariants of every store the code can leave behind, crashes included, and
    the behaviour of each method on each branch. *)
From S2P Require Import Prelude Regex Sha256 Json Posix Binary64 Lineage Coordination CoordLemmas.
From S2P Require Router.
From Stdlib Require Import SpecFloat.

#[local] Open Scope Z_scope.

(** ** Vocabulary *)

(** The records of one lineage root. *)
Definition admitted_from (root : string) (r : Checkpoint) : bool :=
  bool_decide (originating_parent (lineage r) = root).

Definition count_records (p : Checkpoint → bool) (s : CoordState) : Z :=
  Z.of_nat (length (List.filter p (records s))).

(** The budgets the calls were made under. *)
Definition budgets_within (max_total max_children : Z) (calls : list (Op * nat)) : Prop :=
  Forall (λ c, match c.1 with
               | OpCheckpoint q => max_total_delegations (rq_budget q) <= max_total ∧
                                   max_children_per_delegation (rq_budget q) <= max_children
               | _ => True
               end) calls.

(** The lineages the calls present, and those they advance to. *)
Definition lineages_of (calls : list (Op * nat)) : list DelegationLineage :=
  concat (map (λ c, match c.1 with
    | OpCheckpoint q =>
        rq_lineage q ::
        match advance (rq_lineage q) (rq_target_specialist q) (rq_budget q) with
        | Ok adv => [adv]
        | Err _ => []
        end
    | _ => []
    end) calls).

(** The parts of a record no method changes. *)
Definition same_request (r r' : Checkpoint) : Prop :=
  delegation_id r' = delegation_id r ∧ parent_task_id r' = parent_task_id r ∧
  parent_attempt_id r' = parent_attempt_id r ∧ parent_generation r' = parent_generation r ∧
  requester_specialist r' = requester_specialist r ∧ target_specialist r' = target_specialist r ∧
  question r' = question r ∧ lineage r' = lineage r ∧ ck_lineage_sha256 r' = ck_lineage_sha256 r ∧
  authority r' = authority r ∧ ck_authority_sha256 r' = ck_authority_sha256 r ∧
  created_at_epoch r' = created_at_epoch r ∧ ttl_seconds r' = ttl_seconds r ∧
  expires_at_epoch r' = expires_at_epoch r ∧ root_admitted_total r' = root_admitted_total r.

(** The edges of a record's life. *)
Definition state_edges : list (string * string) :=
  [("checkpointed", "dispatched"); ("dispatched", "settled");
   ("checkpointed", "cancelled"); ("dispatched", "cancelled");
   ("checkpointed", "stale"); ("dispatched", "stale")].

(** What a delegation id is meant to stand for, and the texts it hashes. *)
Definition same_binding (q q' : Request) : Prop :=
  rq_parent_task_id q = rq_parent_task_id q' ∧ rq_parent_attempt_id q = rq_parent_attempt_id q' ∧
  rq_parent_generation q = rq_parent_generation q' ∧
  rq_target_specialist q = rq_target_specialist q' ∧ rq_question q = rq_question q' ∧
  rq_authority q = rq_authority q'.

Definition request_text (q : Request) : string :=
  _canonical_json (delegation_material (rq_parent_task_id q) (rq_parent_attempt_id q)
    (rq_parent_generation q) (rq_target_specialist q) (rq_question q) (authority_sha256 (rq_authority q))).

Definition scope_text (q : Request) : string := dumps true (JObj (authority_to_dict (rq_authority q))).

(** ** Counting records *)

Lemma count_empty p : count_records p empty_store = 0.
Proof. unfold count_records, records. cbn [checkpoints empty_store]. by rewrite map_to_list_empty. Qed.

Lemma count_insert p s path r :
  checkpoints s !! path = None →
  count_records p (_atomic_write_json s (WRecord path r)) =
  (if p (reread r) then 1 else 0) + count_records p s.
Proof.
  intros Hf. unfold count_records, records. cbn [checkpoints _atomic_write_json].
  rewrite (filter_length_perm p _ (reread r :: (map_to_list (checkpoints s)).*2))
    by (by rewrite map_to_list_insert).
  cbn. destruct (p (reread r)); cbn [length]; lia.
Qed.

Lemma count_replace p s path r r' :
  checkpoints s !! path = Some r →
  count_records p (_atomic_write_json s (WRecord path r')) + (if p r then 1 else 0) =
  (if p (reread r') then 1 else 0) + count_records p s.
Proof.
  intros Hr. set (s0 := {| checkpoints := delete path (checkpoints s); root_ledgers := root_ledgers s |}).
  assert (H1 : count_records p s = (if p r then 1 else 0) + count_records p s0).
  { unfold count_records, records, s0. cbn [checkpoints].
    rewrite (filter_length_perm p _ (r :: (map_to_list (delete path (checkpoints s))).*2))
      by (by rewrite <- (map_to_list_delete (checkpoints s) path r Hr)).
    cbn. destruct (p r); cbn [length]; lia. }
  assert (H2 : count_records p (_atomic_write_json s (WRecord path r')) =
               count_records p (_atomic_write_json s0 (WRecord path r'))).
  { unfold count_records, records, s0. cbn [checkpoints _atomic_write_json].
    by rewrite insert_delete_eq. }
  rewrite H2, count_insert by (cbn; apply lookup_delete_eq). lia.
Qed.

(** ** Invariants *)

Section invariants.
Context (sd : string).

Lemma evolves_same r r' : evolves r r' → same_request r r'.
Proof. by destruct 1. Qed.

Lemma evolves_edge r r' : evolves r r' → (state r, state r') ∈ state_edges.
Proof.
  destruct 1 as [H|? ? H|? H|H]; cbn; rewrite ?H; unfold NON_TERMINAL_STATES in *;
    try apply elem_of_cons in H as [H|H%list_elem_of_singleton]; rewrite ?H; set_solver.
Qed.

Lemma update_known s s' : update s s' → known_states s → known_states s'.
Proof.
  intros [p r r' Hr He] Hk q r0. cbn. intros [[<- <-]|[Hne Hl]]%lookup_insert_Some.
  - by destruct (evolves_state _ _ He).
  - by apply (Hk q r0).
Qed.

Lemma rtc_preserves (R : CoordState → CoordState → Prop) (P : CoordState → Prop) s s' :
  (∀ a b, R a b → P a → P b) → rtc R s s' → P s → P s'.
Proof. intros HR. induction 1; eauto. Qed.

Lemma effect_known s op s' : effect sd s op s' → known_states s → known_states s'.
Proof.
  destruct 1 as [op|q root adv ttl cur p Ha s' ->|q root adv ttl cur p Ha s' ->|op s' Hu]; intros Hk.
  - done.
  - exact Hk.
  - intros p' r'. cbn. intros [[<- <-]|[Hne Hl]]%lookup_insert_Some; [left; set_solver|].
    by apply (Hk p' r').
  - eapply rtc_preserves; [|exact Hu|exact Hk]. apply update_known.
Qed.

(** Induction over executions: an invariant of every effect holds of every run. *)
Lemma run_invariant (P : CoordState → Prop) calls s :
  known_states s → P s →
  (∀ s op n s', (op, n) ∈ calls → known_states s → P s → effect sd s op s' → P s') →
  P (run sd s calls) ∧ known_states (run sd s calls).
Proof.
  revert s. induction calls as [|[op n] calls IH]; intros s Hk HP Hs; [done|]. cbn [run fold_left].
  pose proof (step_effect sd s op n Hk) as He. apply IH.
  - by eapply effect_known.
  - eapply Hs; [by left|done..].
  - intros s1 op1 n1 s2 Hin. apply (Hs s1 op1 n1). by right.
Qed.

(** What the ledger file of a root holds. *)
Definition ledger_total (s : CoordState) (path : string) (total : Z) : Prop :=
  match root_ledgers s !! path with
  | None => total = 0
  | Some v => ∃ root, v = JObj [("originating_parent", JStr root); ("total_delegations_admitted", JInt total)]
  end.

Lemma ledger_read s root total :
  ledger_total s (_root_ledger_path sd root) total → 0 <= total → _read_root_ledger sd s root = Ok total.
Proof.
  unfold ledger_total, _read_root_ledger. destruct (root_ledgers s !! _) as [v|]; [|by intros ->].
  intros (root' & ->) Ht. eapply bind_intro; [reflexivity|]. cbn.
  by rewrite (proj2 (Z.ltb_ge _ _)).
Qed.

(** The ledger of a path counts at least the records of the roots it serves. *)
Definition ledger_covers (M : Z) (s : CoordState) : Prop :=
  ∀ path, ∃ total, ledger_total s path total ∧
    count_records (λ r, bool_decide (_root_ledger_path sd (originating_parent (lineage r)) = path)) s <= total ∧
    0 <= total <= M.

Lemma admitted_root s q root adv ttl cur p :
  admits sd s q root adv ttl cur p → originating_parent adv = root.
Proof.
  intros [_ _ _ _ _ _ Hr Ha _ _].
  apply advance_Ok in Ha as (_ & _ & _ & _ & _ & ->). cbn.
  unfold _trusted_root_identity in Hr. destruct (chain_depth _ =? 0); res_inv; bool_inv; done.
Qed.

Lemma update_covers M s s' : update s s' → ledger_covers M s → ledger_covers M s'.
Proof.
  intros [p r r' Hr He] Hc path. destruct (Hc path) as (total & Ht & Hle & Hb). exists total.
  split; [exact Ht|]. split; [|exact Hb].
  pose proof (count_replace (λ r, bool_decide (_root_ledger_path sd (originating_parent (lineage r)) = path))
    s p r r' Hr) as H.
  destruct (evolves_same _ _ He) as (_ & _ & _ & _ & _ & _ & _ & Hl & _). cbn [lineage reread with_outcome] in H.
  rewrite Hl in H. lia.
Qed.

Lemma reserve_covers M s q root adv ttl cur p :
  admits sd s q root adv ttl cur p → max_total_delegations (rq_budget q) <= M →
  ledger_covers M s →
  ∀ path, ∃ total,
    ledger_total (_atomic_write_json s (_write_root_ledger sd root (cur + 1))) path total ∧
    count_records (λ r, bool_decide (_root_ledger_path sd (originating_parent (lineage r)) = path)) s +
      (if decide (path = _root_ledger_path sd root) then 1 else 0) <= total ∧
    0 <= total <= M.
Proof.
  intros Ha HM Hc path. destruct (Hc path) as (total & Ht & Hle & Hb).
  unfold ledger_total. cbn [root_ledgers _atomic_write_json _write_root_ledger].
  case_decide as Hp; [subst path|].
  - exists (cur + 1). rewrite lookup_insert_eq. split; [by exists root|].
    pose proof (ledger_read _ _ _ Ht (proj1 Hb)) as Hread.
    rewrite (adm_ledger _ _ _ _ _ _ _ _ Ha) in Hread. injection Hread as ->.
    pose proof (adm_total _ _ _ _ _ _ _ _ Ha). lia.
  - exists total. rewrite lookup_insert_ne by congruence. split; [exact Ht|]. lia.
Qed.

Lemma effect_covers M C calls s op n s' :
  budgets_within M C calls → (op, n) ∈ calls → ledger_covers M s → effect sd s op s' → ledger_covers M s'.
Proof.
  intros Hb Hin Hc He.
  destruct He as [op|q root adv ttl cur p Ha s' ->|q root adv ttl cur p Ha s' ->|op s' Hu]; [done|..].
  - unfold budgets_within in Hb. rewrite Forall_forall in Hb. destruct (Hb _ Hin) as [HM _].
    intros path. destruct (reserve_covers _ _ _ _ _ _ _ _ Ha HM Hc path) as (total & Ht & Hle & ?).
    exists total. split; [exact Ht|]. split; [|done].
    change (count_records _ (_atomic_write_json s _)) with
      (count_records (λ r, bool_decide (_root_ledger_path sd (originating_parent (lineage r)) = path)) s).
    case_decide; lia.
  - unfold budgets_within in Hb. rewrite Forall_forall in Hb. destruct (Hb _ Hin) as [HM _].
    intros path. destruct (reserve_covers _ _ _ _ _ _ _ _ Ha HM Hc path) as (total & Ht & Hle & ?).
    exists total. split; [exact Ht|]. split; [|done]. unfold admission_writes. cbn [apply_writes fold_left].
    rewrite count_insert by apply (adm_fresh _ _ _ _ _ _ _ _ Ha).
    cbn [lineage reread with_outcome new_record]. rewrite (admitted_root _ _ _ _ _ _ _ Ha).
    change (count_records _ (_atomic_write_json s _)) with
      (count_records (λ r, bool_decide (_root_ledger_path sd (originating_parent (lineage r)) = path)) s).
    destruct (bool_decide (_ = path)) eqn:E; bool_inv; case_decide; try lia; congruence.
  - eapply rtc_preserves; [|exact Hu|exact Hc]. intros a b. apply update_covers.
Qed.

(** ** Delegations in flight *)

Definition flight_covers (C : Z) (s : CoordState) : Prop :=
  ∀ parent, count_records (in_flight_of parent) s <= C.

Lemma update_flight C s s' : update s s' → flight_covers C s → flight_covers C s'.
Proof.
  intros [p r r' Hr He] Hc parent. specialize (Hc parent).
  pose proof (count_replace (in_flight_of parent) s p r r' Hr) as H.
  assert (in_flight_of parent (reread r') = true → in_flight_of parent r = true) as Himp.
  { destruct (evolves_state _ _ He) as [Hs _].
    destruct (evolves_same _ _ He) as (_ & Hp & _).
    unfold in_flight_of. cbn. rewrite Hp. intros [_ Hq]%andb_true_iff.
    by rewrite Hq, bool_decide_eq_true_2. }
  destruct (in_flight_of parent (reread r')) eqn:E1, (in_flight_of parent r) eqn:E2; try lia.
Qed.

Lemma effect_flight M C calls s op n s' :
  budgets_within M C calls → (op, n) ∈ calls → flight_covers C s → effect sd s op s' → flight_covers C s'.
Proof.
  intros Hb Hin Hc He.
  destruct He as [op|q root adv ttl cur p Ha s' ->|q root adv ttl cur p Ha s' ->|op s' Hu]; [done|done|..].
  - unfold budgets_within in Hb. rewrite Forall_forall in Hb. destruct (Hb _ Hin) as [_ HC].
    intros parent. unfold admission_writes. cbn [apply_writes fold_left].
    rewrite count_insert by apply (adm_fresh _ _ _ _ _ _ _ _ Ha).
    change (count_records _ (_atomic_write_json s _)) with (count_records (in_flight_of parent) s).
    destruct (in_flight_of parent (reread _)) eqn:E; [|by specialize (Hc parent); lia].
    unfold in_flight_of in E. cbn in E. bool_inv. subst parent.
    pose proof (adm_flight _ _ _ _ _ _ _ _ Ha) as Hf. cbn in HC.
    change (_count_in_flight s (rq_parent_task_id q))
      with (count_records (in_flight_of (rq_parent_task_id q)) s) in Hf. lia.
  - eapply rtc_preserves; [|exact Hu|exact Hc]. intros a b. apply update_flight.
Qed.

(** ** Where a lineage comes from *)

Definition presented (calls : list (Op * nat)) (s : CoordState) : Prop :=
  ∀ r, r ∈ records s → lineage r ∈ lineages_of calls ∧ ck_lineage_sha256 r = lineage_sha256 (lineage r).

(** A record made by the root task itself, at depth one. *)
Definition roots_present (s : CoordState) : Prop :=
  ∀ r, r ∈ records s → ∃ r0, r0 ∈ records s ∧
    parent_task_id r0 = originating_parent (lineage r) ∧
    originating_parent (lineage r0) = originating_parent (lineage r) ∧ chain_depth (lineage r0) = 1.

Lemma elem_of_records s r : r ∈ records s ↔ ∃ p, checkpoints s !! p = Some r.
Proof.
  unfold records. rewrite list_elem_of_fmap. split.
  - intros ([p r'] & -> & H%elem_of_map_to_list). eauto.
  - intros (p & H). exists (p, r). split; [done|]. by apply elem_of_map_to_list.
Qed.

Lemma records_update s s' r' :
  update s s' → r' ∈ records s' → ∃ r, r ∈ records s ∧ same_request r r'.
Proof.
  intros [p r r1 Hr He] (q & Hq)%elem_of_records. cbn in Hq.
  apply lookup_insert_Some in Hq as [[-> <-]|[Hne Hl]].
  - exists r. split; [apply elem_of_records; eauto|]. by apply evolves_same in He.
  - exists r'. split; [apply elem_of_records; eauto|]. done.
Qed.

Lemma records_update_fwd s s' r :
  update s s' → r ∈ records s → ∃ r', r' ∈ records s' ∧ same_request r r'.
Proof.
  intros [p r0 r1 Hr He] (q & Hq)%elem_of_records. destruct (decide (p = q)) as [->|Hne].
  - assert (r0 = r) as -> by congruence. exists (reread r1). split.
    + apply elem_of_records. exists q. cbn. by rewrite lookup_insert_eq.
    + by apply evolves_same in He.
  - exists r. split; [|done]. apply elem_of_records. exists q. cbn. by rewrite lookup_insert_ne.
Qed.

Lemma records_insert s path r x :
  checkpoints s !! path = None →
  x ∈ records (_atomic_write_json s (WRecord path r)) ↔ x = reread r ∨ x ∈ records s.
Proof.
  intros Hf. rewrite !elem_of_records. cbn. split.
  - intros (q & [[_ <-]|[_ ?]]%lookup_insert_Some); eauto.
  - intros [->|(q & Hq)]; [exists path; by rewrite lookup_insert_eq|].
    exists q. rewrite lookup_insert_ne; [done|]. by intros <-; congruence.
Qed.

Lemma presented_update calls s s' : update s s' → presented calls s → presented calls s'.
Proof.
  intros Hu Hp r' (r & Hr & Hs)%(records_update _ _ _ Hu).
  destruct (Hp r Hr) as [? ?]. unfold same_request in Hs. destruct_and! Hs. split; congruence.
Qed.

Lemma roots_update s s' : update s s' → roots_present s → roots_present s'.
Proof.
  intros Hu Hp r' Hr'. destruct (records_update _ _ _ Hu Hr') as (r & Hr & Hs).
  destruct (Hp r Hr) as (r0 & Hr0 & ? & ? & ?).
  destruct (records_update_fwd _ _ _ Hu Hr0) as (r0' & Hr0' & Hs0).
  exists r0'. split; [done|]. unfold same_request in *. destruct_and! Hs. destruct_and! Hs0.
  split_and!; congruence.
Qed.

Lemma lineages_of_elem calls q n :
  (OpCheckpoint q, n) ∈ calls →
  rq_lineage q ∈ lineages_of calls ∧
  (∀ adv, advance (rq_lineage q) (rq_target_specialist q) (rq_budget q) = Ok adv → adv ∈ lineages_of calls).
Proof.
  intros Hin. unfold lineages_of. split; [|intros adv Hadv];
    apply list_elem_of_In, List.in_concat; eexists; (split;
      [apply list_elem_of_In, list_elem_of_fmap; eexists; split; [reflexivity|exact Hin]|]); cbn [fst].
  - by left.
  - rewrite Hadv. right. by left.
Qed.

Lemma effect_provenance calls s op n s' :
  (∀ l m, l ∈ lineages_of calls → m ∈ lineages_of calls → lineage_sha256 l = lineage_sha256 m → l = m) →
  (op, n) ∈ calls → presented calls s ∧ roots_present s → effect sd s op s' →
  presented calls s' ∧ roots_present s'.
Proof.
  intros Hinj Hin [Hp Hr] He.
  destruct He as [op|q root adv ttl cur p Ha s' ->|q root adv ttl cur p Ha s' ->|op s' Hu]; [done|done|..].
  - destruct (lineages_of_elem _ _ _ Hin) as [Hl Hla].
    pose proof (adm_adv _ _ _ _ _ _ _ _ Ha) as Hadv. specialize (Hla adv Hadv).
    unfold admission_writes. cbn [apply_writes fold_left].
    assert (Hrec : ∀ x, x ∈ records (_atomic_write_json
        (_atomic_write_json s (_write_root_ledger sd root (cur + 1))) (WRecord p (new_record q adv ttl (cur + 1)))) ↔
        x = reread (new_record q adv ttl (cur + 1)) ∨ x ∈ records s).
    { intros x. rewrite records_insert by apply (adm_fresh _ _ _ _ _ _ _ _ Ha). done. }
    split; [intros r [->|?]%Hrec; [done|by apply Hp]|].
    intros r [->|Hin']%Hrec.
    + cbn. pose proof (admitted_root _ _ _ _ _ _ _ Ha) as Hroot. rewrite Hroot.
      pose proof (adm_root _ _ _ _ _ _ _ _ Ha) as Ht. unfold _trusted_root_identity in Ht.
      destruct (chain_depth (rq_lineage q) =? 0) eqn:Ed; res_inv; bool_inv.
      * exists (reread (new_record q adv ttl (cur + 1))). split; [apply Hrec; by left|]. cbn.
        apply advance_Ok in Hadv as (_ & _ & _ & _ & _ & ->). cbn in *. split_and!; [congruence|done|lia].
      * match goal with E : _lineage_previously_admitted _ _ = true |- _ =>
          apply existsb_exists in E as (r' & Hr'%list_elem_of_In & E) end.
        bool_inv. destruct (Hp r' Hr') as [Hpl Hsha].
        assert (lineage r' = rq_lineage q) as Heq by (apply Hinj; [done..|congruence]).
        destruct (Hr r' Hr') as (r0 & Hr0 & Hp0 & Ho0 & ?). rewrite Heq in Hp0, Ho0.
        exists r0. split; [apply Hrec; by right|]. split_and!; congruence.
    + destruct (Hr r Hin') as (r0 & Hr0 & ?). exists r0. split; [apply Hrec; by right|done].
  - split.
    + eapply rtc_preserves; [|exact Hu|exact Hp]. intros a b. apply presented_update.
    + eapply rtc_preserves; [|exact Hu|exact Hr]. intros a b. apply roots_update.
Qed.

(** ** What a call leaves of the records it found *)

(** The one edge that [op] takes the record [r] of the file [p] along, if it
    takes one. *)
Inductive moves (p : string) (r : Checkpoint) : Op → Checkpoint → Prop :=
  | mv_dispatched id :
      _path sd id = Ok p → state r = "checkpointed" → moves p r (OpDispatched id) (with_state r "dispatched")
  | mv_settled id payload sha now :
      _path sd id = Ok p → state r = "dispatched" → float_geb now (expires_at_epoch r) = false →
      sha = _sha256_text (_canonical_json payload) →
      moves p r (OpInject id (parent_generation r) payload sha now)
        (with_outcome (with_state r "settled") (JObj payload) (Some sha) (cancel_reason r))
  | mv_late id payload sha now :
      _path sd id = Ok p → state r = "dispatched" → float_geb now (expires_at_epoch r) = true →
      moves p r (OpInject id (parent_generation r) payload sha now) (with_state r "stale")
  | mv_cancelled id reason :
      _path sd id = Ok p → state r ∈ NON_TERMINAL_STATES →
      moves p r (OpCancel id reason) (with_outcome (with_state r "cancelled") (result r) (result_sha256 r) (Some reason))
  | mv_swept moment :
      expired_at moment r = true → moves p r (OpSweep moment) (with_state r "stale").

Lemma terminal_not_live st : st ∈ TERMINAL_STATES → st ∈ NON_TERMINAL_STATES → False.
Proof. unfold TERMINAL_STATES, NON_TERMINAL_STATES. set_solver. Qed.

Lemma moves_evolves p r op r1 : moves p r op r1 → evolves r r1.
Proof.
  destruct 1 as [? ? Hs|? ? ? ? ? Hs|? ? ? ? ? Hs|? ? ? Hs|? He]; [by constructor|by constructor| |by constructor|].
  - apply ev_stale. rewrite Hs. set_solver.
  - apply ev_stale. unfold expired_at in He. by bool_inv.
Qed.

Lemma moves_unique p r op r1 r2 : moves p r op r1 → moves p r op r2 → r1 = r2.
Proof. destruct 1; inversion 1; congruence. Qed.

Lemma moves_file p r op r1 p' r' r1' : moves p r op r1 → moves p' r' op r1' → (∀ m, op ≠ OpSweep m) → p = p'.
Proof. destruct 1; inversion 1; intros Hns; try congruence. by destruct (Hns moment). Qed.

(** What a call on one record asks of it. *)
Lemma moves_asks p r op r1 : moves p r op r1 →
  match op with
  | OpCheckpoint _ => False
  | OpDispatched id => _path sd id = Ok p ∧ state r = "checkpointed"
  | OpInject id gen payload sha now => _path sd id = Ok p ∧ parent_generation r = gen ∧ state r = "dispatched" ∧
      (float_geb now (expires_at_epoch r) = false → sha = _sha256_text (_canonical_json payload))
  | OpCancel id _ => _path sd id = Ok p ∧ state r ∈ NON_TERMINAL_STATES
  | OpSweep moment => expired_at moment r = true
  end.
Proof. destruct 1; repeat (split; [congruence|]); (done || congruence). Qed.

(** A call writes nothing and moves no record, or moves one. *)
Definition one_move (s : CoordState) (op : Op) (ws : list Write) : Prop :=
  ws = [] ∧ (∀ p r r1, checkpoints s !! p = Some r → ¬ moves p r op r1) ∨
  ∃ p r r1, checkpoints s !! p = Some r ∧ moves p r op r1 ∧ ws = [WRecord p r1].

Lemma dispatched_moves s id : one_move s (OpDispatched id) (dispatched sd s id).2.
Proof.
  unfold dispatched. destruct (_require sd s id) as [rec|e] eqn:Hreq; cbn [attempt].
  - apply require_inv in Hreq as (p & Hp & Hr). destruct (negb _) eqn:E; bool_inv.
    + left. split; [done|]. intros p' r' r1 Hr' [Hp' Hs]%moves_asks. by replace r' with rec in Hs by congruence.
    + right. exists p, rec. eexists. rewrite (attempt_Ok _ _ p) by done. split_and!; [done|by constructor|done].
  - left. split; [done|]. intros p r r1 Hr [Hp _]%moves_asks. by rewrite (require_intro _ _ _ _ _ Hp Hr) in Hreq.
Qed.

Lemma cancel_moves s id reason : known_states s → one_move s (OpCancel id reason) (cancel sd s id reason).2.
Proof.
  intros Hk. unfold cancel. destruct (_require sd s id) as [rec|e] eqn:Hreq; cbn [attempt].
  - apply require_inv in Hreq as (p & Hp & Hr). destruct (bool_decide _) eqn:E; bool_inv.
    + left. split; [done|]. intros p' r' r1 Hr' [Hp' Hs]%moves_asks. replace r' with rec in Hs by congruence.
      by eapply terminal_not_live.
    + right. exists p, rec. eexists. rewrite (attempt_Ok _ _ p) by done. split_and!; [done|constructor; [done|]|done].
      by destruct (Hk p rec Hr).
  - left. split; [done|]. intros p r r1 Hr [Hp _]%moves_asks. by rewrite (require_intro _ _ _ _ _ Hp Hr) in Hreq.
Qed.

Lemma digests_agree a b : is_ascii_str a = true → compare_digest a b = Ok true ∧ b = a ∨
  (compare_digest a b = Ok false ∨ ∃ e, compare_digest a b = Err e) ∧ b ≠ a.
Proof.
  unfold compare_digest. intros Ha. rewrite Ha. cbn [andb]. destruct (is_ascii_str b) eqn:Hb.
  - destruct (decide (a = b)) as [->|Hne]; [left; by rewrite bool_decide_eq_true_2|right].
    rewrite bool_decide_eq_false_2 by done. split; [by left|by intros ->].
  - right. split; [right; by eexists|]. intros ->. congruence.
Qed.

Lemma inject_moves s id gen payload sha now :
  one_move s (OpInject id gen payload sha now) (inject_result sd s id gen payload sha now).2.
Proof.
  unfold inject_result. destruct (_require sd s id) as [rec|e] eqn:Hreq; cbn [attempt].
  2: { left. split; [done|]. intros p r r1 Hr [Hp _]%moves_asks. by rewrite (require_intro _ _ _ _ _ Hp Hr) in Hreq. }
  apply require_inv in Hreq as (p & Hp & Hr).
  set (mac := _sha256_text (_canonical_json payload)).
  assert (Hleft : ∀ ws : list Write, ws = [] → ¬ (parent_generation rec = gen ∧ state rec = "dispatched" ∧
      (float_geb now (expires_at_epoch rec) = false → sha = mac)) →
    one_move s (OpInject id gen payload sha now) ws).
  { intros ws -> Hno. left. split; [done|]. intros p' r' r1 Hr' (Hp' & Ha)%moves_asks. by replace r' with rec in Ha by congruence. }
  destruct (parent_generation rec =? gen) eqn:Eg; bool_inv; cbn [negb raise_if attempt]; [|apply Hleft; [done|naive_solver]].
  destruct (bool_decide (state rec = "settled")) eqn:Es; bool_inv.
  { apply Hleft; [by destruct (bool_decide _)|]. rewrite Es. by intros (_ & ? & _). }
  destruct (bool_decide (state rec ∈ _)) eqn:Ec; bool_inv; cbn [raise_if attempt].
  { apply Hleft; [done|]. intros (_ & Hd & _). rewrite Hd in Ec. set_solver. }
  destruct (bool_decide (state rec = "dispatched")) eqn:Ed; bool_inv; cbn [negb raise_if attempt]; [|apply Hleft; [done|naive_solver]].
  rewrite (attempt_Ok _ _ p) by done. destruct (float_geb now (expires_at_epoch rec)) eqn:Ex.
  { right. exists p, rec. eexists. split_and!; [done| |done]. rewrite <- Eg. by apply mv_late. }
  destruct (digests_agree mac sha) as [[-> Hsha]|[Hd Hsha]]; [apply sha256_re_ascii, sha256_hex_shape| |].
  - right. exists p, rec. eexists. split_and!; [done| |done]. rewrite <- Eg. by apply mv_settled.
  - apply Hleft; [by destruct Hd as [->|[? ->]]|]. intros (_ & _ & H). by apply Hsha, H.
Qed.

(** What a list of writes to distinct record files leaves in one of them. *)
Lemma written_records (hits : list (string * Checkpoint)) s p : NoDup hits.*1 →
  (∀ r1, (p, r1) ∈ hits → checkpoints (apply_writes s (map (λ h, WRecord h.1 h.2) hits)) !! p = Some (reread r1)) ∧
  (p ∉ hits.*1 → checkpoints (apply_writes s (map (λ h, WRecord h.1 h.2) hits)) !! p = checkpoints s !! p).
Proof.
  revert s. induction hits as [|[q x] hits IH]; intros s; [split; [by intros ? ?%not_elem_of_nil|done]|].
  cbn [fmap list_fmap fst]. intros [Hq Hn]%NoDup_cons. destruct (IH (_atomic_write_json s (WRecord q x)) Hn) as [H1 H2].
  unfold apply_writes in *. cbn [map fold_left fst snd]. split.
  - intros r1 [[= <- <-]|Hin]%elem_of_cons; [|by apply H1]. rewrite H2 by done. apply lookup_insert_eq.
  - intros Hp. rewrite H2 by set_solver. cbn. apply lookup_insert_ne. set_solver.
Qed.

(** What a call, cut short or not, leaves of a record. *)
Definition advances (s : CoordState) (op : Op) (n : nat) (p : string) (r r' : Checkpoint) : Prop :=
  (r' = r ∨ ∃ r1, moves p r op r1 ∧ r' = reread r1) ∧
  ((length (op_writes sd s op) ≤ n)%nat → ∀ r1, moves p r op r1 → r' = reread r1).

Lemma sweep_advances s moment n p r : checkpoints s !! p = Some r →
  ∃ r', checkpoints (step sd s (OpSweep moment, n)) !! p = Some r' ∧ advances s (OpSweep moment) n p r r'.
Proof.
  intros Hr. unfold step, advances. cbn [fst snd op_writes]. unfold sweep_expired. rewrite sweep_loop_spec by apply sweep_paths_nodup.
  cbn [snd]. set (paths := sort_strings _). set (hits := omap _ paths).
  assert (Hin : ∀ r1, (p, r1) ∈ hits ↔ expired_at moment r = true ∧ r1 = with_state r "stale").
  { intros r1. unfold hits. rewrite list_elem_of_omap. unfold sweep_hit. split.
    - intros (q & _ & H). destruct (checkpoints s !! q) as [r0|] eqn:E; [|done]. destruct (expired_at moment r0) eqn:Ee; [|done].
      injection H as -> <-. by replace r with r0 by congruence.
    - intros [He ->]. exists p. rewrite Hr, He. split; [|done]. unfold paths. rewrite sort_strings_perm, list_elem_of_fmap.
      exists (p, r). split; [done|]. by apply elem_of_map_to_list. }
  assert (Hnd : NoDup hits.*1).
  { assert (Hp : NoDup paths) by apply sweep_paths_nodup. eapply sublist_NoDup; [exact Hp|]. clear Hp Hin. unfold hits.
    clearbody paths. induction paths as [|q l IH]; [constructor|]. cbn. unfold sweep_hit at 1.
    destruct (checkpoints s !! q) as [r0|]; [|by apply sublist_cons].
    destruct (expired_at moment r0); [by apply sublist_skip|by apply sublist_cons]. }
  assert (Hmv : ∀ r1, moves p r (OpSweep moment) r1 ↔ (p, r1) ∈ hits).
  { intros r1. rewrite Hin. split; [by inversion 1; subst|]. intros [? ->]. by constructor. }
  rewrite length_map. change (map (λ h, WRecord h.1 h.2) hits) with ((λ h : string * Checkpoint, WRecord h.1 h.2) <$> hits).
  rewrite <- fmap_take. destruct (written_records (take n hits) s p) as [H1 H2].
  { eapply sublist_NoDup; [exact Hnd|]. apply fmap_sublist, sublist_take. }
  destruct (decide (p ∈ (take n hits).*1)) as [Hp|Hp].
  - apply list_elem_of_fmap in Hp as ([q r1] & E & Hp). cbn in E. subst q. exists (reread r1). split; [by apply H1|].
    assert (Hm : moves p r (OpSweep moment) r1) by (apply Hmv; rewrite <- (take_drop n hits); apply elem_of_app; by left).
    split; [right; by exists r1|]. intros _ r2 Hm2. by rewrite (moves_unique _ _ _ _ _ Hm Hm2).
  - exists r. split; [etrans; [exact (H2 Hp)|exact Hr]|]. split; [by left|]. intros Hn r1 Hm%Hmv. destruct Hp. rewrite take_ge by done.
    by apply (list_elem_of_fmap_2 fst) in Hm.
Qed.

Lemma single_advances s op n p r : checkpoints s !! p = Some r → (∀ m, op ≠ OpSweep m) → one_move s op (op_writes sd s op) →
  ∃ r', checkpoints (step sd s (op, n)) !! p = Some r' ∧ advances s op n p r r'.
Proof.
  intros Hr Hns [[Hw Hno]|(p' & r0 & r1 & Hr0 & Hm & Hw)]; unfold step, advances; cbn [fst snd]; rewrite Hw.
  { exists r. rewrite take_nil. split; [done|]. split; [by left|]. intros _ r1 Hm. by destruct (Hno p r r1). }
  destruct (decide (p' = p)) as [->|Hne].
  - assert (r0 = r) as -> by congruence. destruct n as [|n]; [exists r; split; [done|]; split; [by left|cbn; lia]|].
    exists (reread r1). cbn [take]. rewrite take_nil. split; [apply lookup_insert_eq|]. split; [right; by exists r1|].
    intros _ r2 Hm2. by rewrite (moves_unique _ _ _ _ _ Hm Hm2).
  - exists r. split; [|split; [by left|]].
    + destruct n as [|n]; [done|]. cbn [take]. rewrite take_nil. cbn. by rewrite lookup_insert_ne.
    + intros _ r2 Hm2. destruct Hne. by eapply moves_file.
Qed.

Lemma step_advances s op n p r : known_states s → checkpoints s !! p = Some r →
  ∃ r', checkpoints (step sd s (op, n)) !! p = Some r' ∧ advances s op n p r r'.
Proof.
  intros Hk Hr. destruct op as [q| | | |m]; [|..|by apply sweep_advances].
  { assert (Hno : ∀ r1, ¬ moves p r (OpCheckpoint q) r1) by (intros r1 H; inversion H). exists r.
    split; [|split; [by left|by intros _ r1 ?%Hno]]. pose proof (step_effect sd s (OpCheckpoint q) n Hk) as He.
    unfold step in *. cbn [fst snd op_writes] in *. destruct (checkpoint sd s q) as [o ws] eqn:E.
    apply checkpoint_inv in E as [(root & adv & ttl & cur & p' & Ha & _ & ->)|[-> _]]; cbn [snd]; [|by rewrite take_nil].
    destruct n as [|[|n]]; cbn; [done..|]. rewrite take_nil. cbn. rewrite lookup_insert_ne; [done|]. intros ->.
    by rewrite (adm_fresh _ _ _ _ _ _ _ _ Ha) in Hr. }
  all: apply single_advances; [done|done|]; cbn [op_writes].
  - apply dispatched_moves.
  - apply inject_moves.
  - by apply cancel_moves.
Qed.
End invariants.

(** ** Ids, paths and hashes *)

Lemma id_comp_ok id : fullmatch DELEGATION_ID_RE id = true → comp_ok (id +:+ ".json") ∧ id +:+ ".json" ≠ "..".
Proof.
  intros H. pose proof (fullmatch_len _ _ H) as Hl. cbn in Hl.
  assert (Hlen : (String.length (id +:+ ".json") > 2)%nat) by (rewrite str_length_app; cbn; lia).
  split; [split|].
  - apply real_comp_true. split; intros E; rewrite E in Hlen; cbn in Hlen; lia.
  - rewrite char_in_app. rewrite (fullmatch_not_in DELEGATION_ID_RE slash id); [done| |done].
    vm_compute. reflexivity.
  - intros E. rewrite E in Hlen. cbn in Hlen. lia.
Qed.

Lemma checkpoint_dir_plain sd ds :
  plain_abs sd ds → plain_abs (checkpoint_dir sd) (ds ++ ["delegation-checkpoints"]).
Proof. intros H. apply path_div_comp; [done|]. split; [|reflexivity]. by apply real_comp_true. Qed.

Lemma _path_plain sd ds id :
  plain_abs sd ds → fullmatch DELEGATION_ID_RE id = true →
  ∃ p, _path sd id = Ok p ∧ plain_abs p (ds ++ ["delegation-checkpoints"; id +:+ ".json"]).
Proof.
  intros Hs Hid. destruct (id_comp_ok id Hid) as [Hc Hdot].
  pose proof (checkpoint_dir_plain sd ds Hs) as Hd.
  pose proof (path_div_comp _ _ _ Hd Hc) as Hp. rewrite <- app_assoc in Hp. cbn [app] in Hp.
  exists (path_div (checkpoint_dir sd) (id +:+ ".json")). split; [|done].
  unfold _path. rewrite Hid. rewrite raise_if_false, bind_ret.
  pose proof (normpath_plain _ _ Hp) as Hnp. pose proof (normpath_plain _ _ Hd) as Hnd.
  eapply (bind_intro _ _ (normpath (checkpoint_dir sd))).
  - apply (commonpath_spec _ _ _ (proj2 (plain_abs_comps _ _ Hnp)) Hnd).
    rewrite (proj1 (plain_abs_comps _ _ Hnp)).
    change (ds ++ ["delegation-checkpoints"; id +:+ ".json"])
      with (ds ++ ["delegation-checkpoints"] ++ [id +:+ ".json"]).
    rewrite app_assoc, (norm_comps_snoc "/" (ds ++ _)); [by eexists|apply Hc|done].
  - by rewrite bool_decide_eq_true_2.
Qed.

Lemma app_json_inj a b : a +:+ ".json" = b +:+ ".json" → a = b.
Proof.
  revert b. induction a as [|c a IH]; intros [|d b]; rewrite ?str_app_cons, ?str_app_nil_l; try done.
  - intros H. apply (f_equal String.length) in H. cbn in H. rewrite str_length_app in H. cbn in H. lia.
  - intros H. apply (f_equal String.length) in H. cbn in H. rewrite str_length_app in H. cbn in H. lia.
  - intros [= -> H]. f_equal. by apply IH.
Qed.

Lemma delegation_material_inj a b c d e f a' b' c' d' e' f' :
  _canonical_json (delegation_material a b c d e f) = _canonical_json (delegation_material a' b' c' d' e' f') →
  a = a' ∧ b = b' ∧ c = c' ∧ d = d' ∧ e = e' ∧ f = f'.
Proof.
  unfold _canonical_json, delegation_material.
  intros H%dumps_inj; [|apply json_wf_obj; split; [by_decide|by repeat constructor]..].
  rewrite !canon_obj in H. by injection H as -> -> -> -> -> ->.
Qed.

(** ** A concrete store for the witnesses *)

Definition demo_budget : LineageBudget :=
  {| max_depth := 1; max_children_per_delegation := 1; max_total_delegations := 3 |}.
Definition demo_lineage : DelegationLineage :=
  {| originating_parent := "TASK-1"; chain_depth := 0; visited_specialists := ["lead"];
     total_delegations := 0 |}.
Definition demo_authority : DelegationAuthority :=
  {| read_paths := {["/repo/docs"]}; write_paths := ∅; external_targets := ∅;
     data_class := "internal"; resources := ∅ |}.
Definition demo_request (text : string) : Request := {|
  rq_parent_task_id := "TASK-1"; rq_parent_attempt_id := "a1"; rq_parent_generation := 1;
  rq_requester_specialist := "lead"; rq_target_specialist := "auditor"; rq_question := text;
  rq_lineage := demo_lineage; rq_budget := demo_budget; rq_authority := demo_authority;
  rq_ttl_seconds := TtlInt 60; rq_now := float_lit 1000
|}.
Definition demo_id : string := request_id (demo_request "why").
Definition demo_result : list (string * json) := [("answer", JInt 42)].
Definition demo_sha : string := _sha256_text (_canonical_json demo_result).

(** A checkpoint whose process dies after the ledger write, a retry, its
    dispatch, its result, and a second delegation. *)
Definition demo_calls : list (Op * nat) :=
  [(OpCheckpoint (demo_request "why"), 1%nat); (OpCheckpoint (demo_request "why"), 2%nat);
   (OpDispatched demo_id, 1%nat); (OpInject demo_id 1 demo_result demo_sha (float_lit 1010), 1%nat);
   (OpCheckpoint (demo_request "how"), 2%nat)].

(** ** Properties *)

(** C2. The caps are global and survive crashes.  In any store left by any
    sequence of calls, each possibly cut short between two file writes, every
    root's trusted ledger is readable, counts at least the delegations recorded
    for that root over all branches, and never passes the largest total budget
    presented; and no acting parent has more open delegations than the largest
    concurrency budget presented. *)
Theorem store_caps sd calls M C root parent :
  0 <= M → 0 <= C → budgets_within M C calls →
  let s := run sd empty_store calls in
  ∃ total, _read_root_ledger sd s root = Ok total ∧
    count_records (admitted_from root) s <= total <= M ∧
    _count_in_flight s parent <= C.
Proof.
  intros HM HC Hb s.
  destruct (run_invariant sd (λ s, ledger_covers sd M s ∧ flight_covers C s) calls empty_store)
    as [[Hl Hf] _]; [done|split|..].
  - intros path. exists 0. split; [done|]. rewrite count_empty. lia.
  - intros p. by rewrite count_empty.
  - intros s1 op n s2 Hin Hk [H1 H2] He. split; [by eapply effect_covers|by eapply effect_flight].
  - destruct (Hl (_root_ledger_path sd root)) as (total & Ht & Hle & Hb2).
    exists total. split; [apply ledger_read; [done|lia]|]. split; [split; [|lia]|apply Hf].
    etrans; [|exact Hle]. unfold count_records. apply inj_le, filter_length_mono.
    intros r Hr. unfold admitted_from in Hr. bool_inv. apply bool_decide_eq_true_2. congruence.
Qed.

Lemma store_caps_witness :
  budgets_within 3 1 demo_calls ∧
  length (records (run "/s" empty_store demo_calls)) = 2%nat ∧
  ∃ total, _read_root_ledger "/s" (run "/s" empty_store demo_calls) "TASK-1" = Ok total ∧ total <= 3.
Proof.
  assert (Hb : budgets_within 3 1 demo_calls).
  { unfold budgets_within, demo_calls. rewrite !Forall_cons. cbn. split_and!; try done. }
  split; [exact Hb|]. split; [vm_compute; reflexivity|].
  destruct (store_caps "/s" demo_calls 3 1 "TASK-1" "TASK-1" ltac:(lia) ltac:(lia) Hb)
    as (total & H & ? & _).
  exists total. split; [exact H|lia].
Defined.

(** A lineage root cannot be forged: in any store, every record's claimed
    originating parent is a task that itself opened a first-hop delegation
    here, as long as no two different lineages presented in the run have the
    same SHA-256. *)
Theorem lineage_root_genuine sd calls r :
  (∀ l m, l ∈ lineages_of calls → m ∈ lineages_of calls → lineage_sha256 l = lineage_sha256 m → l = m) →
  r ∈ records (run sd empty_store calls) →
  ∃ r0, r0 ∈ records (run sd empty_store calls) ∧
    parent_task_id r0 = originating_parent (lineage r) ∧
    originating_parent (lineage r0) = originating_parent (lineage r) ∧ chain_depth (lineage r0) = 1.
Proof.
  intros Hinj Hr.
  destruct (run_invariant sd (λ s, presented calls s ∧ roots_present s) calls empty_store) as [[_ H] _];
    [done| | |by apply H].
  - split; intros ? (? & ?)%elem_of_records; done.
  - intros s1 op n s2 Hin Hk HP He. by eapply effect_provenance.
Qed.

Lemma lineage_root_genuine_witness :
  ∃ r r0, r ∈ records (run "/s" empty_store demo_calls) ∧
    r0 ∈ records (run "/s" empty_store demo_calls) ∧
    parent_task_id r0 = originating_parent (lineage r).
Proof.
  assert (Hinj : ∀ l m, l ∈ lineages_of demo_calls → m ∈ lineages_of demo_calls →
    lineage_sha256 l = lineage_sha256 m → l = m).
  { intros l m Hl Hm Heq. assert (Hb : bool_decide (Forall (λ l, Forall (λ m,
      lineage_sha256 l = lineage_sha256 m → l = m) (lineages_of demo_calls)) (lineages_of demo_calls)) = true)
      by (vm_compute; reflexivity).
    apply bool_decide_eq_true in Hb. rewrite Forall_forall in Hb. specialize (Hb l Hl).
    rewrite Forall_forall in Hb. by apply Hb. }
  destruct (records (run "/s" empty_store demo_calls)) as [|r l] eqn:E; [vm_compute in E; discriminate|].
  assert (Hr : r ∈ records (run "/s" empty_store demo_calls)) by (rewrite E; by left).
  destruct (lineage_root_genuine "/s" demo_calls r Hinj Hr) as (r0 & Hr0 & Hp & _).
  exists r, r0. split; [by left|]. split; [rewrite <- E; exact Hr0|exact Hp].
Defined.

(** C35. Records only move forward, by the edge their call allows.  Whatever call
    runs, and wherever it is cut short, every record stays in its file with all its
    request fields.  It is left as it was, or moved once: from checkpointed to
    dispatched by [dispatched]; from dispatched to settled, with the result and its
    hash, by an [inject_result] of the record's generation and of the result's own
    hash before the expiry, or to stale by a later one; from checkpointed or
    dispatched to cancelled, with the reason, by [cancel], or to stale by a sweep at
    or after the expiry.  A call that is not cut short makes the move it allows, and
    a terminal record is not touched at all. *)
Theorem records_move_forward sd s op n p r :
  known_states s → checkpoints s !! p = Some r →
  ∃ r', checkpoints (step sd s (op, n)) !! p = Some r' ∧
    same_request r r' ∧ advances sd s op n p r r' ∧
    (r' = r ∨ (state r, state r') ∈ state_edges) ∧ (state r ∈ TERMINAL_STATES → r' = r).
Proof.
  intros Hk Hr. destruct (step_advances sd s op n p r Hk Hr) as (r' & Hr' & Hadv). exists r'. split; [done|].
  destruct Hadv as [[->|(r1 & Hm & ->)] Hn]; [split_and!; [done|by split; [left|]|by left|done]|].
  apply moves_evolves in Hm as He. split_and!.
  - by apply evolves_same in He.
  - split; [right; by exists r1|done].
  - right. exact (evolves_edge _ _ He).
  - intros Ht. destruct (evolves_state _ _ He) as [Hl _]. by destruct (terminal_not_live _ Ht Hl).
Qed.

Lemma records_move_forward_witness :
  let s := run "/s" empty_store (take 3 demo_calls) in
  ∃ p r r', checkpoints s !! p = Some r ∧ state r = "dispatched" ∧
    checkpoints (step "/s" s (OpCancel demo_id "late", 1%nat)) !! p = Some r' ∧ same_request r r'.
Proof.
  intros s. set (p := "/s/delegation-checkpoints/" +:+ demo_id +:+ ".json").
  destruct (checkpoints s !! p) as [r|] eqn:E; [|vm_compute in E; discriminate].
  assert (Hk : known_states s).
  { unfold known_states. apply map_Forall_to_list. vm_compute. repeat constructor; left; by by_decide. }
  destruct (records_move_forward "/s" s (OpCancel demo_id "late") 1 p r Hk E) as (r' & H1 & H2 & _).
  exists p, r, r'. split; [exact E|]. split; [|split; [exact H1|exact H2]].
  vm_compute in E. injection E as <-. reflexivity.
Defined.

(** [checkpoint] decides exactly: it either returns the record already
    there, or is denied without touching a file, or admits, and it admits
    precisely when every check passes, then writing the root's incremented
    ledger first and the record second. *)
Theorem checkpoint_decides sd s q :
  match checkpoint sd s q with
  | (Ok r, []) => get sd s (request_id q) = Ok (Some r)
  | (Err _, ws) => ws = [] ∧ ¬ ∃ root adv ttl cur p, admits sd s q root adv ttl cur p
  | (Ok r, ws) => ∃ root adv ttl cur p, admits sd s q root adv ttl cur p ∧
      r = new_record q adv ttl (cur + 1) ∧
      ws = [_write_root_ledger sd root (cur + 1); WRecord p r]
  end.
Proof.
  destruct (checkpoint sd s q) as [o ws] eqn:E.
  destruct (checkpoint_inv sd s q o ws E) as [(root & adv & ttl & cur & p & Ha & -> & ->)|[-> Hr]].
  - cbn [admission_writes]. exists root, adv, ttl, cur, p. done.
  - destruct o as [r|e]; [by apply Hr|]. split; [done|].
    intros (root & adv & ttl & cur & p & Ha). by rewrite (checkpoint_admits _ _ _ _ _ _ _ _ Ha) in E.
Qed.

(** A result settles a delegation exactly when it should: the record is
    dispatched, the generation is its own, the clock has not reached its
    expiry, and the claimed hash is the SHA-256 of the result's canonical JSON.
    The settled record then holds that result and hash. *)
Theorem inject_settles_iff sd s id gen payload sha now r :
  get sd s id = Ok (Some r) → state r ≠ "settled" →
  (is_ok (inject_result sd s id gen payload sha now).1 = true ↔
   state r = "dispatched" ∧ parent_generation r = gen ∧
   float_geb now (expires_at_epoch r) = false ∧ sha = _sha256_text (_canonical_json payload)) ∧
  ∀ r', (inject_result sd s id gen payload sha now).1 = Ok r' →
    same_request r r' ∧ state r' = "settled" ∧ result r' = JObj payload ∧ result_sha256 r' = Some sha.
Proof.
  intros (p & Hp & Hr)%get_Ok Hns. unfold inject_result.
  rewrite (attempt_Ok _ _ r) by (by eapply require_intro).
  destruct (parent_generation r =? gen) eqn:Eg; bool_inv; cbn [negb raise_if attempt].
  2:{ split; [|done]. split; [done|]. by intros (_ & ? & _). }
  rewrite (bool_decide_eq_false_2 (state r = "settled")) by done.
  destruct (bool_decide (state r ∈ ["cancelled"; "stale"])) eqn:Ec; bool_inv; cbn [raise_if attempt].
  { split; [|done]. split; [done|]. intros (Hd & _). rewrite Hd in Ec. set_solver. }
  destruct (bool_decide (state r = "dispatched")) eqn:Ed; bool_inv; cbn [negb raise_if attempt].
  2:{ split; [|done]. split; [done|]. by intros (? & _). }
  rewrite (attempt_Ok _ _ p) by done.
  destruct (float_geb now (expires_at_epoch r)) eqn:Ex.
  { split; [|done]. split; [done|]. by intros (_ & _ & ? & _). }
  assert (is_ascii_str (_sha256_text (_canonical_json payload)) = true) as Ha
    by (apply sha256_re_ascii, sha256_hex_shape).
  unfold compare_digest. rewrite Ha. cbn [andb].
  destruct (is_ascii_str sha) eqn:Es; cbn [attempt].
  2:{ split; [|done]. split; [done|]. intros (_ & _ & _ & ->). congruence. }
  destruct (bool_decide _) eqn:Eh; bool_inv; cbn [negb raise_if attempt fst is_ok].
  - split; [done|]. by intros r' [= <-].
  - split; [|done]. split; [done|]. intros (_ & _ & _ & ->). done.
Qed.

Lemma inject_settles_iff_witness :
  let s := run "/s" empty_store (take 3 demo_calls) in
  is_ok (inject_result "/s" s demo_id 1 demo_result demo_sha (float_lit 1010)).1 = true.
Proof.
  intros s. destruct (get "/s" s demo_id) as [[r|]|] eqn:E; [|vm_compute in E; discriminate..].
  assert (Hst : state r = "dispatched" ∧ parent_generation r = 1 ∧
    float_geb (float_lit 1010) (expires_at_epoch r) = false).
  { vm_compute in E. injection E as <-. vm_compute. done. }
  destruct Hst as (H1 & H2 & H3).
  apply (inject_settles_iff "/s" s demo_id 1 demo_result demo_sha (float_lit 1010) r E); [by rewrite H1|].
  exact (conj H1 (conj H2 (conj H3 eq_refl))).
Defined.

(** A settled delegation answers once: after a result is accepted, the same
    hash for the same generation is answered with the stored record, whatever
    payload and clock come with it, any other hash is refused, and neither
    writes anything; nor can it be cancelled. *)
Theorem settled_once sd s id gen payload sha now r gen' payload' sha' now' reason :
  (inject_result sd s id gen payload sha now).1 = Ok r →
  let s' := step sd s (OpInject id gen payload sha now, 1%nat) in
  ∃ stored, get sd s' id = Ok (Some stored) ∧ state stored = "settled" ∧ result_sha256 stored = Some sha ∧
    cancel sd s' id reason = (Ok stored, []) ∧
    match inject_result sd s' id gen' payload' sha' now' with
    | (Ok r', ws) => gen' = gen ∧ sha' = sha ∧ r' = stored ∧ ws = []
    | (Err _, ws) => (gen' ≠ gen ∨ sha' ≠ sha) ∧ ws = []
    end.
Proof.
  intros H s'.
  assert (Hs : ∃ p stored, _path sd id = Ok p ∧ checkpoints s' !! p = Some stored ∧
    state stored = "settled" ∧ result_sha256 stored = Some sha ∧ parent_generation stored = gen).
  { unfold s', step. cbn [fst snd op_writes]. revert H. unfold inject_result.
    destruct (_require sd s id) as [r0|] eqn:E0; [|done]. apply require_inv in E0 as (p & Hp & Hr0).
    cbn [attempt]. destruct (parent_generation r0 =? gen) eqn:Eg; cbn [negb raise_if attempt]; [|done].
    bool_inv. destruct (bool_decide (state r0 = "settled")) eqn:Es.
    { destruct (bool_decide (result_sha256 r0 = Some sha)) eqn:Eh; [|done]. intros _. bool_inv.
      exists p, r0. done. }
    destruct (bool_decide (state r0 ∈ _)); cbn [raise_if attempt]; [done|].
    destruct (bool_decide (state r0 = "dispatched")); cbn [negb raise_if attempt]; [|done].
    rewrite (attempt_Ok _ _ p) by done. destruct (float_geb _ _); [done|].
    destruct (compare_digest _ _) as [[]|]; cbn [negb raise_if attempt]; [|done..].
    intros [= _]. eexists p, _. split; [done|]. cbn [fst snd take apply_writes fold_left checkpoints _atomic_write_json].
    rewrite lookup_insert_eq. done. }
  destruct Hs as (p & stored & Hp & Hl & Hst & Hsha & Hgen). exists stored.
  split; [apply get_Ok; eauto|]. split; [done|]. split; [done|].
  assert (Hreq : _require sd s' id = Ok stored) by by eapply require_intro.
  split.
  { unfold cancel. rewrite (attempt_Ok _ _ stored) by done. rewrite Hst. by rewrite bool_decide_eq_true_2 by (by by_decide). }
  unfold inject_result. rewrite (attempt_Ok _ _ stored) by done. rewrite Hgen, Hst, Hsha.
  destruct (gen =? gen') eqn:Eg; bool_inv; cbn [negb raise_if attempt]; [|split; [left; congruence|done]].
  rewrite bool_decide_eq_true_2 by done. destruct (bool_decide (Some sha = Some sha')) eqn:Eh; bool_inv.
  - injection Eh as ->. done.
  - split; [right; congruence|done].
Qed.

Lemma settled_once_witness :
  let s := run "/s" empty_store (take 3 demo_calls) in
  let s' := step "/s" s (OpInject demo_id 1 demo_result demo_sha (float_lit 1010), 1%nat) in
  ∃ stored, get "/s" s' demo_id = Ok (Some stored) ∧ cancel "/s" s' demo_id "no" = (Ok stored, []).
Proof.
  intros s s'. destruct (inject_result "/s" s demo_id 1 demo_result demo_sha (float_lit 1010)) as [[r|] ws] eqn:E;
    [|vm_compute in E; discriminate].
  assert (H : (inject_result "/s" s demo_id 1 demo_result demo_sha (float_lit 1010)).1 = Ok r)
    by exact (f_equal fst E).
  destruct (settled_once "/s" s demo_id 1 demo_result demo_sha (float_lit 1010) r 1 [] "x" (float_lit 0) "no" H)
    as (stored & H1 & _ & _ & H2 & _).
  exact (ex_intro _ stored (conj H1 H2)).
Defined.

(** No traversal: for a store rooted at a plain absolute path, [_path]
    accepts exactly the canonical id grammar, and what it returns is the file
    [<id>.json] directly inside the store's own checkpoint directory, a
    different file for every id. *)
Theorem path_contained sd ds id :
  plain_abs sd ds →
  is_ok (_path sd id) = fullmatch DELEGATION_ID_RE id ∧
  ∀ p, _path sd id = Ok p →
    plain_abs p (ds ++ ["delegation-checkpoints"; id +:+ ".json"]) ∧
    ∀ id', _path sd id' = Ok p → id' = id.
Proof.
  intros Hs.
  assert (Hm : ∀ id p, _path sd id = Ok p → plain_abs p (ds ++ ["delegation-checkpoints"; id +:+ ".json"])).
  { intros i p Hp. destruct (fullmatch DELEGATION_ID_RE i) eqn:E.
    - destruct (_path_plain sd ds i Hs E) as (p' & Hp' & Hpl). congruence.
    - unfold _path in Hp. by rewrite E in Hp. }
  split.
  - destruct (fullmatch DELEGATION_ID_RE id) eqn:E.
    + by destruct (_path_plain sd ds id Hs E) as (p & -> & _).
    + unfold _path. by rewrite E.
  - intros p Hp. split; [by apply Hm|]. intros id' Hp'.
    pose proof (plain_abs_inj _ _ _ (Hm _ _ Hp) (Hm _ _ Hp')) as H.
    apply app_inv_head in H. injection H as H. symmetry. by apply app_json_inj.
Qed.

Lemma path_contained_witness :
  plain_abs "/srv/state" ["srv"; "state"] ∧
  is_ok (_path "/srv/state" demo_id) = true ∧ is_ok (_path "/srv/state" "../../victim") = false.
Proof.
  assert (H : plain_abs "/srv/state" ["srv"; "state"]).
  { split; [reflexivity|]. repeat constructor. }
  split; [exact H|]. split.
  - rewrite (proj1 (path_contained _ _ demo_id H)). vm_compute. reflexivity.
  - rewrite (proj1 (path_contained _ _ "../../victim" H)). reflexivity.
Defined.

(** The sweep marks exactly the overdue: it rewrites the file of every open
    record whose expiry the moment has reached and of no other, each with its
    state set to stale, and once it is complete a second sweep at the same
    moment finds nothing. *)
Theorem sweep_exact sd s moment :
  let s' := step sd s (OpSweep moment, length (sweep_expired s moment).2) in
  (∀ p, checkpoints s' !! p =
    (λ r, if expired_at moment r then reread (with_state r "stale") else r) <$> checkpoints s !! p) ∧
  root_ledgers s' = root_ledgers s ∧
  (sweep_expired s' moment).2 = [].
Proof.
  intros s'. unfold s', step. cbn [fst snd op_writes]. rewrite firstn_all.
  assert (Hs : checkpoints (apply_writes s (sweep_expired s moment).2) =
    (λ r, if expired_at moment r then reread (with_state r "stale") else r) <$> checkpoints s ∧
    root_ledgers (apply_writes s (sweep_expired s moment).2) = root_ledgers s).
  { unfold sweep_expired. rewrite sweep_loop_spec by apply sweep_paths_nodup. cbn [snd].
    apply sweep_writes_all; [apply sweep_paths_nodup|].
    intros p r Hr. rewrite sort_strings_perm, list_elem_of_fmap. exists (p, r).
    split; [done|]. by apply elem_of_map_to_list. }
  destruct Hs as [Hc Hl]. split_and!; [|done|].
  - intros p. by rewrite Hc, lookup_fmap.
  - set (s1 := apply_writes _ _) in *. unfold sweep_expired.
    rewrite sweep_loop_spec by apply sweep_paths_nodup. cbn [snd].
    assert (∀ p, sweep_hit moment s1 p = None) as Hn.
    { intros p. unfold sweep_hit. rewrite Hc, lookup_fmap.
      destruct (checkpoints s !! p) as [r|]; [|done]. cbn.
      destruct (expired_at moment r) eqn:E; [|by rewrite E]. done. }
    generalize (sort_strings (map_to_list (checkpoints s1)).*1). intros l.
    induction l as [|p l IH]; [done|]. cbn. by rewrite Hn.
Qed.

(** The delegation id binds the request: two requests with one id agree on
    the parent task, attempt and generation, the target, the question and the
    whole authority, or a digest truncation or a SHA-256 collision on the named
    texts is at hand. *)
Theorem delegation_id_binds q q' :
  request_id q = request_id q' →
  same_binding q q' ∨ sha256_collide (scope_text q) (scope_text q') ∨
  (request_text q ≠ request_text q' ∧
   str_take 32 (_sha256_text (request_text q)) = str_take 32 (_sha256_text (request_text q'))).
Proof.
  intros H. unfold request_id, _delegation_id in H. apply string_app_inj in H.
  change (str_take 32 (_sha256_text (request_text q)) = str_take 32 (_sha256_text (request_text q'))) in H.
  assert (request_text q = request_text q' ∨ request_text q ≠ request_text q') as [Ht|Ht]
    by (generalize (request_text q), (request_text q'); intros s t; destruct (decide (s = t)); auto);
    [|right; right; exact (conj Ht H)].
  unfold request_text in Ht. apply delegation_material_inj in Ht as (H1 & H2 & H3 & H4 & H5 & H6).
  unfold authority_sha256 in H6. apply sha256_text_inj in H6 as [H6|H6]; [|by right; left].
  left. refine (conj H1 (conj H2 (conj H3 (conj H4 (conj H5 _))))). apply dumps_inj in H6; [|apply authority_dict_wf..].
  by apply authority_canon_inj.
Qed.

Lemma delegation_id_binds_witness :
  let q := demo_request "why" in
  let q' := {| rq_parent_task_id := "TASK-1"; rq_parent_attempt_id := "a1"; rq_parent_generation := 1;
    rq_requester_specialist := "someone else"; rq_target_specialist := "auditor"; rq_question := "why";
    rq_lineage := demo_lineage; rq_budget := default_budget; rq_authority := demo_authority;
    rq_ttl_seconds := TtlNone; rq_now := float_lit 5 |} in
  request_id q = request_id q' ∧
  (same_binding q q' ∨ sha256_collide (scope_text q) (scope_text q') ∨
   (request_text q ≠ request_text q' ∧
    str_take 32 (_sha256_text (request_text q)) = str_take 32 (_sha256_text (request_text q')))).
Proof.
  intros q q'. assert (H : request_id q = request_id q') by (vm_compute; reflexivity).
  exact (conj H (delegation_id_binds q q' H)).
Defined.
