(* ===== verification/CoordLock.v ===== *)
(** * The coordination store's lock ([coordination.py], [_store_lock])

    Threads of several processes contend for one lock directory.  Each atomic
    file-system action of the acquire loop and of the release is one step; the
    scheduler and process crashes choose the order.  Staging and graveyard
    directories have private random names, so their own steps touch nothing
    shared and are folded into the step that makes them visible. *)
From S2P Require Import Prelude Json.

#[local] Open Scope Z_scope.

(** Where a thread stands in [_store_lock]. *)
Variant Pc :=
  | Trying                  (** top of the loop, nothing staged *)
  | Staged                  (** staging directory written, before [os.rename] *)
  | Refused                 (** rename failed, before [owner_path.read_text] *)
  | Checking (owner : Z)    (** owner read, before [os.kill(owner, 0)] *)
  | Reclaiming              (** found stale, before [_teardown_lock_dir] *)
  | Waiting                 (** not stale, before the deadline test *)
  | TimedOut                (** raised [TimeoutError] *)
  | Critical                (** inside the [with] body *)
  | Leaving                 (** in [finally], before reading the owner *)
  | Removing                (** owner is this process, before the teardown *)
  | Finished
  | Dead.                   (** its process was killed *)

#[export] Instance pc_eq_dec : EqDecision Pc.
Proof. solve_decision. Defined.

(** A directory of the lock's name, by the text of its [owner.pid] if any. *)
Definition LockDir : Type := option string.

Record LockState := {
  lock_dir : option LockDir;
  pcs : gmap nat Pc;
  dead : list Z
}.

Variant LockStep :=
  | LStage (t : nat) | LPublish (t : nat) | LReadOwner (t : nat) | LProbe (t : nat)
  | LReclaim (t : nat) | LWait (t : nat) (deadline_passed : bool)
  | LExit (t : nat) | LReadRelease (t : nat) | LRelease (t : nat) | LCrash (pid : Z).

Definition owner_text (pid : Z) : string := str_of_int pid +:+ String "010" "".

(** [os.rename] of a directory onto the lock's name: it needs the name to be
    free or an empty directory. *)
Definition rename_onto (target : option LockDir) (staging : LockDir) : option LockDir :=
  match target with
  | None | Some None => Some staging
  | Some (Some _) => None
  end.

Definition _pid_is_alive (dead : list Z) (pid : Z) : bool := negb (bool_decide (pid ∈ dead)).

(** [_teardown_lock_dir]: the rename away removes the shared name at once. *)
Definition _teardown_lock_dir (_ : option LockDir) : option LockDir := None.

Section Lock.
Context (pid : nat → Z).

Definition pc (s : LockState) (t : nat) : Pc := default Trying (pcs s !! t).

Definition goto (s : LockState) (t : nat) (p : Pc) : LockState :=
  {| lock_dir := lock_dir s; pcs := <[t := p]> (pcs s); dead := dead s |}.
Definition with_lock (s : LockState) (d : option LockDir) : LockState :=
  {| lock_dir := d; pcs := pcs s; dead := dead s |}.

(** [kill -9]: every thread of the process stops where it stands. *)
Definition crash (s : LockState) (p : Z) : LockState :=
  {| lock_dir := lock_dir s; dead := p :: dead s;
     pcs := map_imap (λ t q, Some (if bool_decide (pid t = p) then Dead else q)) (pcs s) |}.

Definition init : LockState := {| lock_dir := None; pcs := ∅; dead := [] |}.

(** One step; [None] when the thread is not at that point.  A thread starts
    only in a live process. *)
Definition lock_step (s : LockState) (l : LockStep) : option LockState :=
  match l with
  | LStage t =>
      if bool_decide (pc s t = Trying) && _pid_is_alive (dead s) (pid t) then Some (goto s t Staged) else None
  | LPublish t =>
      if bool_decide (pc s t = Staged) then
        match rename_onto (lock_dir s) (Some (owner_text (pid t))) with
        | Some d => Some (goto (with_lock s (Some d)) t Critical)
        | None => Some (goto s t Refused)
        end
      else None
  | LReadOwner t =>
      if bool_decide (pc s t = Refused) then
        match lock_dir s with
        | Some (Some text) =>
            let owner := py_strip text in
            Some (goto s t (if isdigit owner then Checking (read_digits 0 owner).1 else Reclaiming))
        | _ => Some (goto s t Waiting)
        end
      else None
  | LProbe t =>
      match pc s t with
      | Checking owner => Some (goto s t (if _pid_is_alive (dead s) owner then Waiting else Reclaiming))
      | _ => None
      end
  | LReclaim t =>
      if bool_decide (pc s t = Reclaiming) then
        Some (goto (with_lock s (_teardown_lock_dir (lock_dir s))) t Trying)
      else None
  | LWait t deadline_passed =>
      if bool_decide (pc s t = Waiting) then Some (goto s t (if deadline_passed then TimedOut else Trying)) else None
  | LExit t => if bool_decide (pc s t = Critical) then Some (goto s t Leaving) else None
  | LReadRelease t =>
      if bool_decide (pc s t = Leaving) then
        match lock_dir s with
        | Some (Some text) =>
            Some (goto s t (if bool_decide (py_strip text = str_of_int (pid t)) then Removing else Finished))
        | _ => Some (goto s t Finished)
        end
      else None
  | LRelease t =>
      if bool_decide (pc s t = Removing) then
        Some (goto (with_lock s (_teardown_lock_dir (lock_dir s))) t Finished)
      else None
  | LCrash p =>
      Some (crash s p)
  end.

Fixpoint lock_run (s : LockState) (ls : list LockStep) : option LockState :=
  match ls with
  | [] => Some s
  | l :: ls => s' ← lock_step s l; lock_run s' ls
  end.

(** ** What the lock promises *)

Definition holding (p : Pc) : bool :=
  match p with Critical | Leaving | Removing => true | _ => false end.

(** A reclaim is timely when the lock it removes still names a dead process,
    or no directory is left to remove. *)
Definition timely (s : LockState) (l : LockStep) : Prop :=
  match l with
  | LReclaim _ => ∀ t, lock_dir s = Some (Some (owner_text (pid t))) → pid t ∈ dead s
  | _ => True
  end.

Fixpoint timely_run (s : LockState) (ls : list LockStep) : Prop :=
  match ls with
  | [] => True
  | l :: ls => match lock_step s l with Some s' => timely s l ∧ timely_run s' ls | None => True end
  end.

(** Every lock directory any run leaves has an owner in it. *)
Definition owned (s : LockState) : Prop :=
  ∀ d, lock_dir s = Some d → ∃ t, d = Some (owner_text (pid t)).

Record lock_inv (s : LockState) : Prop := {
  li_lock : ∀ d, lock_dir s = Some d →
    ∃ t, d = Some (owner_text (pid t)) ∧ (holding (pc s t) = true ∨ pid t ∈ dead s);
  li_holds : ∀ t, holding (pc s t) = true →
    lock_dir s = Some (Some (owner_text (pid t))) ∧ pid t ∉ dead s;
  li_one : ∀ t u, holding (pc s t) = true → holding (pc s u) = true → t = u;
  li_live : ∀ t, pc s t = Staged → pid t ∉ dead s
}.

Context (pid_pos : ∀ t, 0 < pid t).

(** *** Owner texts *)

Lemma dec_digits_all fuel n acc :
  0 <= n → str_forallb is_digit acc = true → str_forallb is_digit (dec_digits fuel n acc) = true.
Proof.
  revert n acc. induction fuel as [|fuel IH]; intros n acc Hn Ha; [done|]. cbn [dec_digits].
  destruct (digit_char_props (n mod 10)) as [Hd _]; [apply Z.mod_pos_bound; lia|].
  assert (Hacc : str_forallb is_digit (String (digit_char (n mod 10)) acc) = true).
  { cbn [str_forallb]. by rewrite Hd. }
  destruct (n <? 10); [done|]. apply IH; [apply Z.div_pos; lia|done].
Qed.

Lemma digit_not_space c : is_digit c = true → py_isspace c = false.
Proof. unfold is_digit, py_isspace. pose proof (code_range c). lia. Qed.

Lemma rstrip_space_free s t :
  str_forallb (λ c, negb (py_isspace c)) s = true → rstrip_by py_isspace t = "" →
  rstrip_by py_isspace (s +:+ t) = s.
Proof.
  intros Hs Ht. induction s as [|c s IH]; [by rewrite str_app_nil_l|].
  cbn [str_forallb] in Hs. apply andb_true_iff in Hs as [Hc%negb_true_iff Hs].
  rewrite str_app_cons. cbn [rstrip_by]. rewrite IH by done. destruct s; [by rewrite Hc|done].
Qed.

(** What a reader of an owner file finds. *)
Lemma owner_text_reads p :
  0 < p → py_strip (owner_text p) = str_of_int p ∧ isdigit (str_of_int p) = true ∧
    (read_digits 0 (str_of_int p)).1 = p.
Proof.
  intros Hp. assert (E : str_of_int p = str_of_nonneg p).
  { unfold str_of_int. by destruct (p <? 0) eqn:?; bool_inv; [lia|]. }
  assert (Hall : str_forallb is_digit (str_of_nonneg p) = true) by (apply dec_digits_all; [lia|done]).
  destruct (str_of_nonneg_head p) as (c & t & Hc & Hd); [lia|].
  unfold owner_text. rewrite E. split_and!.
  - unfold py_strip. rewrite Hc, str_app_cons, lstrip_by_head by by apply digit_not_space.
    rewrite <- str_app_cons, <- Hc. apply rstrip_space_free; [|done].
    eapply str_forallb_impl; [|exact Hall]. intros d Hdg. by rewrite digit_not_space.
  - unfold isdigit. rewrite Hall, Hc. done.
  - unfold str_of_nonneg. rewrite read_dec_digits; [done|pose proof (log2_fuel p Hp); lia|done].
Qed.

Lemma owner_text_inj p q : owner_text p = owner_text q → 0 < p → 0 < q → p = q.
Proof.
  intros E Hp Hq. apply str_of_int_inj. rewrite <- (proj1 (owner_text_reads p Hp)), E.
  apply owner_text_reads, Hq.
Qed.

(** *** The invariants *)

Lemma pc_goto s t p u : pc (goto s t p) u = if decide (u = t) then p else pc s u.
Proof.
  unfold pc, goto. cbn. destruct (decide (u = t)) as [->|Hne].
  - by rewrite lookup_insert_eq.
  - by rewrite lookup_insert_ne.
Qed.

Lemma pc_with_lock s d u : pc (with_lock s d) u = pc s u.
Proof. done. Qed.

Lemma pc_crash s p u :
  pc (crash s p) u =
  match pcs s !! u with
  | Some q => if bool_decide (pid u = p) then Dead else q
  | None => Trying
  end.
Proof. unfold pc. cbn. rewrite map_lookup_imap. by destruct (pcs s !! u). Qed.

Lemma lock_step_owned s l s' : owned s → lock_step s l = Some s' → owned s'.
Proof.
  intros Ho. destruct l; cbn [lock_step]; intros H;
    repeat (case_match; try done); try (injection H as <-; try exact Ho; by intros d [=]).
  injection H as <-. intros d. cbn. intros [= <-]. unfold rename_onto in *.
  destruct (lock_dir s) as [[?|]|]; simplify_eq; eauto.
Qed.

Lemma inv_goto s t p :
  lock_inv s → holding p = holding (pc s t) → (p = Staged → pid t ∉ dead s) → lock_inv (goto s t p).
Proof.
  intros [Hl Hh H1 Hs] Hp Hst.
  assert (E : ∀ u, holding (pc (goto s t p) u) = holding (pc s u)).
  { intros u. rewrite pc_goto. by case_decide; subst. }
  split.
  - intros d Hd. destruct (Hl d Hd) as (u & -> & Hu). exists u. by rewrite E.
  - intros u. rewrite E. apply Hh.
  - intros u v. rewrite !E. apply H1.
  - intros u. rewrite pc_goto. case_decide; subst; [done|apply Hs].
Qed.

(** A state in which nobody holds and no directory is left. *)
Lemma inv_free s :
  lock_dir s = None → (∀ t, holding (pc s t) = false) → (∀ t, pc s t = Staged → pid t ∉ dead s) → lock_inv s.
Proof.
  intros Hl Hh Hs. split; [by rewrite Hl| | |done].
  - intros t. by rewrite Hh.
  - intros t u. by rewrite Hh.
Qed.

Lemma lock_step_inv s l s' : lock_inv s → timely s l → lock_step s l = Some s' → lock_inv s'.
Proof using pid_pos.
  intros Hi Ht. pose proof Hi as [Hl Hh H1 Hs]. destruct l as [t|t|t|t|t|t b|t|t|t|p]; cbn [lock_step].
  - destruct (bool_decide (pc s t = Trying)) eqn:E; [|done]. bool_inv. unfold _pid_is_alive.
    destruct (bool_decide (pid t ∈ dead s)) eqn:Ea; [done|]. bool_inv. intros [= <-].
    apply inv_goto; [done|by rewrite E|done].
  - destruct (bool_decide (pc s t = Staged)) eqn:E; [|done]. bool_inv.
    destruct (lock_dir s) as [d|] eqn:Ed.
    + destruct (Hl d eq_refl) as (u & -> & _). cbn. intros [= <-].
      apply inv_goto; [done|by rewrite E|done].
    + assert (Hno : ∀ u, holding (pc s u) = false).
      { intros u. destruct (holding (pc s u)) eqn:Eh; [|done]. by apply Hh in Eh as [? _]. }
      intros [= <-]. split.
      * intros d [= <-]. exists t. split; [done|]. left. rewrite pc_goto. by rewrite decide_True.
      * intros u. rewrite pc_goto. case_decide; [subst|rewrite pc_with_lock, Hno; done]. intros _.
        split; [done|]. by apply Hs.
      * intros u v. rewrite !pc_goto, !pc_with_lock. repeat case_decide; subst; by rewrite ?Hno.
      * intros u. rewrite pc_goto. case_decide; [done|apply Hs].
  - destruct (bool_decide (pc s t = Refused)) eqn:E; [|done]. bool_inv.
    destruct (lock_dir s) as [[text|]|]; intros [= <-]; (apply inv_goto; [done|rewrite E|]); try done;
      by destruct (isdigit _).
  - destruct (pc s t) as [| | |o| | | | | | | |] eqn:E; try done. intros [= <-].
    apply inv_goto; [done|rewrite E|]; by destruct (_pid_is_alive _ _).
  - destruct (bool_decide (pc s t = Reclaiming)) eqn:E; [|done]. bool_inv. intros [= <-].
    assert (Hno : ∀ u, holding (pc s u) = false).
    { intros u. destruct (holding (pc s u)) eqn:Eh; [|done]. apply Hh in Eh as [Hlk Hu]. by apply Ht in Hlk. }
    apply inv_free; [done| |]; intros u; rewrite pc_goto; case_decide; try done; [apply Hno|apply Hs].
  - destruct (bool_decide (pc s t = Waiting)) eqn:E; [|done]. bool_inv. intros [= <-].
    apply inv_goto; [done|rewrite E|]; by destruct b.
  - destruct (bool_decide (pc s t = Critical)) eqn:E; [|done]. bool_inv. intros [= <-].
    apply inv_goto; [done|by rewrite E|done].
  - destruct (bool_decide (pc s t = Leaving)) eqn:E; [|done]. bool_inv.
    destruct (Hh t) as [Hlk _]; [by rewrite E|]. rewrite Hlk, (proj1 (owner_text_reads _ (pid_pos t))).
    rewrite bool_decide_eq_true_2 by done. intros [= <-]. apply inv_goto; [done|by rewrite E|done].
  - destruct (bool_decide (pc s t = Removing)) eqn:E; [|done]. bool_inv. intros [= <-].
    apply inv_free; [done| |]; intros u; rewrite pc_goto, pc_with_lock; case_decide; try done; [|apply Hs].
    destruct (holding (pc s u)) eqn:Eh; [|done]. destruct (H1 u t); [done|by rewrite E|done].
  - intros [= <-].
    assert (Hpc : ∀ u, pc s u = pc (crash s p) u ∧ (pcs s !! u = None ∨ pid u ≠ p) ∨
        pid u = p ∧ pc (crash s p) u = Dead).
    { intros u. rewrite pc_crash. unfold pc. destruct (pcs s !! u); cbn; [|by left; auto].
      case_bool_decide; auto. }
    split.
    + intros d Hd. destruct (Hl d Hd) as (u & -> & Hu). exists u. split; [done|]. cbn [dead].
      destruct (Hpc u) as [[<- _]|[-> _]]; [|right; by left]. destruct Hu as [Hu|Hu]; [by left|right; by right].
    + intros u Hu. destruct (Hpc u) as [[E Hne]|[_ E]]; [rewrite <- E in Hu|by rewrite E in Hu].
      destruct (Hh u Hu) as [? ?]. split; [done|]. cbn [dead]. apply not_elem_of_cons. split; [|done].
      destruct Hne as [Hn|Hn]; [|done]. unfold pc in Hu. by rewrite Hn in Hu.
    + intros u v. destruct (Hpc u) as [[<- _]|[_ ->]]; [|done]. destruct (Hpc v) as [[<- _]|[_ ->]]; [|done]. apply H1.
    + intros u Hu. destruct (Hpc u) as [[E Hne]|[_ E]]; [rewrite <- E in Hu|by rewrite E in Hu].
      specialize (Hs u Hu). cbn [dead]. apply not_elem_of_cons. split; [|done].
      destruct Hne as [Hn|Hn]; [|done]. unfold pc in Hu. by rewrite Hn in Hu.
Qed.

Lemma lock_run_inv ls s s' : lock_inv s → timely_run s ls → lock_run s ls = Some s' → lock_inv s'.
Proof using pid_pos.
  revert s. induction ls as [|l ls IH]; intros s Hi; cbn [lock_run timely_run]; [by intros _ [= <-]|].
  destruct (lock_step s l) as [s1|] eqn:E; [|done]. intros [Ht Hts]. cbn.
  apply IH; [by eapply lock_step_inv|done].
Qed.

Lemma lock_run_owned ls s s' : owned s → lock_run s ls = Some s' → owned s'.
Proof.
  revert s. induction ls as [|l ls IH]; intros s Ho; cbn [lock_run]; [by intros [= <-]|].
  destruct (lock_step s l) as [s1|] eqn:E; [|done]. cbn. apply IH. by eapply lock_step_owned.
Qed.

Lemma init_inv : lock_inv init.
Proof. apply inv_free; [done| |]; intros t; unfold pc; cbn; by rewrite lookup_empty. Qed.

Lemma init_owned : owned init.
Proof. by intros d. Qed.

(** Without crashes nobody is ever found stale. *)
Definition calm (s : LockState) : Prop :=
  dead s = [] ∧ owned s ∧ ∀ t, pc s t ≠ Reclaiming.

Lemma lock_step_calm s l s' :
  calm s → (∀ p, l ≠ LCrash p) → lock_step s l = Some s' → calm s'.
Proof using pid_pos.
  intros (Hd & Ho & Hr) Hl H. pose proof (lock_step_owned _ _ _ Ho H) as Ho'.
  assert (Hg : ∀ t p d, p ≠ Reclaiming → owned (goto (with_lock s d) t p) → calm (goto (with_lock s d) t p)).
  { intros t p d Hp How. split; [done|]. split; [done|]. intros u. rewrite pc_goto. case_decide; [done|apply Hr]. }
  assert (Hg0 : ∀ t p, p ≠ Reclaiming → calm (goto s t p)).
  { intros t p Hp. split; [done|]. split; [done|]. intros u. rewrite pc_goto. case_decide; [done|apply Hr]. }
  destruct l as [t|t|t|t|t|t b|t|t|t|p]; cbn [lock_step] in H; [..|by destruct (Hl p)].
  - case_match; [|done]. injection H as <-. by apply Hg0.
  - case_match; [|done]. case_match; injection H as <-; [by apply Hg|by apply Hg0].
  - case_match; [|done]. destruct (lock_dir s) as [[text|]|] eqn:El; injection H as <-; apply Hg0; try done.
    destruct (Ho _ El) as (u & [= ->]). destruct (owner_text_reads (pid u) (pid_pos u)) as (-> & -> & _). done.
  - destruct (pc s t); try done. injection H as <-. apply Hg0.
    unfold _pid_is_alive. rewrite Hd. by rewrite bool_decide_eq_false_2 by by intros ?%elem_of_nil.
  - case_match; [|done]. bool_inv. by destruct (Hr t).
  - case_match; [|done]. injection H as <-. apply Hg0. by destruct b.
  - case_match; [|done]. injection H as <-. by apply Hg0.
  - case_match; [|done]. destruct (lock_dir s) as [[text|]|]; injection H as <-; apply Hg0; try done.
    by case_bool_decide.
  - case_match; [|done]. injection H as <-. by apply Hg.
Qed.

Lemma calm_timely ls s : calm s → (∀ p, LCrash p ∉ ls) → timely_run s ls.
Proof using pid_pos.
  revert s. induction ls as [|l ls IH]; intros s Hc Hl; cbn [timely_run]; [done|].
  destruct (lock_step s l) as [s'|] eqn:E; [|done]. split.
  - destruct l; try done. cbn [lock_step] in E. case_match; [|done]. bool_inv. by destruct Hc as (_ & _ & Hr), (Hr t).
  - apply IH; [|by intros p ?; apply (Hl p); right]. eapply lock_step_calm; [done| |done].
    intros p ->. apply (Hl p). by left.
Qed.

(** Nobody is left to give the lock back: it is free, or its owner was killed. *)
Definition abandoned (s : LockState) : Prop :=
  ∀ t, lock_dir s = Some (Some (owner_text (pid t))) → pid t ∈ dead s.

Lemma enabled_stage s t : pc s t = Trying → pid t ∉ dead s → lock_step s (LStage t) = Some (goto s t Staged).
Proof.
  intros E Ha. cbn. unfold _pid_is_alive. by rewrite bool_decide_eq_true_2, bool_decide_eq_false_2.
Qed.

Lemma run_cons s l s1 ls r : lock_step s l = Some s1 → lock_run s1 ls = r → lock_run s (l :: ls) = r.
Proof. intros H <-. cbn [lock_run]. by rewrite H. Qed.

Lemma pc_goto_eq s t p : pc (goto s t p) t = p.
Proof. by rewrite pc_goto, decide_True. Qed.

Lemma publish_free s t :
  pc s t = Staged → lock_dir s = None →
  lock_step s (LPublish t) = Some (goto (with_lock s (Some (Some (owner_text (pid t))))) t Critical).
Proof. intros E El. cbn. rewrite El. by rewrite bool_decide_eq_true_2. Qed.

Lemma publish_taken s t text :
  pc s t = Staged → lock_dir s = Some (Some text) → lock_step s (LPublish t) = Some (goto s t Refused).
Proof. intros E El. cbn. rewrite El. by rewrite bool_decide_eq_true_2. Qed.

Lemma read_owner s t u :
  0 < pid u → pc s t = Refused → lock_dir s = Some (Some (owner_text (pid u))) →
  lock_step s (LReadOwner t) = Some (goto s t (Checking (pid u))).
Proof.
  intros Hp E El. cbn. rewrite El, bool_decide_eq_true_2 by done.
  by destruct (owner_text_reads (pid u) Hp) as (-> & -> & ->).
Qed.

Lemma probe_dead s t p :
  pc s t = Checking p → p ∈ dead s → lock_step s (LProbe t) = Some (goto s t Reclaiming).
Proof. intros E Hd. cbn. rewrite E. unfold _pid_is_alive. by rewrite bool_decide_eq_true_2. Qed.

Lemma reclaim_step s t :
  pc s t = Reclaiming → lock_step s (LReclaim t) = Some (goto (with_lock s None) t Trying).
Proof. intros E. cbn. by rewrite bool_decide_eq_true_2. Qed.

Lemma free_acquires s t :
  lock_dir s = None → pc s t = Trying → pid t ∉ dead s →
  ∃ s', lock_run s [LStage t; LPublish t] = Some s' ∧ pc s' t = Critical ∧
    lock_dir s' = Some (Some (owner_text (pid t))).
Proof.
  intros Hl Hp Ha. eexists. split.
  - eapply run_cons; [by apply enabled_stage|].
    eapply run_cons; [apply publish_free; [apply pc_goto_eq|done]|]. done.
  - split; [apply pc_goto_eq|done].
Qed.

End Lock.

(** ** Properties *)

(** C3. Under every schedule of threads and process crashes, at most one thread
    is in the critical section, and the lock then names that thread's live
    process, as long as every reclaim that happens removes a lock whose
    recorded process is still a dead one.  Without crashes no reclaim happens,
    so exclusion is unconditional; and a lock directory is never without its
    owner, whatever happens. *)
Theorem lock_exclusive (pid : nat → Z) ls s :
  (∀ t, 0 < pid t) → lock_run pid init ls = Some s →
  owned pid s ∧
  (timely_run pid init ls ∨ (∀ p, LCrash p ∉ ls) →
   ∀ t, pc s t = Critical →
     lock_dir s = Some (Some (owner_text (pid t))) ∧ pid t ∉ dead s ∧ ∀ u, pc s u = Critical → u = t).
Proof.
  intros Hp H. split; [eapply lock_run_owned; [apply init_owned|done]|]. intros Hc t Ht.
  assert (Htm : timely_run pid init ls).
  { destruct Hc as [Hc|Hc]; [done|]. apply calm_timely; [done| |done]. split; [done|]. split; [apply init_owned|].
    intros u. unfold pc. cbn. by rewrite lookup_empty. }
  destruct (lock_run_inv pid Hp _ _ _ (init_inv pid) Htm H) as [_ Hh H1 _].
  destruct (Hh t) as [? ?]; [by rewrite Ht|]. split; [done|]. split; [done|].
  intros u Hu. apply H1; [by rewrite Hu|by rewrite Ht].
Qed.

Definition demo_pid (t : nat) : Z := 100 + Z.of_nat t.

(** One holder killed, then a single waiter that reclaims and acquires. *)
Definition demo_takeover : list LockStep :=
  [LStage 0; LPublish 0; LStage 1; LPublish 1; LCrash 100; LReadOwner 1; LProbe 1; LReclaim 1; LStage 1; LPublish 1].

Lemma lock_exclusive_witness :
  ∃ s, lock_run demo_pid init demo_takeover = Some s ∧ pc s 1 = Critical ∧
    lock_dir s = Some (Some (owner_text 101)) ∧ ∀ u, pc s u = Critical → u = 1%nat.
Proof.
  destruct (lock_run demo_pid init demo_takeover) as [s|] eqn:E; [|vm_compute in E; discriminate].
  assert (Hp : ∀ t, 0 < demo_pid t) by (intros t; unfold demo_pid; lia).
  assert (Hc : pc s 1 = Critical) by (vm_compute in E; injection E as <-; reflexivity).
  assert (Ht : timely_run demo_pid init demo_takeover).
  { unfold demo_takeover.
    repeat (cbn [timely_run]; match goal with |- match ?x with _ => _ end =>
      let y := eval vm_compute in x in change x with y; cbv iota; split end); try exact I.
    intros t Ht. injection Ht as Ht. apply (owner_text_inj 100) in Ht; [|unfold demo_pid; lia..].
    rewrite <- Ht. by left. }
  destruct (lock_exclusive demo_pid demo_takeover s Hp E) as [_ H].
  destruct (H (or_introl Ht) 1%nat Hc) as (Hl & _ & Hu).
  exists s. split; [reflexivity|]. split; [exact Hc|]. split; [exact Hl|exact Hu].
Defined.

(** The exclusion the design note claims for crashes does not hold: with
    one killed holder and two waiters that both read its owner file, the second
    waiter's teardown removes the lock the first has just published, and both
    of these live threads end up in the critical section. *)
Theorem lock_two_holders :
  ∃ ls s, lock_run demo_pid init ls = Some s ∧
    List.filter (λ l, match l with LCrash _ => true | _ => false end) ls = [LCrash 100] ∧
    pc s 1 = Critical ∧ pc s 2 = Critical ∧ demo_pid 1 ∉ dead s ∧ demo_pid 2 ∉ dead s.
Proof.
  exists ([LStage 0; LPublish 0; LCrash 100;
           LStage 1; LPublish 1; LReadOwner 1; LProbe 1;
           LStage 2; LPublish 2; LReadOwner 2; LProbe 2;
           LReclaim 1; LStage 1; LPublish 1;
           LReclaim 2; LStage 2; LPublish 2])%nat.
  eexists. split; [vm_compute; reflexivity|]. split_and!; try (vm_compute; reflexivity); by_decide.
Qed.

(** A crash never wedges the lock: in any reachable state, if the lock is
    free or its recorded process is dead, a live thread at the top of its loop
    acquires it by at most seven steps of its own. *)
Theorem lock_recovers (pid : nat → Z) ls s t :
  (∀ t, 0 < pid t) → lock_run pid init ls = Some s → abandoned pid s → pc s t = Trying → pid t ∉ dead s →
  ∃ ls' s', ls' ∈ [[LStage t; LPublish t];
                   [LStage t; LPublish t; LReadOwner t; LProbe t; LReclaim t; LStage t; LPublish t]] ∧
    lock_run pid s ls' = Some s' ∧ pc s' t = Critical ∧ lock_dir s' = Some (Some (owner_text (pid t))).
Proof.
  intros Hp H Hab Ht Ha. destruct (lock_dir s) as [d|] eqn:El.
  - assert (Ho : owned pid s) by (eapply lock_run_owned; [apply init_owned|done]).
    destruct (Ho d El) as (u & ->). specialize (Hab u El).
    set (s1 := goto (with_lock (goto (goto (goto (goto s t Staged) t Refused) t (Checking (pid u))) t Reclaiming) None) t Trying).
    destruct (free_acquires pid s1 t) as (s' & Hr & Hs); [done|apply pc_goto_eq|done|].
    eexists _, s'. split; [right; by left|]. split; [|done].
    eapply run_cons; [by apply enabled_stage|].
    eapply run_cons; [eapply publish_taken; [apply pc_goto_eq|done]|].
    eapply run_cons; [apply (read_owner pid _ t u); [done|apply pc_goto_eq|done]|].
    eapply run_cons; [eapply probe_dead; [apply pc_goto_eq|done]|].
    eapply run_cons; [apply reclaim_step, pc_goto_eq|]. exact Hr.
  - destruct (free_acquires pid s t) as (s' & Hr & Hs); [done..|]. eexists _, s'. split; [by left|]. done.
Qed.

Lemma lock_recovers_witness :
  ∃ s ls' s', lock_run demo_pid init [LStage 0; LPublish 0; LCrash 100]%nat = Some s ∧
    lock_run demo_pid s ls' = Some s' ∧ pc s' 1 = Critical.
Proof.
  destruct (lock_run demo_pid init [LStage 0; LPublish 0; LCrash 100]%nat) as [s|] eqn:E;
    [|vm_compute in E; discriminate].
  destruct (lock_recovers demo_pid _ s 1 ltac:(intros t; unfold demo_pid; lia) E) as (ls' & s' & _ & Hr & Hc & _).
  - injection E as <-. intros t Ht. injection Ht as Ht. unfold demo_pid in *.
    apply owner_text_inj in Ht; [|lia..]. rewrite <- Ht. by left.
  - vm_compute in E. injection E as <-. reflexivity.
  - injection E as <-. cbn [dead crash goto with_lock init]. unfold demo_pid. apply not_elem_of_cons. split; [lia|apply not_elem_of_nil].
  - exists s, ls', s'. split; [reflexivity|]. split; [exact Hr|exact Hc].
Defined.
