(* ===== verification/HeldAction.v ===== *)
(** * The held-action gate ([held_action_gate.py])

    One-shot, target-bound operator tokens.  Minting and verification are
    functions; the consumption ledger is the set of receipt files, a map from
    path to the JSON each holds.  A call takes the receipts it finds to a value
    or exception and the receipts it leaves. *)
From S2P Require Import Prelude Regex Sha256 Json Posix.

#[local] Open Scope Z_scope.

Definition HELD_CATEGORIES : list string :=
  ["cleanup"; "credential_change"; "delete"; "live_outreach"; "malware_detonation";
   "offensive_execution"; "paid_media"; "production_mutation"; "public_release"].

Definition name_char (c : ascii) : bool :=
  is_alnum c || char_in c "._-".

(** [^TASK-[A-Za-z0-9][A-Za-z0-9._-]{3,127}$] *)
Definition TASK_RE : re := RSeq (rlit "TASK-") (RSeq (RChr is_alnum) (rrep 3 127 (RChr name_char))).
(** [^d-[0-9a-f]{32}$] *)
Definition ATTEMPT_RE : re := RSeq (rlit "d-") (rrep 32 32 hex_class).
(** [^[0-9a-f]{64}$] *)
Definition TOKEN_ID_RE : re := rrep 64 64 hex_class.

Definition newline : ascii := "010"%char.
Definition carriage_return : ascii := "013"%char.

(** [_valid_text] on a [str]. *)
Definition _valid_text (value label : string) : res string :=
  raise_if (bool_decide (value = "") || negb (bool_decide (value = py_strip value)) ||
            (512 <? Z.of_nat (String.length value)) ||
            (char_in "000"%char value || char_in newline value || char_in carriage_return value))
    ValueError ("invalid " +:+ label);;
  Ok value.

Record HeldActionToken := {
  token_id : string;
  category : string;
  target : string;
  task_id : string;
  attempt_id : string;
  issued_at : Z;
  expires_at : Z;
  mac : string
}.

#[export] Instance token_eq_dec : EqDecision HeldActionToken.
Proof. solve_decision. Defined.

Definition _canonical_json (value : list (string * json)) : bytes := encode_utf8 (dumps true (JObj value)).

Definition _claims_payload (tid cat tgt task att : string) (issued expires : Z) : list (string * json) :=
  [("token_id", JStr tid); ("category", JStr cat); ("target", JStr tgt); ("task_id", JStr task);
   ("attempt_id", JStr att); ("issued_at", JInt issued); ("expires_at", JInt expires)].

Definition token_payload (t : HeldActionToken) : list (string * json) :=
  _claims_payload (token_id t) (category t) (target t) (task_id t) (attempt_id t) (issued_at t) (expires_at t).

Definition _mac (signing_key : bytes) (payload : list (string * json)) : res string :=
  raise_if (length signing_key <? 16)%nat ValueError
    "held-action signing key must contain at least 16 bytes";;
  Ok (hmac_sha256_hex signing_key (_canonical_json payload)).

(** [mint_token]; [nonce] is what [os.urandom(32)] returned. *)
Definition mint_token (cat tgt task att : string) (issued expires : Z) (signing_key nonce : bytes) :
    res HeldActionToken :=
  raise_if (negb (bool_decide (cat ∈ HELD_CATEGORIES))) ValueError
    "cannot mint a token for a non-held category";;
  _valid_text tgt "target";;
  raise_if (negb (fullmatch TASK_RE task)) ValueError "invalid task id";;
  raise_if (negb (fullmatch ATTEMPT_RE att)) ValueError "invalid attempt id";;
  for_each (λ v, raise_if (v <? 0) ValueError "must be a non-negative integer") [issued; expires];;
  raise_if (expires <=? issued) ValueError "expires_at must be later than issued_at";;
  let tid := sha256_hex nonce in
  m ← _mac signing_key (_claims_payload tid cat tgt task att issued expires);
  Ok {| token_id := tid; category := cat; target := tgt; task_id := task; attempt_id := att;
        issued_at := issued; expires_at := expires; mac := m |}.

(** What the caller is about to do, and for whom. *)
Record Expected := {
  expected_category : string;
  expected_target : string;
  expected_task_id : string;
  expected_attempt_id : string
}.

Definition is_value_error (c : exn_class) : bool := match c with ValueError => true | _ => false end.

Definition verify_token (token : HeldActionToken) (signing_key : bytes) (e : Expected) (now : Z) :
    res HeldActionToken :=
  raise_if (negb (fullmatch TOKEN_ID_RE (token_id token))) HeldActionDenied "invalid token id";;
  expected_mac ← reraise is_value_error HeldActionDenied (_mac signing_key (token_payload token));
  same ← compare_digest expected_mac (mac token);
  raise_if (negb same) HeldActionDenied "token signature mismatch";;
  raise_if (negb (bool_decide (category token ∈ HELD_CATEGORIES))) HeldActionDenied
    "token category is not a held category";;
  raise_if (negb (bool_decide (category token = expected_category e))) HeldActionDenied
    "token category does not match the requested action";;
  raise_if (negb (bool_decide (target token = expected_target e))) HeldActionDenied
    "token target does not match the requested action";;
  raise_if (negb (bool_decide (task_id token = expected_task_id e))) HeldActionDenied
    "token task does not match the requesting task";;
  raise_if (negb (bool_decide (attempt_id token = expected_attempt_id e))) HeldActionDenied
    "token attempt does not match the requesting attempt";;
  raise_if (now <? issued_at token) HeldActionDenied "token is not yet valid";;
  raise_if (expires_at token <? now) HeldActionDenied "token has expired";;
  Ok token.

(** ** The store *)

Abbreviation Receipts := (gmap string json).

Section store.
Context (state_dir : string).

Definition _receipt_path (tid : string) : string :=
  path_div (path_div state_dir "consumed") (tid +:+ ".json").

Definition receipt_of (t : HeldActionToken) (now : Z) : json :=
  JObj [("token_id", JStr (token_id t)); ("category", JStr (category t)); ("target", JStr (target t));
        ("task_id", JStr (task_id t)); ("attempt_id", JStr (attempt_id t)); ("consumed_at", JInt now)].

(** [_atomic_write_json]: the receipt file appears whole. *)
Definition _atomic_write_json (s : Receipts) (path : string) (payload : json) : Receipts :=
  <[path := json_canon payload]> s.

(** The part of [check_and_consume] under the store lock. *)
Definition consume (s : Receipts) (verified : HeldActionToken) (now : Z) : res HeldActionToken * Receipts :=
  let receipt_path := _receipt_path (token_id verified) in
  match s !! receipt_path with
  | Some _ => (Err (Exn HeldActionDenied "token already consumed (replay)"), s)
  | None => (Ok verified, _atomic_write_json s receipt_path (receipt_of verified now))
  end.

Definition check_and_consume (s : Receipts) (token : HeldActionToken) (signing_key : bytes)
    (e : Expected) (now : Z) : res HeldActionToken * Receipts :=
  match verify_token token signing_key e now with
  | Err x => (Err x, s)
  | Ok verified => consume s verified now
  end.

Definition authorize (s : Receipts) (e : Expected) (token : option HeldActionToken)
    (signing_key : bytes) (now : Z) : res unit * Receipts :=
  if negb (bool_decide (expected_category e ∈ HELD_CATEGORIES)) then
    (Err (Exn ValueError "authorize() called for a non-held category"), s)
  else match token with
       | None => (Err (Exn HeldActionDenied "held action requires an operator-approval token"), s)
       | Some token =>
           let '(r, s') := check_and_consume s token signing_key e now in
           (match r with Ok _ => Ok tt | Err x => Err x end, s')
       end.
End store.

(** ** Vocabulary *)

Definition bound_to (t : HeldActionToken) (e : Expected) : Prop :=
  category t = expected_category e ∧ target t = expected_target e ∧
  task_id t = expected_task_id e ∧ attempt_id t = expected_attempt_id e.

(** A token the operator's key signed. *)
Definition genuine (key : bytes) (t : HeldActionToken) : Prop :=
  fullmatch TOKEN_ID_RE (token_id t) = true ∧ (16 <= length key)%nat ∧
  mac t = hmac_sha256_hex key (_canonical_json (token_payload t)).

(** One call of [authorize], and a sequence of them over one store: the ids of
    the tokens that were accepted, in order, and the receipts at the end. *)
Record Attempt := {
  at_expected : Expected;
  at_token : option HeldActionToken;
  at_key : bytes;
  at_now : Z
}.

Fixpoint run_attempts (sd : string) (s : Receipts) (atts : list Attempt) : list string * Receipts :=
  match atts with
  | [] => ([], s)
  | a :: atts =>
      let '(r, s1) := authorize sd s (at_expected a) (at_token a) (at_key a) (at_now a) in
      let '(ids, s2) := run_attempts sd s1 atts in
      (match r, at_token a with Ok _, Some t => token_id t :: ids | _, _ => ids end, s2)
  end.

(** ** Lemmas *)

Lemma mac_Ok key p m :
  _mac key p = Ok m ↔ (16 <= length key)%nat ∧ m = hmac_sha256_hex key (_canonical_json p).
Proof.
  unfold _mac. rewrite bind_Ok. setoid_rewrite raise_if_Ok. split.
  - intros (_ & H & [= <-]). apply Nat.ltb_ge in H. done.
  - intros [H ->]. exists tt. split; [by apply Nat.ltb_ge|done].
Qed.

Lemma verify_token_Ok t key e now u :
  verify_token t key e now = Ok u ↔
  u = t ∧ genuine key t ∧ category t ∈ HELD_CATEGORIES ∧ bound_to t e ∧
  issued_at t <= now <= expires_at t.
Proof.
  unfold verify_token. split.
  - intros H. res_inv.
    match goal with E : reraise _ _ _ = Ok _ |- _ => apply reraise_Ok, mac_Ok in E as [Hk ->] end.
    match goal with E : compare_digest _ _ = Ok _ |- _ => apply compare_digest_Ok in E; [subst|apply hmac_ascii] end.
    bool_inv. unfold genuine, bound_to. split_and!; done.
  - intros (-> & (Hid & Hk & Hm) & Hc & (H1 & H2 & H3 & H4) & Hn1 & Hn2).
    rewrite Hid. rewrite raise_if_false, bind_ret.
    rewrite (proj2 (reraise_Ok _ _ _ _) (proj2 (mac_Ok _ _ _) (conj Hk eq_refl))), bind_ret.
    rewrite Hm, compare_digest_same by apply hmac_ascii.
    rewrite !bind_ret, !(bool_decide_eq_true_2 _) by done. cbn [negb].
    rewrite (proj2 (Z.ltb_ge _ _) Hn1), (proj2 (Z.ltb_ge _ _) Hn2). done.
Qed.

Lemma authorize_inv sd s e tok key now r s' :
  authorize sd s e tok key now = (r, s') →
  (∃ t, tok = Some t ∧ r = Ok tt ∧ genuine key t ∧ category t ∈ HELD_CATEGORIES ∧ bound_to t e ∧
     issued_at t <= now <= expires_at t ∧ s !! _receipt_path sd (token_id t) = None ∧
     s' = <[_receipt_path sd (token_id t) := json_canon (receipt_of t now)]> s) ∨
  (∃ x, r = Err x ∧ s' = s).
Proof.
  unfold authorize, check_and_consume, consume, _atomic_write_json.
  destruct (bool_decide (expected_category e ∈ HELD_CATEGORIES)); cbn [negb]; [|intros [= <- <-]; eauto].
  destruct tok as [t|]; [|intros [= <- <-]; eauto].
  destruct (verify_token t key e now) as [u|x] eqn:E; [|intros [= <- <-]; eauto].
  apply verify_token_Ok in E as (-> & Hg & Hc & Hb & Hn).
  destruct (s !! _receipt_path sd (token_id t)) eqn:El; intros [= <- <-]; [eauto|]. left. eauto 10.
Qed.

Lemma authorize_grants sd s e t key now :
  genuine key t → category t ∈ HELD_CATEGORIES → bound_to t e → issued_at t <= now <= expires_at t →
  s !! _receipt_path sd (token_id t) = None →
  authorize sd s e (Some t) key now =
  (Ok tt, <[_receipt_path sd (token_id t) := json_canon (receipt_of t now)]> s).
Proof.
  intros Hg Hc Hb Hn Hl. unfold authorize, check_and_consume.
  rewrite bool_decide_eq_true_2 by (destruct Hb as [<- _]; done). cbn [negb].
  rewrite (proj2 (verify_token_Ok t key e now t)) by done.
  unfold consume. by rewrite Hl.
Qed.

Lemma run_attempts_grow sd s atts ids s' :
  run_attempts sd s atts = (ids, s') →
  NoDup (map (_receipt_path sd) ids) ∧
  (∀ p, is_Some (s !! p) → s' !! p = s !! p) ∧
  (∀ i, i ∈ ids → s !! _receipt_path sd i = None ∧ is_Some (s' !! _receipt_path sd i)).
Proof.
  revert s ids s'. induction atts as [|a atts IH]; intros s ids s'; cbn [run_attempts].
  { intros [= <- <-]. split; [constructor|]. split; [done|]. by intros i ?%elem_of_nil. }
  destruct (authorize sd s _ _ _ _) as [r s1] eqn:Ea.
  destruct (run_attempts sd s1 atts) as [ids2 s2] eqn:Er. destruct (IH _ _ _ Er) as (Hn & Hg & Hi).
  apply authorize_inv in Ea as [(t & -> & -> & _ & _ & _ & _ & Hl & ->)|(x & -> & ->)].
  - intros [= <- <-]. set (p0 := _receipt_path sd (token_id t)) in *. split_and!.
    + cbn. constructor; [|done]. intros (i & Hp & Hin)%list_elem_of_fmap.
      destruct (Hi i Hin) as [Hnone _]. rewrite <- Hp in Hnone. unfold p0 in Hnone.
      by rewrite lookup_insert_eq in Hnone.
    + intros p [v Hv]. rewrite Hg; rewrite lookup_insert_ne; [done|congruence|eauto|congruence].
    + intros i [->|Hin]%elem_of_cons.
      * split; [done|]. rewrite Hg; rewrite lookup_insert_eq; eauto.
      * destruct (Hi i Hin) as [Hnone Hs]. split; [|done].
        destruct (decide (p0 = _receipt_path sd i)) as [<-|Hne]; [done|].
        by rewrite lookup_insert_ne in Hnone.
  - destruct (at_token a); intros [= <- <-]; done.
Qed.

(** ** A concrete key, token and store for the witnesses *)

Definition demo_key : bytes := replicate 16 7.
Definition demo_attempt : string := "d-0123456789abcdef0123456789abcdef".
Definition demo_expected : Expected := {|
  expected_category := "public_release"; expected_target := "site";
  expected_task_id := "TASK-2026-a"; expected_attempt_id := demo_attempt
|}.
Definition demo_mint : res HeldActionToken :=
  mint_token "public_release" "site" "TASK-2026-a" demo_attempt 100 200 demo_key [1; 2; 3].

(** ** Properties *)

(** C5. The gate is exact.  [authorize] passes precisely when a token is
    presented whose MAC is the key's over all its claims, for a held category,
    bound to exactly this category, target, task and attempt, inside its
    validity window, with no receipt yet; it then leaves that receipt and
    changes nothing else, and a denial, whatever the reason, leaves every
    receipt as it was, so a mistaken attempt does not burn a token. *)
Theorem authorize_exact sd s e tok key now :
  (is_ok (authorize sd s e tok key now).1 = true ↔
   ∃ t, tok = Some t ∧ genuine key t ∧ category t ∈ HELD_CATEGORIES ∧ bound_to t e ∧
     issued_at t <= now <= expires_at t ∧ s !! _receipt_path sd (token_id t) = None) ∧
  match authorize sd s e tok key now with
  | (Ok _, s') => ∃ t, tok = Some t ∧
      s' = <[_receipt_path sd (token_id t) := json_canon (receipt_of t now)]> s
  | (Err _, s') => s' = s
  end.
Proof.
  destruct (authorize sd s e tok key now) as [r s'] eqn:E.
  destruct (authorize_inv _ _ _ _ _ _ _ _ E) as [(t & -> & -> & Hg & Hc & Hb & Hn & Hl & ->)|(x & -> & ->)].
  - split; [split; [intros _; eauto 10|done]|eauto].
  - split; [|done]. split; [done|]. intros (t & -> & Hg & Hc & Hb & Hn & Hl).
    by rewrite (authorize_grants sd s e t key now Hg Hc Hb Hn Hl) in E.
Qed.

(** A token authorises once.  Over any sequence of calls on one store, with
    any tokens, keys, requests and clock readings, the accepted token ids are
    pairwise different, none had a receipt before, each has one afterwards, and
    receipts are never altered. *)
Theorem one_shot sd s atts :
  let '(ids, s') := run_attempts sd s atts in
  NoDup ids ∧ (∀ i, i ∈ ids → s !! _receipt_path sd i = None ∧ is_Some (s' !! _receipt_path sd i)) ∧
  (∀ p, is_Some (s !! p) → s' !! p = s !! p).
Proof.
  destruct (run_attempts sd s atts) as [ids s'] eqn:E.
  destruct (run_attempts_grow _ _ _ _ _ E) as (Hn & Hg & Hi).
  split; [by eapply NoDup_fmap_1|done].
Qed.

(** From minting to use: a minted token passes the gate on a store without
    its receipt for exactly the action it was minted for, at every moment of
    its window and at no other, and for no other category, target, task or
    attempt. *)
Theorem mint_then_authorize cat tgt task att issued expires key nonce t sd s e now :
  mint_token cat tgt task att issued expires key nonce = Ok t →
  s !! _receipt_path sd (token_id t) = None →
  is_ok (authorize sd s e (Some t) key now).1 = true ↔
  e = {| expected_category := cat; expected_target := tgt;
         expected_task_id := task; expected_attempt_id := att |} ∧
  issued <= now <= expires.
Proof.
  unfold mint_token. intros H Hl. res_inv. bool_inv. subst.
  match goal with E : _mac _ _ = Ok _ |- _ => apply mac_Ok in E as [Hk ->] end.
  set (t := Build_HeldActionToken _ _ _ _ _ _ _ _) in *.
  assert (Hg : genuine key t).
  { split; [apply sha256_hex_shape|]. split; [exact Hk|reflexivity]. }
  split.
  - destruct (authorize sd s e (Some t) key now) as [r s'] eqn:E.
    destruct (authorize_inv _ _ _ _ _ _ _ _ E) as [(t' & [= <-] & -> & _ & _ & Hb & Hn & _)|(x & -> & _)];
      [|done].
    intros _. destruct Hb as (Hb1 & Hb2 & Hb3 & Hb4). destruct e as [c0 g0 k0 a0].
    change (cat = c0) in Hb1. change (tgt = g0) in Hb2. change (task = k0) in Hb3. change (att = a0) in Hb4.
    split; [congruence|exact Hn].
  - intros [-> Hn]. rewrite (authorize_grants sd s _ t key now); done.
Qed.

Lemma mint_then_authorize_witness :
  ∃ t, demo_mint = Ok t ∧ is_ok (authorize "/s" ∅ demo_expected (Some t) demo_key 150).1 = true ∧
    is_ok (authorize "/s" ∅ demo_expected (Some t) demo_key 201).1 = false.
Proof.
  destruct demo_mint as [t|] eqn:E; [|vm_compute in E; discriminate]. exists t. split; [reflexivity|].
  assert (Hl : (∅ : Receipts) !! _receipt_path "/s" (token_id t) = None) by apply lookup_empty.
  pose proof (mint_then_authorize _ _ _ _ _ _ _ _ t "/s" ∅ demo_expected 150 E Hl) as H1.
  pose proof (mint_then_authorize _ _ _ _ _ _ _ _ t "/s" ∅ demo_expected 201 E Hl) as H2.
  split; [apply H1; split; [reflexivity|lia]|].
  apply not_true_iff_false. rewrite H2. lia.
Defined.

(** A MAC fixes every claim: two tokens with the same MAC that both pass
    under one key agree in every field, or the two texts signed for them are
    different and share an HMAC. *)
Theorem token_mac_binds key t t' e e' now now' :
  is_ok (verify_token t key e now) = true → is_ok (verify_token t' key e' now') = true →
  mac t = mac t' →
  t = t' ∨
  (_canonical_json (token_payload t) ≠ _canonical_json (token_payload t') ∧
   hmac_sha256_hex key (_canonical_json (token_payload t)) =
   hmac_sha256_hex key (_canonical_json (token_payload t'))).
Proof.
  destruct (verify_token t key e now) as [u|] eqn:E; [|done].
  destruct (verify_token t' key e' now') as [u'|] eqn:E'; [|done]. intros _ _ Hm.
  apply verify_token_Ok in E as (_ & (_ & _ & Hmac) & _).
  apply verify_token_Ok in E' as (_ & (_ & _ & Hmac') & _). rewrite Hmac, Hmac' in Hm.
  destruct (decide (_canonical_json (token_payload t) = _canonical_json (token_payload t'))) as [Hp|Hp];
    [left|by right].
  unfold _canonical_json in Hp. apply encode_utf8_inj, dumps_inj in Hp;
    [|apply json_wf_obj; split; [by_decide|by repeat constructor]..].
  unfold token_payload, _claims_payload in Hp. rewrite !canon_obj in Hp.
  destruct t, t'. cbn [token_id category target task_id attempt_id issued_at expires_at mac] in *.
  injection Hp as -> -> -> -> -> -> ->. by rewrite Hmac, Hmac'.
Qed.

Lemma token_mac_binds_witness :
  ∃ t, demo_mint = Ok t ∧ is_ok (verify_token t demo_key demo_expected 100) = true ∧
    (t = t ∨ (_canonical_json (token_payload t) ≠ _canonical_json (token_payload t) ∧
      hmac_sha256_hex demo_key (_canonical_json (token_payload t)) =
      hmac_sha256_hex demo_key (_canonical_json (token_payload t)))).
Proof.
  destruct demo_mint as [t|] eqn:E; [|vm_compute in E; discriminate]. exists t. split; [reflexivity|].
  assert (H : is_ok (verify_token t demo_key demo_expected 100) = true).
  { vm_compute in E. injection E as <-. vm_compute. reflexivity. }
  split; [exact H|]. exact (token_mac_binds demo_key t t demo_expected demo_expected 100 100 H H eq_refl).
Defined.
