(* ===== verification/PyText.v ===== *)
(** * Python text: [str], [repr], [split], [splitlines], [replace]

    The string methods and conversions the ledger and contract modules use, on
    code points below 256, with the lemmas on lines that the ledger's surgery
    rests on. *)
From S2P Require Import Prelude Json.

#[local] Open Scope Z_scope.

(** ** Truth and text of a JSON value *)

(** [bool(v)] *)
Definition truthy (v : json) : bool :=
  match v with
  | JNull => false
  | JBool b => b
  | JInt z => negb (z =? 0)
  | JStr s => negb (bool_decide (s = ""))
  | JList l => negb (bool_decide (length l = O))
  | JObj d => negb (bool_decide (length d = O))
  end.

Definition single_quote : ascii := "039"%char.

(** [str.isprintable] on one code point below 256. *)
Definition printable (c : ascii) : bool :=
  let z := code c in
  (32 <=? z) && (z <=? 126) || (161 <=? z) && (z <=? 255) && negb (z =? 173).

(** One character inside [repr] of a string quoted with [q]. *)
Definition repr_char (q c : ascii) : string :=
  let z := code c in
  if decide (c = q ∨ c = "092"%char) then String "092" (String c "")
  else if z =? 9 then String "092" "t"
  else if z =? 10 then String "092" "n"
  else if z =? 13 then String "092" "r"
  else if printable c then String c ""
  else String "092" (String "x" (String (hex4_digit (Z.shiftr z 4)) (String (hex4_digit (Z.land z 15)) ""))).

Fixpoint repr_chars (q : ascii) (s : string) : string :=
  match s with "" => "" | String c s => repr_char q c +:+ repr_chars q s end.

(** Single quotes, unless the string has one and no double quote. *)
Definition repr_str (s : string) : string :=
  let q := if char_in single_quote s && negb (char_in quote_char s) then quote_char else single_quote in
  String q (repr_chars q s +:+ String q "").

(** [repr(v)] *)
Fixpoint py_repr (v : json) : string :=
  match v with
  | JNull => "None"
  | JBool true => "True"
  | JBool false => "False"
  | JInt z => str_of_int z
  | JStr s => repr_str s
  | JList l => "[" +:+ py_join ", " (map py_repr l) +:+ "]"
  | JObj d => "{" +:+ py_join ", " (map (λ kv, repr_str kv.1 +:+ ": " +:+ py_repr kv.2) d) +:+ "}"
  end.

(** [str(v)] and [str(v or "")]. *)
Definition py_str (v : json) : string := match v with JStr s => s | _ => py_repr v end.
Definition str_or_empty (v : json) : string := if truthy v then py_str v else "".

(** [d.get(k)] *)
Definition dget (k : string) (d : list (string * json)) : json := default JNull (dict_get k d).

(** [str.upper] below code point 256; the two characters whose upper case lies
    above (micro sign, y with diaeresis) are kept. *)
Definition upper_char (c : ascii) : string :=
  let z := code c in
  if is_lower c || (224 <=? z) && (z <=? 254) && negb (z =? 247) then String (chr (z - 32)) ""
  else if (z =? 223) then "SS" else String c "".
Fixpoint py_upper (s : string) : string :=
  match s with "" => "" | String c s => upper_char c +:+ py_upper s end.

(** ** Words and lines *)

(** The words of [s.split()]; [acc] is the word being read, reversed. *)
Fixpoint words_loop (s acc : string) : list string :=
  match s with
  | "" => if bool_decide (acc = "") then [] else [str_rev acc]
  | String c s =>
      if py_isspace c then
        if bool_decide (acc = "") then words_loop s "" else str_rev acc :: words_loop s ""
      else words_loop s (String c acc)
  end.
Definition py_words (s : string) : list string := words_loop s "".

Definition LF : ascii := "010"%char.
Definition CR : ascii := "013"%char.

(** The line boundaries of [str.splitlines] below code point 256. *)
Definition is_break (c : ascii) : bool :=
  let z := code c in (10 <=? z) && (z <=? 13) || (28 <=? z) && (z <=? 30) || (z =? 133).

Fixpoint splitlines (s : string) : list string :=
  match s with
  | "" => []
  | String c s' =>
      if is_break c then
        match s' with
        | String d s'' => if decide (c = CR ∧ d = LF) then "" :: splitlines s'' else "" :: splitlines s'
        | "" => [""]
        end
      else match splitlines s' with
           | [] => [String c ""]
           | w :: ws => String c w :: ws
           end
  end.

(** Text-mode reading: [\r\n] and [\r] become [\n]. *)
Fixpoint universal_newlines (s : string) : string :=
  match s with
  | "" => ""
  | String c s' =>
      if decide (c = CR) then
        String LF (match s' with
                   | String d s'' => if decide (d = LF) then universal_newlines s'' else universal_newlines s'
                   | "" => ""
                   end)
      else String c (universal_newlines s')
  end.

(** [s[:n]] and [s[n:]] *)
Fixpoint str_drop (n : nat) (s : string) : string :=
  match n, s with S n, String _ s => str_drop n s | _, _ => s end.
Fixpoint str_take (n : nat) (s : string) : string :=
  match n, s with S n, String c s => String c (str_take n s) | _, _ => "" end.

(** [s.replace(old, new, 1)] for a non-empty [old]. *)
Fixpoint replace_once (old new s : string) : string :=
  if startswith s old then new +:+ str_drop (String.length old) s
  else match s with "" => "" | String c s => String c (replace_once old new s) end.

(** [s.split(sep, 1)[0]] for a non-empty [sep]. *)
Fixpoint before (sep s : string) : string :=
  if startswith s sep then ""
  else match s with "" => "" | String c s => String c (before sep s) end.

(** The longest prefix of characters satisfying [p]. *)
Fixpoint take_while (p : ascii → bool) (s : string) : string :=
  match s with "" => "" | String c s => if p c then String c (take_while p s) else "" end.
Fixpoint drop_while (p : ascii → bool) (s : string) : string :=
  match s with "" => "" | String c s' => if p c then drop_while p s' else s end.

(** [text.find(needle)]: the text before the first occurrence and after it. *)
Fixpoint cut (needle s : string) : option (string * string) :=
  if startswith s needle then Some ("", str_drop (String.length needle) s)
  else match s with
       | "" => None
       | String c s => '(a, b) ← cut needle s; Some (String c a, b)
       end.

(** ** Lemmas on lines *)

(** No line boundary inside. *)
Definition one_line (s : string) : bool := str_forallb (λ c, negb (is_break c)) s.

Definition no_CR (s : string) : bool := str_forallb (λ c, negb (bool_decide (c = CR))) s.

Lemma universal_newlines_no_CR s : no_CR (universal_newlines s) = true.
Proof.
  enough (∀ n s, (String.length s ≤ n)%nat → no_CR (universal_newlines s) = true) as H by by eapply H.
  clear s. induction n as [|n IH]; intros [|c s] Hn; cbn -[decide] in *; try done; [lia|].
  case_decide as Hc.
  - cbn. destruct s as [|d s]; [done|]. cbn in Hn. case_decide; [apply IH; lia|]. apply IH. cbn. lia.
  - cbn. rewrite bool_decide_eq_false_2 by done. apply IH. lia.
Qed.

Lemma splitlines_LF s t :
  one_line s = true → splitlines (s +:+ String LF t) = s :: splitlines t.
Proof.
  intros Hs. induction s as [|c s IH].
  - rewrite str_app_nil_l. cbn. destruct t as [|d t]; [done|]. by destruct (decide _) as [[? _]|].
  - rewrite str_app_cons. cbn in Hs. bool_inv. cbn [splitlines].
    match goal with H : is_break c = false |- _ => rewrite H end. by rewrite IH.
Qed.

Lemma splitlines_app_LF s t :
  no_CR s = true → splitlines (s +:+ String LF t) = splitlines (s +:+ String LF "") ++ splitlines t.
Proof.
  induction s as [|c s IH]; intros Hs.
  - rewrite !str_app_nil_l. cbn. destruct t as [|d t]; [done|]. by destruct (decide _) as [[? _]|].
  - cbn in Hs. bool_inv. rewrite !str_app_cons. cbn [splitlines]. destruct (is_break c).
    + assert (Hd : ∀ u, match u with
        | String d u'' => if decide (c = CR ∧ d = LF) then "" :: splitlines u'' else "" :: splitlines u
        | "" => [""] end = "" :: splitlines u).
      { intros [|d u]; [done|]. by destruct (decide _) as [[? _]|]. }
      rewrite !Hd, IH by done. done.
    + rewrite IH by done. destruct (splitlines (s +:+ String LF "")) eqn:E; [|done].
      exfalso. destruct s as [|d s]; [done|]. rewrite str_app_cons in E. cbn [splitlines] in E.
      destruct (is_break d).
      * destruct (s +:+ String LF ""); [done|]. by destruct (decide _).
      * by destruct (splitlines (s +:+ String LF "")).
Qed.

Lemma splitlines_one_line s : Forall (λ w, one_line w = true) (splitlines s).
Proof.
  enough (∀ n s, (String.length s ≤ n)%nat → Forall (λ w, one_line w = true) (splitlines s)) as H
    by by eapply H.
  clear s. induction n as [|n IH]; intros [|c s] Hn; cbn -[decide] in *; try (by constructor); [lia|].
  destruct (is_break c) eqn:Ec.
  - destruct s as [|d s]; [by repeat constructor|]. cbn in Hn.
    case_decide; constructor; try done; apply IH; cbn; lia.
  - pose proof (IH s ltac:(lia)) as H. destruct H as [|w ws Hw Hws]; [|constructor; [|done]].
    + constructor; [|constructor]. unfold one_line. cbn. by rewrite Ec.
    + unfold one_line in *. cbn. by rewrite Ec.
Qed.

(** Lines joined and ended with newlines read back. *)
Lemma splitlines_join ls :
  ls ≠ [] → Forall (λ w, one_line w = true) ls →
  splitlines (py_join (String LF "") ls +:+ String LF "") = ls.
Proof.
  intros Hne. induction 1 as [|w ls Hw Hls IH]; [done|]. destruct ls as [|w' ls].
  - cbn [py_join]. by rewrite splitlines_LF.
  - rewrite py_join_cons by done. rewrite !str_app_assoc, str_app_cons, str_app_nil_l.
    rewrite splitlines_LF by done. by rewrite IH.
Qed.

Lemma startswith_app s p : startswith s p = true ↔ ∃ t, s = p +:+ t.
Proof.
  unfold startswith. revert s. induction p as [|c p IH]; intros s.
  - split; [intros _; by exists s|by destruct s].
  - destruct s as [|d s]; cbn; [split; [done|by intros (t & ?)]|].
    case_match; subst.
    + rewrite IH. split; [intros (t & ->); by exists t|]. intros (t & [= ->]). by exists t.
    + split; [done|]. by intros (t & [= -> _]).
Qed.

Lemma str_drop_app p t : str_drop (String.length p) (p +:+ t) = t.
Proof. induction p as [|c p IH]; [done|]. rewrite str_app_cons. exact IH. Qed.

(** ** Comparison with a constant *)

Lemma py_eq_str v s : py_eq v (JStr s) = true ↔ v = JStr s.
Proof. destruct v; cbn; try (split; congruence). rewrite bool_decide_eq_true. split; congruence. Qed.

Lemma py_eq_null v : py_eq v JNull = true ↔ v = JNull.
Proof. destruct v; naive_solver. Qed.
