(* ===== verification/JsonProps.v ===== *)
(** * Dictionaries and files of JSON: shared lemmas

    Unique keys under [d[k] = v] and [d.update(e)], Python's equality key by
    key, unique keys of whatever the strict reader returns, and reading back a
    text that ends in a line feed. *)
From S2P Require Import Prelude Json PyText.

(** ** Unique keys *)

Lemma dict_set_keys {A} k (v : A) d : (dict_set k v d).*1 = if decide (k ∈ d.*1) then d.*1 else d.*1 ++ [k].
Proof.
  induction d as [|[k0 v0] d IH]; cbn; [done|]. destruct (decide (k0 = k)) as [->|Hk]; cbn.
  - rewrite decide_True by (by left). done.
  - rewrite IH. destruct (decide (k ∈ d.*1)) as [H|H].
    + by rewrite decide_True by (by right).
    + rewrite decide_False; [done|]. intros [?|?]%elem_of_cons; [congruence|done].
Qed.

Lemma dict_set_nodup {A} k (v : A) d : NoDup d.*1 → NoDup (dict_set k v d).*1.
Proof.
  intros Hd. rewrite dict_set_keys. case_decide as H; [done|]. apply NoDup_app. split; [done|].
  split; [|apply NoDup_singleton]. intros x Hx ->%list_elem_of_singleton. done.
Qed.

Lemma dict_del_keys {A} k (d : list (string * A)) x : x ∈ (dict_del k d).*1 ↔ x ∈ d.*1 ∧ x ≠ k.
Proof.
  unfold dict_del. rewrite !list_elem_of_fmap. split.
  - intros (kv & -> & [Hin Hb%negb_true_iff%bool_decide_eq_false]%elem_of_filter_list). eauto.
  - intros [(kv & -> & Hin) Hne]. exists kv. split; [done|]. apply elem_of_filter_list.
    by rewrite bool_decide_eq_false_2.
Qed.

Lemma dict_del_sublist {A} k (d : list (string * A)) : dict_del k d `sublist_of` d.
Proof. unfold dict_del. induction d as [|kv d IH]; cbn; [constructor|]. by destruct (negb _); constructor. Qed.

Lemma dict_get_del {A} k k' (d : list (string * A)) : k' ≠ k → dict_get k' (dict_del k d) = dict_get k' d.
Proof.
  intros Hne. unfold dict_del. induction d as [|[k2 v] d IH]; cbn; [done|].
  case_bool_decide; cbn; repeat case_decide; congruence.
Qed.

Lemma dict_set_values {A} (P : A → Prop) k v d : P v → Forall P d.*2 → Forall P (dict_set k v d).*2.
Proof.
  intros Hv. induction d as [|[k0 v0] d IH]; cbn; [by repeat constructor|].
  intros [? ?]%Forall_cons. case_decide; cbn; constructor; auto.
Qed.

Lemma json_wf_parts d : json_wf (JObj d) = true ↔ NoDup d.*1 ∧ Forall (λ v, json_wf v = true) d.*2.
Proof. rewrite json_wf_obj. by rewrite Forall_fmap. Qed.

Lemma json_wf_set k v d : json_wf v = true → json_wf (JObj d) = true → json_wf (JObj (dict_set k v d)) = true.
Proof.
  rewrite !json_wf_parts. intros Hv [? ?]. split; [by apply dict_set_nodup|]. by apply (dict_set_values (λ v, json_wf v = true)).
Qed.

Lemma json_wf_update d e :
  json_wf (JObj d) = true → Forall (λ v, json_wf v = true) e.*2 → json_wf (JObj (dict_update d e)) = true.
Proof.
  unfold dict_update. revert d. induction e as [|[k v] e IH]; intros d Hd; [done|]. cbn.
  intros [? ?]%Forall_cons. apply IH; [by apply json_wf_set|done].
Qed.

Lemma json_wf_get d k v : json_wf (JObj d) = true → dict_get k d = Some v → json_wf v = true.
Proof.
  intros [Hnd Hw]%json_wf_obj Hk. apply dict_get_elem in Hk; [|done]. rewrite Forall_forall in Hw. by apply (Hw (k, v)).
Qed.

Lemma json_wf_dget d k : json_wf (JObj d) = true → json_wf (dget k d) = true.
Proof. intros Hd. unfold dget. destruct (dict_get k d) as [v|] eqn:E; [by eapply json_wf_get|done]. Qed.

(** The last of the updates decides. *)
Lemma dict_get_update {A} k (d e : list (string * A)) :
  NoDup e.*1 → dict_get k (dict_update d e) = match dict_get k e with Some v => Some v | None => dict_get k d end.
Proof.
  unfold dict_update. revert d. induction e as [|[k0 v0] e IH]; intros d; [done|]. cbn. intros [Hk Hnd]%NoDup_cons.
  rewrite IH by done. rewrite dict_get_set. destruct (decide (k0 = k)) as [->|]; [|done].
  destruct (dict_get k e) as [v|] eqn:E; [|done]. destruct Hk. apply dict_get_key. by eexists.
Qed.

Lemma dget_update k d e :
  NoDup e.*1 → dget k (dict_update d e) = match dict_get k e with Some v => v | None => dget k d end.
Proof. intros He. unfold dget. rewrite dict_get_update by done. by destruct (dict_get k e). Qed.

Lemma dget_set k k' v d : dget k' (dict_set k v d) = if decide (k = k') then v else dget k' d.
Proof. unfold dget. rewrite dict_get_set. by case_decide. Qed.

(** ** Equality of JSON values *)

Lemma py_eq_refl v : json_wf v = true → py_eq v v = true.
Proof.
  induction v as [|b|z|s|l IH|kvs IH] using json_nested_ind; intros Hwf; cbn [py_eq].
  - done.
  - by destruct b.
  - apply Z.eqb_refl.
  - by apply bool_decide_eq_true.
  - apply json_wf_list in Hwf. induction l as [|x l IHl]; [done|].
    apply Forall_cons in IH as [Hx IH]. apply Forall_cons in Hwf as [Hwx Hwf]. rewrite Hx by done. cbn. by apply IHl.
  - apply json_wf_obj in Hwf as [Hnd Hwf]. rewrite Nat.eqb_refl. cbn. apply forallb_forall. intros [k v] Hin.
    apply list_elem_of_In in Hin. cbn. rewrite (proj2 (dict_get_elem k kvs v Hnd)) by done.
    rewrite Forall_forall in IH, Hwf. by apply (IH _ Hin), (Hwf _ Hin).
Qed.

(** Equal dictionaries have equal values, key by key. *)
Lemma py_eq_obj_get d e k v :
  py_eq (JObj d) (JObj e) = true → dict_get k d = Some v →
  ∃ w, dict_get k e = Some w ∧ py_eq v w = true.
Proof.
  cbn [py_eq]. intros [_ H]%andb_true_iff Hk. rewrite forallb_forall in H.
  assert (Hin : (k, v) ∈ d).
  { induction d as [|[k' v'] d IH]; [done|]. cbn in Hk. case_decide; simplify_eq; [by left|right].
    apply IH; [|done]. intros x Hx. apply H. by right. }
  apply list_elem_of_In, H in Hin. cbn in Hin. destruct (dict_get k e); [eauto|done].
Qed.

(** ** The strict reader *)

Lemma as_unique_wf kvs v : Forall (λ w, json_wf w = true) kvs.*2 → as_unique kvs = Some v → json_wf v = true.
Proof.
  unfold as_unique. case_bool_decide as Hnd; [|done]. intros Hv [= <-]. by apply json_wf_parts.
Qed.

Lemma parse_wf fuel :
  (∀ s v r, parse_value as_unique fuel s = Some (v, r) → json_wf v = true) ∧
  (∀ s l r, parse_elems as_unique fuel s = Some (l, r) → Forall (λ w, json_wf w = true) l) ∧
  (∀ s kvs r, parse_members as_unique fuel s = Some (kvs, r) → Forall (λ w, json_wf w = true) kvs.*2).
Proof.
  induction fuel as [|fuel (IHv & IHe & IHm)]; [done|]. split_and!.
  - intros s v r. cbn [parse_value]. repeat (case_match || case_decide); intros; simplify_eq; try done.
    + apply json_wf_list. by eapply IHe.
    + eapply as_unique_wf; [|done]. by eapply IHm.
  - intros s l r. cbn [parse_elems]. repeat (case_match || case_decide); intros; simplify_eq; try done;
      repeat constructor; eauto.
  - intros s kvs r. cbn [parse_members]. repeat (case_match || case_decide); intros; simplify_eq; try done;
      cbn; repeat constructor; eauto.
Qed.

Lemma loads_unique_wf s v : loads_unique s = Some v → json_wf v = true.
Proof.
  unfold loads_unique, loads_with. destruct (parse_value _ _ _) as [[w r]|] eqn:E; [|done].
  case_decide; [|done]. intros [= ->]. by eapply (proj1 (parse_wf _)).
Qed.

(** A text written by [json.dumps(v) + "\n"]. *)
Lemma loads_unique_dumps_LF ea v :
  json_wf v = true → loads_unique (dumps ea v +:+ String LF "") = Some (json_canon v).
Proof.
  intros Hwf. unfold loads_unique, loads_with.
  pose proof (dumps_reads_back as_unique as_unique_nodup ea v Hwf (S (String.length (dumps ea v +:+ String LF ""))) (String LF "")) as H.
  rewrite H; [done| |done]. pose proof (json_size_length ea v). rewrite str_length_app. lia.
Qed.
