(* ===== verification/PyTime.v ===== *)
(** * [datetime] of an ISO 8601 text

    [datetime.fromisoformat] on texts that start with a date [YYYY-MM-DD], then
    optionally any separator, a time and an offset; the other spellings of a
    date (basic, week) are outside the model.  Times are microseconds since the
    epoch. *)
From S2P Require Import Prelude Binary64 PyText.
From Stdlib Require Import SpecFloat.

#[local] Open Scope Z_scope.

(** Days from 1970-01-01 in the proleptic Gregorian calendar. *)
Definition leap (y : Z) : bool := (y mod 4 =? 0) && (negb (y mod 100 =? 0) || (y mod 400 =? 0)).
Definition days_before_year (y : Z) : Z := let n := y - 1 in 365 * n + n / 4 - n / 100 + n / 400.
Definition days_in_month (y m : Z) : Z :=
  if m =? 2 then (if leap y then 29 else 28)
  else if (m =? 4) || (m =? 6) || (m =? 9) || (m =? 11) then 30 else 31.
Definition days_before_month (y m : Z) : Z :=
  foldr (λ k acc, days_in_month y (Z.of_nat k) + acc) 0 (seq 1 (Z.to_nat (m - 1))).
Definition day_number (y m d : Z) : Z := days_before_year y + days_before_month y m + d - 719163.

Definition valid_date (y m d : Z) : bool :=
  (1 <=? y) && (y <=? 9999) && (1 <=? m) && (m <=? 12) && (1 <=? d) && (d <=? days_in_month y m).

(** [n] decimal digits. *)
Fixpoint take_digits (n : nat) (acc : Z) (s : string) : option (Z * string) :=
  match n, s with
  | O, _ => Some (acc, s)
  | S n, String c s => if is_digit c then take_digits n (10 * acc + (code c - 48)) s else None
  | S _, "" => None
  end.

Definition skip_char (c : ascii) (s : string) : option string :=
  match s with String d s => if decide (d = c) then Some s else None | "" => None end.

Definition parse_date (s : string) : option (Z * string) :=
  '(y, s) ← take_digits 4 0 s; s ← skip_char "-" s; '(m, s) ← take_digits 2 0 s; s ← skip_char "-" s;
  '(d, s) ← take_digits 2 0 s;
  if valid_date y m d then Some (day_number y m d, s) else None.

(** The text before the first sign or [Z], which may start an offset, and the rest. *)
Definition starts_offset (c : ascii) : bool :=
  bool_decide (c = "+"%char) || bool_decide (c = "-"%char) || bool_decide (c = "Z"%char).
Definition split_offset (s : string) : string * string :=
  (take_while (λ c, negb (starts_offset c)) s, drop_while (λ c, negb (starts_offset c)) s).

Definition NUL : ascii := "000"%char.

(** A fraction: its first six characters, which must be digits, then any
    digits; [true] when something is left over. *)
Definition parse_fraction (s : string) : option (Z * bool) :=
  let n := Nat.min 6 (String.length s) in
  '(us, r) ← take_digits n 0 s;
  let r := drop_while is_digit r in
  Some (us * 10 ^ Z.of_nat (6 - n), negb (bool_decide (r = ""))).

(** [HH[:?MM[:?SS]]] and a fraction; [n] values are still to be read, [sep] is
    whether a colon separates them ([None] before the first).  The parser that
    CPython runs tells a caller that something is left over, [true], without
    failing; a caller that then finds an offset ignores it. *)
Fixpoint parse_values (n : nat) (sep : option bool) (acc : list Z) (s : string) : option (list Z * Z * bool) :=
  match n with
  | O => '(us, more) ← parse_fraction s; Some (acc, us, more)
  | S n =>
      '(v, s) ← take_digits 2 0 s;
      let acc := acc ++ [v] in
      match s with
      | "" => Some (acc, 0, false)
      | String c r =>
          let has_sep := default (bool_decide (c = ":"%char)) sep in
          if bool_decide (r = "") then Some (acc, 0, negb (bool_decide (c = NUL)))
          else if has_sep && bool_decide (c = ":"%char) then parse_values n (Some has_sep) acc r
          else if bool_decide (c = "."%char) || bool_decide (c = ","%char) then
            '(us, more) ← parse_fraction r; Some (acc, us, more)
          else if has_sep then None
          else parse_values n (Some has_sep) acc s
      end
  end.
Definition parse_hms (s : string) : option (list Z * Z * bool) := parse_values 3 None [] s.

Definition nth_Z (l : list Z) (n : nat) : Z := default 0 (l !! n).
Definition micros (vs : list Z) (us : Z) : Z :=
  ((nth_Z vs 0 * 60 + nth_Z vs 1) * 60 + nth_Z vs 2) * 1000000 + us.
Definition day_micros : Z := 86400 * 1000000.

(** The offset after a time: [Some None] when there is none.  [more] is
    whether the time left something over. *)
Definition parse_offset (more : bool) (s : string) : option (option Z) :=
  match s with
  | "" => if more then None else Some None
  | String c t =>
      if decide (c = "Z"%char) then (if bool_decide (t = "") then Some (Some 0) else None)
      else
        '(vs, us, more) ← parse_hms t;
        let off := micros vs us in
        if negb more && (off <? day_micros) then Some (Some (if decide (c = "-"%char) then - off else off)) else None
  end.

(** A local time in microseconds and its offset, if it has one. *)
Definition fromisoformat (s : string) : option (Z * option Z) :=
  '(day, rest) ← parse_date s;
  match rest with
  | "" => Some (day * day_micros, None)
  | String _ t =>
      let '(time, tz) := split_offset t in
      '(vs, us, more) ← parse_hms time;
      off ← parse_offset more tz;
      if (nth_Z vs 0 <? 24) && (nth_Z vs 1 <? 60) && (nth_Z vs 2 <? 60)
      then Some (day * day_micros + micros vs us, off) else None
  end.

(** [datetime.min] and [datetime.max] in UTC. *)
Definition MIN_MICROS : Z := day_number 1 1 1 * day_micros.
Definition MAX_MICROS : Z := (day_number 9999 12 31 + 1) * day_micros - 1.

(** [astimezone(utc)] of an aware time; [None] is the [OverflowError]. *)
Definition to_utc (local off : Z) : option Z :=
  let t := local - off in if (MIN_MICROS <=? t) && (t <=? MAX_MICROS) then Some t else None.

(** [int(t.timestamp() * 1_000_000_000)]: one division and one product of floats, truncated. *)
Definition timestamp (micros : Z) : float :=
  match micros with
  | 0 => S754_zero false
  | _ => SFdiv 53 1024 (S754_finite (micros <? 0) (Z.to_pos (Z.abs micros)) 0) (S754_finite false 1000000 0)
  end.
Definition float_trunc (x : float) : Z :=
  match x with
  | S754_finite s m e =>
      let a := if 0 <=? e then Z.shiftl (Zpos m) e else Z.shiftr (Zpos m) (- e) in if s then - a else a
  | _ => 0
  end.
Definition timestamp_ns (micros : Z) : Z := float_trunc (SFmul 53 1024 (timestamp micros) (float_lit 1000000000)).

(** [s.replace("Z", "+00:00")] *)
Fixpoint replace_Z (s : string) : string :=
  match s with
  | "" => ""
  | String c s => if decide (c = "Z"%char) then "+00:00" +:+ replace_Z s else String c (replace_Z s)
  end.

(** The date of a day: the year from the cycles of 400, 100, 4 and 1 years,
    the month from the days of the months before it. *)
Definition year_of (n : Z) : Z :=
  let r := n mod 146097 in
  let n100 := r / 36524 in let r4 := r mod 36524 in
  let n4 := r4 / 1461 in let r1 := r4 mod 1461 in
  let n1 := r1 / 365 in
  let y := 400 * (n / 146097) + 100 * n100 + 4 * n4 + n1 in
  if (n100 =? 4) || (n1 =? 4) then y else y + 1.
Fixpoint month_from (fuel : nat) (y m d : Z) : Z * Z :=
  match fuel with
  | O => (m, d)
  | S fuel => if d <=? days_in_month y m then (m, d) else month_from fuel y (m + 1) (d - days_in_month y m)
  end.
Definition date_of (day : Z) : Z * Z * Z :=
  let n := day + 719162 in
  let y := year_of n in
  let '(m, d) := month_from 11 y 1 (n - days_before_year y + 1) in (y, m, d).

(** [n] digits, with leading zeros. *)
Fixpoint padded (n : nat) (v : Z) (acc : string) : string :=
  match n with O => acc | S n => padded n (v / 10) (String (chr (48 + v mod 10)) acc) end.

(** The text of a time of day and of an instant in whole seconds. *)
Definition clock_text (r : Z) : string :=
  padded 2 (r / 3600) "" +:+ ":" +:+ padded 2 (r / 60 mod 60) "" +:+ ":" +:+ padded 2 (r mod 60) "".
Definition isoformat_secs (secs : Z) : string :=
  let '(y, m, d) := date_of (secs / 86400) in
  padded 4 y "" +:+ "-" +:+ padded 2 m "" +:+ "-" +:+ padded 2 d "" +:+ "T" +:+ clock_text (secs mod 86400).
(** [datetime.fromtimestamp(secs, tz=utc).isoformat().replace("+00:00", "Z")] *)
Definition isoformat_Z (secs : Z) : string := isoformat_secs secs +:+ "Z".
(** [datetime.isoformat()] of an aware time in UTC, in microseconds. *)
Definition isoformat_utc (t : Z) : string :=
  let us := t mod 1000000 in
  isoformat_secs (t / 1000000) +:+ (if us =? 0 then "" else "." +:+ padded 6 us "") +:+ "+00:00".

Example iso_1 : fromisoformat "2026-08-17T09:30:00.25+02:00" = Some (1786959000250000, Some 7200000000).
Proof. vm_compute. reflexivity. Qed.
Example iso_2 : fromisoformat "2026-02-29T00:00:00Z" = None.
Proof. vm_compute. reflexivity. Qed.
Example ns_1 : timestamp_ns 1786959000250000 = 1786959000249999872.
Proof. vm_compute. reflexivity. Qed.
Example isoformat_1 : map isoformat_Z [0; 1786959000; 951782400; 4107542399; 253402300799] =
  ["1970-01-01T00:00:00Z"; "2026-08-17T09:30:00Z"; "2000-02-29T00:00:00Z"; "2100-02-28T23:59:59Z"; "9999-12-31T23:59:59Z"].
Proof. vm_compute. reflexivity. Qed.

(** ** Writing a creation time and reading it back *)

Lemma digit_char_Z d : 0 <= d <= 9 → is_digit (chr (48 + d)) = true ∧ code (chr (48 + d)) = 48 + d.
Proof. intros H. unfold is_digit. rewrite code_chr by lia. lia. Qed.

Lemma padded_app n v t : padded n v t = padded n v "" +:+ t.
Proof.
  revert v t. induction n as [|n IH]; intros v t; cbn [padded]; [done|].
  rewrite (IH _ (String _ t)), (IH _ (String _ "")), str_app_assoc. done.
Qed.

Lemma take_digits_snoc n acc s :
  take_digits (S n) acc s = '(a, s') ← take_digits n acc s; take_digits 1 a s'.
Proof.
  revert acc s. induction n as [|n IH]; intros acc s; [done|].
  destruct s as [|c s]; [done|]. cbn [take_digits] in IH |- *. destruct (is_digit c); [|done]. apply IH.
Qed.

(** [padded n v] is [n] digits of value [v]. *)
Lemma take_padded n v acc rest :
  0 <= v < 10 ^ Z.of_nat n →
  take_digits n acc (padded n v "" +:+ rest) = Some (acc * 10 ^ Z.of_nat n + v, rest).
Proof.
  revert v acc rest. induction n as [|n IH]; intros v acc rest Hv.
  - cbn in *. rewrite str_app_nil_l. do 2 f_equal. lia.
  - rewrite Nat2Z.inj_succ, Z.pow_succ_r in Hv |- * by lia. rewrite take_digits_snoc. cbn [padded].
    rewrite padded_app, str_app_assoc, str_app_cons, str_app_nil_l, IH by
      (split; [apply Z.div_pos; lia|apply Z.div_lt_upper_bound; lia]).
    cbn [mbind option_bind take_digits]. pose proof (Z.mod_pos_bound v 10 ltac:(lia)).
    destruct (digit_char_Z (v mod 10) ltac:(lia)) as [-> ->]. do 2 f_equal.
    pose proof (Z.div_mod v 10 ltac:(lia)). lia.
Qed.

(** The year of a day: its first day is not after it and the next year's is. *)
Lemma days_before_year_succ y :
  days_before_year (y + 1) = days_before_year y + (if leap y then 366 else 365).
Proof.
  unfold days_before_year, leap. replace (y + 1 - 1) with y by lia.
  pose proof (Z.div_mod y 4 ltac:(lia)). pose proof (Z.mod_pos_bound y 4 ltac:(lia)).
  pose proof (Z.div_mod y 100 ltac:(lia)). pose proof (Z.mod_pos_bound y 100 ltac:(lia)).
  pose proof (Z.div_mod y 400 ltac:(lia)). pose proof (Z.mod_pos_bound y 400 ltac:(lia)).
  pose proof (Z.div_mod (y - 1) 4 ltac:(lia)). pose proof (Z.mod_pos_bound (y - 1) 4 ltac:(lia)).
  pose proof (Z.div_mod (y - 1) 100 ltac:(lia)). pose proof (Z.mod_pos_bound (y - 1) 100 ltac:(lia)).
  pose proof (Z.div_mod (y - 1) 400 ltac:(lia)). pose proof (Z.mod_pos_bound (y - 1) 400 ltac:(lia)).
  destruct (y mod 4 =? 0) eqn:E4, (y mod 100 =? 0) eqn:E1, (y mod 400 =? 0) eqn:E40; cbn; lia.
Qed.

Lemma year_cycles a b c d :
  0 <= b <= 3 → 0 <= c <= 24 → 0 <= d <= 3 →
  days_before_year (400 * a + 100 * b + 4 * c + d + 1) = 146097 * a + 36524 * b + 1461 * c + 365 * d.
Proof.
  intros Hb Hc Hd. unfold days_before_year.
  replace (400 * a + 100 * b + 4 * c + d + 1 - 1) with (400 * a + 100 * b + 4 * c + d) by lia.
  rewrite <- (Z.div_unique (400 * a + 100 * b + 4 * c + d) 4 (100 * a + 25 * b + c) d) by lia.
  rewrite <- (Z.div_unique (400 * a + 100 * b + 4 * c + d) 100 (4 * a + b) (4 * c + d)) by lia.
  rewrite <- (Z.div_unique (400 * a + 100 * b + 4 * c + d) 400 a (100 * b + 4 * c + d)) by lia. lia.
Qed.

Lemma leap_cycles a b c :
  0 <= b <= 3 → 1 <= c <= 24 → leap (400 * a + 100 * b + 4 * c) = true.
Proof.
  intros Hb Hc. unfold leap.
  rewrite <- (Z.mod_unique (400 * a + 100 * b + 4 * c) 4 (100 * a + 25 * b + c) 0) by lia.
  rewrite <- (Z.mod_unique (400 * a + 100 * b + 4 * c) 100 (4 * a + b) (4 * c)) by lia.
  destruct (4 * c =? 0) eqn:E; [lia|done].
Qed.

Lemma leap_400 a : leap (400 * a) = true.
Proof.
  unfold leap. rewrite <- (Z.mod_unique (400 * a) 4 (100 * a) 0) by lia.
  by rewrite <- (Z.mod_unique (400 * a) 400 a 0), orb_true_r by lia.
Qed.

(** The year found is the one the day lies in. *)
Lemma year_of_spec n : days_before_year (year_of n) <= n < days_before_year (year_of n + 1).
Proof.
  unfold year_of. set (a := n / 146097). set (r := n mod 146097).
  assert (Hn : n = 146097 * a + r ∧ 0 <= r < 146097) by
    (unfold a, r; pose proof (Z.div_mod n 146097); pose proof (Z.mod_pos_bound n 146097); lia).
  clearbody a r. set (b := r / 36524). set (r4 := r mod 36524).
  assert (Hr : r = 36524 * b + r4 ∧ 0 <= r4 < 36524) by
    (unfold b, r4; pose proof (Z.div_mod r 36524); pose proof (Z.mod_pos_bound r 36524); lia).
  clearbody b r4. set (c := r4 / 1461). set (r1 := r4 mod 1461).
  assert (H4 : r4 = 1461 * c + r1 ∧ 0 <= r1 < 1461) by
    (unfold c, r1; pose proof (Z.div_mod r4 1461); pose proof (Z.mod_pos_bound r4 1461); lia).
  clearbody c r1. set (d := r1 / 365).
  assert (H1 : 365 * d <= r1 < 365 * d + 365) by
    (unfold d; pose proof (Z.div_mod r1 365); pose proof (Z.mod_pos_bound r1 365); lia).
  clearbody d. rewrite days_before_year_succ.
  destruct (b =? 4) eqn:Eb; [|destruct (d =? 4) eqn:Ed]; cbn [orb].
  - assert (b = 4 ∧ c = 0 ∧ d = 0) as (-> & -> & ->) by lia.
    replace (400 * a + 100 * 4 + 4 * 0 + 0) with (400 * (a + 1)) by lia. rewrite leap_400.
    replace (400 * (a + 1)) with (400 * a + 100 * 3 + 4 * 24 + 3 + 1) by lia. rewrite year_cycles by lia. lia.
  - assert (d = 4) as -> by lia. replace (400 * a + 100 * b + 4 * c + 4) with (400 * a + 100 * b + 4 * (c + 1)) by lia.
    rewrite leap_cycles by lia. replace (400 * a + 100 * b + 4 * (c + 1)) with (400 * a + 100 * b + 4 * c + 3 + 1) by lia.
    rewrite year_cycles by lia. lia.
  - rewrite year_cycles by lia. destruct (leap _); lia.
Qed.

Lemma days_before_month_succ y m : 1 <= m → days_before_month y (m + 1) = days_before_month y m + days_in_month y m.
Proof.
  intros Hm. unfold days_before_month. replace (Z.to_nat (m + 1 - 1)) with (S (Z.to_nat (m - 1))) by lia.
  rewrite seq_S, foldr_app. cbn [foldr]. replace (Z.of_nat (1 + Z.to_nat (m - 1))) with m by lia.
  rewrite Z.add_0_r. generalize (days_in_month y m) as z. intros z. induction (seq 1 _) as [|k l IH]; cbn; lia.
Qed.

Lemma days_in_month_le y m : days_in_month y m <= 31.
Proof. unfold days_in_month. destruct (m =? 2); [destruct (leap y); lia|]. destruct (_ || _); lia. Qed.

(** The day of the month counts from the first and stays within the month. *)
Lemma month_from_spec fuel y m d :
  1 <= m → 1 <= d → d <= days_before_month y (m + Z.of_nat fuel + 1) - days_before_month y m →
  let '(m', d') := month_from fuel y m d in
  m <= m' <= m + Z.of_nat fuel ∧ 1 <= d' <= days_in_month y m' ∧
  days_before_month y m' + d' = days_before_month y m + d.
Proof.
  revert m d. induction fuel as [|fuel IH]; intros m d Hm Hd Hle.
  - cbn [month_from]. rewrite days_before_month_succ in Hle by lia. replace (m + Z.of_nat 0) with m in * by lia. split_and!; lia.
  - cbn [month_from]. destruct (d <=? days_in_month y m) eqn:E; [split_and!; lia|].
    specialize (IH (m + 1) (d - days_in_month y m)). rewrite (days_before_month_succ y m) in IH by lia.
    replace (m + 1 + Z.of_nat fuel + 1) with (m + Z.of_nat (S fuel) + 1) in IH by lia.
    destruct (month_from fuel y (m + 1) (d - days_in_month y m)) as [m' d'].
    destruct IH as (? & ? & ?); [lia..|]. split_and!; lia.
Qed.

Lemma year_days y : days_before_month y 13 = if leap y then 366 else 365.
Proof. unfold days_before_month, days_in_month. destruct (leap y); vm_compute; reflexivity. Qed.

Lemma year_bounds n y :
  days_before_year y <= n < days_before_year (y + 1) → 0 <= n <= 3652058 → 1 <= y <= 9999.
Proof.
  unfold days_before_year. replace (y + 1 - 1) with y by lia. intros Hy Hn.
  pose proof (Z.div_mod (y - 1) 4). pose proof (Z.mod_pos_bound (y - 1) 4).
  pose proof (Z.div_mod (y - 1) 100). pose proof (Z.mod_pos_bound (y - 1) 100).
  pose proof (Z.div_mod (y - 1) 400). pose proof (Z.mod_pos_bound (y - 1) 400).
  pose proof (Z.div_mod y 4). pose proof (Z.mod_pos_bound y 4).
  pose proof (Z.div_mod y 100). pose proof (Z.mod_pos_bound y 100).
  pose proof (Z.div_mod y 400). pose proof (Z.mod_pos_bound y 400).
  destruct (Z.eq_dec y 10000) as [->|]; [cbn in *; lia|]. lia.
Qed.

Lemma date_of_spec day :
  0 <= day + 719162 <= 3652058 →
  let '(y, m, d) := date_of day in
  1 <= y <= 9999 ∧ 1 <= m <= 12 ∧ 1 <= d <= days_in_month y m ∧ day_number y m d = day.
Proof.
  intros Hd. unfold date_of. set (n := day + 719162) in *. pose proof (year_of_spec n) as Hy. set (y := year_of n) in *.
  pose proof (year_bounds n y Hy Hd) as Hyr. rewrite days_before_year_succ, <- year_days in Hy.
  assert (days_before_month y 1 = 0) as H1 by done.
  pose proof (month_from_spec 11 y 1 (n - days_before_year y + 1)) as Hm.
  change (1 + Z.of_nat 11 + 1) with 13 in Hm. change (1 + Z.of_nat 11) with 12 in Hm.
  destruct (month_from 11 y 1 (n - days_before_year y + 1)) as [m d]. destruct Hm as (Hm & Hdm & Hs); [lia..|].
  split_and!; try lia. unfold day_number. lia.
Qed.

Lemma padded_length n v : String.length (padded n v "") = n.
Proof.
  revert v. induction n as [|n IH]; intros v; [done|]. cbn [padded]. rewrite padded_app, str_length_app, IH. cbn. lia.
Qed.

Lemma padded_digits n v : str_forallb is_digit (padded n v "") = true.
Proof.
  revert v. induction n as [|n IH]; intros v; [done|]. cbn [padded]. rewrite padded_app, str_forallb_app, IH.
  pose proof (Z.mod_pos_bound v 10 ltac:(lia)). cbn. destruct (digit_char_Z (v mod 10) ltac:(lia)) as [-> _]. done.
Qed.

Lemma span_app (p : ascii → bool) a c b :
  str_forallb p a = true → p c = false →
  take_while p (a +:+ String c b) = a ∧ drop_while p (a +:+ String c b) = String c b.
Proof.
  intros Ha Hc. induction a as [|d a IH]; rewrite ?str_app_nil_l, ?str_app_cons; cbn; [by rewrite Hc|].
  cbn in Ha. apply andb_true_iff in Ha as [-> Ha]. destruct (IH Ha) as [-> ->]. done.
Qed.

Lemma clock_plain r : str_forallb (λ c, negb (starts_offset c)) (clock_text r) = true.
Proof.
  unfold clock_text. rewrite !str_forallb_app.
  assert (H : ∀ n v, str_forallb (λ c, negb (starts_offset c)) (padded n v "") = true).
  { intros n v. eapply str_forallb_impl; [|apply (padded_digits n v)]. intros c Hc. unfold starts_offset.
    destruct (bool_decide_reflect (c = "+"%char)) as [->|]; [done|]. destruct (bool_decide_reflect (c = "-"%char)) as [->|]; [done|].
    by destruct (bool_decide_reflect (c = "Z"%char)) as [->|]. }
  by rewrite !H.
Qed.

Lemma parse_values_colon n sep acc v x :
  0 <= v < 100 → x ≠ "" → sep ≠ Some false →
  parse_values (S n) sep acc (padded 2 v "" +:+ ":" +:+ x) = parse_values n (Some true) (acc ++ [v]) x.
Proof.
  intros Hv Hx Hs. cbn [parse_values]. rewrite take_padded by lia. cbn [mbind option_bind].
  rewrite str_app_cons, str_app_nil_l, (bool_decide_eq_false_2 (x = "")) by done.
  rewrite bool_decide_eq_true_2 by done. replace (default true sep) with true by (by destruct sep as [[]|]). cbn [andb].
  by replace (0 * 10 ^ Z.of_nat 2 + v) with v by lia.
Qed.

Lemma parse_values_last n sep acc v :
  0 <= v < 100 → parse_values (S n) sep acc (padded 2 v "") = Some (acc ++ [v], 0, false).
Proof.
  intros Hv. cbn [parse_values]. rewrite <- (str_app_nil_r (padded 2 v "")), take_padded by lia. cbn [mbind option_bind].
  by replace (0 * 10 ^ Z.of_nat 2 + v) with v by lia.
Qed.

Lemma clock_parses r :
  0 <= r < 86400 →
  parse_hms (clock_text r) = Some ([r / 3600; r / 60 mod 60; r mod 60], 0, false) ∧
  r / 3600 < 24 ∧ r / 60 mod 60 < 60 ∧ r mod 60 < 60 ∧ micros [r / 3600; r / 60 mod 60; r mod 60] 0 = r * 1000000.
Proof.
  intros Hr. assert (H : 0 <= r / 3600 < 24 ∧ 0 <= r / 60 mod 60 < 60 ∧ 0 <= r mod 60 < 60 ∧ (r / 3600 * 60 + r / 60 mod 60) * 60 + r mod 60 = r).
  { pose proof (Z.div_div r 60 60 ltac:(lia) ltac:(lia)) as Hdd. change (60 * 60) with 3600 in Hdd.
    pose proof (Z.div_mod r 60). pose proof (Z.mod_pos_bound r 60). pose proof (Z.div_mod (r / 60) 60). pose proof (Z.mod_pos_bound (r / 60) 60). lia. }
  revert H. unfold clock_text. generalize (r / 3600) (r / 60 mod 60) (r mod 60). intros h m s (Hh & Hm & Hs & E).
  split; [|unfold micros, nth_Z; cbn; lia].
  unfold parse_hms. rewrite !parse_values_colon by (done || (intros Ht%(f_equal String.length); rewrite ?str_length_app, ?padded_length in Ht; cbn in Ht; lia) || lia).
  by rewrite parse_values_last by lia.
Qed.

(** A fraction of a second written with six digits. *)
Lemma clock_fraction_parses r us :
  0 <= r < 86400 → 0 < us < 1000000 →
  parse_hms (clock_text r +:+ "." +:+ padded 6 us "") =
    Some ([r / 3600; r / 60 mod 60; r mod 60], us, false).
Proof.
  intros Hr Hus. assert (H : 0 <= r / 3600 < 24 ∧ 0 <= r / 60 mod 60 < 60 ∧ 0 <= r mod 60 < 60).
  { pose proof (Z.div_mod r 60). pose proof (Z.mod_pos_bound r 60). pose proof (Z.mod_pos_bound (r / 60) 60).
    pose proof (Z.div_lt_upper_bound r 3600 24). pose proof (Z.div_pos r 3600). lia. }
  revert H. unfold clock_text. generalize (r / 3600) (r / 60 mod 60) (r mod 60). intros h m s (Hh & Hm & Hs).
  unfold parse_hms. rewrite !str_app_assoc.
  rewrite !parse_values_colon by (done || (intros Ht%(f_equal String.length); rewrite ?str_length_app, ?padded_length in Ht; cbn in Ht; lia) || lia).
  cbn [parse_values]. rewrite str_app_cons, str_app_nil_l, take_padded by lia. cbn [mbind option_bind].
  rewrite bool_decide_eq_false_2 by (intros Ht%(f_equal String.length); rewrite padded_length in Ht; done).
  rewrite (bool_decide_eq_false_2 ("."%char = ":"%char)) by done. cbn [default andb orb].
  rewrite (bool_decide_eq_true_2 ("."%char = "."%char)) by done. cbn [orb].
  unfold parse_fraction. rewrite padded_length. change (Nat.min 6 6) with 6%nat.
  rewrite <- (str_app_nil_r (padded 6 us "")), take_padded by (cbn; lia). cbn [mbind option_bind drop_while].
  rewrite bool_decide_eq_true_2 by done. cbn. do 4 f_equal; lia.
Qed.

(** What [isoformat] writes is read back as that instant, in UTC; [frac] is
    what follows the seconds, worth [us] microseconds. *)
Lemma isoformat_text secs frac us c tz :
  0 <= secs / 86400 + 719162 <= 3652058 → starts_offset c = true → parse_offset false (String c tz) = Some (Some 0) →
  str_forallb (λ c, negb (starts_offset c)) frac = true →
  (∀ r, 0 <= r < 86400 → parse_hms (clock_text r +:+ frac) = Some ([r / 3600; r / 60 mod 60; r mod 60], us, false)) →
  fromisoformat (isoformat_secs secs +:+ frac +:+ String c tz) = Some (secs * 1000000 + us, Some 0).
Proof.
  intros Hd Hc Hoff Hf Hp. unfold isoformat_secs. pose proof (date_of_spec (secs / 86400) Hd) as H.
  destruct (date_of (secs / 86400)) as [[y m] d]. destruct H as (Hy & Hm & Hdd & Hn).
  pose proof (Z.div_mod secs 86400). pose proof (Z.mod_pos_bound secs 86400).
  pose proof (days_in_month_le y m). set (r := secs mod 86400) in *. unfold fromisoformat, parse_date.
  rewrite !str_app_assoc, !(str_app_cons "-"), !str_app_nil_l, (str_app_cons "T"), str_app_nil_l.
  rewrite take_padded by lia. cbn [mbind option_bind skip_char]. rewrite decide_True by done. cbn [mbind option_bind].
  rewrite take_padded by lia. cbn [mbind option_bind skip_char]. rewrite decide_True by done. cbn [mbind option_bind].
  rewrite take_padded by lia. cbn [mbind option_bind skip_char].
  replace (0 * 10 ^ Z.of_nat 4 + y) with y by lia. replace (0 * 10 ^ Z.of_nat 2 + m) with m by lia.
  replace (0 * 10 ^ Z.of_nat 2 + d) with d by lia.
  assert (valid_date y m d = true) as -> by (unfold valid_date; lia). cbn [mbind option_bind].
  unfold split_offset. rewrite <- (str_app_assoc (clock_text r)).
  destruct (span_app (λ c, negb (starts_offset c)) (clock_text r +:+ frac) c tz) as [-> ->];
    [by rewrite str_forallb_app, clock_plain|by rewrite Hc|].
  destruct (clock_parses r) as (_ & Hh & Hmi & Hs & Hmc); [lia|]. rewrite Hp by lia. cbn [mbind option_bind]. rewrite Hoff.
  cbn [mbind option_bind]. unfold nth_Z, id. cbn [lookup list_lookup default]. unfold id.
  replace ((r / 3600 <? 24) && (r / 60 mod 60 <? 60) && (r mod 60 <? 60)) with true by lia.
  unfold micros, nth_Z in *. cbn [lookup list_lookup default] in *. unfold id in *.
  rewrite Hn. unfold day_micros. do 2 f_equal. lia.
Qed.

Lemma isoformat_secs_text secs c tz :
  0 <= secs / 86400 + 719162 <= 3652058 → starts_offset c = true → parse_offset false (String c tz) = Some (Some 0) →
  fromisoformat (isoformat_secs secs +:+ String c tz) = Some (secs * 1000000, Some 0).
Proof.
  intros Hd Hc Hoff. rewrite <- (Z.add_0_r (secs * 1000000)), <- (str_app_nil_l (String c tz)) .
  apply isoformat_text; [done..|]. intros r Hr. rewrite str_app_nil_r. by apply clock_parses.
Qed.

(** The written text: digits and separators, nineteen of them. *)
Lemma isoformat_secs_chars secs :
  str_forallb (λ c, negb (py_isspace c) && negb (bool_decide (c = "Z"%char))) (isoformat_secs secs) = true ∧
  String.length (isoformat_secs secs) = 19%nat.
Proof.
  assert (H : ∀ n v, str_forallb (λ c, negb (py_isspace c) && negb (bool_decide (c = "Z"%char))) (padded n v "") = true).
  { intros n v. eapply str_forallb_impl; [|apply (padded_digits n v)]. intros c Hc. apply andb_true_iff. split.
    - revert Hc. unfold is_digit, py_isspace. lia.
    - destruct (bool_decide_reflect (c = "Z"%char)) as [->|]; done. }
  unfold isoformat_secs, clock_text. destruct (date_of (secs / 86400)) as [[y m] d].
  rewrite !str_forallb_app, !H, !str_length_app, !padded_length. done.
Qed.

Lemma replace_Z_app s t : replace_Z (s +:+ t) = replace_Z s +:+ replace_Z t.
Proof.
  induction s as [|c s IH]; [by rewrite !str_app_nil_l|]. rewrite str_app_cons. cbn [replace_Z]. rewrite IH.
  case_decide; by rewrite ?str_app_assoc, ?str_app_cons.
Qed.

Lemma replace_Z_id s : str_forallb (λ c, negb (bool_decide (c = "Z"%char))) s = true → replace_Z s = s.
Proof.
  induction s as [|c s IH]; [done|]. cbn [str_forallb replace_Z]. intros [Hc%negb_true_iff%bool_decide_eq_false Hs]%andb_true_iff.
  rewrite decide_False by done. by rewrite IH.
Qed.

(** A written creation time survives the readers' [replace("Z", "+00:00")]. *)
Lemma isoformat_Z_read secs :
  0 <= secs / 86400 + 719162 <= 3652058 →
  fromisoformat (replace_Z (isoformat_Z secs)) = Some (secs * 1000000, Some 0).
Proof.
  intros Hd. unfold isoformat_Z. rewrite replace_Z_app, (replace_Z_id (isoformat_secs secs)).
  - change (replace_Z "Z") with (String "+" "00:00"). by apply isoformat_secs_text.
  - eapply str_forallb_impl; [|apply isoformat_secs_chars]. by intros c [_ ?]%andb_true_iff.
Qed.

(** A clock between the years 1 and 9999. *)
Definition clock_ok (t : Z) : Prop := 0 <= t / 1000000 / 86400 + 719162 <= 3652058.

Lemma padded_no_Z n v : str_forallb (λ c, negb (bool_decide (c = "Z"%char))) (padded n v "") = true.
Proof.
  eapply str_forallb_impl; [|apply padded_digits]. intros c Hc. by destruct (bool_decide_reflect (c = "Z"%char)) as [->|].
Qed.

(** A written instant survives the same readers. *)
Lemma isoformat_utc_read t : clock_ok t → fromisoformat (replace_Z (isoformat_utc t)) = Some (t, Some 0).
Proof.
  intros Ht. pose proof (Z.div_mod t 1000000 ltac:(lia)) as Ht0. pose proof (Z.mod_pos_bound t 1000000 ltac:(lia)) as Hus.
  unfold isoformat_utc. rewrite replace_Z_id.
  2: { rewrite !str_forallb_app. apply andb_true_iff. split.
       - eapply str_forallb_impl; [|apply isoformat_secs_chars]. by intros c [_ ?]%andb_true_iff.
       - destruct (t mod 1000000 =? 0); [done|]. by rewrite str_forallb_app, padded_no_Z. }
  change "+00:00" with (String "+" "00:00"). destruct (Z.eqb_spec (t mod 1000000) 0) as [E|E].
  - rewrite str_app_nil_l, isoformat_secs_text by done. do 3 f_equal. lia.
  - rewrite (isoformat_text _ _ (t mod 1000000)); [do 3 f_equal; lia|done..| |].
    + rewrite str_forallb_app. apply andb_true_iff. split; [done|].
      eapply str_forallb_impl; [|apply padded_digits]. intros c Hc. unfold starts_offset.
      destruct (bool_decide_reflect (c = "+"%char)) as [->|]; [done|]. destruct (bool_decide_reflect (c = "-"%char)) as [->|]; [done|].
      by destruct (bool_decide_reflect (c = "Z"%char)) as [->|].
    + intros r Hr. apply clock_fraction_parses; lia.
Qed.
