(* ===== verification/Shlex.v ===== *)
(** * Shell words: [shlex.split] and [shlex.quote]

    The POSIX mode of Python's [shlex] with [whitespace_split], as
    [shlex.split] runs it, the quoting function, and the round trip of a line
    of [key=value] words that a journal of such lines rests on. *)
From S2P Require Import Prelude Json PyText.

#[local] Open Scope Z_scope.

(** Between two words, inside one, inside a run of punctuation, inside a quoted
    part, or after a backslash with the quote to go back to. *)
Variant lexer := Between | Word | Punct | Quoted (q : ascii) | Escaped (back : option ascii).

Definition shell_space (c : ascii) : bool := char_in c (String " " (String "009" (String CR (String LF "")))).
Definition is_quote (c : ascii) : bool := bool_decide (c = single_quote) || bool_decide (c = quote_char).
Definition is_backslash (c : ascii) : bool := bool_decide (c = backslash).

Definition snoc (s : string) (c : ascii) : string := s +:+ String c "".
Definition pending (tok : string) (quoted : bool) : bool := negb (bool_decide (tok = "")) || quoted.

Section Lex.
  (** [punctuation_chars] *)
  Context (punct : ascii → bool).

(** The state and the token after a word's first character. *)
Definition open_word (c : ascii) : lexer * string :=
  if is_backslash c then (Escaped None, "")
  else if punct c then (Punct, String c "")
  else if is_quote c then (Quoted c, "")
  else (Word, String c "").

Definition emit (tok : string) (quoted : bool) (rest : res (list string)) : res (list string) :=
  if pending tok quoted then ws ← rest; Ok (tok :: ws) else rest.

(** The words of [s]; [tok] is the word being read and [quoted] whether a part
    of it was quoted. *)
Fixpoint lex (st : lexer) (tok : string) (quoted : bool) (s : string) : res (list string) :=
  match s with
  | "" =>
      match st with
      | Quoted _ => Err (Exn ValueError "No closing quotation")
      | Escaped _ => Err (Exn ValueError "No escaped character")
      | Between | Word | Punct => Ok (if pending tok quoted then [tok] else [])
      end
  | String c s =>
      match st with
      | Between =>
          if shell_space c then lex Between "" false s
          else lex (open_word c).1 (open_word c).2 false s
      | Word =>
          if shell_space c then emit tok quoted (lex Between "" false s)
          else if is_quote c then lex (Quoted c) tok quoted s
          else if is_backslash c then lex (Escaped None) tok quoted s
          else if punct c then emit tok quoted (lex (open_word c).1 (open_word c).2 false s)
          else lex Word (snoc tok c) quoted s
      | Punct =>
          if shell_space c then emit tok quoted (lex Between "" false s)
          else if punct c then lex Punct (snoc tok c) quoted s
          else emit tok true (lex (open_word c).1 (open_word c).2 false s)
      | Quoted q =>
          if bool_decide (c = q) then lex Word tok true s
          else if is_backslash c && bool_decide (q = quote_char) then lex (Escaped (Some q)) tok true s
          else lex (Quoted q) (snoc tok c) true s
      | Escaped back =>
          let kept := match back with
                      | Some q => negb (is_backslash c) && negb (bool_decide (c = q))
                      | None => false
                      end in
          lex (match back with Some q => Quoted q | None => Word end)
            (snoc (if kept then snoc tok backslash else tok) c) quoted s
      end
  end.
End Lex.

Definition no_punctuation (c : ascii) : bool := false.
Definition shlex_split (s : string) : res (list string) := lex no_punctuation Between "" false s.

(** [[\w@%+=:,./-]] in ASCII. *)
Definition shell_safe (c : ascii) : bool := is_alnum c || char_in c "_@%+=:,./-".

Fixpoint escape_quotes (s : string) : string :=
  match s with
  | "" => ""
  | String c s =>
      if decide (c = single_quote)
      then String single_quote (String quote_char (String single_quote (String quote_char
             (String single_quote (escape_quotes s)))))
      else String c (escape_quotes s)
  end.

Definition shlex_quote (s : string) : string :=
  if bool_decide (s = "") then String single_quote (String single_quote "")
  else if str_forallb shell_safe s then s
  else String single_quote (escape_quotes s +:+ String single_quote "").

(** [key=quoted] as the writers of a line put it. *)
Definition assignment (kv : string * string) : string := kv.1 +:+ "=" +:+ shlex_quote kv.2.
Definition bare_assignment (kv : string * string) : string := kv.1 +:+ "=" +:+ kv.2.

(** ** Reading back *)

Lemma snoc_app s c t : snoc s c +:+ t = s +:+ String c t.
Proof. unfold snoc. by rewrite str_app_assoc. Qed.

Lemma safe_plain c : shell_safe c = true → shell_space c = false ∧ is_quote c = false ∧ is_backslash c = false.
Proof. destruct c as [[] [] [] [] [] [] [] []]; vm_compute; intros; split_and!; congruence. Qed.

(** A key no part of which the lexer treats specially. *)
Definition plain_key (k : string) : bool := negb (bool_decide (k = "")) && str_forallb shell_safe k.

(** A punctuation that leaves the safe characters alone. *)
Section Read.
  Context (punct : ascii → bool) (Hpunct : ∀ c, shell_safe c = true → punct c = false)
    (Hquote : punct single_quote = false).

Lemma lex_plain tok b s rest :
  str_forallb shell_safe s = true → lex punct Word tok b (s +:+ rest) = lex punct Word (tok +:+ s) b rest.
Proof using Hpunct.
  revert tok. induction s as [|c s IH]; intros tok H.
  - by rewrite str_app_nil_l, str_app_nil_r.
  - cbn in H. bool_inv. rewrite str_app_cons. cbn [lex].
    destruct (safe_plain c) as (-> & -> & ->); [done|]. rewrite Hpunct, IH by done. by rewrite snoc_app.
Qed.

Lemma lex_single tok b s rest :
  lex punct (Quoted single_quote) tok b (escape_quotes s +:+ String single_quote rest) = lex punct Word (tok +:+ s) true rest.
Proof.
  revert tok b. induction s as [|c s IH]; intros tok b.
  - rewrite str_app_nil_l, str_app_nil_r. reflexivity.
  - cbn [escape_quotes]. case_decide as Hc.
    + subst. rewrite !str_app_cons.
      transitivity (lex punct (Quoted single_quote) (snoc tok single_quote) true (escape_quotes s +:+ String single_quote rest));
        [reflexivity|by rewrite IH, snoc_app].
    + rewrite str_app_cons. cbn [lex]. rewrite bool_decide_eq_false_2 by done.
      rewrite (bool_decide_eq_false_2 (single_quote = quote_char)) by by_decide. rewrite andb_false_r.
      rewrite IH. by rewrite snoc_app.
Qed.

Lemma lex_quote tok b v rest : ∃ b', lex punct Word tok b (shlex_quote v +:+ rest) = lex punct Word (tok +:+ v) b' rest.
Proof using Hpunct.
  unfold shlex_quote. case_bool_decide as Hv; [|destruct (str_forallb shell_safe v) eqn:Hs].
  - subst. rewrite str_app_nil_r. exists true. reflexivity.
  - exists b. by apply lex_plain.
  - exists true. rewrite str_app_cons, str_app_assoc, str_app_cons, str_app_nil_l.
    transitivity (lex punct (Quoted single_quote) tok b (escape_quotes v +:+ String single_quote rest)); [done|apply lex_single].
Qed.

(** The source [w] of a word is read as [v], wherever it starts. *)
Definition reads (w v : string) : Prop :=
  ∀ rest, ∃ b, pending v b = true ∧ lex punct Between "" false (w +:+ rest) = lex punct Word v b rest.

Lemma reads_assignment kv : plain_key kv.1 = true → reads (assignment kv) (bare_assignment kv).
Proof using Hpunct.
  destruct kv as [k v]. unfold plain_key, assignment, bare_assignment. cbn [fst snd]. intros H rest. bool_inv.
  destruct k as [|c k]; [done|]. cbn in H0. bool_inv. rewrite !str_app_assoc, !str_app_cons. cbn [lex].
  unfold open_word. destruct (safe_plain c) as (-> & -> & ->); [done|]. rewrite Hpunct by done. cbn [fst snd].
  rewrite lex_plain by done. cbn [lex]. change (shell_space "=") with false. change (is_quote "=") with false.
  change (is_backslash "=") with false. rewrite Hpunct by done.
  destruct (lex_quote (snoc (String c "" +:+ k) "=") false v rest) as [b E]. exists b.
  split; [done|]. rewrite str_app_nil_l, E. by rewrite snoc_app, !str_app_cons, str_app_nil_l.
Qed.

Lemma reads_quote v : reads (shlex_quote v) v.
Proof using Hpunct Hquote.
  assert (Hopen : ∀ s, lex punct Between "" false (String single_quote s) = lex punct (Quoted single_quote) "" false s).
  { intros s. cbn [lex]. unfold open_word. change (shell_space single_quote) with false. change (is_backslash single_quote) with false.
    by rewrite Hquote. }
  intros rest. unfold shlex_quote. case_bool_decide as Hv; [|destruct (str_forallb shell_safe v) eqn:Hs].
  - subst. exists true. split; [done|]. rewrite !str_app_cons, str_app_nil_l. by rewrite Hopen.
  - destruct v as [|c v]; [done|]. exists false. split; [done|]. cbn in Hs. bool_inv. rewrite str_app_cons. cbn [lex].
    unfold open_word. destruct (safe_plain c) as (-> & -> & ->); [done|]. rewrite Hpunct by done. cbn [fst snd].
    by rewrite lex_plain, str_app_cons, str_app_nil_l by done.
  - exists true. split; [unfold pending; apply orb_true_r|]. rewrite str_app_cons, str_app_assoc, str_app_cons, str_app_nil_l.
    by rewrite Hopen, lex_single, str_app_nil_l.
Qed.

(** A line of such sources is read as their words. *)
Lemma lex_words ws vs : Forall2 reads ws vs → lex punct Between "" false (py_join " " ws) = Ok vs.
Proof.
  induction 1 as [|w v ws vs Hw Hws IH]; [done|]. destruct Hws as [|w' v' ws vs Hw' Hws].
  - cbn [py_join]. rewrite <- (str_app_nil_r w). destruct (Hw "") as (b & Hb & ->). cbn [lex]. by rewrite Hb.
  - rewrite py_join_cons by done. destruct (Hw (" " +:+ py_join " " (w' :: ws))) as (b & Hb & ->).
    rewrite str_app_cons, str_app_nil_l. cbn [lex]. unfold emit.
    rewrite (eq_refl : shell_space " " = true), Hb, IH. done.
Qed.
End Read.

(** The words of a line of assignments are the assignments. *)
Lemma split_assignments kvs :
  Forall (λ kv, plain_key kv.1 = true) kvs →
  shlex_split (py_join " " (map assignment kvs)) = Ok (map bare_assignment kvs).
Proof.
  intros H. apply lex_words. induction H as [|kv kvs Hk _ IH]; constructor; [|done]. by apply reads_assignment.
Qed.
