(* ===== verification/Workboard.v ===== *)
(** * The workboard ([chrono_state/workboard.py])

    The append-only Markdown journal of the coordinator's work: the event
    schema, the parser of the ledger, the fold that derives the current board,
    the validator, and the append that admits an event only when a simulation
    shows it.  Files are texts; paths, locks and the migration of old ledgers
    are not modelled, compaction is in [Compaction].

    The marker of an active row of the old format has a character above code
    point 255, so no old row of a modelled text is active. *)
From S2P Require Import Prelude Regex Sha256 Json PyText PyTime Shlex.

#[local] Open Scope Z_scope.

Definition EVENT_TAG : string := "workboard-event/v1".
Definition TERMINAL_KINDS : list string := ["complete"; "archive"; "drop"].
Definition COMPACTION_KIND : string := "compact".
Definition ADOPTION_KIND : string := "adopt".
Definition IDLE_KIND : string := "idle".
Definition NONTERMINAL_KINDS : list string :=
  ["start"; "queue"; "fold"; "switch"; "advance"; "restate"; "block"; "restart"; COMPACTION_KIND; ADOPTION_KIND; IDLE_KIND].
Definition EVENT_KINDS : list string := TERMINAL_KINDS ++ NONTERMINAL_KINDS.

Definition OPEN_WORK_HEADER : string :=
  "# Open Work" +:+ String LF (String LF
  ("Append-only machine facts. Add state only through " +:+
   "`chrono_state.workboard.append_event` (shell: `bin/workboard-append.sh`)." +:+ String LF (String LF ""))).

Definition _ITEM_ID_RE : re := RSeq (RChr is_alnum) (RStar (RChr (λ c, is_alnum c || char_in c "._-"))).
Definition _WORK_ID_RE : re := RSeq (RChr (λ c, bool_decide (c = "W"%char))) (RSeq (RChr (λ c, bool_decide (c = "-"%char))) (rrep 32 32 (RChr is_hex))).
Definition MAX_ID_CHARS : nat := 64.

Definition closing_variants : list (list string) :=
  [["work_id"]; ["item_id"];
   ["work_id"; "successor_work_id"; "next_action"]; ["item_id"; "successor_id"; "next_action"];
   ["work_id"; "focus_state"]; ["item_id"; "focus_state"];
   ["work_id"; "waiting_work_id"; "resume_action"]; ["item_id"; "waiting_id"; "resume_action"]].

(** The fields each kind may carry: one of several sets. *)
Definition _REQUIRED_FIELD_VARIANTS : list (string * list (list string)) :=
  [("start", [["work_id"; "alias"; "summary"; "why"; "next_action"]; ["item_id"; "summary"; "why"; "next_action"]]);
   ("queue", [["work_id"; "alias"; "summary"; "why"; "resume_action"]; ["item_id"; "summary"; "why"; "resume_action"]]);
   ("fold", [["request_id"; "target_work_id"; "summary"; "why"; "next_action"];
             ["request_id"; "target_id"; "summary"; "why"; "next_action"]]);
   ("drop", [["work_id"; "summary"; "why"]; ["request_id"; "summary"; "why"];
             ["work_id"; "summary"; "why"; "successor_work_id"; "next_action"];
             ["request_id"; "summary"; "why"; "successor_id"; "next_action"];
             ["work_id"; "summary"; "why"; "focus_state"]; ["request_id"; "summary"; "why"; "focus_state"];
             ["work_id"; "summary"; "why"; "waiting_work_id"; "resume_action"];
             ["request_id"; "summary"; "why"; "waiting_id"; "resume_action"]]);
   ("switch", [["work_id"; "next_action"]; ["item_id"; "next_action"]]);
   ("advance", [["work_id"; "next_action"]; ["item_id"; "next_action"]]);
   ("restate", [["work_id"; "summary"; "why"; "next_action"]; ["item_id"; "summary"; "why"; "next_action"]]);
   ("block", [["work_id"; "resume_action"]; ["item_id"; "resume_action"];
              ["work_id"; "resume_action"; "successor_work_id"; "next_action"];
              ["item_id"; "resume_action"; "successor_id"; "next_action"];
              ["work_id"; "resume_action"; "focus_state"]; ["item_id"; "resume_action"; "focus_state"]]);
   ("complete", closing_variants);
   ("archive", closing_variants);
   ("restart", [[]]);
   (COMPACTION_KIND, [[]]);
   (ADOPTION_KIND, [["source_event_id"; "work_id"; "alias"]]);
   (IDLE_KIND, [[]])].

(** ** Data *)

Abbreviation facts := (list (string * string)).

Record WorkEvent := {
  event_id : string;
  at_ : string;
  kind : string;
  fields : facts;
  line_number : Z
}.

Record LegacyItem := {
  leg_item_id : option string;
  leg_summary : string;
  leg_resume_action : option string;
  checked : bool;
  leg_active : bool;
  source_text : string;
  leg_line : Z
}.

Variant record := Event (e : WorkEvent) | Legacy (i : LegacyItem).

Variant item_state := Active | Waiting | Queued | Blocked.

#[export] Instance item_state_eq_dec : EqDecision item_state.
Proof. solve_decision. Defined.

Record WorkItem := {
  work_id : string;
  alias : string;
  summary : string;
  why : option string;
  resume_action : option string;
  state : item_state;
  disposition : string;
  last_event_id : string;
  last_index : Z
}.

#[export] Instance work_event_eq_dec : EqDecision WorkEvent.
Proof. solve_decision. Defined.
#[export] Instance work_item_eq_dec : EqDecision WorkItem.
Proof. solve_decision. Defined.

Record WorkboardDocument := {
  records : list record;
  document_issues : list string;
  has_structured_events : bool
}.

(** [d.get(k)] and [d[k]] of an event's facts; the schema has the key there. *)
Definition fact (k : string) (e : WorkEvent) : option string := dict_get k (fields e).
Definition field (k : string) (e : WorkEvent) : string := default "" (fact k e).

(** ** Parser *)

(** [s.partition(sep)]: the parts, and whether the separator was found. *)
Fixpoint partition (sep : ascii) (s : string) : string * bool * string :=
  match s with
  | "" => ("", false, "")
  | String c s =>
      if decide (c = sep) then ("", true, s)
      else let '(h, found, t) := partition sep s in (String c h, found, t)
  end.

Definition line_issue (n : Z) (msg : string) : string := "line " +:+ str_of_int n +:+ ": " +:+ msg.

(** The facts of the tokens, and what is wrong with them. *)
Fixpoint event_facts (n : Z) (tokens : list string) (values : facts) : facts * list string :=
  match tokens with
  | [] => (values, [])
  | token :: tokens =>
      let '(key, separator, value) := partition "=" token in
      if negb separator || bool_decide (key = "") then
        let '(values, issues) := event_facts n tokens values in
        (values, line_issue n ("event facts must be key=value tokens (" +:+ repr_str token +:+ ")") :: issues)
      else if dict_has key values then
        let '(values, issues) := event_facts n tokens values in
        (values, line_issue n ("duplicate event field " +:+ repr_str key) :: issues)
      else event_facts n tokens (dict_set key value values)
  end.

Definition blank (s : string) : bool := bool_decide (py_strip s = "").
Definition COMMON : list string := ["event_id"; "at"; "kind"].
Definition event_prefix : string := "- " +:+ EVENT_TAG.

(** The event of the tokens of a line. *)
Definition event_of_tokens (n : Z) (tokens : list string) : option WorkEvent * list string :=
  let '(values, issues) := event_facts n tokens [] in
  let common name := default "" (dict_get name values) in
  let missing := List.filter (λ name, blank (common name)) COMMON in
  if negb (bool_decide (missing = [])) then
    (None, issues ++ [line_issue n ("event is missing common fact(s): " +:+ py_join ", " missing)])
  else
    (Some {| event_id := common "event_id"; at_ := common "at"; kind := py_lower (common "kind");
             fields := List.filter (λ kv, negb (bool_decide (kv.1 ∈ COMMON))) values; line_number := n |}, issues).

Definition _parse_event_line (line : string) (n : Z) : option WorkEvent * list string :=
  let payload := py_strip (str_drop (String.length event_prefix) line) in
  match shlex_split payload with
  | Err e => (None, [line_issue n ("malformed " +:+ EVENT_TAG +:+ " quoting (" +:+ exn_msg e +:+ ")")])
  | Ok tokens => event_of_tokens n tokens
  end.

(** [\s*next:\s*] without regard to case: what follows a match at the start. *)
Definition after_next (s : string) : option string :=
  let s := lstrip_by py_isspace s in
  if bool_decide (py_lower (str_take 5 s) = "next:") then Some (lstrip_by py_isspace (str_drop 5 s)) else None.

(** The text before and after the last match of [[;.]\s*next:\s*].  Matches do
    not overlap: a match has its only [;] or [.] at its start. *)
Fixpoint last_next (s : string) : option (string * string) :=
  match s with
  | "" => None
  | String c s' =>
      match last_next s' with
      | Some (h, t) => Some (String c h, t)
      | None => if char_in c ";." then (λ t, ("", t)) <$> after_next s' else None
      end
  end.

Definition _legacy_split_next_action (text : string) : string * option string :=
  match last_next text with
  | None => (py_strip text, None)
  | Some (h, t) => (py_strip h, let t := py_strip t in if bool_decide (t = "") then None else Some t)
  end.

(** [^- \[(?P<state>[ xX])\]\s+(?P<body>\S.*?)\s*$]: the state and the body. *)
Definition legacy_match (line : string) : option (ascii * string) :=
  rest ← drop_prefix "- [" line;
  match rest with
  | String c (String d rest) =>
      let body := py_strip rest in
      if char_in c " xX" && bool_decide (d = "]"%char) && negb (bool_decide (body = "")) &&
         negb (bool_decide (lstrip_by py_isspace rest = rest))
      then Some (c, body) else None
  | _ => None
  end.

Definition legacy_item (n : Z) (mark : ascii) (raw : string) : LegacyItem :=
  let '(head, separator, rest) := partition "|" raw in
  let head := py_strip head in
  let named := separator && fullmatch _ITEM_ID_RE head && (String.length head <=? 64)%nat in
  let remainder := if named then default rest (drop_prefix " " rest) else raw in
  let '(summary, resume) := _legacy_split_next_action remainder in
  {| leg_item_id := if named then Some head else None; leg_summary := summary; leg_resume_action := resume;
     checked := bool_decide (py_lower_char mark = "x"%char); leg_active := false; source_text := remainder; leg_line := n |}.

(** One line of the ledger: its record, its issues, and whether it has the
    prefix of an event. *)
Definition parse_line (n : Z) (line : string) : list record * list string * bool :=
  if startswith line event_prefix then
    let '(event, issues) := _parse_event_line line n in
    (match event with Some e => [Event e] | None => [] end, issues, true)
  else if str_in "workboard-event/" line then
    ([], [line_issue n "unsupported or non-top-level workboard event"], false)
  else match legacy_match line with
       | Some (mark, raw) => ([Legacy (legacy_item n mark raw)], [], false)
       | None => ([], [], false)
       end.

Definition empty_document : WorkboardDocument :=
  {| records := []; document_issues := []; has_structured_events := false |}.

Definition add_line (doc : WorkboardDocument) (parsed : list record * list string * bool) : WorkboardDocument :=
  let '(rs, issues, structured) := parsed in
  {| records := records doc ++ rs; document_issues := document_issues doc ++ issues;
     has_structured_events := has_structured_events doc || structured |}.

Fixpoint parse_lines (n : Z) (lines : list string) (doc : WorkboardDocument) : WorkboardDocument :=
  match lines with
  | [] => doc
  | line :: lines => parse_lines (n + 1) lines (add_line doc (parse_line n line))
  end.

Definition _parse_workboard_text (text : string) : WorkboardDocument := parse_lines 1 (splitlines text) empty_document.

Definition _legacy_work_id (alias : string) : string :=
  "legacy-" +:+ str_take 32 (sha256_hex (encode_utf8 "workboard-legacy-work-id/v1" ++ 0 :: encode_utf8 alias)).

Definition _legacy_projection_alias (r : LegacyItem) : string :=
  match leg_item_id r with
  | Some id => id
  | None => "legacy-anon-" +:+ str_take 16 (sha256_hex (encode_utf8 (source_text r)))
  end.

(** ** Schema *)

Definition minus (a b : list string) : list string := List.filter (λ x, negb (bool_decide (x ∈ b))) a.

(** [a < b] for lists of strings. *)
Fixpoint strs_ltb (a b : list string) : bool :=
  match a, b with
  | _, [] => false
  | [], _ :: _ => true
  | x :: a, y :: b => if decide (x = y) then strs_ltb a b else str_leb x y
  end.

Definition variant_ltb (present a b : list string) : bool :=
  let missing v := length (minus v present) in
  let distance v := (missing v + length (minus present v))%nat in
  if decide (distance a = distance b) then
    if decide (missing a = missing b) then strs_ltb (sort_strings a) (sort_strings b) else (missing a <? missing b)%nat
  else (distance a <? distance b)%nat.

(** [min(variants, key=...)]: the first of the smallest. *)
Definition best_variant (present : list string) (variants : list (list string)) : list string :=
  match variants with
  | [] => []
  | v :: vs => fold_left (λ best v, if variant_ltb present v best then v else best) vs v
  end.

Definition truthy_str (v : option string) : option string := match v with Some "" => None | v => v end.

Definition valid_alias (value : string) : bool := (String.length value <=? MAX_ID_CHARS)%nat && fullmatch _ITEM_ID_RE value.
Definition ALIAS_KEYS : list string := ["item_id"; "request_id"; "target_id"; "successor_id"; "waiting_id"; "alias"].
Definition WORK_ID_KEYS : list string := ["work_id"; "target_work_id"; "successor_work_id"; "waiting_work_id"].

(** What is wrong with an event, before its line is named. *)
Definition schema_complaints (e : WorkEvent) : list string :=
  match dict_get (kind e) _REQUIRED_FIELD_VARIANTS with
  | None => ["unknown event kind " +:+ repr_str (kind e)]
  | Some variants =>
      let present := (fields e).*1 in
      let required := best_variant present variants in
      let missing := sort_strings (minus required present) in
      let extra := sort_strings (minus present required) in
      let blanks := sort_strings (List.filter (λ name, bool_decide (name ∈ present) && blank (field name e)) required) in
      let complaint (text : string) (names : list string) : list string :=
        if bool_decide (names = []) then [] else [kind e +:+ text +:+ py_join ", " names] in
      let bad_id (ok : string → bool) (text key : string) : list string :=
        match truthy_str (fact key e) with
        | Some value => if ok value then [] else [key +:+ text +:+ repr_str value]
        | None => []
        end in
      complaint " missing fact(s): " missing ++ complaint " has unexpected fact(s): " extra ++
      complaint " has blank fact(s): " blanks ++
      concat (map (bad_id valid_alias " is not a valid work alias: ") ALIAS_KEYS) ++
      concat (map (bad_id (fullmatch _WORK_ID_RE) " is not an opaque work id: ") WORK_ID_KEYS) ++
      (if match fact "focus_state" e with Some s => negb (bool_decide (s = "idle")) | None => false end
       then ["focus_state must be exactly 'idle'"] else []) ++
      (match fromisoformat (replace_Z (at_ e)) with
       | Some (_, Some _) => []
       | _ => ["at must be an ISO-8601 timestamp with timezone"]
       end)
  end.

Definition _event_schema_issues (e : WorkEvent) : list string := map (line_issue (line_number e)) (schema_complaints e).

(** ** The board *)

(** An opening whose identity was taken, kept for a later [adopt]. *)
Record Rejected := { source_event : WorkEvent; rejected_alias : string; rejected_issue : string }.

Record Board := {
  items : list (string * WorkItem);
  terminal_work_ids : gset string;
  terminal_ids : gset string;
  known_work_ids : gset string;
  disposed_requests : gset string;
  aliases_by_work_id : facts;
  rejected_openings : list (string * Rejected);
  seen_events : gset string;
  transition_issues : list string;
  idle : bool;
  waiting_work_id : option string
}.

Definition empty_board : Board :=
  {| items := []; terminal_work_ids := ∅; terminal_ids := ∅; known_work_ids := ∅; disposed_requests := ∅;
     aliases_by_work_id := []; rejected_openings := []; seen_events := ∅; transition_issues := []; idle := false;
     waiting_work_id := None |}.

Definition set_items (d : list (string * WorkItem)) (b : Board) : Board :=
  {| items := d; terminal_work_ids := terminal_work_ids b; terminal_ids := terminal_ids b;
     known_work_ids := known_work_ids b; disposed_requests := disposed_requests b;
     aliases_by_work_id := aliases_by_work_id b; rejected_openings := rejected_openings b; seen_events := seen_events b;
     transition_issues := transition_issues b; idle := idle b; waiting_work_id := waiting_work_id b |}.
Definition set_focus (is_idle : bool) (w : option string) (b : Board) : Board :=
  {| items := items b; terminal_work_ids := terminal_work_ids b; terminal_ids := terminal_ids b;
     known_work_ids := known_work_ids b; disposed_requests := disposed_requests b;
     aliases_by_work_id := aliases_by_work_id b; rejected_openings := rejected_openings b; seen_events := seen_events b;
     transition_issues := transition_issues b; idle := is_idle; waiting_work_id := w |}.
(** [known_work_ids.add(work_id); aliases_by_work_id[work_id] = alias] *)
Definition add_known (id alias : string) (b : Board) : Board :=
  {| items := items b; terminal_work_ids := terminal_work_ids b; terminal_ids := terminal_ids b;
     known_work_ids := {[id]} ∪ known_work_ids b; disposed_requests := disposed_requests b;
     aliases_by_work_id := dict_set id alias (aliases_by_work_id b); rejected_openings := rejected_openings b;
     seen_events := seen_events b; transition_issues := transition_issues b; idle := idle b;
     waiting_work_id := waiting_work_id b |}.
Definition add_disposed (id : string) (b : Board) : Board :=
  {| items := items b; terminal_work_ids := terminal_work_ids b; terminal_ids := terminal_ids b;
     known_work_ids := known_work_ids b; disposed_requests := {[id]} ∪ disposed_requests b;
     aliases_by_work_id := aliases_by_work_id b; rejected_openings := rejected_openings b; seen_events := seen_events b;
     transition_issues := transition_issues b; idle := idle b; waiting_work_id := waiting_work_id b |}.
Definition add_terminal (id alias : string) (b : Board) : Board :=
  {| items := items b; terminal_work_ids := {[id]} ∪ terminal_work_ids b; terminal_ids := {[alias]} ∪ terminal_ids b;
     known_work_ids := known_work_ids b; disposed_requests := disposed_requests b;
     aliases_by_work_id := aliases_by_work_id b; rejected_openings := rejected_openings b; seen_events := seen_events b;
     transition_issues := transition_issues b; idle := idle b; waiting_work_id := waiting_work_id b |}.
Definition set_rejected (r : list (string * Rejected)) (b : Board) : Board :=
  {| items := items b; terminal_work_ids := terminal_work_ids b; terminal_ids := terminal_ids b;
     known_work_ids := known_work_ids b; disposed_requests := disposed_requests b;
     aliases_by_work_id := aliases_by_work_id b; rejected_openings := r; seen_events := seen_events b;
     transition_issues := transition_issues b; idle := idle b; waiting_work_id := waiting_work_id b |}.
Definition add_seen (id : string) (b : Board) : Board :=
  {| items := items b; terminal_work_ids := terminal_work_ids b; terminal_ids := terminal_ids b;
     known_work_ids := known_work_ids b; disposed_requests := disposed_requests b;
     aliases_by_work_id := aliases_by_work_id b; rejected_openings := rejected_openings b;
     seen_events := {[id]} ∪ seen_events b; transition_issues := transition_issues b; idle := idle b;
     waiting_work_id := waiting_work_id b |}.
Definition set_issues (l : list string) (b : Board) : Board :=
  {| items := items b; terminal_work_ids := terminal_work_ids b; terminal_ids := terminal_ids b;
     known_work_ids := known_work_ids b; disposed_requests := disposed_requests b;
     aliases_by_work_id := aliases_by_work_id b; rejected_openings := rejected_openings b; seen_events := seen_events b;
     transition_issues := l; idle := idle b; waiting_work_id := waiting_work_id b |}.

Definition transition_issue (n : Z) (msg : string) (b : Board) : Board :=
  set_issues (transition_issues b ++ [line_issue n msg]) b.

Definition set_state (s : item_state) (i : WorkItem) : WorkItem :=
  {| work_id := work_id i; alias := alias i; summary := summary i; why := why i; resume_action := resume_action i;
     state := s; disposition := disposition i; last_event_id := last_event_id i; last_index := last_index i |}.
(** [replace(item, resume_action=..., last_event_id=..., last_index=...)] *)
Definition set_action (action : option string) (e : WorkEvent) (index : Z) (i : WorkItem) : WorkItem :=
  {| work_id := work_id i; alias := alias i; summary := summary i; why := why i; resume_action := action;
     state := state i; disposition := disposition i; last_event_id := event_id e; last_index := index |}.

Definition in_focus (i : WorkItem) : bool := bool_decide (state i ∈ [Active; Waiting]).

(** [_legacy_work_id] of an alias, or the identity given. *)
Definition opening_identity (e : WorkEvent) : string * string * string :=
  match fact "work_id" e with
  | Some id => (id, field "alias" e, id)
  | None => let a := field "item_id" e in (_legacy_work_id a, a, a)
  end.
Definition known_alias (b : Board) (id : string) : string := default id (dict_get id (aliases_by_work_id b)).
Definition target_identity (b : Board) (e : WorkEvent) : string * string :=
  match fact "work_id" e with
  | Some id => (id, known_alias b id)
  | None => let a := field "item_id" e in (_legacy_work_id a, a)
  end.
Definition optional_identity (b : Board) (e : WorkEvent) (work_key alias_key : string) : option (string * string) :=
  match fact work_key e, fact alias_key e with
  | Some id, _ => Some (id, known_alias b id)
  | None, Some a => Some (_legacy_work_id a, a)
  | None, None => None
  end.

(** Every other item that holds the focus goes back to the queue. *)
Definition release_others (target : string) (d : list (string * WorkItem)) : list (string * WorkItem) :=
  map (λ kv, (kv.1, if negb (bool_decide (kv.1 = target)) && in_focus kv.2 then set_state Queued kv.2 else kv.2)) d.

(** [activate], [declare_idle], [declare_waiting] and [apply_atomic_focus]; what
    they return only skips to the next record. *)
Definition activate (e : WorkEvent) (target display next_action : string) (index : Z) (b : Board) : Board :=
  match dict_get target (items b) with
  | None => transition_issue (line_number e) ("successor " +:+ display +:+ " is not open") b
  | Some item =>
      set_focus false None
        (set_items (dict_set target (set_state Active (set_action (Some next_action) e index item))
                      (release_others target (items b))) b)
  end.

Definition declare_idle (e : WorkEvent) (index : Z) (b : Board) : Board :=
  set_focus true None
    (set_items (map (λ kv, (kv.1, if in_focus kv.2 then set_state Queued (set_action (resume_action kv.2) e index kv.2)
                                  else kv.2)) (items b)) b).

Definition declare_waiting (e : WorkEvent) (target display resume : string) (index : Z) (b : Board) : Board :=
  match dict_get target (items b) with
  | None => transition_issue (line_number e) ("waiting target " +:+ display +:+ " is not open") b
  | Some item =>
      let blocked := bool_decide (state item = Blocked) in
      set_focus false (Some target)
        (set_items (dict_set target
           (set_state (if blocked then Blocked else Waiting)
              (set_action (if blocked then resume_action item else Some resume) e index item))
           (release_others target (items b))) b)
  end.

Definition apply_atomic_focus (e : WorkEvent) (index : Z) (b : Board) : Board :=
  match optional_identity b e "successor_work_id" "successor_id" with
  | Some (target, display) => activate e target display (field "next_action" e) index b
  | None =>
      if bool_decide (fact "focus_state" e = Some "idle") then declare_idle e index b
      else match optional_identity b e "waiting_work_id" "waiting_id" with
           | Some (target, display) => declare_waiting e target display (field "resume_action" e) index b
           | None => b
           end
  end.

(** A start, or the adoption of one, takes the focus from the waiting item. *)
Definition release_waiting (b : Board) : Board :=
  let released :=
    match waiting_work_id b with
    | Some w =>
        match dict_get w (items b) with
        | Some item => if bool_decide (state item = Waiting) then dict_set w (set_state Queued item) (items b) else items b
        | None => items b
        end
    | None => items b
    end in
  set_focus false None (set_items released b).

Definition opened (id alias : string) (source : WorkEvent) (action_key : string) (s : item_state) (how : string)
    (e : WorkEvent) (index : Z) : WorkItem :=
  {| work_id := id; alias := alias; summary := field "summary" source; why := fact "why" source;
     resume_action := fact action_key source; state := s; disposition := how; last_event_id := event_id e;
     last_index := index |}.

Definition reject_opening (e : WorkEvent) (alias msg : string) (b : Board) : Board :=
  set_rejected (dict_set (event_id e)
      {| source_event := e; rejected_alias := alias; rejected_issue := line_issue (line_number e) msg |}
      (rejected_openings b))
    (transition_issue (line_number e) msg b).

Definition add_item (id : string) (i : WorkItem) (b : Board) : Board := set_items (dict_set id i (items b)) b.

Definition on_start (e : WorkEvent) (index : Z) (b : Board) : Board :=
  let '(id, alias, display) := opening_identity e in
  if bool_decide (id ∈ known_work_ids b) then reject_opening e alias ("start reuses work id " +:+ display) b
  else release_waiting (add_item id (opened id alias e "next_action" Active "start" e index) (add_known id alias b)).

Definition on_queue (e : WorkEvent) (index : Z) (b : Board) : Board :=
  let '(id, alias, display) := opening_identity e in
  if bool_decide (id ∈ known_work_ids b ∪ disposed_requests b)
  then reject_opening e alias ("queue reuses work id " +:+ display) b
  else add_item id (opened id alias e "resume_action" Queued "queue" e index) (add_disposed id (add_known id alias b)).

Definition on_fold (e : WorkEvent) (index : Z) (b : Board) : Board :=
  let request := _legacy_work_id (field "request_id" e) in
  let '(target, display) :=
    match fact "target_work_id" e with
    | Some id => (id, known_alias b id)
    | None => (_legacy_work_id (field "target_id" e), field "target_id" e)
    end in
  if dict_has request (items b) || bool_decide (request ∈ terminal_work_ids b ∪ disposed_requests b)
  then transition_issue (line_number e) ("fold reuses request id " +:+ field "request_id" e) b
  else match dict_get target (items b) with
       | Some item =>
           if bool_decide (state item = Active)
           then add_item target (set_action (fact "next_action" e) e index item) (add_disposed request b)
           else transition_issue (line_number e) ("fold target " +:+ display +:+ " is not the active item") b
       | None => transition_issue (line_number e) ("fold target " +:+ display +:+ " is not the active item") b
       end.

(** An open item leaves the board; the focus it held is dropped. *)
Definition close_item (id : string) (item : WorkItem) (b : Board) : Board :=
  let b' := add_terminal id (alias item) (set_items (dict_del id (items b)) b) in
  if bool_decide (state item = Active) || bool_decide (waiting_work_id b = Some id) then set_focus false None b' else b'.

Definition on_drop (e : WorkEvent) (index : Z) (b : Board) : Board :=
  let '(id, display) :=
    match fact "work_id" e with
    | Some id => (id, known_alias b id)
    | None => (_legacy_work_id (field "request_id" e), field "request_id" e)
    end in
  match dict_get id (items b) with
  | Some removed => apply_atomic_focus e index (close_item id removed b)
  | None =>
      if bool_decide (id ∈ terminal_work_ids b ∪ disposed_requests b)
      then transition_issue (line_number e) ("drop reuses work id " +:+ display) b
      else apply_atomic_focus e index (add_terminal id display (add_disposed id (add_known id display b)))
  end.

Definition on_switch (e : WorkEvent) (index : Z) (b : Board) : Board :=
  let '(target, display) := target_identity b e in activate e target display (field "next_action" e) index b.

Definition on_advance (e : WorkEvent) (index : Z) (b : Board) : Board :=
  let '(target, display) := target_identity b e in
  match dict_get target (items b) with
  | Some item =>
      if bool_decide (state item = Active) then add_item target (set_action (fact "next_action" e) e index item) b
      else transition_issue (line_number e) ("advance target " +:+ display +:+ " is not active") b
  | None => transition_issue (line_number e) ("advance target " +:+ display +:+ " is not active") b
  end.

Definition restated (e : WorkEvent) (index : Z) (i : WorkItem) : WorkItem :=
  {| work_id := work_id i; alias := alias i; summary := field "summary" e; why := fact "why" e;
     resume_action := fact "next_action" e; state := state i; disposition := disposition i;
     last_event_id := event_id e; last_index := index |}.

Definition on_restate (e : WorkEvent) (index : Z) (b : Board) : Board :=
  let '(target, display) := target_identity b e in
  match dict_get target (items b) with
  | Some item => add_item target (restated e index item) b
  | None => transition_issue (line_number e) ("restate target " +:+ display +:+ " is not open") b
  end.

Definition on_block (e : WorkEvent) (index : Z) (b : Board) : Board :=
  let '(target, display) := target_identity b e in
  match dict_get target (items b) with
  | Some item =>
      let b' := add_item target (set_state Blocked (set_action (fact "resume_action" e) e index item)) b in
      if existsb (λ key, dict_has key (fields e)) ["successor_work_id"; "successor_id"; "focus_state"]
      then apply_atomic_focus e index b'
      else if bool_decide (state item = Active) then set_focus false (Some target) b'
      else b'
  | None => transition_issue (line_number e) ("block target " +:+ display +:+ " is not open") b
  end.

Definition on_close (e : WorkEvent) (index : Z) (b : Board) : Board :=
  let '(target, display) := target_identity b e in
  match dict_get target (items b) with
  | Some item => apply_atomic_focus e index (close_item target item b)
  | None => transition_issue (line_number e) (kind e +:+ " target " +:+ display +:+ " is not open") b
  end.

Fixpoint remove_first (x : string) (l : list string) : list string :=
  match l with [] => [] | y :: l => if decide (x = y) then l else y :: remove_first x l end.

Definition on_adopt (e : WorkEvent) (index : Z) (b : Board) : Board :=
  let source_id := field "source_event_id" e in
  let issue msg := transition_issue (line_number e) msg b in
  match dict_get source_id (rejected_openings b) with
  | None => issue ("adopt source " +:+ source_id +:+ " is not an unresolved opening collision")
  | Some r =>
      let id := field "work_id" e in
      let a := field "alias" e in
      if negb (bool_decide (a = rejected_alias r)) then
        issue ("adopt alias " +:+ a +:+ " does not match source alias " +:+ rejected_alias r)
      else if bool_decide (id ∈ known_work_ids b ∪ disposed_requests b) then issue ("adopt reuses work id " +:+ id)
      else
        let src := source_event r in
        let started := bool_decide (kind src = "start") in
        let b1 := add_known id a b in
        let b1 := if bool_decide (kind src = "queue") then add_disposed id b1 else b1 in
        let b1 := add_item id (opened id a src (if started then "next_action" else "resume_action")
                                (if started then Active else Queued) ADOPTION_KIND e index) b1 in
        let b1 := if started then release_waiting b1 else b1 in
        set_rejected (dict_del source_id (rejected_openings b))
          (set_issues (remove_first (rejected_issue r) (transition_issues b1)) b1)
  end.

(** The step of an event that fits the schema and is new. *)
Definition apply_kind (e : WorkEvent) (index : Z) (b : Board) : Board :=
  let kind_is k := bool_decide (kind e = k) in
  if kind_is "start" then on_start e index b
  else if kind_is "queue" then on_queue e index b
  else if kind_is "fold" then on_fold e index b
  else if kind_is "drop" then on_drop e index b
  else if kind_is "switch" then on_switch e index b
  else if kind_is "advance" then on_advance e index b
  else if kind_is "restate" then on_restate e index b
  else if kind_is "block" then on_block e index b
  else if kind_is "complete" || kind_is "archive" then on_close e index b
  else if kind_is ADOPTION_KIND then on_adopt e index b
  else if kind_is IDLE_KIND then declare_idle e index b
  else b.

Definition apply_event (e : WorkEvent) (index : Z) (b : Board) : Board :=
  let schema_issues := _event_schema_issues e in
  if negb (bool_decide (schema_issues = [])) then set_issues (transition_issues b ++ schema_issues) b
  else if bool_decide (event_id e ∈ seen_events b) then
    transition_issue (line_number e) ("duplicate event_id " +:+ event_id e) b
  else apply_kind e index (add_seen (event_id e) b).

Definition apply_legacy (r : LegacyItem) (index : Z) (b : Board) : Board :=
  let a := _legacy_projection_alias r in
  let id := _legacy_work_id a in
  if dict_has id (items b) || bool_decide (id ∈ terminal_work_ids b) then
    transition_issue (leg_line r) ("duplicate open item " +:+ a) b
  else
    let b := add_known id a b in
    if checked r then add_terminal id a b
    else add_item id
      {| work_id := id; alias := a; summary := leg_summary r; why := None; resume_action := leg_resume_action r;
         state := if leg_active r then Active else Queued; disposition := "legacy";
         last_event_id := "legacy:" +:+ str_of_int (leg_line r); last_index := index |} b.

Definition apply_record (r : record) (index : Z) (b : Board) : Board :=
  match r with Event e => apply_event e index b | Legacy i => apply_legacy i index b end.

Fixpoint project_from (index : Z) (rs : list record) (b : Board) : Board :=
  match rs with [] => b | r :: rs => project_from (index + 1) rs (apply_record r index b) end.

Definition project_workboard (doc : WorkboardDocument) : Board := project_from 0 (records doc) empty_board.

(** The derived views of a projection. *)
Definition open_items (b : Board) : list WorkItem := (items b).*2.
Definition active_items (b : Board) : list WorkItem := List.filter (λ i, bool_decide (state i = Active)) (open_items b).
Definition sole_active (b : Board) : option WorkItem := match active_items b with [i] => Some i | _ => None end.
Definition active_work_id (b : Board) : option string := work_id <$> sole_active b.
Definition active_item_id (b : Board) : option string := alias <$> sole_active b.
Definition next_action (b : Board) : option string := i ← sole_active b; resume_action i.
Definition prominent_leb (i j : WorkItem) : bool :=
  let active i := bool_decide (state i = Active) in
  if bool_decide (active i = active j) then last_index j <=? last_index i else active i.
Definition prominent_items (b : Board) : list WorkItem := sort_by prominent_leb (open_items b).

(** ** Validation *)

Definition nonempty (s : option string) : bool := match truthy_str s with Some _ => true | None => false end.

(** [dict.fromkeys(l)] *)
Fixpoint dedupe (seen : gset string) (l : list string) : list string :=
  match l with
  | [] => []
  | x :: l => if decide (x ∈ seen) then dedupe seen l else x :: dedupe ({[x]} ∪ seen) l
  end.

Definition when {A} (b : bool) (a : A) : list A := if b then [a] else [].

(** What the event spine must satisfy. *)
Definition focus_issues (b : Board) : list string :=
  let n := length (active_items b) in
  let pause := idle b || bool_decide (is_Some (waiting_work_id b)) in
  (if (1 <? n)%nat || (n =? 1)%nat && pause then
     ["structured workboard must project exactly one active item; found " +:+ str_of_int (Z.of_nat n)]
   else when ((n =? 0)%nat && negb pause) "structured workboard must project exactly one active item; found 0") ++
  (if (0 <? n)%nat && negb (nonempty (next_action b)) then
     ["structured workboard must project exactly one literal next_action"]
   else when match next_action b with Some a => blank a | None => false end "projected next_action must not be blank") ++
  when (idle b && bool_decide (is_Some (waiting_work_id b))) "workboard cannot declare both idle and waiting" ++
  match waiting_work_id b with
  | Some w =>
      let waiting := List.filter (λ i, bool_decide (work_id i = w) && bool_decide (state i ∈ [Waiting; Blocked])) (open_items b) in
      when (negb (length waiting =? 1)%nat) "declared waiting focus must identify exactly one open work_id"
  | None => []
  end ++
  concat (map (λ i,
    when (bool_decide (work_id i ∈ terminal_work_ids b)) ("terminal item " +:+ alias i +:+ " also appears open") ++
    when (negb (nonempty (resume_action i))) ("open item " +:+ alias i +:+ " has no literal resume action"))
    (open_items b)).

Definition validate_workboard (doc : WorkboardDocument) (b : Board) : list string :=
  dedupe ∅
    (document_issues doc ++ transition_issues b ++
     when (negb (bool_decide (TERMINAL_KINDS = ["complete"; "archive"; "drop"])))
       "terminal set drift: expected exactly complete/archive/drop; compaction and restart are nonterminal" ++
     when (bool_decide (COMPACTION_KIND ∈ TERMINAL_KINDS)) "compaction must never be terminal" ++
     (if has_structured_events doc then focus_issues b else [])).

(** [load_workboard(path, strict=True)] of a ledger's text. *)
Definition load_workboard (text : string) (strict : bool) : res (Board * list string) :=
  let doc := _parse_workboard_text text in
  let b := project_workboard doc in
  let issues := validate_workboard doc b in
  raise_if (strict && negb (bool_decide (issues = []))) WorkboardConsistencyError (py_join "; " issues);;
  Ok (b, issues).

(** ** Appending *)

(** [event_id or f"EV-{token}"] *)
Definition str_or (s : option string) (other : string) : string := default other (truthy_str s).

Definition consistency (b : bool) (msg : string) : res unit := raise_if b WorkboardConsistencyError msg.

Definition event_values (kind id at_ : string) (given : facts) : facts :=
  dict_update [("event_id", id); ("at", at_); ("kind", kind)] given.
Definition event_text (values : facts) : string := event_prefix +:+ " " +:+ py_join " " (map assignment values).

(** The line, without its newline. *)
Definition format_event (kind id at_ : string) (given : facts) : res string :=
  let values := event_values (py_lower kind) id at_ given in
  consistency (existsb (λ kv, char_in LF kv.2 || char_in CR kv.2) values) "event facts must be single-line";;
  let line := event_text values in
  match _parse_event_line line 1 with
  | (None, issues) => Err (Exn WorkboardConsistencyError (py_join "; " issues))
  | (Some parsed, issues) =>
      let issues := issues ++ _event_schema_issues parsed in
      consistency (negb (bool_decide (issues = []))) (py_join "; " issues);; Ok line
  end.

Definition events_of (doc : WorkboardDocument) : list WorkEvent :=
  omap (λ r, match r with Event e => Some e | Legacy _ => None end) (records doc).

Definition _declared_work_ids (doc : WorkboardDocument) (b : Board) : gset string :=
  known_work_ids b ∪ list_to_set (omap (λ e, truthy_str (fact "work_id" e)) (events_of doc)).

(** [draws] are the tokens the random source yields; a run in which no one is
    fresh does not end and is the [RuntimeError]. *)
Definition generate_work_id (draws : list string) (existing : gset string) : res string :=
  match List.find (λ id, bool_decide (id ∉ existing)) (map (λ hex, "W-" +:+ hex) draws) with
  | Some id => Ok id
  | None => Err (Exn RuntimeError "still drawing")
  end.

Definition _open_work_id_for_alias (b : Board) (a : string) : res (option string) :=
  match List.filter (λ i, bool_decide (alias i = a)) (open_items b) with
  | [] => Ok None
  | [i] => Ok (Some (work_id i))
  | _ => Err (Exn WorkboardConsistencyError "work alias is ambiguous; pass work_id explicitly")
  end.

(** An alias that names one open item with an opaque id becomes that id. *)
Definition resolve_alias (b : Board) (alias_key work_key : string) (given : facts) : res facts :=
  match dict_get alias_key given with
  | None => Ok given
  | Some a =>
      id ← _open_work_id_for_alias b a;
      Ok match id with
         | Some id => if fullmatch _WORK_ID_RE id then dict_set work_key id (dict_del alias_key given) else given
         | None => given
         end
  end.

Definition resolve_related (b : Board) (alias_key work_key : string) (given : facts) : res facts :=
  consistency (dict_has alias_key given && dict_has work_key given) "pass either an alias or a work id, not both";;
  resolve_alias b alias_key work_key given.

Definition resolve_focus (b : Board) (given : facts) : res facts :=
  given ← resolve_related b "successor_id" "successor_work_id" given;
  resolve_related b "waiting_id" "waiting_work_id" given.

Definition with_work_id (draws : list string) (declared : gset string) (given : facts) : res facts :=
  if dict_has "work_id" given then Ok given
  else id ← generate_work_id draws declared; Ok (dict_set "work_id" id given).

Definition TARGETING : list string := ["switch"; "advance"; "restate"; "block"; "complete"; "archive"].

Definition _normalize_append_facts (draws : list string) (kind : string) (given : facts) (doc : WorkboardDocument)
    (b : Board) : res facts :=
  let declared := _declared_work_ids doc b in
  if bool_decide (kind ∈ ["start"; "queue"]) then
    let legacy_alias := dict_get "item_id" given in
    let given := dict_del "item_id" given in
    consistency match dict_get "alias" given, legacy_alias with Some a, Some l => negb (bool_decide (a = l)) | _, _ => false end
      "item_id and alias disagree";;
    let given := match dict_get "alias" given, legacy_alias with None, Some l => dict_set "alias" l given | _, _ => given end in
    consistency match dict_get "alias" given with
                | Some a => existsb (λ i, bool_decide (alias i = a)) (open_items b)
                | None => false
                end "the alias already belongs to an open item";;
    with_work_id draws declared given
  else if bool_decide (kind = ADOPTION_KIND) then
    match List.find (λ e, bool_decide (dict_get "source_event_id" given = Some (event_id e)) &&
                          bool_decide (Workboard.kind e ∈ ["start"; "queue"])) (events_of doc) with
    | None => Err (Exn WorkboardConsistencyError "adopt source is not a prior opening event")
    | Some source =>
        let source_alias := match truthy_str (fact "alias" source) with Some a => Some a | None => fact "item_id" source end in
        consistency (dict_has "alias" given && negb (bool_decide (dict_get "alias" given = source_alias)))
          "adopt alias does not match source alias";;
        with_work_id draws declared
          (match source_alias with Some a => dict_set "alias" a given | None => dict_del "alias" given end)
    end
  else if bool_decide (kind ∈ TARGETING) then
    consistency (dict_has "item_id" given && dict_has "work_id" given) "pass either item_id as an alias or work_id, not both";;
    given ← resolve_alias b "item_id" "work_id" given;
    resolve_focus b given
  else if bool_decide (kind = "fold") then resolve_alias b "target_id" "target_work_id" given
  else if bool_decide (kind = "drop") then
    given ← resolve_alias b "request_id" "work_id" given;
    resolve_focus b given
  else Ok given.

(** [fields.get(key) or _legacy_work_id(fields[alias_key])] *)
Definition id_or_legacy (key alias_key : string) (e : WorkEvent) : string :=
  match truthy_str (fact key e) with Some id => id | None => _legacy_work_id (field alias_key e) end.

Definition _event_target_work_id (e : WorkEvent) : option string :=
  if bool_decide (kind e ∈ ["start"; "queue"; ADOPTION_KIND]) then Some (id_or_legacy "work_id" "item_id" e)
  else if bool_decide (kind e = "fold") then Some (id_or_legacy "target_work_id" "target_id" e)
  else if bool_decide (kind e = "drop") then Some (id_or_legacy "work_id" "request_id" e)
  else if bool_decide (kind e ∈ TARGETING) then Some (id_or_legacy "work_id" "item_id" e)
  else None.

Definition find_item (id : string) (b : Board) : option WorkItem := List.find (λ i, bool_decide (work_id i = id)) (open_items b).

Definition related_id (work_key alias_key : string) (e : WorkEvent) : option string :=
  match fact work_key e with Some id => Some id | None => _legacy_work_id <$> fact alias_key e end.

(** The focus an event with one names is the focus afterwards. *)
Definition focus_reflected (after : Board) (e : WorkEvent) : bool :=
  let touched i := bool_decide (last_event_id i = event_id e) in
  match related_id "successor_work_id" "successor_id" e with
  | Some id =>
      match find_item id after with Some i => bool_decide (state i = Active) && touched i | None => false end
  | None =>
      if bool_decide (fact "focus_state" e = Some "idle") then idle after && bool_decide (active_work_id after = None)
      else match related_id "waiting_work_id" "waiting_id" e with
           | Some id =>
               bool_decide (waiting_work_id after = Some id) &&
               match find_item id after with Some i => bool_decide (state i ∈ [Waiting; Blocked]) && touched i | None => false end
           | None => true
           end
  end.

Definition _event_is_reflected (prior : WorkboardDocument) (before after : Board) (e : WorkEvent) : bool :=
  if bool_decide (event_id e ∈ map event_id (events_of prior)) then false
  else if bool_decide (kind e ∈ ["restart"; COMPACTION_KIND]) then true
  else if bool_decide (kind e = IDLE_KIND) then
    idle after && bool_decide (waiting_work_id after = None) && bool_decide (active_work_id after = None)
  else match _event_target_work_id e with
  | None => false
  | Some target =>
      let was := find_item target before in
      let is_now := find_item target after in
      if bool_decide (kind e = "restate") then
        match was, is_now with
        | Some i, Some j =>
            bool_decide (state j = state i) && bool_decide (last_event_id j = event_id e) &&
            bool_decide (summary j = field "summary" e) && bool_decide (why j = fact "why" e) &&
            bool_decide (resume_action j = fact "next_action" e) &&
            bool_decide (active_work_id after = active_work_id before) &&
            bool_decide (waiting_work_id after = waiting_work_id before) && bool_decide (idle after = idle before)
        | _, _ => false
        end
      else if bool_decide (kind e ∈ ["start"; "queue"; ADOPTION_KIND; "switch"; "advance"; "fold"]) then
        match is_now with Some j => bool_decide (last_event_id j = event_id e) | None => false end
      else if bool_decide (kind e = "block") then
        match is_now with
        | Some j => bool_decide (state j = Blocked) && bool_decide (last_event_id j = event_id e) && focus_reflected after e
        | None => false
        end
      else
        let closed := match is_now with Some _ => false | None => bool_decide (target ∈ terminal_work_ids after) end in
        let was_open := match was with Some _ => true | None => false end in
        if bool_decide (kind e ∈ ["complete"; "archive"]) then was_open && closed && focus_reflected after e
        else if bool_decide (kind e = "drop") then closed && focus_reflected after e
        else false
  end.

(** The issues of [after] beyond those of [before], counted. *)
Fixpoint _added_issues (before after : list string) : list string :=
  match after with
  | [] => []
  | x :: after => if decide (x ∈ before) then _added_issues (remove_first x before) after else x :: _added_issues before after
  end.

(** The ledger: no file, a text, or bytes that are not UTF-8. *)
Variant ledger := Absent | Holds (text : string) | Undecodable (b : bytes).
Definition ledger_bytes (l : ledger) : bytes :=
  match l with Absent => [] | Holds text => encode_utf8 text | Undecodable b => b end.

(** What the caller passes and what the clock and the random source give. *)
Record AppendArgs := {
  arg_kind : string;
  arg_event_id : option string;
  arg_at : option string;
  arg_facts : facts;
  event_token : string;
  clock : string;
  id_draws : list string
}.

(** The text added to the ledger and the event in it, before anything is written. *)
Definition admit_append (text : string) (a : AppendArgs) : res (string * WorkEvent) :=
  let before_document := _parse_workboard_text text in
  let before := project_workboard before_document in
  let before_issues := validate_workboard before_document before in
  let normalized_kind := py_lower (arg_kind a) in
  given ← _normalize_append_facts (id_draws a) normalized_kind (arg_facts a) before_document before;
  line ← format_event normalized_kind (str_or (arg_event_id a) ("EV-" +:+ event_token a)) (str_or (arg_at a) (clock a)) given;
  match _parse_event_line (rstrip_by (λ c, bool_decide (c = LF)) (snoc line LF)) 1 with
  | (Some rendered, []) =>
      let header := if bool_decide (text = "") then OPEN_WORK_HEADER else "" in
      let added := header +:+ snoc line LF in
      let after_document := _parse_workboard_text (text +:+ added) in
      let after := project_workboard after_document in
      let after_issues := validate_workboard after_document after in
      match List.find (λ e, bool_decide (event_id e = event_id rendered)) (rev (events_of after_document)) with
      | None => Err (Exn WorkboardConsistencyError "append rejected: candidate event did not parse from the simulated document")
      | Some candidate =>
          consistency (negb (bool_decide (_added_issues before_issues after_issues = []))) "append rejected: introduced issue(s)";;
          consistency (negb (_event_is_reflected before_document before after candidate))
            "append rejected: projection postcondition failed";;
          Ok (added, candidate)
      end
  | _ => Err (Exn AssertionError "formatted event did not round-trip")
  end.

(** The loop of [os.write]: what it wrote and how it ended; [None] is the
    process dying in it.  An answer is the count written; [None] an [OSError]. *)
Fixpoint write_all (answers : list (option Z)) (payload : bytes) : bytes * option (res unit) :=
  match payload, answers with
  | [], _ => ([], Some (Ok tt))
  | _, [] => ([], None)
  | _, None :: _ => ([], Some (Err (Exn OSError "write")))
  | _, Some n :: answers =>
      if n <=? 0 then ([], Some (Err (Exn OSError "append-only workboard write made no progress")))
      else let '(done, end_) := write_all answers (drop (Z.to_nat n) payload) in (take (Z.to_nat n) payload ++ done, end_)
  end.

(** [append_event]: the bytes of the file afterwards and the outcome. *)
Definition append_event (file : ledger) (a : AppendArgs) (answers : list (option Z)) (fsync : res unit) :
    bytes * option (res WorkEvent) :=
  let refused e := (ledger_bytes file, Some (Err e)) in
  match file with
  | Undecodable _ => refused (Exn WorkboardConsistencyError "not valid UTF-8; refusing append")
  | Absent | Holds _ =>
      let text := match file with Holds text => text | _ => "" end in
      match admit_append text a with
      | Err e => refused e
      | Ok (added, candidate) =>
          let '(written, outcome) := write_all answers (encode_utf8 added) in
          (ledger_bytes file ++ written,
           (λ w, w;; fsync;; Ok candidate) <$> outcome)
      end
  end.

(** ** The command line's flags *)

(** The flags each kind must carry; [either] is the identity flag pair. *)
Definition either : string := "alias|work_id".
Definition _APPEND_REQUIRED_FLAGS : list (string * list string) :=
  [("queue", ["alias"; "summary"; "why"; "resume"]); ("start", ["alias"; "summary"; "why"; "next"]);
   ("restate", [either; "summary"; "why"; "next"]); ("advance", [either; "next"]); ("switch", [either; "next"]);
   ("block", [either; "resume"]); ("complete", [either]); ("archive", [either]); ("drop", [either; "summary"; "why"]);
   ("fold", ["request_id"; "target"; "summary"; "why"; "next"]); (IDLE_KIND, [])].

Definition _related_identity (value work_key alias_key : string) : facts :=
  if fullmatch _WORK_ID_RE value then [(work_key, value)] else [(alias_key, value)].

(** [facts[name] = value[flag]] when the flag is given. *)
Definition copy_flag (value : facts) (given : facts) (names : string * string) : facts :=
  match dict_get names.1 value with Some v => dict_set names.2 v given | None => given end.
Definition related_flag (value : facts) (flag work_key alias_key : string) (given : facts) : facts :=
  match dict_get flag value with Some v => dict_update given (_related_identity v work_key alias_key) | None => given end.

(** [value] are the flags that are given, [idle] whether [--idle] is. *)
Definition append_facts_from_flags (kind : string) (value : facts) (idle : bool) : res facts :=
  match dict_get kind _APPEND_REQUIRED_FLAGS with
  | None => Err (Exn WorkboardConsistencyError "append kind must be one of the append kinds")
  | Some required =>
      let has flag := dict_has flag value in
      consistency (has "alias" && has "work_id") "pass either --alias or --work-id, not both";;
      consistency (existsb (λ flag, if bool_decide (flag = either) then negb (has "alias" || has "work_id") else negb (has flag)) required)
        "missing flags";;
      let identity :=
        if bool_decide (kind ∈ ["queue"; "start"]) then copy_flag value [] ("alias", "alias")
        else if bool_decide (kind = "drop") then
          if has "work_id" then copy_flag value [] ("work_id", "work_id") else copy_flag value [] ("alias", "request_id")
        else if bool_decide (kind ∈ [IDLE_KIND; "fold"]) then []
        else if has "work_id" then copy_flag value [] ("work_id", "work_id") else copy_flag value [] ("alias", "item_id") in
      let given :=
        if bool_decide (kind = "fold") then related_flag value "target" "target_work_id" "target_id" (copy_flag value identity ("request_id", "request_id"))
        else identity in
      let given := fold_left (copy_flag value) [("summary", "summary"); ("why", "why"); ("next", "next_action"); ("resume", "resume_action")] given in
      let given := related_flag value "successor" "successor_work_id" "successor_id" given in
      let given := related_flag value "waiting" "waiting_work_id" "waiting_id" given in
      Ok (if idle then dict_set "focus_state" "idle" given else given)
  end.
