(* ===== verification/WorkboardProps.v ===== *)
(** * The workboard: what every projection satisfies

    The invariant of the fold over the ledger's records, that a closed item is
    closed for ever, and the exact conditions under which an open item holds the
    focus of a valid board. *)
From S2P Require Import Prelude Regex Sha256 Json PyText JsonProps PyTime Shlex Workboard.

#[local] Open Scope Z_scope.

(** ** Dictionaries of items *)

Lemma dict_set_forall {A} (P : string * A → Prop) k v d : P (k, v) → Forall P d → Forall P (dict_set k v d).
Proof.
  intros Hv. induction 1 as [|[k' v'] d Hk Hd IH]; cbn [dict_set]; [by constructor|].
  case_decide; by constructor.
Qed.

Lemma dict_set_same_keys {A} k (v w : A) d : dict_get k d = Some w → (dict_set k v d).*1 = d.*1.
Proof. intros H. rewrite dict_set_keys, decide_True; [done|]. apply dict_get_key. eauto. Qed.

(** Items rewritten in place. *)
Definition rewritten (f : string * WorkItem → WorkItem) (d : list (string * WorkItem)) : list (string * WorkItem) :=
  map (λ kv, (kv.1, f kv)) d.

Lemma rewritten_keys f d : (rewritten f d).*1 = d.*1.
Proof. unfold rewritten. induction d as [|kv d IH]; cbn; [done|]. by f_equal. Qed.

Lemma rewritten_get f d k : dict_get k (rewritten f d) = (λ i, f (k, i)) <$> dict_get k d.
Proof. unfold rewritten. induction d as [|[k' i] d IH]; cbn; [done|]. by case_decide; subst. Qed.

(** ** The invariant *)

Definition own_key (kv : string * WorkItem) : Prop := work_id kv.2 = kv.1.

Record board_ok (b : Board) : Prop := {
  ok_keys : NoDup (items b).*1;
  ok_ids : Forall own_key (items b);
  ok_known : ∀ id, id ∈ known_work_ids b ↔ id ∈ (items b).*1 ∨ id ∈ terminal_work_ids b;
  ok_apart : ∀ id, id ∈ (items b).*1 → id ∉ terminal_work_ids b;
  ok_waiting : ∀ w, waiting_work_id b = Some w → ∃ i, dict_get w (items b) = Some i ∧ state i ∈ [Waiting; Blocked];
  ok_idle : idle b = true → waiting_work_id b = None
}.

(** Closed and known items stay so. *)
Definition grows (b b' : Board) : Prop :=
  terminal_work_ids b ⊆ terminal_work_ids b' ∧ known_work_ids b ⊆ known_work_ids b'.

#[export] Instance grows_preorder : PreOrder grows.
Proof. split; [by intros b|]. intros a b c [? ?] [? ?]. split; etrans; eassumption. Qed.

(** What every step must show. *)
Definition evolves (b b' : Board) : Prop := board_ok b' ∧ grows b b'.

Lemma evolves_trans a b c : evolves a b → (board_ok b → evolves b c) → evolves a c.
Proof. intros [Hb Hg] Hc. destruct (Hc Hb) as [Hc' Hg']. split; [done|]. by etrans. Qed.

Lemma evolves_refl b : board_ok b → evolves b b.
Proof. by split. Qed.
#[export] Hint Resolve evolves_refl : board.

(** A step that only changes the issues, the aliases and the like. *)
Lemma evolves_aside b b' :
  board_ok b → items b' = items b → terminal_work_ids b' = terminal_work_ids b → known_work_ids b' = known_work_ids b →
  idle b' = idle b → waiting_work_id b' = waiting_work_id b → evolves b b'.
Proof.
  intros [] Hi Ht Hk Hidle Hw. split; [|split; by rewrite ?Ht, ?Hk].
  constructor; rewrite ?Hi, ?Ht, ?Hk, ?Hidle, ?Hw; done.
Qed.

(** A step that rewrites items in place and settles the focus. *)
Lemma evolves_items b b' :
  board_ok b → (items b').*1 = (items b).*1 → Forall own_key (items b') →
  terminal_work_ids b' = terminal_work_ids b → known_work_ids b' = known_work_ids b →
  (∀ w, waiting_work_id b' = Some w → ∃ i, dict_get w (items b') = Some i ∧ state i ∈ [Waiting; Blocked]) →
  (idle b' = true → waiting_work_id b' = None) → evolves b b'.
Proof.
  intros [] Hi Hids Ht Hk Hw Hidle. split; [|split; by rewrite ?Ht, ?Hk].
  constructor; rewrite ?Hi, ?Ht, ?Hk; done.
Qed.

Lemma own_key_get b k i : board_ok b → dict_get k (items b) = Some i → work_id i = k.
Proof.
  intros Hb H. pose proof (ok_ids b Hb) as Hids. rewrite Forall_forall in Hids.
  apply (Hids (k, i)), dict_get_elem; [apply Hb|done].
Qed.

Lemma rewritten_own f d : (∀ kv, work_id (f kv) = work_id kv.2) → Forall own_key d → Forall own_key (rewritten f d).
Proof. intros Hf. unfold rewritten. induction 1 as [|kv d Hk Hd IH]; cbn; constructor; [|done]. unfold own_key in *. cbn. by rewrite Hf. Qed.

Lemma release_others_rewritten t d :
  release_others t d = rewritten (λ kv, if negb (bool_decide (kv.1 = t)) && in_focus kv.2 then set_state Queued kv.2 else kv.2) d.
Proof. done. Qed.

Lemma release_others_keys t d : (release_others t d).*1 = d.*1.
Proof. apply rewritten_keys. Qed.

Lemma release_others_get t d : dict_get t (release_others t d) = dict_get t d.
Proof. rewrite release_others_rewritten, rewritten_get. destruct (dict_get t d); cbn; [|done]. by rewrite bool_decide_eq_true_2. Qed.

Lemma release_others_own t d : Forall own_key d → Forall own_key (release_others t d).
Proof. apply rewritten_own. intros kv. by destruct (_ && _). Qed.

(** ** The steps *)

Section Steps.
Context (e : WorkEvent) (index : Z).

Lemma issue_evolves n msg b : board_ok b → evolves b (transition_issue n msg b).
Proof. intros. by apply evolves_aside. Qed.

Lemma focused_evolves target item item' focus b :
  board_ok b → dict_get target (items b) = Some item → work_id item' = work_id item →
  (∀ w, focus = Some w → w = target ∧ state item' ∈ [Waiting; Blocked]) →
  evolves b (set_focus false focus (set_items (dict_set target item' (release_others target (items b))) b)).
Proof.
  intros Hb Hg Hid Hw. apply evolves_items; cbn; try done.
  - rewrite (dict_set_same_keys _ _ item); [apply release_others_keys|]. by rewrite release_others_get.
  - apply dict_set_forall; [unfold own_key; cbn; rewrite Hid; by eapply own_key_get|].
    apply release_others_own, Hb.
  - intros w [-> Hs]%Hw. exists item'. by rewrite dict_get_set, decide_True.
Qed.

Lemma activate_evolves target display action b : board_ok b → evolves b (activate e target display action index b).
Proof.
  intros Hb. unfold activate. destruct (dict_get target (items b)) as [item|] eqn:Hg; [|by apply issue_evolves].
  by eapply focused_evolves.
Qed.

Lemma declare_waiting_evolves target display action b :
  board_ok b → evolves b (declare_waiting e target display action index b).
Proof.
  intros Hb. unfold declare_waiting. destruct (dict_get target (items b)) as [item|] eqn:Hg; [|by apply issue_evolves].
  eapply focused_evolves; [done|exact Hg|done|]. intros w [= <-]. split; [done|]. case_bool_decide; cbn; set_solver.
Qed.

Lemma declare_idle_evolves b : board_ok b → evolves b (declare_idle e index b).
Proof.
  intros Hb. unfold declare_idle.
  change (map _ (items b)) with (rewritten (λ kv, if in_focus kv.2 then
    set_state Queued (set_action (resume_action kv.2) e index kv.2) else kv.2) (items b)).
  apply evolves_items; cbn; try done; [apply rewritten_keys|].
  apply rewritten_own; [|apply Hb]. intros kv. by destruct (in_focus _).
Qed.

Lemma atomic_focus_evolves b : board_ok b → evolves b (apply_atomic_focus e index b).
Proof.
  intros Hb. unfold apply_atomic_focus. destruct (optional_identity _ _ _ _) as [[t d]|]; [by apply activate_evolves|].
  case_bool_decide; [by apply declare_idle_evolves|].
  destruct (optional_identity _ _ _ _) as [[t d]|]; [by apply declare_waiting_evolves|by apply evolves_refl].
Qed.

(** One item replaced by one with the same identity; the waiting item keeps
    a waiting state. *)
Lemma replace_evolves target item item' b :
  board_ok b → dict_get target (items b) = Some item → work_id item' = work_id item →
  (state item ∈ [Waiting; Blocked] → state item' ∈ [Waiting; Blocked]) →
  evolves b (add_item target item' b).
Proof.
  intros Hb Hg Hid Hs. apply evolves_items; cbn; try done.
  - by eapply dict_set_same_keys.
  - apply dict_set_forall; [unfold own_key; cbn; rewrite Hid; by eapply own_key_get|]. apply Hb.
  - intros w (i & Hi & Hst)%(ok_waiting b Hb). rewrite dict_get_set. case_decide; [|eauto]. subst w.
    exists item'. split; [done|]. apply Hs. by simplify_eq.
  - apply Hb.
Qed.

(** A new item, of an identity nobody knows. *)
Lemma add_item_evolves id a i b :
  board_ok b → id ∉ known_work_ids b → work_id i = id → evolves b (add_item id i (add_known id a b)).
Proof.
  intros Hb Hk Hid. pose proof Hb as [Hkeys Hids Hkn Hap Hw Hidle].
  assert (id ∉ (items b).*1) as Hnew by (intros ?; apply Hk, Hkn; by left).
  assert (Hset : dict_set id i (items b) = items b ++ [(id, i)]) by by apply dict_set_fresh.
  split; [constructor; cbn|split; cbn; set_solver].
  - rewrite Hset, fmap_app. apply NoDup_app. split_and!; [done| |apply NoDup_singleton].
    intros x Hx ->%list_elem_of_singleton. done.
  - apply dict_set_forall; done.
  - intros x. rewrite Hset, fmap_app, elem_of_app, elem_of_union, elem_of_singleton. cbn.
    rewrite list_elem_of_singleton, Hkn. tauto.
  - intros x. rewrite Hset, fmap_app, elem_of_app. cbn. rewrite list_elem_of_singleton.
    intros [Hx | ->]; [by apply Hap|]. intros Ht. apply Hk, Hkn. by right.
  - intros w (j & Hj & Hs)%Hw. exists j. split; [|done]. rewrite dict_get_set, decide_False; [done|].
    intros ->. apply Hnew, dict_get_key. eauto.
  - done.
Qed.

Lemma release_waiting_evolves b : board_ok b → evolves b (release_waiting b).
Proof.
  intros Hb. unfold release_waiting. apply evolves_items; cbn; try done.
  - destruct (waiting_work_id b) as [w|]; [|done]. destruct (dict_get w (items b)) as [i|] eqn:Hi; [|done].
    case_bool_decide; [|done]. by eapply dict_set_same_keys.
  - destruct (waiting_work_id b) as [w|]; [|apply Hb]. destruct (dict_get w (items b)) as [i|] eqn:Hi; [|apply Hb].
    case_bool_decide; [|apply Hb]. apply dict_set_forall; [|apply Hb]. unfold own_key. cbn. by eapply own_key_get.
Qed.

Lemma close_evolves id item b :
  board_ok b → dict_get id (items b) = Some item → evolves b (close_item id item b).
Proof.
  intros Hb Hg. pose proof Hb as [Hkeys Hids Hkn Hap Hw Hidle].
  assert (Hin : id ∈ (items b).*1) by (apply dict_get_key; eauto).
  assert (Hc : ∀ b', items b' = dict_del id (items b) → terminal_work_ids b' = {[id]} ∪ terminal_work_ids b →
    known_work_ids b' = known_work_ids b →
    (waiting_work_id b' = None ∨ waiting_work_id b ≠ Some id ∧ waiting_work_id b' = waiting_work_id b ∧ idle b' = idle b) →
    evolves b b').
  { intros b' Hi Ht Hk Hf. split; [constructor|split; [rewrite Ht|rewrite Hk]; set_solver]; rewrite ?Hi, ?Ht, ?Hk.
    - eapply sublist_NoDup; [done|]. by apply fmap_sublist, dict_del_sublist.
    - apply Forall_forall. intros kv [Hkv _]%elem_of_filter_list. rewrite Forall_forall in Hids. by apply Hids.
    - intros x. rewrite dict_del_keys, Hkn, elem_of_union, elem_of_singleton. destruct (decide (x = id)) as [->|]; tauto.
    - intros x [Hx Hne]%dict_del_keys. apply Hap in Hx. set_solver.
    - intros w Hw'. destruct Hf as [?|(Hne & Hw2 & _)]; [congruence|]. rewrite Hw2 in Hw'.
      destruct (Hw w Hw') as (j & Hj & Hs). exists j. split; [|done]. rewrite dict_get_del; [done|]. congruence.
    - destruct Hf as [?|(_ & -> & ->)]; [by intros|done]. }
  unfold close_item. destruct (bool_decide (state item = Active)) eqn:Ha, (bool_decide (waiting_work_id b = Some id)) eqn:Hwb;
    apply Hc; cbn; try done; [by left|by left|by left|right].
  apply bool_decide_eq_false in Hwb. done.
Qed.

Lemma add_disposed_evolves id b : board_ok b → evolves b (add_disposed id b).
Proof. intros. by apply evolves_aside. Qed.

Lemma reject_evolves a msg b : board_ok b → evolves b (reject_opening e a msg b).
Proof. intros. by apply evolves_aside. Qed.

(** A request dropped without ever being an item. *)
Lemma dispose_evolves id a b :
  board_ok b → dict_get id (items b) = None → id ∉ terminal_work_ids b →
  evolves b (add_terminal id a (add_disposed id (add_known id a b))).
Proof.
  intros [Hkeys Hids Hkn Hap Hw Hidle] Hg Ht.
  assert (id ∉ (items b).*1) as Hnew by (rewrite dict_get_key, Hg; by intros []).
  split; [constructor; cbn; try done|split; cbn; set_solver].
  - intros x. rewrite !elem_of_union, !elem_of_singleton, Hkn. tauto.
  - intros x Hx. rewrite elem_of_union, elem_of_singleton. intros [->|H]; [done|]. by apply (Hap x).
Qed.

Lemma start_evolves b : board_ok b → evolves b (on_start e index b).
Proof.
  intros Hb. unfold on_start. destruct (opening_identity e) as [[id a] d]. case_bool_decide as Hk; [by apply reject_evolves|].
  eapply evolves_trans; [|apply release_waiting_evolves]. by apply add_item_evolves.
Qed.

Lemma queue_evolves b : board_ok b → evolves b (on_queue e index b).
Proof.
  intros Hb. unfold on_queue. destruct (opening_identity e) as [[id a] d]. case_bool_decide as Hk; [by apply reject_evolves|].
  set (i := opened _ _ _ _ _ _ _ _). eapply evolves_trans; [apply (add_item_evolves id a i); [done|set_solver|done]|].
  intros Hb'. by apply (evolves_aside (add_item id i (add_known id a b))).
Qed.

Lemma fold_evolves b : board_ok b → evolves b (on_fold e index b).
Proof.
  intros Hb. unfold on_fold. destruct (match fact "target_work_id" e with Some _ => _ | None => _ end) as [t d].
  destruct (_ || _); [by apply issue_evolves|]. destruct (dict_get t (items b)) as [i|] eqn:Hg; [|by apply issue_evolves].
  case_bool_decide as Hs; [|by apply issue_evolves].
  eapply evolves_trans; [by apply add_disposed_evolves|]. intros Hb'.
  by apply (replace_evolves t i).
Qed.

Lemma drop_evolves b : board_ok b → evolves b (on_drop e index b).
Proof.
  intros Hb. unfold on_drop. destruct (match fact "work_id" e with Some _ => _ | None => _ end) as [id d].
  destruct (dict_get id (items b)) as [i|] eqn:Hg.
  - eapply evolves_trans; [by apply close_evolves|]. apply atomic_focus_evolves.
  - case_bool_decide as Hk; [by apply issue_evolves|].
    eapply evolves_trans; [apply dispose_evolves; [done|done|set_solver]|]. apply atomic_focus_evolves.
Qed.

Lemma close_kind_evolves b : board_ok b → evolves b (on_close e index b).
Proof.
  intros Hb. unfold on_close. destruct (target_identity b e) as [t d].
  destruct (dict_get t (items b)) as [i|] eqn:Hg; [|by apply issue_evolves].
  eapply evolves_trans; [by apply close_evolves|]. apply atomic_focus_evolves.
Qed.

Lemma advance_evolves b : board_ok b → evolves b (on_advance e index b).
Proof.
  intros Hb. unfold on_advance. destruct (target_identity b e) as [t d].
  destruct (dict_get t (items b)) as [i|] eqn:Hg; [|by apply issue_evolves].
  case_bool_decide; [by apply (replace_evolves t i)|by apply issue_evolves].
Qed.

Lemma restate_evolves b : board_ok b → evolves b (on_restate e index b).
Proof.
  intros Hb. unfold on_restate. destruct (target_identity b e) as [t d].
  destruct (dict_get t (items b)) as [i|] eqn:Hg; [|by apply issue_evolves]. by apply (replace_evolves t i).
Qed.

Lemma block_evolves b : board_ok b → evolves b (on_block e index b).
Proof.
  intros Hb. unfold on_block. destruct (target_identity b e) as [t d].
  destruct (dict_get t (items b)) as [i|] eqn:Hg; [|by apply issue_evolves].
  set (i' := set_state Blocked _).
  assert (He : evolves b (add_item t i' b)) by (apply (replace_evolves t i); [done..|cbn; set_solver]).
  case_match; [eapply evolves_trans; [exact He|apply atomic_focus_evolves]|].
  case_bool_decide; [|exact He]. eapply evolves_trans; [exact He|]. intros Hb'.
  apply evolves_items; cbn; try done; [apply Hb'|]. intros w [= <-]. exists i'.
  rewrite dict_get_set, decide_True by done. split; [done|]. cbn. set_solver.
Qed.

Lemma adopt_evolves b : board_ok b → evolves b (on_adopt e index b).
Proof.
  intros Hb. unfold on_adopt. destruct (dict_get _ (rejected_openings b)) as [r|]; [|by apply issue_evolves].
  destruct (negb _); [by apply issue_evolves|]. case_bool_decide as Hk; [by apply issue_evolves|].
  set (i := opened _ _ _ _ _ _ _ _). set (b1 := if bool_decide (kind (source_event r) = "queue") then _ else _).
  assert (H1 : evolves b (add_item (field "work_id" e) i b1)).
  { eapply evolves_trans; [apply (add_item_evolves (field "work_id" e) (field "alias" e) i); [done|set_solver|done]|].
    intros Hb'. unfold b1. case_bool_decide; by apply evolves_aside. }
  assert (H2 : evolves b (if bool_decide (kind (source_event r) = "start")
                          then release_waiting (add_item (field "work_id" e) i b1) else add_item (field "work_id" e) i b1)).
  { case_bool_decide; [|done]. eapply evolves_trans; [exact H1|]. apply release_waiting_evolves. }
  eapply evolves_trans; [exact H2|]. intros Hb'. by apply evolves_aside.
Qed.

Lemma kind_evolves b : board_ok b → evolves b (apply_kind e index b).
Proof.
  intros Hb. unfold apply_kind. cbv zeta beta.
  destruct (bool_decide (kind e = "start")); [by apply start_evolves|].
  destruct (bool_decide (kind e = "queue")); [by apply queue_evolves|].
  destruct (bool_decide (kind e = "fold")); [by apply fold_evolves|].
  destruct (bool_decide (kind e = "drop")); [by apply drop_evolves|].
  destruct (bool_decide (kind e = "switch")); [unfold on_switch; destruct (target_identity b e); by apply activate_evolves|].
  destruct (bool_decide (kind e = "advance")); [by apply advance_evolves|].
  destruct (bool_decide (kind e = "restate")); [by apply restate_evolves|].
  destruct (bool_decide (kind e = "block")); [by apply block_evolves|].
  destruct (bool_decide (kind e = "complete") || _); [by apply close_kind_evolves|].
  destruct (bool_decide (kind e = ADOPTION_KIND)); [by apply adopt_evolves|].
  destruct (bool_decide (kind e = IDLE_KIND)); [by apply declare_idle_evolves|by apply evolves_refl].
Qed.

Lemma event_evolves b : board_ok b → evolves b (apply_event e index b).
Proof.
  intros Hb. unfold apply_event. destruct (negb _); [by apply evolves_aside|].
  case_bool_decide; [by apply issue_evolves|]. eapply evolves_trans; [|by apply kind_evolves]. by apply evolves_aside.
Qed.
End Steps.

Lemma legacy_evolves r index b : board_ok b → evolves b (apply_legacy r index b).
Proof.
  intros Hb. unfold apply_legacy. set (id := _legacy_work_id _). set (a := _legacy_projection_alias r).
  destruct (dict_has id (items b)) eqn:Hh; [by apply evolves_aside|]. cbn [orb].
  case_bool_decide as Ht; [by apply evolves_aside|].
  assert (Hg : dict_get id (items b) = None) by (unfold dict_has in Hh; by destruct (dict_get id (items b))).
  assert (Hk : id ∉ known_work_ids b).
  { rewrite (ok_known b Hb), dict_get_key, Hg. intros [[]|]; done. }
  destruct (checked r); [|by apply add_item_evolves].
  apply (evolves_trans _ (add_terminal id a (add_disposed id (add_known id a b)))); [by apply dispose_evolves|]. intros [Hkeys Hids Hkn Hap Hw Hidle]. split; [|by split]. by constructor.
Qed.

Lemma record_evolves r index b : board_ok b → evolves b (apply_record r index b).
Proof. destruct r; [apply event_evolves|apply legacy_evolves]. Qed.

Lemma project_evolves rs index b : board_ok b → evolves b (project_from index rs b).
Proof.
  revert index b. induction rs as [|r rs IH]; intros index b Hb; [by apply evolves_refl|]. cbn [project_from].
  eapply evolves_trans; [by apply record_evolves|apply IH].
Qed.

Lemma empty_board_ok : board_ok empty_board.
Proof. constructor; cbn; try done; [constructor|set_solver..]. Qed.

Lemma project_app rs rs' index b :
  project_from index (rs ++ rs') b = project_from (index + Z.of_nat (length rs)) rs' (project_from index rs b).
Proof.
  revert index b. induction rs as [|r rs IH]; intros index b; cbn [app project_from length].
  - f_equal. lia.
  - rewrite IH. f_equal. lia.
Qed.

(** ** Closed items *)

Lemma project_ok doc : board_ok (project_workboard doc).
Proof. apply project_evolves, empty_board_ok. Qed.

(** ** The focus of a valid board *)

(** One active item with a literal next action; or declared idle; or waiting on
    one open item. *)
Variant focus (b : Board) : Prop :=
  | focus_active i a : active_items b = [i] → resume_action i = Some a → blank a = false →
      idle b = false → waiting_work_id b = None → focus b
  | focus_idle : active_items b = [] → idle b = true → waiting_work_id b = None → focus b
  | focus_waiting w i : active_items b = [] → idle b = false → waiting_work_id b = Some w →
      dict_get w (items b) = Some i → state i ∈ [Waiting; Blocked] → focus b.

Lemma when_nil {A} b (a : A) : when b a = [] ↔ b = false.
Proof. by destruct b. Qed.

Lemma nonempty_spec s : nonempty s = true ↔ ∃ a, s = Some a ∧ a ≠ "".
Proof. destruct s as [[|c a]|]; cbn; naive_solver. Qed.

Lemma blank_empty a : blank a = false → a ≠ "".
Proof. by intros ? ->. Qed.

Lemma waiting_found b w i :
  board_ok b → dict_get w (items b) = Some i → state i ∈ [Waiting; Blocked] →
  List.filter (λ i, bool_decide (work_id i = w) && bool_decide (state i ∈ [Waiting; Blocked])) (open_items b) = [i].
Proof.
  intros Hb Hg Hs. pose proof (ok_keys b Hb) as Hnd. pose proof (ok_ids b Hb) as Hids. unfold open_items.
  revert Hg Hnd. induction Hids as [|[k j] d Hk Hd IH]; cbn; [done|]. unfold own_key in Hk. cbn in Hk.
  intros Hg [Hnk Hnd]%NoDup_cons. case_decide as Hkw.
  - simplify_eq. rewrite bool_decide_eq_true_2, bool_decide_eq_true_2 by done. cbn. f_equal.
    clear IH. induction Hd as [|[k j] d Hk Hd IH]; [done|]. cbn in *. unfold own_key in Hk. cbn in Hk.
    apply NoDup_cons in Hnd as [? ?]. rewrite not_elem_of_cons in Hnk. destruct Hnk as [? ?].
    rewrite bool_decide_eq_false_2 by congruence. by apply IH.
  - rewrite bool_decide_eq_false_2 by congruence. by apply IH.
Qed.

Lemma concat_map_nil {A B} (f : A → list B) l : concat (map f l) = [] ↔ ∀ x, x ∈ l → f x = [].
Proof.
  induction l as [|y l IH]; cbn; [split; [by intros _ x ?%elem_of_nil|done]|]. rewrite app_nil, IH.
  split; [intros [? ?] x [->|?]%elem_of_cons; auto|]. intros H. split; [apply H; by left|]. intros x ?. apply H. by right.
Qed.

Definition actions_present (b : Board) : Prop := ∀ i, i ∈ open_items b → nonempty (resume_action i) = true.

Lemma item_issues b :
  board_ok b →
  concat (map (λ i,
    when (bool_decide (work_id i ∈ terminal_work_ids b)) ("terminal item " +:+ alias i +:+ " also appears open") ++
    when (negb (nonempty (resume_action i))) ("open item " +:+ alias i +:+ " has no literal resume action"))
    (open_items b)) = [] ↔ actions_present b.
Proof.
  intros Hb. rewrite concat_map_nil. split; intros H i Hi; specialize (H i Hi).
  - rewrite app_nil, !when_nil, negb_false_iff in H. apply H.
  - rewrite app_nil, !when_nil, negb_false_iff. split; [|done]. apply bool_decide_eq_false.
    apply list_elem_of_fmap in Hi as ([k j] & -> & Hi). cbn. pose proof (ok_ids b Hb) as Hids.
    rewrite Forall_forall in Hids. rewrite (Hids _ Hi). apply (ok_apart b Hb). by apply (list_elem_of_fmap_2 fst _ (k, j)).
Qed.

Lemma waiting_issue b :
  board_ok b →
  match waiting_work_id b with
  | Some w =>
      let waiting := List.filter (λ i, bool_decide (work_id i = w) && bool_decide (state i ∈ [Waiting; Blocked])) (open_items b) in
      when (negb (length waiting =? 1)%nat) "declared waiting focus must identify exactly one open work_id"
  | None => []
  end = [].
Proof.
  intros Hb. destruct (waiting_work_id b) as [w|] eqn:Hw; [|done].
  destruct (ok_waiting b Hb w Hw) as (i & Hg & Hs). cbv zeta. by rewrite (waiting_found b w i).
Qed.

Lemma focus_rules_spec doc :
  let b := project_workboard doc in focus_issues b = [] ↔ focus b ∧ actions_present b.
Proof.
  intros b. pose proof (project_ok doc : board_ok b) as Hb. unfold focus_issues.
  rewrite !app_nil, waiting_issue, item_issues, when_nil by done. unfold next_action, sole_active. split.
  - intros (Hcount & Haction & Hboth & _ & Hact). split; [|done].
    destruct (active_items b) as [|i [|j l]] eqn:Ha; cbn -[bool_decide] in Hcount, Haction.
    + rewrite when_nil, negb_false_iff in Hcount. destruct (idle b) eqn:Hi; cbn in Hcount, Hboth.
      * apply focus_idle; [done|done|by apply (ok_idle b Hb)].
      * apply bool_decide_eq_true in Hcount as [w Hw]. destruct (ok_waiting b Hb w Hw) as (i & Hg & Hs). by eapply focus_waiting.
    + destruct (idle b) eqn:Hi; [done|]. destruct (waiting_work_id b) eqn:Hw; [by rewrite bool_decide_eq_true_2 in Hcount by eauto|].
      destruct (resume_action i) as [a|] eqn:Hr; [|done]. cbn in Haction.
      destruct (negb (nonempty (Some a))); [done|]. rewrite when_nil in Haction. by eapply focus_active.
    + done.
  - intros [Hf Hact]. destruct Hf as [i a -> Hr Hbl Hi Hw | -> Hi Hw | w i -> Hi Hw _ _]; rewrite Hi, Hw; cbn.
    + rewrite Hr, Hbl. cbn. pose proof (blank_empty a Hbl). destruct a; done.
    + done.
    + done.
Qed.

(** ** What an event leaves alone *)

(** The identities an event may name. *)
Definition named (e : WorkEvent) : list string :=
  map (λ k, field k e) WORK_ID_KEYS ++ map (λ k, _legacy_work_id (field k e)) ALIAS_KEYS.

(** The same work, perhaps without the focus. *)
Definition same_work (i j : WorkItem) : Prop :=
  work_id j = work_id i ∧ alias j = alias i ∧ summary j = summary i ∧ why j = why i ∧
  resume_action j = resume_action i ∧ disposition j = disposition i ∧
  (state j = state i ∨ in_focus i = true ∧ state j = Queued).

Lemma same_work_refl i : same_work i i.
Proof. unfold same_work. auto 10. Qed.

Lemma same_work_trans i j k : same_work i j → same_work j k → same_work i k.
Proof.
  intros (? & ? & ? & ? & ? & ? & Hij) (? & ? & ? & ? & ? & ? & Hjk). repeat (split; [congruence|]).
  destruct Hij as [Hij|[? Hij]], Hjk as [Hjk|[Hf Hjk]]; rewrite ?Hjk, ?Hij; auto.
  unfold in_focus in *. rewrite Hij in Hf. auto.
Qed.

Definition kept (id : string) (b b' : Board) : Prop :=
  ∀ i, dict_get id (items b) = Some i → ∃ j, dict_get id (items b') = Some j ∧ same_work i j.

Lemma kept_refl id b : kept id b b.
Proof. intros i Hi. exists i. split; [done|apply same_work_refl]. Qed.
Lemma kept_same id b b' : items b' = items b → kept id b b'.
Proof. intros E i Hi. exists i. rewrite E. split; [done|apply same_work_refl]. Qed.
Lemma kept_trans id a b c : kept id a b → kept id b c → kept id a c.
Proof.
  intros H1 H2 i (j & Hj & Hij)%H1. destruct (H2 j Hj) as (k & Hk & Hjk). exists k. split; [done|]. by eapply same_work_trans.
Qed.
#[export] Hint Resolve kept_refl kept_same : board.

Section Kept.
Context (e : WorkEvent) (index : Z) (id : string).

Lemma kept_set b k i : k ≠ id → kept id b (add_item k i b).
Proof. intros Hk j Hj. exists j. cbn. rewrite dict_get_set, decide_False by done. split; [done|apply same_work_refl]. Qed.

Lemma kept_close b k i : k ≠ id → kept id b (close_item k i b).
Proof.
  intros Hk j Hj. exists j. split; [|apply same_work_refl]. unfold close_item. case_match; cbn; by rewrite dict_get_del.
Qed.

Lemma kept_focused t item f w b : t ≠ id →
  kept id b (set_focus f w (set_items (dict_set t item (release_others t (items b))) b)).
Proof.
  intros Ht i Hi. cbn. rewrite dict_get_set, decide_False by done.
  rewrite release_others_rewritten, rewritten_get, Hi. cbn. eexists. split; [done|].
  destruct (negb _ && in_focus i) eqn:E; [|apply same_work_refl]. bool_inv. unfold same_work. cbn. auto 10.
Qed.

Lemma kept_idle b : kept id b (declare_idle e index b).
Proof.
  intros i Hi. cbn.
  change (map _ (items b)) with (rewritten (λ kv, if in_focus kv.2 then
    set_state Queued (set_action (resume_action kv.2) e index kv.2) else kv.2) (items b)).
  rewrite rewritten_get, Hi. cbn. eexists. split; [done|].
  destruct (in_focus i) eqn:E; [|apply same_work_refl]. unfold same_work. cbn. auto 10.
Qed.

Lemma kept_activate t d a b : t ≠ id → kept id b (activate e t d a index b).
Proof. intros Ht. unfold activate. destruct (dict_get t (items b)); [by apply kept_focused|by apply kept_same]. Qed.

Lemma kept_waiting t d a b : t ≠ id → kept id b (declare_waiting e t d a index b).
Proof. intros Ht. unfold declare_waiting. destruct (dict_get t (items b)); [by apply kept_focused|by apply kept_same]. Qed.

Lemma kept_release b : kept id b (release_waiting b).
Proof.
  intros i Hi. unfold release_waiting. cbn. destruct (waiting_work_id b) as [w|]; [|by apply kept_refl].
  destruct (dict_get w (items b)) as [item|] eqn:Hw; [|by apply kept_refl].
  case_bool_decide as Hs; [|by apply kept_refl]. rewrite dict_get_set. case_decide; [|by apply kept_refl].
  subst w. simplify_eq. eexists. split; [done|]. unfold same_work, in_focus. cbn. rewrite Hs. auto 10.
Qed.

Hypothesis Hnamed : id ∉ named e.

Lemma unnamed_id k : k ∈ WORK_ID_KEYS → ∀ x, fact k e = Some x → x ≠ id.
Proof using Hnamed.
  intros Hk x Hx ->. apply Hnamed. unfold named. apply elem_of_app. left. apply list_elem_of_fmap.
  exists k. split; [|done]. unfold field. by rewrite Hx.
Qed.
Lemma unnamed_alias k : k ∈ ALIAS_KEYS → _legacy_work_id (field k e) ≠ id.
Proof using Hnamed.
  intros Hk <-. apply Hnamed. unfold named. apply elem_of_app. right. apply list_elem_of_fmap. eauto.
Qed.

Lemma unnamed_optional b wk ak t d : wk ∈ WORK_ID_KEYS → ak ∈ ALIAS_KEYS →
  optional_identity b e wk ak = Some (t, d) → t ≠ id.
Proof using Hnamed.
  intros Hw Ha. unfold optional_identity. destruct (fact wk e) eqn:E; [intros [= <- _]; by eapply unnamed_id|].
  destruct (fact ak e) eqn:E2; [|done]. intros [= <- _]. pose proof (unnamed_alias ak Ha) as H. unfold field in H. by rewrite E2 in H.
Qed.

Lemma unnamed_target b t d : target_identity b e = (t, d) → t ≠ id.
Proof using Hnamed.
  unfold target_identity. destruct (fact "work_id" e) eqn:E; intros [= <- _].
  - eapply unnamed_id; [|exact E]. by_decide.
  - apply unnamed_alias. by_decide.
Qed.

Lemma kept_atomic b : kept id b (apply_atomic_focus e index b).
Proof using Hnamed.
  unfold apply_atomic_focus. destruct (optional_identity b e "successor_work_id" _) as [[t d]|] eqn:E1.
  { apply kept_activate. eapply unnamed_optional; [| |exact E1]; by_decide. }
  case_bool_decide; [apply kept_idle|].
  destruct (optional_identity b e "waiting_work_id" _) as [[t d]|] eqn:E2; [|apply kept_refl].
  apply kept_waiting. eapply unnamed_optional; [| |exact E2]; by_decide.
Qed.

Lemma unnamed_opening t a d : opening_identity e = (t, a, d) → t ≠ id.
Proof using Hnamed.
  unfold opening_identity. destruct (fact "work_id" e) eqn:E; intros [= <- _ _].
  - eapply unnamed_id; [|exact E]. by_decide.
  - apply unnamed_alias. by_decide.
Qed.

Lemma kept_adopt b : kept id b (on_adopt e index b).
Proof using Hnamed.
  unfold on_adopt. destruct (dict_get _ (rejected_openings b)) as [r|]; [|by apply kept_same].
  destruct (negb _); [by apply kept_same|]. case_bool_decide as Hk; [by apply kept_same|].
  set (i := opened _ _ _ _ _ _ _ _). set (b1 := if bool_decide (kind (source_event r) = "queue") then _ else _).
  assert (Hid : field "work_id" e ≠ id).
  { intros E. apply Hnamed. unfold named. apply elem_of_app. left. apply list_elem_of_fmap. exists "work_id".
    split; [done|]. by_decide. }
  assert (H1 : kept id b (add_item (field "work_id" e) i b1)).
  { eapply kept_trans; [|by apply kept_set]. apply kept_same. unfold b1. by case_bool_decide. }
  set (b2 := if bool_decide (kind (source_event r) = "start") then _ else _).
  assert (H2 : kept id b b2).
  { unfold b2. case_bool_decide; [|done]. eapply kept_trans; [exact H1|apply kept_release]. }
  eapply kept_trans; [exact H2|]. by apply kept_same.
Qed.

Lemma kept_kind b : kept id b (apply_kind e index b).
Proof using Hnamed.
  unfold apply_kind. cbv zeta beta.
  destruct (bool_decide (kind e = "start")).
  { unfold on_start. destruct (opening_identity e) as [[t a] d] eqn:E. case_bool_decide; [by apply kept_same|].
    eapply kept_trans; [|apply kept_release]. eapply kept_trans; [|apply kept_set; by apply unnamed_opening in E].
    by apply kept_same. }
  destruct (bool_decide (kind e = "queue")).
  { unfold on_queue. destruct (opening_identity e) as [[t a] d] eqn:E. case_bool_decide; [by apply kept_same|].
    eapply kept_trans; [|apply kept_set; by apply unnamed_opening in E]. by apply kept_same. }
  destruct (bool_decide (kind e = "fold")).
  { unfold on_fold. destruct (match fact "target_work_id" e with Some _ => _ | None => _ end) as [t d] eqn:E.
    destruct (_ || _); [by apply kept_same|]. destruct (dict_get t (items b)); [|by apply kept_same].
    case_bool_decide; [|by apply kept_same]. eapply kept_trans; [|apply kept_set]; [by apply kept_same|].
    destruct (fact "target_work_id" e) eqn:Ef; injection E as <- _; [eapply unnamed_id; [|exact Ef]|apply unnamed_alias]; by_decide. }
  destruct (bool_decide (kind e = "drop")).
  { unfold on_drop. destruct (match fact "work_id" e with Some _ => _ | None => _ end) as [t d] eqn:E.
    assert (Ht : t ≠ id).
    { destruct (fact "work_id" e) eqn:Ef; injection E as <- _; [eapply unnamed_id; [|exact Ef]|apply unnamed_alias]; by_decide. }
    destruct (dict_get t (items b)); [eapply kept_trans; [by apply kept_close|apply kept_atomic]|].
    case_bool_decide; [by apply kept_same|]. eapply kept_trans; [|apply kept_atomic]. by apply kept_same. }
  destruct (bool_decide (kind e = "switch")).
  { unfold on_switch. destruct (target_identity b e) as [t d] eqn:E. apply kept_activate. by eapply unnamed_target. }
  destruct (bool_decide (kind e = "advance")).
  { unfold on_advance. destruct (target_identity b e) as [t d] eqn:E. destruct (dict_get t (items b)); [|by apply kept_same].
    case_bool_decide; [|by apply kept_same]. apply kept_set. by eapply unnamed_target. }
  destruct (bool_decide (kind e = "restate")).
  { unfold on_restate. destruct (target_identity b e) as [t d] eqn:E. destruct (dict_get t (items b)); [|by apply kept_same].
    apply kept_set. by eapply unnamed_target. }
  destruct (bool_decide (kind e = "block")).
  { unfold on_block. destruct (target_identity b e) as [t d] eqn:E. destruct (dict_get t (items b)); [|by apply kept_same].
    apply unnamed_target in E. case_match; [eapply kept_trans; [by apply kept_set|apply kept_atomic]|].
    case_bool_decide; [|by apply kept_set]. eapply kept_trans; [by apply kept_set|by apply kept_same]. }
  destruct (bool_decide (kind e = "complete") || _).
  { unfold on_close. destruct (target_identity b e) as [t d] eqn:E. destruct (dict_get t (items b)); [|by apply kept_same].
    apply unnamed_target in E. eapply kept_trans; [by apply kept_close|apply kept_atomic]. }
  destruct (bool_decide (kind e = ADOPTION_KIND)).
  { apply kept_adopt. }
  destruct (bool_decide (kind e = IDLE_KIND)); [apply kept_idle|apply kept_refl].
Qed.
End Kept.

(** ** Properties *)

(** The board is consistent whatever the ledger holds.  Every projection
    keeps open items under distinct identities, open and closed items apart and
    together exactly the known ones, the waiting focus on an open item that
    waits or is blocked, and never idle and waiting at once. *)
Theorem projection_consistent doc : board_ok (project_workboard doc).
Proof. apply project_ok. Qed.

(** C21. Closing is for ever.  Once an item is completed, archived or dropped,
    no later record of the ledger, valid or not, opens it again. *)
Theorem closed_forever rs rs' id :
  id ∈ terminal_work_ids (project_from 0 rs empty_board) →
  id ∈ terminal_work_ids (project_from 0 (rs ++ rs') empty_board) ∧
  dict_get id (items (project_from 0 (rs ++ rs') empty_board)) = None.
Proof.
  intros Hid. rewrite project_app. set (b := project_from 0 rs empty_board) in *.
  assert (Hb : board_ok b) by apply project_evolves, empty_board_ok.
  destruct (project_evolves rs' (0 + Z.of_nat (length rs)) b Hb) as [Hb' [Ht _]].
  apply Ht in Hid. split; [done|]. destruct (dict_get id _) as [i|] eqn:Hg; [|done].
  exfalso. apply (ok_apart _ Hb' id); [|done]. apply dict_get_key. eauto.
Qed.

(** The validator is exact.  The focus rules find nothing wrong with a
    projected board exactly when it has one focus (one active item with a literal
    next action, declared idleness, or one open item waited for) and every open
    item says how to resume it. *)
Theorem focus_rules_exact doc :
  let b := project_workboard doc in focus_issues b = [] ↔ focus b ∧ actions_present b.
Proof. apply focus_rules_spec. Qed.

(** An event touches what it names.  Whatever an event does to a board, an
    open item whose identity it does not name stays open with its summary, its
    reason and its resume action, and at most loses the focus to the queue. *)
Theorem unnamed_items_kept e index b id i :
  id ∉ named e → dict_get id (items b) = Some i →
  ∃ j, dict_get id (items (apply_event e index b)) = Some j ∧ same_work i j.
Proof.
  intros Hn. revert i. change (kept id b (apply_event e index b)). unfold apply_event.
  destruct (negb _); [by apply kept_same|]. case_bool_decide; [by apply kept_same|].
  eapply kept_trans; [|by apply kept_kind]. by apply kept_same.
Qed.

(** ** A concrete trail of events *)

Module Trail.
Definition id1 : string := "W-0123456789abcdef0123456789abcdef".
Definition id2 : string := "W-1123456789abcdef0123456789abcdef".
Definition event (n : Z) (kind : string) (given : facts) : WorkEvent :=
  {| event_id := "EV-" +:+ str_of_int n; at_ := "2026-08-27T00:00:00Z"; kind := kind; fields := given; line_number := n |}.
Definition start : WorkEvent :=
  event 1 "start" [("work_id", id1); ("alias", "CASE-1"); ("summary", "do"); ("why", "asked"); ("next_action", "run")].
Definition queue : WorkEvent :=
  event 2 "queue" [("work_id", id2); ("alias", "CASE-2"); ("summary", "later"); ("why", "asked"); ("resume_action", "begin")].
Definition complete : WorkEvent := event 3 "complete" [("work_id", id1); ("successor_work_id", id2); ("next_action", "go")].
Definition trail : list record := map Event [start; queue; complete].
Definition board : Board := project_from 0 trail empty_board.
End Trail.

Example trail_switches :
  active_work_id Trail.board = Some Trail.id2 ∧ next_action Trail.board = Some "go" ∧ transition_issues Trail.board = [].
Proof. vm_compute. auto. Qed.

Lemma closed_forever_witness :
  Trail.id1 ∈ terminal_work_ids (project_from 0 (Trail.trail ++ [Event Trail.start]) empty_board) ∧
  dict_get Trail.id1 (items (project_from 0 (Trail.trail ++ [Event Trail.start]) empty_board)) = None.
Proof. apply (closed_forever Trail.trail [Event Trail.start] Trail.id1). by_decide. Defined.

Lemma legacy_apart a id : startswith id "W" = true → _legacy_work_id a ≠ id.
Proof. intros [t ->]%startswith_app. unfold _legacy_work_id. rewrite !str_app_cons. discriminate. Qed.

Lemma start_names_not : Trail.id2 ∉ named Trail.start.
Proof.
  unfold named. rewrite elem_of_app, !list_elem_of_fmap. intros [(k & Hk & Hin)|(k & Hk & _)].
  - revert Hk. apply (bool_decide_eq_true_1 (Trail.id2 ≠ field k Trail.start)). revert k Hin.
    apply Forall_forall, (bool_decide_unpack _). by vm_compute.
  - symmetry in Hk. by apply legacy_apart in Hk.
Qed.

Lemma unnamed_items_kept_witness :
  ∃ i j, dict_get Trail.id2 (items (apply_event Trail.start 3 Trail.board)) = Some j ∧ same_work i j.
Proof.
  destruct (dict_get Trail.id2 (items Trail.board)) as [i|] eqn:E; [|by vm_compute in E]. exists i.
  exact (unnamed_items_kept Trail.start 3 Trail.board Trail.id2 i start_names_not E).
Defined.
