(* ===== verification/WorkboardAppend.v ===== *)
(** * The workboard: appending

    A formatted event reads back as itself; an accepted append adds exactly one
    record and its effect; and a ledger built by appends is valid.  The line a
    writer adds must stay one line, so the facts are assumed free of line
    boundaries: an event with one is refused (see the examples). *)
From S2P Require Import Prelude Regex Sha256 Json PyText JsonProps PyTime Shlex Workboard WorkboardProps.

#[local] Open Scope Z_scope.

(** ** Lines *)

(** The text is empty or ends with a newline. *)
Definition lf_ended (s : string) : Prop := s = "" ∨ ∃ t, s = snoc t LF.

Lemma splitlines_break s t :
  splitlines (s +:+ String LF t) = splitlines (s +:+ String LF "") ++ splitlines t.
Proof.
  enough (∀ n s, (String.length s ≤ n)%nat →
    splitlines (s +:+ String LF t) = splitlines (s +:+ String LF "") ++ splitlines t) as H by by eapply H.
  assert (Hlf : ∀ u, splitlines (String LF u) = "" :: splitlines u).
  { intros u. cbn. destruct u as [|d u]; [done|]. by destruct (decide _) as [[? _]|]. }
  clear s. induction n as [|n IH]; intros [|c s] Hn; cbn in Hn; try lia;
    rewrite ?str_app_nil_l, ?str_app_cons; try (by rewrite !Hlf).
  cbn [splitlines]. destruct (is_break c) eqn:Hc.
  - destruct s as [|d s]; rewrite ?str_app_nil_l, ?str_app_cons.
    + case_decide; [done|]. by rewrite !Hlf.
    + cbn in Hn. case_decide; cbn [app]; f_equal; [by apply IH; lia|].
      rewrite <- !str_app_cons. apply IH. cbn. lia.
  - rewrite (IH s) by lia. destruct (splitlines (s +:+ String LF "")) eqn:E; [|done].
    exfalso. destruct s as [|d s]; [done|]. rewrite str_app_cons in E. cbn [splitlines] in E.
    destruct (is_break d); [destruct (s +:+ String LF ""); [done|by destruct (decide _)]|].
    by destruct (splitlines (s +:+ String LF "")).
Qed.

Lemma splitlines_ended s t : lf_ended s → splitlines (s +:+ t) = splitlines s ++ splitlines t.
Proof.
  intros [->|[u ->]]; [by rewrite str_app_nil_l|]. unfold snoc. rewrite str_app_assoc, str_app_cons, str_app_nil_l.
  apply splitlines_break.
Qed.

Lemma splitlines_line l : one_line l = true → splitlines (snoc l LF) = [l].
Proof. intros H. unfold snoc. by rewrite splitlines_LF. Qed.

Lemma one_line_app s t : one_line (s +:+ t) = one_line s && one_line t.
Proof. apply str_forallb_app. Qed.

Lemma one_line_join ls : Forall (λ s, one_line s = true) ls → one_line (py_join " " ls) = true.
Proof.
  induction 1 as [|s ls Hs Hls IH]; [done|]. destruct ls as [|s' ls]; [done|].
  rewrite py_join_cons, !one_line_app, Hs, IH by done. done.
Qed.

Lemma escape_one_line s : one_line s = true → one_line (escape_quotes s) = true.
Proof.
  unfold one_line. induction s as [|c s IH]; [done|]. cbn. intros [Hc Hs]%andb_true_iff.
  case_decide; cbn; rewrite IH by done; [done|]. by rewrite Hc.
Qed.

Lemma quote_one_line s : one_line s = true → one_line (shlex_quote s) = true.
Proof.
  intros H. unfold shlex_quote. case_bool_decide; [done|]. case_match; [done|].
  change (String single_quote (escape_quotes s +:+ String single_quote "")) with
    (String single_quote "" +:+ (escape_quotes s +:+ String single_quote "")).
  rewrite !one_line_app, escape_one_line by done. done.
Qed.

(** ** Keys *)

Definition ident_char (c : ascii) : bool := is_alnum c || bool_decide (c = "_"%char).
(** A key as the fields of the schema are spelt. *)
Definition identifier (k : string) : bool := negb (bool_decide (k = "")) && str_forallb ident_char k.

Lemma ident_char_safe c : ident_char c = true →
  shell_safe c = true ∧ c ≠ "="%char ∧ py_isspace c = false ∧ is_break c = false.
Proof. destruct c as [[] [] [] [] [] [] [] []]; vm_compute; intros; split_and!; congruence. Qed.

Lemma identifier_plain k : identifier k = true → plain_key k = true.
Proof.
  unfold identifier, plain_key. intros H. bool_inv. rewrite bool_decide_eq_false_2 by done. cbn.
  apply (str_forallb_impl ident_char); [|done]. by intros c (? & _)%ident_char_safe.
Qed.

Lemma identifier_one_line k : identifier k = true → one_line k = true.
Proof.
  unfold identifier. intros [_ H]%andb_true_iff. apply (str_forallb_impl ident_char); [|done].
  intros c (_ & _ & _ & ->)%ident_char_safe. done.
Qed.

Lemma partition_assignment kv : identifier kv.1 = true → partition "=" (bare_assignment kv) = (kv.1, true, kv.2).
Proof.
  destruct kv as [k v]. unfold identifier, bare_assignment. cbn [fst snd]. intros [_ H]%andb_true_iff.
  induction k as [|c k IH]; [done|]. cbn in H. bool_inv. rewrite str_app_cons. cbn [partition].
  destruct (ident_char_safe c) as (_ & Hc & _); [done|]. rewrite decide_False by done.
  by rewrite IH.
Qed.

(** ** An event reads back *)

Lemma facts_read n kvs values :
  Forall (λ kv, identifier kv.1 = true) kvs → NoDup (values.*1 ++ kvs.*1) →
  event_facts n (map bare_assignment kvs) values = (values ++ kvs, []).
Proof.
  intros Hk. revert values. induction Hk as [|[k v] kvs Hk Hks IH]; intros values Hnd; [by rewrite app_nil_r|].
  cbn [map event_facts]. rewrite partition_assignment by done. cbn [fst snd negb orb].
  rewrite bool_decide_eq_false_2 by (intros E; cbn in Hk; by rewrite E in Hk).
  cbn [fmap list_fmap fst] in Hnd. assert (Hnew : k ∉ values.*1) by (apply NoDup_app in Hnd; set_solver).
  unfold dict_has. destruct (dict_get k values) eqn:Hg; [destruct Hnew; apply dict_get_key; eauto|].
  rewrite dict_set_fresh by done. rewrite IH; [by rewrite <- app_assoc|].
  rewrite fmap_app, <- app_assoc. done.
Qed.

Lemma rstrip_snoc p s c : p c = false → rstrip_by p (snoc s c) = snoc s c.
Proof.
  intros Hc. unfold snoc. induction s as [|d s IH]; [rewrite str_app_nil_l; cbn; by rewrite Hc|].
  rewrite str_app_cons. cbn [rstrip_by]. rewrite IH. by destruct s.
Qed.

Lemma safe_not_space c : shell_safe c = true → py_isspace c = false.
Proof. destruct c as [[] [] [] [] [] [] [] []]; vm_compute; congruence. Qed.

Lemma str_snoc s : s ≠ "" → ∃ t c, s = snoc t c.
Proof.
  induction s as [|c s IH]; [done|]. intros _. destruct (decide (s = "")) as [->|Hs]; [by exists "", c|].
  destruct (IH Hs) as (t & d & ->). exists (String c t), d. done.
Qed.

Lemma quote_end v : ∃ t c, shlex_quote v = snoc t c ∧ py_isspace c = false.
Proof.
  unfold shlex_quote. case_bool_decide as Hv; [by exists (String single_quote ""), single_quote|].
  destruct (str_forallb shell_safe v) eqn:Hs.
  - destruct (str_snoc v Hv) as (t & c & ->). exists t, c. split; [done|]. apply safe_not_space.
    unfold snoc in Hs. rewrite str_forallb_app in Hs. cbn in Hs. by bool_inv.
  - by exists (String single_quote (escape_quotes v)), single_quote.
Qed.

Lemma joined_end kvs : kvs ≠ [] → ∃ t c, py_join " " (map assignment kvs) = snoc t c ∧ py_isspace c = false.
Proof.
  induction kvs as [|kv kvs IH]; [done|]. intros _. destruct kvs as [|kv' kvs].
  - destruct (quote_end kv.2) as (t & c & E & Hc). exists (kv.1 +:+ "=" +:+ t), c. split; [|done].
    cbn. unfold assignment. rewrite E. unfold snoc. by rewrite !str_app_assoc.
  - destruct IH as (t & c & E & Hc); [done|]. change (map assignment (kv :: kv' :: kvs)) with (assignment kv :: map assignment (kv' :: kvs)).
    rewrite py_join_cons, E by done. exists (assignment kv +:+ " " +:+ t), c. split; [|done].
    unfold snoc. by rewrite !str_app_assoc.
Qed.

Lemma strip_joined kvs :
  kvs ≠ [] → Forall (λ kv, identifier kv.1 = true) kvs →
  py_strip (" " +:+ py_join " " (map assignment kvs)) = py_join " " (map assignment kvs).
Proof.
  intros Hne Hk. destruct (joined_end kvs Hne) as (t & c & E & Hc). unfold py_strip. rewrite str_app_cons, str_app_nil_l.
  cbn [lstrip_by]. change (py_isspace " ") with true. cbn iota.
  assert (Hl : lstrip_by py_isspace (py_join " " (map assignment kvs)) = py_join " " (map assignment kvs)).
  { destruct kvs as [|[k v] kvs]; [done|]. apply Forall_cons in Hk as [Hk _]. unfold identifier in Hk. cbn in Hk. bool_inv.
    destruct k as [|d k]; [done|]. cbn in H0. bool_inv. destruct (ident_char_safe d) as (_ & _ & Hd & _); [done|].
    assert (Hh : ∃ u, py_join " " (map assignment ((String d k, v) :: kvs)) = String d u) by (destruct kvs; eexists; done).
    destruct Hh as [u ->]. cbn [lstrip_by]. by rewrite Hd. }
  rewrite Hl, E. by apply rstrip_snoc.
Qed.

Lemma line_tokens n values :
  values ≠ [] → Forall (λ kv, identifier kv.1 = true) values →
  _parse_event_line (event_text values) n = event_of_tokens n (map bare_assignment values).
Proof.
  intros Hne Hk. unfold _parse_event_line, event_text. rewrite str_drop_app, strip_joined by done.
  rewrite split_assignments; [done|]. eapply Forall_impl; [exact Hk|]. intros kv. apply identifier_plain.
Qed.

Lemma values_fresh k id at_ given :
  NoDup given.*1 → (∀ x, x ∈ COMMON → x ∉ given.*1) →
  event_values k id at_ given = [("event_id", id); ("at", at_); ("kind", k)] ++ given.
Proof.
  intros Hnd Hc. unfold event_values, dict_update.
  enough (∀ d, NoDup (d.*1 ++ given.*1) → fold_left (λ d kv, dict_set kv.1 kv.2 d) given d = d ++ given) as H.
  { apply H. change (NoDup (COMMON ++ given.*1)). apply NoDup_app. split_and!; [|done|done].
    apply (bool_decide_unpack (NoDup COMMON)). by vm_compute. }
  clear Hc. induction given as [|[j v] given IH]; intros d Hd; [by rewrite app_nil_r|]. cbn [fold_left fst snd].
  cbn [fmap list_fmap fst] in Hd, Hnd. apply NoDup_cons in Hnd as [_ Hnd].
  rewrite dict_set_fresh by (apply NoDup_app in Hd as (_ & Hd & _); intros Hj; apply (Hd j Hj); by left). rewrite IH; [by rewrite <- app_assoc|done|].
  by rewrite fmap_app, <- app_assoc.
Qed.

Lemma py_lower_idem s : py_lower (py_lower s) = py_lower s.
Proof. induction s as [|c s IH]; [done|]. cbn. rewrite IH. f_equal. destruct c as [[] [] [] [] [] [] [] []]; vm_compute; reflexivity. Qed.

(** What Python's keyword arguments are: distinct identifiers, none of them a
    common fact. *)
Record keywords (given : facts) : Prop := {
  kw_nodup : NoDup given.*1;
  kw_ident : Forall (λ k, identifier k = true) given.*1;
  kw_apart : ∀ k, k ∈ COMMON → k ∉ given.*1
}.

Lemma values_plain k id at_ given : keywords given →
  event_values k id at_ given = [("event_id", id); ("at", at_); ("kind", k)] ++ given ∧
  Forall (λ kv, identifier kv.1 = true) (event_values k id at_ given) ∧ NoDup (event_values k id at_ given).*1.
Proof.
  intros [Hnd Hi Hc]. rewrite values_fresh by done. split; [done|]. split.
  - repeat (constructor; [by vm_compute|]). by apply Forall_fmap in Hi.
  - change (NoDup (COMMON ++ given.*1)). apply NoDup_app. split_and!; [|done|done].
    apply (bool_decide_unpack (NoDup COMMON)). by vm_compute.
Qed.

Lemma filter_given (given : facts) : (∀ k, k ∈ COMMON → k ∉ given.*1) →
  List.filter (λ kv : string * string, negb (bool_decide (kv.1 ∈ COMMON))) given = given.
Proof.
  induction given as [|kv given IH]; [done|]. intros H. cbn. rewrite bool_decide_eq_false_2; [|intros Hk; apply (H _ Hk); by left].
  cbn. f_equal. apply IH. intros k Hk Hin. apply (H k Hk). by right.
Qed.

(** The tokens of a formatted line, read at any line of a ledger. *)
Lemma formatted_tokens k id at_ given n : keywords given →
  event_of_tokens n (map bare_assignment (event_values k id at_ given)) =
    let common := [("event_id", id); ("at", at_); ("kind", k)] in
    let missing := (List.filter (λ kv : string * string, blank kv.2) common).*1 in
    if negb (bool_decide (missing = [])) then
      (None, [line_issue n ("event is missing common fact(s): " +:+ py_join ", " missing)])
    else (Some {| event_id := id; at_ := at_; kind := py_lower k; fields := given; line_number := n |}, []).
Proof.
  intros Hk. destruct (values_plain k id at_ given Hk) as (E & Hi & Hnd). unfold event_of_tokens.
  rewrite facts_read by done. cbn [app]. rewrite E. destruct Hk as [_ _ Hc].
  set (l := [("event_id", id); ("at", at_); ("kind", k)] ++ given).
  assert (G1 : dict_get "event_id" l = Some id) by reflexivity.
  assert (G2 : dict_get "at" l = Some at_) by reflexivity.
  assert (G3 : dict_get "kind" l = Some k) by reflexivity.
  assert (Hl : List.filter (λ kv : string * string, negb (bool_decide (kv.1 ∈ COMMON))) l = given).
  { unfold l. rewrite List.filter_app, (filter_given given) by done. reflexivity. }
  rewrite Hl. unfold COMMON. cbn [List.filter]. rewrite !G1, !G2, !G3. cbn [default from_option Datatypes.id].
  cbn [List.filter snd]. destruct (blank id), (blank at_), (blank k); reflexivity.
Qed.

Lemma format_event_spec k id at_ given line n :
  keywords given → format_event k id at_ given = Ok line →
  let e := {| event_id := id; at_ := at_; kind := py_lower k; fields := given; line_number := n |} in
  _parse_event_line line n = (Some e, []) ∧ _event_schema_issues e = [].
Proof.
  intros Hk Hf e. unfold format_event in Hf. apply bind_Ok in Hf as (_ & _ & Hf).
  destruct (values_plain (py_lower k) id at_ given Hk) as (E & Hi & _).
  assert (Hne : event_values (py_lower k) id at_ given ≠ []) by (by rewrite E).
  rewrite line_tokens, formatted_tokens in Hf by done. rewrite py_lower_idem in Hf. cbv zeta in Hf.
  destruct (negb (bool_decide _)) eqn:Hm; [done|].
  apply bind_Ok in Hf as (_ & Hs%raise_if_Ok%negb_false_iff%bool_decide_eq_true & [= <-]).
  rewrite line_tokens, formatted_tokens by done. cbv zeta. rewrite Hm, py_lower_idem. split; [done|].
  cbn [app] in Hs. unfold _event_schema_issues in *. apply map_eq_nil in Hs. by rewrite (Hs : schema_complaints e = []).
Qed.

(** ** The facts an append writes *)

Definition ID_KEYS : list string := ALIAS_KEYS ++ WORK_ID_KEYS.

(** Only identities are resolved; the texts stay as given. *)
Record same_texts (given given' : facts) : Prop := {
  texts_nodup : NoDup given'.*1;
  texts_keys : ∀ k, k ∈ given'.*1 → k ∈ given.*1 ∨ k ∈ ID_KEYS;
  texts_same : ∀ k, k ∉ ID_KEYS → dict_get k given' = dict_get k given
}.

Lemma same_texts_refl given : NoDup given.*1 → same_texts given given.
Proof. constructor; auto. Qed.

Lemma same_texts_set given given' k v : k ∈ ID_KEYS → same_texts given given' → same_texts given (dict_set k v given').
Proof.
  intros Hk [Hnd Hkeys Hs]. constructor; [by apply dict_set_nodup| |].
  - intros x. rewrite dict_set_keys. case_decide; [auto|]. rewrite elem_of_app, list_elem_of_singleton.
    intros [?| ->]; auto.
  - intros x Hx. rewrite dict_get_set, decide_False; [auto|]. by intros ->.
Qed.

Lemma same_texts_del given given' k : k ∈ ID_KEYS → same_texts given given' → same_texts given (dict_del k given').
Proof.
  intros Hk [Hnd Hkeys Hs]. constructor.
  - eapply sublist_NoDup; [exact Hnd|]. apply fmap_sublist, dict_del_sublist.
  - intros x [Hx _]%dict_del_keys. auto.
  - intros x Hx. rewrite dict_get_del; [auto|]. by intros ->.
Qed.

Lemma resolve_texts b ak wk given g g' :
  ak ∈ ID_KEYS → wk ∈ ID_KEYS → same_texts given g → resolve_alias b ak wk g = Ok g' → same_texts given g'.
Proof.
  intros Ha Hw Hs. unfold resolve_alias. destruct (dict_get ak g) as [a|]; [|by intros [= <-]].
  intros ([id|] & _ & [= <-])%bind_Ok; [|done]. case_match; [|done]. by apply same_texts_set, same_texts_del.
Qed.

Lemma focus_texts b given g g' : same_texts given g → resolve_focus b g = Ok g' → same_texts given g'.
Proof.
  unfold resolve_focus, resolve_related. intros Hs (g1 & (_ & _ & H1)%bind_Ok & (_ & _ & H2)%bind_Ok)%bind_Ok.
  eapply resolve_texts; [| |eapply resolve_texts; [| |exact Hs|exact H1]|exact H2]; by_decide.
Qed.

Lemma work_id_texts draws declared given g g' : same_texts given g → with_work_id draws declared g = Ok g' → same_texts given g'.
Proof.
  unfold with_work_id. intros Hs. destruct (dict_has "work_id" g); [by intros [= <-]|].
  intros (id & _ & [= <-])%bind_Ok. apply same_texts_set; [by_decide|done].
Qed.

Lemma normalize_texts draws k given doc b given' :
  NoDup given.*1 → _normalize_append_facts draws k given doc b = Ok given' → same_texts given given'.
Proof.
  intros Hnd. apply same_texts_refl in Hnd as Hs. unfold _normalize_append_facts.
  destruct (bool_decide (k ∈ ["start"; "queue"])).
  - intros (_ & _ & (_ & _ & H)%bind_Ok)%bind_Ok. eapply work_id_texts, H.
    repeat case_match; try (apply same_texts_set; [by_decide|]); (apply same_texts_del; [by_decide|done]).
  - destruct (bool_decide (k = ADOPTION_KIND)).
    + destruct (List.find _ _) as [src|]; [|done]. intros (_ & _ & H)%bind_Ok. eapply work_id_texts, H.
      destruct (match truthy_str _ with Some _ => _ | None => _ end);
        [apply same_texts_set|apply same_texts_del]; (by_decide || done).
    + destruct (bool_decide (k ∈ TARGETING)).
      * intros (_ & _ & (g & H1 & H2)%bind_Ok)%bind_Ok. eapply focus_texts, H2.
        eapply resolve_texts; [| |exact Hs|exact H1]; by_decide.
      * destruct (bool_decide (k = "fold")); [intros H; eapply resolve_texts; [| |exact Hs|exact H]; by_decide|].
        destruct (bool_decide (k = "drop")); [|by intros [= <-]].
        intros (g & H1 & H2)%bind_Ok. eapply focus_texts, H2. eapply resolve_texts; [| |exact Hs|exact H1]; by_decide.
Qed.

(** ** The identities an append writes *)

(** The alias names one open item, and that is its work id. *)
Definition names_open (b : Board) (a id : string) : Prop :=
  ∃ i, i ∈ open_items b ∧ alias i = a ∧ work_id i = id ∧ ∀ j, j ∈ open_items b → alias j = a → j = i.

(** An alias and the work id beside it: the alias of one open item with an
    opaque id gives way to that id; the alias of no open item, or of one with a
    legacy id, stays as it is. *)
Inductive resolved (b : Board) (ak wk : string) (given given' : facts) : Prop :=
  | resolved_opaque a id :
      dict_get ak given = Some a → names_open b a id → fullmatch _WORK_ID_RE id = true →
      dict_get ak given' = None → dict_get wk given' = Some id → resolved b ak wk given given'
  | resolved_same :
      (∀ a, dict_get ak given = Some a →
         (∀ i, i ∈ open_items b → alias i ≠ a) ∨ ∃ id, names_open b a id ∧ fullmatch _WORK_ID_RE id = false) →
      dict_get ak given' = dict_get ak given → dict_get wk given' = dict_get wk given → resolved b ak wk given given'.

Definition kept (keys : list string) (given given' : facts) : Prop := ∀ k, k ∈ keys → dict_get k given' = dict_get k given.

(** The work id of an opening: the one given, or a token no item and no event
    has borne. *)
Definition opened (doc : WorkboardDocument) (b : Board) (draws : list string) (given given' : facts) : Prop :=
  match dict_get "work_id" given with
  | Some id => dict_get "work_id" given' = Some id
  | None => ∃ hex, hex ∈ draws ∧ dict_get "work_id" given' = Some ("W-" +:+ hex) ∧ "W-" +:+ hex ∉ _declared_work_ids doc b
  end.

(** Every identity of the event of [kind], from those given. *)
Definition identified (doc : WorkboardDocument) (b : Board) (draws : list string) (kind : string) (given given' : facts) : Prop :=
  if decide (kind ∈ ["start"; "queue"]) then
    dict_get "item_id" given' = None ∧
    dict_get "alias" given' = match dict_get "alias" given with Some a => Some a | None => dict_get "item_id" given end ∧
    (∀ a, dict_get "alias" given' = Some a → ∀ i, i ∈ open_items b → alias i ≠ a) ∧ opened doc b draws given given' ∧
    kept ["request_id"; "target_id"; "successor_id"; "waiting_id"; "target_work_id"; "successor_work_id"; "waiting_work_id"] given given'
  else if decide (kind = ADOPTION_KIND) then
    (∃ source, source ∈ events_of doc ∧ dict_get "source_event_id" given = Some (event_id source) ∧
       Workboard.kind source ∈ ["start"; "queue"] ∧
       dict_get "alias" given' = match truthy_str (fact "alias" source) with Some a => Some a | None => fact "item_id" source end) ∧
    opened doc b draws given given' ∧
    kept ["item_id"; "request_id"; "target_id"; "successor_id"; "waiting_id"; "target_work_id"; "successor_work_id"; "waiting_work_id"]
      given given'
  else if decide (kind ∈ TARGETING) then
    resolved b "item_id" "work_id" given given' ∧ resolved b "successor_id" "successor_work_id" given given' ∧
    resolved b "waiting_id" "waiting_work_id" given given' ∧
    kept ["request_id"; "target_id"; "alias"; "target_work_id"] given given'
  else if decide (kind = "fold") then
    resolved b "target_id" "target_work_id" given given' ∧
    kept ["item_id"; "request_id"; "successor_id"; "waiting_id"; "alias"; "work_id"; "successor_work_id"; "waiting_work_id"] given given'
  else if decide (kind = "drop") then
    resolved b "request_id" "work_id" given given' ∧ resolved b "successor_id" "successor_work_id" given given' ∧
    resolved b "waiting_id" "waiting_work_id" given given' ∧
    kept ["item_id"; "target_id"; "alias"; "target_work_id"] given given'
  else kept ID_KEYS given given'.

Lemma open_alias_Ok b a r : _open_work_id_for_alias b a = Ok r →
  match r with Some id => names_open b a id | None => ∀ i, i ∈ open_items b → alias i ≠ a end.
Proof.
  unfold _open_work_id_for_alias.
  assert (Hin : ∀ i, i ∈ List.filter (λ i, bool_decide (alias i = a)) (open_items b) ↔ i ∈ open_items b ∧ alias i = a).
  { intros i. by rewrite elem_of_filter_list, bool_decide_eq_true. }
  destruct (List.filter _ (open_items b)) as [|i [|j l]]; intros [= <-].
  - intros i Hi Ha. apply (not_elem_of_nil i). by apply Hin.
  - exists i. destruct (proj1 (Hin i)) as [? ?]; [by left|]. split_and!; [done..|].
    intros j Hj Ha. by apply list_elem_of_singleton, Hin.
Qed.

Lemma dict_get_deleted {A} k (d : list (string * A)) : dict_get k (dict_del k d) = None.
Proof.
  destruct (dict_get k (dict_del k d)) eqn:E; [|done]. exfalso.
  assert (Hin : k ∈ (dict_del k d).*1) by (apply dict_get_key; by eexists). by apply dict_del_keys in Hin as [_ ?].
Qed.

Lemma resolve_alias_Ok b ak wk given given' : ak ≠ wk → resolve_alias b ak wk given = Ok given' →
  resolved b ak wk given given' ∧ ∀ k, k ≠ ak → k ≠ wk → dict_get k given' = dict_get k given.
Proof.
  intros Hne. unfold resolve_alias. destruct (dict_get ak given) as [a|] eqn:Ha;
    [|intros [= <-]; split; [by apply resolved_same; [intros ?; rewrite Ha|..]|done]].
  intros (r & Hr%open_alias_Ok & [= H])%bind_Ok. destruct r as [id|].
  - destruct (fullmatch _WORK_ID_RE id) eqn:Hid; subst given'.
    + split.
      * apply (resolved_opaque _ _ _ _ _ a id); try done; rewrite dict_get_set; [|by rewrite decide_True].
        rewrite decide_False by done. apply dict_get_deleted.
      * intros k Hk Hk'. rewrite dict_get_set, decide_False by done. by apply dict_get_del.
    + split; [|done]. apply resolved_same; [|done..]. intros a'. rewrite Ha. intros [= <-]. right. eauto.
  - subst given'. split; [|done]. apply resolved_same; [|done..]. intros a'. rewrite Ha. intros [= <-]. by left.
Qed.

(** The pair is untouched by what changes other facts. *)
Lemma resolved_frame b ak wk g1 g2 g1' g2' :
  resolved b ak wk g1 g2 → kept [ak; wk] g1 g1' → kept [ak; wk] g2 g2' → resolved b ak wk g1' g2'.
Proof.
  intros H H1 H2. assert (Hk : ak ∈ [ak; wk] ∧ wk ∈ [ak; wk]) by set_solver. destruct Hk as [Ha Hw].
  pose proof (H1 _ Ha) as Ha1. pose proof (H1 _ Hw) as Hw1. pose proof (H2 _ Ha) as Ha2. pose proof (H2 _ Hw) as Hw2.
  destruct H as [a id ? ? ? ? ?|Hs ? ?]; [apply (resolved_opaque _ _ _ _ _ a id); try done; congruence|].
  apply resolved_same; [|congruence..]. intros a. rewrite Ha1. apply Hs.
Qed.

(** A chain of resolutions, each of its own pair. *)
Lemma resolve_focus_Ok b given given' : resolve_focus b given = Ok given' →
  resolved b "successor_id" "successor_work_id" given given' ∧ resolved b "waiting_id" "waiting_work_id" given given' ∧
  ∀ k, k ∉ ["successor_id"; "successor_work_id"; "waiting_id"; "waiting_work_id"] → dict_get k given' = dict_get k given.
Proof.
  unfold resolve_focus, resolve_related. intros (g & (_ & _ & H1)%bind_Ok & (_ & _ & H2)%bind_Ok)%bind_Ok.
  apply resolve_alias_Ok in H1 as [H1 K1]; [|done]. apply resolve_alias_Ok in H2 as [H2 K2]; [|done]. split_and!.
  - eapply resolved_frame; [exact H1|done|]. intros k Hk. apply K2; set_solver.
  - eapply resolved_frame; [exact H2| |done]. intros k Hk. symmetry. apply K1; set_solver.
  - intros k Hk. rewrite K2, K1 by set_solver. done.
Qed.

Lemma target_focus_Ok b ak wk given g given' : ak ≠ wk → ak ∉ ["successor_id"; "successor_work_id"; "waiting_id"; "waiting_work_id"] →
  wk ∉ ["successor_id"; "successor_work_id"; "waiting_id"; "waiting_work_id"] →
  resolve_alias b ak wk given = Ok g → resolve_focus b g = Ok given' →
  resolved b ak wk given given' ∧ resolved b "successor_id" "successor_work_id" given given' ∧
  resolved b "waiting_id" "waiting_work_id" given given' ∧
  ∀ k, k ∉ [ak; wk; "successor_id"; "successor_work_id"; "waiting_id"; "waiting_work_id"] → dict_get k given' = dict_get k given.
Proof.
  intros Hne Ha Hw [H1 K1]%resolve_alias_Ok (H2 & H3 & K2)%resolve_focus_Ok; [|done]. split_and!.
  - eapply resolved_frame; [exact H1|done|]. intros k Hk. apply K2. set_solver.
  - eapply resolved_frame; [exact H2| |done]. intros k Hk. symmetry. apply K1; set_solver.
  - eapply resolved_frame; [exact H3| |done]. intros k Hk. symmetry. apply K1; set_solver.
  - intros k Hk. rewrite K2, K1 by set_solver. done.
Qed.

Lemma with_work_id_Ok draws doc b given given' : with_work_id draws (_declared_work_ids doc b) given = Ok given' →
  opened doc b draws given given' ∧ ∀ k, k ≠ "work_id" → dict_get k given' = dict_get k given.
Proof.
  unfold with_work_id, opened, dict_has. destruct (dict_get "work_id" given) as [id|] eqn:E; [by intros [= <-]|].
  intros (id & Hid & [= <-])%bind_Ok. unfold generate_work_id in Hid. destruct (List.find _ _) as [id'|] eqn:Hf; [|done].
  injection Hid as ->. apply find_some in Hf as [Hin Hfresh%bool_decide_eq_true].
  apply list_elem_of_In, list_elem_of_fmap in Hin as (hex & -> & Hhex). split.
  - exists hex. rewrite dict_get_set, decide_True by done. done.
  - intros k Hk. by rewrite dict_get_set, decide_False.
Qed.

(** The alias of an opening: the one given, or else the item id. *)
Lemma opening_alias (given : facts) (legacy := dict_get "item_id" given) (g := dict_del "item_id" given)
    (g' := match dict_get "alias" g, legacy with None, Some l => dict_set "alias" l g | _, _ => g end) :
  dict_get "item_id" g' = None ∧
  dict_get "alias" g' = match dict_get "alias" given with Some a => Some a | None => dict_get "item_id" given end ∧
  ∀ k, k ∉ ["item_id"; "alias"] → dict_get k g' = dict_get k given.
Proof.
  assert (Hg : ∀ k, k ≠ "item_id" → dict_get k g = dict_get k given) by (intros; by apply dict_get_del).
  assert (Hi : dict_get "item_id" g = None) by apply dict_get_deleted.
  subst g'. rewrite (Hg "alias") by done.
  destruct (dict_get "alias" given) as [a|] eqn:Ea; [|subst legacy; destruct (dict_get "item_id" given) as [l|] eqn:El].
  - split_and!; [done|by rewrite Hg|]. intros k Hk. apply Hg. set_solver.
  - rewrite !dict_get_set. split_and!; [done|done|]. intros k Hk. rewrite dict_get_set, decide_False by set_solver.
    apply Hg. set_solver.
  - split_and!; [done|by rewrite Hg|]. intros k Hk. apply Hg. set_solver.
Qed.

Lemma normalize_identified draws k given doc b given' :
  _normalize_append_facts draws k given doc b = Ok given' → identified doc b draws k given given'.
Proof.
  unfold _normalize_append_facts, identified. cbv zeta.
  destruct (decide (k ∈ ["start"; "queue"])) as [Hk|Hk]; [rewrite bool_decide_eq_true_2 by done|rewrite bool_decide_eq_false_2 by done].
  { intros (_ & _ & H)%bind_Ok. apply bind_Ok in H as ([] & Hal & H). destruct (opening_alias given) as (Hi & Ha & Hrest).
    set (g := match dict_get "alias" (dict_del "item_id" given), _ with None, Some l => _ | _, _ => _ end) in *.
    apply with_work_id_Ok in H as [Ho Hw]. split_and!.
    - by rewrite Hw.
    - by rewrite Hw.
    - intros a. rewrite Hw by done. intros Hg i Hin E. rewrite Hg in Hal. apply raise_if_Ok in Hal.
      apply not_true_iff_false in Hal. apply Hal, existsb_exists. exists i. split; [by apply list_elem_of_In|]. by apply bool_decide_eq_true_2.
    - unfold opened in *. by rewrite Hrest in Ho by by_decide.
    - intros x Hx. rewrite Hw by set_solver. apply Hrest. set_solver. }
  destruct (decide (k = ADOPTION_KIND)) as [->|Ha]; [rewrite bool_decide_eq_true_2 by done|rewrite bool_decide_eq_false_2 by done].
  { destruct (List.find _ (events_of doc)) as [src|] eqn:Hf; [|done]. apply find_some in Hf as [Hin Hp]. apply list_elem_of_In in Hin.
    intros (_ & _ & H)%bind_Ok. apply with_work_id_Ok in H as [Ho Hw]. bool_inv.
    set (sa := match truthy_str _ with Some _ => _ | None => _ end) in *.
    set (g := match sa with Some _ => _ | None => _ end) in *.
    assert (Hg : dict_get "alias" g = sa ∧ ∀ x, x ≠ "alias" → dict_get x g = dict_get x given).
    { subst g. destruct sa; [split; [by rewrite dict_get_set|]|split; [apply dict_get_deleted|]].
      - intros x Hx. by rewrite dict_get_set, decide_False.
      - intros x Hx. by apply dict_get_del. }
    destruct Hg as [Hga Hgx]. split_and!.
    - exists src. rewrite Hw by done. split_and!; done.
    - unfold opened in *. by rewrite Hgx in Ho.
    - intros x Hx. rewrite Hw, Hgx by set_solver. done. }
  destruct (decide (k ∈ TARGETING)) as [Ht|Ht]; [rewrite bool_decide_eq_true_2 by done|rewrite bool_decide_eq_false_2 by done].
  { intros (_ & _ & H)%bind_Ok. apply bind_Ok in H as (g & H1 & H2).
    destruct (target_focus_Ok b "item_id" "work_id" given g given') as (? & ? & ? & Hrest); [by_decide|by_decide|by_decide|done|done|].
    split_and!; [done..|]. intros x Hx. apply Hrest. set_solver. }
  destruct (decide (k = "fold")) as [->|Hf]; [rewrite bool_decide_eq_true_2 by done|rewrite bool_decide_eq_false_2 by done].
  { intros [H Hrest]%resolve_alias_Ok; [|done]. split; [done|]. intros x Hx. apply Hrest; set_solver. }
  destruct (decide (k = "drop")) as [->|Hd]; [rewrite bool_decide_eq_true_2 by done|rewrite bool_decide_eq_false_2 by done].
  { intros (g & H1 & H2)%bind_Ok.
    destruct (target_focus_Ok b "request_id" "work_id" given g given') as (? & ? & ? & Hrest); [by_decide|by_decide|by_decide|done|done|].
    split_and!; [done..|]. intros x Hx. apply Hrest. set_solver. }
  by intros [= <-].
Qed.

(** ** One line per event *)

Definition no_break : ascii → bool := λ c, negb (is_break c).

Lemma item_id_one_line v : fullmatch _ITEM_ID_RE v = true → one_line v = true.
Proof. apply (fullmatch_within _ no_break). by vm_compute. Qed.
Lemma work_id_one_line v : fullmatch _WORK_ID_RE v = true → one_line v = true.
Proof. apply (fullmatch_within _ no_break). by vm_compute. Qed.

Lemma schema_id_one_line e k v : schema_complaints e = [] → k ∈ ID_KEYS → fact k e = Some v → one_line v = true.
Proof.
  unfold schema_complaints. destruct (dict_get (kind e) _) as [variants|]; [|done]. cbv zeta.
  rewrite !app_nil. intros (_ & _ & _ & Ha & Hw & _) Hk Hv. rewrite concat_map_nil in Ha, Hw.
  destruct (decide (v = "")) as [->|Hne]; [done|].
  assert (Ht : truthy_str (fact k e) = Some v) by (rewrite Hv; by destruct v).
  unfold ID_KEYS in Hk. apply elem_of_app in Hk as [Hk|Hk].
  - specialize (Ha k Hk). cbv beta in Ha. rewrite Ht in Ha. destruct (valid_alias v) eqn:E; [|done].
    apply item_id_one_line. unfold valid_alias in E. by bool_inv.
  - specialize (Hw k Hk). cbv beta in Hw. rewrite Ht in Hw. destruct (fullmatch _WORK_ID_RE v) eqn:E; [|done].
    by apply work_id_one_line.
Qed.

Lemma schema_kind_one_line e : schema_complaints e = [] → one_line (kind e) = true.
Proof.
  unfold schema_complaints. destruct (dict_get (kind e) _) as [variants|] eqn:Hg; [|done]. intros _.
  assert (Hin : kind e ∈ _REQUIRED_FIELD_VARIANTS.*1) by (apply dict_get_key; eauto). revert Hin.
  generalize (kind e). apply Forall_forall, (bool_decide_unpack _). by vm_compute.
Qed.

Lemma event_text_one_line values :
  Forall (λ kv, identifier kv.1 = true) values → Forall (λ kv, one_line kv.2 = true) values →
  one_line (event_text values) = true.
Proof.
  intros Hk Hv. unfold event_text. rewrite !one_line_app, one_line_join; [done|].
  apply Forall_fmap. rewrite Forall_forall in Hk, Hv |- *. intros kv Hin. cbn. unfold assignment.
  rewrite !one_line_app, identifier_one_line, quote_one_line by auto. done.
Qed.

(** ** Ledgers line by line *)

Lemma parse_lines_app n l l' doc : parse_lines n (l ++ l') doc = parse_lines (n + Z.of_nat (length l)) l' (parse_lines n l doc).
Proof.
  revert n doc. induction l as [|s l IH]; intros n doc; cbn [app parse_lines length].
  - f_equal. lia.
  - rewrite IH. f_equal. lia.
Qed.

Lemma prefix_starts values : startswith (event_text values) event_prefix = true.
Proof. apply startswith_app. by eexists. Qed.

Lemma header_ended : lf_ended OPEN_WORK_HEADER.
Proof. right. exists (str_take (String.length OPEN_WORK_HEADER - 1) OPEN_WORK_HEADER). reflexivity. Qed.

(** The header is four lines without a record. *)
Lemma header_lines n : parse_lines n (splitlines OPEN_WORK_HEADER) empty_document = empty_document.
Proof. reflexivity. Qed.

Lemma header_count : length (splitlines OPEN_WORK_HEADER) = 4%nat.
Proof. reflexivity. Qed.

#[local] Opaque OPEN_WORK_HEADER.

Definition line_count (text : string) : Z := Z.of_nat (length (splitlines text)).

(** The number of the line an append adds. *)
Definition next_line (text : string) : Z := if bool_decide (text = "") then 5 else line_count text + 1.

Lemma appended_document text values :
  lf_ended text → one_line (event_text values) = true →
  _parse_workboard_text (text +:+ (if bool_decide (text = "") then OPEN_WORK_HEADER else "") +:+ snoc (event_text values) LF) =
  let '(event, issues) := _parse_event_line (event_text values) (next_line text) in
  add_line (_parse_workboard_text text) (match event with Some e => [Event e] | None => [] end, issues, true).
Proof.
  intros Ht Hl. unfold _parse_workboard_text, next_line, line_count. rewrite splitlines_ended by done. case_bool_decide as E.
  - subst text. rewrite splitlines_ended, splitlines_line by (exact header_ended || done).
    rewrite app_nil_l, parse_lines_app, header_lines, header_count. cbn [splitlines parse_lines]. unfold parse_line.
    rewrite prefix_starts. change (1 + Z.of_nat 4) with 5. by destruct (_parse_event_line _ _).
  - rewrite str_app_nil_l, splitlines_line, parse_lines_app by done. cbn [parse_lines]. unfold parse_line.
    rewrite prefix_starts. rewrite Z.add_comm. by destruct (_parse_event_line _ _).
Qed.

Lemma events_of_add doc e issues s :
  events_of (add_line doc ([Event e], issues, s)) = events_of doc ++ [e].
Proof. unfold events_of. cbn. by rewrite omap_app. Qed.

(** ** Which events a board has seen *)

Lemma activate_seen e t d a i b : seen_events (activate e t d a i b) = seen_events b.
Proof. unfold activate. by case_match. Qed.
Lemma declare_waiting_seen e t d a i b : seen_events (declare_waiting e t d a i b) = seen_events b.
Proof. unfold declare_waiting. by case_match. Qed.
Lemma atomic_seen e i b : seen_events (apply_atomic_focus e i b) = seen_events b.
Proof.
  unfold apply_atomic_focus. destruct (optional_identity _ _ _ _) as [[t d]|]; [apply activate_seen|].
  case_bool_decide; [done|]. destruct (optional_identity _ _ _ _) as [[t d]|]; [apply declare_waiting_seen|done].
Qed.
Lemma close_seen id i b : seen_events (close_item id i b) = seen_events b.
Proof. unfold close_item. by destruct (_ || _). Qed.

Lemma kind_seen e i b : seen_events (apply_kind e i b) = seen_events b.
Proof.
  unfold apply_kind. cbv zeta beta.
  destruct (bool_decide (kind e = "start")).
  { unfold on_start. destruct (opening_identity e) as [[id a] d]. by case_bool_decide. }
  destruct (bool_decide (kind e = "queue")).
  { unfold on_queue. destruct (opening_identity e) as [[id a] d]. by case_bool_decide. }
  destruct (bool_decide (kind e = "fold")).
  { unfold on_fold. destruct (match fact "target_work_id" e with Some _ => _ | None => _ end) as [t d].
    destruct (_ || _); [done|]. destruct (dict_get t (items b)); [|done]. by case_bool_decide. }
  destruct (bool_decide (kind e = "drop")).
  { unfold on_drop. destruct (match fact "work_id" e with Some _ => _ | None => _ end) as [t d].
    destruct (dict_get t (items b)); [by rewrite atomic_seen, close_seen|]. case_bool_decide; [done|]. by rewrite atomic_seen. }
  destruct (bool_decide (kind e = "switch")).
  { unfold on_switch. destruct (target_identity b e). apply activate_seen. }
  destruct (bool_decide (kind e = "advance")).
  { unfold on_advance. destruct (target_identity b e) as [t d]. destruct (dict_get t (items b)); [|done]. by case_bool_decide. }
  destruct (bool_decide (kind e = "restate")).
  { unfold on_restate. destruct (target_identity b e) as [t d]. by destruct (dict_get t (items b)). }
  destruct (bool_decide (kind e = "block")).
  { unfold on_block. destruct (target_identity b e) as [t d]. destruct (dict_get t (items b)); [|done].
    case_match; [by rewrite atomic_seen|]. by case_bool_decide. }
  destruct (bool_decide (kind e = "complete") || _).
  { unfold on_close. destruct (target_identity b e) as [t d]. destruct (dict_get t (items b)); [|done].
    by rewrite atomic_seen, close_seen. }
  destruct (bool_decide (kind e = ADOPTION_KIND)).
  { unfold on_adopt. destruct (dict_get _ (rejected_openings b)) as [r|]; [|done]. destruct (negb _); [done|].
    case_bool_decide; [done|]. cbn. destruct (bool_decide (kind (source_event r) = "queue")); by case_bool_decide. }
  by destruct (bool_decide (kind e = IDLE_KIND)).
Qed.

Lemma record_seen r i b :
  seen_events (apply_record r i b) ⊆ seen_events b ∪ match r with Event e => {[event_id e]} | Legacy _ => ∅ end.
Proof.
  destruct r as [e|l]; cbn.
  - unfold apply_event. destruct (negb _); [cbn; set_solver|]. case_bool_decide; [cbn; set_solver|].
    rewrite kind_seen. cbn. set_solver.
  - unfold apply_legacy. destruct (_ || _); [cbn; set_solver|]. destruct (checked l); cbn; set_solver.
Qed.

Lemma project_seen rs i b x :
  x ∈ seen_events (project_from i rs b) →
  x ∈ seen_events b ∨ x ∈ map event_id (omap (λ r, match r with Event e => Some e | Legacy _ => None end) rs).
Proof.
  revert i b. induction rs as [|r rs IH]; intros i b; cbn [project_from]; [auto|]. intros [Hx|Hx]%IH.
  - apply record_seen in Hx. apply elem_of_union in Hx as [?|Hx]; [by left|right].
    destruct r as [e|l]; [|by apply elem_of_empty in Hx]. apply elem_of_singleton in Hx. subst. cbn. by left.
  - right. destruct r; cbn; [by right|done].
Qed.

(** ** Accepted appends *)

Record call_ok (a : AppendArgs) : Prop := {
  call_facts : keywords (arg_facts a);
  call_texts : ∀ k v, dict_get k (arg_facts a) = Some v → one_line v = true;
  call_id : one_line (str_or (arg_event_id a) ("EV-" +:+ event_token a)) = true;
  call_at : one_line (str_or (arg_at a) (clock a)) = true
}.

Lemma keywords_resolved given given' : keywords given → same_texts given given' → keywords given'.
Proof.
  intros [Hnd Hi Hc] [Hnd' Hk _].
  assert (Hids : ∀ k, k ∈ ID_KEYS → identifier k = true ∧ k ∉ COMMON).
  { intros k. revert k. apply Forall_forall, (bool_decide_unpack _). by vm_compute. }
  constructor; [done| |].
  - apply Forall_forall. intros k [Hin|Hin]%Hk; [by rewrite Forall_forall in Hi; apply Hi|by apply Hids].
  - intros k Hcom [Hin|Hin]%Hk; [by apply (Hc k)|by apply (Hids k)].
Qed.

Lemma rstrip_newline line : (∃ t c, line = snoc t c ∧ py_isspace c = false) →
  rstrip_by (λ c, bool_decide (c = LF)) (snoc line LF) = line.
Proof.
  intros (t & c & -> & Hc). assert (Hp : bool_decide (c = LF) = false) by (apply bool_decide_eq_false; by intros ->).
  set (p := λ c, bool_decide (c = LF)) in *.
  assert (H : ∀ s, rstrip_by p (snoc s LF) = rstrip_by p s).
  { induction s as [|d s IH]; [done|]. unfold snoc in *. rewrite str_app_cons. cbn [rstrip_by]. by rewrite IH. }
  rewrite H. by apply rstrip_snoc.
Qed.

Lemma event_text_end values : values ≠ [] → ∃ t c, event_text values = snoc t c ∧ py_isspace c = false.
Proof.
  intros Hne. destruct (joined_end values Hne) as (t & c & E & Hc). exists (event_prefix +:+ " " +:+ t), c.
  split; [|done]. unfold event_text. rewrite E. unfold snoc. by rewrite !str_app_assoc.
Qed.

Lemma added_nil before after : _added_issues before after = [] → ∀ x, x ∈ after → x ∈ before.
Proof.
  revert before. induction after as [|y after IH]; intros before H x; [by intros ?%elem_of_nil|]. cbn in H.
  case_decide as Hy; [|done]. intros [->|Hx]%elem_of_cons; [done|]. specialize (IH _ H x Hx).
  revert IH. clear. induction before as [|z before IH]; [done|]. cbn. case_decide; subst; [by right|].
  rewrite !elem_of_cons. intros [?|?]; auto.
Qed.

Lemma find_last (P : WorkEvent → bool) l e : P e = true → List.find P (rev (l ++ [e])) = Some e.
Proof. intros H. rewrite rev_app_distr. cbn. by rewrite H. Qed.

Definition newline_last (s : string) : Prop := ∃ t, s = snoc t LF.

Lemma ended_snoc s : newline_last (snoc s LF).
Proof. by exists s. Qed.
Lemma ended_app s t : newline_last t → newline_last (s +:+ t).
Proof. intros [u ->]. exists (s +:+ u). unfold snoc. by rewrite str_app_assoc. Qed.

(** What an accepted append makes of a ledger. *)
Record appended (text added : string) (a : AppendArgs) (e : WorkEvent) : Prop := {
  app_records : records (_parse_workboard_text (text +:+ added)) = records (_parse_workboard_text text) ++ [Event e];
  app_structured : has_structured_events (_parse_workboard_text (text +:+ added)) = true;
  app_new : event_id e ∉ map event_id (events_of (_parse_workboard_text text));
  app_id : event_id e = str_or (arg_event_id a) ("EV-" +:+ event_token a);
  app_kind : kind e = py_lower (arg_kind a);
  app_at : at_ e = str_or (arg_at a) (clock a);
  app_facts : ∀ k, k ∉ ID_KEYS → fact k e = dict_get k (arg_facts a);
  app_ids : let doc := _parse_workboard_text text in
    identified doc (project_workboard doc) (id_draws a) (py_lower (arg_kind a)) (arg_facts a) (fields e);
  app_board : project_workboard (_parse_workboard_text (text +:+ added)) =
    let b := project_workboard (_parse_workboard_text text) in
    apply_kind e (Z.of_nat (length (records (_parse_workboard_text text)))) (add_seen (event_id e) b);
  app_ended : lf_ended (text +:+ added);
  app_issues : ∀ x,
    x ∈ validate_workboard (_parse_workboard_text (text +:+ added)) (project_workboard (_parse_workboard_text (text +:+ added))) →
    x ∈ validate_workboard (_parse_workboard_text text) (project_workboard (_parse_workboard_text text))
}.

(** A formatted line is an event text of its facts, and its event fits the
    schema. *)
Lemma formatted_line k id at_ given line n : keywords given → format_event k id at_ given = Ok line →
  line = event_text (event_values (py_lower k) id at_ given) ∧
  schema_complaints {| event_id := id; at_ := at_; kind := py_lower k; fields := given; line_number := n |} = [].
Proof.
  intros Hk Hf. destruct (format_event_spec k id at_ given line n Hk Hf) as [_ Hs]. apply map_eq_nil in Hs. split; [|done].
  unfold format_event in Hf. apply bind_Ok in Hf as (_ & _ & Hf). destruct (_parse_event_line _ _) as [[p|] issues]; [|done].
  by apply bind_Ok in Hf as (_ & _ & [= <-]).
Qed.

Lemma formatted_one_line k id at_ given line : keywords given → format_event k id at_ given = Ok line →
  one_line id = true → one_line at_ = true → (∀ j v, j ∉ ID_KEYS → dict_get j given = Some v → one_line v = true) →
  one_line line = true.
Proof.
  intros Hk Hf Hid Hat Htx. destruct (formatted_line k id at_ given line 1 Hk Hf) as [-> Hs].
  destruct (values_plain (py_lower k) id at_ given Hk) as (E & Hi & Hnd). apply event_text_one_line; [done|]. rewrite E.
  repeat (constructor; [first [done|by apply schema_kind_one_line in Hs]|]).
  apply Forall_forall. intros [j v] Hin. apply dict_get_elem in Hin; [|apply Hk]. cbn.
  destruct (decide (j ∈ ID_KEYS)); [|by eapply Htx]. by eapply (schema_id_one_line _ j v).
Qed.

Lemma accepted text a added e :
  lf_ended text → call_ok a → admit_append text a = Ok (added, e) → appended text added a e.
Proof.
  intros Ht [Hkw Htx Hid Hat] H. unfold admit_append in H.
  set (doc := _parse_workboard_text text) in *. set (b := project_workboard doc) in *.
  apply bind_Ok in H as (given & Hn & H). apply bind_Ok in H as (line & Hf & H).
  destruct (normalize_texts _ _ _ _ _ _ (kw_nodup _ Hkw) Hn) as [Hnd Hkeys Hsame] eqn:Hst. clear Hst.
  assert (Hg : keywords given) by (eapply keywords_resolved; [exact Hkw|by constructor]).
  destruct (formatted_line _ _ _ _ _ (next_line text) Hg Hf) as [El Hs].
  assert (Hl : one_line line = true).
  { eapply formatted_one_line; [exact Hg|exact Hf|done|done|]. intros j v Hj Hv. rewrite Hsame in Hv by done. by eapply Htx. }
  assert (Hne : event_values (py_lower (py_lower (arg_kind a))) (str_or (arg_event_id a) ("EV-" +:+ event_token a))
    (str_or (arg_at a) (clock a)) given ≠ []) by (by rewrite (proj1 (values_plain _ _ _ _ Hg))).
  rewrite rstrip_newline in H by (rewrite El; by apply event_text_end).
  destruct (format_event_spec _ _ _ _ _ 1 Hg Hf) as [Hp1 _]. rewrite Hp1 in H. cbv beta zeta iota in H. cbn [event_id] in H.
  destruct (format_event_spec _ _ _ _ _ (next_line text) Hg Hf) as [Hp _].
  set (ev := {| event_id := _; at_ := _; kind := _; fields := given; line_number := next_line text |}) in *.
  assert (Hdoc : _parse_workboard_text (text +:+ (if bool_decide (text = "") then OPEN_WORK_HEADER else "") +:+ snoc line LF) =
    add_line doc ([Event ev], [], true)).
  { rewrite El, appended_document by (rewrite <- ?El; done). rewrite <- El, Hp. done. }
  rewrite Hdoc in H. rewrite events_of_add, find_last in H by (by apply bool_decide_eq_true_2).
  apply bind_Ok in H as (_ & Ha%raise_if_Ok%negb_false_iff%bool_decide_eq_true & H).
  apply bind_Ok in H as (_ & Hr%raise_if_Ok%negb_false_iff & [= <- <-]).
  assert (Hnew : event_id ev ∉ map event_id (events_of doc)).
  { unfold _event_is_reflected in Hr. destruct (bool_decide (event_id ev ∈ map event_id (events_of doc))) eqn:E; [done|].
    by apply bool_decide_eq_false in E. }
  constructor; rewrite ?Hdoc; try done.
  - cbn. by rewrite orb_true_r.
  - cbn. by rewrite py_lower_idem.
  - cbv zeta. by eapply normalize_identified.
  - cbv zeta. unfold project_workboard. cbn [records add_line]. rewrite project_app. cbn [project_from apply_record].
    rewrite Z.add_0_l. unfold apply_event. unfold _event_schema_issues. rewrite Hs. cbn [map]. rewrite bool_decide_eq_true_2 by done.
    cbn [negb]. rewrite bool_decide_eq_false_2; [done|]. intros [Hx|Hx]%project_seen; [by apply elem_of_empty in Hx|]. by apply Hnew.
  - right. by apply ended_app, ended_app, ended_snoc.
  - by apply added_nil.
Qed.

(** ** From the command line *)

(** A dictionary whose keys are names of facts. *)
Definition FACT_KEYS : list string :=
  ["summary"; "why"; "next_action"; "resume_action"; "focus_state"; "work_id"; "alias"; "item_id"; "request_id";
   "target_work_id"; "target_id"; "successor_work_id"; "successor_id"; "waiting_work_id"; "waiting_id"].
Definition fact_dict (given : facts) : Prop := NoDup given.*1 ∧ ∀ k, k ∈ given.*1 → k ∈ FACT_KEYS.

Lemma fact_dict_set k v given : k ∈ FACT_KEYS → fact_dict given → fact_dict (dict_set k v given).
Proof.
  intros Hk [Hnd Hin]. split; [by apply dict_set_nodup|]. intros x. rewrite dict_set_keys.
  case_decide; [auto|]. rewrite elem_of_app, list_elem_of_singleton. intros [?| ->]; auto.
Qed.

Lemma copy_flag_dict value given names : names.2 ∈ FACT_KEYS → fact_dict given → fact_dict (copy_flag value given names).
Proof. intros. unfold copy_flag. destruct (dict_get names.1 value); [by apply fact_dict_set|done]. Qed.

Lemma related_flag_dict value flag wk ak given :
  wk ∈ FACT_KEYS → ak ∈ FACT_KEYS → fact_dict given → fact_dict (related_flag value flag wk ak given).
Proof.
  intros. unfold related_flag, _related_identity. destruct (dict_get flag value); [|done].
  destruct (fullmatch _ _); by apply fact_dict_set.
Qed.

Lemma fact_dict_keywords given : fact_dict given → keywords given.
Proof.
  assert (H : ∀ k, k ∈ FACT_KEYS → identifier k = true ∧ k ∉ COMMON).
  { intros k. revert k. apply Forall_forall, (bool_decide_unpack _). by vm_compute. }
  intros [Hnd Hin]. constructor; [done| |].
  - apply Forall_forall. intros k Hk. by apply H, Hin.
  - intros k Hc Hk. by apply (H k), Hc; apply Hin.
Qed.

(** The command line passes what [append_event] expects. *)
Lemma flags_keywords kind value idle given : append_facts_from_flags kind value idle = Ok given → keywords given.
Proof.
  unfold append_facts_from_flags. destruct (dict_get kind _) as [required|]; [|done].
  intros (_ & _ & (_ & _ & [= <-])%bind_Ok)%bind_Ok. apply fact_dict_keywords.
  assert (Hnil : fact_dict []) by (split; [constructor|intros k ?%elem_of_nil; done]).
  set (identity := if bool_decide (kind ∈ ["queue"; "start"]) then _ else _).
  assert (Hid : fact_dict identity).
  { unfold identity. repeat case_bool_decide; try done; [|destruct (dict_has _ _)..]; apply copy_flag_dict; (done || by_decide). }
  assert (Hrest : ∀ g, fact_dict g → fact_dict (fold_left (copy_flag value)
    [("summary", "summary"); ("why", "why"); ("next", "next_action"); ("resume", "resume_action")] g)).
  { intros g Hg. cbn [fold_left]. repeat (apply copy_flag_dict; [by_decide|]). done. }
  assert (Hlast : ∀ g, fact_dict g → fact_dict (if idle then dict_set "focus_state" "idle" g else g)).
  { intros g Hg. destruct idle; [apply fact_dict_set; [by_decide|done]|done]. }
  apply Hlast. do 2 (apply related_flag_dict; [by_decide..|]). apply Hrest.
  case_bool_decide; [|done]. apply related_flag_dict; [by_decide..|]. apply copy_flag_dict; [by_decide|done].
Qed.

(** ** Ledgers built by appends *)

(** What the loop wrote is a first part of the payload, all of it if it ended well. *)
Lemma write_all_prefix answers payload written outcome : write_all answers payload = (written, outcome) →
  (∃ n, written = take n payload) ∧ (outcome = Some (Ok tt) → written = payload).
Proof.
  revert payload written outcome. induction answers as [|[n|] answers IH]; intros [|z payload] written outcome; cbn [write_all];
    try (intros [= <- <-]; split; [by exists 0%nat|done]).
  destruct (n <=? 0) eqn:Hn; [intros [= <- <-]; split; [by exists 0%nat|done]|].
  destruct (write_all answers _) as [d o] eqn:E. intros [= <- <-]. destruct (IH _ _ _ E) as [[m ->] Hall]. split.
  - exists (Z.to_nat n + m)%nat. by rewrite take_take_drop.
  - intros Ho. rewrite (Hall Ho). apply take_drop.
Qed.

Lemma encode_utf8_app s t : encode_utf8 (s +:+ t) = encode_utf8 s ++ encode_utf8 t.
Proof.
  induction s as [|c s IH]; [done|]. rewrite str_app_cons. cbn [encode_utf8]. rewrite IH. by destruct (_ <? _).
Qed.

Definition ledger_text (l : ledger) : string := match l with Holds text => text | _ => "" end.

(** A call of [append_event] that wrote all it had to or nothing, whether it then
    returned, raised (refused, or an [fsync] that failed) or died; and its ledger. *)
Inductive ledger_step : ledger → ledger → Prop :=
  | step_whole file a answers fsync outcome added e :
      call_ok a → admit_append (ledger_text file) a = Ok (added, e) →
      append_event file a answers fsync = (encode_utf8 (ledger_text file +:+ added), outcome) →
      ledger_step file (Holds (ledger_text file +:+ added))
  | step_nothing file a answers fsync outcome :
      append_event file a answers fsync = (ledger_bytes file, outcome) → ledger_step file file.

(** What a call leaves, whatever its writes answer. *)
Record leaves (l : ledger) (a : AppendArgs) (added : string) (e : WorkEvent) (left_ : bytes) (outcome : option (res WorkEvent)) : Prop := {
  left_prefix : ∃ n, left_ = ledger_bytes l ++ take n (encode_utf8 added);
  left_whole : ∀ e', outcome = Some (Ok e') → e' = e ∧ left_ = encode_utf8 (ledger_text l +:+ added)
}.

Lemma append_event_leaves l a answers fsync : match l with Undecodable _ => False | _ => True end →
  let '(left_, outcome) := append_event l a answers fsync in
  match admit_append (ledger_text l) a with
  | Err err => left_ = ledger_bytes l ∧ outcome = Some (Err err)
  | Ok (added, e) => leaves l a added e left_ outcome
  end.
Proof.
  assert (H : ∀ l, ledger_bytes l = encode_utf8 (ledger_text l) →
    let '(left_, outcome) := match admit_append (ledger_text l) a with
      | Err e => (ledger_bytes l, Some (Err e))
      | Ok (added, candidate) =>
          let '(written, outcome) := write_all answers (encode_utf8 added) in
          (ledger_bytes l ++ written, (λ w, w;; fsync;; Ok candidate) <$> outcome)
      end in
    match admit_append (ledger_text l) a with
    | Err err => left_ = ledger_bytes l ∧ outcome = Some (Err err)
    | Ok (added, e) => leaves l a added e left_ outcome
    end).
  { intros f Hb. destruct (admit_append (ledger_text f) a) as [[added e]|err]; [|done].
    destruct (write_all answers (encode_utf8 added)) as [written outcome] eqn:E.
    destruct (write_all_prefix _ _ _ _ E) as [[n Hn] Hall]. constructor; [exists n; by rewrite Hn|].
    intros e' Ho. destruct outcome as [r|]; [|done]. injection Ho as Ho. apply bind_Ok in Ho as ([] & -> & (_ & _ & [= ->])%bind_Ok).
    split; [done|]. by rewrite Hall, Hb, encode_utf8_app. }
  destruct l as [|text|]; intros Hl; [by apply (H Absent)|by apply (H (Holds text))|done].
Qed.

Lemma dedupe_elem seen l x : x ∈ l → x ∉ seen → x ∈ dedupe seen l.
Proof.
  revert seen. induction l as [|y l IH]; intros seen; cbn; [by intros ?%elem_of_nil|]. intros Hx Hs.
  case_decide as Hy.
  - apply elem_of_cons in Hx as [->|Hx]; [done|auto].
  - destruct (decide (x = y)) as [->|Hne]; [by left|]. right. apply elem_of_cons in Hx as [?|Hx]; [done|].
    apply IH; [done|]. set_solver.
Qed.

Lemma valid_focus text :
  let doc := _parse_workboard_text text in
  has_structured_events doc = true → validate_workboard doc (project_workboard doc) = [] →
  focus (project_workboard doc) ∧ actions_present (project_workboard doc).
Proof.
  intros doc Hs Hv. apply focus_rules_spec. destruct (focus_issues (project_workboard doc)) as [|x l] eqn:E; [done|].
  exfalso. apply (not_elem_of_nil x). rewrite <- Hv. unfold validate_workboard. apply dedupe_elem; [|set_solver].
  rewrite Hs, E. rewrite !elem_of_app. do 4 right. by left.
Qed.

(** A ledger as appends leave it. *)
Definition sound_ledger (l : ledger) : Prop :=
  let doc := _parse_workboard_text (ledger_text l) in
  match l with Undecodable _ => False | _ => True end ∧ lf_ended (ledger_text l) ∧
  validate_workboard doc (project_workboard doc) = [] ∧
  (ledger_text l ≠ "" → has_structured_events doc = true).

Lemma sound_step l l' : sound_ledger l → ledger_step l l' → sound_ledger l' ∧ ∃ added, ledger_text l' = ledger_text l +:+ added.
Proof.
  intros Hl Hs. revert Hl. destruct Hs as [file a answers fsync outcome added e Ha Hadm _ | file a answers fsync outcome _]; intros Hl.
  - destruct Hl as (_ & Hend & Hv & _). pose proof (accepted _ _ _ _ Hend Ha Hadm) as Hacc. split; [|by eexists].
    split_and!; [done|apply Hacc| |intros _; apply Hacc]. cbn [ledger_text]. apply elem_of_nil_inv.
    intros x Hx%(app_issues _ _ _ _ Hacc). rewrite Hv in Hx. by apply elem_of_nil in Hx.
  - split; [done|]. exists "". by rewrite str_app_nil_r.
Qed.

Lemma sound_absent : sound_ledger Absent.
Proof. split_and!; [done|by left|by vm_compute|done]. Qed.

(** ** Properties *)

(** Writing an event and reading it agree.  A line that [format_event]
    produces is read, wherever in a ledger it stands, as exactly the event that was
    asked for: the same id, time and facts in their order, the kind in lower case,
    and nothing to complain of. *)
Theorem format_event_reads_back k id at_ given line n :
  keywords given → format_event k id at_ given = Ok line →
  let e := {| event_id := id; at_ := at_; kind := py_lower k; fields := given; line_number := n |} in
  _parse_event_line line n = (Some e, []) ∧ _event_schema_issues e = [].
Proof. apply format_event_spec. Qed.

(** C22. An accepted append is one event, applied.  The ledger's lines are complete,
    and the call's facts are distinct names of the schema's kind with texts of one
    line.  When [append_event] admits such an event, the new ledger has exactly one
    more record: an event of the kind, id, time and texts asked for, with an id no
    earlier event has.  Its identities are pinned: the alias of exactly one open
    item with an opaque id is replaced by that item's id, for the target, the
    successor and the item waited for; the alias of an opening names no open item,
    and its id is the one given or a token never used; every other identity is as
    given.  The board moves by exactly that event's step, and every issue of the new
    ledger was one of the old. *)
Theorem append_applied text a added e :
  lf_ended text → call_ok a → admit_append text a = Ok (added, e) → appended text added a e.
Proof. apply accepted. Qed.

(** C20. Ledgers built by appends are valid, unless a write was cut short.  Starting
    without a file, after any calls of [append_event] (with facts as in C22 where they
    write) each of which wrote its lines whole or nothing, and then returned, raised
    or died, the validator finds nothing and a ledger with any text has exactly one
    focus.  A further call, whatever its writes and [fsync] answer, leaves the old
    bytes and nothing more if the event is refused; else a first part of the lines
    it admitted, all of them if it returns. *)
Theorem appended_ledgers_valid l :
  rtc ledger_step Absent l →
  let doc := _parse_workboard_text (ledger_text l) in
  validate_workboard doc (project_workboard doc) = [] ∧
  (ledger_text l ≠ "" → focus (project_workboard doc) ∧ actions_present (project_workboard doc)) ∧
  (∀ l', ledger_step l l' → ∃ added, ledger_text l' = ledger_text l +:+ added) ∧
  (∀ a answers fsync, let '(left_, outcome) := append_event l a answers fsync in
     match admit_append (ledger_text l) a with
     | Err err => left_ = ledger_bytes l ∧ outcome = Some (Err err)
     | Ok (added, e) => leaves l a added e left_ outcome ∧
         (∀ e', outcome = Some (Ok e') → call_ok a → ledger_step l (Holds (ledger_text l +:+ added)))
     end).
Proof.
  intros H doc. assert (Hs : sound_ledger l).
  { revert H. generalize sound_absent. generalize Absent. induction 2 as [|x y z Hxy _ IH]; [done|]. by apply IH, (sound_step x). }
  split; [apply Hs|split; [|split; [intros l'; by apply sound_step|]]].
  - destruct Hs as (_ & _ & Hv & Hst). intros Hne. apply valid_focus; [by apply Hst|done].
  - intros a answers fsync. pose proof (append_event_leaves l a answers fsync (proj1 Hs)) as Hl.
    destruct (append_event l a answers fsync) as [left_ outcome] eqn:E. destruct (admit_append (ledger_text l) a) as [[added e]|] eqn:Ha; [|done].
    split; [done|]. intros e' Ho Hok. destruct (left_whole _ _ _ _ _ _ Hl e' Ho) as [_ Hw]. subst left_. by eapply step_whole.
Qed.

(** ** A concrete ledger *)

Module Board1.
Definition hex : string := "0123456789abcdef0123456789abcdef".
Definition call (kind token : string) (given : facts) : AppendArgs :=
  {| arg_kind := kind; arg_event_id := None; arg_at := None; arg_facts := given; event_token := token;
     clock := "2026-08-27T00:00:00Z"; id_draws := [hex; "1" +:+ str_drop 1 hex] |}.
Definition start : AppendArgs :=
  call "START" "0a" [("alias", "CASE-1"); ("summary", "Validate it's done"); ("why", "asked"); ("next_action", "run it")].
Definition queue (why : string) : AppendArgs :=
  call "queue" "0b" [("alias", "CASE-2"); ("summary", "later"); ("why", why); ("resume_action", "begin")].
Definition idle : AppendArgs := call "complete" "0c" [("item_id", "CASE-1"); ("focus_state", "idle")].
Definition text_after (text : string) (a : AppendArgs) : string :=
  match admit_append text a with Ok (added, _) => text +:+ added | Err _ => "refused" end.
Definition started : string := text_after "" start.
Definition started_event : option WorkEvent := match admit_append "" start with Ok (_, e) => Some e | Err _ => None end.
Definition queued : string := text_after started (queue "asked").

(** The first 60 bytes of the queue event, and the process dies. *)
Definition torn : string := started +:+ str_take 60 (str_drop (String.length started) queued).
End Board1.

Lemma start_call_ok : call_ok Board1.start.
Proof.
  constructor; [constructor|..].
  - apply (bool_decide_unpack _). by vm_compute.
  - apply (bool_decide_unpack _). by vm_compute.
  - intros k Hk. revert k Hk. apply Forall_forall, (bool_decide_unpack _). by vm_compute.
  - intros k v H. apply dict_get_elem in H; [|apply (bool_decide_unpack _); by vm_compute].
    change (one_line (k, v).2 = true). revert H. generalize (k, v). apply Forall_forall, (bool_decide_unpack _). by vm_compute.
  - by vm_compute.
  - by vm_compute.
Qed.

Lemma format_event_reads_back_witness :
  let given := [("work_id", "W-" +:+ Board1.hex); ("next_action", "say 'no' = why not")] in
  let e := {| event_id := "EV-1"; at_ := "2026-08-27T00:00:00Z"; kind := "advance"; fields := given; line_number := 7 |} in
  ∃ line, _parse_event_line line 7 = (Some e, []) ∧ _event_schema_issues e = [].
Proof.
  intros given e. destruct (format_event "Advance" "EV-1" "2026-08-27T00:00:00Z" given) as [line|err] eqn:E; [|by vm_compute in E].
  exists line. apply (format_event_reads_back "Advance" "EV-1" "2026-08-27T00:00:00Z" given line 7); [|done].
  constructor; [apply (bool_decide_unpack _); by vm_compute..|].
  intros k Hk. revert k Hk. apply Forall_forall, (bool_decide_unpack _). by vm_compute.
Defined.

Lemma started_accepted : ∃ added e, admit_append "" Board1.start = Ok (added, e).
Proof. do 2 eexists. vm_compute. reflexivity. Qed.

Lemma append_applied_witness : ∃ added e, appended "" added Board1.start e.
Proof.
  destruct started_accepted as (added & e & H). exists added, e.
  apply (append_applied "" Board1.start added e); [by left|exact start_call_ok|exact H].
Defined.

Lemma start_step : ledger_step Absent (Holds Board1.started).
Proof.
  destruct started_accepted as (added & e & Ha).
  assert (Hs : Board1.started = ledger_text Absent +:+ added) by (unfold Board1.started, Board1.text_after; by rewrite Ha).
  rewrite Hs. destruct (append_event Absent Board1.start [Some 4000] (Ok tt)) as [left_ outcome] eqn:E.
  apply (step_whole Absent Board1.start [Some 4000] (Ok tt) outcome added e start_call_ok Ha).
  rewrite E, <- Hs. f_equal. change left_ with (left_, outcome).1. rewrite <- E. vm_compute. reflexivity.
Qed.

Lemma appended_ledgers_valid_witness :
  focus (project_workboard (_parse_workboard_text Board1.started)).
Proof.
  apply (appended_ledgers_valid (Holds Board1.started) (rtc_once _ _ start_step)). by vm_compute.
Defined.

(** Closing the active item without saying what comes next is refused. *)
Example close_needs_focus :
  Board1.text_after Board1.queued (Board1.call "complete" "0c" [("item_id", "CASE-1")]) = "refused" ∧
  Board1.text_after Board1.queued Board1.idle ≠ "refused".
Proof. split; [vm_compute; reflexivity|by_decide]. Qed.

(** A fact with a vertical tab would be two lines: refused. *)
Example tab_refused : Board1.text_after Board1.started (Board1.queue (String "011" "x")) = "refused".
Proof. vm_compute. reflexivity. Qed.

(** The write stops after 60 bytes and raises: the ledger is left with a line of
    no event, which the validator reports. *)
Example cut_write_raises :
  let '(left_, outcome) := append_event (Holds Board1.started) (Board1.queue "asked") [Some 60; None] (Ok tt) in
  left_ = encode_utf8 Board1.torn ∧ outcome = Some (Err (Exn OSError "write")) ∧
  validate_workboard (_parse_workboard_text Board1.torn) (project_workboard (_parse_workboard_text Board1.torn)) ≠ [].
Proof. vm_compute. split_and!; done. Qed.
(** A write cut short leaves a line without its end, and the next append, which
    would extend that line, is refused: the ledger takes no event until it is
    repaired by hand. *)
Example torn_append_blocks :
  Board1.text_after Board1.started Board1.idle ≠ "refused" ∧
  Board1.text_after Board1.torn Board1.idle = "refused" ∧ Board1.text_after Board1.torn (Board1.queue "asked") = "refused".
Proof. split; [by_decide|split; vm_compute; reflexivity]. Qed.
