(* ===== verification/Compaction.v ===== *)
(** * Compaction of the workboard ([chrono_state/workboard.py])

    The census of a ledger's items, the plan that splits a ledger into a short
    live one and an archive, and [compact], which publishes both and restores the
    old ledger when something fails.  The plan's report is reduced to what it
    decides; paths are names. *)
From S2P Require Import Prelude Regex Sha256 Json PyText JsonProps PyTime Shlex Workboard WorkboardProps.

#[local] Open Scope Z_scope.

Definition MIGRATION_AT : string := "1970-01-01T00:00:00Z".
Definition COMPACTION_SCHEMA : string := "workboard-compaction/v1".
Definition COMPACTION_MARKER_PREFIX : string := "<!-- " +:+ COMPACTION_SCHEMA +:+ " ".

(** ** Census *)

Record ItemCensus := {
  checked_items : list (string * bool);
  text_items : facts;
  anonymous : list string;
  census_issues : list string;
  census_keys : facts;
  census_rejected : list (string * (WorkEvent * string))
}.

Definition empty_census : ItemCensus :=
  {| checked_items := []; text_items := []; anonymous := []; census_issues := []; census_keys := []; census_rejected := [] |}.

Definition census_issue (n : Z) (msg : string) (c : ItemCensus) : ItemCensus :=
  {| checked_items := checked_items c; text_items := text_items c; anonymous := anonymous c;
     census_issues := census_issues c ++ [line_issue n msg]; census_keys := census_keys c;
     census_rejected := census_rejected c |}.
Definition census_add (key text id : string) (done : bool) (c : ItemCensus) : ItemCensus :=
  {| checked_items := dict_set key done (checked_items c); text_items := dict_set key text (text_items c);
     anonymous := anonymous c; census_issues := census_issues c; census_keys := dict_set id key (census_keys c);
     census_rejected := census_rejected c |}.
Definition census_check (key : string) (c : ItemCensus) : ItemCensus :=
  {| checked_items := dict_set key true (checked_items c); text_items := text_items c; anonymous := anonymous c;
     census_issues := census_issues c; census_keys := census_keys c; census_rejected := census_rejected c |}.

Definition _canonical_json_sha256 (v : json) : string := sha256_hex (encode_utf8 (dumps false v)).

Definition census_legacy (r : LegacyItem) (c : ItemCensus) : ItemCensus :=
  match leg_item_id r with
  | None =>
      {| checked_items := checked_items c; text_items := text_items c;
         anonymous := anonymous c ++
           [_canonical_json_sha256 (JObj [("checked", JBool (checked r)); ("text", JStr (source_text r))])];
         census_issues := census_issues c; census_keys := census_keys c; census_rejected := census_rejected c |}
  | Some id =>
      if dict_has id (checked_items c) then census_issue (leg_line r) ("duplicate census item " +:+ id) c
      else census_add id (source_text r) (_legacy_work_id id) (checked r) c
  end.

Definition census_event (e : WorkEvent) (c : ItemCensus) : ItemCensus :=
  let n := line_number e in
  let kind_in ks := bool_decide (kind e ∈ ks) in
  if negb (bool_decide (_event_schema_issues e = [])) then
    {| checked_items := checked_items c; text_items := text_items c; anonymous := anonymous c;
       census_issues := census_issues c ++ _event_schema_issues e; census_keys := census_keys c;
       census_rejected := census_rejected c |}
  else if kind_in ["start"; "queue"] then
    let '(id, key, display) :=
      match fact "work_id" e with
      | Some id => (id, id, field "alias" e)
      | None => (_legacy_work_id (field "item_id" e), field "item_id" e, field "item_id" e)
      end in
    if dict_has key (checked_items c) || dict_has id (census_keys c) then
      let msg := "duplicate census item " +:+ display in
      let c := census_issue n msg c in
      {| checked_items := checked_items c; text_items := text_items c; anonymous := anonymous c;
         census_issues := census_issues c; census_keys := census_keys c;
         census_rejected := dict_set (event_id e) (e, line_issue n msg) (census_rejected c) |}
    else census_add key (field "summary" e) id false c
  else if kind_in [ADOPTION_KIND] then
    let source_id := field "source_event_id" e in
    match dict_get source_id (census_rejected c) with
    | None => census_issue n ("adopt has no rejected census source for " +:+ source_id) c
    | Some (src, issue) =>
        let id := field "work_id" e in
        if dict_has id (census_keys c) then census_issue n ("duplicate census work id " +:+ id) c
        else
          let c := census_add id (field "summary" src) id false c in
          {| checked_items := checked_items c; text_items := text_items c; anonymous := anonymous c;
             census_issues := remove_first issue (census_issues c); census_keys := census_keys c;
             census_rejected := dict_del source_id (census_rejected c) |}
    end
  else if kind_in ["complete"; "archive"] then
    let id := match fact "work_id" e with Some id => id | None => _legacy_work_id (field "item_id" e) end in
    match dict_get id (census_keys c) with
    | None =>
        census_issue n (kind e +:+ " has no census source for " +:+ default id (fact "item_id" e)) c
    | Some key => census_check key c
    end
  else if kind_in ["drop"] then
    let id := match fact "work_id" e with Some id => id | None => _legacy_work_id (field "request_id" e) end in
    match dict_get id (census_keys c) with Some key => census_check key c | None => c end
  else c.

Definition census_record (c : ItemCensus) (r : record) : ItemCensus :=
  match r with Event e => census_event e c | Legacy i => census_legacy i c end.

(** [item_census]; the anonymous fingerprints sorted, the issues without repeats. *)
Definition item_census (doc : WorkboardDocument) : ItemCensus :=
  let c := fold_left census_record (records doc) empty_census in
  {| checked_items := checked_items c; text_items := text_items c; anonymous := sort_strings (anonymous c);
     census_issues := dedupe ∅ (census_issues c); census_keys := census_keys c; census_rejected := census_rejected c |}.

(** What [compare_item_censuses] reports and decides. *)
Record CensusComparison := {
  dropped : list string;
  invented : list string;
  state_changed : list string;
  text_changed : list string;
  anonymous_changed : bool;
  all_issues : list string
}.

Definition compare_item_censuses (before after : WorkboardDocument) : CensusComparison :=
  let left := item_census before in
  let right := item_census after in
  let before_ids := (checked_items left).*1 in
  let after_ids := (checked_items right).*1 in
  let shared := sort_strings (List.filter (λ id, bool_decide (id ∈ after_ids)) before_ids) in
  {| dropped := sort_strings (minus before_ids after_ids);
     invented := sort_strings (minus after_ids before_ids);
     state_changed := List.filter (λ id, negb (bool_decide (dict_get id (checked_items left) = dict_get id (checked_items right)))) shared;
     text_changed := List.filter (λ id, negb (bool_decide (dict_get id (text_items left) = dict_get id (text_items right)))) shared;
     anonymous_changed := negb (bool_decide (anonymous left = anonymous right));
     all_issues := sort_strings (dedupe ∅ (census_issues left ++ census_issues right)) |}.

Definition census_ok (c : CensusComparison) : bool :=
  bool_decide (dropped c = []) && bool_decide (invented c = []) && bool_decide (text_changed c = []) &&
  negb (anonymous_changed c) && bool_decide (all_issues c = []).
Definition state_preserved (c : CensusComparison) : bool := bool_decide (state_changed c = []).

(** ** The plan *)

Definition compaction_check (b : bool) (msg : string) : res unit := raise_if b WorkboardCompactionError msg.

Definition _item_identity_facts (i : WorkItem) : facts :=
  if fullmatch _WORK_ID_RE (work_id i) then [("work_id", work_id i)] else [("item_id", alias i)].

Definition opening_action (e : WorkEvent) : string := if bool_decide (kind e = "start") then field "next_action" e else field "resume_action" e.
Definition _opening_facts (e : WorkEvent) : string * string * string := (field "summary" e, field "why" e, opening_action e).

(** What compaction must preserve. *)
Record Shape := {
  shape_items : list (string * string * string * option string * option string * item_state);
  shape_active : option string;
  shape_alias : option string;
  shape_action : option string;
  shape_idle : bool;
  shape_waiting : option string
}.

#[export] Instance shape_eq_dec : EqDecision Shape.
Proof. solve_decision. Defined.

Definition _projection_shape (b : Board) : Shape :=
  {| shape_items := map (λ i, (work_id i, alias i, summary i, why i, resume_action i, state i))
       (sort_by (λ i j, str_leb (work_id i) (work_id j)) (open_items b));
     shape_active := active_work_id b; shape_alias := active_item_id b; shape_action := next_action b;
     shape_idle := idle b; shape_waiting := waiting_work_id b |}.

(** [openings.setdefault(identity, record)]: the first opening of each identity. *)
Definition add_opening (d : list (string * WorkEvent)) (e : WorkEvent) : list (string * WorkEvent) :=
  if bool_decide (kind e ∈ ["start"; "queue"]) then
    let id := match fact "work_id" e with Some id => id | None => _legacy_work_id (field "item_id" e) end in
    if dict_has id d then d else dict_set id e d
  else d.
Definition openings_of (doc : WorkboardDocument) : list (string * WorkEvent) := fold_left add_opening (events_of doc) [].

Definition unsupported (openings : list (string * WorkEvent)) (i : WorkItem) : bool :=
  negb (bool_decide (disposition i ∈ ["start"; "queue"])) || bool_decide (state i = Waiting) ||
  negb (dict_has (work_id i) openings).

(** [records[item.last_index].at] *)
Definition last_at (doc : WorkboardDocument) (i : WorkItem) : string :=
  match records doc !! Z.to_nat (last_index i) with Some (Event e) => at_ e | _ => MIGRATION_AT end.

(** A line of the compacted body: an opening under its own id, or a
    synthesised event, which gets the next number. *)
Variant entry := Reopened (e : WorkEvent) (given : facts) | Synthesized (kind at_ : string) (given : facts).

(** [key=value] arguments, without those that are [None]. *)
Definition given_facts (l : list (string * option string)) : facts :=
  omap (λ kv, (λ v, (kv.1, v)) <$> kv.2) l.

Definition item_entries (doc : WorkboardDocument) (openings : list (string * WorkEvent)) (i : WorkItem) : list entry :=
  match dict_get (work_id i) openings with
  | None => []
  | Some opening =>
      let '(s, w, r) := _opening_facts opening in
      let identity := _item_identity_facts i in
      let alias_fact := if dict_has "work_id" identity then [("alias", alias i)] else [] in
      Reopened opening (identity ++ alias_fact ++ [("summary", s); ("why", w); ("resume_action", r)]) ::
      (if bool_decide ((summary i, why i, resume_action i) = (s, Some w, Some r)) then []
       else [Synthesized "restate" (last_at doc i)
               (identity ++ [("summary", summary i); ("why", str_or (why i) w); ("next_action", str_or (resume_action i) r)])])
  end.

Definition block_entries (doc : WorkboardDocument) (b : Board) (i : WorkItem) : list entry :=
  if bool_decide (state i = Blocked) && negb (bool_decide (waiting_work_id b = Some (work_id i)))
  then [Synthesized "block" (last_at doc i) (_item_identity_facts i ++ given_facts [("resume_action", resume_action i)])]
  else [].

Definition focus_entries (doc : WorkboardDocument) (b : Board) : list entry :=
  match active_work_id b, waiting_work_id b with
  | Some id, _ =>
      match find_item id b with
      | Some i => [Synthesized "switch" (last_at doc i) (_item_identity_facts i ++ given_facts [("next_action", next_action b)])]
      | None => []
      end
  | None, Some w =>
      match find_item w b with
      | Some i =>
          let identity := _item_identity_facts i in
          [Synthesized "switch" (last_at doc i) (identity ++ given_facts [("next_action", resume_action i)]);
           Synthesized "block" (last_at doc i) (identity ++ given_facts [("resume_action", resume_action i)])]
      | None => []
      end
  | None, None =>
      if idle b then [Synthesized "idle" (match last (events_of doc) with Some e => at_ e | None => MIGRATION_AT end) []] else []
  end.

(** [f"{n:04d}"] *)
Definition four_digits (n : Z) : string := if n <? 10000 then padded 4 n "" else str_of_int n.

(** The lines of the body; [ordinal] counts the synthesised ones. *)
Fixpoint render_entries (seed : string) (ordinal : Z) (entries : list entry) : res (list string) :=
  match entries with
  | [] => Ok []
  | Reopened e given :: entries =>
      line ← format_event "queue" (event_id e) (at_ e) given;
      lines ← render_entries seed ordinal entries;
      Ok (snoc line LF :: lines)
  | Synthesized kind at_ given :: entries =>
      line ← format_event kind ("CMP-" +:+ seed +:+ "-" +:+ four_digits (ordinal + 1)) at_ given;
      lines ← render_entries seed (ordinal + 1) entries;
      Ok (snoc line LF :: lines)
  end.

(** [text.splitlines(keepends=True)] of a text without carriage returns. *)
Fixpoint split_keep (s : string) : list string :=
  match s with
  | "" => []
  | String c s =>
      if is_break c then String c "" :: split_keep s
      else match split_keep s with
           | [] => [String c ""]
           | w :: ws => String c w :: ws
           end
  end.

(** The lines whose number, from [n], is not in [moved]. *)
Fixpoint unmoved (n : Z) (moved : list Z) (lines : list string) : list string :=
  match lines with
  | [] => []
  | l :: lines => if bool_decide (n ∈ moved) then unmoved (n + 1) moved lines else l :: unmoved (n + 1) moved lines
  end.

Definition concat_str (l : list string) : string := foldr String.append "" l.

(** The two files, and whether their lines add up. *)
Record Plan := { target_text : string; archive_text : string; lines_add_up : bool }.

Definition ids_of (doc : WorkboardDocument) : list string := map event_id (events_of doc).

(** Every event is in exactly one of the two files. *)
Definition partition_ok (original archive live : list string) (counts : bool) : bool :=
  let carried := List.filter (λ id, negb (startswith id "CMP-")) live in
  forallb (λ id, negb (bool_decide (id ∈ carried))) archive &&
  forallb (λ id, bool_decide (id ∈ original)) (archive ++ carried) &&
  forallb (λ id, bool_decide (id ∈ archive ++ carried)) original && counts.

(** The texts of the plan, for the ledger [text] with its document and board. *)
Definition plan_texts (text name archive_name now : string) (before : WorkboardDocument) (b : Board) : res Plan :=
  let source_sha256 := sha256_hex (encode_utf8 text) in
  let openings := openings_of before in
  compaction_check (existsb (unsupported openings) (open_items b)) "compaction v1 cannot re-emit";;
  let line_of i := match dict_get (work_id i) openings with Some e => line_number e | None => 0 end in
  let ordered := sort_by (λ i j, line_of i <=? line_of j) (open_items b) in
  let moved := map line_of ordered in
  let seed := str_take 16 source_sha256 in
  body ← render_entries seed 0
    (concat (map (item_entries before openings) ordered) ++ concat (map (block_entries before b) ordered) ++ focus_entries before b);
  let plan_sha256 := _canonical_json_sha256 (JObj
    [("schema", JStr COMPACTION_SCHEMA); ("source_sha256", JStr source_sha256); ("archive_name", JStr archive_name);
     ("moved_openings", JList (map JInt moved)); ("body_sha256", JStr (sha256_hex (encode_utf8 (concat_str body))))]) in
  compacted ← format_event COMPACTION_KIND ("CMP-" +:+ seed +:+ "-COMPACT") now [];
  let marker := COMPACTION_MARKER_PREFIX +:+ "plan_sha256=" +:+ plan_sha256 +:+ " source_sha256=" +:+ source_sha256 +:+
                " archive=" +:+ archive_name +:+ " at=" +:+ now +:+ " -->" +:+ String LF "" in
  let source_lines := split_keep text in
  let archive_lines := unmoved 1 moved source_lines in
  let trailer := String LF (COMPACTION_MARKER_PREFIX +:+ "action=archive at=" +:+ now +:+ " source_sha256=" +:+ source_sha256 +:+
                 " moved_openings=" +:+ str_of_int (Z.of_nat (length moved)) +:+ " live=" +:+ name +:+ " -->" +:+ String LF "") in
  Ok {| target_text := OPEN_WORK_HEADER +:+ marker +:+ concat_str body +:+ snoc compacted LF;
        archive_text := concat_str archive_lines +:+ trailer;
        lines_add_up := (length archive_lines + length moved =? length source_lines)%nat |}.

(** The proof of the plan: what it must show before anything is written. *)
Definition plan_admitted (before : WorkboardDocument) (b : Board) (p : Plan) : res unit :=
  let after := _parse_workboard_text (target_text p) in
  let after_board := project_workboard after in
  let census := compare_item_censuses before (_parse_workboard_text (archive_text p +:+ target_text p)) in
  compaction_check (negb (bool_decide (document_issues after = [])) || negb (bool_decide (transition_issues after_board = [])) ||
                    negb (bool_decide (validate_workboard after after_board = []))) "compacted candidate does not validate";;
  compaction_check (negb (bool_decide (_projection_shape b = _projection_shape after_board)))
    "compacted candidate changes the live projection; refusing";;
  compaction_check (negb (census_ok census && state_preserved census)) "item census differs between the original and archive and live; refusing";;
  compaction_check (negb (partition_ok (ids_of before) (ids_of (_parse_workboard_text (archive_text p))) (ids_of after) (lines_add_up p)))
    "archive and live do not partition the original events; refusing".

Definition _build_compaction_plan (text name archive_name now : string) : res Plan :=
  compaction_check (char_in CR text) "compaction requires canonical LF line endings so the archive is line-exact";;
  compaction_check (negb (bool_decide (text = "")) && negb (endswith text (String LF ""))) "compaction requires a final LF so the archive is line-exact";;
  let before := _parse_workboard_text text in
  let b := project_workboard before in
  compaction_check (negb (has_structured_events before)) "ledger has no structured events; run the migration first";;
  compaction_check (negb (bool_decide (validate_workboard before b = []))) "ledger is not valid; repair it before compacting";;
  p ← plan_texts text name archive_name now before b;
  plan_admitted before b p;;
  Ok p.

(** ** Publishing *)

(** The ledger and the archive on disk. *)
Record Disk := { live : ledger; archived : option string }.

(** How a call on a file ends: it takes effect, or raises before or after. *)
Variant io := Done | RaisedBefore | RaisedAfter.
Definition raised (r : io) : bool := match r with Done => false | _ => true end.
Definition took_effect (r : io) : bool := match r with RaisedBefore => false | _ => true end.

(** The calls of [compact] on its two files, in the order of the code.  A read
    that does not raise returns what the file holds. *)
Record Faults := {
  put_archive : io;
  read_archive : bool;
  put_ledger : io;
  read_ledger : bool;
  read_back : bool;
  restore_ledger : io;
  drop_archive : io
}.

Definition write_archive (r : io) (p : Plan) (d : Disk) : Disk :=
  if took_effect r then {| live := live d; archived := Some (archive_text p) |} else d.
Definition write_ledger (r : io) (text : string) (d : Disk) : Disk :=
  if took_effect r then {| live := Holds text; archived := archived d |} else d.
Definition remove_archive (r : io) (d : Disk) : Disk :=
  if took_effect r then {| live := live d; archived := None |} else d.

(** The compensating restore. *)
Definition restore (f : Faults) (source : string) (replaced : bool) (d : Disk) : Disk * string :=
  let failed d := (d, "compaction failed and restore failed") in
  let finish d :=
    (remove_archive (drop_archive f) d,
     if raised (drop_archive f) then "compaction failed and restore failed" else "compaction failed; original restored, archive removed") in
  if negb (read_back f) then failed d
  else if replaced then
    let d := write_ledger (restore_ledger f) source d in
    if raised (restore_ledger f) then failed d else finish d
  else finish d.

Definition os_error : exn := Exn OSError "file operation".

(** [compact] under the lock: [regular] and [beside] are what it finds of the two
    paths, [expected] the source digest the caller asks for. *)
Definition compact (f : Faults) (regular beside : bool) (name archive_name now : string) (dry_run : bool)
    (expected : string) (d : Disk) : Disk * res string :=
  let checked :=
    compaction_check (negb (bool_decide (expected = "")) && negb (fullmatch (rrep 64 64 (RChr is_hex)) expected))
      "expected source SHA-256 must be lowercase 64-hex";;
    compaction_check (negb regular) "compaction target must be an existing regular file";;
    compaction_check (bool_decide (is_Some (archived d))) "archive path already exists; choose another";;
    compaction_check (negb beside) "archive must live beside the ledger so the same ignore rule covers both";;
    compaction_check (negb (bool_decide (expected = "")) && negb (bool_decide (sha256_hex (ledger_bytes (live d)) = expected)))
      "ledger changed since the dry-run; run a fresh dry-run";;
    match live d with
    | Holds text => p ← _build_compaction_plan text name archive_name now; Ok (text, p)
    | _ => Err (Exn WorkboardCompactionError "not valid UTF-8; refusing compaction")
    end in
  match checked with
  | Err e => (d, Err e)
  | Ok (source, p) =>
      if dry_run then (d, Ok "dry-run")
      else
        let d := write_archive (put_archive f) p d in
        if raised (put_archive f) || negb (read_archive f) then (d, Err os_error)
        else
          let d := write_ledger (put_ledger f) (target_text p) d in
          if raised (put_ledger f) || negb (read_ledger f) then
            let '(d, msg) := restore f source (took_effect (put_ledger f) && negb (bool_decide (target_text p = source))) d in
            (d, Err (Exn WorkboardCompactionError msg))
          else (d, Ok "applied")
  end.
