(* ===== verification/CompactionProps.v ===== *)
(** * Properties of compaction

    Compaction line by line and event by event: the archive holds every line of
    the old ledger but the openings of the open items, which the new ledger
    states again under their own ids. *)
From S2P Require Import Prelude Regex Sha256 Json PyText JsonProps PyTime Shlex Posix Workboard WorkboardProps WorkboardAppend Compaction.

#[local] Open Scope Z_scope.

(** ** Lines with their ends *)

(** [s] is the line [l] and its end, which is not a carriage return. *)
Definition terminated (s l : string) : Prop := ∃ c, s = snoc l c ∧ one_line l = true ∧ is_break c = true ∧ c ≠ CR.

Lemma splitlines_cut l c t : one_line l = true → is_break c = true → c ≠ CR → splitlines (l +:+ String c t) = l :: splitlines t.
Proof.
  unfold one_line. intros Hl Hc Hr. induction l as [|d l IH].
  - rewrite str_app_nil_l. cbn [splitlines]. rewrite Hc. destruct t as [|e t]; [done|]. rewrite decide_False; [done|]. by intros [? _].
  - cbn in Hl. bool_inv. rewrite str_app_cons. cbn [splitlines]. rewrite H. by rewrite IH.
Qed.

Lemma splitlines_terminated ls ls0 t : Forall2 terminated ls ls0 → splitlines (concat_str ls +:+ t) = ls0 ++ splitlines t.
Proof.
  induction 1 as [|s l ls ls0 (c & -> & Hl & Hc & Hr) _ IH]; [by rewrite str_app_nil_l|].
  cbn [concat_str foldr]. fold (concat_str ls). rewrite str_app_assoc, snoc_app, splitlines_cut, IH by done. done.
Qed.

Lemma split_keep_concat s : concat_str (split_keep s) = s.
Proof.
  induction s as [|c s IH]; [done|]. cbn [split_keep]. destruct (is_break c).
  - cbn [concat_str foldr]. fold (concat_str (split_keep s)). by rewrite IH, str_app_cons, str_app_nil_l.
  - destruct (split_keep s) as [|w ws]; [by rewrite <- IH|]. cbn [concat_str foldr] in *. by rewrite str_app_cons, IH.
Qed.

Lemma split_keep_terminated s : char_in CR s = false → lf_ended s → ∃ ls0, Forall2 terminated (split_keep s) ls0.
Proof.
  induction s as [|c s IH]; intros Hcr Hend; [by exists []|]. unfold char_in in Hcr. cbn in Hcr.
  apply orb_false_iff in Hcr as [Hc%bool_decide_eq_false Hcr].
  assert (Hs : lf_ended s).
  { destruct Hend as [|[[|d u] E]]; [done|injection E as _ ->; by left|]. injection E as _ ->. right. by exists u. }
  destruct (IH Hcr Hs) as [ls0 H]. cbn [split_keep]. destruct (is_break c) eqn:Hb.
  - exists ("" :: ls0). constructor; [|done]. exists c. split_and!; try done.
  - pose proof (split_keep_concat s) as Hcat. destruct H as [|w l ws ls0 (d & -> & Hl & Hd & Hr) Hws].
    + exfalso. cbn in Hcat. subst s. destruct Hend as [E|[u E]]; [done|]. destruct u as [|d u]; [|by destruct u].
      unfold snoc in E. cbn in E. injection E as ->. by vm_compute in Hb.
    + exists (String c l :: ls0). constructor; [|done]. exists d. split_and!; try done. unfold one_line in *. cbn. by rewrite Hb, Hl.
Qed.

Lemma endswith_ended s : s = "" ∨ endswith s (String LF "") = true → lf_ended s.
Proof.
  intros [->|H]; [by left|right]. unfold endswith in H. pose proof (str_rev_involutive s) as Hi.
  destruct (str_rev s) as [|c t]; [done|]. cbn in H. case_match; [|done]. subst c. exists (str_rev t).
  by rewrite <- Hi, str_rev_cons.
Qed.

Lemma unmoved_terminated n moved ls ls0 : Forall2 terminated ls ls0 → ∃ ls0', Forall2 terminated (unmoved n moved ls) ls0'.
Proof.
  intros H. revert n. induction H as [|s l ls ls0 Hs _ IH]; intros n; [by exists []|]. destruct (IH (n + 1)) as [ls0' H'].
  cbn [unmoved]. case_bool_decide; [by exists ls0'|]. exists (l :: ls0'). by constructor.
Qed.

(** A line that is not moved is in the archive, at a place of its own. *)
Lemma unmoved_lookup n moved ls k s : ls !! k = Some s → n + Z.of_nat k ∉ moved → ∃ j, unmoved n moved ls !! j = Some s.
Proof.
  revert n k. induction ls as [|x ls IH]; intros n [|k] H Hk; [done..| |].
  - injection H as ->. rewrite Z.add_0_r in Hk. exists 0%nat. cbn [unmoved]. by rewrite bool_decide_eq_false_2.
  - destruct (IH (n + 1) k H) as [j Hj]; [by replace (n + 1 + Z.of_nat k) with (n + Z.of_nat (S k)) by lia|].
    cbn [unmoved]. case_bool_decide; [by exists j|by exists (S j)].
Qed.

Lemma terminated_lookup ls ls0 ls' ls0' k j s l :
  Forall2 terminated ls ls0 → Forall2 terminated ls' ls0' → ls !! k = Some s → ls' !! j = Some s → ls0 !! k = Some l →
  ls0' !! j = Some l.
Proof.
  intros H H' Hk Hj Hl. destruct (Forall2_lookup_l _ _ _ _ _ H' Hj) as (l' & Hl' & Ht').
  destruct (Forall2_lookup_lr _ _ _ _ _ _ H Hk Hl) as (c & E & _). destruct Ht' as (c' & E' & _).
  rewrite Hl'. f_equal. rewrite E in E'. apply (f_equal str_rev) in E'. unfold snoc in E'. rewrite !str_rev_snoc in E'.
  injection E' as _ E'. by rewrite <- (str_rev_involutive l'), <- E', str_rev_involutive.
Qed.

(** ** The events of a text, line by line *)

(** The event the parser reads at line [n]. *)
Definition event_on (n : Z) (l : string) : option WorkEvent :=
  if startswith l event_prefix then (_parse_event_line l n).1 else None.

Definition renumber (n : Z) (e : WorkEvent) : WorkEvent :=
  {| event_id := event_id e; at_ := at_ e; kind := kind e; fields := fields e; line_number := n |}.

Lemma events_of_line doc n l : events_of (add_line doc (parse_line n l)) = events_of doc ++ option_list (event_on n l).
Proof.
  unfold parse_line, event_on, events_of. destruct (startswith l event_prefix).
  - destruct (_parse_event_line l n) as [[e|] issues]; cbn; by rewrite omap_app.
  - destruct (str_in _ _); [|destruct (legacy_match l) as [[m r]|]]; cbn; by rewrite omap_app.
Qed.

Lemma parse_lines_events n ls doc e :
  e ∈ events_of (parse_lines n ls doc) ↔ e ∈ events_of doc ∨ ∃ k l, ls !! k = Some l ∧ event_on (n + Z.of_nat k) l = Some e.
Proof.
  revert n doc. induction ls as [|x ls IH]; intros n doc; cbn [parse_lines]; [naive_solver|].
  rewrite IH, events_of_line, elem_of_app. split.
  - intros [[H|H]|(k & l & Hl & H)]; [by left| |].
    + right. exists 0%nat, x. rewrite Z.add_0_r. split; [done|]. destruct (event_on n x); [|by apply not_elem_of_nil in H].
      by apply list_elem_of_singleton in H as ->.
    + right. exists (S k), l. split; [done|]. by replace (n + Z.of_nat (S k)) with (n + 1 + Z.of_nat k) by lia.
  - intros [H|([|k] & l & Hl & H)]; [by left; left| |].
    + injection Hl as ->. rewrite Z.add_0_r in H. left. right. rewrite H. by left.
    + right. exists k, l. split; [done|]. by replace (n + 1 + Z.of_nat k) with (n + Z.of_nat (S k)) by lia.
Qed.

Lemma parse_text_events text e :
  e ∈ events_of (_parse_workboard_text text) ↔ ∃ k l, splitlines text !! k = Some l ∧ event_on (1 + Z.of_nat k) l = Some e.
Proof. unfold _parse_workboard_text. rewrite parse_lines_events. set_solver. Qed.

Lemma event_facts_values n m tokens values : (event_facts n tokens values).1 = (event_facts m tokens values).1.
Proof.
  revert values. induction tokens as [|t tokens IH]; intros values; [done|]. cbn [event_facts].
  destruct (partition "=" t) as [[k s] v]. specialize (IH values) as IHv.
  destruct (event_facts n tokens values), (event_facts m tokens values). cbn in IHv. subst.
  destruct (negb s || _); [done|]. destruct (dict_has k values); [done|apply IH].
Qed.

Lemma event_on_renumber n l e : event_on n l = Some e → line_number e = n ∧ ∀ m, event_on m l = Some (renumber m e).
Proof.
  unfold event_on, _parse_event_line, event_of_tokens. destruct (startswith l event_prefix); [|done].
  destruct (shlex_split _) as [tokens|]; [|done]. intros H.
  assert (Hm : ∀ m, (event_facts m tokens []).1 = (event_facts n tokens []).1) by (intros; apply event_facts_values).
  destruct (event_facts n tokens []) as [values issues] eqn:E. cbn in Hm.
  destruct (negb _) eqn:Hb; [done|]. injection H as <-. split; [done|]. intros m. specialize (Hm m).
  destruct (event_facts m tokens []) as [values' issues']. cbn in Hm. subst values'. by rewrite Hb.
Qed.

(** ** Characters of an event are those of its line *)

Section Characters.
  Context (p : ascii → bool) (Hslash : p backslash = true).

Lemma emit_chars tok q rest ws :
  emit tok q rest = Ok ws → str_forallb p tok = true → (∀ ws', rest = Ok ws' → Forall (λ w, str_forallb p w = true) ws') →
  Forall (λ w, str_forallb p w = true) ws.
Proof.
  unfold emit. intros H Ht Hr. destruct (pending tok q); [|by apply Hr]. apply bind_Ok in H as (ws' & Hws & [= <-]).
  constructor; [done|by apply Hr].
Qed.

Lemma open_word_chars c : p c = true → str_forallb p (open_word no_punctuation c).2 = true.
Proof. intros H. unfold open_word, no_punctuation. destruct (is_backslash c), (is_quote c); cbn; by rewrite ?H. Qed.

Lemma snoc_chars s c : str_forallb p s = true → p c = true → str_forallb p (snoc s c) = true.
Proof. intros H Hc. unfold snoc. rewrite str_forallb_app, H. cbn. by rewrite Hc. Qed.

Lemma lex_chars st tok q s ws : lex no_punctuation st tok q s = Ok ws →
  str_forallb p tok = true → str_forallb p s = true → Forall (λ w, str_forallb p w = true) ws.
Proof using Hslash.
  revert st tok q ws. induction s as [|c s IH]; intros st tok q ws H Ht Hs.
  - destruct st; cbn in H; try done; injection H as <-; destruct (pending tok q); by repeat constructor.
  - cbn in Hs. apply andb_true_iff in Hs as [Hc Hs]. pose proof (open_word_chars c Hc) as Ho.
    assert (Hk : str_forallb p (snoc tok backslash) = true) by by apply snoc_chars.
    cbn [lex] in H. destruct st; repeat case_match;
      first [by eapply emit_chars; [exact H|done|intros ws' Hw; eapply (IH _ _ _ _ Hw)]
            |eapply (IH _ _ _ _ H); [|done]; by repeat apply snoc_chars].
Qed.

Lemma lstrip_chars q s : str_forallb p s = true → str_forallb p (lstrip_by q s) = true.
Proof. induction s as [|c s IH]; [done|]. cbn. intros H. destruct (q c); [apply IH; by bool_inv|done]. Qed.

Lemma rstrip_chars q s : str_forallb p s = true → str_forallb p (rstrip_by q s) = true.
Proof.
  induction s as [|c s IH]; [done|]. cbn. intros [Hc Hs]%andb_true_iff. specialize (IH Hs).
  destruct (rstrip_by q s); [destruct (q c); cbn; by rewrite ?Hc|]. cbn in *. by rewrite Hc.
Qed.

Lemma drop_chars n s : str_forallb p s = true → str_forallb p (str_drop n s) = true.
Proof. revert s. induction n as [|n IH]; intros [|c s]; [done..|]. cbn. intros H. apply IH. by bool_inv. Qed.

Lemma partition_chars sep s : str_forallb p s = true → str_forallb p (partition sep s).2 = true.
Proof.
  induction s as [|c s IH]; [done|]. cbn. intros [Hc Hs]%andb_true_iff. case_decide; [done|]. specialize (IH Hs).
  by destruct (partition sep s) as [[? ?] ?].
Qed.

Lemma dict_set_chars k v (d : facts) :
  str_forallb p v = true → (∀ k v, dict_get k d = Some v → str_forallb p v = true) →
  ∀ k' v', dict_get k' (dict_set k v d) = Some v' → str_forallb p v' = true.
Proof. intros Hv Hd k' v'. rewrite dict_get_set. case_decide; [by intros [= <-]|apply Hd]. Qed.

Lemma event_facts_chars n tokens (values : facts) : Forall (λ w, str_forallb p w = true) tokens →
  (∀ k v, dict_get k values = Some v → str_forallb p v = true) →
  ∀ k v, dict_get k (event_facts n tokens values).1 = Some v → str_forallb p v = true.
Proof.
  intros H. revert values. induction H as [|t tokens Ht _ IH]; intros values Hv; [done|]. cbn [event_facts].
  pose proof (partition_chars "=" t Ht) as Hp. destruct (partition "=" t) as [[k s] v]. cbn in Hp.
  specialize (IH values Hv) as IHv. destruct (event_facts n tokens values) as [values' issues].
  destruct (negb s || _); [done|]. destruct (dict_has k values); [done|]. apply IH. by apply dict_set_chars.
Qed.
End Characters.

Lemma dict_get_filtered {A} (q : string → bool) k (d : list (string * A)) v :
  dict_get k (List.filter (λ kv, q kv.1) d) = Some v → dict_get k d = Some v.
Proof.
  induction d as [|[j w] d IH]; [done|]. cbn. destruct (q j) eqn:Hq; cbn; case_decide; auto.
  subst. intros H. exfalso. clear IH. induction d as [|[j' w'] d IH]; [done|]. cbn in H.
  destruct (q j') eqn:Hq'; [|by apply IH]. cbn in H. case_decide; [congruence|by apply IH].
Qed.

(** An event on one line has an id, a time and facts of one line. *)
Lemma event_on_one_line n l e : one_line l = true → event_on n l = Some e →
  one_line (event_id e) = true ∧ one_line (at_ e) = true ∧ ∀ k, one_line (field k e) = true.
Proof.
  unfold event_on, _parse_event_line, event_of_tokens. intros Hl. destruct (startswith l event_prefix); [|done].
  destruct (shlex_split _) as [tokens|] eqn:Hlex; [|done].
  assert (Htokens : Forall (λ w, one_line w = true) tokens).
  { eapply lex_chars; [done|exact Hlex|done|]. unfold py_strip. by apply rstrip_chars, lstrip_chars, drop_chars. }
  pose proof (event_facts_chars _ n tokens [] Htokens ltac:(done)) as Hv.
  destruct (event_facts n tokens []) as [values issues]. cbn [fst] in Hv. destruct (negb _); [done|]. intros [= <-].
  assert (Hd : ∀ k, one_line (default "" (dict_get k values)) = true).
  { intros k. destruct (dict_get k values) eqn:E; [by eapply Hv|done]. }
  split_and!; [apply Hd|apply Hd|]. intros k. unfold field, fact. cbn [fields].
  destruct (dict_get k _) as [v|] eqn:E; [|done].
  by eapply Hv, (dict_get_filtered (λ k, negb (bool_decide (k ∈ COMMON))) k values v E).
Qed.

Lemma event_one_line text e : e ∈ events_of (_parse_workboard_text text) →
  one_line (event_id e) = true ∧ one_line (at_ e) = true ∧ ∀ k, one_line (field k e) = true.
Proof.
  intros (k & l & Hl & He)%parse_text_events. eapply event_on_one_line; [|exact He].
  pose proof (splitlines_one_line text) as H. rewrite Forall_forall in H. by apply H, (list_elem_of_lookup_2 _ k).
Qed.

(** Two events of one line are one. *)
Lemma event_line_unique text e e' : e ∈ events_of (_parse_workboard_text text) → e' ∈ events_of (_parse_workboard_text text) →
  line_number e = line_number e' → e = e'.
Proof.
  intros (k & l & Hl & He)%parse_text_events (k' & l' & Hl' & He')%parse_text_events Hn.
  destruct (event_on_renumber _ _ _ He) as [E _]. destruct (event_on_renumber _ _ _ He') as [E' _].
  assert (k = k') as <- by lia. congruence.
Qed.

(** ** The openings the new ledger carries *)

(** The item an opening opens. *)
Definition opening_id (e : WorkEvent) : string :=
  match fact "work_id" e with Some id => id | None => _legacy_work_id (field "item_id" e) end.

Lemma openings_spec doc id e : dict_get id (openings_of doc) = Some e →
  e ∈ events_of doc ∧ kind e ∈ ["start"; "queue"] ∧ opening_id e = id.
Proof.
  unfold openings_of. set (P := λ (es : list WorkEvent) d, ∀ id e, dict_get id d = Some e → e ∈ es ∧ kind e ∈ ["start"; "queue"] ∧ opening_id e = id).
  enough (∀ es es0 d, P es0 d → P (es0 ++ es) (fold_left add_opening es d)) as H
    by (intros Hg; exact (H (events_of doc) [] [] ltac:(done) id e Hg)).
  clear. induction es as [|x es IH]; intros es0 d Hd; [by rewrite app_nil_r|]. cbn [fold_left].
  rewrite cons_middle, app_assoc. apply IH. intros id e. unfold add_opening.
  assert (Hold : dict_get id d = Some e → e ∈ es0 ++ [x] ∧ kind e ∈ ["start"; "queue"] ∧ opening_id e = id)
    by (intros (? & ? & ?)%Hd; set_solver).
  case_bool_decide; [|exact Hold]. fold (opening_id x). destruct (dict_has _ d); [exact Hold|].
  rewrite dict_get_set. case_decide; [|exact Hold]. intros [= <-]. set_solver.
Qed.

(** The facts an opening is stated again with. *)
Definition reopened_facts (i : WorkItem) (e : WorkEvent) : facts :=
  _item_identity_facts i ++ (if dict_has "work_id" (_item_identity_facts i) then [("alias", alias i)] else []) ++
  [("summary", field "summary" e); ("why", field "why" e); ("resume_action", opening_action e)].

Lemma reopened_keywords i e : keywords (reopened_facts i e).
Proof.
  assert (H : (reopened_facts i e).*1 ∈ [["work_id"; "alias"; "summary"; "why"; "resume_action"]; ["item_id"; "summary"; "why"; "resume_action"]]).
  { unfold reopened_facts, _item_identity_facts. destruct (fullmatch _WORK_ID_RE (work_id i)); cbn; set_solver. }
  revert H. generalize (reopened_facts i e). intros given H.
  apply elem_of_cons in H as [H|H%list_elem_of_singleton]; constructor; rewrite H; try by_decide;
    intros k Hk; revert k Hk; apply Forall_forall; by_decide.
Qed.

Lemma reopened_one_line i e : (∀ k, one_line (field k e) = true) →
  ∀ j v, j ∉ ID_KEYS → dict_get j (reopened_facts i e) = Some v → one_line v = true.
Proof.
  intros He j v Hj Hg. apply dict_get_elem in Hg; [|apply (reopened_keywords i e)].
  assert (Ha : one_line (opening_action e) = true) by (unfold opening_action; case_bool_decide; apply He).
  unfold reopened_facts in Hg. rewrite !elem_of_app in Hg. destruct Hg as [Hg|[Hg|Hg]].
  - exfalso. apply Hj. unfold _item_identity_facts in Hg.
    destruct (fullmatch _ _); apply list_elem_of_singleton in Hg as [= -> ->]; by_decide.
  - exfalso. apply Hj. destruct (dict_has _ _); [|by apply not_elem_of_nil in Hg].
    apply list_elem_of_singleton in Hg as [= -> ->]. by_decide.
  - rewrite !elem_of_cons in Hg. destruct Hg as [[= -> ->]|[[= -> ->]|[[= -> ->]|Hg]]]; auto. by apply not_elem_of_nil in Hg.
Qed.

Lemma render_ended seed n entries body : render_entries seed n entries = Ok body → Forall newline_last body.
Proof.
  revert n body. induction entries as [|[e given|k at_ given] entries IH]; intros n body H; cbn in H.
  1: injection H as <-; constructor.
  all: apply bind_Ok in H as (line & _ & H); apply bind_Ok in H as (lines & Hl & [= <-]).
  all: constructor; [apply ended_snoc|by eapply IH].
Qed.

Lemma render_reopened seed n entries body e given : render_entries seed n entries = Ok body → Reopened e given ∈ entries →
  ∃ b1 b2 line, body = b1 ++ snoc line LF :: b2 ∧ format_event "queue" (event_id e) (at_ e) given = Ok line.
Proof.
  revert n body. induction entries as [|x entries IH]; intros n body H Hin; [by apply not_elem_of_nil in Hin|].
  apply elem_of_cons in Hin as [<-|Hin].
  - cbn in H. apply bind_Ok in H as (line & Hf & H). apply bind_Ok in H as (lines & _ & [= <-]). by exists [], lines, line.
  - destruct x as [e' given'|k at_' given']; cbn in H; apply bind_Ok in H as (line & _ & H);
      apply bind_Ok in H as (lines & Hl & [= <-]); destruct (IH _ _ Hl Hin) as (b1 & b2 & line' & -> & Hf);
      by exists (snoc line LF :: b1), b2, line'.
Qed.

Lemma concat_str_app ls ls' : concat_str (ls ++ ls') = concat_str ls +:+ concat_str ls'.
Proof. induction ls as [|l ls IH]; [done|]. cbn [app concat_str foldr] in *. unfold concat_str in *. by rewrite IH, str_app_assoc. Qed.

Lemma concat_ended s ls : newline_last s → Forall newline_last ls → newline_last (s +:+ concat_str ls).
Proof.
  intros Hs H. revert s Hs. induction H as [|l ls Hl _ IH]; intros s Hs; [by rewrite str_app_nil_r|].
  cbn [concat_str foldr]. fold (concat_str ls). rewrite <- str_app_assoc. by apply IH, ended_app.
Qed.

(** A formatted line in a text is read as its event. *)
Lemma formatted_in k id at_ given line before after :
  keywords given → format_event k id at_ given = Ok line → one_line line = true → newline_last before →
  ∃ n, {| event_id := id; at_ := at_; kind := py_lower k; fields := given; line_number := n |} ∈
    events_of (_parse_workboard_text (before +:+ (snoc line LF +:+ after))).
Proof.
  intros Hk Hf Hl Hb. set (n := 1 + Z.of_nat (length (splitlines before))). exists n. apply parse_text_events.
  exists (length (splitlines before)), line. split.
  - rewrite splitlines_ended by (by right). rewrite (splitlines_ended (snoc line LF)) by (right; apply ended_snoc).
    rewrite splitlines_line by done. by rewrite lookup_app_r, Nat.sub_diag by done.
  - fold n. destruct (format_event_spec _ _ _ _ _ n Hk Hf) as [Hp _]. unfold event_on. rewrite Hp.
    destruct (formatted_line _ _ _ _ _ n Hk Hf) as [-> _]. by rewrite prefix_starts.
Qed.

(** ** What becomes of an event *)

(** The events of a text. *)
Definition events_in (text : string) : list WorkEvent := events_of (_parse_workboard_text text).
Definition board_of_text (text : string) : Board := project_workboard (_parse_workboard_text text).
Definition issues_of (text : string) : list string :=
  validate_workboard (_parse_workboard_text text) (board_of_text text).

(** The opening [e] of an item that is open on the board, stated again as [e']:
    a [queue] of the same id and time, of the item's identity and of [e]'s texts. *)
Definition restates (b : Board) (e e' : WorkEvent) : Prop :=
  kind e ∈ ["start"; "queue"] ∧ ∃ i, i ∈ open_items b ∧ work_id i = opening_id e ∧
    event_id e' = event_id e ∧ at_ e' = at_ e ∧ kind e' = "queue" ∧ fields e' = reopened_facts i e.

(** Every event of the old ledger: word for word in the archive, or stated again
    in the new ledger.  [moved] are the lines that the archive leaves out. *)
Record accounted (source archive text : string) (moved : list Z) : Prop := {
  acc_archive : ∃ trailer, archive = concat_str (unmoved 1 moved (split_keep source)) +:+ trailer;
  acc_events : ∀ e, e ∈ events_in source →
    if decide (line_number e ∈ moved) then ∃ e', e' ∈ events_in text ∧ restates (board_of_text source) e e'
    else ∃ n, renumber n e ∈ events_in archive;
  acc_moved : ∀ m, m ∈ moved → ∃ e, e ∈ events_in source ∧ line_number e = m
}.

Lemma archive_keeps source moved trailer e : char_in CR source = false → lf_ended source →
  e ∈ events_in source → line_number e ∉ moved →
  ∃ n, renumber n e ∈ events_in (concat_str (unmoved 1 moved (split_keep source)) +:+ trailer).
Proof.
  intros Hcr Hend (k & l & Hl & He)%parse_text_events Hm. destruct (event_on_renumber _ _ _ He) as [Hn Hren].
  destruct (split_keep_terminated source Hcr Hend) as [ls0 Hls].
  assert (Hs : splitlines source = ls0).
  { rewrite <- (split_keep_concat source), <- (str_app_nil_r (concat_str _)), (splitlines_terminated _ ls0) by done. apply app_nil_r. }
  rewrite Hs in Hl. destruct (Forall2_lookup_r _ _ _ _ _ Hls Hl) as (s & Hk & _). rewrite Hn in Hm.
  destruct (unmoved_lookup 1 moved _ k s Hk Hm) as [j Hj]. destruct (unmoved_terminated 1 moved _ _ Hls) as [ls' Hls'].
  pose proof (terminated_lookup _ _ _ _ k j s l Hls Hls' Hk Hj Hl) as Hl'.
  exists (1 + Z.of_nat j). apply parse_text_events. exists j, l. split; [|apply Hren].
  rewrite (splitlines_terminated _ ls') by done. by apply lookup_app_l_Some.
Qed.

Lemma texts_account text name archive_name now p (doc := _parse_workboard_text text) :
  char_in CR text = false → lf_ended text → plan_texts text name archive_name now doc (project_workboard doc) = Ok p →
  ∃ moved, accounted text (archive_text p) (target_text p) moved.
Proof.
  intros Hcr Hend H. unfold plan_texts in H. cbv zeta in H. set (openings := openings_of doc) in *.
  apply bind_Ok in H as ([] & Hun%raise_if_Ok & H). set (b := project_workboard doc) in *.
  set (line_of := λ i, match dict_get (work_id i) openings with Some e => line_number e | None => 0 end) in *.
  set (ordered := sort_by _ (open_items b)) in *.
  assert (Hopen : ∀ i, i ∈ ordered → i ∈ open_items b ∧ ∃ e, dict_get (work_id i) openings = Some e).
  { intros i Hi. assert (Hib : i ∈ open_items b) by (unfold ordered in Hi; by rewrite sort_by_perm in Hi). split; [done|].
    apply not_true_iff_false in Hun. destruct (dict_get (work_id i) openings) eqn:E; [eauto|]. exfalso. apply Hun, existsb_exists.
    exists i. split; [by apply list_elem_of_In|]. unfold unsupported, dict_has. by rewrite E, orb_true_r. }
  apply bind_Ok in H as (body & Hbody & H). apply bind_Ok in H as (compacted & _ & [= <-]). cbn [archive_text target_text].
  exists (map line_of ordered). constructor; [by eexists| |].
  - intros e He. destruct (decide _) as [Hm|Hm]; [|by eapply archive_keeps].
    apply list_elem_of_fmap in Hm as (i & Hn & Hi). destruct (Hopen i Hi) as [Hib [e0 He0]]. unfold line_of in Hn. rewrite He0 in Hn.
    destruct (openings_spec _ _ _ He0) as (Hin & Hk & Hid). assert (e = e0) as -> by by eapply event_line_unique.
    destruct (render_reopened _ _ _ _ e0 (reopened_facts i e0) Hbody) as (b1 & b2 & line & -> & Hf).
    { rewrite !elem_of_app. left. apply list_elem_of_In, in_concat. exists (item_entries doc openings i).
      split; [by apply in_map, list_elem_of_In|]. unfold item_entries. rewrite He0. by left. }
    destruct (event_one_line text e0 He) as (Hoid & Hoat & Hotx).
    pose proof (formatted_one_line _ _ _ _ _ (reopened_keywords i e0) Hf Hoid Hoat (reopened_one_line i e0 Hotx)) as Hol.
    apply render_ended, Forall_app in Hbody as [Hb1 _].
    match goal with |- context [OPEN_WORK_HEADER +:+ ?m +:+ concat_str _ +:+ ?c] => assert (Hmark : newline_last m); [|set (marker := m) in *; set (last := c) in *] end.
    { repeat apply ended_app. by exists "". }
    edestruct (formatted_in _ _ _ _ _ (OPEN_WORK_HEADER +:+ marker +:+ concat_str b1) (concat_str b2 +:+ last)
      (reopened_keywords i e0) Hf Hol) as [n Hev]; [by apply ended_app, concat_ended|].
    eexists. split.
    { unfold events_in. rewrite concat_str_app. cbn [concat_str foldr]. fold (concat_str b2).
      rewrite !str_app_assoc in *. exact Hev. }
    split; [done|]. by exists i.
  - intros m (i & -> & Hi)%list_elem_of_fmap. destruct (Hopen i Hi) as [_ [e He]]. exists e. unfold line_of. rewrite He.
    split; [by apply (openings_spec doc (work_id i))|done].
Qed.

(** ** What compaction keeps *)

(** An admitted plan is of a ledger of whole lines without issues; the new
    ledger has none either, the same projection, and the two texts of the plan. *)
Lemma plan_sound text name archive_name now p :
  _build_compaction_plan text name archive_name now = Ok p →
  issues_of (target_text p) = [] ∧ _projection_shape (board_of_text (target_text p)) = _projection_shape (board_of_text text) ∧
  ∃ moved, accounted text (archive_text p) (target_text p) moved.
Proof.
  intros (_ & Hcr%raise_if_Ok & (_ & Hlf%raise_if_Ok & H)%bind_Ok)%bind_Ok. cbv zeta in H. apply bind_Ok in H as (_ & _ & H).
  apply bind_Ok in H as (_ & _ & H). apply bind_Ok in H as (q & Htexts & H). apply bind_Ok in H as ([] & H & [= ->]).
  unfold plan_admitted in H. cbv zeta in H. apply bind_Ok in H as (_ & Ha%raise_if_Ok & H).
  apply bind_Ok in H as (_ & Hs%raise_if_Ok%negb_false_iff%bool_decide_eq_true & _).
  split_and!; [|by symmetry|].
  - apply orb_false_iff in Ha as [_ Ha%negb_false_iff%bool_decide_eq_true]. exact Ha.
  - eapply texts_account; [done| |exact Htexts]. apply endswith_ended. destruct (decide (text = "")); [by left|right].
    rewrite bool_decide_eq_false_2 in Hlf by done. by apply negb_false_iff.
Qed.

(** The ledger is the old one, or the new one beside its archive. *)
Definition kept_whole (source : string) (p : Plan) (d : Disk) : Prop :=
  live d = Holds source ∨ live d = Holds (target_text p) ∧ archived d = Some (archive_text p).

Lemma restore_kept f source p replaced d d' msg :
  restore f source replaced d = (d', msg) →
  live d = Holds source ∨ replaced = true ∧ live d = Holds (target_text p) ∧ archived d = Some (archive_text p) →
  kept_whole source p d'.
Proof.
  unfold restore, kept_whole, write_ledger, remove_archive. intros H Hd.
  destruct (read_back f); cbn in H; [|injection H as <- _; naive_solver].
  destruct replaced, (restore_ledger f), (drop_archive f); cbn in H; injection H as <- _; cbn; naive_solver.
Qed.

Lemma write_archive_live r p d : live (write_archive r p d) = live d.
Proof. by destruct r. Qed.

Lemma compact_kept f regular beside name archive_name now dry expected d d' r source :
  live d = Holds source → compact f regular beside name archive_name now dry expected d = (d', r) →
  d' = d ∧ r ≠ Ok "applied" ∨
  ∃ p, _build_compaction_plan source name archive_name now = Ok p ∧ kept_whole source p d' ∧
    (r = Ok "applied" → live d' = Holds (target_text p) ∧ archived d' = Some (archive_text p)).
Proof.
  intros Hl H. unfold compact in H. rewrite Hl in H.
  match type of H with match ?c with _ => _ end = _ => destruct c as [[t p]|e] eqn:Hc end; [|left; by injection H as <- <-].
  assert (Hp : t = source ∧ _build_compaction_plan source name archive_name now = Ok p).
  { do 5 (apply bind_Ok in Hc as (_ & _ & Hc)). apply bind_Ok in Hc as (p' & Hp & [= -> ->]). done. }
  destruct Hp as [-> Hp]. destruct dry; [left; by injection H as <- <-|]. right. exists p. split; [done|].
  assert (Hw : live (write_archive (put_archive f) p d) = Holds source) by (by rewrite write_archive_live).
  destruct (raised (put_archive f) || negb (read_archive f)) eqn:Hr; [injection H as <- <-; split; [by left|done]|].
  assert (Ha : archived (write_archive (put_archive f) p d) = Some (archive_text p)).
  { unfold write_archive. apply orb_false_iff in Hr as [Hr _]. by destruct (put_archive f). }
  revert H Hw Ha. generalize (write_archive (put_archive f) p d). intros d1 H Hw Ha.
  destruct (raised (put_ledger f) || negb (read_ledger f)) eqn:Hr2.
  - destruct (restore f source _ _) as [d2 msg] eqn:E. injection H as <- <-. split; [|done]. apply (restore_kept _ _ p _ _ _ _ E).
    assert (Hcase : took_effect (put_ledger f) && negb (bool_decide (target_text p = source)) = true ∨
      (took_effect (put_ledger f) = false ∨ target_text p = source)).
    { destruct (took_effect (put_ledger f)); [|by right; left].
      destruct (decide (target_text p = source)); [by right; right|left]. by rewrite bool_decide_eq_false_2. }
    unfold write_ledger. destruct Hcase as [Hc'|[Hc'|Hc']].
    + rewrite Hc'. apply andb_true_iff in Hc' as [-> _]. cbn. right. done.
    + rewrite Hc'. by left.
    + rewrite Hc'. left. by destruct (took_effect (put_ledger f)).
  - injection H as <- _. apply orb_false_iff in Hr2 as [Hr2 _]. unfold kept_whole, write_ledger.
    destruct (put_ledger f); [|done..]. split; [by right|done].
Qed.

(** C23. Compaction loses nothing.  Whatever calls of [compact] on its two files
    raise, and whenever they do, the ledger left on disk projects to the same items,
    states, actions and focus as before and is valid if it was.  Unless it is the old
    one (never when [compact] returns "applied"), the archive is beside it, and every
    event of the old ledger is in one of the two: the archive opens with all lines of
    the old ledger but the moved ones, in their order, so that every other event is
    in it with its id, time, kind and facts; each moved line is the opening of
    an item that is open, and the new ledger states it again under its id and time,
    with the item's identity and the opening's summary, reason and action. *)
Theorem compaction_loses_nothing f regular beside name archive_name now dry expected d d' r source :
  live d = Holds source → compact f regular beside name archive_name now dry expected d = (d', r) →
  ∃ text, live d' = Holds text ∧
    _projection_shape (board_of_text text) = _projection_shape (board_of_text source) ∧
    (issues_of source = [] → issues_of text = []) ∧
    (text = source ∧ r ≠ Ok "applied" ∨
     ∃ archive moved, archived d' = Some archive ∧ accounted source archive text moved).
Proof.
  intros Hl H. destruct (compact_kept _ _ _ _ _ _ _ _ _ _ _ _ Hl H) as [[-> Hr]|(p & Hp & Hk & Happ)].
  - exists source. auto 10.
  - destruct (plan_sound _ _ _ _ _ Hp) as (Hv & Hs & moved & Hacc).
    assert (Hnew : live d' = Holds (target_text p) ∧ archived d' = Some (archive_text p) → ∃ text, live d' = Holds text ∧
      _projection_shape (board_of_text text) = _projection_shape (board_of_text source) ∧ (issues_of source = [] → issues_of text = []) ∧
      (text = source ∧ r ≠ Ok "applied" ∨ ∃ archive moved, archived d' = Some archive ∧ accounted source archive text moved)).
    { intros [Ht Ha]. exists (target_text p). split_and!; [done..|]. right. eauto. }
    destruct Hk as [Hk|Hk]; [|by apply Hnew]. destruct r as [r|]; [|exists source; split_and!; auto].
    destruct (decide (r = "applied")) as [->|Hr]; [by apply Hnew, Happ|]. exists source. split_and!; [done..|]. left.
    split; [done|congruence].
Qed.

(** ** A concrete compaction *)

Module Ledger1.
Definition line (e : WorkEvent) : string :=
  match format_event (kind e) (event_id e) (at_ e) (fields e) with Ok l => snoc l LF | Err _ => "bad" end.
Definition text : string := OPEN_WORK_HEADER +:+ concat_str (map line [Trail.start; Trail.queue; Trail.complete]).
Definition good : Faults :=
  {| put_archive := Done; read_archive := true; put_ledger := Done; read_ledger := true; read_back := true;
     restore_ledger := Done; drop_archive := Done |}.
Definition run (f : Faults) : Disk * res string :=
  compact f true true "OPEN-WORK.md" "OPEN-WORK-archive.md" "2026-08-28T00:00:00Z" false ""
    {| live := Holds text; archived := None |}.
End Ledger1.

Example compaction_applies :
  (Ledger1.run Ledger1.good).2 = Ok "applied" ∧ issues_of Ledger1.text = [] ∧
  map event_id (events_in Ledger1.text) = ["EV-1"; "EV-2"; "EV-3"] ∧
  match (Ledger1.run Ledger1.good).1 with
  | {| live := Holds text; archived := Some archive |} =>
      map event_id (events_in archive) = ["EV-1"; "EV-3"] ∧
      map (λ e, (event_id e, kind e)) (take 1 (events_in text)) = [("EV-2", "queue")]
  | _ => False
  end.
Proof. vm_compute. auto 10. Qed.

(** The rename of the ledger happened, its directory could not be synced, and the
    restore fails too. *)
Definition Ledger1_stuck : Faults :=
  {| put_archive := Done; read_archive := true; put_ledger := RaisedAfter; read_ledger := true; read_back := true;
     restore_ledger := RaisedBefore; drop_archive := Done |}.

Lemma run_pair f :
  compact f true true "OPEN-WORK.md" "OPEN-WORK-archive.md" "2026-08-28T00:00:00Z" false ""
    {| live := Holds Ledger1.text; archived := None |} = ((Ledger1.run f).1, (Ledger1.run f).2).
Proof. unfold Ledger1.run. by destruct (compact _ _ _ _ _ _ _ _ _). Qed.

Lemma compaction_loses_nothing_witness :
  ∃ text, live (Ledger1.run Ledger1_stuck).1 = Holds text ∧
    _projection_shape (board_of_text text) = _projection_shape (board_of_text Ledger1.text) ∧
    (issues_of Ledger1.text = [] → issues_of text = []) ∧
    (text = Ledger1.text ∧ (Ledger1.run Ledger1_stuck).2 ≠ Ok "applied" ∨
     ∃ archive moved, archived (Ledger1.run Ledger1_stuck).1 = Some archive ∧ accounted Ledger1.text archive text moved).
Proof.
  pose proof (run_pair Ledger1_stuck) as H. revert H. generalize (Ledger1.run Ledger1_stuck). intros [d r] H.
  apply (compaction_loses_nothing _ _ _ _ _ _ _ _ _ _ _ Ledger1.text) in H; [exact H|reflexivity].
Defined.
