(* ===== verification/FocusGate.v ===== *)
(** * The coordinator's focus gate

    [chrono_state/focus_gate.py]: the hook that looks at the workboard at the
    turn boundaries of the coordinator, lets read-only tools and the repair of
    the board through, and refuses everything else while the board proves that
    the focus is invalid.  [ast.parse] with [ast.literal_eval] is an argument;
    so are the charter's resume point and the text of the output standard,
    which only end up in the anchor's text.  The warning and block messages
    contain a dash outside the text domain and are constructors here. *)
From S2P Require Import Prelude Regex Json Posix PyText PyTime Shlex Workboard.

#[local] Open Scope Z_scope.

(** ** Shell words *)

Definition METACHARS : string := ";&|<>".
Definition is_meta (c : ascii) : bool := char_in c METACHARS.
Definition backtick : ascii := "096"%char.

(** [_simple_shell_words] of a string. *)
Definition _simple_shell_words (command : string) : option (list string) :=
  if bool_decide (py_strip command = "") || char_in LF command || char_in CR command then None
  else match lex is_meta Between "" false command with
       | Err _ => None
       | Ok words =>
           if existsb (λ t, negb (bool_decide (t = "")) && str_forallb is_meta t) words then None
           else if existsb (λ t, str_in "$(" t || char_in backtick t) words then None
           else Some words
       end.

(** [_ASSIGNMENT] *)
Definition ident_start (c : ascii) : bool := is_lower c || is_upper c || bool_decide (c = "_"%char).
Definition ident_rest (c : ascii) : bool := is_alnum c || bool_decide (c = "_"%char).
Definition _ASSIGNMENT : re :=
  RSeq (RChr ident_start) (RSeq (RStar (RChr ident_rest)) (RSeq (rlit_char "=") (RStar (RChr (λ _, true))))).

Fixpoint drop_assignments (words : list string) : list string :=
  match words with
  | w :: ws => if fullmatch _ASSIGNMENT w then drop_assignments ws else words
  | [] => []
  end.

(** [Path(word).name] *)
Definition name_of (word : string) : string :=
  default "" (last (List.filter (λ p, negb (bool_decide (p = "")) && negb (bool_decide (p = "."))) (split_char "/"%char word))).

(** The interpreter's name: [python], [python3] or [python3] with dotted numbers. *)
Definition PYTHON_RE : re :=
  RSeq (rlit "python")
    (ropt (RSeq (rlit "3") (RStar (RSeq (rlit ".") (RSeq (RChr is_digit) (RStar (RChr is_digit))))))).

(** ** The repair command *)

(** What [ast.parse] gives of a program, as far as it is looked at: an import,
    a call of an attribute of a name, or anything else.  An argument is starred
    or a value, literal or not. *)
Variant argument := Starred | Value (literal : bool).
Record call := {
  callee : string * string;
  args : list argument;
  keywords_ : list (option string * bool)
}.
Variant stmt :=
  | ImportFrom (module : option string) (names : list (string * option string))
  | ExprCall (c : call)
  | OtherStmt.

Definition _literal_arguments (c : call) : bool :=
  negb (existsb (λ a, match a with Starred => true | Value _ => false end) (args c)) &&
  negb (existsb (λ kw, bool_decide (kw.1 = None)) (keywords_ c)) &&
  negb (existsb (λ kw, bool_decide (kw.1 = Some "path")) (keywords_ c)) &&
  forallb (λ a, match a with Value literal => literal | Starred => false end) (args c) &&
  forallb (λ kw, kw.2) (keywords_ c).

Definition imports_workboard (s : stmt) : bool :=
  match s with
  | ImportFrom (Some module) [(name, asname)] =>
      bool_decide (module ∈ ["chrono_state"; "scripts.python.chrono_state"]) && bool_decide (name = "workboard") &&
      bool_decide (asname ∈ [None; Some "workboard"])
  | _ => false
  end.
Definition calls_append (s : stmt) : bool :=
  match s with
  | ExprCall c => bool_decide (callee c = ("workboard", "append_event")) && _literal_arguments c
  | _ => false
  end.

Definition _SHELL_TOOLS : list string := ["Bash"; "PowerShell"].
Definition PYTHON_FLAGS : list string := ["-B"; "-E"; "-I"; "-s"; "-S"].

(** [words.index(x)] as the words before the first [x] and after it. *)
Fixpoint split_at_word (x : string) (words : list string) : option (list string * list string) :=
  match words with
  | [] => None
  | w :: ws =>
      if decide (w = x) then Some ([], ws)
      else match split_at_word x ws with Some (a, b) => Some (w :: a, b) | None => None end
  end.

Section Gate.
  (** [ast.parse(program, mode="exec").body]; [None] is the [SyntaxError]. *)
  Context (ast_parse : string → option (list stmt)).

(** The words after the assignments run [python <flags> -c program] and the
    program is the import and one literal append. *)
Definition repair_words (words : list string) : bool :=
  match words with
  | [] => false
  | executable :: rest =>
      fullmatch PYTHON_RE (name_of executable) &&
      match split_at_word "-c" (executable :: rest) with
      | Some (executable' :: flags, [program]) =>
          forallb (λ f, bool_decide (f ∈ PYTHON_FLAGS)) flags &&
          match ast_parse program with
          | Some [imported; invoked] => imports_workboard imported && calls_append invoked
          | _ => false
          end
      | _ => false
      end
  end.

(** [tool_input.get("command")] is a string or it is not simple. *)
Definition command_words (tool_input : list (string * json)) : option (list string) :=
  match dict_get "command" tool_input with Some (JStr s) => _simple_shell_words s | _ => None end.

Definition _looks_like_workboard_repair (tool_name : string) (tool_input : list (string * json)) : bool :=
  bool_decide (tool_name ∈ _SHELL_TOOLS) &&
  match command_words tool_input with Some words => repair_words (drop_assignments words) | None => false end.

(** ** Tools *)

Definition _READ_ONLY_TOOLS : list string :=
  ["Glob"; "Grep"; "LSP"; "ListMcpResources"; "Read"; "ReadMcpResource"; "TaskGet"; "TaskList"; "TaskOutput";
   "TodoRead"; "ToolSearch"; "WebFetch"; "WebSearch"].
Definition _READ_ONLY_SHELL_COMMANDS : list string :=
  ["basename"; "cat"; "cksum"; "cut"; "diff"; "dirname"; "du"; "file"; "grep"; "head"; "id"; "ls"; "md5"; "pwd";
   "readlink"; "rg"; "sha256sum"; "shasum"; "sort"; "stat"; "tail"; "test"; "true"; "uname"; "uniq"; "wc"; "which";
   "whoami"].
Definition _READ_ONLY_GIT_SUBCOMMANDS : list string :=
  ["cat-file"; "diff"; "diff-tree"; "grep"; "log"; "ls-files"; "ls-tree"; "rev-list"; "rev-parse"; "show"; "status"].
Definition FIND_ACTIONS : list string :=
  ["-delete"; "-exec"; "-execdir"; "-fls"; "-fprint"; "-fprint0"; "-fprintf"; "-ok"; "-okdir"].
Definition _READ_ONLY_MCP_PREFIXES : list string :=
  ["check"; "describe"; "fetch"; "find"; "get"; "health"; "inspect"; "list"; "lookup"; "open"; "query"; "read";
   "recall"; "resolve"; "search"; "show"; "status"; "validate"; "view"].
Definition _MUTATING_MCP_WORDS : list string :=
  ["add"; "append"; "apply"; "archive"; "cancel"; "close"; "commit"; "create"; "delete"; "deploy"; "dispatch"; "edit";
   "execute"; "install"; "launch"; "merge"; "patch"; "post"; "publish"; "put"; "record"; "remove"; "run"; "send"; "set";
   "spawn"; "stop"; "update"; "upload"; "write"].

Definition read_only_words (words : list string) : bool :=
  match words with
  | [] => false
  | word :: arguments =>
      let executable := name_of word in
      if bool_decide (executable = "git") then
        let writes_output := existsb (λ a, bool_decide (a = "--output") || startswith a "--output=") arguments in
        match arguments with
        | sub :: _ => bool_decide (sub ∈ _READ_ONLY_GIT_SUBCOMMANDS) && negb writes_output
        | [] => false
        end
      else if bool_decide (executable = "find") then negb (existsb (λ a, bool_decide (a ∈ FIND_ACTIONS)) arguments)
      else if bool_decide (executable = "sort") &&
              existsb (λ a, bool_decide (a = "-o") || startswith a "--output") arguments then false
      else bool_decide (executable ∈ _READ_ONLY_SHELL_COMMANDS)
  end.

Definition _simple_shell_is_read_only (command : string) : bool :=
  match _simple_shell_words command with Some words => read_only_words (drop_assignments words) | None => false end.

(** [name.rsplit("__", 1)[-1]] *)
Fixpoint after_dunder (s : string) : option string :=
  match s with
  | "" => None
  | String c s' =>
      match after_dunder s' with
      | Some r => Some r
      | None => if startswith s "__" then Some (str_drop 2 s) else None
      end
  end.

Variant disposition := READ_ONLY | REPAIR | MUTATING.

Definition mcp_disposition (tool_name : string) : disposition :=
  let operation := py_lower (default tool_name (after_dunder tool_name)) in
  let words := List.filter (λ p, negb (bool_decide (p = ""))) (split_char "_"%char operation) in
  if existsb (λ w, bool_decide (w ∈ _MUTATING_MCP_WORDS)) words then MUTATING
  else if existsb (λ p, bool_decide (operation = p) || startswith operation (p +:+ "_")) _READ_ONLY_MCP_PREFIXES
  then READ_ONLY else MUTATING.

Definition tool_disposition (tool_name : string) (tool_input : list (string * json)) : disposition :=
  if _looks_like_workboard_repair tool_name tool_input then REPAIR
  else if bool_decide (tool_name ∈ _READ_ONLY_TOOLS) then READ_ONLY
  else if bool_decide (tool_name ∈ _SHELL_TOOLS) &&
          match dict_get "command" tool_input with Some (JStr s) => _simple_shell_is_read_only s | _ => false end
  then READ_ONLY
  else if startswith tool_name "mcp__sequential_thinking__" then READ_ONLY
  else if startswith tool_name "mcp__" then mcp_disposition tool_name
  else MUTATING.
End Gate.

(** ** Notices of the harness *)

Definition CHRONO_NOTICE_PREFIX : string := "[vibesquad]".
Definition rplus (r : re) : re := RSeq r (RStar r).
Definition rseqs (l : list re) : re := foldr RSeq REps l.
Definition ralts (l : list re) : re := foldr RAlt RNone l.
Definition id_char (c : ascii) : bool := is_alnum c || char_in c "._-".
Definition lower_alnum (c : ascii) : bool := is_lower c || is_digit c.
Definition letter_dash (c : ascii) : bool := is_lower c || is_upper c || char_in c "_-".
Definition TASK : re := rseqs [rlit "TASK-"; RChr is_alnum; RStar (RChr id_char)].
Definition STATE : re :=
  rseqs [RChr is_lower; RStar (RChr lower_alnum); RStar (RSeq (rlit "-") (rplus (RChr lower_alnum)))].
Definition NAMESPACE : re := RSeq (RChr is_lower) (rrep 0 63 (RChr (λ c, lower_alnum c || char_in c "_-"))).
Definition DETAILS : re := rlit "; details: _state/chrono-queue.md.".
Definition DIGITS : re := rplus (RChr is_digit).
Definition COUNT : re := rseqs [STATE; rlit "="; DIGITS].
Definition ACTION : re :=
  rseqs [ralts (map rlit ["review-required"; "needs-review"; "needs-human"; "blocked"; "coordination-requested"]);
         rlit ": "; TASK; RStar (RSeq (rlit ", ") TASK)].

(** The patterns; the two with an arrow match no text of the domain. *)
Definition notice_patterns : list re :=
  [rseqs [STATE; rlit ": "; TASK; DETAILS; ropt (rlit " Coordination requested; see queue.")];
   rseqs [rlit "BOARD DIGEST: "; COUNT; RStar (RSeq (rlit ", ") COUNT);
          ropt (rseqs [rlit "; action: "; ACTION; RStar (RSeq (rlit "; ") ACTION)]); DETAILS;
          ropt (rseqs [rlit " Coordination requested in "; DIGITS; rlit " notice(s); see queue."])];
   rseqs [rlit "MONITOR: "; rplus (RChr letter_dash); rlit ": "; NAMESPACE; rlit "/"; TASK; rlit ".md parked "; DIGITS;
          rlit "m ("; rplus (RChr letter_dash); rlit "); coordinator action overdue"];
   rseqs [rlit "MONITOR: "; NAMESPACE; rlit " namespace has stale active task ("; TASK; rlit ".md, "; DIGITS; rlit "m old)"];
   rseqs [rlit "MONITOR: "; NAMESPACE; rlit " namespace received same task "; DIGITS; rlit "x in "; DIGITS;
          rlit "m - real thrash ("; RAlt (RSeq (rlit "repeated task id ") TASK) (rlit "duplicate body"); rlit ")"];
   rseqs [rlit "MONITOR: NOT_MEASURED thrash "; NAMESPACE; rlit ": skipped_task_ids="; DIGITS; rlit " measured_task_ids=";
          DIGITS; rlit " skipped_log_rows="; DIGITS]].

Definition removeprefix (p s : string) : string := if startswith s p then str_drop (String.length p) s else s.

Definition is_harness_notice (prompt : json) : bool :=
  match prompt with
  | JStr s =>
      let text := py_strip s in
      if bool_decide (text = "") || char_in LF text || char_in CR text then false
      else let text := removeprefix (CHRONO_NOTICE_PREFIX +:+ " ") text in existsb (λ p, fullmatch p text) notice_patterns
  | _ => false
  end.

(** ** Worktrees of the board *)

Fixpoint adjacent (a b : string) (parts : list string) : bool :=
  match parts with
  | x :: (y :: _) as rest => (bool_decide (x = a) && bool_decide (y = b)) || adjacent a b rest
  | _ => false
  end.

Definition slashes (s : string) : string :=
  (fix go s := match s with "" => "" | String c s => String (if is_backslash c then "/"%char else c) (go s) end) s.

Definition is_board_worktree_path (path : string) : bool :=
  adjacent "_state" "board-worktrees"
    (List.filter (λ p, negb (bool_decide (p = "")) && negb (bool_decide (p = "."))) (split_char "/"%char (slashes path))).

(** ** Decisions *)

(** The ledger as the hook finds it; [resolved] is its resolved path without
    the root. *)
Variant found := NotRegular | Unreadable (e : exn) | Content (text : string).
Record Ledger := { content : found; resolved : list string }.

Variant warning :=
  | UnsupportedEvent (event : string)
  | NotAFile
  | ReadError (e : exn)
  | Untrusted (details : list string)
  | NonFocus (issues : list string)
  | AnchorError (e : exn)
  | ReminderError (e : exn)
  | BadPayload (e : exn).

(** The block message: its issues, the next-action line and the repair. *)
Record blocked := { block_issues : list string; next_action_line : string; repair_command : option string }.

Variant message :=
  | NoMessage
  | FailOpen (w : warning)
  | Plain (text : string)
  | PlainAndWarning (text : string) (w : warning)
  | Invalid (b : blocked)
  | InvalidAllowed (b : blocked) (d : disposition) (tool_name : string).

Variant gate_state := valid | invalid | fail_open.
Record GateDecision := { allow : bool; decision_message : message; decision_state : gate_state }.

Definition _fail_open (w : warning) : GateDecision := {| allow := true; decision_message := FailOpen w; decision_state := fail_open |}.

Definition _FOCUS_ISSUE_PREFIXES : list string :=
  ["structured workboard must project exactly one active item";
   "structured workboard must project exactly one literal next_action";
   "projected next_action must not be blank";
   "workboard cannot declare both idle and waiting";
   "declared waiting focus must identify exactly one open work_id"].
Definition _focus_issue (issue : string) : bool := existsb (startswith issue) _FOCUS_ISSUE_PREFIXES.

(** The projection and its issues, or the decision to fail open. *)
Definition _validated_projection (l : Ledger) : GateDecision + Board * list string :=
  match content l with
  | NotRegular => inl (_fail_open NotAFile)
  | Unreadable e => inl (_fail_open (ReadError e))
  | Content text =>
      let doc := _parse_workboard_text text in
      let b := project_workboard doc in
      if negb (bool_decide (document_issues doc = [])) || negb (bool_decide (transition_issues b = [])) then
        inl (_fail_open (Untrusted (dedupe ∅ (document_issues doc ++ transition_issues b))))
      else
        let issues := validate_workboard doc b in
        let non_focus := List.filter (λ i, negb (_focus_issue i)) issues in
        if negb (bool_decide (non_focus = [])) then inl (_fail_open (NonFocus non_focus)) else inr (b, issues)
  end.

Definition _active_item (b : Board) : option WorkItem :=
  match active_work_id b with
  | None => None
  | Some id => List.find (λ i, bool_decide (work_id i = id) && bool_decide (state i = Active)) (prominent_items b)
  end.

(** [text.count(needle)]: occurrences that do not overlap. *)
Fixpoint count_from (fuel : nat) (needle text : string) : nat :=
  match fuel with
  | O => O
  | S fuel => match cut needle text with Some (_, rest) => S (count_from fuel needle rest) | None => O end
  end.
Definition str_count (needle text : string) : nat := count_from (S (String.length text)) needle text.

Definition REMINDER_START : string := "<!-- focus-gate-reminder:start -->".
Definition REMINDER_END : string := "<!-- focus-gate-reminder:end -->".
Definition _OUTPUT_STANDARD_REL : string := "docs/standards/operator-facing-output-standard.md".

Definition _operator_output_reminder (standard : res string) : res string :=
  standard ← standard;
  raise_if (negb (str_count REMINDER_START standard =? 1)%nat || negb (str_count REMINDER_END standard =? 1)%nat)
    ValueError "operator-output standard must contain one reminder excerpt";;
  let following := match cut REMINDER_START standard with Some (_, rest) => rest | None => "" end in
  match cut REMINDER_END following with
  | Some (excerpt, _) =>
      raise_if (bool_decide (py_strip excerpt = "")) ValueError "operator-output reminder excerpt is empty or out of order";;
      Ok ("OPERATOR OUTPUT (" +:+ _OUTPUT_STANDARD_REL +:+ "): " +:+ py_join " " (py_words excerpt))
  | None => Err (Exn ValueError "operator-output reminder excerpt is empty or out of order")
  end.

Definition ANCHOR_CLASSIFY : string :=
  "Before any dispatch or mutation, classify the incoming message as FOLD / QUEUE / DROP relative to this active thread.".
Definition ANCHOR_MECHANISM : string :=
  "Before any packet or plan edit that adds a mechanism (a cap, key, approval, claim step, schedule, or safety layer), quote the operator sentence that asked for it in your message; if none exists, do not add it.".
Definition newlines (ls : list string) : string := py_join (String LF "") ls.

(** [resume_point] is the charter's return point and where it was read. *)
Definition _active_context (b : Board) (resume_point : string * string) : res string :=
  match _active_item b, next_action b, active_work_id b, active_item_id b with
  | Some item, Some action, Some id, Some display =>
      Ok (newlines
        ["TURN-BOUNDARY FOCUS ANCHOR"; "active_work_id: " +:+ id; "active_item_id: " +:+ display;
         "ACTIVE ITEM: " +:+ summary item;
         "WHY: " +:+ default "<not recorded in the workboard why field>" (truthy_str (why item));
         "NEXT ACTION: " +:+ default action (truthy_str (Some resume_point.1));
         "NEXT ACTION SOURCE: " +:+ resume_point.2; ANCHOR_CLASSIFY; ANCHOR_MECHANISM])
  | _, _, _, _ => Err (Exn ValueError "valid active projection has no matching item or next_action")
  end.

Definition _pause_context (b : Board) : string :=
  if idle b then newlines ["TURN-BOUNDARY FOCUS ANCHOR"; "focus: declared idle (no commitment)"]
  else match waiting_work_id b with
  | None => ""
  | Some w =>
      let item := List.find (λ i, bool_decide (work_id i = w)) (prominent_items b) in
      let alias := match item with Some i => alias i | None => w end in
      let action := match item with Some i => resume_action i | None => None end in
      newlines ["TURN-BOUNDARY FOCUS ANCHOR"; "focus: declared waiting on " +:+ alias;
                "resume_action (literal): " +:+ default "<not projected>" (truthy_str action)]
  end.

(** ** The printed repair *)

Definition WORKBOARD_PARTS : list string := ["_state"; "chrono"; "OPEN-WORK.md"].
Definition _REPAIR_PROGRAM : string := "from chrono_state import workboard; workboard.append_event('idle')".
Definition abs_str (parts : list string) : string := "/" +:+ py_join "/" parts.

Definition repair_line (interpreter : string) (root : list string) : string :=
  py_join " "
    [assignment ("VAULT_ROOT", abs_str root); assignment ("PYTHONPATH", abs_str (root ++ ["scripts"; "python"]));
     shlex_quote interpreter; "-c"; shlex_quote _REPAIR_PROGRAM].

Definition _workboard_repair_command (interpreter : string) (l : Ledger) : option string :=
  let n := (length (resolved l) - 3)%nat in
  if bool_decide (drop n (resolved l) = WORKBOARD_PARTS) then Some (repair_line interpreter (take n (resolved l))) else None.

Definition _invalid_message (interpreter : string) (l : Ledger) (b : Board) (issues : list string) : blocked :=
  {| block_issues := issues;
     next_action_line := match next_action b with
                  | None => "NEXT ACTION: <none projected; restore one active item or explicitly declare idle/waiting>"
                  | Some a => "NEXT ACTION: " +:+ a
                  end;
     repair_command := _workboard_repair_command interpreter l |}.

(** ** The gate *)

Definition USER_PROMPT_SUBMIT : string := "UserPromptSubmit".
Definition PRE_TOOL_USE : string := "PreToolUse".
Definition STOP : string := "Stop".
Definition SUPPORTED_EVENTS : list string := [USER_PROMPT_SUBMIT; PRE_TOOL_USE; STOP].

(** What a hook call carries and what the gate reads besides the ledger. *)
Record Call := {
  hook_event : string;
  tool_name : string;
  tool_input : list (string * json);
  stop_hook_active : bool;
  prompt : json
}.
Record Around := { interpreter : string; resume_point : string * string; output_standard : res string }.

Section Decide.
  Context (ast_parse : string → option (list stmt)) (env : Around).

(** The anchor of a valid focus. *)
Definition prompt_decision (b : Board) : GateDecision :=
  match (match active_work_id b with Some _ => _active_context b (resume_point env) | None => Ok (_pause_context b) end) with
  | Err e => _fail_open (AnchorError e)
  | Ok context =>
      match _operator_output_reminder (output_standard env) with
      | Err e => {| allow := true; decision_message := PlainAndWarning context (ReminderError e); decision_state := fail_open |}
      | Ok reminder =>
          {| allow := true; decision_message := Plain (newlines [context; reminder]); decision_state := valid |}
      end
  end.

Definition decide_ (l : Ledger) (c : Call) : GateDecision :=
  let plain a s := {| allow := a; decision_message := NoMessage; decision_state := s |} in
  if negb (bool_decide (hook_event c ∈ SUPPORTED_EVENTS)) then _fail_open (UnsupportedEvent (hook_event c))
  else if bool_decide (hook_event c = USER_PROMPT_SUBMIT) && is_harness_notice (prompt c) then plain true valid
  else match _validated_projection l with
  | inl failure => failure
  | inr (b, issues) =>
      let message := _invalid_message (interpreter env) l b issues in
      if bool_decide (hook_event c = USER_PROMPT_SUBMIT) then
        if negb (bool_decide (issues = [])) then {| allow := true; decision_message := Invalid message; decision_state := invalid |}
        else prompt_decision b
      else if bool_decide (issues = []) then plain true valid
      else if bool_decide (hook_event c = PRE_TOOL_USE) then
        match tool_disposition ast_parse (tool_name c) (tool_input c) with
        | MUTATING => {| allow := false; decision_message := Invalid message; decision_state := invalid |}
        | d => {| allow := true; decision_message := InvalidAllowed message d (tool_name c); decision_state := invalid |}
        end
      else if stop_hook_active c then plain true invalid
      else {| allow := false; decision_message := Invalid message; decision_state := invalid |}
  end.

(** ** The hook *)

(** The object printed: context for the turn, with or without a warning for the
    operator; a denial; a block; a warning alone. *)
Variant output :=
  | Silent
  | AdditionalContext (event : string) (m : message) (warned : bool)
  | Deny (m : message)
  | Block (m : message)
  | SystemMessage (m : message).

Definition has_message (m : message) : bool := match m with NoMessage => false | _ => true end.
Definition is_fail_open (d : GateDecision) : bool := match decision_state d with fail_open => true | _ => false end.

Definition render_hook_output (event : string) (d : GateDecision) : output :=
  let m := decision_message d in
  if bool_decide (event = USER_PROMPT_SUBMIT) then
    if has_message m then AdditionalContext USER_PROMPT_SUBMIT m (is_fail_open d) else Silent
  else if bool_decide (event = PRE_TOOL_USE) then
    if negb (allow d) then Deny m
    else if has_message m then AdditionalContext PRE_TOOL_USE m (is_fail_open d) else Silent
  else if bool_decide (event = STOP) then
    if negb (allow d) then Block m else if is_fail_open d then SystemMessage m else Silent
  else if has_message m then SystemMessage m else Silent.

Definition str_payload (k : string) (payload : list (string * json)) : option string :=
  match dict_get k payload with Some (JStr s) => Some s | _ => None end.

Definition call_of_payload (payload : list (string * json)) : Call :=
  {| hook_event := default "" (str_payload "hook_event_name" payload);
     tool_name := default "" (str_payload "tool_name" payload);
     tool_input := match dict_get "tool_input" payload with Some (JObj d) => d | _ => [] end;
     stop_hook_active := match dict_get "stop_hook_active" payload with Some (JBool b) => b | _ => false end;
     prompt := default JNull (dict_get "prompt" payload) |}.

(** [main]: what it prints; its exit code is always 0. *)
Definition main (payload : res json) (cwd : string) (l : Ledger) : output :=
  match payload with
  | Err e => SystemMessage (FailOpen (BadPayload e))
  | Ok (JObj payload) =>
      if is_board_worktree_path cwd || is_board_worktree_path (default "" (str_payload "cwd" payload)) then Silent
      else let c := call_of_payload payload in render_hook_output (hook_event c) (decide_ l c)
  | Ok _ => SystemMessage (FailOpen (BadPayload (Exn TypeError "hook input must be one JSON object")))
  end.
End Decide.
