(* ===== verification/FocusGateProps.v ===== *)
(** * The coordinator's focus gate: properties

    When the gate refuses, that a refusal can always be repaired by the command
    it prints, that this command is let through, and what a command it takes
    for read-only cannot contain. *)
From S2P Require Import Prelude Regex Json PyText JsonProps PyTime Shlex Workboard WorkboardProps WorkboardAppend FocusGate.

#[local] Open Scope Z_scope.

(** ** The classification of issues *)

Lemma dedupe_incl seen l x : x ∈ dedupe seen l → x ∈ l.
Proof.
  revert seen. induction l as [|y l IH]; intros seen; [done|]. cbn. case_decide.
  - intros H'%IH. by right.
  - intros [->|H'%IH]%elem_of_cons; [by left|by right].
Qed.

Lemma dedupe_in l x : x ∈ dedupe ∅ l ↔ x ∈ l.
Proof. split; [apply dedupe_incl|]. intros H. apply dedupe_elem; [done|set_solver]. Qed.

(** The issues a ledger's items have besides the focus. *)
Definition item_issue (b : Board) (i : WorkItem) : list string :=
  when (bool_decide (work_id i ∈ terminal_work_ids b)) ("terminal item " +:+ alias i +:+ " also appears open") ++
  when (negb (nonempty (resume_action i))) ("open item " +:+ alias i +:+ " has no literal resume action").

Lemma when_in {A} b (a x : A) : x ∈ when b a ↔ b = true ∧ x = a.
Proof. destruct b; cbn; [rewrite list_elem_of_singleton|rewrite elem_of_nil]; naive_solver. Qed.

Lemma item_not_focus b i x : x ∈ item_issue b i → _focus_issue x = false.
Proof. unfold item_issue. rewrite elem_of_app, !when_in. intros [[_ ->]|[_ ->]]; by cbn. Qed.

Lemma focus_issue_cases b x : x ∈ focus_issues b → _focus_issue x = true ∨ ∃ i, i ∈ open_items b ∧ x ∈ item_issue b i.
Proof.
  unfold focus_issues. rewrite !elem_of_app. intros [H|[H|[H|[H|H]]]]; [left..|right].
  - case_match.
    + apply list_elem_of_singleton in H as ->. by cbn.
    + apply when_in in H as [_ ->]. by cbn.
  - case_match.
    + apply list_elem_of_singleton in H as ->. by cbn.
    + apply when_in in H as [_ ->]. by cbn.
  - apply when_in in H as [_ ->]. by cbn.
  - destruct (waiting_work_id b); [|by apply elem_of_nil in H]. apply when_in in H as [_ ->]. by cbn.
  - apply list_elem_of_In, in_concat in H as (l & (i & <- & Hi)%in_map_iff & Hx). exists i.
    split; by apply list_elem_of_In.
Qed.

(** Only the rule that every open item has a resume action is not about the focus. *)
Lemma non_focus_spec doc :
  let b := project_workboard doc in
  (∀ x, x ∈ focus_issues b → _focus_issue x = true) ↔ actions_present b.
Proof.
  intros b. pose proof (proj1 (item_issues b (project_ok doc))) as Hto. pose proof (proj2 (item_issues b (project_ok doc))) as Hof.
  fold (item_issue b) in Hto, Hof. change (λ i, item_issue b i) with (item_issue b) in *. split.
  - intros H. apply Hto, concat_map_nil. intros i Hi. apply elem_of_nil_inv. intros x Hx.
    assert (Hf : x ∈ focus_issues b).
    { unfold focus_issues. rewrite !elem_of_app. do 4 right. apply list_elem_of_In, in_concat. exists (item_issue b i).
      split; [apply in_map_iff; exists i; split; [done|]|]; by apply list_elem_of_In. }
    apply H in Hf. by rewrite (item_not_focus b i x Hx) in Hf.
  - intros Ha x [Hx|(i & Hi & Hx)]%focus_issue_cases; [done|]. apply Hof in Ha. rewrite concat_map_nil in Ha.
    rewrite (Ha i Hi) in Hx. by apply elem_of_nil in Hx.
Qed.

(** The issues of a ledger without a document or transition issue. *)
Lemma validate_clean doc :
  let b := project_workboard doc in
  document_issues doc = [] → transition_issues b = [] →
  ∀ x, x ∈ validate_workboard doc b ↔ has_structured_events doc = true ∧ x ∈ focus_issues b.
Proof.
  intros b Hd Ht x. unfold validate_workboard. fold b. rewrite Hd, Ht, dedupe_in. cbn [app when].
  change (negb (bool_decide (TERMINAL_KINDS = ["complete"; "archive"; "drop"]))) with false.
  change (bool_decide (COMPACTION_KIND ∈ TERMINAL_KINDS)) with false. cbn [when app].
  destruct (has_structured_events doc); [naive_solver|]. rewrite elem_of_nil. naive_solver.
Qed.

(** A ledger the gate trusts: it reads, and every issue is about the focus. *)
Record trusted (l : Ledger) (text : string) : Prop := {
  tr_content : content l = Content text;
  tr_document : document_issues (_parse_workboard_text text) = [];
  tr_steps : transition_issues (project_workboard (_parse_workboard_text text)) = []
}.

Definition structured (text : string) : Prop := has_structured_events (_parse_workboard_text text) = true.

Lemma filter_nil {A} (p : A → bool) l : List.filter p l = [] ↔ ∀ x, x ∈ l → p x = false.
Proof.
  split.
  - intros H x Hx. destruct (p x) eqn:E; [|done]. exfalso. apply (not_elem_of_nil x). rewrite <- H. by apply elem_of_filter_list.
  - intros H. apply elem_of_nil_inv. intros x [Hx Hp]%elem_of_filter_list. by rewrite (H x Hx) in Hp.
Qed.

(** The projection is taken, with something wrong in it, exactly when the focus is. *)
Lemma validated_spec l :
  (∃ b issues, _validated_projection l = inr (b, issues) ∧ issues ≠ []) ↔
  ∃ text, trusted l text ∧ structured text ∧
    let b := project_workboard (_parse_workboard_text text) in actions_present b ∧ ¬ focus b.
Proof.
  unfold _validated_projection. split.
  - intros (b' & issues & H & Hne). destruct (content l) as [| |text] eqn:Hc; [done..|]. exists text.
    destruct (negb _ || negb _) eqn:Hd; [done|]. apply orb_false_iff in Hd as [Hd Ht]. bool_inv.
    case_match eqn:Hf; [done|]. injection H as <- <-. apply negb_false_iff, bool_decide_eq_true in Hf.
    rewrite filter_nil in Hf. pose proof (validate_clean (_parse_workboard_text text) Hd Ht) as Hv.
    destruct (has_structured_events (_parse_workboard_text text)) eqn:Hs.
    2:{ exfalso. apply Hne, elem_of_nil_inv. intros x Hx%Hv. naive_solver. }
    split; [done|]. split; [done|].
    assert (Ha : actions_present (project_workboard (_parse_workboard_text text))).
    { apply non_focus_spec. intros x Hx. apply negb_false_iff, Hf, Hv. done. }
    split; [done|]. intros Hfoc. apply Hne, elem_of_nil_inv. intros x [_ Hx]%Hv.
    rewrite (proj2 (focus_rules_spec _) (conj Hfoc Ha)) in Hx. by apply elem_of_nil in Hx.
  - intros (text & [Hc Hd Ht] & Hs & Ha & Hnf). rewrite Hc, Hd, Ht. cbn [bool_decide negb orb].
    rewrite !(bool_decide_eq_true_2 ([] = [])) by done. cbn [negb orb].
    pose proof (validate_clean (_parse_workboard_text text) Hd Ht) as Hv.
    rewrite (proj2 (filter_nil _ _)).
    2:{ intros x [_ Hx]%Hv. apply negb_false_iff. by eapply non_focus_spec. }
    rewrite bool_decide_eq_true_2 by done. cbn [negb]. do 2 eexists. split; [done|]. intros E. apply Hnf.
    apply focus_rules_spec. apply elem_of_nil_inv. intros x Hx. apply (not_elem_of_nil x). rewrite <- E. by apply Hv.
Qed.

(** ** The repair *)

(** A call [append_event('idle')] with a readable clock. *)
Record idle_call (a : AppendArgs) : Prop := {
  ic_kind : arg_kind a = "idle";
  ic_id : arg_event_id a = None;
  ic_at : arg_at a = None;
  ic_facts : arg_facts a = [];
  ic_token : one_line (event_token a) = true;
  ic_clock : one_line (clock a) = true;
  ic_some : blank (clock a) = false;
  ic_time : ∃ t off, fromisoformat (replace_Z (clock a)) = Some (t, Some off)
}.

Definition idle_id (a : AppendArgs) : string := "EV-" +:+ event_token a.
Definition idle_event (a : AppendArgs) (n : Z) : WorkEvent :=
  {| event_id := idle_id a; at_ := clock a; kind := "idle"; fields := []; line_number := n |}.

Lemma no_keywords : keywords [].
Proof. constructor; [constructor|constructor|]. intros k _ ?%elem_of_nil. done. Qed.

Lemma idle_schema a n : idle_call a → schema_complaints (idle_event a n) = [].
Proof.
  intros [_ _ _ _ _ _ _ (t & off & Ht)]. unfold schema_complaints, idle_event. cbn [kind fields at_].
  rewrite Ht. vm_compute. reflexivity.
Qed.

Lemma one_line_char c s : is_break c = true → one_line s = true → char_in c s = false.
Proof.
  intros Hc Hs. apply (str_forallb_not_in no_break); [done|]. unfold no_break. by rewrite Hc.
Qed.

Lemma idle_not_blank a : idle_call a → blank (idle_id a) = false.
Proof.
  intros _. unfold blank, idle_id, py_strip. apply bool_decide_eq_false.
  rewrite str_app_cons, lstrip_by_head by done. cbn [rstrip_by]. by destruct (rstrip_by py_isspace _).
Qed.

Lemma idle_line_read a n : idle_call a →
  _parse_event_line (event_text (event_values "idle" (idle_id a) (clock a) [])) n = (Some (idle_event a n), []).
Proof.
  intros Ha. destruct (values_plain "idle" (idle_id a) (clock a) [] no_keywords) as (E & Hi & _).
  rewrite line_tokens by (try done; by rewrite E). rewrite formatted_tokens by exact no_keywords. cbv zeta.
  cbn [List.filter snd]. rewrite idle_not_blank, (ic_some a Ha) by done. change (blank "idle") with false. reflexivity.
Qed.

Lemma idle_format a : idle_call a →
  format_event "idle" (idle_id a) (clock a) [] = Ok (event_text (event_values "idle" (idle_id a) (clock a) [])).
Proof.
  intros Ha. unfold format_event, consistency. change (py_lower "idle") with "idle".
  destruct (values_plain "idle" (idle_id a) (clock a) [] no_keywords) as (E & _ & _).
  rewrite idle_line_read by done. unfold _event_schema_issues. rewrite idle_schema by done.
  rewrite E. cbn [existsb snd app]. unfold idle_id.
  rewrite !char_in_app, !(one_line_char LF), !(one_line_char CR) by (done || apply Ha). reflexivity.
Qed.

Lemma idle_one_line a : idle_call a → one_line (event_text (event_values "idle" (idle_id a) (clock a) [])) = true.
Proof.
  intros Ha. destruct (values_plain "idle" (idle_id a) (clock a) [] no_keywords) as (E & Hi & _).
  apply event_text_one_line; [done|]. rewrite E. repeat constructor; cbn; [|apply Ha].
  unfold idle_id. rewrite one_line_app. by rewrite (ic_token a Ha).
Qed.

(** The board after the repair: nobody active, declared idle. *)
Lemma idle_items e index b i :
  i ∈ open_items (declare_idle e index b) → ∃ j, j ∈ open_items b ∧ resume_action i = resume_action j ∧ state i ≠ Active.
Proof.
  unfold open_items, declare_idle. cbn. intros Hi. apply list_elem_of_fmap in Hi as ([k i'] & -> & Hi).
  apply list_elem_of_fmap in Hi as ([k' j] & [= -> ->] & Hj). exists j. cbn.
  split; [by apply (list_elem_of_fmap_2 snd _ (k', j))|]. destruct (in_focus j) eqn:Hf; [done|]. split; [done|].
  intros Hs. unfold in_focus in Hf. rewrite Hs in Hf. done.
Qed.

Lemma idle_board e index b :
  actions_present b → let b' := declare_idle e index b in focus b' ∧ actions_present b' ∧ active_items b' = [].
Proof.
  intros Ha b'. assert (Hact : active_items b' = []).
  { unfold active_items. apply filter_nil. intros i (j & _ & _ & Hs)%idle_items. by apply bool_decide_eq_false. }
  split; [by apply focus_idle|]. split; [|done]. intros i (j & Hj & -> & _)%idle_items. by apply Ha.
Qed.

Lemma idle_normalized draws given doc b : _normalize_append_facts draws "idle" given doc b = Ok given.
Proof. reflexivity. Qed.

Section Repair.
  Context (text : string) (a : AppendArgs) (l : Ledger).
  Hypotheses (Hidle : idle_call a) (Hend : lf_ended text) (Htrust : trusted l text)
    (Hact : actions_present (project_workboard (_parse_workboard_text text)))
    (Hnew : idle_id a ∉ map event_id (events_of (_parse_workboard_text text))).

Let repair_line_ := event_text (event_values "idle" (idle_id a) (clock a) []).
Let repair_text := (if bool_decide (text = "") then OPEN_WORK_HEADER else "") +:+ snoc repair_line_ LF.
Let old_doc := _parse_workboard_text text.
Let old_board := project_workboard old_doc.
Let repair_event := idle_event a (next_line text).

Lemma repaired_document : _parse_workboard_text (text +:+ repair_text) = add_line old_doc ([Event repair_event], [], true).
Proof using Hidle Hend.
  unfold repair_text, repair_line_. rewrite appended_document by (done || by apply idle_one_line). by rewrite idle_line_read.
Qed.

Lemma repaired_board :
  project_workboard (add_line old_doc ([Event repair_event], [], true)) =
  declare_idle repair_event (Z.of_nat (length (records old_doc))) (add_seen (idle_id a) old_board).
Proof using Hidle Hnew.
  unfold project_workboard. cbn [records add_line]. rewrite project_app. cbn [project_from apply_record].
  rewrite Z.add_0_l. unfold apply_event, _event_schema_issues. unfold repair_event. rewrite idle_schema by done. cbn [map].
  rewrite bool_decide_eq_true_2 by done. cbn [negb event_id idle_event]. rewrite bool_decide_eq_false_2; [done|].
  intros [Hx|Hx]%project_seen; [by apply elem_of_empty in Hx|]. by apply Hnew.
Qed.

Lemma repaired_valid :
  let doc' := _parse_workboard_text (text +:+ repair_text) in
  document_issues doc' = [] ∧ transition_issues (project_workboard doc') = [] ∧
  focus (project_workboard doc') ∧ actions_present (project_workboard doc') ∧ active_items (project_workboard doc') = [].
Proof using Hidle Hend Htrust Hact Hnew.
  intros doc'. unfold doc'. rewrite repaired_document, repaired_board. destruct Htrust as [_ Hd Ht]. split.
  { cbn. by rewrite app_nil_r. }
  split; [exact Ht|]. destruct (idle_board repair_event (Z.of_nat (length (records old_doc))) (add_seen (idle_id a) old_board) Hact) as (? & ? & ?).
  done.
Qed.

Lemma repaired_clean : let doc' := _parse_workboard_text (text +:+ repair_text) in validate_workboard doc' (project_workboard doc') = [].
Proof using Hidle Hend Htrust Hact Hnew.
  intros doc'. destruct repaired_valid as (Hd & Ht & Hf & Ha & _). apply elem_of_nil_inv. intros x Hx.
  apply (validate_clean doc' Hd Ht) in Hx as [_ Hx]. rewrite (proj2 (focus_rules_spec doc') (conj Hf Ha)) in Hx.
  by apply elem_of_nil in Hx.
Qed.

Lemma repair_admitted : admit_append text a = Ok (repair_text, repair_event).
Proof using Hidle Hend Htrust Hact Hnew.
  destruct repaired_valid as (_ & _ & Hf & _ & Hai). unfold admit_append.
  rewrite (ic_kind a Hidle), (ic_facts a Hidle), (ic_id a Hidle), (ic_at a Hidle). change (py_lower "idle") with "idle".
  unfold str_or at 1 2. cbn [truthy_str default from_option].
  fold (idle_id a). rewrite idle_normalized, bind_ret, idle_format, bind_ret by done. fold repair_line_.
  rewrite rstrip_newline by (apply event_text_end; by rewrite (proj1 (values_plain _ _ _ _ no_keywords))).
  unfold repair_line_ at 1. rewrite idle_line_read by done. cbv zeta. fold repair_text.
  rewrite repaired_clean. rewrite repaired_document, events_of_add, find_last by (by apply bool_decide_eq_true_2).
  rewrite <- repaired_document. unfold consistency. cbn [_added_issues]. rewrite bool_decide_eq_true_2 by done.
  cbn [negb raise_if]. unfold _event_is_reflected. cbn [event_id repair_event idle_event kind].
  rewrite bool_decide_eq_false_2 by done. rewrite bool_decide_eq_false_2 by by_decide.
  change (bool_decide ("idle" = IDLE_KIND)) with true. cbn iota.
  rewrite repaired_document, repaired_board in Hai |- *. unfold active_work_id, sole_active. rewrite Hai. reflexivity.
Qed.
End Repair.

(** ** What a simple command cannot contain *)

(** How a POSIX shell reads a character: bare, in single or double quotes, or
    after a backslash. *)
Inductive quoting := Bare | Single | Double | Skip (back : quoting).
Fixpoint bare_chars (q : quoting) (s : string) : string :=
  match s with
  | "" => ""
  | String c s =>
      match q with
      | Bare =>
          if is_backslash c then bare_chars (Skip Bare) s
          else if bool_decide (c = single_quote) then bare_chars Single s
          else if bool_decide (c = quote_char) then bare_chars Double s
          else String c (bare_chars Bare s)
      | Single => bare_chars (if bool_decide (c = single_quote) then Bare else Single) s
      | Double => bare_chars (if is_backslash c then Skip Double else if bool_decide (c = quote_char) then Bare else Double) s
      | Skip back => bare_chars back s
      end
  end.

Definition quoting_of (st : lexer) : quoting :=
  let quoted q := if bool_decide (q = quote_char) then Double else Single in
  match st with
  | Between | Word | Punct => Bare
  | Quoted q => quoted q
  | Escaped None => Skip Bare
  | Escaped (Some q) => Skip (quoted q)
  end.

(** The lexer's states: a quote is one of the two, and only double quotes escape. *)
Definition lexer_ok (st : lexer) : Prop :=
  match st with
  | Quoted q => is_quote q = true
  | Escaped (Some q) => q = quote_char
  | _ => True
  end.

Section Words.
  Context (punct : ascii → bool) (Hspace : ∀ c, shell_space c = true → punct c = false).

Lemma space_plain c : shell_space c = true → is_backslash c = false ∧ is_quote c = false.
Proof. destruct c as [[] [] [] [] [] [] [] []]; vm_compute; intros; split; congruence. Qed.

(** The word being read is a prefix of one of the words. *)
Lemma emit_Ok tok b rest ws : emit tok b rest = Ok ws → ∃ ws', rest = Ok ws' ∧ ws = if pending tok b then tok :: ws' else ws'.
Proof. unfold emit. destruct (pending tok b); [intros (ws' & -> & [= <-])%bind_Ok|]; eauto. Qed.

Lemma pending_tok tok b : tok ≠ "" → pending tok b = true.
Proof. intros H. unfold pending. by rewrite bool_decide_eq_false_2. Qed.

Lemma word_kept s st tok b ws :
  tok ≠ "" → st ≠ Between → lex punct st tok b s = Ok ws → ∃ t, (tok +:+ t) ∈ ws.
Proof.
  assert (Hs : ∀ t c, snoc t c ≠ "") by (by intros [] ?).
  revert st tok b ws. induction s as [|c s IH]; intros st tok b ws Ht Hst; cbn [lex].
  - destruct st; try done; rewrite pending_tok by done; intros [= <-]; exists ""; rewrite str_app_nil_r; by left.
  - assert (Hnow : ∀ b rest, emit tok b rest = Ok ws → ∃ t, (tok +:+ t) ∈ ws).
    { intros b' rest (ws' & _ & ->)%emit_Ok. rewrite pending_tok by done. exists "". rewrite str_app_nil_r. by left. }
    assert (Hone : ∀ d st b, st ≠ Between → lex punct st (snoc tok d) b s = Ok ws → ∃ t, (tok +:+ t) ∈ ws).
    { intros d st' b' Hst' (t & Hin)%IH; [|done|done]. exists (String d t). by rewrite snoc_app in Hin. }
    destruct st as [| | |q|back].
    + done.
    + destruct (shell_space c); [apply Hnow|]. destruct (is_quote c); [by apply IH|].
      destruct (is_backslash c); [by apply IH|]. destruct (punct c); [apply Hnow|by apply Hone].
    + destruct (shell_space c); [apply Hnow|]. destruct (punct c); [by apply Hone|apply Hnow].
    + case_bool_decide; [by apply IH|]. destruct (_ && _); [by apply IH|by apply Hone].
    + cbv zeta. destruct back as [q|]; [destruct (negb _ && negb _)|]; [|by apply Hone..].
      intros (t & Hin)%IH; [|done|done]. exists (String backslash (String c t)).
      by rewrite !snoc_app in Hin.
Qed.

(** A word of punctuation alone. *)
Definition all_punct (w : string) : bool := negb (bool_decide (w = "")) && str_forallb punct w.

Lemma all_punct_snoc w c : str_forallb punct w = true → punct c = true → all_punct (snoc w c) = true.
Proof.
  intros Hw Hc. unfold all_punct, snoc. rewrite str_forallb_app, Hw. cbn. rewrite Hc. by destruct w.
Qed.

(** A character in the open is not lost: what is bare and punctuation is in a
    word of punctuation. *)
Lemma punct_word s b tok ws : all_punct tok = true → lex punct Punct tok b s = Ok ws → ∃ w, w ∈ ws ∧ all_punct w = true.
Proof.
  revert tok b. induction s as [|c s IH]; intros tok b Ht; cbn [lex].
  - unfold all_punct in Ht. bool_inv. rewrite pending_tok by done. intros [= <-]. exists tok. split; [by left|].
    unfold all_punct. rewrite bool_decide_eq_false_2 by done. done.
  - assert (Hne : tok ≠ "") by (unfold all_punct in Ht; bool_inv; done).
    assert (Hnow : ∀ b rest, emit tok b rest = Ok ws → ∃ w, w ∈ ws ∧ all_punct w = true).
    { intros b' rest (ws' & _ & ->)%emit_Ok. rewrite pending_tok by done. exists tok. split; [by left|done]. }
    destruct (shell_space c); [apply Hnow|]. destruct (punct c) eqn:Hc; [|apply Hnow].
    apply IH. unfold all_punct in Ht. bool_inv. by apply all_punct_snoc.
Qed.

Lemma quote_cases c : is_quote c = true ↔ c = single_quote ∨ c = quote_char.
Proof. unfold is_quote. rewrite orb_true_iff, !bool_decide_eq_true. done. Qed.

Lemma bare_cons c s :
  bare_chars Bare (String c s) =
  if is_backslash c then bare_chars (Skip Bare) s
  else if is_quote c then bare_chars (quoting_of (Quoted c)) s else String c (bare_chars Bare s).
Proof.
  cbn [bare_chars quoting_of]. destruct (is_backslash c); [done|]. unfold is_quote.
  case_bool_decide as H1; [subst; done|]. by case_bool_decide as H2; [subst|].
Qed.

Definition tame (s : string) : bool := str_forallb (λ c, negb (punct c)) s.

Lemma bare_punct s st tok b ws :
  lexer_ok st → (st = Punct → all_punct tok = true) → lex punct st tok b s = Ok ws → (∀ w, w ∈ ws → all_punct w = false) →
  tame (bare_chars (quoting_of st) s) = true.
Proof using Hspace.
  revert st tok b ws. induction s as [|c s IH]; intros st tok b ws Hok Hp Hl Hw.
  { by destruct st as [| | |?|[?|]]. }
  assert (Hemit : ∀ rest, emit tok b rest = Ok ws ∨ emit tok true rest = Ok ws → ∃ ws', rest = Ok ws' ∧ ∀ w, w ∈ ws' → all_punct w = false).
  { intros rest [(ws' & -> & E)%emit_Ok|(ws' & -> & E)%emit_Ok]; exists ws'; (split; [done|]); intros w Hin; apply Hw;
      rewrite E; destruct (pending _ _); [by right|done|by right|done]. }
  assert (Hquoted : ∀ tok b ws, is_quote c = true → (∀ w, w ∈ ws → all_punct w = false) → lex punct (Quoted c) tok b s = Ok ws →
    tame (bare_chars (quoting_of (Quoted c)) s) = true).
  { intros tok' b' ws' Hq Hw' H. by eapply (IH (Quoted c)). }
  assert (Hesc : ∀ tok b ws, (∀ w, w ∈ ws → all_punct w = false) → lex punct (Escaped None) tok b s = Ok ws →
    tame (bare_chars (Skip Bare) s) = true).
  { intros tok' b' ws' Hw' H. by eapply (IH (Escaped None)). }
  assert (Hword : ∀ tok b ws, punct c = false → (∀ w, w ∈ ws → all_punct w = false) → lex punct Word tok b s = Ok ws →
    tame (String c (bare_chars Bare s)) = true).
  { intros tok' b' ws' Hc Hw' H. cbn. rewrite Hc. by eapply (IH Word). }
  assert (Hopen : ∀ ws, (∀ w, w ∈ ws → all_punct w = false) →
    lex punct (open_word punct c).1 (open_word punct c).2 false s = Ok ws → tame (bare_chars Bare (String c s)) = true).
  { intros ws' Hw'. rewrite bare_cons. unfold open_word. destruct (is_backslash c); [by apply Hesc|].
    destruct (punct c) eqn:Hc.
    - intros (w & Hin & E)%punct_word; [by rewrite Hw' in E|]. unfold all_punct. cbn. by rewrite Hc.
    - destruct (is_quote c) eqn:Hq; [by apply Hquoted|by apply Hword]. }
  assert (Hblank : shell_space c = true → ∀ ws, (∀ w, w ∈ ws → all_punct w = false) → lex punct Between "" false s = Ok ws →
    tame (bare_chars Bare (String c s)) = true).
  { intros Hs ws' Hw' H. rewrite bare_cons. destruct (space_plain c Hs) as [-> ->]. cbn. rewrite Hspace by done. by eapply (IH Between). }
  cbn [lex] in Hl. destruct st as [| | |q|back].
  - cbn [quoting_of]. destruct (shell_space c) eqn:Hs; [by eapply Hblank|by eapply Hopen].
  - cbn [quoting_of]. destruct (shell_space c) eqn:Hs.
    { destruct (Hemit _ (or_introl Hl)) as (ws' & H & Hw'). by eapply Hblank. }
    destruct (is_quote c) eqn:Hq.
    { rewrite bare_cons. destruct (is_backslash c) eqn:Hb; [by apply quote_cases in Hq as [-> | ->]|]. rewrite Hq. by eapply Hquoted. }
    destruct (is_backslash c) eqn:Hb; [rewrite bare_cons, Hb; by eapply Hesc|]. destruct (punct c) eqn:Hc.
    { destruct (Hemit _ (or_introl Hl)) as (ws' & H & Hw'). by eapply Hopen. }
    rewrite bare_cons, Hb, Hq. by eapply Hword.
  - cbn [quoting_of]. destruct (shell_space c) eqn:Hs.
    { destruct (Hemit _ (or_introl Hl)) as (ws' & H & Hw'). by eapply Hblank. }
    destruct (punct c) eqn:Hc.
    { exfalso. specialize (Hp eq_refl). unfold all_punct in Hp. bool_inv.
      apply punct_word in Hl as (w & Hin & E); [by rewrite Hw in E|by apply all_punct_snoc]. }
    destruct (Hemit _ (or_intror Hl)) as (ws' & H & Hw'). by eapply Hopen.
  - apply quote_cases in Hok as [-> | ->]; cbn [quoting_of].
    + rewrite (bool_decide_eq_false_2 (single_quote = quote_char)) in * by by_decide. rewrite andb_false_r in Hl. cbn [bare_chars].
      case_bool_decide; [by eapply (IH Word)|by eapply (IH (Quoted single_quote) (snoc tok c) true ws)].
    + rewrite (bool_decide_eq_true_2 (quote_char = quote_char)) in * by done. rewrite andb_true_r in Hl. cbn [bare_chars].
      case_bool_decide as Hc; [subst c; by eapply (IH Word)|].
      destruct (is_backslash c); [by eapply (IH (Escaped (Some quote_char)) tok true ws)|by eapply (IH (Quoted quote_char) (snoc tok c) true ws)].
  - cbv zeta in Hl. destruct back as [q|]; cbn [quoting_of bare_chars].
    + cbn in Hok. subst q. by eapply (IH (Quoted quote_char)).
    + by eapply (IH Word).
Qed.
End Words.

Section Kept.
  Context (punct : ascii → bool).

(** Reading one character leaves a state and part of the words. *)
Lemma lex_step c s st tok b ws :
  lexer_ok st → lex punct st tok b (String c s) = Ok ws →
  ∃ st' tok' b' ws', lexer_ok st' ∧ lex punct st' tok' b' s = Ok ws' ∧ ws' ⊆ ws ∧
    (shell_space c = false → is_quote c = false → is_backslash c = false → punct c = false →
     ∃ t, tok' = snoc t c ∧ (st' = Word ∨ ∃ q, st' = Quoted q) ∧ (st = Word ∨ (∃ q, st = Quoted q) → t = tok)).
Proof.
  assert (Hemit : ∀ b rest, emit tok b rest = Ok ws → ∃ ws', rest = Ok ws' ∧ ws' ⊆ ws).
  { intros b' rest (ws' & -> & ->)%emit_Ok. exists ws'. split; [done|]. destruct (pending _ _); set_solver. }
  assert (Hopen : ∀ ws', lex punct (open_word punct c).1 (open_word punct c).2 false s = Ok ws' → ws' ⊆ ws →
    st = Between ∨ st = Punct ∨ punct c = true → ∃ st' tok' b' ws', lexer_ok st' ∧ lex punct st' tok' b' s = Ok ws' ∧ ws' ⊆ ws ∧
    (shell_space c = false → is_quote c = false → is_backslash c = false → punct c = false →
     ∃ t, tok' = snoc t c ∧ (st' = Word ∨ ∃ q, st' = Quoted q) ∧ (st = Word ∨ (∃ q, st = Quoted q) → t = tok))).
  { intros ws' H Hsub Hst. exists (open_word punct c).1, (open_word punct c).2, false, ws'. split_and!; [|done|done|].
    - unfold open_word. destruct (is_backslash c); [done|]. destruct (punct c); [done|]. by destruct (is_quote c) eqn:Hq.
    - intros _ Hq Hb Hc. unfold open_word. rewrite Hq, Hb, Hc. exists "". split_and!; [done|by left|].
      intros [-> | [q ->]]; destruct Hst as [?|[?|?]]; congruence. }
  assert (Hto : ∀ st' tok' b', lexer_ok st' → lex punct st' tok' b' s = Ok ws →
    (shell_space c = false → is_quote c = false → is_backslash c = false → punct c = false →
     ∃ t, tok' = snoc t c ∧ (st' = Word ∨ ∃ q, st' = Quoted q) ∧ (st = Word ∨ (∃ q, st = Quoted q) → t = tok)) →
    ∃ st' tok' b' ws', lexer_ok st' ∧ lex punct st' tok' b' s = Ok ws' ∧ ws' ⊆ ws ∧
    (shell_space c = false → is_quote c = false → is_backslash c = false → punct c = false →
     ∃ t, tok' = snoc t c ∧ (st' = Word ∨ ∃ q, st' = Quoted q) ∧ (st = Word ∨ (∃ q, st = Quoted q) → t = tok))).
  { intros st' tok' b' ? ? ?. exists st', tok', b', ws. done. }
  assert (Hblank : ∀ ws', shell_space c = true → lex punct Between "" false s = Ok ws' → ws' ⊆ ws →
    ∃ st' tok' b' ws', lexer_ok st' ∧ lex punct st' tok' b' s = Ok ws' ∧ ws' ⊆ ws ∧
    (shell_space c = false → is_quote c = false → is_backslash c = false → punct c = false →
     ∃ t, tok' = snoc t c ∧ (st' = Word ∨ ∃ q, st' = Quoted q) ∧ (st = Word ∨ (∃ q, st = Quoted q) → t = tok))).
  { intros ws' Hs ? ?. exists Between, "", false, ws'. split_and!; [done..|]. by rewrite Hs. }
  intros Hok. cbn [lex]. destruct st as [| | |q|back].
  - destruct (shell_space c) eqn:Hs; [by intros H; eapply Hblank|]. intros H. eapply Hopen; [exact H|done|by left].
  - destruct (shell_space c) eqn:Hs; [intros (ws' & H & ?)%Hemit; by eapply Hblank|].
    destruct (is_quote c) eqn:Hq; [intros H; by eapply (Hto (Quoted c))|].
    destruct (is_backslash c) eqn:Hb; [intros H; by eapply (Hto (Escaped None))|].
    destruct (punct c) eqn:Hc; [intros (ws' & H & ?)%Hemit; eapply Hopen; [exact H|done|by right; right]|].
    intros H. eapply (Hto Word); [done|exact H|]. intros _ _ _ _. exists tok. split_and!; [done|by left|done].
  - destruct (shell_space c) eqn:Hs; [intros (ws' & H & ?)%Hemit; by eapply Hblank|].
    destruct (punct c) eqn:Hc; [intros H; by eapply (Hto Punct)|].
    intros (ws' & H & ?)%Hemit. eapply Hopen; [exact H|done|by right; left].
  - case_bool_decide as Hcq; [intros H; eapply (Hto Word); [done|exact H|]; intros _ Hq; cbn in Hok; congruence|].
    destruct (is_backslash c) eqn:Hb; cbn [andb].
    + case_bool_decide; [intros H'; by eapply (Hto (Escaped (Some q)))|]. intros H'. by eapply (Hto (Quoted q)).
    + intros H. eapply (Hto (Quoted q)); [done|exact H|]. intros _ _ _ _. exists tok. split_and!; [done|by right; exists q|done].
  - cbv zeta. intros H. eapply (Hto (match back with Some q => Quoted q | None => Word end)); [|exact H|].
    + destruct back; [cbn in Hok; by subst|done].
    + intros _ _ _ _. eexists. split_and!; [done|destruct back; eauto|]. by intros [?|[??]].
Qed.

Lemma lex_suffix p s st tok b ws :
  lexer_ok st → lex punct st tok b (p +:+ s) = Ok ws →
  ∃ st' tok' b' ws', lexer_ok st' ∧ lex punct st' tok' b' s = Ok ws' ∧ ws' ⊆ ws.
Proof.
  revert st tok b ws. induction p as [|c p IH]; intros st tok b ws Hok H.
  - rewrite str_app_nil_l in H. by exists st, tok, b, ws.
  - rewrite str_app_cons in H. apply lex_step in H as (st1 & tok1 & b1 & ws1 & Hok1 & H1 & Hsub & _); [|done].
    apply IH in H1 as (st2 & tok2 & b2 & ws2 & ? & ? & ?); [|done]. exists st2, tok2, b2, ws2. split_and!; [done..|set_solver].
Qed.

Definition ordinary (c : ascii) : Prop :=
  shell_space c = false ∧ is_quote c = false ∧ is_backslash c = false ∧ punct c = false.

Lemma lexer_word st : (st = Word ∨ ∃ q, st = Quoted q) → st ≠ Between.
Proof. by intros [-> | [q ->]]. Qed.

Lemma snoc_nonempty t c : snoc t c ≠ "".
Proof. by destruct t. Qed.

(** Ordinary characters side by side are side by side in a word. *)
Lemma char_kept c p s ws : ordinary c → lex punct Between "" false (p +:+ String c s) = Ok ws → ∃ t u, (t +:+ String c u) ∈ ws.
Proof.
  intros (? & ? & ? & ?) Hl. apply lex_suffix in Hl as (st & tok & b & ws1 & Hok & L1 & Hs1); [|done].
  apply lex_step in L1 as (st2 & tok2 & b2 & ws2 & Hok2 & L2 & Hs2 & Hc); [|done].
  destruct Hc as (t & -> & Hst & _); [done..|]. apply word_kept in L2 as (u & Hin); [|apply snoc_nonempty|by apply lexer_word].
  exists t, u. rewrite snoc_app in Hin. by apply Hs1, Hs2.
Qed.

Lemma pair_kept c d p s ws :
  ordinary c → ordinary d → lex punct Between "" false (p +:+ String c (String d s)) = Ok ws →
  ∃ t u, (t +:+ String c (String d u)) ∈ ws.
Proof.
  intros (? & ? & ? & ?) (? & ? & ? & ?) Hl. apply lex_suffix in Hl as (st & tok & b & ws1 & Hok & L1 & Hs1); [|done].
  apply lex_step in L1 as (st2 & tok2 & b2 & ws2 & Hok2 & L2 & Hs2 & Hc); [|done].
  destruct Hc as (t & -> & Hst & _); [done..|].
  apply lex_step in L2 as (st3 & tok3 & b3 & ws3 & Hok3 & L3 & Hs3 & Hd); [|done].
  destruct Hd as (t' & -> & Hst' & Ht'); [done..|]. rewrite (Ht' Hst) in L3.
  apply word_kept in L3 as (u & Hin); [|apply snoc_nonempty|by apply lexer_word].
  exists t, u. rewrite !snoc_app in Hin. by apply Hs1, Hs2, Hs3.
Qed.
End Kept.

Lemma str_in_spec n s : str_in n s = true ↔ ∃ p t, s = p +:+ n +:+ t.
Proof.
  split.
  - induction s as [|c s IH]; cbn [str_in]; (rewrite ?orb_false_r, ?orb_true_iff); [|intros [H|(p & t & ->)%IH]].
    + intros (t & ->)%startswith_app. by exists "", t.
    + apply startswith_app in H as (t & ->). by exists "", t.
    + by exists (String c p), t.
  - intros (p & t & ->). induction p as [|c p IH].
    + rewrite str_app_nil_l. assert (H : String.prefix n (n +:+ t) = true) by (apply startswith_app; eauto).
      by destruct (n +:+ t); cbn [str_in]; rewrite H.
    + rewrite str_app_cons. cbn [str_in]. by rewrite IH, orb_true_r.
Qed.

Lemma char_in_spec c s : char_in c s = true ↔ ∃ p t, s = p +:+ String c t.
Proof.
  induction s as [|d s IH]; [split; [done|intros ([] & t & ?); done]|]. rewrite char_in_cons, orb_true_iff, bool_decide_eq_true, IH. split.
  - intros [-> |(p & t & ->)]; [by exists "", s|by exists (String d p), t].
  - intros ([|e p] & t & E); [left; by injection E|right]. exists p, t. rewrite str_app_cons in E. by injection E.
Qed.

Lemma meta_space c : shell_space c = true → is_meta c = false.
Proof. destruct c as [[] [] [] [] [] [] [] []]; vm_compute; congruence. Qed.
Lemma meta_safe c : shell_safe c = true → is_meta c = false.
Proof. destruct c as [[] [] [] [] [] [] [] []]; vm_compute; congruence. Qed.

(** What a simple command is, and is not. *)
Lemma simple_words s words :
  _simple_shell_words s = Some words →
  str_forallb (λ c, negb (is_meta c)) (bare_chars Bare s) = true ∧
  char_in LF s = false ∧ char_in CR s = false ∧ char_in backtick s = false ∧ str_in "$(" s = false.
Proof.
  unfold _simple_shell_words. destruct (_ || _ || _) eqn:E; [done|]. rewrite !orb_false_iff in E. destruct E as [[_ HLF] HCR].
  destruct (lex is_meta Between "" false s) as [ws|] eqn:Hl; [|done].
  change (λ t, negb (bool_decide (t = "")) && str_forallb is_meta t) with (all_punct is_meta).
  destruct (existsb _ ws) eqn:Hm; [done|]. destruct (existsb _ ws) eqn:Hsub in |- *; [done|]. intros _.
  assert (Hall : ∀ w, w ∈ ws → all_punct is_meta w = false ∧ str_in "$(" w = false ∧ char_in backtick w = false).
  { intros w Hw%list_elem_of_In. split.
    - destruct (all_punct is_meta w) eqn:A; [|done]. 
      assert (existsb (all_punct is_meta) ws = true) by (apply existsb_exists; eauto). congruence.
    - rewrite <- orb_false_iff. destruct (str_in "$(" w || char_in backtick w) eqn:A; [|done].
      assert (existsb (λ t, str_in "$(" t || char_in backtick t) ws = true) by (apply existsb_exists; eauto). congruence. }
  split_and!; [|done|done| |].
  - apply (bare_punct is_meta meta_space s Between "" false ws); [done|done|done|]. intros w Hw. by apply Hall.
  - destruct (char_in backtick s) eqn:A; [|done]. apply char_in_spec in A as (p & t & ->).
    apply char_kept in Hl as (t' & u & Hin); [|by repeat split]. apply Hall in Hin as (_ & _ & Hb). by rewrite char_in_app, char_in_cons, orb_true_r in Hb.
  - destruct (str_in "$(" s) eqn:A; [|done]. apply str_in_spec in A as (p & t & ->).
    rewrite !str_app_cons, str_app_nil_l in Hl. apply pair_kept in Hl as (t' & u & Hin); [|by repeat split..].
    apply Hall in Hin as (_ & Hb & _). assert (str_in "$(" (t' +:+ "$(" +:+ u) = true) as H by (apply str_in_spec; eauto).
    rewrite !str_app_cons, str_app_nil_l in H. congruence.
Qed.

(** ** The printed command is let through *)

(** Characters a path may have: none that starts a substitution or a line. *)
Definition path_char (c : ascii) : bool := negb (is_break c) && negb (bool_decide (c = "$"%char)) && negb (bool_decide (c = backtick)).
Definition path_text (s : string) : bool := str_forallb path_char s.

Lemma str_forallb_join p sep ws : str_forallb p sep = true → Forall (λ w, str_forallb p w = true) ws → str_forallb p (py_join sep ws) = true.
Proof.
  intros Hs. induction 1 as [|w ws Hw Hws IH]; [done|]. destruct ws as [|w' ws]; [done|].
  rewrite py_join_cons by done. by rewrite !str_forallb_app, Hw, Hs, IH.
Qed.

Lemma path_root root : Forall (λ s, path_text s = true) root → path_text (abs_str root) = true.
Proof. intros H. unfold path_text, abs_str. rewrite str_forallb_app. cbn. by apply str_forallb_join. Qed.

Lemma path_word s : path_text s = true → str_in "$(" s = false ∧ char_in backtick s = false ∧ one_line s = true.
Proof.
  intros H. split_and!.
  - destruct (str_in "$(" s) eqn:A; [|done]. apply str_in_spec in A as (p & t & ->). unfold path_text in H.
    rewrite !str_forallb_app in H. cbn in H. by rewrite andb_false_r in H.
  - by apply (str_forallb_not_in path_char).
  - revert H. apply str_forallb_impl. unfold path_char. intros c. rewrite !andb_true_iff. by intros [[? _] _].
Qed.

Lemma star_all p s : str_forallb p s = true → re_lang (RStar (RChr p)) s.
Proof.
  induction s as [|c s IH]; cbn; [constructor|]. intros [Hc Hs]%andb_true_iff.
  change (String c s) with (String c "" +:+ s). constructor; [by constructor|auto].
Qed.

Lemma assignment_word c k v :
  ident_start c = true → str_forallb ident_rest k = true → fullmatch _ASSIGNMENT (bare_assignment (String c k, v)) = true.
Proof.
  intros Hc Hk. apply fullmatch_spec. unfold bare_assignment. cbn [fst snd]. change (String c k) with (String c "" +:+ k).
  rewrite str_app_assoc. apply lang_seq; [by constructor|]. apply lang_seq; [by apply star_all|].
  apply lang_seq; [by apply (lang_chr (λ d, bool_decide (d = "="%char)))|]. apply star_all. by induction v.
Qed.

Lemma none_match s : fullmatch RNone s = false.
Proof. by induction s. Qed.

Lemma slash_word s : fullmatch _ASSIGNMENT (String "/" s) = false.
Proof. exact (none_match s). Qed.

(** The interpreter's path: absolute, of a python, without odd characters. *)
Record python_path (i : string) : Prop := {
  py_abs : ∃ rest, i = String "/" rest;
  py_text : path_text i = true;
  py_name : fullmatch PYTHON_RE (name_of i) = true
}.

Definition repair_program : list stmt :=
  [ImportFrom (Some "chrono_state") [("workboard", None)];
   ExprCall {| callee := ("workboard", "append_event"); args := [Value true]; keywords_ := [] |}].

Definition repair_values (i : string) (root : list string) : list string :=
  [bare_assignment ("VAULT_ROOT", abs_str root); bare_assignment ("PYTHONPATH", abs_str (root ++ ["scripts"; "python"])); i; "-c";
   _REPAIR_PROGRAM].

Lemma repair_lexed i root : lex is_meta Between "" false (repair_line i root) = Ok (repair_values i root).
Proof.
  apply lex_words. repeat constructor.
  - apply (reads_assignment _ meta_safe). reflexivity.
  - apply (reads_assignment _ meta_safe). reflexivity.
  - by apply (reads_quote _ meta_safe).
  - change "-c" with (shlex_quote "-c") at 1. by apply (reads_quote _ meta_safe).
  - by apply (reads_quote _ meta_safe).
Qed.

Lemma assignment_one_line k v : one_line k = true → one_line v = true → one_line (assignment (k, v)) = true.
Proof. intros Hk Hv. unfold assignment. cbn [fst snd]. by rewrite !one_line_app, Hk, quote_one_line. Qed.

Lemma repair_one_line i root : path_text i = true → Forall (λ s, path_text s = true) root → one_line (repair_line i root) = true.
Proof.
  intros Hi Hr. apply one_line_join. repeat constructor.
  - apply assignment_one_line; [done|]. by apply path_word, path_root.
  - apply assignment_one_line; [done|]. apply path_word, path_root, Forall_app. split; [done|by repeat constructor].
  - apply quote_one_line. by apply path_word.
Qed.

Lemma repair_simple i root :
  python_path i → Forall (λ s, path_text s = true) root → _simple_shell_words (repair_line i root) = Some (repair_values i root).
Proof.
  intros [(rest & Ei) Hi _] Hr. unfold _simple_shell_words. rewrite repair_lexed.
  pose proof (repair_one_line i root Hi Hr) as Hl. rewrite !one_line_char by done.
  rewrite bool_decide_eq_false_2.
  2:{ unfold py_strip. change (repair_line i root) with (String "V" (str_drop 1 (repair_line i root))).
      rewrite lstrip_by_head by done. cbn [rstrip_by]. by destruct (rstrip_by py_isspace _). }
  cbn [orb]. assert (Hroot : path_text (abs_str (root ++ ["scripts"; "python"])) = true).
  { apply path_root, Forall_app. split; [done|by repeat constructor]. }
  assert (Hword : ∀ k r, path_text k = true → path_text r = true → path_text (bare_assignment (k, r)) = true).
  { intros k r Hk Hr'. unfold path_text, bare_assignment in *. cbn [fst snd]. by rewrite !str_forallb_app, Hk, Hr'. }
  assert (Hp : Forall (λ w, path_text w = true) (repair_values i root)).
  { repeat constructor; [by apply Hword, path_root|by apply Hword|done]. }
  replace (existsb (λ t, str_in "$(" t || char_in backtick t) (repair_values i root)) with false.
  2:{ symmetry. induction Hp as [|w ws Hw _ IH]; [done|]. cbn [existsb]. rewrite IH.
      by destruct (path_word w Hw) as (-> & -> & _). }
  subst i. reflexivity.
Qed.

Lemma repair_recognised ast_parse i root :
  ast_parse _REPAIR_PROGRAM = Some repair_program → python_path i → Forall (λ s, path_text s = true) root →
  tool_disposition ast_parse "Bash" [("command", JStr (repair_line i root))] = REPAIR.
Proof.
  intros Hast Hi Hr. unfold tool_disposition, _looks_like_workboard_repair, command_words.
  change (dict_get "command" [("command", JStr (repair_line i root))]) with (Some (JStr (repair_line i root))).
  cbv beta iota. rewrite repair_simple by done. unfold repair_values. cbn [drop_assignments].
  rewrite !assignment_word by done. destruct Hi as [(rest & ->) _ Hn]. rewrite slash_word.
  unfold repair_words. rewrite Hn. cbn [split_at_word]. rewrite decide_False by done.
  change (decide ("-c" = "-c")) with (@left ("-c" = "-c") ("-c" ≠ "-c") eq_refl).
  cbn [forallb andb]. rewrite Hast. reflexivity.
Qed.

(** ** The decision *)

Lemma refused_cases env ast_parse l c :
  allow (decide_ ast_parse env l c) = false ↔
  (hook_event c = PRE_TOOL_USE ∧ tool_disposition ast_parse (tool_name c) (tool_input c) = MUTATING ∨
   hook_event c = STOP ∧ stop_hook_active c = false) ∧
  ∃ b issues, _validated_projection l = inr (b, issues) ∧ issues ≠ [].
Proof.
  unfold decide_. case_bool_decide as He; cbn [negb].
  2:{ split; [done|]. intros [[[H _]|[H _]] _]; exfalso; apply He; rewrite H; by_decide. }
  assert (Hfail : ∀ d, _validated_projection l = inl d → allow d = true).
  { unfold _validated_projection. intros d. destruct (content l); [by intros [= <-]..|].
    case_match; [by intros [= <-]|]. case_match; [by intros [= <-]|done]. }
  assert (Hprompt : ∀ b, allow (prompt_decision env b) = true).
  { intros b. unfold prompt_decision. destruct (match active_work_id b with Some _ => _ | None => _ end); [|done].
    by destruct (_operator_output_reminder _). }
  unfold SUPPORTED_EVENTS in He. rewrite !elem_of_cons, elem_of_nil in He.
  destruct He as [E|[E|[E|[]]]]; rewrite !E.
  - change (bool_decide (USER_PROMPT_SUBMIT = USER_PROMPT_SUBMIT)) with true.
    split; [|by intros [[[? _]|[? _]] _]]. destruct (true && _); [done|].
    destruct (_validated_projection l) as [d|[b issues]]; [by rewrite Hfail|]. cbv zeta iota. case_match; [done|]. by rewrite Hprompt.
  - change (bool_decide (PRE_TOOL_USE = USER_PROMPT_SUBMIT)) with false. change (bool_decide (PRE_TOOL_USE = PRE_TOOL_USE)) with true.
    cbn [andb]. destruct (_validated_projection l) as [d|[b issues]].
    { rewrite Hfail by done. split; [done|]. by intros [_ (? & ? & ? & _)]. }
    cbv zeta iota. case_bool_decide as Hi; [split; [done|]; intros [_ (? & ? & [= <- <-] & ?)]; done|].
    destruct (tool_disposition _ _ _) eqn:Hd; (split; [intros H|intros [[[_ ?]|[? _]] _]]); try done.
    split; [by left|]. by exists b, issues.
  - change (bool_decide (STOP = USER_PROMPT_SUBMIT)) with false. change (bool_decide (STOP = PRE_TOOL_USE)) with false.
    cbn [andb]. destruct (_validated_projection l) as [d|[b issues]].
    { rewrite Hfail by done. split; [done|]. by intros [_ (? & ? & ? & _)]. }
    cbv zeta iota. case_bool_decide as Hi; [split; [done|]; intros [_ (? & ? & [= <- <-] & ?)]; done|].
    destruct (stop_hook_active c) eqn:Hs; (split; [intros H|intros [[[? _]|[_ ?]] _]]); try done.
    split; [by right|]. by exists b, issues.
Qed.

(** ** Properties *)

(** C24. The gate refuses exactly on a proven loss of focus.  A tool call or the end
    of a turn is refused if and only if the tool may mutate, or it is the first
    attempt to stop; and the ledger reads without a parse or step issue, has
    events, every open item has its resume action, and the board has no focus: not
    one active item with a literal next action, nor a declared idle, nor a wait on
    one open item.  Anything doubtful fails open. *)
Theorem gate_refuses_exactly env ast_parse l c :
  allow (decide_ ast_parse env l c) = false ↔
  (hook_event c = PRE_TOOL_USE ∧ tool_disposition ast_parse (tool_name c) (tool_input c) = MUTATING ∨
   hook_event c = STOP ∧ stop_hook_active c = false) ∧
  ∃ text, trusted l text ∧ structured text ∧
    let b := project_workboard (_parse_workboard_text text) in actions_present b ∧ ¬ focus b.
Proof. rewrite refused_cases. by rewrite validated_spec. Qed.

(** C25. A refusal on a ledger of whole lines can be repaired.  Whenever the gate
    refuses anything and the ledger ends in a line feed, one [append_event('idle')]
    with a new event id is accepted by the ledger's writer, leaves a ledger the
    validator finds nothing in, and from then on the gate allows every call.
    Without the final line feed the gate refuses all the same and the repair is
    refused too (the last example). *)
Theorem gate_repair_recovers env ast_parse l c text a :
  allow (decide_ ast_parse env l c) = false → content l = Content text → lf_ended text → idle_call a →
  idle_id a ∉ map event_id (events_of (_parse_workboard_text text)) →
  ∃ added e, admit_append text a = Ok (added, e) ∧
    let doc := _parse_workboard_text (text +:+ added) in
    validate_workboard doc (project_workboard doc) = [] ∧
    ∀ c', allow (decide_ ast_parse env {| content := Content (text +:+ added); resolved := resolved l |} c') = true.
Proof.
  intros Href Hc Hend Ha Hnew. apply refused_cases in Href as [_ (text' & Ht & _ & Hact & _)%validated_spec].
  assert (text' = text) as -> by (destruct Ht; congruence).
  pose proof (repair_admitted text a l Ha Hend Ht Hact Hnew) as Hadm. eexists _, _. split; [exact Hadm|].
  pose proof (repaired_clean text a l Ha Hend Ht Hact Hnew) as Hclean. split; [exact Hclean|].
  intros c'. apply not_false_iff_true. intros [_ (text2 & [[= <-] _ _] & _ & _ & Hnf)%validated_spec]%refused_cases.
  apply Hnf. by apply (repaired_valid text a l Ha Hend Ht Hact Hnew).
Qed.

(** The gate lets its own repair through.  The command the block message prints
    for a ledger at its place in a repository is classified as the repair of the
    board, so the gate allows it, for every python and every root whose path has no
    line break, dollar sign or backquote, and whatever else needs quoting. *)
Theorem printed_repair_allowed ast_parse i root found :
  ast_parse _REPAIR_PROGRAM = Some repair_program → python_path i → Forall (λ s, path_text s = true) root →
  ∃ cmd, _workboard_repair_command i {| content := found; resolved := root ++ WORKBOARD_PARTS |} = Some cmd ∧
    tool_disposition ast_parse "Bash" [("command", JStr cmd)] = REPAIR.
Proof.
  intros Hast Hi Hr. exists (repair_line i root). split; [|by apply repair_recognised].
  unfold _workboard_repair_command. cbn [resolved]. rewrite length_app. cbn [WORKBOARD_PARTS length].
  replace (length root + 3 - 3)%nat with (length root) by lia. by rewrite drop_app_length, take_app_length, bool_decide_eq_true_2.
Qed.

(** What is taken for read-only is one plain command.  A shell command the gate
    classifies as read-only has no bare separator, pipe, background or redirection
    character as a POSIX shell reads its quotes, no line break, and nowhere a
    backquote or the start of a command substitution. *)
Theorem read_only_is_one_command command :
  _simple_shell_is_read_only command = true →
  str_forallb (λ c, negb (is_meta c)) (bare_chars Bare command) = true ∧
  char_in LF command = false ∧ char_in CR command = false ∧ char_in backtick command = false ∧ str_in "$(" command = false.
Proof.
  unfold _simple_shell_is_read_only. destruct (_simple_shell_words command) as [words|] eqn:E; [|done]. intros _. by eapply simple_words.
Qed.

(** ** Concrete calls *)

Module Gate1.
Definition lost : string :=
  snoc (event_text (event_values "queue" "EV-1" "2026-08-27T00:00:00Z"
    [("work_id", "W-" +:+ Board1.hex); ("alias", "CASE-1"); ("summary", "later"); ("why", "asked"); ("resume_action", "begin")])) LF.
Definition ledger : Ledger := {| content := Content lost; resolved := ["root"; "it's here"] ++ WORKBOARD_PARTS |}.
Definition env : Around :=
  {| interpreter := "/usr/bin/python3.12"; resume_point := ("", ""); output_standard := Err (Exn OSError "") |}.
Definition ast (program : string) : option (list stmt) :=
  if bool_decide (program = _REPAIR_PROGRAM) then Some repair_program else None.
Definition call (event tool command : string) : Call :=
  {| hook_event := event; tool_name := tool; tool_input := [("command", JStr command)]; stop_hook_active := false; prompt := JNull |}.
Definition idle_args : AppendArgs :=
  {| arg_kind := "idle"; arg_event_id := None; arg_at := None; arg_facts := []; event_token := "0a";
     clock := "2026-08-28T00:00:00Z"; id_draws := [] |}.
Definition allowed (c : Call) : bool := allow (decide_ ast env ledger c).
End Gate1.

Lemma lost_refused : allow (decide_ Gate1.ast Gate1.env Gate1.ledger (Gate1.call PRE_TOOL_USE "Edit" "")) = false.
Proof. vm_compute. reflexivity. Qed.

Lemma idle_args_ok : idle_call Gate1.idle_args.
Proof. constructor; [by vm_compute..|]. eexists _, _. vm_compute. reflexivity. Qed.

Lemma gate_repair_recovers_witness :
  ∃ added e, admit_append Gate1.lost Gate1.idle_args = Ok (added, e) ∧
    let doc := _parse_workboard_text (Gate1.lost +:+ added) in
    validate_workboard doc (project_workboard doc) = [] ∧
    ∀ c', allow (decide_ Gate1.ast Gate1.env {| content := Content (Gate1.lost +:+ added); resolved := resolved Gate1.ledger |} c') = true.
Proof.
  apply (gate_repair_recovers Gate1.env Gate1.ast Gate1.ledger (Gate1.call PRE_TOOL_USE "Edit" "") Gate1.lost Gate1.idle_args).
  - exact lost_refused.
  - reflexivity.
  - right. eexists. reflexivity.
  - exact idle_args_ok.
  - apply (bool_decide_unpack _). by vm_compute.
Defined.

Lemma printed_repair_allowed_witness :
  ∃ cmd, _workboard_repair_command "/usr/bin/python3.12" Gate1.ledger = Some cmd ∧
    tool_disposition Gate1.ast "Bash" [("command", JStr cmd)] = REPAIR.
Proof.
  apply (printed_repair_allowed Gate1.ast "/usr/bin/python3.12" ["root"; "it's here"] (Content Gate1.lost)).
  - reflexivity.
  - constructor; [by eexists|by vm_compute..].
  - repeat constructor.
Defined.

Lemma read_only_is_one_command_witness :
  str_forallb (λ c, negb (is_meta c)) (bare_chars Bare "A=1 rg 'a;b' src\;x") = true ∧
  char_in LF "A=1 rg 'a;b' src\;x" = false ∧ char_in CR "A=1 rg 'a;b' src\;x" = false ∧
  char_in backtick "A=1 rg 'a;b' src\;x" = false ∧ str_in "$(" "A=1 rg 'a;b' src\;x" = false.
Proof. apply (read_only_is_one_command "A=1 rg 'a;b' src\;x"). by vm_compute. Defined.

(** What a lost focus lets through and what not. *)
Example lost_calls :
  map Gate1.allowed
    [Gate1.call PRE_TOOL_USE "Bash" "git log -n 3"; Gate1.call PRE_TOOL_USE "Bash" "cat x > y";
     Gate1.call PRE_TOOL_USE "Bash" (repair_line "/usr/bin/python3.12" ["root"; "it's here"]);
     Gate1.call PRE_TOOL_USE "mcp__vault__recall_notes" ""; Gate1.call PRE_TOOL_USE "mcp__vault__append_note" "";
     Gate1.call STOP "" ""; Gate1.call USER_PROMPT_SUBMIT "" ""]
  = [true; false; true; true; false; false; true].
Proof. vm_compute. reflexivity. Qed.

(** In bash, unlike in a POSIX shell, the first word after [cat] ends before the
    semicolon; and three commands that write a file are taken for read-only. *)
Example taken_for_read_only :
  map _simple_shell_is_read_only ["cat $'\'' ; rm -rf x #'"; "sort -oout in"; "uniq in out"; "git grep -Osh x"] =
  [true; true; true; true].
Proof. vm_compute. reflexivity. Qed.

(** The same ledger without its final line feed: the gate refuses, and the writer
    refuses the repair, whose line would go on from the last one. *)
Example unended_not_repaired :
  let text := event_text (event_values "queue" "EV-1" "2026-08-27T00:00:00Z"
    [("work_id", "W-" +:+ Board1.hex); ("alias", "CASE-1"); ("summary", "later"); ("why", "asked"); ("resume_action", "begin")]) in
  snoc text LF = Gate1.lost ∧
  allow (decide_ Gate1.ast Gate1.env {| content := Content text; resolved := resolved Gate1.ledger |}
    (Gate1.call PRE_TOOL_USE "Edit" "")) = false ∧
  match admit_append text Gate1.idle_args with Ok _ => False | Err e => exn_kind e = WorkboardConsistencyError end.
Proof. vm_compute. auto. Qed.
