(* ===== verification/Privacy.v ===== *)
(** * Write-time minimization ([plugins/chrono-vault/privacy.py])

    The screening patterns, the redaction of a text and of the text in a JSON
    value, and the check that a final text needs none.  [screened_clean] says
    what that check means: no pattern matches anywhere. *)
From S2P Require Import Prelude PyRegex Json PyText.

(** A class and a literal under [re.IGNORECASE]; the letters involved are ASCII. *)
Definition swap_case (c : ascii) : ascii :=
  if is_lower c then chr (code c - 32) else if is_upper c then chr (code c + 32) else c.
Definition ci (p : ascii → bool) (c : ascii) : bool := p c || p (swap_case c).
Definition ichr (p : ascii → bool) : rx := XChr (ci p).
Fixpoint ilit (s : string) : rx :=
  match s with "" => XEps | String c "" => ichr (xeq c) | String c s => XSeq (ichr (xeq c)) (ilit s) end.
Fixpoint ialts (ws : list string) : rx :=
  match ws with [] => XEps | [w] => ilit w | w :: ws => XAlt (ilit w) (ialts ws) end.
Fixpoint xseqs (rs : list rx) : rx :=
  match rs with [] => XEps | [r] => r | r :: rs => XSeq r (xseqs rs) end.
Definition xplus (r : rx) : rx := XRep 1 None r.
Definition xmin (n : nat) (r : rx) : rx := XRep n None r.
Definition xopt (r : rx) : rx := XRep 0 (Some 1) r.

Definition alnum_or (extra : string) : rx := ichr (λ c, is_alnum c || char_in c extra).
(** [[^\s...]] *)
Definition not_space_nor (excluded : string) : rx := XChr (λ c, negb (py_isspace c) && negb (char_in c excluded)).
Definition QUOTES : string := String single_quote (String quote_char "").

Definition _PATTERNS : list rx := [
  xseqs [XBehind [λ c, char_in c "?&"];
         ialts ["access_token"; "auth_token"; "api_key"; "apikey"; "token"; "bearer"; "authorization"];
         ilit "="; xplus (not_space_nor ("&#<>" +:+ QUOTES))];
  xseqs [XBehind [xeq "/"; xeq "/"; xeq ":"]; xplus (not_space_nor "/@:"); ilit ":"; xplus (not_space_nor "/@"); ilit "@"];
  xseqs [XBoundary; ilit "Bearer"; xplus (XChr py_isspace); xplus (alnum_or "._~+/%=-")];
  xseqs [xplus (alnum_or (".!#$%&*+/=?^_`{|}~-" +:+ String single_quote "")); ilit "@"; alnum_or "";
         xopt (XSeq (XRep 0 None (alnum_or ".-")) (alnum_or "")); ilit ".";
         xmin 2 (ichr is_upper); XBoundary];
  xseqs [XBoundary; ilit "sk-"; xopt (ialts ["ant-"; "proj-"; "svcacct-"]); xmin 20 (alnum_or "_-")];
  xseqs [XBoundary; ialts ["xai-"; "pplx-"]; xmin 20 (alnum_or "_-")];
  xseqs [XBoundary; ilit "AIza"; XRep 35 (Some 35) (alnum_or "_-"); XBoundary];
  xseqs [XBoundary;
         XAlt (xseqs [ilit "gh"; ichr (λ c, char_in c "pousr"); ilit "_"; xmin 20 (alnum_or "")])
              (xseqs [ilit "github_pat_"; xmin 20 (alnum_or "_")])];
  xseqs [XBoundary; ialts ["AKIA"; "ASIA"]; XRep 16 (Some 16) (alnum_or ""); XBoundary];
  xseqs [XBoundary; ilit "xox"; ichr (λ c, char_in c "baprs"); ilit "-"; xmin 10 (alnum_or "-")];
  xseqs [XBoundary; ilit "eyJ"; xplus (alnum_or "_-"); ilit "."; xplus (alnum_or "_-"); ilit "."; xplus (alnum_or "_-")];
  xseqs [XBoundary; ilit "hf_"; xmin 20 (alnum_or "")];
  xseqs [XBoundary; ialts ["sk"; "rk"; "pk"]; ilit "_"; ialts ["live"; "test"]; ilit "_"; xmin 16 (alnum_or "")];
  xseqs [XBoundary; ilit "apify_api_"; xmin 20 (alnum_or "_-")]].

Definition REDACTED : string := "[REDACTED]".

(** Characters that are neither C0 controls nor lost. *)
Definition kept (c : ascii) : bool := (32 <=? code c)%Z || py_isspace c.
Fixpoint str_filter (p : ascii → bool) (s : string) : string :=
  match s with "" => "" | String c s => if p c then String c (str_filter p s) else str_filter p s end.

Definition redact_text (text : string) : string :=
  fold_left (λ t pattern, sub pattern REDACTED t) _PATTERNS (str_filter kept text).

Fixpoint redact_fields (value : json) : json :=
  match value with
  | JStr s => JStr (redact_text s)
  | JObj d => JObj (map (λ kv, (kv.1, redact_fields kv.2)) d)
  | JList l => JList (map redact_fields l)
  | _ => value
  end.

Definition require_screened (text : string) : res string :=
  raise_if (negb (bool_decide (redact_text text = text))) ValueError "unscreened output at privacy boundary";;
  Ok text.

(** One string of [redact_json_fields]. *)
Definition redact_json_text (s : string) : string :=
  let cleaned := redact_text s in
  if bool_decide (redact_text (json_quote false cleaned) = json_quote false cleaned) then cleaned
  else
    let cleaned := redact_text (py_join " " (py_words cleaned)) in
    if bool_decide (redact_text (json_quote false cleaned) = json_quote false cleaned) then cleaned else REDACTED.

Fixpoint redact_json_fields (value : json) : json :=
  match value with
  | JStr s => JStr (redact_json_text s)
  | JObj d => JObj (map (λ kv, (kv.1, redact_json_fields kv.2)) d)
  | JList l => JList (map redact_json_fields l)
  | _ => value
  end.

(** ** What a screened text guarantees *)

(** The characters no replacement contains. *)
Definition foreign (c : ascii) : bool := negb (char_in c REDACTED).

Lemma patterns_foreign : forallb (λ r, must r foreign) _PATTERNS = true.
Proof. vm_compute. reflexivity. Qed.

Lemma filter_foreign s : count foreign (str_filter kept s) ≤ count foreign s ∧
  (count foreign (str_filter kept s) = count foreign s → str_filter kept s = s ∧ str_forallb kept s = true).
Proof.
  induction s as [|c s [IHle IHeq]]; [done|]. cbn [str_filter]. destruct (kept c) eqn:Hk; cbn [count str_forallb].
  - split; [lia|]. intros Hc. destruct IHeq as [-> ->]; [lia|]. by rewrite Hk.
  - assert (foreign c = true) as ->.
    { unfold foreign. apply negb_true_iff. destruct (char_in c REDACTED) eqn:E; [|done].
      assert (str_forallb kept REDACTED = true) as Hr by done. revert Hr E Hk. unfold char_in, REDACTED. cbn.
      rewrite !orb_true_iff, !bool_decide_eq_true. intros _ E. repeat destruct E as [E|E]; subst; done. }
    split; lia.
Qed.

Lemma fold_sub_count rs s :
  forallb (λ r, must r foreign) rs = true →
  let t := fold_left (λ t pattern, sub pattern REDACTED t) rs s in
  count foreign t ≤ count foreign s ∧
  (count foreign t = count foreign s → t = s ∧ Forall (λ r, no_match r s) rs).
Proof.
  revert s. induction rs as [|r rs IH]; intros s Hm; cbn [fold_left]; [done|]. cbn in Hm. apply andb_true_iff in Hm as [Hr Hm].
  destruct (sub_count r REDACTED foreign s Hr) as [Hle Heq]; [done|]. destruct (IH (sub r REDACTED s) Hm) as [IHle IHeq].
  cbv zeta in *. split; [lia|]. intros Hc. destruct Heq as [E Hno]; [lia|]. rewrite E in *. destruct IHeq as [-> Hall]; [lia|]. by split; [|constructor].
Qed.

(** Nothing in the text matches a screening pattern, and no control character
    that screening removes is left. *)
Definition clean (s : string) : Prop := Forall (λ r, no_match r s) _PATTERNS ∧ str_forallb kept s = true.

Lemma redact_fixpoint_clean s : redact_text s = s → clean s.
Proof.
  unfold redact_text. intros E. destruct (filter_foreign s) as [Hle Heq].
  destruct (fold_sub_count _PATTERNS (str_filter kept s) patterns_foreign) as [Hle' Heq']. cbv zeta in *. rewrite E in *.
  destruct Heq as [Ef Hk]; [lia|]. rewrite Ef in *. destruct Heq' as [_ Hall]; [done|]. by split.
Qed.

Lemma filter_chars p q s : str_forallb p s = true → str_forallb p (str_filter q s) = true.
Proof.
  induction s as [|c s IH]; [done|]. cbn. intros [Hc Hs]%andb_true_iff. destruct (q c); cbn; rewrite ?Hc; auto.
Qed.

(** Redaction brings in no characters but the replacement's. *)
Lemma redact_text_chars p s :
  str_forallb p REDACTED = true → str_forallb p s = true → str_forallb p (redact_text s) = true.
Proof.
  intros Hp Hs. unfold redact_text. apply (filter_chars p kept) in Hs. revert Hs. generalize (str_filter kept s) as t.
  induction _PATTERNS as [|r rs IH]; intros t Ht; [done|]. cbn [fold_left]. apply IH. by apply sub_chars.
Qed.

Lemma filter_all p s : str_forallb p s = true → str_filter p s = s.
Proof. induction s as [|c s IH]; [done|]. cbn. intros [-> Hs]%andb_true_iff. by rewrite IH. Qed.

(** A text without the characters some class says every pattern needs is left alone. *)
Lemma redact_text_plain q s :
  forallb (λ r, must r q) _PATTERNS = true → str_existsb q s = false → str_forallb kept s = true → redact_text s = s.
Proof.
  intros Hq Hs Hk. unfold redact_text. rewrite filter_all by done.
  induction _PATTERNS as [|r rs IH]; [done|]. cbn in Hq. apply andb_true_iff in Hq as [Hr Hrs]. cbn [fold_left].
  rewrite (sub_none q) by done. by apply IH.
Qed.

Lemma require_screened_Ok text t : require_screened text = Ok t ↔ t = text ∧ redact_text text = text.
Proof.
  unfold require_screened. rewrite bind_Ok. setoid_rewrite raise_if_Ok. setoid_rewrite negb_false_iff. setoid_rewrite bool_decide_eq_true.
  split; [intros (_ & ? & [= ->]); done|intros [-> ?]; by exists tt].
Qed.

(** Whatever passes the privacy boundary is unchanged and clean: at no
    position does any screening pattern match, and no control character is
    left. *)
Theorem screened_clean text t : require_screened text = Ok t → t = text ∧ clean t.
Proof. intros [-> E]%require_screened_Ok. split; [done|]. by apply redact_fixpoint_clean. Qed.

Lemma screened_clean_witness :
  require_screened "see https://host/path" = Ok "see https://host/path" ∧ clean "see https://host/path".
Proof.
  assert (E : require_screened "see https://host/path" = Ok "see https://host/path") by (vm_compute; reflexivity).
  split; [exact E|]. apply (screened_clean _ _ E).
Defined.
