(* ===== verification/PlanItems.v ===== *)
(** * Binding closed tasks to plan items ([plan_item_binding.py])

    The declaration validator, the scope and ancestry witnesses, the marking
    rule and the two-file ledger move.  Git and the files a receipt or plan is
    read from are parameters ([Repo]); the move takes the two ledger texts to a
    result and the sequence of atomic file writes it performs. *)
From S2P Require Import Prelude Regex Sha256 Json Posix PyText.

#[local] Open Scope Z_scope.

(** [^P[0-9]{1,3}[A-Z]?(\.[0-9]{1,3}[a-z]?)?$] *)
Definition PLAN_ITEM_RE : re :=
  RSeq (rlit "P") (RSeq (rrep 1 3 (RChr is_digit)) (RSeq (ropt (RChr is_upper))
    (ropt (RSeq (rlit ".") (RSeq (rrep 1 3 (RChr is_digit)) (ropt (RChr is_lower))))))).
Definition MAX_DECLARED_ITEMS : Z := 32.
Definition RECEIPT_SUCCESS_OUTCOMES : list string := ["complete"; "needs_review"].
Definition SETTLED_TASK_STATUSES : list string := ["complete"; "closed"].
Definition RECEIPT_SCHEMA_V2 : string := "board-dispatch-receipt/v2".
Definition LANE_AUTHOR_FAMILY : list (string * string) :=
  [("gpt-codex", "openai"); ("codex", "openai"); ("claude", "anthropic"); ("gemini", "google");
   ("grok", "xai")].
Definition EVIDENCE_PREFIX : string := "      Evidence:".
Definition HISTORY_SECTION : string := "## Evidence-bound completions".
Definition MAX_ANCESTRY_CANDIDATES : nat := 64.
(** [^[0-9a-f]{40}$] *)
Definition COMMIT_ID_RE : re := rrep 40 40 (RChr is_hex).

(** The repository as this module sees it: the output of a Git command run at
    its root ([None] when it failed), and the JSON in a file ([None] when it is
    missing, unreadable or not JSON). *)
Record Repo := {
  repo_root : string;
  _git : list string → option string;
  read_json : string → option json
}.

(** ** Declarations *)

Fixpoint item_ids_loop (seen : list string) (values : list json) : res (list string) :=
  match values with
  | [] => Ok seen
  | value :: values =>
      v ← match value with
          | JStr v => raise_if (negb (fullmatch PLAN_ITEM_RE v)) PlanItemBindingError "invalid plan item id";; Ok v
          | _ => Err (Exn PlanItemBindingError "invalid plan item id")
          end;
      raise_if (bool_decide (v ∈ seen)) PlanItemBindingError "duplicate plan item id";;
      item_ids_loop (seen ++ [v]) values
  end.

Definition canonical_plan_item_ids (values : json) : res (list string) :=
  match values with
  | JNull => Ok []
  | JList l =>
      raise_if (MAX_DECLARED_ITEMS <? Z.of_nat (length l)) PlanItemBindingError
        "plan_item_ids declares too many items";;
      item_ids_loop [] l
  | _ => Err (Exn PlanItemBindingError "plan_item_ids must be a list of item IDs")
  end.

Definition resolve_packet_plan_item_ids (values phase : json) (declaration_present : bool) :
    res (list string) :=
  if declaration_present then canonical_plan_item_ids values
  else if match phase with JNull => true | JStr p => bool_decide (p ∈ [""; "none"]) | _ => false end
  then Ok []
  else match phase with
       | JStr p =>
           raise_if (negb (fullmatch PLAN_ITEM_RE p)) PlanItemBindingError "invalid phase plan item id";;
           if negb (str_in "." p) then Ok [] else canonical_plan_item_ids (JList [phase])
       | _ => Err (Exn PlanItemBindingError "invalid phase plan item id")
       end.

(** ** Plan authorities *)

(** [\w] below code point 256. *)
Definition word_char (c : ascii) : bool :=
  let z := code c in
  is_alnum c || (z =? 95) || (z =? 170) || (z =? 178) || (z =? 179) || (z =? 181) || (z =? 185) ||
  (z =? 186) || (188 <=? z) && (z <=? 190) || (192 <=? z) && (z <=? 255) && negb (z =? 215) && negb (z =? 247).

Definition status_char (c : ascii) : bool := is_alnum c || char_in c "_-".
Definition is_blank (c : ascii) : bool := bool_decide (c = " "%char) || (code c =? 9).

Definition head_word (s : string) : bool := match s with "" => false | String c _ => word_char c end.

(** The longest prefix of [run] ending at a word boundary; [rest] follows the
    run. *)
Fixpoint boundary_prefix (run rest : string) : option string :=
  match run with
  | "" => None
  | String c run' =>
      match boundary_prefix run' rest with
      | Some p => Some (String c p)
      | None =>
          let next := match run' with "" => rest | _ => run' end in
          if xorb (word_char c) (head_word next) then Some (String c "") else None
      end
  end.

Definition drop_first_of (ps : list string) (s : string) : string :=
  match List.find (startswith s) ps with
  | Some p => str_drop (String.length p) s
  | None => s
  end.

(** [PLAN_HEADER_STATUS_RE] at the start of a line: the status it captures. *)
Definition status_at (line : string) : option string :=
  let s := drop_while is_blank line in
  let s := match s with
           | String c s' => if decide (c = ">"%char) then drop_while is_blank s' else s
           | "" => ""
           end in
  let s := drop_first_of ["**"; "__"] s in
  if negb (bool_decide (py_lower (str_take 6 s) = "status")) then None
  else
    let s := drop_while is_blank (str_drop 6 s) in
    match s with
    | String c s =>
        if decide (c = ":"%char) then
          let s := drop_while is_blank (drop_first_of ["**"; "__"] s) in
          match s with
          | String c _ =>
              if is_lower c || is_upper c then
                boundary_prefix (take_while status_char s) (drop_while status_char s)
              else None
          | "" => None
          end
        else None
    | "" => None
    end.

Definition _plan_header_status (text : string) : res (option string) :=
  let preamble := before (String LF "## ") text in
  let found := omap status_at (split_char LF preamble) in
  raise_if (1 <? Z.of_nat (length found)) PlanItemBindingError
    "plan file declares more than one header status";;
  Ok (py_lower <$> head found).

(** What [plans_dir] turns out to be: absent, not inspectable, not a directory,
    or its [*.md] regular files in sorted order with the text each reads as. *)
Inductive PlansDir :=
  | PlansAbsent
  | PlansUnreadable
  | PlansNotDirectory
  | PlansFiles (files : list (string * option string)).

Fixpoint active_loop (files : list (string * option string)) (active : list string) : res (list string) :=
  match files with
  | [] => Ok active
  | (name, text) :: files =>
      if bool_decide (name = "README.md") then active_loop files active
      else match text with
           | None => Err (Exn PlanItemBindingError "cannot read plan file")
           | Some text =>
               status ← _plan_header_status text;
               active_loop files (if bool_decide (status = Some "active") then active ++ [name] else active)
           end
  end.

Definition active_plan_authorities (plans : PlansDir) : res (list string) :=
  match plans with
  | PlansAbsent => Ok []
  | PlansUnreadable => Err (Exn PlanItemBindingError "cannot inspect plans path")
  | PlansNotDirectory => Err (Exn PlanItemBindingError "plans path is not a directory")
  | PlansFiles files => active_loop files []
  end.

Definition require_single_active_plan_authority (plans : PlansDir) : res string :=
  active ← active_plan_authorities plans;
  match active with
  | [p] => Ok p
  | _ => Err (Exn PlanItemBindingError "expected exactly one active plan authority")
  end.

(** ** Families and receipts *)

Definition _family (value : json) : string :=
  let lane := py_lower (py_strip (str_or_empty value)) in
  default lane (dict_get lane LANE_AUTHOR_FAMILY).

Definition _entry_author_family (entry : list (string * json)) : string :=
  let explicit := py_lower (py_strip (str_or_empty (dget "author_family" entry))) in
  if negb (bool_decide (explicit = "")) then _family (JStr explicit)
  else
    let contracted := match dget "verification_contract" entry with
                      | JObj c => py_lower (py_strip (str_or_empty (dget "author_family" c)))
                      | _ => ""
                      end in
    if negb (bool_decide (contracted = "")) then _family (JStr contracted)
    else _family (dget "to_model" entry).

Definition _resolve (root : string) (value : json) : option string :=
  let text := py_strip (str_or_empty value) in
  if bool_decide (text = "") then None
  else Some (if isabs text then path_str text else path_div root text).

Definition _load_receipt (r : Repo) (path : option string) : option (list (string * json)) :=
  match path ≫= read_json r with
  | Some (JObj d) => Some d
  | _ => None
  end.

(** ** Declared scope and landed commits *)

Definition _relative_text (value : string) : string :=
  let text := py_strip value in
  if bool_decide (text = "") || startswith text "/" then "" else rstrip_slash text.

(** A relative [PurePosixPath] is its parts. *)
Fixpoint scope_loop (values : list json) (roots : list (list string)) : list (list string) :=
  match values with
  | [] => roots
  | JStr value :: values =>
      let text := _relative_text value in
      let path := path_comps text in
      if bool_decide (text = "") then scope_loop values roots
      else if bool_decide (path = []) then scope_loop values roots
      else if bool_decide (".." ∈ path) then scope_loop values roots
      else scope_loop values (if decide (path ∈ roots) then roots else roots ++ [path])
  | _ :: values => scope_loop values roots
  end.

Definition declared_scope_paths (values : json) : list (list string) :=
  match values with JList l => scope_loop l [] | _ => [] end.

Definition parents (path : list string) : list (list string) :=
  map (λ n, take n path) (seq 0 (length path)).

Definition _within_scope (path : string) (scopes : list (list string)) : bool :=
  if bool_decide (path = "") || startswith path "/" then false
  else
    let candidate := path_comps path in
    if bool_decide (".." ∈ candidate) then false
    else existsb (λ scope, bool_decide (scope = candidate) || bool_decide (scope ∈ parents candidate)) scopes.

Definition NUL : ascii := "000"%char.

Definition commit_changed_paths (r : Repo) (commit : string) : option (list string) :=
  if negb (fullmatch COMMIT_ID_RE commit) then None
  else
    described ← _git r ["rev-list"; "--parents"; "-n"; "1"; commit];
    match py_words described with
    | first :: fields =>
        if negb (bool_decide (first = commit)) then None
        else
          let arguments := ["diff-tree"; "--no-commit-id"; "--name-only"; "-r"; "-z"] ++
            match fields with parent :: _ => [parent; commit] | [] => ["--root"; commit] end in
          changed ← _git r arguments;
          Some (List.filter (λ p, negb (bool_decide (p = ""))) (split_char NUL changed))
    | [] => None
    end.

(** [(?<![A-Za-z0-9_-])task_id(?![A-Za-z0-9_-])] anywhere in the message;
    [prev] says whether the character before this point is a token character. *)
Definition head_token (s : string) : bool := match s with "" => false | String c _ => status_char c end.

Fixpoint token_search (prev : bool) (task_id message : string) : bool :=
  (negb prev && startswith message task_id && negb (head_token (str_drop (String.length task_id) message))) ||
  match message with
  | "" => false
  | String c message => token_search (status_char c) task_id message
  end.

(** [zip(fields[0::2], fields[1::2])] *)
Fixpoint pair_up (fields : list string) : list (string * string) :=
  match fields with a :: b :: fields => (a, b) :: pair_up fields | _ => [] end.

Definition landed_candidates (task_id named : string) : res (list string) :=
  let fields := split_char NUL named in
  let fields := if bool_decide (last fields = Some "") then removelast fields else fields in
  raise_if (Nat.odd (length fields)) PlanItemBindingError
    "could not determine commit ancestry: malformed git log output";;
  Ok (omap (λ cm : string * string, let commit := py_strip cm.1 in
        if fullmatch COMMIT_ID_RE commit && token_search false task_id cm.2 then Some commit else None)
      (pair_up fields)).

Fixpoint landed_loop (r : Repo) (scopes : list (list string)) (candidates : list string) : res (list string) :=
  match candidates with
  | [] => Ok []
  | commit :: candidates =>
      match commit_changed_paths r commit with
      | None => Err (Exn PlanItemBindingError "could not determine changed paths for commit")
      | Some changed =>
          landed ← landed_loop r scopes candidates;
          Ok (if existsb (λ p, _within_scope p scopes) changed then commit :: landed else landed)
      end
  end.

Definition landed_commits (r : Repo) (task_id git_ref : string) (write_scope : json) : res (list string) :=
  if bool_decide (task_id = "") then Ok []
  else
    let scopes := declared_scope_paths write_scope in
    if bool_decide (scopes = []) then Ok []
    else
      match _git r ["log"; "-z"; "--format=%H%x00%B"; "--fixed-strings"; "--grep=" +:+ task_id; git_ref; "--"] with
      | None => Err (Exn PlanItemBindingError "could not determine commit ancestry: git log failed")
      | Some named =>
          candidates ← landed_candidates task_id named;
          landed_loop r scopes (take MAX_ANCESTRY_CANDIDATES candidates)
      end.

(** ** The marking rule *)

Record Decision := {
  dec_item_id : string;
  dec_task_id : string;
  done_ : bool;
  missing : list string;
  evidence : list (string * json)
}.

(** One leg of the rule: what it finds missing and the evidence it adds. *)
Definition Leg : Type := list string * list (string * json).

Definition receipt_leg (r : Repo) (item_id task_id : string) (entry : list (string * json)) : Leg :=
  match _load_receipt r (_resolve (repo_root r) (dget "terminal_receipt_path" entry)) with
  | None => (["receipt_missing"], [])
  | Some receipt =>
      if negb (py_eq (dget "schema" receipt) (JStr RECEIPT_SCHEMA_V2)) then
        (["receipt_schema_unsupported"], [])
      else if negb (py_eq (dget "task_id" receipt) (JStr task_id)) ||
              negb (py_eq (dget "attempt_id" receipt) (dget "delivery_attempt_id" entry)) ||
              negb (py_eq (dget "generation" receipt) (dget "delivery_generation" entry)) then
        (["receipt_identity_mismatch"], [])
      else
        let outcome := str_or_empty (dget "terminal_outcome" receipt) in
        let m1 := if bool_decide (outcome ∈ RECEIPT_SUCCESS_OUTCOMES) then []
                  else ["receipt_outcome_not_terminal_success"] in
        let '(declared, m2) :=
          match canonical_plan_item_ids (dget "plan_item_ids" receipt) with
          | Ok declared => (declared, [])
          | Err _ => ([], ["receipt_declaration_malformed"])
          end in
        let m3 := if bool_decide (item_id ∈ declared) then [] else ["receipt_does_not_declare_item"] in
        (m1 ++ m2 ++ m3,
         [("receipt_path", JStr (str_or_empty (dget "terminal_receipt_path" entry)));
          ("receipt_outcome", JStr outcome)])
  end.

Definition ancestry_leg (r : Repo) (task_id git_ref : string) (entry : list (string * json)) : Leg :=
  let scope := dget "write_scope" entry in
  if bool_decide (declared_scope_paths scope = []) then (["commit_ancestry_unscoped"], [])
  else match landed_commits r task_id git_ref scope with
       | Err e => (["commit_ancestry_unknown"], [("commit_ancestry_error", JStr (exn_msg e))])
       | Ok [] => (["commit_ancestry_missing"], [])
       | Ok (commit :: _) => ([], [("commit", JStr commit)])
       end.

Definition review_leg (entry : list (string * json)) : Leg :=
  let review_ref := py_strip (str_or_empty (dget "cross_family_review_ref" entry)) in
  let verdict := py_upper (py_strip (str_or_empty (dget "verdict" entry))) in
  let settled_by := py_strip (str_or_empty (dget "review_settled_by" entry)) in
  if negb (bool_decide (settled_by = "chrono-explicit")) || bool_decide (review_ref = "") then
    (["review_not_settled"], [])
  else if negb (bool_decide (verdict = "APPROVE")) then (["review_not_approved"], [])
  else if truthy (dget "review_force_override" entry) then (["review_force_overridden"], [])
  else
    let reviewer := _family (dget "review_model" entry) in
    let author := _entry_author_family entry in
    if bool_decide (reviewer = "") || bool_decide (author = "") || bool_decide (reviewer = author) then
      (["review_not_cross_family"], [])
    else ([], [("review_ref", JStr review_ref); ("verdict", JStr verdict);
               ("reviewer_family", JStr reviewer); ("author_family", JStr author)]).

Definition decide_item (r : Repo) (item_id task_id : string) (entry : json) (git_ref : string) : res Decision :=
  raise_if (negb (fullmatch PLAN_ITEM_RE item_id)) PlanItemBindingError "invalid plan item id";;
  let ids := [("item_id", JStr item_id); ("task_id", JStr task_id)] in
  match entry with
  | JObj entry =>
      let m0 := if bool_decide (py_lower (py_strip (str_or_empty (dget "status" entry))) ∈ SETTLED_TASK_STATUSES)
                then [] else ["task_not_settled"] in
      let '(m1, e1) := receipt_leg r item_id task_id entry in
      let '(m2, e2) := ancestry_leg r task_id git_ref entry in
      let '(m3, e3) := review_leg entry in
      let missing := m0 ++ m1 ++ m2 ++ m3 in
      Ok {| dec_item_id := item_id; dec_task_id := task_id; done_ := bool_decide (missing = []);
            missing := missing; evidence := ids ++ e1 ++ e2 ++ e3 |}
  | _ => Ok {| dec_item_id := item_id; dec_task_id := task_id; done_ := false;
               missing := ["task_not_registered"]; evidence := ids |}
  end.

(** ** Ledger surgery *)

(** [CHECKBOX_RE.match(line).group(1)] *)
Definition checkbox_id (line : string) : option string :=
  if startswith line "- [" then
    match str_drop 3 line with
    | String m rest =>
        if char_in m " xX" && startswith rest "] " then
          let w := take_while (λ c, negb (py_isspace c)) (str_drop 2 rest) in
          if bool_decide (w = "") then None else Some w
        else None
    | "" => None
    end
  else None.

Definition plan_item_of (line : string) : option string :=
  match checkbox_id line with
  | Some w => if fullmatch PLAN_ITEM_RE w then Some w else None
  | None => None
  end.

Definition checkbox_item_ids (text : string) : list string := omap plan_item_of (splitlines text).

(** A continuation line of a block. *)
Definition continues (line : string) : bool :=
  match line with String c _ => py_isspace c | "" => false end && negb (bool_decide (py_strip line = "")).

Fixpoint block_end (lines : list string) : nat :=
  match lines with
  | line :: lines => if continues line then S (block_end lines) else O
  | [] => O
  end.

Fixpoint block_bounds_from (index : nat) (lines : list string) (item_id : string) : option (nat * nat) :=
  match lines with
  | [] => None
  | line :: lines =>
      if bool_decide (checkbox_id line = Some item_id) then Some (index, (index + 1 + block_end lines)%nat)
      else block_bounds_from (S index) lines item_id
  end.

Definition _block_bounds (text item_id : string) : option (nat * nat) :=
  block_bounds_from 0 (splitlines text) item_id.

Definition join_lines (ls : list string) : string := py_join (String LF "") ls.

Definition find_item_block (text item_id : string) : res string :=
  match _block_bounds text item_id with
  | None => Err (Exn PlanItemBindingError "item is not present as a checkbox")
  | Some (start, stop) => Ok (join_lines (take (stop - start) (drop start (splitlines text))))
  end.

(** [evidence.get(k, "")] inside an f-string. *)
Definition ev_text (k : string) (evidence : list (string * json)) : string :=
  py_str (default (JStr "") (dict_get k evidence)).

Definition evidence_marker (item_id : string) : string := EVIDENCE_PREFIX +:+ " item=" +:+ item_id +:+ " ".

Definition _evidence_line (item_id : string) (ev : list (string * json)) : string :=
  evidence_marker item_id +:+ "task=" +:+ ev_text "task_id" ev +:+ " commit=" +:+ ev_text "commit" ev +:+
  " receipt=" +:+ ev_text "receipt_path" ev +:+ " outcome=" +:+ ev_text "receipt_outcome" ev +:+
  " review=" +:+ ev_text "review_ref" ev +:+ " verdict=" +:+ ev_text "verdict" ev.

Definition _recorded_evidence (history_text item_id : string) : option string :=
  List.find (λ line, startswith line (evidence_marker item_id)) (splitlines history_text).

(** The two ledger files, and one [atomic_write] of either. *)
Record Ledger := { plan : string; history : string }.
Inductive LedgerWrite := WritePlan (text : string) | WriteHistory (text : string).

Definition atomic_write (l : Ledger) (w : LedgerWrite) : Ledger :=
  match w with
  | WritePlan t => {| plan := t; history := history l |}
  | WriteHistory t => {| plan := plan l; history := t |}
  end.

Definition count_id (item_id : string) (ids : list string) : nat :=
  length (List.filter (λ i, bool_decide (i = item_id)) ids).

(** The plan without the item's block. *)
Definition without_block (plan_text item_id : string) : string :=
  match _block_bounds plan_text item_id with
  | Some (start, stop) =>
      join_lines (take start (splitlines plan_text) ++ drop stop (splitlines plan_text)) +:+ String LF ""
  | None => plan_text
  end.

Definition completed_block (block item_id : string) : string :=
  replace_once ("- [ ] " +:+ item_id) ("- [x] " +:+ item_id) block.

(** History with the completed block and its evidence line appended. *)
Definition appended_history (history_text completed line : string) : string :=
  let appended := if endswith history_text (String LF "") then history_text
                  else history_text +:+ String LF "" in
  let appended := if str_in HISTORY_SECTION appended then appended
                  else appended +:+ String LF HISTORY_SECTION +:+ String LF "" in
  appended +:+ String LF completed +:+ String LF line +:+ String LF "".

Definition move_item (l : Ledger) (item_id : string) (ev : list (string * json)) :
    res bool * list LedgerWrite :=
  let plan_text := universal_newlines (plan l) in
  let history_text := universal_newlines (history l) in
  let in_plan := count_id item_id (checkbox_item_ids plan_text) in
  let in_history := count_id item_id (checkbox_item_ids history_text) in
  if (1 <? in_plan)%nat then
    (Err (Exn PlanItemBindingError "item is open more than once in the plan"), [])
  else if (in_plan =? 0)%nat && (in_history =? 0)%nat then
    (Err (Exn PlanItemBindingError "item is in neither the plan nor history"), [])
  else
    let line := _evidence_line item_id ev in
    if negb (in_history =? 0)%nat then
      if match _recorded_evidence history_text item_id with
         | Some recorded => negb (bool_decide (recorded = line))
         | None => false
         end
      then (Err (Exn PlanItemBindingError "history records conflicting evidence"), [])
      else if (in_plan =? 0)%nat then (Ok false, [])
      else (Ok true, [WritePlan (without_block plan_text item_id)])
    else
      match find_item_block plan_text item_id with
      | Err e => (Err e, [])
      | Ok block =>
          (Ok true, [WriteHistory (appended_history history_text (completed_block block item_id) line);
                     WritePlan (without_block plan_text item_id)])
      end.

(** [_declared_for] *)
Definition _declared_for (r : Repo) (entry : list (string * json)) : list string :=
  match _load_receipt r (_resolve (repo_root r) (dget "terminal_receipt_path" entry)) with
  | None => []
  | Some receipt =>
      match canonical_plan_item_ids (dget "plan_item_ids" receipt) with Ok ids => ids | Err _ => [] end
  end.

(** ** The marking pass ([_mark]) *)

Inductive MarkEntry :=
  | Moved (item_id : string) (changed : bool)
  | DryRun (item_id : string)
  | Held (item_id : string) (missing : list string).

Definition report_cons (m : MarkEntry) (o : res (list MarkEntry) * Ledger) : res (list MarkEntry) * Ledger :=
  (match o.1 with Ok ms => Ok (m :: ms) | Err e => Err e end, o.2).

(** The pairs the pass visits: each registered task's declared items in order. *)
Definition mark_pairs (r : Repo) (registry : list (string * json)) (task_ids : list string) :
    list (string * string * list (string * json)) :=
  concat (map (λ task_id,
    match dget task_id registry with
    | JObj entry => map (λ item_id, (item_id, task_id, entry)) (_declared_for r entry)
    | _ => []
    end) task_ids).

Fixpoint mark_loop (r : Repo) (git_ref : string) (dry_run : bool)
    (pairs : list (string * string * list (string * json))) (l : Ledger) : res (list MarkEntry) * Ledger :=
  match pairs with
  | [] => (Ok [], l)
  | (item_id, task_id, entry) :: pairs =>
      match decide_item r item_id task_id (JObj entry) git_ref with
      | Err e => (Err e, l)
      | Ok decision =>
          if negb (done_ decision) then
            report_cons (Held item_id (missing decision)) (mark_loop r git_ref dry_run pairs l)
          else if dry_run then report_cons (DryRun item_id) (mark_loop r git_ref dry_run pairs l)
          else
            let '(changed, ws) := move_item l item_id (evidence decision) in
            let l' := fold_left atomic_write ws l in
            match changed with
            | Err e => (Err e, l')
            | Ok changed => report_cons (Moved item_id changed) (mark_loop r git_ref dry_run pairs l')
            end
      end
  end.

Definition _mark (r : Repo) (registry : list (string * json)) (task_id : option string) (git_ref : string)
    (dry_run : bool) (l : Ledger) : res (list MarkEntry) * Ledger :=
  let task_ids := match task_id with
                  | Some t => if bool_decide (t = "") then sort_strings registry.*1 else [t]
                  | None => sort_strings registry.*1
                  end in
  mark_loop r git_ref dry_run (mark_pairs r registry task_ids) l.
