(* ===== verification/PlanItemsProps.v ===== *)
(** * Properties of plan-item binding

    The marking rule leg by leg, what a landed commit is, what a declared scope
    contains, and the ledger move under crashes. *)
From S2P Require Import Prelude Regex Sha256 Json Posix PyText PlanItems.

#[local] Open Scope Z_scope.

(** ** Vocabulary *)

(** The four pieces of proof [decide] wants. *)
Definition task_settled (entry : list (string * json)) : Prop :=
  py_lower (py_strip (str_or_empty (dget "status" entry))) ∈ SETTLED_TASK_STATUSES.

Definition receipt_proves (r : Repo) (item_id task_id : string) (entry : list (string * json)) : Prop :=
  ∃ receipt ids,
    _load_receipt r (_resolve (repo_root r) (dget "terminal_receipt_path" entry)) = Some receipt ∧
    py_eq (dget "schema" receipt) (JStr RECEIPT_SCHEMA_V2) = true ∧
    py_eq (dget "task_id" receipt) (JStr task_id) = true ∧
    py_eq (dget "attempt_id" receipt) (dget "delivery_attempt_id" entry) = true ∧
    py_eq (dget "generation" receipt) (dget "delivery_generation" entry) = true ∧
    str_or_empty (dget "terminal_outcome" receipt) ∈ RECEIPT_SUCCESS_OUTCOMES ∧
    canonical_plan_item_ids (dget "plan_item_ids" receipt) = Ok ids ∧ item_id ∈ ids.

Definition work_landed (r : Repo) (task_id git_ref : string) (entry : list (string * json)) : Prop :=
  ∃ commit commits, landed_commits r task_id git_ref (dget "write_scope" entry) = Ok (commit :: commits).

Definition review_approves (entry : list (string * json)) : Prop :=
  py_strip (str_or_empty (dget "review_settled_by" entry)) = "chrono-explicit" ∧
  py_strip (str_or_empty (dget "cross_family_review_ref" entry)) ≠ "" ∧
  py_upper (py_strip (str_or_empty (dget "verdict" entry))) = "APPROVE" ∧
  truthy (dget "review_force_override" entry) = false ∧
  _family (dget "review_model" entry) ≠ "" ∧ _entry_author_family entry ≠ "" ∧
  _family (dget "review_model" entry) ≠ _entry_author_family entry.

(** The parts a scope entry stands for, when it stands for anything. *)
Definition scope_root (value : string) (root : list string) : Prop :=
  _relative_text value ≠ "" ∧ root = path_comps (_relative_text value) ∧ root ≠ [] ∧ ".." ∉ root.

(** The token [task_id] occurs in [message], not inside a longer token. *)
Definition names_task (task_id message : string) : Prop :=
  ∃ a b, message = a +:+ task_id +:+ b ∧
    (a = "" ∨ ∃ a' c, a = a' +:+ String c "" ∧ status_char c = false) ∧ head_token b = false.

(** ** The marking rule *)

Lemma receipt_leg_complete r item_id task_id entry :
  (receipt_leg r item_id task_id entry).1 = [] ↔ receipt_proves r item_id task_id entry.
Proof.
  unfold receipt_leg, receipt_proves.
  destruct (_load_receipt _ _) as [receipt|]; [|split; [done|by intros (? & ? & [=] & _)]].
  destruct (py_eq (dget "schema" receipt) _) eqn:E1; cbn [negb];
    [|split; [done|intros (? & ? & [= <-] & ? & _); congruence]].
  destruct (py_eq (dget "task_id" receipt) _) eqn:E2; cbn [negb orb];
    [|split; [done|intros (? & ? & [= <-] & _ & ? & _); congruence]].
  destruct (py_eq (dget "attempt_id" receipt) _) eqn:E3; cbn [negb orb];
    [|split; [done|intros (? & ? & [= <-] & _ & _ & ? & _); congruence]].
  destruct (py_eq (dget "generation" receipt) _) eqn:E4; cbn [negb];
    [|split; [done|intros (? & ? & [= <-] & _ & _ & _ & ? & _); congruence]].
  destruct (canonical_plan_item_ids (dget "plan_item_ids" receipt)) as [ids|e] eqn:E5.
  - cbn [fst app]. split.
    + intros H. destruct (bool_decide (_ ∈ RECEIPT_SUCCESS_OUTCOMES)) eqn:E6; [|done].
      destruct (bool_decide (item_id ∈ ids)) eqn:E7; [|done]. bool_inv. exists receipt, ids. done.
    + intros (? & ? & [= <-] & _ & _ & _ & _ & Ho & Hc & Hi). rewrite E5 in Hc. injection Hc as <-.
      rewrite (bool_decide_eq_true_2 _ Ho), (bool_decide_eq_true_2 _ Hi). done.
  - cbn [fst app]. split.
    + by destruct (bool_decide (_ ∈ RECEIPT_SUCCESS_OUTCOMES)).
    + intros (? & ? & [= <-] & _ & _ & _ & _ & _ & Hc & _). by rewrite E5 in Hc.
Qed.

Lemma landed_unscoped r task_id git_ref scope :
  declared_scope_paths scope = [] → landed_commits r task_id git_ref scope = Ok [].
Proof.
  intros H. unfold landed_commits. destruct (bool_decide (task_id = "")); [done|].
  by rewrite H, bool_decide_eq_true_2.
Qed.

Lemma ancestry_leg_complete r task_id git_ref entry :
  (ancestry_leg r task_id git_ref entry).1 = [] ↔ work_landed r task_id git_ref entry.
Proof.
  unfold ancestry_leg, work_landed. destruct (bool_decide (declared_scope_paths _ = [])) eqn:E.
  - bool_inv. split; [done|]. intros (c & cs & H). by rewrite landed_unscoped in H.
  - destruct (landed_commits _ _ _ _) as [[|c cs]|e]; split; try done; try (by intros (? & ? & [=])).
    intros _. by exists c, cs.
Qed.

Lemma review_leg_complete entry : (review_leg entry).1 = [] ↔ review_approves entry.
Proof.
  unfold review_leg, review_approves.
  destruct (bool_decide (py_strip (str_or_empty (dget "review_settled_by" entry)) = "chrono-explicit")) eqn:E1;
    bool_inv; cbn [negb orb]; [|split; [done|by intros (? & _)]].
  destruct (bool_decide (py_strip (str_or_empty (dget "cross_family_review_ref" entry)) = "")) eqn:E2;
    bool_inv; [split; [done|by intros (_ & ? & _)]|].
  destruct (bool_decide (py_upper _ = "APPROVE")) eqn:E3; bool_inv; cbn [negb];
    [|split; [done|by intros (_ & _ & ? & _)]].
  destruct (truthy _) eqn:E4; [split; [done|by intros (_ & _ & _ & ? & _)]|].
  destruct (bool_decide (_family _ = "")) eqn:E5; bool_inv; cbn [orb];
    [split; [done|by intros (_ & _ & _ & _ & ? & _)]|].
  destruct (bool_decide (_entry_author_family entry = "")) eqn:E6; bool_inv; cbn [orb];
    [split; [done|by intros (_ & _ & _ & _ & _ & ? & _)]|].
  destruct (bool_decide (_family _ = _entry_author_family entry)) eqn:E7; bool_inv.
  - split; [done|by intros (_ & _ & _ & _ & _ & _ & ?)].
  - split; [intros _; done|done].
Qed.

(** ** Scopes *)

Lemma elem_of_scope_loop values roots root :
  root ∈ scope_loop values roots ↔ root ∈ roots ∨ ∃ v, JStr v ∈ values ∧ scope_root v root.
Proof.
  revert roots. induction values as [|value values IH]; intros roots; cbn [scope_loop].
  { split; [by left|]. intros [?|(v & ?%elem_of_nil & _)]; done. }
  assert (Hskip : (∀ v, value = JStr v → ∀ k, ¬ scope_root v k) →
    root ∈ scope_loop values roots ↔ root ∈ roots ∨ ∃ v, JStr v ∈ value :: values ∧ scope_root v root).
  { intros Hn. rewrite IH. setoid_rewrite elem_of_cons. split.
    - intros [?|(v & ? & ?)]; eauto.
    - intros [?|(v & [<-|?] & Hv)]; eauto. by destruct (Hn v eq_refl root Hv). }
  destruct value as [| | |value| |]; try (apply Hskip; by intros v [=]).
  destruct (bool_decide (_relative_text value = "")) eqn:E1; bool_inv.
  { apply Hskip. intros v [= <-] k [? _]. done. }
  destruct (bool_decide (path_comps _ = [])) eqn:E2; bool_inv.
  { apply Hskip. intros v [= <-] k (_ & -> & ? & _). done. }
  destruct (bool_decide (".." ∈ _)) eqn:E3; bool_inv.
  { apply Hskip. intros v [= <-] k (_ & -> & _ & ?). done. }
  assert (Hself : scope_root value (path_comps (_relative_text value))) by done.
  rewrite IH. setoid_rewrite elem_of_cons. case_decide as Hin.
  - split.
    + intros [?|(v & ? & ?)]; eauto.
    + intros [?|(v & [[= ->]|?] & Hv)]; eauto. destruct Hv as (_ & -> & _). by left.
  - rewrite elem_of_app, list_elem_of_singleton. split.
    + intros [[?| ->]|(v & ? & ?)]; eauto.
    + intros [?|(v & [[= ->]|?] & Hv)]; eauto. destruct Hv as (_ & -> & _). left. by right.
Qed.

Lemma elem_of_parents scope path : scope ∈ parents path ↔ scope `prefix_of` path ∧ scope ≠ path.
Proof.
  unfold parents. rewrite list_elem_of_fmap. split.
  - intros (n & -> & Hn%elem_of_seq). split; [apply prefix_take|].
    intros H%(f_equal length). rewrite length_take in H. lia.
  - intros [[k ->] Hne]. exists (length scope). rewrite take_app_length. split; [done|].
    apply elem_of_seq. rewrite length_app. destruct k; [by rewrite app_nil_r in Hne|]. cbn. lia.
Qed.

Lemma within_scope_true path scopes :
  _within_scope path scopes = true ↔
  path ≠ "" ∧ startswith path "/" = false ∧ ".." ∉ path_comps path ∧
  ∃ scope, scope ∈ scopes ∧ scope `prefix_of` path_comps path.
Proof.
  unfold _within_scope. destruct (bool_decide (path = "")) eqn:E1; bool_inv; cbn [orb].
  { split; [done|by intros (? & _)]. }
  destruct (startswith path "/") eqn:E2; [split; [done|by intros (_ & ? & _)]|].
  destruct (bool_decide (".." ∈ path_comps path)) eqn:E3; bool_inv.
  { split; [done|by intros (_ & _ & ? & _)]. }
  rewrite existsb_exists. setoid_rewrite <- list_elem_of_In. split.
  - intros (s & Hs & Hb). split_and!; try done. exists s. split; [done|].
    apply orb_true_iff in Hb as [Hb|Hb]; bool_inv; [by subst|]. by apply elem_of_parents in Hb as [? _].
  - intros (_ & _ & _ & s & Hs & Hp). exists s. split; [done|]. apply orb_true_iff.
    destruct (decide (s = path_comps path)) as [->|Hne]; [left; by apply bool_decide_eq_true_2|].
    right. apply bool_decide_eq_true_2. by apply elem_of_parents.
Qed.

(** ** Landed commits *)

Lemma token_search_true prev task_id message :
  token_search prev task_id message = true ↔
  ∃ a b, message = a +:+ task_id +:+ b ∧
    (a = "" ∧ prev = false ∨ ∃ a' c, a = a' +:+ String c "" ∧ status_char c = false) ∧ head_token b = false.
Proof.
  assert (Hhere : ∀ prev message,
    negb prev && startswith message task_id && negb (head_token (str_drop (String.length task_id) message)) = true ↔
    prev = false ∧ ∃ b, message = task_id +:+ b ∧ head_token b = false).
  { intros pv msg. rewrite !andb_true_iff, !negb_true_iff. split.
    - intros [[-> (b & ->)%startswith_app] Hb]. rewrite str_drop_app in Hb. eauto.
    - intros (-> & b & -> & Hb). rewrite str_drop_app. split_and!; [done| |done]. apply startswith_app. eauto. }
  revert prev. induction message as [|c message IH]; intros prev; cbn [token_search];
    rewrite orb_true_iff, Hhere.
  - split.
    + intros [(-> & b & Hb & ?)|]; [|done]. exists "", b. split; [done|]. eauto.
    + intros (a & b & Hm & Ha & Hb). left. destruct Ha as [[-> ->]|(a' & c & -> & _)]; [eauto|].
      apply (f_equal String.length) in Hm. rewrite !str_length_app in Hm. cbn in Hm. lia.
  - rewrite IH. split.
    + intros [(-> & b & Hb & ?)|(a & b & -> & Ha & Hb)].
      * exists "", b. split; [done|]. eauto.
      * exists (String c a), b. split; [done|]. split; [|done]. right.
        destruct Ha as [[-> Hc]|(a' & d & -> & Hd)]; [by exists "", c|]. exists (String c a'), d. done.
    + intros (a & b & Hm & Ha & Hb). destruct a as [|d a].
      * left. destruct Ha as [[_ ->]|(a' & d & Hd & _)]; [eauto|]. by destruct a'.
      * right. rewrite str_app_cons in Hm. injection Hm as <- ->. exists a, b. split; [done|]. split; [|done].
        destruct Ha as [[[=] _]|(a' & e & He & Hs)]. destruct a' as [|x a'].
        -- rewrite str_app_nil_l in He. injection He as -> ->. by left.
        -- rewrite str_app_cons in He. injection He as <- ->. right. eauto.
Qed.

Lemma landed_loop_sound r scopes candidates cs commit :
  landed_loop r scopes candidates = Ok cs → commit ∈ cs →
  commit ∈ candidates ∧ ∃ changed p, commit_changed_paths r commit = Some changed ∧ p ∈ changed ∧
    _within_scope p scopes = true.
Proof.
  revert cs. induction candidates as [|c candidates IH]; intros cs; cbn [landed_loop].
  { intros [= <-]. by intros ?%elem_of_nil. }
  destruct (commit_changed_paths r c) as [changed|] eqn:Ec; [|done].
  intros H. apply bind_Ok in H as (landed & Hl & [= <-]). intros Hin.
  assert (commit ∈ landed ∨ (commit = c ∧ existsb (λ p, _within_scope p scopes) changed = true)) as Hc.
  { destruct (existsb _ changed); [|by left]. apply elem_of_cons in Hin as [->|]; auto. }
  destruct Hc as [Hc|[-> He]].
  - destruct (IH _ Hl Hc) as (? & ?). split; [by right|done].
  - apply existsb_exists in He as (p & Hp%list_elem_of_In & Hw). split; [by left|]. eauto.
Qed.

Lemma pair_up_elem fields a b : (a, b) ∈ pair_up fields → a ∈ fields ∧ b ∈ fields.
Proof.
  enough (∀ n fields, (length fields ≤ n)%nat → (a, b) ∈ pair_up fields → a ∈ fields ∧ b ∈ fields) as H
    by by eapply H.
  clear fields. induction n as [|n IH].
  { intros [|x fields] Hn; [by intros ?%elem_of_nil|]. cbn in Hn. lia. }
  intros [|x [|y fields]] Hn; [by intros ?%elem_of_nil|by intros ?%elem_of_nil|]. cbn in Hn.
  cbn [pair_up]. intros [[= -> ->]|Hin]%elem_of_cons; [split; [by left|right; by left]|].
  destruct (IH fields ltac:(lia) Hin) as [Ha Hb]. split; right; by right.
Qed.

Lemma elem_of_removelast {A} (x : A) l : x ∈ removelast l → x ∈ l.
Proof.
  induction l as [|y [|z l] IH]; [done|by intros ?%elem_of_nil|].
  intros [->|H]%elem_of_cons; [by left|]. right. by apply IH.
Qed.

(** ** The ledger texts *)

Lemma checkbox_indented c line : py_isspace c = true → checkbox_id (String c line) = None.
Proof.
  intros Hc. unfold checkbox_id. destruct (startswith (String c line) "- [") eqn:E; [|done].
  apply startswith_app in E as (t & E). rewrite str_app_cons in E. injection E as -> _. done.
Qed.

Lemma continues_plain line : continues line = true → plan_item_of line = None.
Proof.
  destruct line as [|c line]; [done|]. unfold continues, plan_item_of. intros [H _]%andb_true_iff.
  by rewrite checkbox_indented.
Qed.

Lemma block_end_continues lines :
  Forall (λ l, continues l = true) (take (block_end lines) lines).
Proof.
  induction lines as [|l lines IH]; cbn; [constructor|].
  destruct (continues l) eqn:E; cbn; constructor; done.
Qed.

Lemma omap_none {A B} (f : A → option B) l : Forall (λ x, f x = None) l → omap f l = [].
Proof. induction 1 as [|x l Hx _ IH]; cbn; [done|]. by rewrite Hx. Qed.

(** A found block: the lines before it, its own, and the rest. *)
Lemma block_bounds_split index lines item_id start stop :
  block_bounds_from index lines item_id = Some (start, stop) →
  ∃ pre line cont post, lines = pre ++ (line :: cont) ++ post ∧
    start = (index + length pre)%nat ∧ stop = (start + S (length cont))%nat ∧
    checkbox_id line = Some item_id ∧ Forall (λ l, continues l = true) cont ∧
    Forall (λ l, checkbox_id l ≠ Some item_id) pre.
Proof.
  revert index. induction lines as [|l lines IH]; intros index; cbn [block_bounds_from]; [done|].
  destruct (bool_decide (checkbox_id l = Some item_id)) eqn:E; bool_inv.
  - intros [= <- <-]. exists [], l, (take (block_end lines) lines), (drop (block_end lines) lines).
    assert (Hle : (block_end lines ≤ length lines)%nat).
    { clear. induction lines as [|l lines IH]; cbn; [done|]. destruct (continues l); lia. }
    cbn. rewrite take_drop. split; [done|]. split; [lia|]. split; [rewrite length_take; lia|].
    split; [done|]. split; [apply block_end_continues|constructor].
  - intros (pre & line & cont & post & -> & -> & -> & Hl & Hc & Hp)%IH.
    exists (l :: pre), line, cont, post. cbn. split; [done|]. split; [lia|]. split; [lia|].
    split; [done|]. split; [done|]. by constructor.
Qed.

Lemma block_bounds_exists index lines item_id :
  item_id ∈ omap plan_item_of lines → is_Some (block_bounds_from index lines item_id).
Proof.
  revert index. induction lines as [|l lines IH]; intros index; [by intros ?%elem_of_nil|].
  intros Hin. cbn [block_bounds_from]. case_bool_decide as Hb; [by eexists|]. apply IH.
  apply list_elem_of_omap in Hin as (x & Hx & Hpx). apply elem_of_cons in Hx as [->|Hx].
  - unfold plan_item_of in Hpx. destruct (checkbox_id l) as [w|]; [|done].
    destruct (fullmatch PLAN_ITEM_RE w); [|done]. congruence.
  - apply list_elem_of_omap. eauto.
Qed.

Lemma count_id_pos item_id ids : count_id item_id ids ≠ O ↔ item_id ∈ ids.
Proof.
  unfold count_id. induction ids as [|i ids IH]; cbn; [split; [done|by intros ?%elem_of_nil]|].
  rewrite elem_of_cons. case_bool_decide; subst; cbn.
  - split; [by left|lia].
  - rewrite IH. naive_solver.
Qed.

Lemma count_id_app item_id l m : count_id item_id (l ++ m) = (count_id item_id l + count_id item_id m)%nat.
Proof. unfold count_id. by rewrite List.filter_app, length_app. Qed.

(** *** Reading back what the move writes *)

Lemma universal_newlines_id s : no_CR s = true → universal_newlines s = s.
Proof.
  induction s as [|c s IH]; cbn -[decide]; [done|]. intros [Hc Hs]%andb_true_iff. bool_inv.
  rewrite decide_False by done. by rewrite IH.
Qed.

Lemma no_CR_app s t : no_CR (s +:+ t) = no_CR s && no_CR t.
Proof. apply str_forallb_app. Qed.

Lemma no_CR_LF s : no_CR (String LF s) = no_CR s.
Proof. done. Qed.

Lemma one_line_no_CR s : one_line s = true → no_CR s = true.
Proof.
  apply str_forallb_impl. intros c Hc. apply negb_true_iff, bool_decide_eq_false. by intros ->.
Qed.

(** A newline at the end adds at most an empty line. *)
Lemma splitlines_snoc_LF s :
  no_CR s = true → ∃ k, splitlines (s +:+ String LF "") = splitlines s ++ k ∧ Forall (λ w, w = "") k.
Proof.
  induction s as [|c s IH]; intros Hs; [exists [""]; split; [done|by repeat constructor]|].
  cbn in Hs. bool_inv. rewrite str_app_cons. cbn [splitlines]. destruct (is_break c).
  - assert (Hd : ∀ u, match u with
      | String d u'' => if decide (c = CR ∧ d = LF) then "" :: splitlines u'' else "" :: splitlines u
      | "" => [""] end = "" :: splitlines u).
    { intros [|d u]; [done|]. by destruct (decide _) as [[? _]|]. }
    rewrite !Hd. destruct IH as (k & -> & Hk); [done|]. by exists k.
  - destruct IH as (k & Hk & Hf); [done|]. rewrite Hk. destruct (splitlines s) as [|w ws] eqn:E.
    + destruct s as [|d s].
      * cbn in Hk. subst k. exists []. split; [done|constructor].
      * exfalso. cbn [splitlines] in E. destruct (is_break d).
        -- destruct s; [done|]. by destruct (decide _).
        -- by destruct (splitlines s).
    + exists k. done.
Qed.

Lemma join_LF_one_line ls : Forall (λ w, one_line w = true) ls → no_CR (join_lines ls) = true.
Proof.
  unfold join_lines. induction 1 as [|w ls Hw Hls IH]; [done|]. destruct ls as [|w' ls].
  - cbn [py_join]. by apply one_line_no_CR.
  - rewrite py_join_cons by done. rewrite !no_CR_app, IH. by rewrite one_line_no_CR.
Qed.

Lemma ids_join ls :
  Forall (λ w, one_line w = true) ls →
  checkbox_item_ids (join_lines ls +:+ String LF "") = omap plan_item_of ls.
Proof.
  intros Hls. unfold checkbox_item_ids, join_lines. destruct ls as [|w ls]; [done|].
  by rewrite splitlines_join.
Qed.

Lemma take_while_split p s : s = take_while p s +:+ drop_while p s.
Proof.
  induction s as [|c s IH]; cbn; [done|]. destruct (p c); [|done]. rewrite str_app_cons. by f_equal.
Qed.

Lemma checkbox_shape line w :
  checkbox_id line = Some w ↔
  ∃ m rest, line = "- [" +:+ String m ("] " +:+ rest) ∧ char_in m " xX" = true ∧
    take_while (λ c, negb (py_isspace c)) rest = w ∧ w ≠ "".
Proof.
  unfold checkbox_id. split.
  - destruct (startswith line "- [") eqn:E; [|done]. apply startswith_app in E as (t & ->).
    change (str_drop 3 ("- [" +:+ t)) with t. destruct t as [|m t]; [done|].
    destruct (char_in m " xX") eqn:Em; cbn [andb]; [|done].
    destruct (startswith t "] ") eqn:Et; [|done]. apply startswith_app in Et as (rest & ->).
    change (str_drop 2 ("] " +:+ rest)) with rest.
    destruct (bool_decide _) eqn:Ew; bool_inv; [done|]. intros [= <-]. eauto 10.
  - intros (m & rest & -> & Hm & <- & Hw). rewrite (proj2 (startswith_app _ "- [")) by eauto.
    change (str_drop 3 ("- [" +:+ String m ("] " +:+ rest))) with (String m ("] " +:+ rest)).
    cbv beta iota. rewrite Hm. rewrite (proj2 (startswith_app _ "] ")) by eauto. cbn [andb].
    change (str_drop 2 ("] " +:+ rest)) with rest. by rewrite bool_decide_eq_false_2.
Qed.

Lemma replace_once_here old new t : replace_once old new (old +:+ t) = new +:+ t.
Proof.
  destruct (old +:+ t) as [|c s] eqn:E.
  - cbn. assert (old = "" ∧ t = "") as [-> ->] by (by destruct old). done.
  - cbn [replace_once]. rewrite (proj2 (startswith_app _ old)) by eauto.
    rewrite <- E. by rewrite str_drop_app.
Qed.

(** The lines of a completed block: the box ticked, the rest unchanged. *)
Lemma completed_lines line cont item_id :
  checkbox_id line = Some item_id → one_line line = true →
  Forall (λ w, one_line w = true) cont →
  startswith (join_lines (line :: cont)) ("- [ ] " +:+ item_id) = true →
  ∃ line', completed_block (join_lines (line :: cont)) item_id = join_lines (line' :: cont) ∧
    one_line line' = true ∧ checkbox_id line' = Some item_id.
Proof.
  intros Hl H1 Hc Hs. apply checkbox_shape in Hl as (m & rest & -> & Hm & Hw & Hne).
  set (tl := match cont with [] => "" | _ => String LF (join_lines cont) end).
  assert (Hj : ∀ w, join_lines (w :: cont) = w +:+ tl).
  { intros w. unfold join_lines, tl. destruct cont as [|w' cont]; [by rewrite str_app_nil_r|].
    rewrite py_join_cons by done. by rewrite str_app_cons, str_app_nil_l. }
  assert (m = " "%char) as ->.
  { rewrite Hj in Hs. apply startswith_app in Hs as (t & Hs).
    rewrite !str_app_cons, ?str_app_nil_l, ?str_app_cons in Hs. by injection Hs as ->. }
  set (r0 := drop_while (λ c, negb (py_isspace c)) rest).
  assert (Hr : rest = item_id +:+ r0) by (rewrite <- Hw; apply take_while_split).
  exists ("- [x] " +:+ item_id +:+ r0). split_and!.
  - unfold completed_block. rewrite !Hj, Hr.
    change ("- [" +:+ String " " ("] " +:+ item_id +:+ r0)) with ("- [ ] " +:+ (item_id +:+ r0)).
    rewrite <- !(str_app_assoc _ item_id). rewrite (str_app_assoc _ r0 tl).
    rewrite replace_once_here. by rewrite <- str_app_assoc.
  - unfold one_line in *. rewrite Hr in H1.
    change ("- [" +:+ String " " ("] " +:+ item_id +:+ r0)) with ("- [ ] " +:+ (item_id +:+ r0)) in H1.
    rewrite str_forallb_app in *. apply andb_true_iff in H1 as [_ H1]. by rewrite H1.
  - apply checkbox_shape. exists "x"%char, rest. rewrite Hr at 1. done.
Qed.

(** What surrounds the appended block: nothing but empty lines and the section
    title. *)
Lemma appended_shape history_text completed line :
  no_CR history_text = true → no_CR completed = true → one_line line = true →
  no_CR (appended_history history_text completed line) = true ∧
  ∃ noise, splitlines (appended_history history_text completed line) =
    splitlines history_text ++ noise ++ splitlines (completed +:+ String LF "") ++ [line] ∧
    Forall (λ w, w = "" ∨ w = HISTORY_SECTION) noise.
Proof.
  intros Hh Hc Hl. unfold appended_history.
  set (A1 := if endswith history_text (String LF "") then history_text else history_text +:+ String LF "").
  assert (HA1 : no_CR A1 = true ∧ ∃ k, splitlines A1 = splitlines history_text ++ k ∧ Forall (λ w, w = "") k).
  { unfold A1. destruct (endswith _ _).
    - split; [done|]. exists []. by rewrite app_nil_r.
    - split; [rewrite no_CR_app, Hh; done|]. by apply splitlines_snoc_LF. }
  destruct HA1 as (Hn1 & k1 & Hk1 & Hf1).
  set (A := if str_in HISTORY_SECTION A1 then A1 else A1 +:+ String LF HISTORY_SECTION +:+ String LF "").
  assert (HA : no_CR A = true ∧ ∃ k, splitlines A = splitlines history_text ++ k ∧
    Forall (λ w, w = "" ∨ w = HISTORY_SECTION) k).
  { assert (Himp : ∀ k : list string, Forall (λ w, w = "") k → Forall (λ w, w = "" ∨ w = HISTORY_SECTION) k).
    { intros k Hk. eapply Forall_impl; [exact Hk|]. auto. }
    unfold A. destruct (str_in _ _).
    - split; [done|]. exists k1. auto.
    - split; [rewrite !no_CR_app, Hn1; done|].
      destruct (splitlines_snoc_LF A1 Hn1) as (k2 & Hk2 & Hf2).
      exists (k1 ++ k2 ++ [HISTORY_SECTION]). split.
      + rewrite str_app_cons, splitlines_app_LF, Hk2, splitlines_LF, Hk1, <- !app_assoc by done. done.
      + rewrite !Forall_app. split_and!; [by apply Himp|by apply Himp|]. constructor; [by right|constructor]. }
  destruct HA as (Hn & k & Hk & Hf). split.
  - by rewrite !no_CR_app, !no_CR_LF, Hn, Hc, (one_line_no_CR line Hl).
  - destruct (splitlines_snoc_LF A Hn) as (k2 & Hk2 & Hf2). exists (k ++ k2). split.
    + rewrite str_app_cons, splitlines_app_LF, Hk2, Hk by done.
      rewrite str_app_cons, splitlines_app_LF by done. rewrite (splitlines_LF line) by done.
      by rewrite <- !app_assoc.
    + apply Forall_app. split; [done|]. eapply Forall_impl; [exact Hf2|]. auto.
Qed.

(** *** The move, step by step *)

Lemma find_app_l {A} (p : A → bool) l m x : List.find p l = Some x → List.find p (l ++ m) = Some x.
Proof. induction l as [|y l IH]; cbn; [done|]. by destruct (p y). Qed.

Lemma find_app_r {A} (p : A → bool) l m : List.find p l = None → List.find p (l ++ m) = List.find p m.
Proof. induction l as [|y l IH]; cbn; [done|]. by destruct (p y). Qed.

Lemma find_none_all {A} (p : A → bool) l : List.find p l = None ↔ Forall (λ x, p x = false) l.
Proof.
  induction l as [|y l IH]; cbn; [split; [constructor|done]|]. rewrite Forall_cons, <- IH.
  destruct (p y); naive_solver.
Qed.

(** What an open item's move leaves, read back. *)
Record moved (plan_text history_text item_id line plan' history' : string) : Prop := {
  mv_plan_CR : no_CR plan' = true;
  mv_hist_CR : no_CR history' = true;
  mv_plan : checkbox_item_ids plan' =
    List.filter (λ i, negb (bool_decide (i = item_id))) (checkbox_item_ids plan_text);
  mv_hist : checkbox_item_ids history' = checkbox_item_ids history_text ++ [item_id];
  mv_line : _recorded_evidence history' item_id = Some line
}.

Lemma plan_item_of_checkbox line w :
  plan_item_of line = Some w ↔ checkbox_id line = Some w ∧ fullmatch PLAN_ITEM_RE w = true.
Proof.
  unfold plan_item_of. destruct (checkbox_id line) as [v|]; [|split; [done|by intros [[=] _]]].
  destruct (fullmatch PLAN_ITEM_RE v) eqn:E; split.
  - by intros [= <-].
  - by intros [[= <-] _].
  - done.
  - intros [[= <-] H]. congruence.
Qed.

Lemma filter_not_in (item_id : string) ids :
  item_id ∉ ids → List.filter (λ i, negb (bool_decide (i = item_id))) ids = ids.
Proof.
  induction ids as [|i ids IH]; cbn; [done|]. intros [Hne Hn]%not_elem_of_cons.
  rewrite bool_decide_eq_false_2 by congruence. cbn. by rewrite IH.
Qed.

Lemma omap_noise noise :
  Forall (λ w, w = "" ∨ w = HISTORY_SECTION) noise → omap plan_item_of noise = [].
Proof. intros Hn. apply omap_none. eapply Forall_impl; [exact Hn|]. by intros w [->| ->]. Qed.

Lemma marker_not_dash item_id line w : checkbox_id line = Some w → startswith line (evidence_marker item_id) = false.
Proof.
  intros (m & rest & -> & _)%checkbox_shape. unfold evidence_marker.
  destruct (startswith _ _) eqn:E; [|done]. apply startswith_app in E as (t & E). done.
Qed.

Lemma move_parts plan_text history_text item_id line block :
  no_CR plan_text = true → no_CR history_text = true →
  count_id item_id (checkbox_item_ids plan_text) = 1%nat →
  find_item_block plan_text item_id = Ok block → startswith block ("- [ ] " +:+ item_id) = true →
  one_line line = true → startswith line (evidence_marker item_id) = true →
  _recorded_evidence history_text item_id = None → _recorded_evidence plan_text item_id = None →
  moved plan_text history_text item_id line (without_block plan_text item_id)
    (appended_history history_text (completed_block block item_id) line).
Proof.
  intros Hp Hh Hcount Hb Hs Hl Hm Hrh Hrp.
  unfold find_item_block in Hb. unfold without_block.
  destruct (_block_bounds plan_text item_id) as [[start stop]|] eqn:Eb; [|done]. injection Hb as <-.
  unfold _block_bounds in Eb. apply block_bounds_split in Eb as (pre & l0 & cont & post & Hls & -> & -> & Hl0 & Hc & Hpre).
  rewrite !Hls in *. cbn [Nat.add] in *.
  pose proof (splitlines_one_line plan_text) as Hone. rewrite Hls in Hone.
  rewrite !Forall_app, Forall_cons in Hone. destruct Hone as (Hone1 & (Hone2 & Hone3) & Hone4).
  assert (Ht : take (length pre + S (length cont) - length pre) (drop (length pre) (pre ++ (l0 :: cont) ++ post)) = l0 :: cont).
  { rewrite drop_app_length. replace (length pre + S (length cont) - length pre)%nat with (length (l0 :: cont)) by (cbn; lia).
    apply take_app_length. }
  rewrite Ht in *.
  assert (Hd : take (length pre) (pre ++ (l0 :: cont) ++ post) ++ drop (length pre + S (length cont)) (pre ++ (l0 :: cont) ++ post) = pre ++ post).
  { rewrite take_app_length. f_equal. rewrite app_assoc.
    replace (length pre + S (length cont))%nat with (length (pre ++ l0 :: cont)) by (rewrite length_app; done).
    apply drop_app_length. }
  rewrite Hd.
  assert (Hid : plan_item_of l0 = Some item_id).
  { apply plan_item_of_checkbox. split; [done|].
    assert (Hin : item_id ∈ checkbox_item_ids plan_text) by (apply count_id_pos; lia).
    unfold checkbox_item_ids in Hin. apply list_elem_of_omap in Hin as (x & _ & Hx).
    by apply plan_item_of_checkbox in Hx as [_ ?]. }
  assert (Hcont : omap plan_item_of cont = []).
  { apply omap_none. eapply Forall_impl; [exact Hc|]. apply continues_plain. }
  assert (Hids : checkbox_item_ids plan_text = omap plan_item_of pre ++ item_id :: omap plan_item_of post).
  { unfold checkbox_item_ids. rewrite Hls, !omap_app. cbn [omap list_omap]. by rewrite Hid, Hcont. }
  destruct (completed_lines l0 cont item_id Hl0 Hone2 Hone3 Hs) as (l1 & -> & Hl1 & Hl1id).
  assert (Hcr : Forall (λ w, one_line w = true) (l1 :: cont)) by by constructor.
  destruct (appended_shape history_text (join_lines (l1 :: cont)) line Hh (join_LF_one_line _ Hcr) Hl)
    as (HnCR & noise & Hsp & Hnoise).
  unfold join_lines in Hsp at 2. rewrite splitlines_join in Hsp by done.
  assert (Hpp : Forall (λ w, one_line w = true) (pre ++ post)) by by apply Forall_app_2.
  split.
  - by rewrite no_CR_app, (join_LF_one_line _ Hpp).
  - exact HnCR.
  - rewrite (ids_join _ Hpp), omap_app, Hids. rewrite Hids in Hcount.
    unfold count_id in Hcount. rewrite List.filter_app, length_app in Hcount. cbn [List.filter] in Hcount.
    rewrite bool_decide_eq_true_2 in Hcount by done. cbn [length] in Hcount.
    assert (Hn1 : item_id ∉ omap plan_item_of pre).
    { intros H%count_id_pos. apply H. unfold count_id. lia. }
    assert (Hn2 : item_id ∉ omap plan_item_of post).
    { intros H%count_id_pos. apply H. unfold count_id. lia. }
    rewrite List.filter_app. cbn [List.filter]. rewrite bool_decide_eq_true_2 by done. cbn [negb].
    by rewrite !filter_not_in.
  - unfold checkbox_item_ids. rewrite Hsp, !omap_app. cbn [omap list_omap].
    assert (plan_item_of l1 = Some item_id) as ->.
    { apply plan_item_of_checkbox. split; [done|]. by apply plan_item_of_checkbox in Hid as [_ ?]. }
    assert (plan_item_of line = None) as ->.
    { apply startswith_app in Hm as (t & ->). unfold plan_item_of, evidence_marker, EVIDENCE_PREFIX.
      rewrite !str_app_cons. by rewrite checkbox_indented. }
    by rewrite (omap_noise noise Hnoise), Hcont.
  - unfold _recorded_evidence in *. rewrite Hsp, find_app_r by done. rewrite find_app_r.
    + apply find_none_all in Hrp. rewrite Hls, !Forall_app, Forall_cons in Hrp.
      destruct Hrp as (_ & (_ & Hrc) & _).
      rewrite find_app_r; [cbn; by rewrite Hm|]. apply find_none_all. constructor; [|done].
      by eapply marker_not_dash.
    + apply find_none_all. eapply Forall_impl; [exact Hnoise|]. by intros w [->| ->].
Qed.

(** ** A concrete repository and ledger for the witnesses *)

Definition demo_commit : string := "0123456789abcdef0123456789abcdef01234567".
Definition demo_nul : string := String NUL "".
Definition demo_git (args : list string) : option string :=
  match args with
  | "log" :: _ => Some (demo_commit +:+ demo_nul +:+ "land TASK-7: done" +:+ demo_nul)
  | "rev-list" :: _ => Some demo_commit
  | "diff-tree" :: _ => Some ("src/a.py" +:+ demo_nul)
  | _ => None
  end.
Definition demo_receipt : json :=
  JObj [("schema", JStr RECEIPT_SCHEMA_V2); ("task_id", JStr "TASK-7"); ("attempt_id", JStr "a1");
        ("generation", JInt 1); ("terminal_outcome", JStr "complete");
        ("plan_item_ids", JList [JStr "P4.4"])].
Definition demo_repo : Repo := {|
  repo_root := "/r"; _git := demo_git;
  read_json := λ p, if bool_decide (p = "/r/receipt.json") then Some demo_receipt else None
|}.
Definition demo_entry : list (string * json) :=
  [("status", JStr "closed"); ("terminal_receipt_path", JStr "receipt.json");
   ("delivery_attempt_id", JStr "a1"); ("delivery_generation", JInt 1);
   ("write_scope", JList [JStr "src/"]); ("cross_family_review_ref", JStr "review-1");
   ("verdict", JStr "approve"); ("review_settled_by", JStr "chrono-explicit");
   ("review_model", JStr "claude"); ("to_model", JStr "gpt-codex")].
Definition lines (ls : list string) : string := join_lines ls +:+ String LF "".
Definition demo_ledger : Ledger := {|
  plan := lines ["# Plan"; "- [ ] P4.3 one"; "- [ ] P4.4 two"; "      more"; "- [ ] P4.5 three"];
  history := lines ["# History"; "- [x] P4.1 zero"]
|}.
Definition demo_evidence : list (string * json) :=
  [("task_id", JStr "TASK-7"); ("commit", JStr demo_commit)].

(** ** Properties *)

(** The four legs together. *)
Definition work_proved (r : Repo) (item_id task_id git_ref : string) (entry : list (string * json)) : Prop :=
  task_settled entry ∧ receipt_proves r item_id task_id entry ∧
  work_landed r task_id git_ref entry ∧ review_approves entry.

Lemma decide_done_of r item_id task_id entry git_ref d :
  decide_item r item_id task_id (JObj entry) git_ref = Ok d →
  (done_ d = true ↔ work_proved r item_id task_id git_ref entry) ∧
  (done_ d = true ↔ missing d = []).
Proof.
  unfold decide_item, work_proved. intros (_ & _ & H)%bind_Ok.
  rewrite <- (receipt_leg_complete r item_id task_id entry), <- (ancestry_leg_complete r task_id git_ref entry),
    <- (review_leg_complete entry).
  destruct (receipt_leg r item_id task_id entry) as [m1 e1].
  destruct (ancestry_leg r task_id git_ref entry) as [m2 e2].
  destruct (review_leg entry) as [m3 e3]. injection H as <-. cbn [done_ missing fst].
  rewrite bool_decide_eq_true. split; [|done].
  assert (Hs : (if bool_decide (py_lower (py_strip (str_or_empty (dget "status" entry))) ∈ SETTLED_TASK_STATUSES)
                then [] else ["task_not_settled"]) = [] ↔ task_settled entry).
  { unfold task_settled. case_bool_decide; done. }
  rewrite <- Hs. set (m0 := if bool_decide _ then _ else _). clearbody m0.
  split; [|by intros (-> & -> & -> & ->)].
  by intros [-> [-> [-> ->]%app_eq_nil]%app_eq_nil]%app_eq_nil.
Qed.

Lemma report_cons_Ok m o ms l' :
  report_cons m o = (Ok ms, l') → ∃ ms', ms = m :: ms' ∧ o = (Ok ms', l').
Proof. destruct o as [[ms'|e] l'']; cbn; [|done]. intros [= <- <-]. eauto. Qed.

(** C37. The marking rule, exactly: an item is done precisely when the task is
    settled, its v2 receipt carries this task's identity, a success outcome and
    a well-formed declaration with the item, a commit of it landed, and an
    explicitly settled review by another family approves it without override;
    and the missing list is empty exactly then, so no leg can stand in for
    another. *)
Theorem decide_done_iff r item_id task_id entry git_ref d :
  decide_item r item_id task_id (JObj entry) git_ref = Ok d →
  (done_ d = true ↔
   task_settled entry ∧ receipt_proves r item_id task_id entry ∧
   work_landed r task_id git_ref entry ∧ review_approves entry) ∧
  (done_ d = true ↔ missing d = []).
Proof.
  apply decide_done_of.
Qed.

Lemma decide_done_iff_witness :
  ∃ d, decide_item demo_repo "P4.4" "TASK-7" (JObj demo_entry) "HEAD" = Ok d ∧ done_ d = true ∧
    work_landed demo_repo "TASK-7" "HEAD" demo_entry.
Proof.
  destruct (decide_item demo_repo "P4.4" "TASK-7" (JObj demo_entry) "HEAD") as [d|] eqn:E;
    [|vm_compute in E; discriminate].
  assert (Hd : done_ d = true) by (vm_compute in E; injection E as <-; reflexivity).
  exists d. split; [reflexivity|]. split; [exact Hd|].
  destruct (decide_done_iff _ _ _ _ _ _ E) as [[F _] _]. apply (F Hd).
Defined.

(** A commit counts as landed only when it did the task's work: it is a
    full commit id that Git lists as reachable, its message names the task as a
    token of its own, and one of the paths it changed against its first parent
    lies under a declared scope entry without leaving it. *)
Theorem landed_commit_witnessed r task_id git_ref values commits commit :
  landed_commits r task_id git_ref (JList values) = Ok commits → commit ∈ commits →
  fullmatch COMMIT_ID_RE commit = true ∧
  ∃ named hash message changed path value root,
    _git r ["log"; "-z"; "--format=%H%x00%B"; "--fixed-strings"; "--grep=" +:+ task_id; git_ref; "--"] = Some named ∧
    hash ∈ split_char NUL named ∧ message ∈ split_char NUL named ∧
    commit = py_strip hash ∧ names_task task_id message ∧
    commit_changed_paths r commit = Some changed ∧ path ∈ changed ∧
    startswith path "/" = false ∧ ".." ∉ path_comps path ∧
    JStr value ∈ values ∧ scope_root value root ∧ root `prefix_of` path_comps path.
Proof.
  unfold landed_commits. destruct (bool_decide (task_id = "")); [intros [= <-] ?%elem_of_nil; done|].
  destruct (bool_decide (_ = [])); [intros [= <-] ?%elem_of_nil; done|].
  destruct (_git r _) as [named|] eqn:Eg; [|done]. intros (cands & Hc & Hl)%bind_Ok Hin.
  destruct (landed_loop_sound _ _ _ _ _ Hl Hin) as (Hcand & changed & p & Hch & Hp & Hw).
  apply within_scope_true in Hw as (_ & Hrel & Hdot & root & Hroot & Hpre).
  unfold declared_scope_paths in Hroot. apply elem_of_scope_loop in Hroot as [?%elem_of_nil|(v & Hv & Hvr)]; [done|].
  unfold landed_candidates in Hc. apply bind_Ok in Hc as (_ & _ & [= <-]).
  assert (Hc2 : commit ∈ omap (λ cm : string * string, let commit := py_strip cm.1 in
        if fullmatch COMMIT_ID_RE commit && token_search false task_id cm.2 then Some commit else None)
      (pair_up (if bool_decide (last (split_char NUL named) = Some "")
                then removelast (split_char NUL named) else split_char NUL named))).
  { eapply elem_of_sublist; [exact Hcand|]. apply sublist_take. }
  apply list_elem_of_omap in Hc2 as ([hash message] & Hpair & Hcm).
  cbv beta zeta in Hcm. cbn [fst snd] in Hcm.
  destruct (fullmatch COMMIT_ID_RE (py_strip hash)) eqn:Ef; [|done]. cbn [andb] in Hcm.
  destruct (token_search false task_id message) eqn:Et; [|done]. injection Hcm as <-.
  split; [done|]. exists named, hash, message, changed, p, v, root.
  assert (Hfields : hash ∈ split_char NUL named ∧ message ∈ split_char NUL named).
  { apply pair_up_elem in Hpair as [H1 H2]. destruct (bool_decide _); [|by split].
    split; by apply elem_of_removelast. }
  apply token_search_true in Et as (a & b & Hm & Ha & Hb).
  split_and!; try done; try apply Hfields. exists a, b. split; [done|]. split; [|done].
  destruct Ha as [[-> _]|Ha]; auto.
Qed.

Lemma landed_commit_witnessed_witness :
  ∃ commits, landed_commits demo_repo "TASK-7" "HEAD" (JList [JStr "src/"]) = Ok commits ∧
    demo_commit ∈ commits ∧ fullmatch COMMIT_ID_RE demo_commit = true.
Proof.
  destruct (landed_commits demo_repo "TASK-7" "HEAD" (JList [JStr "src/"])) as [cs|] eqn:E;
    [|vm_compute in E; discriminate].
  assert (Hin : demo_commit ∈ cs) by (vm_compute in E; injection E as <-; by left).
  exists cs. split; [reflexivity|]. split; [exact Hin|].
  apply (landed_commit_witnessed _ _ _ _ _ _ E Hin).
Defined.

(** A declared scope contains what it says and no more: a changed path is in
    scope exactly when it is relative, has no parent-directory component, and
    extends the components of some declared entry that is itself relative,
    names something below the root and never steps up.  Unreadable entries
    only narrow. *)
Theorem scope_contained values path :
  _within_scope path (declared_scope_paths (JList values)) = true ↔
  path ≠ "" ∧ startswith path "/" = false ∧ ".." ∉ path_comps path ∧
  ∃ value root, JStr value ∈ values ∧ scope_root value root ∧ root `prefix_of` path_comps path.
Proof.
  rewrite within_scope_true. unfold declared_scope_paths. split.
  - intros (H1 & H2 & H3 & root & Hr & Hp). split_and!; try done.
    apply elem_of_scope_loop in Hr as [?%elem_of_nil|(v & Hv & Hvr)]; [done|]. eauto.
  - intros (H1 & H2 & H3 & v & root & Hv & Hvr & Hp). split_and!; try done.
    exists root. split; [|done]. apply elem_of_scope_loop. right. eauto.
Qed.

(** Moving an open item is complete, exact and survives a crash.  History is
    written first and gains exactly the item with its evidence line; the plan
    then loses exactly that item.  If the process dies between the two writes,
    repeating the call performs the missing write and nothing else; repeating
    it after completion changes nothing. *)
Theorem move_item_moves l item_id ev block :
  let P := universal_newlines (plan l) in
  let H := universal_newlines (history l) in
  count_id item_id (checkbox_item_ids P) = 1%nat → item_id ∉ checkbox_item_ids H →
  find_item_block P item_id = Ok block → startswith block ("- [ ] " +:+ item_id) = true →
  one_line (_evidence_line item_id ev) = true →
  _recorded_evidence H item_id = None → _recorded_evidence P item_id = None →
  ∃ p' h', move_item l item_id ev = (Ok true, [WriteHistory h'; WritePlan p']) ∧
    checkbox_item_ids h' = checkbox_item_ids H ++ [item_id] ∧
    _recorded_evidence h' item_id = Some (_evidence_line item_id ev) ∧
    checkbox_item_ids p' = List.filter (λ i, negb (bool_decide (i = item_id))) (checkbox_item_ids P) ∧
    move_item {| plan := plan l; history := h' |} item_id ev = (Ok true, [WritePlan p']) ∧
    move_item {| plan := p'; history := h' |} item_id ev = (Ok false, []).
Proof.
  intros P H Hc Hh Hb Hs Hl HrH HrP.
  destruct (move_parts P H item_id (_evidence_line item_id ev) block) as [Mp Mh Mids Hids Mline];
    try done; try apply universal_newlines_no_CR.
  { unfold _evidence_line. apply startswith_app. eauto. }
  exists (without_block P item_id), (appended_history H (completed_block block item_id) (_evidence_line item_id ev)).
  assert (Hh0 : count_id item_id (checkbox_item_ids H) = 0%nat).
  { destruct (count_id item_id (checkbox_item_ids H)) eqn:E; [done|]. destruct Hh. apply count_id_pos. lia. }
  assert (Hfirst : move_item l item_id ev = (Ok true,
    [WriteHistory (appended_history H (completed_block block item_id) (_evidence_line item_id ev));
     WritePlan (without_block P item_id)])).
  { unfold move_item. cbv zeta. fold P. fold H. by rewrite Hc, Hh0, Hb. }
  set (h' := appended_history _ _ _) in *. clearbody h'.
  set (p' := without_block P item_id) in *.
  assert (Hh1 : count_id item_id (checkbox_item_ids h') = 1%nat).
  { rewrite Hids, count_id_app, Hh0. unfold count_id. cbn. by rewrite bool_decide_eq_true_2. }
  assert (Hp0 : count_id item_id (checkbox_item_ids p') = 0%nat).
  { rewrite Mids. unfold count_id. clear. induction (checkbox_item_ids P) as [|i ids IH]; [done|]. cbn.
    destruct (bool_decide (i = item_id)) eqn:E; cbn; [done|]. by rewrite E. }
  split_and!; try done.
  - unfold move_item. cbn [plan history]. rewrite (universal_newlines_id h') by done. fold P.
    rewrite Hc, Hh1, Mline, bool_decide_eq_true_2 by done. done.
  - unfold move_item. cbn [plan history]. rewrite !universal_newlines_id by done.
    rewrite Hp0, Hh1, Mline, bool_decide_eq_true_2 by done. done.
Qed.

Lemma move_item_moves_witness :
  ∃ p' h', move_item demo_ledger "P4.4" demo_evidence = (Ok true, [WriteHistory h'; WritePlan p']) ∧
    checkbox_item_ids p' = ["P4.3"; "P4.5"] ∧ checkbox_item_ids h' = ["P4.1"; "P4.4"] ∧
    move_item {| plan := p'; history := h' |} "P4.4" demo_evidence = (Ok false, []).
Proof.
  destruct (move_item_moves demo_ledger "P4.4" demo_evidence (join_lines ["- [ ] P4.4 two"; "      more"]))
    as (p' & h' & H1 & H2 & _ & H4 & _ & H6); try (vm_compute; reflexivity).
  { by_decide. }
  exists p', h'. split; [exact H1|]. split; [rewrite H4; vm_compute; reflexivity|].
  split; [rewrite H2; vm_compute; reflexivity|exact H6].
Defined.


(** What the pass reports for one visited pair. *)
Variant reported (r : Repo) (git_ref : string) (dry_run : bool) :
    string * string * list (string * json) → MarkEntry → Prop :=
  | RHeld item_id task_id entry d :
      decide_item r item_id task_id (JObj entry) git_ref = Ok d → missing d ≠ [] →
      reported r git_ref dry_run (item_id, task_id, entry) (Held item_id (missing d))
  | RDryRun item_id task_id entry :
      dry_run = true → work_proved r item_id task_id git_ref entry →
      reported r git_ref dry_run (item_id, task_id, entry) (DryRun item_id)
  | RMoved item_id task_id entry changed :
      dry_run = false → work_proved r item_id task_id git_ref entry →
      reported r git_ref dry_run (item_id, task_id, entry) (Moved item_id changed).

Lemma mark_loop_reports r git_ref dry_run pairs l ms l' :
  mark_loop r git_ref dry_run pairs l = (Ok ms, l') → Forall2 (reported r git_ref dry_run) pairs ms.
Proof.
  revert l ms l'. induction pairs as [|[[item_id task_id] entry] pairs IH]; intros l ms l'; cbn [mark_loop].
  { intros [= <- <-]. constructor. }
  destruct (decide_item r item_id task_id (JObj entry) git_ref) as [d|e] eqn:Ed; [|done].
  destruct (decide_done_of r item_id task_id entry git_ref d Ed) as [Hdone Hmiss].
  destruct (done_ d) eqn:E; cbn [negb].
  - assert (Hw : work_proved r item_id task_id git_ref entry) by by apply Hdone.
    destruct dry_run.
    + intros (ms' & -> & Hl)%report_cons_Ok. constructor; [by constructor|]. by eapply IH.
    + destruct (move_item l item_id (evidence d)) as [[changed|e] ws]; [|done].
      intros (ms' & -> & Hl)%report_cons_Ok. constructor; [by constructor|]. by eapply IH.
  - intros (ms' & -> & Hl)%report_cons_Ok. constructor; [|by eapply IH].
    constructor; [done|]. intros Hm%Hmiss. done.
Qed.

Lemma mark_loop_dry r git_ref pairs l : (mark_loop r git_ref true pairs l).2 = l.
Proof.
  induction pairs as [|[[item_id task_id] entry] pairs IH]; [done|]. cbn [mark_loop].
  destruct (decide_item r item_id task_id (JObj entry) git_ref) as [d|]; [|done].
  by destruct (negb (done_ d)).
Qed.

(** A marking pass reports every declared item of the tasks it was asked
    about, in order, and truthfully: an item is held only for a named missing
    leg, and moved (or, in a dry run, said to be movable) only when the four
    legs of the rule all hold for the task that declared it.  A dry run writes
    neither ledger file, even when the pass fails. *)
Theorem mark_pass r registry task_id git_ref dry_run l :
  let task_ids := match task_id with
                  | Some t => if bool_decide (t = "") then sort_strings registry.*1 else [t]
                  | None => sort_strings registry.*1
                  end in
  (∀ ms l', _mark r registry task_id git_ref dry_run l = (Ok ms, l') →
     Forall2 (reported r git_ref dry_run) (mark_pairs r registry task_ids) ms) ∧
  (dry_run = true → (_mark r registry task_id git_ref dry_run l).2 = l).
Proof.
  intros task_ids. split.
  - intros ms l' H. by eapply mark_loop_reports.
  - intros ->. apply mark_loop_dry.
Qed.
