(* ===== verification/Contract.v ===== *)
(** * Verification contracts ([verification_contract.py])

    The dispatcher derives a contract from an admission and validates one by
    deriving it again from the contract's own fields.  Admissions and contracts
    are JSON objects, as association lists with unique keys.  Testing an
    unhashable value for membership in a set raises [TypeError], as in Python. *)
From S2P Require Import Prelude Regex Sha256 Json PyText.

#[local] Open Scope Z_scope.

Definition dict : Type := list (string * json).

Definition CONTRACT_VERSION : string := "verification-contract/v1".
Definition SUPPORTED_TYPED_MODES : list string := ["project"; "bounty"].
Definition MODELESS_MODE : string := "modeless".
Definition SUPPORTED_MODES : list string := SUPPORTED_TYPED_MODES ++ [MODELESS_MODE].
Definition _PROJECT_SHAPED_MODES : list string := ["project"; MODELESS_MODE].
Definition REQUIRED_PHASE_IDS : list string := ["S0"; "S1"; "S2"; "S3"; "S4"; "S5"; "S6"; "S7"].
Definition LANE_TO_AUTHOR_FAMILY : list (string * string) :=
  [("claude", "claude"); ("gpt-codex", "openai"); ("codex", "openai"); ("gemini", "google"); ("grok", "xai")].
Definition FAMILIES : list string := LANE_TO_AUTHOR_FAMILY.*2.

Definition _TYPED_REVIEW_RESULT_TYPES : list string := ["review"; "verification"].
Definition _REVIEW_RECEIPT_STATES : list string := ["approved"; "complete"].
Definition _TYPED_REVIEW_FIELDS : list string :=
  ["review_subject_sha256"; "review_subject_author_family"; "review_family"; "review_state";
   "judged_state_mutation"].
Definition _VALID_GATES : list string :=
  ["destructive_action"; "external_delivery"; "human_approval"; "live_dispatch"; "network_access";
   "operator_approval"; "paid_tool"; "production_mutation"; "public_release"; "credential_change";
   "cleanup"; "delete"; "live_outreach"; "malware_detonation"; "offensive_execution"; "paid_media";
   "secrets_access"; "bounty_authorization"].
Definition _DERIVATION_RESERVED_FIELDS : list string :=
  ["author_family"; "verification_contract"; "verification_contract_sha256"].
Definition _PATHSPEC_PATTERN_CHARACTERS : string := "*?[]\".
Definition _MAX_AUTHORIZED_DELETE_PATHS : Z := 512.
Definition CAPABILITY_STATES : list string := ["live"; "lane-gated"; "degraded-blueprint"; "needs_tool"].

Definition fail {A} (msg : string) : res A := Err (Exn ContractError msg).

Definition canonical_json_bytes (value : json) : bytes := encode_utf8 (dumps false value).
Definition verification_contract_sha256 (contract : dict) : string :=
  sha256_hex (canonical_json_bytes (JObj contract)).

(** [value in {...}] for a set of strings. *)
Definition in_set (value : json) (s : list string) : res bool :=
  match value with
  | JStr t => Ok (bool_decide (t ∈ s))
  | JList _ | JObj _ => Err (Exn TypeError "unhashable type")
  | _ => Ok false
  end.

(** [d.get(k, d.get(k'))] *)
Definition get_alt (k k' : string) (d : dict) : json := default (dget k' d) (dict_get k d).

(** [d.get("result_type") or "normal"] *)
Definition result_type_of (admission : dict) : json :=
  let v := dget "result_type" admission in if truthy v then v else JStr "normal".

Definition author_family_for_lane (to_model : json) : res string :=
  match to_model with
  | JStr lane =>
      match dict_get lane LANE_TO_AUTHOR_FAMILY with
      | Some family => Ok family
      | None => fail "unsupported to_model lane"
      end
  | _ => fail "unsupported to_model lane"
  end.

Definition _nonempty_string (value : json) (name : string) : res string :=
  match value with
  | JStr s => raise_if (bool_decide (py_strip s = "")) ContractError (name +:+ " must be a nonempty string");; Ok s
  | _ => fail (name +:+ " must be a nonempty string")
  end.

Definition is_sha256_or_null (value : json) : bool :=
  match value with JNull => true | JStr s => fullmatch SHA256_RE s | _ => false end.

Definition capability_dict (cid card state : json) : dict :=
  [("id", cid); ("card_sha256", card); ("derived_state", state)].

Definition _capability_from_admission (admission : dict) : res dict :=
  match get_alt "capability" "capability_snapshot" admission with
  | JNull => Ok (capability_dict JNull JNull JNull)
  | JObj raw =>
      let capability_id := get_alt "id" "capability_id" raw in
      let card_sha256 := get_alt "card_sha256" "capability_card_sha256" raw in
      let derived_state := get_alt "derived_state" "capability_state" raw in
      match capability_id with
      | JNull => Ok tt
      | _ => _nonempty_string capability_id "capability.id";; Ok tt
      end;;
      raise_if (negb (is_sha256_or_null card_sha256)) ContractError
        "capability.card_sha256 must be lowercase 64-hex or null";;
      match derived_state with
      | JNull => Ok tt
      | _ => known ← in_set derived_state CAPABILITY_STATES;
             raise_if (negb known) ContractError "capability.derived_state is invalid"
      end;;
      Ok (capability_dict capability_id card_sha256 derived_state)
  | _ => fail "capability must be an object or null"
  end.

(** ** Enumerated deletion authority *)

Definition normalize_authorized_delete_path (value : json) : res string :=
  match value with
  | JStr value =>
      raise_if (bool_decide (value = "") || char_in "000"%char value) ContractError
        "authorized_delete_paths entry is empty or invalid";;
      raise_if (startswith value "/") ContractError "authorized_delete_paths entry must be repo-relative";;
      raise_if (startswith value ":" || str_existsb (λ c, char_in c _PATHSPEC_PATTERN_CHARACTERS) value)
        ContractError "authorized_delete_paths entry must be a literal path, not pathspec magic or a pattern";;
      raise_if (endswith value "/") ContractError
        "authorized_delete_paths entry must name a file, not a directory";;
      raise_if (existsb (λ segment, bool_decide (segment ∈ [""; "."; ".."])) (split_char "/"%char value))
        ContractError "authorized_delete_paths entry is not a canonical path";;
      Ok value
  | _ => fail "authorized_delete_paths entry is empty or invalid"
  end.

Definition _authorized_delete_paths (admission : dict) : res (list string) :=
  match dget "authorized_delete_paths" admission with
  | JNull => Ok []
  | JList raw =>
      raise_if (_MAX_AUTHORIZED_DELETE_PATHS <? Z.of_nat (length raw)) ContractError
        "authorized_delete_paths exceeds 512 entries";;
      normalized ← map_res normalize_authorized_delete_path raw;
      raise_if (negb (bool_decide (NoDup normalized))) ContractError
        "authorized_delete_paths contains duplicate entries";;
      Ok (sort_strings normalized)
  | _ => fail "authorized_delete_paths must be a list of file paths"
  end.

(** ** Gates *)

Definition _collect_gate_list (values : list json) (source : dict) (key label : string) : res (list json) :=
  match dget key source with
  | JNull => Ok values
  | JList raw => Ok (values ++ raw)
  | _ => fail (label +:+ " must be a list")
  end.

(** [for key in keys: _collect_gate_list(values, source, key, prefix + key)] *)
Fixpoint collect_gates (values : list json) (source : dict) (prefix : string) (keys : list string) : res (list json) :=
  match keys with
  | [] => Ok values
  | key :: keys =>
      values ← _collect_gate_list values source key (prefix +:+ key);
      collect_gates values source prefix keys
  end.

Definition gate_of (value : json) : res string :=
  match value with
  | JStr s => if bool_decide (s ∈ _VALID_GATES) then Ok s else fail "unknown verification gate"
  | _ => fail "unknown verification gate"
  end.

Definition _gate_values (admission : dict) : res (list string) :=
  values ← match get_alt "capability" "capability_snapshot" admission with
           | JObj capability => collect_gates [] capability "capability." ["expected_gates"; "operator_gates"; "gates"]
           | _ => Ok []
           end;
  values ← collect_gates values admission "" ["runtime_map_gates"; "runtime_gates"; "expected_gates"];
  gates ← map_res gate_of values;
  Ok (sort_strings (remove_dups gates)).

(** ** Review *)

Definition missing_fields (fields : list string) (d : dict) : list string :=
  List.filter (λ f, negb (dict_has f d)) fields.

Definition _typed_review_evidence (admission : dict) (result_type : json) : res (option dict) :=
  typed ← in_set result_type _TYPED_REVIEW_RESULT_TYPES;
  if negb (typed : bool) then
    raise_if (existsb (λ f, dict_has f admission) _TYPED_REVIEW_FIELDS) ContractError
      "typed review evidence requires result_type review or verification";;
    Ok None
  else
    raise_if (negb (bool_decide (missing_fields _TYPED_REVIEW_FIELDS admission = []))) ContractError
      "typed review evidence is missing field";;
    let subject_sha256 := dget "review_subject_sha256" admission in
    raise_if (negb match subject_sha256 with JStr s => fullmatch SHA256_RE s | _ => false end) ContractError
      "review_subject_sha256 must be lowercase 64-hex";;
    let subject_author_family := dget "review_subject_author_family" admission in
    known ← in_set subject_author_family FAMILIES;
    raise_if (negb known) ContractError "review_subject_author_family is invalid";;
    let review_family := dget "review_family" admission in
    known ← in_set review_family FAMILIES;
    raise_if (negb known) ContractError "review_family is invalid";;
    let review_state := dget "review_state" admission in
    known ← in_set review_state _REVIEW_RECEIPT_STATES;
    raise_if (negb known) ContractError "review_state must be approved or complete";;
    let judged_state_mutation := dget "judged_state_mutation" admission in
    raise_if (negb match judged_state_mutation with JBool _ => true | _ => false end) ContractError
      "judged_state_mutation must be a boolean";;
    Ok (Some [("review_subject_sha256", subject_sha256);
              ("review_subject_author_family", subject_author_family);
              ("review_family", review_family); ("review_state", review_state);
              ("judged_state_mutation", judged_state_mutation)]).

Definition is_false (v : json) : bool := match v with JBool false => true | _ => false end.

Definition _is_terminal_review_act (admission : dict) : res bool :=
  author_family ← author_family_for_lane (dget "to_model" admission);
  evidence ← _typed_review_evidence admission (result_type_of admission);
  Ok match evidence with
     | None => false
     | Some evidence =>
         py_eq (dget "review_family" evidence) (JStr author_family) &&
         negb (py_eq (dget "review_subject_author_family" evidence) (JStr author_family)) &&
         is_false (dget "judged_state_mutation" evidence)
     end.

Definition _review_required (admission : dict) : res bool :=
  typed ← in_set (result_type_of admission) _TYPED_REVIEW_RESULT_TYPES;
  if (typed : bool) then (terminal ← _is_terminal_review_act admission; Ok (negb terminal))
  else match dict_get "review_required" admission with
       | None => Ok true
       | Some (JBool raw) => Ok raw
       | Some _ => fail "review_required must be a boolean"
       end.

Definition LEGACY_PLAN_REVIEW_POLICY : dict :=
  [("required", JBool true); ("anti_affinity", JStr "author_family"); ("subject", JStr "plan_sha256")].

Definition _plan_review_policy (admission : dict) (result_type : json) (legacy : option bool) : res dict :=
  legacy ← match legacy with
           | Some legacy => Ok legacy
           | None =>
               if dict_has "review_required" admission then Ok false
               else (typed ← in_set result_type _TYPED_REVIEW_RESULT_TYPES; Ok (negb typed))
           end;
  Ok (if (legacy : bool) then LEGACY_PLAN_REVIEW_POLICY else [("required", JBool false)]).

(** ** Derivation *)

Definition jstrs (l : list string) : json := JList (map JStr l).

Definition BOUNTY_POLICY : json := JObj
  [("scope_gate_required", JBool true); ("exact_target_allowlist_required", JBool true);
   ("no_self_inflicted_required", JBool true); ("submission_attempted_allowed", JBool false);
   ("normal_finding_requirements", jstrs ["cvss_v4"; "cross_family_reproduction"; "negative_control"]);
   ("dry_run_requirements", jstrs ["empty_findings"; "kill_or_negative_evidence"; "no_submit_evidence"; "primitive_ledger"])].

Definition _apply_authorized_delete_paths (contract : dict) (paths : list string) : dict :=
  match paths with
  | [] => contract
  | _ => dict_set "authorized_delete_paths" (jstrs paths) contract
  end.

(** The dictionary literal at the end of the derivation. *)
Definition contract_body (task_id run_id mode result_type author_family : string) (capability : dict)
    (verification_kinds : list string) (memory_policy plan_review_policy : dict) (review_required : bool)
    (gates : list string) (bounty_policy : json) : dict :=
  [("contract_version", JStr CONTRACT_VERSION); ("task_id", JStr task_id); ("run_id", JStr run_id);
   ("mode", JStr mode); ("result_type", JStr result_type); ("dispatch_kind", JStr "single");
   ("author_family", JStr author_family); ("capability", JObj capability);
   ("required_phase_ids", jstrs REQUIRED_PHASE_IDS);
   ("required_verification_kinds", jstrs verification_kinds);
   ("memory_policy", JObj memory_policy); ("plan_review_policy", JObj plan_review_policy);
   ("deliverable_review_policy", JObj
      [("required", JBool review_required); ("anti_affinity", JStr "author_family");
       ("subject", JStr "artifact_bundle_sha256")]);
   ("artifact_policy", JObj
      [("hashes_required", JBool true); ("bundle_hash_algorithm", JStr "canonical-artifact-list-sha256/v1")]);
   ("action_log_policy", JObj [("required", JBool true)]);
   ("iteration_policy", JObj
      [("routes", jstrs ["S2"; "S3"]); ("invalidates_on", jstrs ["plan_sha256"; "artifact_bundle_sha256"])]);
   ("expected_gates", jstrs gates);
   ("external_delivery_policy", JObj [("allowed", JBool false)]);
   ("bounty_policy", bounty_policy)].

(** [result_type not in {...}]: the accepted value is one of the strings. *)
Definition checked_result_type (result_type : json) (allowed : list string) (msg : string) : res string :=
  known ← in_set result_type allowed;
  match result_type with
  | JStr s => if (known : bool) then Ok s else fail msg
  | _ => fail msg
  end.

Definition derive_verification_contract_unchecked (admission : dict) (legacy : option bool) : res dict :=
  mode ← match dget "mode" admission with
         | JStr mode => if bool_decide (mode ∈ SUPPORTED_MODES) then Ok mode else fail "unsupported mode"
         | _ => fail "unsupported mode"
         end;
  task_id ← _nonempty_string (dget "task_id" admission) "task_id";
  run_id ← _nonempty_string (dget "run_id" admission) "run_id";
  let project_shaped := bool_decide (mode ∈ _PROJECT_SHAPED_MODES) in
  result_type ←
    (if project_shaped then
       checked_result_type (result_type_of admission) ("normal" :: _TYPED_REVIEW_RESULT_TYPES)
         ((if bool_decide (mode = "project") then "Project" else mode) +:+
          " result_type must be normal, review, or verification")
     else
       checked_result_type (result_type_of admission) ("normal" :: "dry_run" :: _TYPED_REVIEW_RESULT_TYPES)
         "Bounty result_type must be normal, dry_run, review, or verification");
  let dispatch_kind := default (JStr "single") (dict_get "dispatch_kind" admission) in
  raise_if (negb (py_eq dispatch_kind (JStr "single"))) ContractError "dispatch_kind must be single";;
  author_family ← author_family_for_lane (dget "to_model" admission);
  review_evidence ← _typed_review_evidence admission (JStr result_type);
  capability ← _capability_from_admission admission;
  raise_if (bool_decide (mode = MODELESS_MODE) && negb match dget "id" capability with JNull => true | _ => false end)
    ContractError "modeless dispatch cannot carry a capability card";;
  gates ← _gate_values admission;
  review_required ← _review_required admission;
  plan_review_policy ← _plan_review_policy admission (JStr result_type) legacy;
  let verification_kinds :=
    if project_shaped then ["project_tests"; "recipient_contract"]
    else if bool_decide (result_type = "dry_run") then ["scope_gate"; "no_self_inflicted"; "negative_control"]
    else ["scope_gate"; "no_self_inflicted"; "poc_reproduction"] in
  let recall := if project_shaped then "required" else "optional" in
  let contract := contract_body task_id run_id mode result_type author_family capability verification_kinds
    [("recall", JStr recall); ("record", JStr "required")] plan_review_policy review_required gates
    (if project_shaped then JNull else BOUNTY_POLICY) in
  let contract := match review_evidence with Some evidence => dict_update contract evidence | None => contract end in
  paths ← _authorized_delete_paths admission;
  Ok (_apply_authorized_delete_paths contract paths).

(** ** Validation *)

Definition BASE_KEYS : list string :=
  ["contract_version"; "task_id"; "run_id"; "mode"; "result_type"; "dispatch_kind"; "author_family";
   "capability"; "required_phase_ids"; "required_verification_kinds"; "memory_policy"; "plan_review_policy";
   "expected_gates"; "external_delivery_policy"].
Definition POLICY_KEYS : list string :=
  ["deliverable_review_policy"; "artifact_policy"; "action_log_policy"; "iteration_policy"; "bounty_policy"].

Definition same_set (l m : list string) : bool :=
  forallb (λ x, bool_decide (x ∈ m)) l && forallb (λ x, bool_decide (x ∈ l)) m.

Definition required_keys (contract : dict) (typed : bool) : list string :=
  BASE_KEYS ++ (if typed then _TYPED_REVIEW_FIELDS else []) ++ POLICY_KEYS ++
  (if dict_has "authorized_delete_paths" contract then ["authorized_delete_paths"] else []).

(** [next(lane for lane, family in LANE_TO_AUTHOR_FAMILY.items() if family == author_family)] *)
Definition first_lane (author_family : string) : option string :=
  fst <$> List.find (λ lf, bool_decide (lf.2 = author_family)) LANE_TO_AUTHOR_FAMILY.

(** The admission the validator rebuilds from the contract. *)
Definition rebuilt_admission (contract : dict) (lane : string) (typed : bool) (expected : option bool) : dict :=
  let admission :=
    [("task_id", dget "task_id" contract); ("run_id", dget "run_id" contract); ("mode", dget "mode" contract);
     ("result_type", dget "result_type" contract); ("dispatch_kind", dget "dispatch_kind" contract);
     ("to_model", JStr lane); ("capability", dget "capability" contract);
     ("expected_gates", dget "expected_gates" contract);
     ("authorized_delete_paths", dget "authorized_delete_paths" contract)] in
  let admission :=
    if typed then dict_update admission (map (λ f, (f, dget f contract)) _TYPED_REVIEW_FIELDS) else admission in
  match expected with
  | Some required => dict_set "review_required" (JBool required) admission
  | None =>
      match dget "deliverable_review_policy" contract with
      | JObj policy =>
          match dict_get "required" policy with
          | Some required => dict_set "review_required" required admission
          | None => admission
          end
      | _ => admission
      end
  end.

Definition validate_verification_contract (contract : json) (expected : option bool) : res dict :=
  match contract with
  | JObj contract =>
      typed ← in_set (dget "result_type" contract) _TYPED_REVIEW_RESULT_TYPES;
      raise_if (negb (same_set contract.*1 (required_keys contract typed))) ContractError "contract keys mismatch";;
      raise_if (negb (py_eq (dget "contract_version" contract) (JStr CONTRACT_VERSION))) ContractError
        "contract_version is not verification-contract/v1";;
      known ← in_set (dget "author_family" contract) FAMILIES;
      raise_if (negb known) ContractError "author_family is invalid";;
      lane ← match dget "author_family" contract with
             | JStr family => match first_lane family with Some lane => Ok lane | None => fail "author_family is invalid" end
             | _ => fail "author_family is invalid"
             end;
      let legacy := negb typed && py_eq (dget "plan_review_policy" contract) (JObj LEGACY_PLAN_REVIEW_POLICY) in
      expected ← derive_verification_contract_unchecked (rebuilt_admission contract lane typed expected) (Some legacy);
      raise_if (negb (py_eq (JObj contract) (JObj expected))) ContractError
        "contract does not match the fixed v1 policy";;
      Ok contract
  | _ => fail "verification contract must be an object"
  end.

Definition derive_verification_contract (admission : json) : res dict :=
  match admission with
  | JObj admission =>
      raise_if (existsb (λ f, dict_has f admission) _DERIVATION_RESERVED_FIELDS) ContractError
        "admission contains dispatcher-owned field";;
      contract ← derive_verification_contract_unchecked admission None;
      review_required ← _review_required admission;
      validate_verification_contract (JObj contract) (Some review_required)
  | _ => fail "admission must be an object"
  end.
