(* ===== verification/ContractProps.v ===== *)
(** * Verification contracts: what derivation and validation guarantee

    [derive_unchecked_Ok] splits a derivation into its parts; the derived parts
    are canonical, so the admission the validator rebuilds derives to the same
    contract again.  Validation is compared with the policy through
    [py_eq_obj_get]. *)
From S2P Require Import Prelude Regex Sha256 Json Posix PyText JsonProps Contract.

#[local] Open Scope Z_scope.

(** ** Equality of JSON values *)

Lemma py_eq_strs l v : py_eq v (jstrs l) = true → v = jstrs l.
Proof.
  destruct v as [| | | |m|]; try done. unfold jstrs. revert l. induction m as [|x m IH]; intros [|s l]; try done.
  cbn [map]. change (py_eq x (JStr s) && py_eq (JList m) (JList (map JStr l)) = true → JList (x :: m) = JList (JStr s :: map JStr l)).
  intros [->%py_eq_str H]%andb_true_iff. by injection (IH l H) as ->.
Qed.

(** ** The tests of a derivation *)

Lemma in_set_true v s : in_set v s = Ok true ↔ ∃ t, v = JStr t ∧ t ∈ s.
Proof.
  destruct v; cbn; try (split; [done|by intros (? & [=] & ?)]). split.
  - intros [= H]. bool_inv. eauto.
  - intros (t & [= ->] & ?). by rewrite bool_decide_eq_true_2.
Qed.

Lemma in_set_str t s : in_set (JStr t) s = Ok (bool_decide (t ∈ s)).
Proof. done. Qed.

Lemma nonempty_string_Ok v name s :
  _nonempty_string v name = Ok s ↔ v = JStr s ∧ py_strip s ≠ "".
Proof.
  destruct v; cbn; try (split; [done|by intros [[=] _]]). rewrite bind_Ok. split.
  - intros (u & H%raise_if_Ok & [= ->]). by bool_inv.
  - intros [[= ->] H]. exists tt. rewrite raise_if_Ok. split; [|done]. by apply bool_decide_eq_false.
Qed.

Lemma checked_result_type_Ok v allowed msg s :
  checked_result_type v allowed msg = Ok s ↔ v = JStr s ∧ s ∈ allowed.
Proof.
  unfold checked_result_type. rewrite bind_Ok. split.
  - intros (known & Hk & H). destruct v; try done. destruct known; [|done]. injection H as ->.
    by apply in_set_true in Hk as (t & [= ->] & ?).
  - intros [-> H]. exists true. split; [|done]. apply in_set_true. eauto.
Qed.

Lemma author_family_in v f : author_family_for_lane v = Ok f → f ∈ FAMILIES.
Proof.
  destruct v as [| | |lane| |]; try done. cbn [author_family_for_lane].
  destruct (dict_get lane LANE_TO_AUTHOR_FAMILY) as [g|] eqn:E; [|done]. intros [= <-].
  cbn in E. unfold FAMILIES. repeat (case_decide; [injection E as <-; by_decide|]). done.
Qed.

Lemma first_lane_family f :
  f ∈ FAMILIES → ∃ lane, first_lane f = Some lane ∧ author_family_for_lane (JStr lane) = Ok f.
Proof.
  unfold FAMILIES, LANE_TO_AUTHOR_FAMILY. cbn [fmap list_fmap fst snd].
  intros H. repeat (apply elem_of_cons in H as [->|H]; [eexists; split; vm_compute; reflexivity|]).
  by apply elem_of_nil in H.
Qed.

Definition evidence_dict (sha subject reviewer state : string) (mutation : bool) : dict :=
  [("review_subject_sha256", JStr sha); ("review_subject_author_family", JStr subject);
   ("review_family", JStr reviewer); ("review_state", JStr state); ("judged_state_mutation", JBool mutation)].

Section EvidenceFields.
Context (sha subject reviewer state : string) (mutation : bool).
Lemma ev_sha : dget "review_subject_sha256" (evidence_dict sha subject reviewer state mutation) = JStr sha.
Proof. done. Qed.
Lemma ev_subject : dget "review_subject_author_family" (evidence_dict sha subject reviewer state mutation) = JStr subject.
Proof. done. Qed.
Lemma ev_reviewer : dget "review_family" (evidence_dict sha subject reviewer state mutation) = JStr reviewer.
Proof. done. Qed.
Lemma ev_state : dget "review_state" (evidence_dict sha subject reviewer state mutation) = JStr state.
Proof. done. Qed.
Lemma ev_mutation : dget "judged_state_mutation" (evidence_dict sha subject reviewer state mutation) = JBool mutation.
Proof. done. Qed.
End EvidenceFields.

Definition evidence_ok (sha subject reviewer state : string) : Prop :=
  fullmatch SHA256_RE sha = true ∧ subject ∈ FAMILIES ∧ reviewer ∈ FAMILIES ∧ state ∈ _REVIEW_RECEIPT_STATES.

(** The admission carries exactly this evidence. *)
Definition carries (adm e : dict) : Prop :=
  ∀ f, f ∈ _TYPED_REVIEW_FIELDS → dict_get f adm = dict_get f e.

Lemma dict_get_dget k d v : dget k d = v → v ≠ JNull → dict_get k d = Some v.
Proof. unfold dget. destruct (dict_get k d); cbn; congruence. Qed.

Lemma missing_fields_nil fields d : missing_fields fields d = [] ↔ Forall (λ f, dict_has f d = true) fields.
Proof.
  unfold missing_fields. induction fields as [|f fields IH]; cbn; [split; [constructor|done]|].
  rewrite Forall_cons, <- IH. destruct (dict_has f d); cbn; naive_solver.
Qed.

Lemma review_evidence_Ok adm rt ev :
  _typed_review_evidence adm (JStr rt) = Ok ev ↔
  (rt ∉ _TYPED_REVIEW_RESULT_TYPES ∧ ev = None ∧ carries adm []) ∨
  (rt ∈ _TYPED_REVIEW_RESULT_TYPES ∧ ∃ sha subject reviewer state mutation,
     ev = Some (evidence_dict sha subject reviewer state mutation) ∧ evidence_ok sha subject reviewer state ∧
     carries adm (evidence_dict sha subject reviewer state mutation)).
Proof.
  unfold _typed_review_evidence. rewrite in_set_str, bind_ret.
  destruct (decide (rt ∈ _TYPED_REVIEW_RESULT_TYPES)) as [Ht|Ht].
  - rewrite bool_decide_eq_true_2 by done. cbn [negb]. split.
    + intros H. right. split; [done|]. apply bind_Ok in H as (? & Hm%raise_if_Ok & H).
      apply bind_Ok in H as (? & Hsha%raise_if_Ok & H).
      apply bind_Ok in H as (? & Hs1 & H). apply bind_Ok in H as (? & ->%raise_if_Ok%negb_false_iff & H).
      apply bind_Ok in H as (? & Hs2 & H). apply bind_Ok in H as (? & ->%raise_if_Ok%negb_false_iff & H).
      apply bind_Ok in H as (? & Hs3 & H). apply bind_Ok in H as (? & ->%raise_if_Ok%negb_false_iff & H).
      apply bind_Ok in H as (? & Hj%raise_if_Ok & [= <-]).
      apply in_set_true in Hs1 as (subject & E1 & ?). apply in_set_true in Hs2 as (reviewer & E2 & ?).
      apply in_set_true in Hs3 as (state & E3 & ?).
      destruct (dget "review_subject_sha256" adm) as [| | |sha| |] eqn:E0; try done.
      destruct (dget "judged_state_mutation" adm) as [|mutation| | | |] eqn:E4; try done.
      exists sha, subject, reviewer, state, mutation. rewrite E1, E2, E3. split; [done|].
      split; [by apply negb_false_iff in Hsha|]. intros f Hf. unfold _TYPED_REVIEW_FIELDS in Hf.
      repeat (apply elem_of_cons in Hf as [->|Hf]; [by apply dict_get_dget|]). by apply elem_of_nil in Hf.
    + intros [[? _]|(_ & sha & subject & reviewer & state & mutation & -> & (H1 & H2 & H3 & H4) & Hc)]; [done|].
      assert (Hg : ∀ f, f ∈ _TYPED_REVIEW_FIELDS → dget f adm = dget f (evidence_dict sha subject reviewer state mutation)).
      { intros f Hf. unfold dget. by rewrite Hc. }
      rewrite (proj2 (bool_decide_eq_true _)); cycle 1.
      { apply missing_fields_nil, Forall_forall. intros f Hf. unfold dict_has. rewrite Hc by done.
        unfold _TYPED_REVIEW_FIELDS in Hf.
        repeat (apply elem_of_cons in Hf as [->|Hf]; [done|]). by apply elem_of_nil in Hf. }
      rewrite !Hg by by_decide. rewrite ev_sha, ev_subject, ev_reviewer, ev_state, ev_mutation, H1.
      rewrite !in_set_str, !bool_decide_eq_true_2 by done. done.
  - rewrite bool_decide_eq_false_2 by done. cbn [negb]. rewrite bind_Ok. split.
    + intros (? & H%raise_if_Ok & [= <-]). left. split; [done|]. split; [done|]. intros f Hf. cbn.
      destruct (dict_get f adm) eqn:E; [|done]. exfalso. assert (existsb (λ f, dict_has f adm) _TYPED_REVIEW_FIELDS = true); [|congruence].
      apply existsb_exists. exists f. split; [by apply list_elem_of_In|]. unfold dict_has. by rewrite E.
    + intros [(_ & -> & Hc)|[? _]]; [|done]. exists tt. split; [|done]. apply raise_if_Ok.
      destruct (existsb _ _) eqn:E; [|done]. apply existsb_exists in E as (f & Hf%list_elem_of_In & Hh).
      unfold dict_has in Hh. by rewrite Hc in Hh.
Qed.

Definition cap_ok (cid card state : json) : Prop :=
  (cid = JNull ∨ ∃ s, cid = JStr s ∧ py_strip s ≠ "") ∧ is_sha256_or_null card = true ∧
  (state = JNull ∨ ∃ s, state = JStr s ∧ s ∈ CAPABILITY_STATES).

Lemma capability_Ok adm cap :
  _capability_from_admission adm = Ok cap →
  ∃ cid card state, cap = capability_dict cid card state ∧ cap_ok cid card state.
Proof.
  unfold _capability_from_admission. destruct (get_alt _ _ adm) as [| | | | |raw]; try done.
  - intros [= <-]. exists JNull, JNull, JNull. split; [done|]. split; [by left|]. split; [done|by left].
  - intros H. apply bind_Ok in H as (? & H1 & H). apply bind_Ok in H as (? & H2%raise_if_Ok%negb_false_iff & H).
    apply bind_Ok in H as (? & H3 & [= <-]). eexists _, _, _. split; [done|]. split; [|split; [done|]].
    + destruct (get_alt "id" _ raw) as [| | |s| |]; [by left|..]; apply bind_Ok in H1 as (? & [[=->] ?]%nonempty_string_Ok & _); eauto.
    + destruct (get_alt "derived_state" _ raw) as [| | |s| |]; [by left|..];
        apply bind_Ok in H3 as (? & Hk & ->%raise_if_Ok%negb_false_iff); apply in_set_true in Hk as (? & [=->] & ?); eauto.
Qed.

Lemma get_alt_Some k k' d v : dict_get k d = Some v → get_alt k k' d = v.
Proof. unfold get_alt. by intros ->. Qed.

Lemma capability_again adm cid card state :
  dict_get "capability" adm = Some (JObj (capability_dict cid card state)) → cap_ok cid card state →
  _capability_from_admission adm = Ok (capability_dict cid card state).
Proof.
  intros E (Hc & Hs & Ht). unfold _capability_from_admission. rewrite (get_alt_Some _ _ _ _ E).
  change (get_alt "id" "capability_id" (capability_dict cid card state)) with cid.
  change (get_alt "card_sha256" "capability_card_sha256" (capability_dict cid card state)) with card.
  change (get_alt "derived_state" "capability_state" (capability_dict cid card state)) with state.
  rewrite Hs. cbn [negb]. res_simpl.
  assert (E2 : match state with JNull => Ok tt
          | _ => known ← in_set state CAPABILITY_STATES;
                 raise_if (negb known) ContractError "capability.derived_state is invalid" end = Ok tt).
  { destruct Ht as [->|(s & -> & Hin)]; [done|]. rewrite in_set_str, bool_decide_eq_true_2 by done. done. }
  rewrite E2. destruct Hc as [->|(s & -> & Hne)]; [done|].
  by rewrite (proj2 (nonempty_string_Ok (JStr s) _ s) (conj eq_refl Hne)).
Qed.

Lemma remove_dups_nodup (l : list string) : NoDup l → remove_dups l = l.
Proof.
  induction 1 as [|x l Hx _ IH]; [done|]. cbn. case_decide; [done|]. by rewrite IH.
Qed.

Definition canonical_list (l : list string) : Prop := NoDup l ∧ sort_strings l = l.

Lemma sort_canonical l : NoDup l → canonical_list (sort_strings l).
Proof. intros H. split; [by rewrite sort_strings_perm|apply sort_strings_idemp]. Qed.

Definition gates_ok (gs : list string) : Prop := canonical_list gs ∧ Forall (λ g, g ∈ _VALID_GATES) gs.

Lemma gate_of_Ok v g : gate_of v = Ok g ↔ v = JStr g ∧ g ∈ _VALID_GATES.
Proof.
  destruct v; cbn; try (split; [done|by intros [[=] _]]). case_bool_decide; split.
  - by intros [= ->].
  - by intros [[= ->] _].
  - done.
  - by intros [[= ->] ?].
Qed.

Lemma gate_values_Ok adm gs : _gate_values adm = Ok gs → gates_ok gs.
Proof.
  unfold _gate_values. intros H. apply bind_Ok in H as (v1 & _ & H). apply bind_Ok in H as (v2 & _ & H).
  apply bind_Ok in H as (g & Hg%map_res_Ok & [= <-]). split.
  - apply sort_canonical, NoDup_remove_dups.
  - apply Forall_forall. intros x Hx. rewrite sort_strings_perm, elem_of_remove_dups in Hx.
    apply list_elem_of_lookup in Hx as (i & Hi). destruct (Forall2_lookup_r _ _ _ _ _ Hg Hi) as (v & _ & Hv).
    by apply gate_of_Ok in Hv as [_ ?].
Qed.

Lemma map_res_strs (f : json → res string) l : Forall (λ s, f (JStr s) = Ok s) l → map_res f (map JStr l) = Ok l.
Proof. intros H. apply map_res_Ok. induction H; constructor; done. Qed.

Lemma collect_absent values source prefix key keys :
  dict_get key source = None → collect_gates values source prefix (key :: keys) = collect_gates values source prefix keys.
Proof. intros E. cbn [collect_gates]. unfold _collect_gate_list, dget. by rewrite E. Qed.

Lemma collect_done values source prefix : collect_gates values source prefix [] = Ok values.
Proof. done. Qed.

Lemma collect_list values source prefix key keys raw :
  dict_get key source = Some (JList raw) →
  collect_gates values source prefix (key :: keys) = collect_gates (values ++ raw) source prefix keys.
Proof. intros E. cbn [collect_gates]. unfold _collect_gate_list, dget. by rewrite E. Qed.

Lemma gate_values_again adm cid card state gs :
  dict_get "capability" adm = Some (JObj (capability_dict cid card state)) →
  dict_get "runtime_map_gates" adm = None → dict_get "runtime_gates" adm = None →
  dict_get "expected_gates" adm = Some (jstrs gs) → gates_ok gs → _gate_values adm = Ok gs.
Proof.
  intros Ec E1 E2 E3 ([Hnd Hs] & Hv). unfold _gate_values. rewrite (get_alt_Some _ _ _ _ Ec).
  rewrite !(collect_absent _ (capability_dict cid card state)) by done. rewrite collect_done, bind_ret.
  rewrite !(collect_absent _ adm) by done.
  rewrite (collect_list _ _ _ _ _ (map JStr gs)) by done. rewrite collect_done, bind_ret, app_nil_l.
  rewrite map_res_strs; [|eapply Forall_impl; [exact Hv|]; intros g Hg; by apply gate_of_Ok].
  by rewrite bind_ret, remove_dups_nodup, Hs.
Qed.

Definition dels_ok (ds : list string) : Prop :=
  canonical_list ds ∧ Forall (λ d, normalize_authorized_delete_path (JStr d) = Ok d) ds ∧
  Z.of_nat (length ds) ≤ _MAX_AUTHORIZED_DELETE_PATHS.

Lemma normalize_delete_same v d :
  normalize_authorized_delete_path v = Ok d → v = JStr d.
Proof.
  destruct v; try done. cbn [normalize_authorized_delete_path]. intros H.
  do 5 (apply bind_Ok in H as (? & _ & H)). by injection H as ->.
Qed.

Lemma delete_paths_Ok adm ds : _authorized_delete_paths adm = Ok ds → dels_ok ds.
Proof.
  unfold _authorized_delete_paths. destruct (dget _ adm) as [| | | |raw|]; try done.
  - intros [= <-]. split; [split; [constructor|done]|]. split; [constructor|done].
  - intros H. apply bind_Ok in H as (? & Hl%raise_if_Ok & H). apply bind_Ok in H as (l & Hm%map_res_Ok & H).
    apply bind_Ok in H as (? & Hd%raise_if_Ok%negb_false_iff & [= <-]). bool_inv. split; [by apply sort_canonical|].
    rewrite sort_strings_perm. split.
    + apply Forall_forall. intros d Hin. apply list_elem_of_lookup in Hin as (i & Hi).
      destruct (Forall2_lookup_r _ _ _ _ _ Hm Hi) as (v & _ & Hv). by rewrite <- (normalize_delete_same _ _ Hv).
    + apply Forall2_length in Hm. rewrite <- Hm. lia.
Qed.

Lemma delete_paths_again adm ds :
  dget "authorized_delete_paths" adm = (match ds with [] => JNull | _ => jstrs ds end) → dels_ok ds →
  _authorized_delete_paths adm = Ok ds.
Proof.
  intros E ([Hnd Hs] & Hn & Hl). unfold _authorized_delete_paths. rewrite E. destruct ds as [|d ds]; [done|].
  unfold jstrs. rewrite length_map. rewrite (proj2 (Z.ltb_ge _ _)) by done. rewrite raise_if_false, bind_ret.
  rewrite map_res_strs by done. rewrite bind_ret, bool_decide_eq_true_2 by done. cbn [negb].
  by rewrite raise_if_false, bind_ret, Hs.
Qed.

(** ** A derivation in parts *)

Record Parts := {
  p_task : string; p_run : string; p_mode : string; p_type : string; p_family : string;
  p_evidence : option dict; p_cap : dict; p_gates : list string; p_required : bool;
  p_plan : dict; p_dels : list string
}.

Definition shaped (p : Parts) : bool := bool_decide (p_mode p ∈ _PROJECT_SHAPED_MODES).

Definition allowed_types (mode : string) : list string :=
  if bool_decide (mode ∈ _PROJECT_SHAPED_MODES) then "normal" :: _TYPED_REVIEW_RESULT_TYPES
  else "normal" :: "dry_run" :: _TYPED_REVIEW_RESULT_TYPES.

Definition kinds (mode rt : string) : list string :=
  if bool_decide (mode ∈ _PROJECT_SHAPED_MODES) then ["project_tests"; "recipient_contract"]
  else if bool_decide (rt = "dry_run") then ["scope_gate"; "no_self_inflicted"; "negative_control"]
  else ["scope_gate"; "no_self_inflicted"; "poc_reproduction"].

Definition base_of (p : Parts) : dict :=
  contract_body (p_task p) (p_run p) (p_mode p) (p_type p) (p_family p) (p_cap p) (kinds (p_mode p) (p_type p))
    [("recall", JStr (if shaped p then "required" else "optional")); ("record", JStr "required")]
    (p_plan p) (p_required p) (p_gates p) (if shaped p then JNull else BOUNTY_POLICY).

Definition build (p : Parts) : dict :=
  _apply_authorized_delete_paths
    (match p_evidence p with Some e => dict_update (base_of p) e | None => base_of p end) (p_dels p).

Record parts_of (adm : dict) (legacy : option bool) (p : Parts) : Prop := {
  po_mode : dget "mode" adm = JStr (p_mode p) ∧ p_mode p ∈ SUPPORTED_MODES;
  po_task : dget "task_id" adm = JStr (p_task p) ∧ py_strip (p_task p) ≠ "";
  po_run : dget "run_id" adm = JStr (p_run p) ∧ py_strip (p_run p) ≠ "";
  po_type : result_type_of adm = JStr (p_type p) ∧ p_type p ∈ allowed_types (p_mode p);
  po_kind : default (JStr "single") (dict_get "dispatch_kind" adm) = JStr "single";
  po_family : author_family_for_lane (dget "to_model" adm) = Ok (p_family p);
  po_evidence : _typed_review_evidence adm (JStr (p_type p)) = Ok (p_evidence p);
  po_cap : _capability_from_admission adm = Ok (p_cap p);
  po_modeless : p_mode p = MODELESS_MODE → dget "id" (p_cap p) = JNull;
  po_gates : _gate_values adm = Ok (p_gates p);
  po_required : _review_required adm = Ok (p_required p);
  po_plan : _plan_review_policy adm (JStr (p_type p)) legacy = Ok (p_plan p);
  po_dels : _authorized_delete_paths adm = Ok (p_dels p)
}.

Lemma derive_unchecked_Ok adm legacy c :
  derive_verification_contract_unchecked adm legacy = Ok c ↔ ∃ p, c = build p ∧ parts_of adm legacy p.
Proof.
  unfold derive_verification_contract_unchecked. split.
  - intros H. apply bind_Ok in H as (mode & Hm & H). apply bind_Ok in H as (task & Ht%nonempty_string_Ok & H).
    apply bind_Ok in H as (run & Hr%nonempty_string_Ok & H). apply bind_Ok in H as (rt & Hrt & H).
    apply bind_Ok in H as (? & Hk%raise_if_Ok%negb_false_iff%py_eq_str & H).
    apply bind_Ok in H as (family & Hf & H). apply bind_Ok in H as (ev & He & H).
    apply bind_Ok in H as (cap & Hc & H). apply bind_Ok in H as (? & Hml%raise_if_Ok & H).
    apply bind_Ok in H as (gates & Hg & H). apply bind_Ok in H as (req & Hq & H).
    apply bind_Ok in H as (plan & Hp & H). apply bind_Ok in H as (dels & Hd & [= <-]).
    destruct (dget "mode" adm) as [| | |m| |] eqn:Em; try done.
    destruct (bool_decide (m ∈ SUPPORTED_MODES)) eqn:Hin; [|done]. bool_inv. injection Hm as ->.
    exists (Build_Parts task run mode rt family ev cap gates req plan dels). split.
    { unfold build, base_of, kinds, shaped. cbn [p_evidence p_dels p_task p_run p_mode p_type p_family p_cap p_gates p_required p_plan]. done. }
    split; cbn [p_evidence p_dels p_task p_run p_mode p_type p_family p_cap p_gates p_required p_plan]; try done.
    + unfold allowed_types. revert Hrt. by destruct (bool_decide (mode ∈ _PROJECT_SHAPED_MODES)); intros [? ?]%checked_result_type_Ok.
    + intros ->. rewrite bool_decide_eq_true_2 in Hml by done. cbn [andb] in Hml. apply negb_false_iff in Hml.
      by destruct (dget "id" cap).
  - intros (p & -> & [[Em Hm] Ht Hr [Et Hrt] Hk Hf He Hc Hml Hg Hq Hp Hd]). rewrite Em. cbv iota.
    rewrite (bool_decide_eq_true_2 _ Hm), bind_ret, (proj2 (nonempty_string_Ok _ _ _) Ht), bind_ret, (proj2 (nonempty_string_Ok _ _ _) Hr), bind_ret.
    unfold allowed_types in Hrt.
    eapply bind_intro.
    { revert Hrt. by destruct (bool_decide (p_mode p ∈ _PROJECT_SHAPED_MODES)); intros Hrt; apply checked_result_type_Ok. }
    rewrite Hk, (proj2 (py_eq_str _ "single")) by done. cbn [negb]. rewrite raise_if_false, bind_ret.
    rewrite Hf, bind_ret, He, bind_ret, Hc, bind_ret.
    assert (E : bool_decide (p_mode p = MODELESS_MODE) && negb match dget "id" (p_cap p) with JNull => true | _ => false end = false).
    { destruct (bool_decide (p_mode p = MODELESS_MODE)) eqn:Hb; [|done]. bool_inv. by rewrite (Hml Hb). }
    rewrite E, raise_if_false, bind_ret, Hg, bind_ret, Hq, bind_ret, Hp, bind_ret, Hd. done.
Qed.

(** ** Deriving again from the contract *)

Lemma plan_Ok adm rt legacy plan :
  _plan_review_policy adm (JStr rt) legacy = Ok plan →
  plan = LEGACY_PLAN_REVIEW_POLICY ∧ (legacy = None → rt ∉ _TYPED_REVIEW_RESULT_TYPES) ∨ plan = [("required", JBool false)].
Proof.
  unfold _plan_review_policy. intros H. apply bind_Ok in H as (lg & Hl & [= <-]). destruct lg; [left|by right].
  split; [done|]. intros ->. destruct (dict_has "review_required" adm); [done|]. rewrite in_set_str, bind_ret in Hl.
  injection Hl as Hl%negb_true_iff. by bool_inv.
Qed.

Lemma plan_again adm adm' rt plan :
  _plan_review_policy adm (JStr rt) None = Ok plan →
  _plan_review_policy adm' (JStr rt)
    (Some (negb (bool_decide (rt ∈ _TYPED_REVIEW_RESULT_TYPES)) && py_eq (JObj plan) (JObj LEGACY_PLAN_REVIEW_POLICY))) = Ok plan.
Proof.
  intros [[-> Hrt]| ->]%plan_Ok; unfold _plan_review_policy; rewrite bind_ret.
  - by rewrite bool_decide_eq_false_2 by by apply Hrt.
  - by destruct (negb _).
Qed.

(** What a review decision reads. *)
Lemma review_required_typed adm rt sha subject reviewer state mutation family :
  rt ∈ _TYPED_REVIEW_RESULT_TYPES → result_type_of adm = JStr rt →
  author_family_for_lane (dget "to_model" adm) = Ok family →
  _typed_review_evidence adm (JStr rt) = Ok (Some (evidence_dict sha subject reviewer state mutation)) →
  _review_required adm = Ok (negb (bool_decide (reviewer = family) && negb (bool_decide (subject = family)) && negb mutation)).
Proof.
  intros Ht Er Ef Ee. unfold _review_required, _is_terminal_review_act. rewrite Er, in_set_str, bind_ret, bool_decide_eq_true_2 by done.
  rewrite Ef, bind_ret, Ee, !bind_ret. rewrite ev_subject, ev_reviewer, ev_mutation. cbn [py_eq is_false]. by destruct mutation.
Qed.

Lemma review_required_untyped adm rt b :
  rt ∉ _TYPED_REVIEW_RESULT_TYPES → result_type_of adm = JStr rt →
  dict_get "review_required" adm = Some (JBool b) → _review_required adm = Ok b.
Proof.
  intros Ht Er Eb. unfold _review_required. rewrite Er, in_set_str, bind_ret, bool_decide_eq_false_2 by done. by rewrite Eb.
Qed.

(** The evidence is one of the two shapes the derivation builds. *)
Definition evidence_shape (ev : option dict) : Prop :=
  ev = None ∨ ∃ sha subject reviewer state mutation, ev = Some (evidence_dict sha subject reviewer state mutation).

Definition is_typed (p : Parts) : bool := match p_evidence p with Some _ => true | None => false end.

Record rebuilt_ok (p : Parts) (lane : string) (adm : dict) : Prop := {
  rb_task : dict_get "task_id" adm = Some (JStr (p_task p));
  rb_run : dict_get "run_id" adm = Some (JStr (p_run p));
  rb_mode : dict_get "mode" adm = Some (JStr (p_mode p));
  rb_type : dict_get "result_type" adm = Some (JStr (p_type p));
  rb_kind : dict_get "dispatch_kind" adm = Some (JStr "single");
  rb_lane : dict_get "to_model" adm = Some (JStr lane);
  rb_cap : dict_get "capability" adm = Some (JObj (p_cap p));
  rb_gates : dict_get "expected_gates" adm = Some (jstrs (p_gates p));
  rb_dels : dget "authorized_delete_paths" adm = match p_dels p with [] => JNull | _ => jstrs (p_dels p) end;
  rb_required : dict_get "review_required" adm = Some (JBool (p_required p));
  rb_map : dict_get "runtime_map_gates" adm = None;
  rb_runtime : dict_get "runtime_gates" adm = None;
  rb_evidence : carries adm (default [] (p_evidence p))
}.

Lemma rebuilt_lookups p lane b :
  evidence_shape (p_evidence p) → b = None ∨ b = Some (p_required p) →
  rebuilt_ok p lane (rebuilt_admission (build p) lane (is_typed p) b).
Proof.
  destruct p as [task run mode rt family ev cap gates req plan dels]. unfold evidence_shape, is_typed. cbn [p_evidence p_required].
  intros [->|(sha & subject & reviewer & state & mutation & ->)] [->| ->]; destruct dels as [|d dels];
    (split; [reflexivity..|]; intros f Hf; unfold _TYPED_REVIEW_FIELDS in Hf;
     repeat (apply elem_of_cons in Hf as [->|Hf]; [reflexivity|]); by apply elem_of_nil in Hf).
Qed.

Lemma build_keys p :
  evidence_shape (p_evidence p) → same_set (build p).*1 (required_keys (build p) (is_typed p)) = true ∧ NoDup (build p).*1.
Proof.
  destruct p as [task run mode rt family ev cap gates req plan dels]. unfold evidence_shape, is_typed. cbn [p_evidence].
  intros [->|(sha & subject & reviewer & state & mutation & ->)]; destruct dels as [|d dels];
    (split; [vm_compute; reflexivity|]);
    (match goal with |- NoDup ?l => let l' := eval vm_compute in l in change (NoDup l'); by_decide end).
Qed.

Lemma build_gets p :
  evidence_shape (p_evidence p) →
  dget "result_type" (build p) = JStr (p_type p) ∧ dget "contract_version" (build p) = JStr CONTRACT_VERSION ∧
  dget "author_family" (build p) = JStr (p_family p) ∧ dget "plan_review_policy" (build p) = JObj (p_plan p) ∧
  dict_get "deliverable_review_policy" (build p) = Some (JObj
    [("required", JBool (p_required p)); ("anti_affinity", JStr "author_family"); ("subject", JStr "artifact_bundle_sha256")]).
Proof.
  destruct p as [task run mode rt family ev cap gates req plan dels]. unfold evidence_shape. cbn [p_evidence].
  intros [->|(sha & subject & reviewer & state & mutation & ->)]; destruct dels as [|d dels]; repeat split; reflexivity.
Qed.

(** What every derivation's parts satisfy, whatever the admission. *)
Record parts_ok (p : Parts) : Prop := {
  pk_mode : p_mode p ∈ SUPPORTED_MODES;
  pk_task : py_strip (p_task p) ≠ "";
  pk_run : py_strip (p_run p) ≠ "";
  pk_type : p_type p ∈ allowed_types (p_mode p);
  pk_family : p_family p ∈ FAMILIES;
  pk_evidence :
    p_type p ∉ _TYPED_REVIEW_RESULT_TYPES ∧ p_evidence p = None ∨
    p_type p ∈ _TYPED_REVIEW_RESULT_TYPES ∧ ∃ sha subject reviewer state mutation,
      p_evidence p = Some (evidence_dict sha subject reviewer state mutation) ∧ evidence_ok sha subject reviewer state ∧
      p_required p = negb (bool_decide (reviewer = p_family p) && negb (bool_decide (subject = p_family p)) && negb mutation);
  pk_cap : ∃ cid card state, p_cap p = capability_dict cid card state ∧ cap_ok cid card state;
  pk_modeless : p_mode p = MODELESS_MODE → dget "id" (p_cap p) = JNull;
  pk_gates : gates_ok (p_gates p);
  pk_plan : p_plan p = LEGACY_PLAN_REVIEW_POLICY ∨ p_plan p = [("required", JBool false)];
  pk_dels : dels_ok (p_dels p)
}.

Lemma parts_canonical adm legacy p : parts_of adm legacy p → parts_ok p.
Proof.
  intros [[_ Hm] [_ Ht] [_ Hr] [Et Hrt] _ Hf He Hc Hml Hg Hq Hp Hd]. split; try done.
  - by eapply author_family_in.
  - apply review_evidence_Ok in He as He'. destruct He' as [(Hn & -> & _)|(Hin & sha & su & re & st & mu & E & Hok & _)]; [by left|right].
    split; [done|]. exists sha, su, re, st, mu. split; [done|]. split; [done|]. rewrite E in He.
    rewrite (review_required_typed _ _ _ _ _ _ _ _ Hin Et Hf He) in Hq. by injection Hq as <-.
  - by eapply capability_Ok.
  - by eapply gate_values_Ok.
  - apply plan_Ok in Hp as [[? _]|?]; auto.
  - by eapply delete_paths_Ok.
Qed.

Lemma parts_shape p : parts_ok p → evidence_shape (p_evidence p) ∧ is_typed p = bool_decide (p_type p ∈ _TYPED_REVIEW_RESULT_TYPES).
Proof.
  intros Hp. unfold is_typed. destruct (pk_evidence p Hp) as [(Hn & E)|(Hin & sha & su & re & st & mu & E & _)]; rewrite E.
  - split; [by left|]. by rewrite bool_decide_eq_false_2.
  - split; [right; by repeat eexists|]. by rewrite bool_decide_eq_true_2.
Qed.

Lemma allowed_nonempty mode rt : rt ∈ allowed_types mode → rt ≠ "".
Proof.
  unfold allowed_types, _TYPED_REVIEW_RESULT_TYPES. intros Hin ->. revert Hin.
  case_bool_decide; intros Hin; repeat (apply elem_of_cons in Hin as [[=]|Hin]); by apply elem_of_nil in Hin.
Qed.

Lemma parts_rebuilt p lane adm legacy :
  parts_ok p → rebuilt_ok p lane adm → author_family_for_lane (JStr lane) = Ok (p_family p) →
  _plan_review_policy adm (JStr (p_type p)) legacy = Ok (p_plan p) → parts_of adm legacy p.
Proof.
  intros Hp Hb Hl Hplan. pose proof Hp as [Hm Ht Hr Hrt Hf He (cid & card & st & Ec & Hc) Hml Hg _ Hd].
  assert (Hg' : ∀ k v, dict_get k adm = Some v → dget k adm = v) by (intros k v Hk; unfold dget; by rewrite Hk).
  assert (Et : result_type_of adm = JStr (p_type p)).
  { unfold result_type_of. rewrite (Hg' _ _ (rb_type _ _ _ Hb)). cbn [truthy].
    by rewrite bool_decide_eq_false_2 by by eapply allowed_nonempty. }
  assert (Hfl : author_family_for_lane (dget "to_model" adm) = Ok (p_family p)).
  { by rewrite (Hg' _ _ (rb_lane _ _ _ Hb)). }
  assert (Hev : _typed_review_evidence adm (JStr (p_type p)) = Ok (p_evidence p)).
  { apply review_evidence_Ok. pose proof (rb_evidence _ _ _ Hb) as Hcar.
    destruct He as [(Hn & E)|(Hin & sha & su & re & s & mu & E & Hok & _)]; rewrite E in *; [by left|right].
    split; [done|]. exists sha, su, re, s, mu. done. }
  split; try done.
  - split; [by apply Hg', Hb|done].
  - split; [by apply Hg', Hb|done].
  - split; [by apply Hg', Hb|done].
  - by rewrite (rb_kind _ _ _ Hb).
  - rewrite Ec. apply capability_again; [|done]. rewrite <- Ec. apply Hb.
  - eapply gate_values_again; [|apply Hb|apply Hb|apply Hb|done]. rewrite <- Ec. apply Hb.
  - destruct He as [(Hn & E)|(Hin & sha & su & re & s & mu & E & Hok & Hq)].
    + by eapply review_required_untyped; [done..|apply Hb].
    + rewrite Hq. rewrite E in Hev. by eapply review_required_typed.
  - apply delete_paths_again; [apply Hb|done].
Qed.

Lemma strs_wf l : json_wf (jstrs l) = true.
Proof. apply json_wf_list, Forall_map. by apply Forall_true. Qed.

Lemma json_wf_dict d : NoDup d.*1 → Forall (λ v, json_wf v = true) d.*2 → json_wf (JObj d) = true.
Proof. intros Hnd Hv. apply json_wf_obj. split; [done|]. by apply Forall_fmap in Hv. Qed.

Lemma cap_wf cid card st : cap_ok cid card st → json_wf (JObj (capability_dict cid card st)) = true.
Proof.
  intros (Hc & Hs & Ht). apply json_wf_dict; [by_decide|]. cbn. repeat constructor.
  - by destruct Hc as [->|(? & -> & _)].
  - by destruct card.
  - by destruct Ht as [->|(? & -> & _)].
Qed.

Lemma build_wf p : parts_ok p → json_wf (JObj (build p)) = true.
Proof.
  intros Hp. destruct (parts_shape p Hp) as [Hs _]. apply json_wf_dict; [by apply build_keys|].
  pose proof (pk_cap p Hp) as (cid & card & st & Ec & Hc). pose proof (pk_plan p Hp) as Hpl.
  assert (Hcap : json_wf (JObj (p_cap p)) = true) by (rewrite Ec; by apply cap_wf).
  assert (Hplan : json_wf (JObj (p_plan p)) = true) by (destruct Hpl as [-> | ->]; done).
  clear Hc Hpl Ec. destruct p as [task run mode rt family ev cap gates req plan dels].
  cbn [p_cap p_plan p_evidence] in *.
  assert (Hb : json_wf (if shaped {| p_task := task; p_run := run; p_mode := mode; p_type := rt; p_family := family; p_evidence := ev;
    p_cap := cap; p_gates := gates; p_required := req; p_plan := plan; p_dels := dels |} then JNull else BOUNTY_POLICY) = true).
  { by case_match. }
  unfold build, base_of. cbn [p_evidence p_dels p_task p_run p_mode p_type p_family p_cap p_gates p_required p_plan].
  set (bp := if shaped _ then _ else _) in *. set (rc := if shaped _ then _ else _). clearbody bp rc.
  destruct Hs as [->|(sha & su & re & s & mu & ->)]; destruct dels as [|d dels];
    cbn -[json_wf jstrs]; repeat (apply Forall_cons_2; [first [done|apply strs_wf]|]); constructor.
Qed.

Lemma rebuilt_typed p : parts_ok p → in_set (JStr (p_type p)) _TYPED_REVIEW_RESULT_TYPES = Ok (is_typed p).
Proof. intros Hp. rewrite in_set_str. by destruct (parts_shape p Hp) as [_ ->]. Qed.

(** Deriving again from a derived contract gives it back. *)
Lemma derived_validates adm p b :
  parts_of adm None p → b = None ∨ b = Some (p_required p) →
  validate_verification_contract (JObj (build p)) b = Ok (build p).
Proof.
  intros Hadm Hb. pose proof (parts_canonical _ _ _ Hadm) as Hp. destruct (parts_shape p Hp) as [Hs Hty].
  destruct (build_gets p Hs) as (E1 & E2 & E3 & E4 & _). destruct (build_keys p Hs) as [Hk _].
  destruct (first_lane_family _ (pk_family p Hp)) as (lane & Hlane & Hfam).
  cbn [validate_verification_contract]. rewrite E1, rebuilt_typed, bind_ret, Hk by done. cbn [negb].
  rewrite raise_if_false, bind_ret, E2, (proj2 (py_eq_str _ _)) by done. cbn [negb].
  rewrite raise_if_false, bind_ret, E3, in_set_str, bind_ret. rewrite bool_decide_eq_true_2 by apply Hp. cbn [negb].
  rewrite raise_if_false, bind_ret, Hlane, bind_ret, E4.
  assert (Hre : derive_verification_contract_unchecked (rebuilt_admission (build p) lane (is_typed p) b)
     (Some (negb (is_typed p) && py_eq (JObj (p_plan p)) (JObj LEGACY_PLAN_REVIEW_POLICY))) = Ok (build p)).
  { apply derive_unchecked_Ok. exists p. split; [done|]. eapply parts_rebuilt; [done|by apply rebuilt_lookups|done|].
    rewrite Hty. eapply plan_again, Hadm. }
  rewrite Hre, bind_ret, py_eq_refl by by apply build_wf. done.
Qed.

(** ** What a validated contract is *)

Lemma validate_Ok c b c' :
  validate_verification_contract (JObj c) b = Ok c' →
  c' = c ∧ ∃ typed lane legacy p,
    in_set (dget "result_type" c) _TYPED_REVIEW_RESULT_TYPES = Ok typed ∧
    same_set c.*1 (required_keys c typed) = true ∧
    parts_of (rebuilt_admission c lane typed b) (Some legacy) p ∧ py_eq (JObj c) (JObj (build p)) = true.
Proof.
  cbn [validate_verification_contract]. intros H.
  apply bind_Ok in H as (typed & Ht & H). apply bind_Ok in H as (? & Hk%raise_if_Ok%negb_false_iff & H).
  apply bind_Ok in H as (? & _ & H). apply bind_Ok in H as (? & _ & H). apply bind_Ok in H as (? & _ & H).
  apply bind_Ok in H as (lane & _ & H). apply bind_Ok in H as (expected & He & H).
  apply bind_Ok in H as (? & Heq%raise_if_Ok%negb_false_iff & [= <-]).
  apply derive_unchecked_Ok in He as (p & -> & Hp). split; [done|]. eexists typed, lane, _, p. done.
Qed.

Definition final_gets (p : Parts) : list (string * json) :=
  [("mode", JStr (p_mode p)); ("result_type", JStr (p_type p)); ("capability", JObj (p_cap p));
   ("required_phase_ids", jstrs REQUIRED_PHASE_IDS); ("expected_gates", jstrs (p_gates p));
   ("external_delivery_policy", JObj [("allowed", JBool false)]);
   ("deliverable_review_policy", JObj
      [("required", JBool (p_required p)); ("anti_affinity", JStr "author_family"); ("subject", JStr "artifact_bundle_sha256")]);
   ("author_family", JStr (p_family p))].

Lemma build_final_gets p :
  evidence_shape (p_evidence p) →
  Forall (λ kv, dict_get kv.1 (build p) = Some kv.2) (final_gets p) ∧
  dict_get "authorized_delete_paths" (build p) = match p_dels p with [] => None | _ => Some (jstrs (p_dels p)) end.
Proof.
  destruct p as [task run mode rt family ev cap gates req plan dels]. unfold evidence_shape. cbn [p_evidence].
  intros [->|(sha & subject & reviewer & state & mutation & ->)]; destruct dels as [|d dels];
    (split; [unfold final_gets; repeat (constructor; [reflexivity|]); constructor|reflexivity]).
Qed.

(** The limits no contract can be outside of. *)
Record within_policy (c : dict) (expected : option bool) : Prop := {
  wp_mode : ∃ mode rt, dget "mode" c = JStr mode ∧ mode ∈ SUPPORTED_MODES ∧
    dget "result_type" c = JStr rt ∧ rt ∈ allowed_types mode ∧
    (mode = MODELESS_MODE → ∃ cap, dget "capability" c = JObj cap ∧ dget "id" cap = JNull) ∧
    (rt ∉ _TYPED_REVIEW_RESULT_TYPES → ∀ b, expected = Some b →
       ∃ policy, dget "deliverable_review_policy" c = JObj policy ∧ py_eq (dget "required" policy) (JBool b) = true);
  wp_phases : dget "required_phase_ids" c = jstrs REQUIRED_PHASE_IDS;
  wp_delivery : ∃ policy, dget "external_delivery_policy" c = JObj policy ∧ py_eq (dget "allowed" policy) (JBool false) = true;
  wp_gates : ∃ gates, dget "expected_gates" c = jstrs gates ∧ gates_ok gates;
  wp_deletes : dict_get "authorized_delete_paths" c = None ∨
    ∃ paths, paths ≠ [] ∧ dict_get "authorized_delete_paths" c = Some (jstrs paths) ∧ dels_ok paths
}.

Lemma py_eq_obj v d : py_eq v (JObj d) = true → ∃ e, v = JObj e.
Proof. destruct v; try done. eauto. Qed.

(** Between dictionaries with unique keys, equality also reads backwards. *)
Lemma py_eq_obj_get_r d e k w :
  py_eq (JObj d) (JObj e) = true → NoDup d.*1 → dict_get k e = Some w →
  ∃ v, dict_get k d = Some v ∧ py_eq v w = true.
Proof.
  intros H Hnd Hk. assert (Hin : k ∈ d.*1).
  { assert (Hsub : d.*1 ⊆+ e.*1).
    { apply NoDup_submseteq; [done|]. intros x Hx. apply dict_get_key in Hx as (v & Hv).
      destruct (py_eq_obj_get _ _ _ _ H Hv) as (w' & Hw' & _). apply dict_get_key. eauto. }
    assert (Hlen : (length e.*1 ≤ length d.*1)%nat).
    { cbn [py_eq] in H. apply andb_true_iff in H as [Hl%Nat.eqb_eq _]. rewrite !length_fmap. lia. }
    rewrite (submseteq_length_Permutation _ _ Hsub Hlen). apply dict_get_key. eauto. }
  apply dict_get_key in Hin as (v & Hv). destruct (py_eq_obj_get _ _ _ _ H Hv) as (w' & Hw' & ?).
  exists v. split; [done|]. congruence.
Qed.

(** A policy object equal to the expected one has each of its entries. *)
Lemma py_eq_entry v d k w :
  json_wf v = true → py_eq v (JObj d) = true → dict_get k d = Some w →
  ∃ e, v = JObj e ∧ py_eq (dget k e) w = true.
Proof.
  destruct v as [| | | | |e]; try done. intros [Hnd _]%json_wf_obj H Hk.
  destruct (py_eq_obj_get_r _ _ _ _ H Hnd Hk) as (x & Hx & ?). exists e. split; [done|]. unfold dget. by rewrite Hx.
Qed.

Lemma validated_within c b c' :
  json_wf (JObj c) = true → validate_verification_contract (JObj c) b = Ok c' → c' = c ∧ within_policy c b.
Proof.
  intros Hwf H. apply validate_Ok in H as (-> & typed & lane & legacy & p & Ht & _ & Hadm & Heq). split; [done|].
  pose proof (parts_canonical _ _ _ Hadm) as Hp. destruct (parts_shape p Hp) as [Hs _].
  destruct (build_final_gets p Hs) as [Hf Hdel]. unfold final_gets in Hf. rewrite !Forall_cons in Hf. cbn [fst snd] in Hf.
  destruct Hf as (Fm & Ft & Fc & Fp & Fg & Fe & Fr & _ & _). apply json_wf_obj in Hwf as Hwf2. destruct Hwf2 as [Hnd _].
  assert (Hget : ∀ k w, dict_get k (build p) = Some w → ∃ v, dict_get k c = Some v ∧ dget k c = v ∧ json_wf v = true ∧ py_eq v w = true).
  { intros k w Hk. destruct (py_eq_obj_get_r _ _ _ _ Heq Hnd Hk) as (v & Hv & ?). exists v. split; [done|].
    split; [unfold dget; by rewrite Hv|]. split; [by eapply json_wf_get|done]. }
  apply Hget in Fm as (? & _ & Em & _ & ->%py_eq_str). apply Hget in Ft as (? & _ & Et & _ & ->%py_eq_str).
  apply Hget in Fc as (cap & _ & Ec & Wc & Qc). apply Hget in Fp as (? & _ & Ep & _ & ->%py_eq_strs).
  apply Hget in Fg as (? & _ & Eg & _ & ->%py_eq_strs). apply Hget in Fe as (del & _ & Ee & We & Qe).
  apply Hget in Fr as (pol & _ & Er & Wr & Qr). split.
  - exists (p_mode p), (p_type p). split_and!; try done; try apply Hp.
    + intros Hm%(pk_modeless p Hp). pose proof (pk_cap p Hp) as (cid & card & st & Ecap & _). rewrite Ecap in *.
      destruct (py_eq_entry _ _ "id" cid Wc Qc) as (e & -> & He); [done|]. exists e. split; [done|].
      change (dget "id" (capability_dict cid card st)) with cid in Hm. rewrite Hm in He. by destruct (dget "id" e).
    + intros Hn x ->. destruct (py_eq_entry _ _ "required" _ Wr Qr eq_refl) as (e & -> & He). exists e. split; [done|].
      rewrite Et, in_set_str, bool_decide_eq_false_2 in Ht by done. injection Ht as <-.
      pose proof (po_required _ _ _ Hadm) as Hq. pose proof (po_type _ _ _ Hadm) as [Hty _].
      rewrite (review_required_untyped _ (p_type p) x) in Hq; [|done..|reflexivity]. by injection Hq as ->.
  - done.
  - destruct (py_eq_entry _ _ "allowed" _ We Qe eq_refl) as (e & -> & He). eauto.
  - exists (p_gates p). split; [done|apply Hp].
  - destruct (p_dels p) as [|d ds] eqn:Ed.
    + left. destruct (dict_get "authorized_delete_paths" c) as [v|] eqn:Ev; [|done].
      destruct (py_eq_obj_get _ _ _ _ Heq Ev) as (w & Hw & _). congruence.
    + right. exists (d :: ds). split; [done|]. apply Hget in Hdel as (v & Hv & _ & _ & ->%py_eq_strs).
      split; [done|]. rewrite <- Ed. apply Hp.
Qed.

(** ** The modeless state *)

(** The admission with another mode. *)
Definition with_mode (m : string) (adm : dict) : dict := dict_set "mode" (JStr m) adm.

Section OtherMode.
Context (m : string) (adm : dict).

Lemma with_mode_get k : k ≠ "mode" → dict_get k (with_mode m adm) = dict_get k adm.
Proof. intros Hk. unfold with_mode. by rewrite dict_get_set, decide_False. Qed.

Lemma with_mode_dget k : k ≠ "mode" → dget k (with_mode m adm) = dget k adm.
Proof. intros Hk. unfold dget. by rewrite with_mode_get. Qed.

Lemma with_mode_mode : dget "mode" (with_mode m adm) = JStr m.
Proof. unfold dget, with_mode. by rewrite dict_get_set, decide_True. Qed.

Lemma with_mode_has k : k ≠ "mode" → dict_has k (with_mode m adm) = dict_has k adm.
Proof. intros Hk. unfold dict_has. by rewrite with_mode_get. Qed.

Lemma with_mode_alt k k' : k ≠ "mode" → k' ≠ "mode" → get_alt k k' (with_mode m adm) = get_alt k k' adm.
Proof. intros Hk Hk'. unfold get_alt. by rewrite with_mode_get, with_mode_dget. Qed.

Lemma with_mode_evidence rt : _typed_review_evidence (with_mode m adm) rt = _typed_review_evidence adm rt.
Proof.
  unfold _typed_review_evidence, missing_fields, _TYPED_REVIEW_FIELDS. cbn [existsb List.filter].
  by rewrite !with_mode_has, !with_mode_dget by done.
Qed.

Lemma with_mode_type : result_type_of (with_mode m adm) = result_type_of adm.
Proof. unfold result_type_of. by rewrite with_mode_dget. Qed.

Lemma with_mode_required : _review_required (with_mode m adm) = _review_required adm.
Proof.
  unfold _review_required, _is_terminal_review_act.
  by rewrite with_mode_type, with_mode_evidence, with_mode_get, with_mode_dget.
Qed.

Lemma with_mode_gates : _gate_values (with_mode m adm) = _gate_values adm.
Proof.
  unfold _gate_values. rewrite with_mode_alt by done. destruct (match get_alt _ _ adm with JObj _ => _ | _ => _ end); [|done].
  rewrite !bind_ret. cbn [collect_gates]. unfold _collect_gate_list. by rewrite !with_mode_dget.
Qed.

Lemma with_mode_reserved :
  existsb (λ f, dict_has f (with_mode m adm)) _DERIVATION_RESERVED_FIELDS =
  existsb (λ f, dict_has f adm) _DERIVATION_RESERVED_FIELDS.
Proof. unfold _DERIVATION_RESERVED_FIELDS. cbn [existsb]. by rewrite !with_mode_has. Qed.

End OtherMode.

Definition in_mode (m : string) (p : Parts) : Parts :=
  Build_Parts (p_task p) (p_run p) m (p_type p) (p_family p) (p_evidence p) (p_cap p) (p_gates p) (p_required p)
    (p_plan p) (p_dels p).

Lemma switch_mode adm legacy p m m' :
  parts_of (with_mode m adm) legacy p → m' ∈ SUPPORTED_MODES → p_type p ∈ allowed_types m' →
  (m' = MODELESS_MODE → dget "id" (p_cap p) = JNull) → parts_of (with_mode m' adm) legacy (in_mode m' p).
Proof.
  intros [Hm Ht Hr [Et Hrt] Hk Hf He Hc Hml Hg Hq Hp Hd] Hs Ha Hid.
  rewrite with_mode_dget in Ht, Hr, Hf by done. rewrite with_mode_get in Hk by done. rewrite with_mode_type in Et.
  rewrite with_mode_evidence in He. rewrite with_mode_gates in Hg. rewrite with_mode_required in Hq.
  unfold _capability_from_admission in Hc. rewrite with_mode_alt in Hc by done.
  unfold _plan_review_policy in Hp. rewrite with_mode_has in Hp by done.
  unfold _authorized_delete_paths in Hd. rewrite with_mode_dget in Hd by done.
  split; cbn [in_mode p_mode p_task p_run p_type p_family p_evidence p_cap p_gates p_required p_plan p_dels]; try done.
  - by rewrite with_mode_mode.
  - by rewrite with_mode_dget.
  - by rewrite with_mode_dget.
  - by rewrite with_mode_type.
  - by rewrite with_mode_get.
  - by rewrite with_mode_dget.
  - by rewrite with_mode_evidence.
  - unfold _capability_from_admission. by rewrite with_mode_alt.
  - by rewrite with_mode_gates.
  - by rewrite with_mode_required.
  - unfold _plan_review_policy. by rewrite with_mode_has.
  - unfold _authorized_delete_paths. by rewrite with_mode_dget.
Qed.

Lemma build_project p :
  evidence_shape (p_evidence p) → p_mode p = MODELESS_MODE → build (in_mode "project" p) = with_mode "project" (build p).
Proof.
  destruct p as [task run mode rt family ev cap gates req plan dels]. unfold evidence_shape. cbn [p_evidence p_mode].
  intros [->|(sha & subject & reviewer & state & mutation & ->)] ->; destruct dels as [|d dels]; reflexivity.
Qed.

(** The public derivation, split. *)
Lemma derive_Ok adm c :
  derive_verification_contract (JObj adm) = Ok c ↔
  existsb (λ f, dict_has f adm) _DERIVATION_RESERVED_FIELDS = false ∧ ∃ p, c = build p ∧ parts_of adm None p.
Proof.
  cbn [derive_verification_contract]. split.
  - intros H. apply bind_Ok in H as (? & Hr%raise_if_Ok & H). split; [done|].
    apply bind_Ok in H as (c0 & Hc & H). apply bind_Ok in H as (b & Hb & H). apply derive_unchecked_Ok in Hc as (p & -> & Hp).
    exists p. split; [|done]. rewrite (po_required _ _ _ Hp) in Hb. injection Hb as <-.
    rewrite (derived_validates adm) in H by auto. by injection H as <-.
  - intros (Hr & p & -> & Hp). rewrite Hr, raise_if_false, bind_ret.
    rewrite (proj2 (derive_unchecked_Ok adm None (build p))) by eauto.
    rewrite bind_ret, (po_required _ _ _ Hp), bind_ret. eapply derived_validates; eauto.
Qed.

(** ** Deletion entries *)

Lemma normalize_delete_Ok v d :
  normalize_authorized_delete_path v = Ok d ↔
  v = JStr d ∧ d ≠ "" ∧ char_in "000"%char d = false ∧ startswith d "/" = false ∧ startswith d ":" = false ∧
    str_existsb (λ c, char_in c _PATHSPEC_PATTERN_CHARACTERS) d = false ∧ endswith d "/" = false ∧
    Forall (λ s, s ∉ [""; "."; ".."]) (split_char "/"%char d).
Proof.
  split.
  - intros H. assert (v = JStr d) as -> by by apply normalize_delete_same. split; [done|].
    cbn [normalize_authorized_delete_path] in H.
    apply bind_Ok in H as (? & [H1 H2]%raise_if_Ok%orb_false_iff & H). apply bind_Ok in H as (? & H3%raise_if_Ok & H).
    apply bind_Ok in H as (? & [H4 H5]%raise_if_Ok%orb_false_iff & H). apply bind_Ok in H as (? & H6%raise_if_Ok & H).
    apply bind_Ok in H as (? & H7%raise_if_Ok & _). apply bool_decide_eq_false in H1. split_and!; try done.
    apply Forall_forall. intros s Hs Hin. assert (existsb (λ s, bool_decide (s ∈ [""; "."; ".."])) (split_char "/"%char d) = true); [|congruence].
    apply existsb_exists. exists s. split; [by apply list_elem_of_In|by apply bool_decide_eq_true].
  - intros (-> & H1 & H2 & H3 & H4 & H5 & H6 & H7). cbn [normalize_authorized_delete_path].
    rewrite bool_decide_eq_false_2 by done. rewrite H2, H3, H4, H5, H6. cbn [orb]. rewrite !raise_if_false, !bind_ret.
    assert (existsb (λ s, bool_decide (s ∈ [""; "."; ".."])) (split_char "/"%char d) = false) as ->; [|done].
    destruct (existsb _ _) eqn:E; [|done]. apply existsb_exists in E as (s & Hs%list_elem_of_In & Hin). bool_inv.
    rewrite Forall_forall in H7. by destruct (H7 s Hs).
Qed.

Lemma canonical_comps d :
  Forall (λ s, s ∉ [""; "."; ".."]) (split_char "/"%char d) → path_comps d = split_char "/"%char d ∧ ".." ∉ path_comps d.
Proof.
  intros H. assert (E : path_comps d = split_char "/"%char d).
  { unfold path_comps, slash. induction H as [|s l Hs _ IH]; [done|]. cbn [List.filter].
    assert (real_comp s = true) as -> by (apply real_comp_true; set_solver). by rewrite IH. }
  split; [done|]. rewrite E. intros Hin. rewrite Forall_forall in H. apply (H _ Hin). set_solver.
Qed.

(** ** A concrete admission for the witnesses *)

Definition demo_admission : dict :=
  [("task_id", JStr "TASK-7"); ("run_id", JStr "RUN-1"); ("to_model", JStr "gpt-codex");
   ("mode", JStr "modeless"); ("review_required", JBool false); ("runtime_gates", jstrs ["delete"; "cleanup"; "delete"]);
   ("authorized_delete_paths", jstrs ["src/b.py"; "src/a.py"])].
Definition demo_contract : dict :=
  Eval vm_compute in match derive_verification_contract (JObj demo_admission) with Ok c => c | Err _ => [] end.

(** ** Properties *)

(** A derived contract is a fixed point: on an admission without
    dispatcher-owned fields the public derivation never fails in its own
    validation, what it returns validates again without an expectation, and a
    validation that expects a review decision accepts it, for routine work,
    only with the decision the admission carries. *)
Theorem derive_is_fixed_point adm :
  existsb (λ f, dict_has f adm) _DERIVATION_RESERVED_FIELDS = false →
  (∀ c, derive_verification_contract (JObj adm) = Ok c ↔ derive_verification_contract_unchecked adm None = Ok c) ∧
  ∀ c, derive_verification_contract (JObj adm) = Ok c →
    validate_verification_contract (JObj c) None = Ok c ∧
    ∀ b, in_set (dget "result_type" c) _TYPED_REVIEW_RESULT_TYPES = Ok false →
      is_ok (validate_verification_contract (JObj c) (Some b)) = true ↔ _review_required adm = Ok b.
Proof.
  intros Hr. split.
  - intros c. rewrite derive_Ok, derive_unchecked_Ok. naive_solver.
  - intros c (_ & p & -> & Hp)%derive_Ok. split; [by eapply derived_validates; eauto|].
    intros b Hty. pose proof (parts_canonical _ _ _ Hp) as Hk. destruct (parts_shape p Hk) as [Hs _].
    destruct (build_gets p Hs) as (E1 & _). rewrite E1, in_set_str in Hty. injection Hty as Hn. apply bool_decide_eq_false in Hn.
    rewrite (po_required _ _ _ Hp). split.
    + destruct (validate_verification_contract (JObj (build p)) (Some b)) as [c'|] eqn:Ev; [|done]. intros _.
      apply validated_within in Ev as [_ [(mode & rt & _ & _ & Ert & _ & _ & Hreq) _ _ _ _]]; [|by apply build_wf].
      rewrite E1 in Ert. injection Ert as <-. destruct (Hreq Hn b eq_refl) as (pol & Epol & Heq).
      destruct (build_gets p Hs) as (_ & _ & _ & _ & Ed). unfold dget in Epol. rewrite Ed in Epol. injection Epol as <-.
      cbn in Heq. destruct (p_required p), b; done.
    + intros [= <-]. by rewrite (derived_validates adm) by auto.
Qed.

Lemma derive_is_fixed_point_witness :
  derive_verification_contract (JObj demo_admission) = Ok demo_contract ∧
  validate_verification_contract (JObj demo_contract) None = Ok demo_contract ∧
  is_ok (validate_verification_contract (JObj demo_contract) (Some true)) = false.
Proof.
  assert (E : derive_verification_contract (JObj demo_admission) = Ok demo_contract) by (vm_compute; reflexivity).
  destruct (derive_is_fixed_point demo_admission ltac:(vm_compute; reflexivity)) as [_ H].
  destruct (H demo_contract E) as [Hv Hb]. split; [exact E|]. split; [exact Hv|].
  destruct (is_ok _) eqn:Ei; [|reflexivity]. apply (Hb true) in Ei; [|vm_compute; reflexivity].
  vm_compute in Ei. discriminate.
Defined.

(** C6. No contract outside the policy validates: one that does has a supported
    mode and a result type that mode allows, a modeless one has no capability
    card, the phases are exactly S0 to S7, external delivery is off, every
    gate is a known one, listed once in order, every deletion target is a
    normalised file path, listed once in order, and the routine review decision
    is the caller's expectation when there is one. *)
Theorem validate_enforces_policy c expected c' :
  json_wf (JObj c) = true → validate_verification_contract (JObj c) expected = Ok c' →
  c' = c ∧ within_policy c expected.
Proof. apply validated_within. Qed.

Lemma validate_enforces_policy_witness :
  ∃ policy, dget "external_delivery_policy" demo_contract = JObj policy ∧
    py_eq (dget "allowed" policy) (JBool false) = true.
Proof.
  destruct (validate_enforces_policy demo_contract (Some false) demo_contract) as [_ H];
    [vm_compute; reflexivity|vm_compute; reflexivity|].
  exact (wp_delivery _ _ H).
Defined.

(** A modeless packet gets the narrower of the two typed modes: whatever
    admission is accepted modeless is accepted in both typed modes, the
    contract is the project contract but for the mode it names, it carries no
    capability card and is never a dry run. *)
Theorem modeless_is_narrowest adm c :
  derive_verification_contract (JObj (with_mode MODELESS_MODE adm)) = Ok c →
  derive_verification_contract (JObj (with_mode "project" adm)) = Ok (with_mode "project" c) ∧
  is_ok (derive_verification_contract (JObj (with_mode "bounty" adm))) = true ∧
  (∃ cap, dget "capability" c = JObj cap ∧ dget "id" cap = JNull) ∧
  dget "result_type" c ≠ JStr "dry_run".
Proof.
  intros (Hr & p & -> & Hp)%derive_Ok. rewrite with_mode_reserved in Hr.
  pose proof (parts_canonical _ _ _ Hp) as Hk. destruct (parts_shape p Hk) as [Hs _].
  assert (Hm : p_mode p = MODELESS_MODE) by (destruct (po_mode _ _ _ Hp) as [Hm _]; rewrite with_mode_mode in Hm; congruence).
  pose proof (pk_type p Hk) as Ht. rewrite Hm in Ht. split_and!.
  - apply derive_Ok. rewrite with_mode_reserved. split; [done|]. exists (in_mode "project" p).
    split; [by rewrite build_project|]. eapply switch_mode; [done|by_decide|done|done].
  - rewrite (proj2 (derive_Ok (with_mode "bounty" adm) (build (in_mode "bounty" p)))); [done|].
    rewrite with_mode_reserved. split; [done|]. exists (in_mode "bounty" p). split; [done|].
    eapply switch_mode; [done|by_decide| |done]. revert Ht. unfold allowed_types.
    rewrite bool_decide_eq_true_2 by by_decide. rewrite bool_decide_eq_false_2 by by_decide. set_solver.
  - destruct (build_final_gets p Hs) as [Hf _]. unfold final_gets in Hf. rewrite !Forall_cons in Hf. cbn [fst snd] in Hf.
    destruct Hf as (_ & _ & Fc & _). exists (p_cap p). unfold dget at 1. rewrite Fc. split; [done|]. by apply Hk.
  - destruct (build_gets p Hs) as (-> & _). intros [= E]. rewrite E in Ht. revert Ht. unfold allowed_types.
    rewrite bool_decide_eq_true_2 by by_decide. unfold _TYPED_REVIEW_RESULT_TYPES.
    intros Ht; repeat (apply elem_of_cons in Ht as [[=]|Ht]); by apply elem_of_nil in Ht.
Qed.

Lemma modeless_is_narrowest_witness :
  derive_verification_contract (JObj (with_mode MODELESS_MODE demo_admission)) = Ok demo_contract ∧
  derive_verification_contract (JObj (with_mode "project" demo_admission)) = Ok (with_mode "project" demo_contract).
Proof.
  assert (E : derive_verification_contract (JObj (with_mode MODELESS_MODE demo_admission)) = Ok demo_contract)
    by (vm_compute; reflexivity).
  split; [exact E|]. apply (modeless_is_narrowest _ _ E).
Defined.

(** An authorised deletion names one file: whatever entry the contract
    accepts is a literal string, and under any normal absolute repository root
    it denotes, already in normal form, a path strictly below that root;
    different entries denote different paths. *)
Theorem delete_entry_names_one_file root cs v d :
  plain_abs root cs → ".." ∉ cs → normalize_authorized_delete_path v = Ok d →
  v = JStr d ∧
  (∀ c, char_in c "*?[]\" = true → char_in c d = false) ∧
  normpath (path_div root d) = path_div root d ∧
  (∃ c ds, path_comps (path_div root d) = cs ++ c :: ds) ∧
  (∀ v' d', normalize_authorized_delete_path v' = Ok d' → path_div root d' = path_div root d → d' = d).
Proof.
  intros Hroot Hcs Hd. apply normalize_delete_Ok in Hd as (Hv & Hne & _ & Hrel & _ & Hpat & _ & Hsegs).
  destruct (canonical_comps d Hsegs) as [Hcomps Hdots].
  pose proof (path_div_rel root cs d Hroot Hrel Hne) as Hplain. split_and!.
  - done.
  - intros c Hc. destruct (char_in c d) eqn:E; [|done]. exfalso.
    assert (Hx : str_existsb (λ c, char_in c _PATHSPEC_PATTERN_CHARACTERS) d = true); [|congruence].
    change (char_in c _PATHSPEC_PATTERN_CHARACTERS = true) in Hc. clear -E Hc. induction d as [|x d IH]; [done|]. rewrite char_in_cons in E. cbn [str_existsb].
    apply orb_true_iff in E as [E|E]; [bool_inv; subst; by rewrite Hc|]. rewrite IH by done. apply orb_true_r.
  - pose proof (normpath_plain _ _ Hplain) as Hn. rewrite norm_comps_id in Hn; [|apply Hplain|set_solver].
    destruct Hplain as [E1 _], Hn as [E2 _]. congruence.
  - destruct (path_comps d) as [|c ds] eqn:E; [by destruct (split_char_nonempty "/"%char d)|].
    exists c, ds. by apply plain_abs_comps in Hplain as [-> _].
  - intros v' d' Hd' Heq. apply normalize_delete_Ok in Hd' as (_ & Hne' & _ & Hrel' & _ & _ & _ & Hsegs').
    destruct (canonical_comps d' Hsegs') as [Hcomps' _].
    pose proof (path_div_rel root cs d' Hroot Hrel' Hne') as Hplain'. rewrite Heq in Hplain'.
    pose proof (plain_abs_inj _ _ _ Hplain Hplain') as Hinj. apply app_inv_head in Hinj.
    rewrite Hcomps, Hcomps' in Hinj. rewrite <- (join_split "/"%char d'), <- Hinj. apply join_split.
Qed.

Lemma delete_entry_names_one_file_witness :
  normalize_authorized_delete_path (JStr "src/a.py") = Ok "src/a.py" ∧
  normpath (path_div "/repo" "src/a.py") = path_div "/repo" "src/a.py".
Proof.
  assert (E : normalize_authorized_delete_path (JStr "src/a.py") = Ok "src/a.py") by (vm_compute; reflexivity).
  split; [exact E|].
  apply (delete_entry_names_one_file "/repo" ["repo"] (JStr "src/a.py") "src/a.py"); [|by_decide|exact E].
  split; [vm_compute; reflexivity|]. constructor; [by_decide|constructor].
Defined.

(** ** Observations *)

Definition int_for_bool : dict := dict_set "external_delivery_policy" (JObj [("allowed", JInt 0)]) demo_contract.

(** Python's [0 == False]: a contract with an integer for a boolean passes the
    equality test of the validation, and its hash is another one. *)
Theorem validate_accepts_int_for_bool :
  validate_verification_contract (JObj int_for_bool) None = Ok int_for_bool ∧
  verification_contract_sha256 int_for_bool ≠ verification_contract_sha256 demo_contract.
Proof. split; [vm_compute; reflexivity|]. intros H. vm_compute in H. discriminate. Qed.

(** A list for the result type escapes the validation as [TypeError]. *)
Theorem validate_raises_type_error :
  validate_verification_contract (JObj (dict_set "result_type" (JList []) demo_contract)) None =
  Err (Exn TypeError "unhashable type").
Proof. vm_compute. reflexivity. Qed.
