(* ===== verification/RoleContext.v ===== *)
(** * The role context compiler ([role_context_compiler.py])

    A role context binds the text of a specialist's role and of the lane's
    overlay, and the prompt made of them, under one hash.  Texts are strings of
    code points below 256, on which NFC normalisation is the identity. *)
From S2P Require Import Prelude Sha256 Json Posix PyText.

#[local] Open Scope Z_scope.

Definition ROLE_CONTEXT_SCHEMA : string := "compiled-role-context/v1".

Definition _sha256 (text : string) : string := sha256_hex (encode_utf8 text).
Definition _canonical_json (value : json) : bytes := encode_utf8 (dumps true value).

(** [st_dev, st_ino, st_size, st_mtime_ns], and what one read of a file met:
    either [stat] or the read may fail, and so may the UTF-8 decoding. *)
Definition Stat : Type := Z * Z * Z * Z.
Record FileRead := {
  before_stat : option Stat;
  raw_text : option (option string);
  after_stat : option Stat
}.

Definition _normalize_markdown (raw : option string) (label : string) : res string :=
  match raw with
  | None => Err (Exn RoleContextError (label +:+ " is not UTF-8"))
  | Some text =>
      raise_if (char_in "000"%char text) RoleContextError (label +:+ " contains a NUL byte");;
      Ok (rstrip_by (λ c, bool_decide (c = LF)) (universal_newlines text) +:+ String LF "")
  end.

Section Compiler.
(** [Path.resolve] and the file system. *)
Context (resolve : string → string) (read_file : string → FileRead).

Definition _read_stable (path label : string) : res string :=
  let candidate := if isabs (path_str path) then path_str path else resolve (path_str path) in
  let r := read_file candidate in
  match before_stat r, raw_text r, after_stat r with
  | Some before, Some raw, Some after =>
      raise_if (negb (bool_decide (before = after))) RoleContextError (label +:+ " changed while it was compiled");;
      _normalize_markdown raw label
  | _, _, _ => Err (Exn RoleContextError ("cannot read " +:+ label))
  end.

Definition _validate_identifier (value label : string) : res unit :=
  raise_if (bool_decide (value = "") || negb (bool_decide (value = py_strip value)) ||
            (char_in "000"%char value || char_in LF value || char_in CR value))
    RoleContextError ("invalid " +:+ label).

Record CompiledRoleContext := {
  schema : string;
  specialist : string;
  lane : string;
  mode_profile : string;
  canonical_role : string;
  lane_overlay : string;
  canonical_role_sha256 : string;
  lane_overlay_sha256 : string;
  prompt : string;
  sha256 : string
}.

Definition to_dict (c : CompiledRoleContext) : list (string * json) :=
  [("schema", JStr (schema c)); ("specialist", JStr (specialist c)); ("lane", JStr (lane c));
   ("mode_profile", JStr (mode_profile c)); ("canonical_role", JStr (canonical_role c));
   ("lane_overlay", JStr (lane_overlay c)); ("canonical_role_sha256", JStr (canonical_role_sha256 c));
   ("lane_overlay_sha256", JStr (lane_overlay_sha256 c)); ("prompt", JStr (prompt c)); ("sha256", JStr (sha256 c))].

(** [payload.pop("sha256")] *)
Definition _unsigned_payload (c : CompiledRoleContext) : list (string * json) :=
  List.filter (λ kv, negb (bool_decide (kv.1 = "sha256"))) (to_dict c).

Definition context_hash (c : CompiledRoleContext) : string := sha256_hex (_canonical_json (JObj (_unsigned_payload c))).

Definition nl : string := String LF "".

(** The prompt both functions build. *)
Definition expected_prompt (specialist lane mode_profile canonical_role lane_overlay : string) : string :=
  "<!-- " +:+ ROLE_CONTEXT_SCHEMA +:+ " -->" +:+ nl +:+
  "<!-- specialist:" +:+ specialist +:+ " lane:" +:+ lane +:+ " mode:" +:+ mode_profile +:+ " -->" +:+ nl +:+ nl +:+
  "## Canonical specialist role" +:+ nl +:+ nl +:+
  canonical_role +:+ nl +:+
  "## Lane overlay" +:+ nl +:+ nl +:+
  lane_overlay.

Definition with_sha256 (c : CompiledRoleContext) (h : string) : CompiledRoleContext := {|
  schema := schema c; specialist := specialist c; lane := lane c; mode_profile := mode_profile c;
  canonical_role := canonical_role c; lane_overlay := lane_overlay c;
  canonical_role_sha256 := canonical_role_sha256 c; lane_overlay_sha256 := lane_overlay_sha256 c;
  prompt := prompt c; sha256 := h
|}.

(** The packet of given texts, sealed with its hash. *)
Definition compiled (specialist lane mode_profile canonical_role lane_overlay : string) : CompiledRoleContext :=
  let partial := {|
    schema := ROLE_CONTEXT_SCHEMA; specialist := specialist; lane := lane; mode_profile := mode_profile;
    canonical_role := canonical_role; lane_overlay := lane_overlay;
    canonical_role_sha256 := _sha256 canonical_role; lane_overlay_sha256 := _sha256 lane_overlay;
    prompt := expected_prompt specialist lane mode_profile canonical_role lane_overlay; sha256 := ""
  |} in
  with_sha256 partial (context_hash partial).

Definition compile_role_context (canonical_role_path lane_overlay_path specialist lane mode_profile : string) :
    res CompiledRoleContext :=
  _validate_identifier specialist "specialist";;
  _validate_identifier lane "lane";;
  _validate_identifier mode_profile "mode/profile";;
  canonical_role ← _read_stable canonical_role_path "canonical role";
  lane_overlay ← _read_stable lane_overlay_path "lane overlay";
  Ok (compiled specialist lane mode_profile canonical_role lane_overlay).

End Compiler.

Definition verify_role_context (c : CompiledRoleContext) : res CompiledRoleContext :=
  raise_if (negb (bool_decide (schema c = ROLE_CONTEXT_SCHEMA))) RoleContextError "unsupported role-context schema";;
  for_each (λ vl, _validate_identifier vl.1 vl.2)
    [(specialist c, "specialist"); (lane c, "lane"); (mode_profile c, "mode/profile")];;
  raise_if (negb (bool_decide (canonical_role_sha256 c = _sha256 (canonical_role c)))) RoleContextError
    "canonical role hash mismatch";;
  raise_if (negb (bool_decide (lane_overlay_sha256 c = _sha256 (lane_overlay c)))) RoleContextError
    "lane overlay hash mismatch";;
  raise_if (negb (bool_decide (prompt c = expected_prompt (specialist c) (lane c) (mode_profile c) (canonical_role c) (lane_overlay c))))
    RoleContextError "compiled prompt hash input mismatch";;
  raise_if (negb (bool_decide (sha256 c = context_hash c))) RoleContextError "compiled role-context hash mismatch";;
  Ok c.

(** ** Properties *)

#[local] Opaque sha256_hex.

Lemma verify_role_context_Ok c c' :
  verify_role_context c = Ok c' ↔
  c' = c ∧ Forall (λ v, _validate_identifier v "" = Ok tt) [specialist c; lane c; mode_profile c] ∧
  c = compiled (specialist c) (lane c) (mode_profile c) (canonical_role c) (lane_overlay c).
Proof.
  assert (Hid : ∀ v l, _validate_identifier v l = Ok tt ↔ _validate_identifier v "" = Ok tt).
  { intros v l. unfold _validate_identifier. by rewrite !raise_if_Ok. }
  unfold verify_role_context. split.
  - intros H. apply bind_Ok in H as (? & Hs%raise_if_Ok%negb_false_iff & H).
    apply bind_Ok in H as (? & Hf%for_each_Ok & H).
    apply bind_Ok in H as (? & H1%raise_if_Ok%negb_false_iff & H). apply bind_Ok in H as (? & H2%raise_if_Ok%negb_false_iff & H).
    apply bind_Ok in H as (? & H3%raise_if_Ok%negb_false_iff & H). apply bind_Ok in H as (? & H4%raise_if_Ok%negb_false_iff & [= <-]).
    bool_inv. split; [done|]. split.
    { rewrite !Forall_cons in *. cbn [fst snd] in Hf. rewrite !(Hid _ "specialist"), !(Hid _ "lane"), !(Hid _ "mode/profile") in Hf. naive_solver. }
    destruct c as [sc sp la mo ro ov rs os pr sh].
    cbn [schema specialist lane mode_profile canonical_role lane_overlay canonical_role_sha256 lane_overlay_sha256 prompt sha256] in *.
    subst sc rs os pr. unfold compiled, with_sha256. f_equal. exact H4.
  - intros (-> & Hf & E). rewrite !Forall_cons in Hf. destruct Hf as (F1 & F2 & F3 & _).
    rewrite (bool_decide_eq_true_2 (schema c = _)) by (by rewrite E). cbn [negb]. rewrite raise_if_false, bind_ret.
    apply (bind_intro _ _ tt). { apply for_each_Ok. repeat constructor; cbn; by apply Hid. }
    rewrite (bool_decide_eq_true_2 (canonical_role_sha256 c = _)) by (by rewrite E).
    rewrite (bool_decide_eq_true_2 (lane_overlay_sha256 c = _)) by (by rewrite E).
    rewrite (bool_decide_eq_true_2 (prompt c = _)) by (by rewrite E).
    rewrite (bool_decide_eq_true_2 (sha256 c = _)) by (by rewrite E). done.
Qed.

Lemma compile_verifies resolve read_file rp op sp la mo c :
  compile_role_context resolve read_file rp op sp la mo = Ok c → verify_role_context c = Ok c.
Proof.
  unfold compile_role_context. intros H. apply bind_Ok in H as (? & H1 & H). apply bind_Ok in H as (? & H2 & H).
  apply bind_Ok in H as (? & H3 & H). apply bind_Ok in H as (role & _ & H). apply bind_Ok in H as (overlay & _ & [= <-]).
  apply verify_role_context_Ok. split; [done|]. split; [|done]. unfold _validate_identifier in *.
  apply raise_if_Ok in H1, H2, H3. repeat constructor; by apply raise_if_Ok.
Qed.

Definition hashed_text (c : CompiledRoleContext) : string := dumps true (JObj (_unsigned_payload c)).

Lemma verify_hash c c' : verify_role_context c = Ok c' → sha256 c = sha256_hex (encode_utf8 (hashed_text c)).
Proof.
  unfold verify_role_context. intros H. do 5 (apply bind_Ok in H as (? & _ & H)).
  apply bind_Ok in H as (? & H%raise_if_Ok%negb_false_iff & _). apply bool_decide_eq_true in H. exact H.
Qed.

(** The hashed text determines every field but the hash. *)
Lemma hashed_text_inj c d : hashed_text c = hashed_text d → c = with_sha256 d (sha256 c).
Proof.
  destruct c as [a1 a2 a3 a4 a5 a6 a7 a8 a9 a], d as [b1 b2 b3 b4 b5 b6 b7 b8 b9 b].
  unfold hashed_text. intros H%dumps_inj; [|apply json_wf_obj; split; [by_decide|by repeat constructor]..].
  rewrite !canon_obj in H. by injection H as -> -> -> -> -> -> -> -> ->.
Qed.

(** A role context is determined by its hash: two contexts that verify
    under one hash are the same in every field, unless the two named texts are
    a SHA-256 collision. *)
Theorem role_context_binds c d :
  verify_role_context c = Ok c → verify_role_context d = Ok d → sha256 c = sha256 d →
  c = d ∨ sha256_collide (hashed_text c) (hashed_text d).
Proof.
  intros Hc%verify_hash Hd%verify_hash E. pose proof (eq_trans (eq_sym Hc) (eq_trans E Hd)) as Hh.
  apply sha256_text_inj in Hh as [Hh|Hh]; [left|by right].
  rewrite (hashed_text_inj c d Hh), E. by destruct d.
Qed.

Definition demo_context : CompiledRoleContext :=
  Eval vm_compute in compiled "auditor" "codex" "project" "# Auditor" "overlay".

Lemma role_context_binds_witness :
  verify_role_context demo_context = Ok demo_context ∧
  (demo_context = demo_context ∨ sha256_collide (hashed_text demo_context) (hashed_text demo_context)).
Proof.
  assert (E : verify_role_context demo_context = Ok demo_context) by (vm_compute; reflexivity).
  split; [exact E|]. apply (role_context_binds demo_context demo_context E E eq_refl).
Defined.
