(* ===== verification/Envelope.v ===== *)
(** * The sealed runtime envelope ([runtime_envelope.py])

    The claims one fresh CLI launch is bound to, their validation, sealing
    under the supervisor's key, verification, and the launch itself.  A field
    of the claims is a JSON value (Python checks the types at run time); the
    fields that are tuples are lists. *)
From S2P Require Import Prelude Regex Sha256 Json Posix PyText Binary64 RoleContext.

#[local] Open Scope Z_scope.

Definition ENVELOPE_SCHEMA : string := "task-runtime-envelope/v1".
Definition id_char (c : ascii) : bool := is_alnum c || char_in c "._-".
(** [^TASK-[A-Za-z0-9][A-Za-z0-9._-]{3,127}$] and [^d-[0-9a-f]{32}$] *)
Definition TASK_RE : re := RSeq (rlit "TASK-") (RSeq (RChr is_alnum) (rrep 3 127 (RChr id_char))).
Definition ATTEMPT_RE : re := RSeq (rlit "d-") (rrep 32 32 hex_class).
Definition _FRESH_LANE_COMMAND : list (string * string) :=
  [("codex", "exec"); ("gpt-codex", "exec"); ("claude", "-p"); ("gemini", "-p"); ("grok", "-p")].
Definition _RESUME_ARGUMENTS : list string := ["resume"; "--resume"; "--continue"; "continue"].
Definition PROJECTED_SKILL_CONTRACT_MAX_BYTES : Z := 4096.

Definition fail {A} (msg : string) : res A := Err (Exn EnvelopeError msg).
Definition check (ok : bool) (msg : string) : res unit := raise_if (negb ok) EnvelopeError msg.

Definition _canonical_json (value : json) : string := dumps true value.

(** ** The claims *)

Record RuntimeEnvelopeClaims := {
  task_id : json;
  attempt_id : json;
  generation : json;
  run_id : json;
  lane : json;
  author_family : json;
  workload_class : json;
  packet_sha256 : json;
  role_context_sha256 : json;
  overlay_sha256 : json;
  plan_sha256 : json;
  authority_sha256 : json;
  verification_contract_sha256 : json;
  selected_model_sha256 : json;
  read_scope : list json;
  write_scope : list json;
  network_scope : list json;
  action_scope : list json;
  budgets : json;
  expected_result_path : json;
  expected_outbox_path : json;
  required_phase_ids : list json;
  verification_kinds : list json;
  operator_gates : list json;
  stage1_profile_sha256 : json;
  stage1_request_sha256 : json;
  stage1_scope_sha256 : json;
  reconciliation_nonce : json;
  created_at : json;
  expires_at : json;
  launch_attestation_sha256 : json;
  tool_attestation_sha256 : json;
  artifact_bundle_sha256 : json;
  model_history_sha256 : json;
  review_subject_sha256 : json;
  review_family : json;
  review_state : json
}.

(** [asdict], with the tuples as lists. *)
Definition asdict (c : RuntimeEnvelopeClaims) : list (string * json) :=
  [("task_id", task_id c);
   ("attempt_id", attempt_id c);
   ("generation", generation c);
   ("run_id", run_id c);
   ("lane", lane c);
   ("author_family", author_family c);
   ("workload_class", workload_class c);
   ("packet_sha256", packet_sha256 c);
   ("role_context_sha256", role_context_sha256 c);
   ("overlay_sha256", overlay_sha256 c);
   ("plan_sha256", plan_sha256 c);
   ("authority_sha256", authority_sha256 c);
   ("verification_contract_sha256", verification_contract_sha256 c);
   ("selected_model_sha256", selected_model_sha256 c);
   ("read_scope", JList (read_scope c));
   ("write_scope", JList (write_scope c));
   ("network_scope", JList (network_scope c));
   ("action_scope", JList (action_scope c));
   ("budgets", budgets c);
   ("expected_result_path", expected_result_path c);
   ("expected_outbox_path", expected_outbox_path c);
   ("required_phase_ids", JList (required_phase_ids c));
   ("verification_kinds", JList (verification_kinds c));
   ("operator_gates", JList (operator_gates c));
   ("stage1_profile_sha256", stage1_profile_sha256 c);
   ("stage1_request_sha256", stage1_request_sha256 c);
   ("stage1_scope_sha256", stage1_scope_sha256 c);
   ("reconciliation_nonce", reconciliation_nonce c);
   ("created_at", created_at c);
   ("expires_at", expires_at c);
   ("launch_attestation_sha256", launch_attestation_sha256 c);
   ("tool_attestation_sha256", tool_attestation_sha256 c);
   ("artifact_bundle_sha256", artifact_bundle_sha256 c);
   ("model_history_sha256", model_history_sha256 c);
   ("review_subject_sha256", review_subject_sha256 c);
   ("review_family", review_family c);
   ("review_state", review_state c)].

Definition TUPLE_FIELDS : list string :=
  ["read_scope"; "write_scope"; "network_scope"; "action_scope"; "required_phase_ids";
   "verification_kinds"; "operator_gates"].
Definition REQUIRED_FIELDS : list string :=
  ["task_id"; "attempt_id"; "generation"; "run_id"; "lane"; "author_family"; "workload_class";
   "packet_sha256"; "role_context_sha256"; "overlay_sha256"; "plan_sha256"; "authority_sha256";
   "verification_contract_sha256"; "selected_model_sha256"; "read_scope"; "write_scope";
   "network_scope"; "action_scope"; "budgets"; "expected_result_path"; "expected_outbox_path";
   "required_phase_ids"; "verification_kinds"; "operator_gates"; "stage1_profile_sha256";
   "stage1_request_sha256"; "stage1_scope_sha256"; "reconciliation_nonce"; "created_at";
   "expires_at"].
Definition OPTIONAL_FIELDS : list string :=
  ["launch_attestation_sha256"; "tool_attestation_sha256"; "artifact_bundle_sha256";
   "model_history_sha256"; "review_subject_sha256"; "review_family"; "review_state"].

Definition tuple_of (v : json) : list json := match v with JList l => l | _ => [] end.
Definition dict_default (k : string) (d : list (string * json)) : json := default (JStr "") (dict_get k d).

(** [RuntimeEnvelopeClaims( **d )]: [None] is the [TypeError] of a missing or
    unknown field. *)
Definition construct (d : list (string * json)) : option RuntimeEnvelopeClaims :=
  if forallb (λ k, dict_has k d) REQUIRED_FIELDS &&
     forallb (λ k, bool_decide (k ∈ REQUIRED_FIELDS ++ OPTIONAL_FIELDS)) d.*1
  then Some {|
    task_id := dget "task_id" d;
    attempt_id := dget "attempt_id" d;
    generation := dget "generation" d;
    run_id := dget "run_id" d;
    lane := dget "lane" d;
    author_family := dget "author_family" d;
    workload_class := dget "workload_class" d;
    packet_sha256 := dget "packet_sha256" d;
    role_context_sha256 := dget "role_context_sha256" d;
    overlay_sha256 := dget "overlay_sha256" d;
    plan_sha256 := dget "plan_sha256" d;
    authority_sha256 := dget "authority_sha256" d;
    verification_contract_sha256 := dget "verification_contract_sha256" d;
    selected_model_sha256 := dget "selected_model_sha256" d;
    read_scope := tuple_of (dget "read_scope" d);
    write_scope := tuple_of (dget "write_scope" d);
    network_scope := tuple_of (dget "network_scope" d);
    action_scope := tuple_of (dget "action_scope" d);
    budgets := dget "budgets" d;
    expected_result_path := dget "expected_result_path" d;
    expected_outbox_path := dget "expected_outbox_path" d;
    required_phase_ids := tuple_of (dget "required_phase_ids" d);
    verification_kinds := tuple_of (dget "verification_kinds" d);
    operator_gates := tuple_of (dget "operator_gates" d);
    stage1_profile_sha256 := dget "stage1_profile_sha256" d;
    stage1_request_sha256 := dget "stage1_request_sha256" d;
    stage1_scope_sha256 := dget "stage1_scope_sha256" d;
    reconciliation_nonce := dget "reconciliation_nonce" d;
    created_at := dget "created_at" d;
    expires_at := dget "expires_at" d;
    launch_attestation_sha256 := dict_default "launch_attestation_sha256" d;
    tool_attestation_sha256 := dict_default "tool_attestation_sha256" d;
    artifact_bundle_sha256 := dict_default "artifact_bundle_sha256" d;
    model_history_sha256 := dict_default "model_history_sha256" d;
    review_subject_sha256 := dict_default "review_subject_sha256" d;
    review_family := dict_default "review_family" d;
    review_state := dict_default "review_state" d
  |} else None.

(** ** Validation *)

Definition unsafe_text (s : string) : bool :=
  char_in "000"%char s || char_in LF s || char_in CR s.

Definition _valid_text (value : json) (label : string) : res unit :=
  check match value with
        | JStr s => negb (bool_decide (s = "")) && bool_decide (s = py_strip s) && negb (unsafe_text s)
        | _ => false
        end ("invalid " +:+ label).

Definition _validate_hash (value : json) (label : string) (optional : bool) : res unit :=
  match value with
  | JStr s => if optional && bool_decide (s = "") then Ok tt
              else check (fullmatch SHA256_RE s) ("invalid " +:+ label +:+ " hash")
  | _ => fail ("invalid " +:+ label +:+ " hash")
  end.

(** [len(set(values)) == len(values)]; unhashable elements raise. *)
Definition hashable (v : json) : bool := match v with JList _ | JObj _ => false | _ => true end.
Fixpoint distinct (vs : list json) : bool :=
  match vs with
  | [] => true
  | v :: vs => negb (existsb (py_eq v) vs) && distinct vs
  end.

Definition _validate_string_tuple (values : list json) (label : string) (required : bool) : res unit :=
  check (negb (required && bool_decide (length values = O))) (label +:+ " must be a non-empty tuple");;
  raise_if (negb (forallb hashable values)) TypeError "unhashable type";;
  check (distinct values) ("duplicate " +:+ label);;
  for_each (λ v, _valid_text v label) values.

(** [os.path.isabs(value) and os.path.normpath(value) == value] *)
Definition canonical_abs (value : json) : bool :=
  match value with JStr s => isabs s && bool_decide (normpath s = s) | _ => false end.

Definition _validate_path_tuple (values : list json) (label : string) (required : bool) : res unit :=
  _validate_string_tuple values label required;;
  for_each (λ v, check (canonical_abs v) (label +:+ " entries must be canonical absolute paths")) values.

(** [any(os.path.commonpath((result, scope)) == scope for scope in write_scope)] *)
Fixpoint any_scope (result : string) (scopes : list json) : res bool :=
  match scopes with
  | [] => Ok false
  | JStr scope :: scopes =>
      common ← commonpath result scope;
      if bool_decide (common = scope) then Ok true else any_scope result scopes
  | _ :: _ => Err (Exn TypeError "expected str, bytes or os.PathLike object")
  end.

Definition text_of (v : json) : string := match v with JStr s => s | _ => "" end.

Definition nonneg_int (v : json) : bool := match v with JInt z => 0 <=? z | _ => false end.

(** [RuntimeEnvelopeClaims.validate] *)
Definition validate (c : RuntimeEnvelopeClaims) : res unit :=
  check match task_id c with JStr s => fullmatch TASK_RE s | _ => false end "invalid task id";;
  check match attempt_id c with JStr s => fullmatch ATTEMPT_RE s | _ => false end "invalid attempt id";;
  check match generation c with JInt z => 0 <? z | _ => false end "generation must be a positive integer";;
  for_each (λ vl, _valid_text vl.1 vl.2)
    [(run_id c, "run id"); (lane c, "lane"); (author_family c, "author family");
     (workload_class c, "workload class"); (expected_result_path c, "expected result path");
     (expected_outbox_path c, "expected outbox path"); (reconciliation_nonce c, "reconciliation nonce")];;
  for_each (λ vl, _validate_hash vl.1 vl.2 false)
    [(packet_sha256 c, "packet"); (role_context_sha256 c, "role context"); (overlay_sha256 c, "overlay");
     (plan_sha256 c, "plan"); (authority_sha256 c, "authority");
     (verification_contract_sha256 c, "verification contract"); (selected_model_sha256 c, "selected model");
     (stage1_profile_sha256 c, "Stage-1 profile"); (stage1_request_sha256 c, "Stage-1 request");
     (stage1_scope_sha256 c, "Stage-1 scope")];;
  for_each (λ vl, _validate_hash vl.1 vl.2 true)
    [(launch_attestation_sha256 c, "launch attestation"); (tool_attestation_sha256 c, "tool attestation");
     (artifact_bundle_sha256 c, "artifact bundle"); (model_history_sha256 c, "model history");
     (review_subject_sha256 c, "review subject")];;
  _validate_path_tuple (read_scope c) "read scope" false;;
  _validate_path_tuple (write_scope c) "write scope" true;;
  _validate_string_tuple (network_scope c) "network scope" false;;
  _validate_string_tuple (action_scope c) "action scope" true;;
  _validate_string_tuple (required_phase_ids c) "required phase id"
    (negb (py_eq (JList (verification_kinds c)) (JList [JStr "artifact_written"])));;
  _validate_string_tuple (verification_kinds c) "verification kind" true;;
  _validate_string_tuple (operator_gates c) "operator gate" false;;
  for_each (λ vl, check (canonical_abs vl.1) (vl.2 +:+ " must be a canonical absolute path"))
    [(expected_result_path c, "expected result path"); (expected_outbox_path c, "expected outbox path")];;
  inside ← any_scope (text_of (expected_result_path c)) (write_scope c);
  check inside "expected result path is outside the authorized write scope";;
  check match budgets c with JObj (_ :: _) => true | _ => false end "budgets must be a non-empty mapping";;
  for_each (λ nv, _valid_text (JStr nv.1) "budget name";;
                  check (nonneg_int nv.2) "budget values must be non-negative integers")
    match budgets c with JObj items => items | _ => [] end;;
  check (nonneg_int (created_at c)) "created_at must be a non-negative integer";;
  check match created_at c, expires_at c with JInt a, JInt e => a <? e | _, _ => false end
    "expires_at must be later than created_at";;
  (if truthy (review_family c) then _valid_text (review_family c) "review family" else Ok tt);;
  (if truthy (review_state c) then _valid_text (review_state c) "review state" else Ok tt).

(** [payload["budgets"] = dict(sorted(self.budgets.items()))] *)
Definition sorted_items (v : json) : json :=
  match v with JObj items => JObj (sort_by key_leb items) | _ => v end.

Definition to_payload (c : RuntimeEnvelopeClaims) : res (list (string * json)) :=
  validate c;;
  Ok (dict_set "budgets" (sorted_items (budgets c)) (asdict c)).

(** ** Sealing *)

Record SealedRuntimeEnvelope := {
  env_schema : string;
  payload_json : string;
  payload_sha256 : string;
  mac_sha256 : string;
  envelope_sha256 : string
}.

Definition worker_projection (e : SealedRuntimeEnvelope) : res (list (string * json)) :=
  match loads (payload_json e) with
  | Some payload =>
      Ok [("schema", JStr (env_schema e)); ("payload", payload);
          ("payload_sha256", JStr (payload_sha256 e)); ("envelope_sha256", JStr (envelope_sha256 e))]
  | None => Err (Exn ValueError "payload is not JSON")
  end.

Definition _key (signing_key : bytes) : res bytes :=
  check (16 <=? Z.of_nat (length signing_key)) "supervisor signing key must contain at least 16 bytes";;
  Ok signing_key.

(** The digest over schema, payload and MAC, one per line. *)
Definition envelope_digest (payload : bytes) (mac : string) : string :=
  sha256_hex (encode_utf8 ENVELOPE_SCHEMA ++ [10] ++ payload ++ [10] ++ encode_utf8 mac).

Definition seal_runtime_envelope (claims : RuntimeEnvelopeClaims) (signing_key : bytes) : res SealedRuntimeEnvelope :=
  payload ← to_payload claims;
  let text := _canonical_json (JObj payload) in
  let payload_bytes := encode_utf8 text in
  key ← _key signing_key;
  let mac := hmac_sha256_hex key payload_bytes in
  Ok {| env_schema := ENVELOPE_SCHEMA; payload_json := text; payload_sha256 := sha256_hex payload_bytes;
        mac_sha256 := mac; envelope_sha256 := envelope_digest payload_bytes mac |}.

Definition _claims_from_payload (payload : list (string * json)) : res RuntimeEnvelopeClaims :=
  for_each (λ f, check match dget f payload with JList _ => true | _ => false end ("invalid serialized " +:+ f))
    TUPLE_FIELDS;;
  match construct payload with
  | None => fail "runtime envelope claim schema mismatch"
  | Some claims => validate claims;; Ok claims
  end.

(** What the launcher expects; [None] leaves the test out. *)
Record Expectation := {
  expected_task_id : option string;
  expected_attempt_id : option string;
  expected_generation : option Z;
  now : option Z
}.

Definition matches (expected : option json) (v : json) : bool :=
  match expected with None => true | Some e => py_eq v e end.

Definition before_now (now : Z) (v : json) : bool := match v with JInt t => t <=? now | _ => false end.
Definition not_past (now : Z) (v : json) : bool := match v with JInt t => now <=? t | _ => false end.

(** The tests of the claims against the launcher's expectation. *)
Definition check_expected (claims : RuntimeEnvelopeClaims) (x : Expectation) : res unit :=
  check (matches (JStr <$> expected_task_id x) (task_id claims)) "task id does not match launch authority";;
  check (matches (JStr <$> expected_attempt_id x) (attempt_id claims)) "attempt id does not match launch authority";;
  check (matches (JInt <$> expected_generation x) (generation claims)) "stale generation";;
  match now x with
  | None => Ok tt
  | Some now =>
      check (before_now now (created_at claims)) "runtime envelope is not yet valid";;
      check (not_past now (expires_at claims)) "runtime envelope expired"
  end.

Definition verify_runtime_envelope (e : SealedRuntimeEnvelope) (signing_key : bytes) (x : Expectation) :
    res RuntimeEnvelopeClaims :=
  check (bool_decide (env_schema e = ENVELOPE_SCHEMA)) "unsupported runtime envelope";;
  check (is_ascii_str (payload_json e)) "runtime envelope payload is not canonical JSON";;
  let raw_payload := encode_utf8 (payload_json e) in
  match loads (payload_json e) with
  | Some (JObj decoded) =>
      check (bool_decide (_canonical_json (JObj decoded) = payload_json e))
        "runtime envelope payload is not canonical JSON";;
      check (bool_decide (sha256_hex raw_payload = payload_sha256 e)) "runtime envelope payload hash mismatch";;
      key ← _key signing_key;
      let expected_mac := hmac_sha256_hex key raw_payload in
      same ← compare_digest expected_mac (mac_sha256 e);
      check same "runtime envelope MAC mismatch";;
      same ← compare_digest (envelope_digest raw_payload (mac_sha256 e)) (envelope_sha256 e);
      check same "runtime envelope hash mismatch";;
      claims ← _claims_from_payload decoded;
      check_expected claims x;;
      Ok claims
  | _ => fail "runtime envelope payload is not canonical JSON"
  end.

(** ** The launch *)

Definition SKILLS_HEAD : string :=
  nl +:+ nl +:+ "## Projected specialist methodologies" +:+ nl +:+ nl +:+ "Authenticated projected skill names: `".
Definition SKILLS_TAIL : string :=
  "`." +:+ nl +:+
  "This list is an assignment, not proof that the runtime loaded the " +:+
  "skill bodies. Before task execution, resolve every projected " +:+
  "methodology by its runtime skill mechanism and follow the ones that " +:+
  "apply. If any name cannot be resolved, stop and report " +:+
  "`capability_gap` instead of silently proceeding without it. In the " +:+
  "result, report `skills_resolved`, `skills_applied`, and `skill_gaps`." +:+ nl +:+ nl.

Definition projected_skill_contract (skills : list json) : res string :=
  _validate_string_tuple skills "projected skill" false;;
  match skills with
  | [] => Ok ""
  | _ =>
      let encoded := dumps true (JList skills) in
      check (Z.of_nat (String.length encoded) <=? PROJECTED_SKILL_CONTRACT_MAX_BYTES)
        "projected skill contract exceeds its byte limit";;
      Ok (SKILLS_HEAD +:+ encoded +:+ SKILLS_TAIL)
  end.

(** [argument.casefold() in _RESUME_ARGUMENTS or argument.casefold().startswith("--resume=")] *)
Definition resumes (argument : string) : bool :=
  bool_decide (py_casefold argument ∈ _RESUME_ARGUMENTS) || startswith (py_casefold argument) "--resume=".

Definition normalized_arg (argument : json) : res string :=
  match argument with
  | JStr s =>
      check (negb (bool_decide (s = "") || unsafe_text s)) "fresh CLI arguments contain an invalid value";;
      check (negb (resumes s)) "fresh CLI launch cannot resume an existing session";;
      Ok s
  | _ => fail "fresh CLI arguments contain an invalid value"
  end.

Definition _fresh_cli_command (lane executable prompt : string) (lane_args : list json) : res (list string) :=
  let executable_text := path_str executable in
  check (isabs executable_text && negb (unsafe_text executable_text))
    "fresh CLI executable must be an absolute safe path";;
  match dict_get lane _FRESH_LANE_COMMAND with
  | None => fail "unsupported fresh CLI lane"
  | Some verb =>
      normalized_args ← map_res normalized_arg lane_args;
      Ok (if bool_decide (verb = "exec") then executable_text :: verb :: normalized_args ++ [prompt]
          else executable_text :: verb :: prompt :: normalized_args)
  end.

(** The call made of the launcher. *)
Record LauncherCall := {
  command : list string;
  expected_profile_sha256 : json;
  expected_request_sha256 : json;
  expected_scope_sha256 : json;
  timeout : float
}.

Definition is_role_context_error (k : exn_class) : bool := match k with RoleContextError => true | _ => false end.

Definition launch_prompt (role_prompt skill_contract projection_json : string) : string :=
  rstrip_by py_isspace role_prompt +:+ nl +:+ nl +:+
  lstrip_by py_isspace skill_contract +:+
  "## Read-only task runtime envelope" +:+ nl +:+ nl +:+
  "```json" +:+ nl +:+ projection_json +:+ nl +:+ "```" +:+ nl.

Definition launch_task (e : SealedRuntimeEnvelope) (signing_key : bytes) (role_context : CompiledRoleContext)
    (executable task attempt : string) (gen at_time : Z) (lane_args projected_skills : list json)
    (timeout_seconds : float) : res LauncherCall :=
  claims ← verify_runtime_envelope e signing_key
    {| expected_task_id := Some task; expected_attempt_id := Some attempt;
       expected_generation := Some gen; now := Some at_time |};
  reraise is_role_context_error EnvelopeError (verify_role_context role_context);;
  check (py_eq (role_context_sha256 claims) (JStr (sha256 role_context))) "role context does not match sealed envelope";;
  check (py_eq (lane claims) (JStr (RoleContext.lane role_context))) "role context lane does not match sealed envelope";;
  projection ← worker_projection e;
  skill_contract ← projected_skill_contract projected_skills;
  command ← _fresh_cli_command (text_of (lane claims)) executable
    (launch_prompt (prompt role_context) skill_contract (_canonical_json (JObj projection))) lane_args;
  Ok {| command := command;
        expected_profile_sha256 := stage1_profile_sha256 claims;
        expected_request_sha256 := stage1_request_sha256 claims;
        expected_scope_sha256 := stage1_scope_sha256 claims;
        timeout := timeout_seconds |}.
