(* ===== verification/EnvelopeProps.v ===== *)
(** * What sealing and verifying an envelope guarantee

    [validate_facts] reads the type checks back as the shape of the claims;
    [construct_perm] and [decoded_payload] carry claims through the JSON text. *)
From S2P Require Import Prelude Regex Sha256 Json Posix PyText Binary64 RoleContext Envelope.

#[local] Open Scope Z_scope.
#[local] Opaque sha256_hex hmac_sha256_hex.

Ltac forall_split := repeat first [apply Forall_nil_2 | apply Forall_cons_2].

(** ** Reading the checks back *)

Lemma check_Ok ok msg u : check ok msg = Ok u ↔ ok = true.
Proof. unfold check. rewrite raise_if_Ok. apply negb_false_iff. Qed.

Lemma valid_text_Ok v label u :
  _valid_text v label = Ok u ↔ ∃ s, v = JStr s ∧ s ≠ "" ∧ s = py_strip s ∧ unsafe_text s = false.
Proof.
  unfold _valid_text. rewrite check_Ok. destruct v; try (split; [done|by intros (? & [=] & _)]).
  rewrite !andb_true_iff, !negb_true_iff, bool_decide_eq_false, bool_decide_eq_true. naive_solver.
Qed.

Lemma validate_hash_str v label o u : _validate_hash v label o = Ok u → ∃ s, v = JStr s.
Proof. destruct v; try done. eauto. Qed.

(** A tuple of strings without repetition. *)
Definition str_tuple (vs : list json) : Prop := ∃ l, vs = map JStr l ∧ NoDup l.

Lemma distinct_strs l : distinct (map JStr l) = true → NoDup l.
Proof.
  induction l as [|s l IH]; cbn [map distinct]; [constructor|]. intros [Hn%negb_true_iff Hd]%andb_true_iff.
  constructor; [|by apply IH]. intros Hin. assert (existsb (py_eq (JStr s)) (map JStr l) = true); [|congruence].
  apply existsb_exists. exists (JStr s). split; [by apply list_elem_of_In, list_elem_of_fmap_2|].
  cbn. by rewrite bool_decide_eq_true_2.
Qed.

Lemma string_tuple_Ok vs label required u :
  _validate_string_tuple vs label required = Ok u →
  str_tuple vs ∧ (required = true → vs ≠ []) ∧ Forall (λ v, _valid_text v label = Ok tt) vs.
Proof.
  unfold _validate_string_tuple. intros H. apply bind_Ok in H as (? & Hr%check_Ok & H).
  apply bind_Ok in H as (? & _ & H). apply bind_Ok in H as (? & Hd%check_Ok & H). apply for_each_Ok in H. split_and!.
  - assert (∃ l, vs = map JStr l) as (l & ->).
    { clear -H. induction H as [|v vs Hv _ (l & ->)]; [by exists []|].
      apply valid_text_Ok in Hv as (s & -> & _). by exists (s :: l). }
    exists l. split; [done|]. by apply distinct_strs.
  - intros -> ->. done.
  - done.
Qed.

Lemma path_tuple_Ok vs label required u :
  _validate_path_tuple vs label required = Ok u →
  str_tuple vs ∧ (required = true → vs ≠ []) ∧ Forall (λ v, canonical_abs v = true) vs.
Proof.
  unfold _validate_path_tuple. intros H. apply bind_Ok in H as ([] & (Hs & Hr & _)%string_tuple_Ok & H).
  split; [done|]. split; [done|]. apply for_each_Ok in H. eapply Forall_impl; [exact H|]. intros v. apply check_Ok.
Qed.

Lemma any_scope_true result scopes :
  any_scope result scopes = Ok true → ∃ scope, JStr scope ∈ scopes ∧ commonpath result scope = Ok scope.
Proof.
  induction scopes as [|v scopes IH]; [done|]. destruct v as [| | |s| |]; try done. cbn [any_scope].
  intros (common & Hc & H)%bind_Ok. case_bool_decide as E.
  - subst common. exists s. split; [by left|done].
  - destruct (IH H) as (t & Ht & ?). exists t. split; [by right|done].
Qed.

(** ** The shape of validated claims *)

(** A value that is what its JSON text reads back to. *)
Definition plain (v : json) : Prop := json_wf v = true ∧ json_canon v = v.

Lemma plain_tuple vs : str_tuple vs → plain (JList vs).
Proof.
  intros (l & -> & _). split; [by apply json_wf_list, Forall_map, Forall_true|].
  cbn. f_equal. rewrite map_map. by apply map_ext.
Qed.
Lemma plain_falsy v : truthy v = false → plain v.
Proof.
  destruct v as [| | | |l|d]; try done; cbn [truthy]; intros H%negb_false_iff%bool_decide_eq_true;
    [by destruct l|by destruct d].
Qed.

(** Budgets as the mapping they must be: names to non-negative integers. *)
Definition budget_items (items : list (string * json)) : Prop :=
  items ≠ [] ∧ Forall (λ nv, _valid_text (JStr nv.1) "budget name" = Ok tt ∧ nonneg_int nv.2 = true) items.

Record claims_shape (c : RuntimeEnvelopeClaims) : Prop := {
  cs_strs : Forall (λ v, ∃ s, v = JStr s)
    [task_id c; attempt_id c; run_id c; lane c; author_family c; workload_class c; packet_sha256 c;
     role_context_sha256 c; overlay_sha256 c; plan_sha256 c; authority_sha256 c;
     verification_contract_sha256 c; selected_model_sha256 c; expected_result_path c; expected_outbox_path c;
     stage1_profile_sha256 c; stage1_request_sha256 c; stage1_scope_sha256 c; reconciliation_nonce c;
     launch_attestation_sha256 c; tool_attestation_sha256 c; artifact_bundle_sha256 c; model_history_sha256 c;
     review_subject_sha256 c];
  cs_ints : Forall (λ v, ∃ z, v = JInt z) [generation c; created_at c; expires_at c];
  cs_tuples : Forall str_tuple
    [read_scope c; write_scope c; network_scope c; action_scope c; required_phase_ids c; verification_kinds c;
     operator_gates c];
  cs_budgets : ∃ items, budgets c = JObj items ∧ budget_items items;
  cs_review : Forall (λ v, (∃ s, v = JStr s) ∨ truthy v = false) [review_family c; review_state c];
  cs_inside : ∃ result scope, expected_result_path c = JStr result ∧ JStr scope ∈ write_scope c ∧
    canonical_abs (JStr result) = true ∧ canonical_abs (JStr scope) = true ∧ commonpath result scope = Ok scope
}.

Lemma is_str_match (v : json) (p : string → bool) :
  match v with JStr s => p s | _ => false end = true → ∃ s, v = JStr s.
Proof. destruct v; try done. eauto. Qed.

Lemma validate_shape c u : validate c = Ok u → claims_shape c.
Proof.
  destruct u. unfold validate. intros H.
  apply bind_Ok in H as (? & H1%check_Ok%is_str_match & H). apply bind_Ok in H as (? & H2%check_Ok%is_str_match & H).
  apply bind_Ok in H as (? & H3%check_Ok & H). apply bind_Ok in H as (? & H4%for_each_Ok & H).
  apply bind_Ok in H as (? & H5%for_each_Ok & H). apply bind_Ok in H as (? & H6%for_each_Ok & H).
  apply bind_Ok in H as (? & (H7 & _)%path_tuple_Ok & H). apply bind_Ok in H as (? & (H8 & _ & Hw)%path_tuple_Ok & H).
  apply bind_Ok in H as (? & (H9 & _)%string_tuple_Ok & H). apply bind_Ok in H as (? & (H10 & _)%string_tuple_Ok & H).
  apply bind_Ok in H as (? & (H11 & _)%string_tuple_Ok & H). apply bind_Ok in H as (? & (H12 & _)%string_tuple_Ok & H).
  apply bind_Ok in H as (? & (H13 & _)%string_tuple_Ok & H). apply bind_Ok in H as (? & H14%for_each_Ok & H).
  apply bind_Ok in H as (inside & Hin & H). apply bind_Ok in H as (? & ->%check_Ok & H).
  apply bind_Ok in H as (? & H15%check_Ok & H). apply bind_Ok in H as (? & H16%for_each_Ok & H).
  apply bind_Ok in H as (? & H17%check_Ok & H). apply bind_Ok in H as (? & H18%check_Ok & H).
  apply bind_Ok in H as ([] & H19 & H20).
  repeat rewrite Forall_cons in H4. repeat rewrite Forall_cons in H5. repeat rewrite Forall_cons in H6.
  repeat rewrite Forall_cons in H14. cbn [fst snd] in *.
  destruct H4 as (T1 & T2 & T3 & T4 & T5 & T6 & T7 & _).
  apply valid_text_Ok in T1 as (? & T1 & _), T2 as (? & T2 & _), T3 as (? & T3 & _), T4 as (? & T4 & _),
    T5 as (? & T5 & _), T6 as (? & T6 & _), T7 as (? & T7 & _).
  destruct H5 as (U1 & U2 & U3 & U4 & U5 & U6 & U7 & U8 & U9 & U10 & _). destruct H6 as (V1 & V2 & V3 & V4 & V5 & _).
  destruct H14 as (W1%check_Ok & _ & _).
  assert (Htext : ∀ v l, (if truthy v then _valid_text v l else Ok tt) = Ok tt → (∃ s, v = JStr s) ∨ truthy v = false).
  { intros v l. destruct (truthy v) eqn:E; [|by right]. intros (s & -> & _)%valid_text_Ok. eauto. }
  split.
  - forall_split; eauto using validate_hash_str.
  - forall_split; [destruct (generation c)|destruct (created_at c)|destruct (created_at c), (expires_at c)]; try done; eauto.
  - forall_split; done.
  - destruct (budgets c) as [| | | | |items]; try done. exists items. split; [done|]. split; [by intros ->|].
    eapply Forall_impl; [exact H16|]. intros nv Hnv. cbn in Hnv. apply bind_Ok in Hnv as ([] & ? & ?%check_Ok). done.
  - forall_split; eauto.
  - rewrite T5 in *. cbn [text_of] in Hin. apply any_scope_true in Hin as (scope & Hs & Hc).
    eexists _, scope. split; [done|]. split; [done|]. split; [done|]. split; [|done].
    rewrite Forall_forall in Hw. by apply Hw.
Qed.

(** ** Through the JSON text and back *)

Definition with_budgets (c : RuntimeEnvelopeClaims) (v : json) : RuntimeEnvelopeClaims := {|
  task_id := task_id c;
  attempt_id := attempt_id c;
  generation := generation c;
  run_id := run_id c;
  lane := lane c;
  author_family := author_family c;
  workload_class := workload_class c;
  packet_sha256 := packet_sha256 c;
  role_context_sha256 := role_context_sha256 c;
  overlay_sha256 := overlay_sha256 c;
  plan_sha256 := plan_sha256 c;
  authority_sha256 := authority_sha256 c;
  verification_contract_sha256 := verification_contract_sha256 c;
  selected_model_sha256 := selected_model_sha256 c;
  read_scope := read_scope c;
  write_scope := write_scope c;
  network_scope := network_scope c;
  action_scope := action_scope c;
  budgets := v;
  expected_result_path := expected_result_path c;
  expected_outbox_path := expected_outbox_path c;
  required_phase_ids := required_phase_ids c;
  verification_kinds := verification_kinds c;
  operator_gates := operator_gates c;
  stage1_profile_sha256 := stage1_profile_sha256 c;
  stage1_request_sha256 := stage1_request_sha256 c;
  stage1_scope_sha256 := stage1_scope_sha256 c;
  reconciliation_nonce := reconciliation_nonce c;
  created_at := created_at c;
  expires_at := expires_at c;
  launch_attestation_sha256 := launch_attestation_sha256 c;
  tool_attestation_sha256 := tool_attestation_sha256 c;
  artifact_bundle_sha256 := artifact_bundle_sha256 c;
  model_history_sha256 := model_history_sha256 c;
  review_subject_sha256 := review_subject_sha256 c;
  review_family := review_family c;
  review_state := review_state c
|}.

(** The claims as the worker reads them: the budgets by name. *)
Definition normalized (c : RuntimeEnvelopeClaims) : RuntimeEnvelopeClaims := with_budgets c (sorted_items (budgets c)).
Definition payload_of (c : RuntimeEnvelopeClaims) : list (string * json) :=
  dict_set "budgets" (sorted_items (budgets c)) (asdict c).
Definition budget_keys (c : RuntimeEnvelopeClaims) : list string :=
  match budgets c with JObj items => items.*1 | _ => [] end.

Lemma payload_keys c : (payload_of c).*1 = REQUIRED_FIELDS ++ OPTIONAL_FIELDS.
Proof. vm_compute. reflexivity. Qed.
Lemma payload_nodup c : NoDup (payload_of c).*1.
Proof. rewrite payload_keys. by_decide. Qed.
Lemma payload_asdict c : payload_of c = asdict (normalized c).
Proof. vm_compute. reflexivity. Qed.
Lemma construct_payload c : construct (payload_of c) = Some (normalized c).
Proof. vm_compute. reflexivity. Qed.
Lemma payload_tuples c :
  Forall (λ f, ∃ l, dget f (payload_of c) = JList l) TUPLE_FIELDS.
Proof. forall_split; eexists; vm_compute; reflexivity. Qed.

(** Constructing claims does not depend on the order of the keys. *)
Lemma construct_perm d e : NoDup d.*1 → d ≡ₚ e → construct d = construct e.
Proof.
  intros Hd Hp. pose proof (λ k, dict_get_perm k d e Hd Hp) as Hg. unfold construct, dict_has, dget, dict_default.
  assert (Hk : forallb (λ k, bool_decide (k ∈ REQUIRED_FIELDS ++ OPTIONAL_FIELDS)) d.*1 =
               forallb (λ k, bool_decide (k ∈ REQUIRED_FIELDS ++ OPTIONAL_FIELDS)) e.*1).
  { apply eq_true_iff_eq. rewrite !forallb_forall. setoid_rewrite <- list_elem_of_In. by setoid_rewrite Hp. }
  rewrite Hk. destruct (forallb _ e.*1); [|by rewrite !andb_false_r].
  unfold REQUIRED_FIELDS. cbn [forallb]. by rewrite !Hg.
Qed.

(** Every field of validated claims is its own canonical form. *)
Lemma plain_payload c :
  claims_shape c → NoDup (budget_keys c) → Forall (λ kv, plain kv.2) (payload_of c).
Proof.
  intros [Hs Hi Ht (items & Hb & _ & Hit) Hr _] Hnd. unfold budget_keys in Hnd. rewrite Hb in Hnd.
  assert (Hplain : plain (sorted_items (budgets c))).
  { rewrite Hb. cbn. assert (Hv : Forall (λ kv, plain kv.2) (sort_by key_leb items)).
    { rewrite sort_by_perm. eapply Forall_impl; [exact Hit|]. intros [k []]; by intros [_ ?]. }
    split.
    - apply json_wf_obj. split; [by rewrite (sort_by_perm key_leb items)|]. eapply Forall_impl; [exact Hv|]. by intros ? [].
    - rewrite canon_obj. f_equal. rewrite (sort_by_id key_leb (sort_by key_leb items))
        by (apply sort_by_sorted; [apply key_leb_total|apply key_leb_trans]).
      rewrite <- (map_id (sort_by key_leb items)) at 2. apply map_ext_in. intros [k v] Hin%list_elem_of_In.
      rewrite Forall_forall in Hv. cbn. f_equal. by apply (Hv (k, v)). }
  apply (Forall_impl _ plain) in Hs; [|by intros ? (? & ->)]. apply (Forall_impl _ plain) in Hi; [|by intros ? (? & ->)].
  apply (Forall_impl _ (λ l, plain (JList l))) in Ht; [|by intros ? ?%plain_tuple].
  apply (Forall_impl _ plain) in Hr; [|by intros ? [(? & ->)|?%plain_falsy]].
  repeat rewrite Forall_cons in Hs. repeat rewrite Forall_cons in Hi. repeat rewrite Forall_cons in Ht. repeat rewrite Forall_cons in Hr.
  destruct_and!. rewrite payload_asdict. unfold asdict, normalized. forall_split; cbn; assumption.
Qed.

(** The decoded payload is the payload by field name. *)
Lemma decoded_payload c :
  claims_shape c → NoDup (budget_keys c) →
  loads (_canonical_json (JObj (payload_of c))) = Some (JObj (sort_by key_leb (payload_of c))) ∧
  _canonical_json (JObj (sort_by key_leb (payload_of c))) = _canonical_json (JObj (payload_of c)).
Proof.
  intros Hsh Hb. pose proof (plain_payload c Hsh Hb) as Hp.
  assert (Hwf : json_wf (JObj (payload_of c)) = true).
  { apply json_wf_obj. split; [apply payload_nodup|]. eapply Forall_impl; [exact Hp|]. by intros ? []. }
  assert (Hcanon : json_canon (JObj (payload_of c)) = JObj (sort_by key_leb (payload_of c))).
  { rewrite canon_obj. f_equal. rewrite <- (map_id (sort_by key_leb _)) at 2. apply map_ext_in.
    intros [k v] Hin%list_elem_of_In. rewrite elem_of_sort_by in Hin. rewrite Forall_forall in Hp. cbn. f_equal. by apply (Hp (k, v)). }
  rewrite <- Hcanon. split; [by apply loads_dumps|by apply dumps_canon].
Qed.

(** Sorting the budgets keeps the claims valid. *)
Lemma validate_normalized c : validate c = Ok tt → validate (normalized c) = Ok tt.
Proof.
  intros H. assert (Hb : ∃ items, budgets c = JObj items) by (apply validate_shape in H as [? ? ? (items & -> & _)]; eauto).
  destruct Hb as (items & Hb). unfold normalized, validate in *. cbn -[_valid_text any_scope]. rewrite Hb in H |- *. cbn [sorted_items].
  do 14 (apply bind_Ok in H as ([] & ? & H); apply (bind_intro _ _ tt); [assumption|]).
  apply bind_Ok in H as (inside & Hin & H). apply (bind_intro _ _ inside); [assumption|].
  apply bind_Ok in H as ([] & ? & H). apply (bind_intro _ _ tt); [assumption|].
  apply bind_Ok in H as ([] & Hne & H). apply (bind_intro _ _ tt).
  { apply check_Ok in Hne. apply check_Ok. destruct items as [|kv items]; [done|].
    destruct (sort_by key_leb (kv :: items)) eqn:E; [|done]. apply (f_equal length) in E. by rewrite sort_by_perm in E. }
  apply bind_Ok in H as ([] & Hv & H). apply (bind_intro _ _ tt); [|exact H].
  apply for_each_Ok in Hv. apply for_each_Ok. by rewrite sort_by_perm.
Qed.

Lemma claims_from_payload_Ok decoded c :
  _claims_from_payload decoded = Ok c ↔
  Forall (λ f, ∃ l, dget f decoded = JList l) TUPLE_FIELDS ∧ construct decoded = Some c ∧ validate c = Ok tt.
Proof.
  unfold _claims_from_payload. rewrite bind_Ok. setoid_rewrite for_each_Ok.
  assert (Hf : Forall (λ f, check match dget f decoded with JList _ => true | _ => false end ("invalid serialized " +:+ f) = Ok tt) TUPLE_FIELDS
    ↔ Forall (λ f, ∃ l, dget f decoded = JList l) TUPLE_FIELDS).
  { apply Forall_iff. intros f. rewrite check_Ok. destruct (dget f decoded); naive_solver. }
  rewrite <- Hf. destruct (construct decoded) as [c'|]; [|naive_solver].
  split.
  - intros (_ & ? & ([] & ? & [= ->])%bind_Ok). done.
  - intros (? & [= ->] & Hv). exists tt. split; [done|]. by rewrite Hv.
Qed.

Lemma check_normalized c x : check_expected (normalized c) x = check_expected c x.
Proof. done. Qed.

Lemma key_Ok k k' : _key k = Ok k' ↔ k' = k ∧ (16 <= Z.of_nat (length k)).
Proof.
  unfold _key. rewrite bind_Ok. setoid_rewrite check_Ok. split.
  - intros (_ & ? & [= ->]). split; [done|lia].
  - intros [-> ?]. exists tt. split; [lia|done].
Qed.

Lemma seal_Ok c key e :
  seal_runtime_envelope c key = Ok e ↔
  validate c = Ok tt ∧ 16 <= Z.of_nat (length key) ∧
  let text := _canonical_json (JObj (payload_of c)) in
  let mac := hmac_sha256_hex key (encode_utf8 text) in
  e = {| env_schema := ENVELOPE_SCHEMA; payload_json := text; payload_sha256 := sha256_hex (encode_utf8 text);
         mac_sha256 := mac; envelope_sha256 := envelope_digest (encode_utf8 text) mac |}.
Proof.
  unfold seal_runtime_envelope, to_payload. split.
  - intros (p & ([] & Hv & Hp)%bind_Ok & H)%bind_Ok. apply bind_Ok in H as (k & [-> Hk]%key_Ok & H).
    split; [done|]. split; [done|]. injection Hp as <-. injection H as <-. exact eq_refl.
  - intros (Hv & Hk & ->). 
    apply (bind_intro _ _ (payload_of c)); [by rewrite Hv|]. apply (bind_intro _ _ key); [by apply key_Ok|]. exact eq_refl.
Qed.

Lemma sha256_ascii m : is_ascii_str (sha256_hex m) = true.
Proof. apply sha256_re_ascii, sha256_hex_shape. Qed.

Lemma check_bind_Ok {A} b msg (m : res A) a : (check b msg ;; m) = Ok a ↔ b = true ∧ m = Ok a.
Proof.
  rewrite bind_Ok. setoid_rewrite check_Ok. split; [by intros (? & ? & ?)|intros [? ?]; by exists tt].
Qed.

(** A digest comparison that passes, for a computed digest. *)
Lemma compare_bind_Ok {A} d v msg (m : res A) a :
  is_ascii_str d = true → (same ← compare_digest d v; check same msg ;; m) = Ok a ↔ v = d ∧ m = Ok a.
Proof.
  intros Hd. rewrite bind_Ok. setoid_rewrite check_bind_Ok. split.
  - intros (same & Hc & Hs & ?). apply compare_digest_Ok in Hc; [|done]. subst. bool_inv. done.
  - intros [-> ?]. exists true. split; [by apply compare_digest_same|done].
Qed.

Lemma expected_bind_Ok m x c :
  (claims ← m; check_expected claims x;; Ok claims) = Ok c ↔ m = Ok c ∧ check_expected c x = Ok tt.
Proof.
  rewrite bind_Ok. split.
  - intros (c' & Hm & ([] & Hx & [= ->])%bind_Ok). done.
  - intros [-> Hx]. exists c. split; [done|]. by rewrite Hx.
Qed.

Lemma verify_Ok e key x c :
  verify_runtime_envelope e key x = Ok c ↔
  env_schema e = ENVELOPE_SCHEMA ∧ is_ascii_str (payload_json e) = true ∧ 16 <= Z.of_nat (length key) ∧
  ∃ decoded, loads (payload_json e) = Some (JObj decoded) ∧ _canonical_json (JObj decoded) = payload_json e ∧
    payload_sha256 e = sha256_hex (encode_utf8 (payload_json e)) ∧
    mac_sha256 e = hmac_sha256_hex key (encode_utf8 (payload_json e)) ∧
    envelope_sha256 e = envelope_digest (encode_utf8 (payload_json e)) (mac_sha256 e) ∧
    _claims_from_payload decoded = Ok c ∧ check_expected c x = Ok tt.
Proof.
  unfold verify_runtime_envelope. rewrite !check_bind_Ok, bool_decide_eq_true.
  destruct (loads (payload_json e)) as [[| | | | |decoded]|]; try naive_solver.
  rewrite !check_bind_Ok, !bool_decide_eq_true, bind_Ok. setoid_rewrite key_Ok.
  setoid_rewrite (compare_bind_Ok (hmac_sha256_hex _ _)); [|apply hmac_ascii].
  setoid_rewrite (compare_bind_Ok (envelope_digest _ _)); [|apply sha256_ascii].
  setoid_rewrite expected_bind_Ok. split.
  - intros (? & ? & ? & ? & k & (-> & ?) & ? & ? & ? & ?). split; [done|]. split; [done|]. split; [done|]. exists decoded. by split_and!.
  - intros (? & ? & ? & ? & [= <-] & ? & ? & ? & ? & ? & ?). split_and!; [done..|]. exists key. by split_and!.
Qed.

Lemma sealed_decodes c key e :
  seal_runtime_envelope c key = Ok e → NoDup (budget_keys c) →
  loads (payload_json e) = Some (JObj (sort_by key_leb (payload_of c))) ∧
  _canonical_json (JObj (sort_by key_leb (payload_of c))) = payload_json e ∧
  _claims_from_payload (sort_by key_leb (payload_of c)) = Ok (normalized c).
Proof.
  intros (Hv & Hk & ->)%seal_Ok Hb. destruct (decoded_payload c (validate_shape _ _ Hv) Hb) as [Hl Hc].
  split; [exact Hl|]. split; [exact Hc|]. apply claims_from_payload_Ok. pose proof (sort_by_perm key_leb (payload_of c)) as Hp.
  split_and!.
  - eapply Forall_impl; [apply (payload_tuples c)|]. intros f. unfold dget.
    by rewrite (dict_get_perm f _ _ (payload_nodup c) (symmetry Hp)).
  - rewrite <- (construct_perm _ _ (payload_nodup c) (symmetry Hp)). apply construct_payload.
  - by apply validate_normalized.
Qed.

(** Round trip: claims that the sealer accepts are what the verifier reads
    back from the sealed envelope under the same key, with the budgets listed by
    name, for every expectation the claims meet. *)
Theorem seal_verify_roundtrip c key e x :
  seal_runtime_envelope c key = Ok e → NoDup (budget_keys c) → check_expected c x = Ok tt →
  verify_runtime_envelope e key x = Ok (normalized c).
Proof.
  intros Hs Hb Hx. destruct (sealed_decodes _ _ _ Hs Hb) as (Hl & Hc & Hcl).
  apply seal_Ok in Hs as (_ & Hk & Hs). apply verify_Ok. split; [by rewrite Hs|].
  split; [rewrite Hs; apply dumps_ascii|]. split; [done|]. eexists. split; [exact Hl|]. split; [exact Hc|].
  split_and!; [by rewrite Hs..|exact Hcl|by rewrite check_normalized].
Qed.

(** ** Paths inside a scope *)

Lemma common_prefix_prefix l m : common_prefix l m `prefix_of` l.
Proof.
  revert m. induction l as [|x l IH]; intros [|y m]; cbn; try apply prefix_nil. case_decide; [|apply prefix_nil].
  by apply prefix_cons.
Qed.

Lemma commonpath_abs p d :
  isabs p = true → commonpath p d = Ok d → ∃ ds, plain_abs d ds ∧ ds `prefix_of` path_comps p.
Proof.
  intros Hp H. unfold commonpath in H. rewrite Hp in H. case_bool_decide as Hd; [|done]. injection H as H.
  exists (common_prefix (path_comps p) (path_comps d)). split; [|apply common_prefix_prefix].
  split; [done|]. apply common_prefix_ok, path_comps_ok.
Qed.

Lemma norm_step_root root acc c : root ≠ "" → ".." ∉ acc → ".." ∉ norm_step root acc c.
Proof.
  intros Hr Ha. unfold norm_step. destruct (real_comp c); cbn; [|done]. destruct acc as [|l acc].
  - rewrite (bool_decide_eq_false_2 (root = "")), orb_false_r by done. case_bool_decide; set_solver.
  - assert (l ≠ "..") by set_solver. assert (".." ∉ acc) by set_solver. rewrite (bool_decide_eq_false_2 (l = "..")) by done.
    rewrite orb_false_r. case_bool_decide; set_solver.
Qed.

Lemma norm_comps_root root cs : root ≠ "" → ".." ∉ norm_comps root cs.
Proof.
  intros Hr. unfold norm_comps.
  enough (∀ acc, ".." ∉ acc → ".." ∉ fold_left (norm_step root) cs acc) as H.
  { intros Hin%list_elem_of_In%in_rev%list_elem_of_In. revert Hin. apply H. set_solver. }
  induction cs as [|c cs IH]; intros acc Ha; cbn; [done|]. by apply IH, norm_step_root.
Qed.

Lemma splitroot_abs s : isabs s = true → ∃ root rest, splitroot s = (root, rest) ∧ (root = "/" ∨ root = "//").
Proof.
  intros Ha. destruct s as [|a s]; [done|]. assert (a = slash) as -> by (revert Ha; unfold isabs, startswith; cbn; by case_match).
  cbn. destruct s as [|b s]; [eauto|]. destruct (decide (b = slash)); [|eauto]. destruct s as [|c s]; [eauto|]. destruct (decide (c = slash)); eauto.
Qed.

(** A canonical absolute path climbs nowhere. *)
Lemma canonical_no_dotdot s : canonical_abs (JStr s) = true → isabs s = true ∧ ".." ∉ path_comps s.
Proof.
  cbn. intros [Ha Hn%bool_decide_eq_true]%andb_true_iff. split; [done|]. rewrite <- Hn. clear Hn. unfold normpath.
  rewrite decide_False by (by intros ->). destruct (splitroot_abs s Ha) as (root & rest & -> & Hr).
  pose proof (norm_comps_ok root rest) as Hok.
  assert (Hd : ".." ∉ norm_comps root (split_char slash rest)) by (apply norm_comps_root; by destruct Hr as [-> | ->]).
  revert Hok Hd. generalize (norm_comps root (split_char slash rest)). intros cs Hok Hd.
  assert (path_comps (root +:+ py_join "/" cs) = cs) as Hc.
  { destruct Hr as [-> | ->]; rewrite !str_app_cons, str_app_nil_l.
    - exact (eq_trans (path_comps_slash _) (path_comps_join cs Hok)).
    - exact (eq_trans (path_comps_slash _) (eq_trans (path_comps_slash _) (path_comps_join cs Hok))). }
  rewrite decide_False by (by destruct Hr as [-> | ->]). by rewrite Hc.
Qed.

(** The result path lies under one of the write scopes, component by component. *)
Definition result_in_scope (c : RuntimeEnvelopeClaims) : Prop :=
  ∃ result scope ds, expected_result_path c = JStr result ∧ JStr scope ∈ write_scope c ∧
    plain_abs scope ds ∧ ds `prefix_of` path_comps result ∧ ".." ∉ path_comps result.

Lemma shape_in_scope c : claims_shape c → result_in_scope c.
Proof.
  intros [_ _ _ _ _ (result & scope & Hr & Hs & [Ha Hd]%canonical_no_dotdot & _ & Hc)].
  apply commonpath_abs in Hc as (ds & ? & ?); [|done]. by exists result, scope, ds.
Qed.

(** What the launcher asked for holds of the claims. *)
Definition meets (c : RuntimeEnvelopeClaims) (x : Expectation) : Prop :=
  (∀ t, expected_task_id x = Some t → task_id c = JStr t) ∧
  (∀ t, expected_attempt_id x = Some t → attempt_id c = JStr t) ∧
  (∀ g, expected_generation x = Some g → generation c = JInt g) ∧
  (∀ t, now x = Some t → ∃ a b, created_at c = JInt a ∧ expires_at c = JInt b ∧ a <= t <= b).

Lemma validate_meets c x : validate c = Ok tt → check_expected c x = Ok tt → meets c x.
Proof.
  intros Hv%validate_shape. destruct Hv as [Hs Hi _ _ _ _].
  repeat rewrite Forall_cons in Hs. destruct Hs as ((t & Ht) & (a & Ha) & _). repeat rewrite Forall_cons in Hi.
  destruct Hi as ((g & Hg) & (cr & Hc) & (ex & He) & _).
  unfold check_expected, meets. rewrite Ht, Ha, Hg, Hc, He. rewrite !check_bind_Ok. intros (H1 & H2 & H3 & H4). split_and!.
  - intros ? E. rewrite E in H1. cbn in H1. bool_inv. by subst.
  - intros ? E. rewrite E in H2. cbn in H2. bool_inv. by subst.
  - intros ? E. rewrite E in H3. cbn in H3. bool_inv. by subst.
  - intros ? E. rewrite E in H4. apply check_bind_Ok in H4 as (H4 & H5%check_Ok). cbn in H4, H5. exists cr, ex. split_and!; (done || lia).
Qed.

(** C4. Whatever the verifier accepts was authenticated: the payload is
    canonical JSON whose MAC under the supervisor's key the envelope carries,
    the claims are the decoded payload and are valid, they meet the launcher's
    expectation and time, and the result path lies under an authorized write
    scope, component by component and without [..]. *)
Theorem verify_sound e key x c :
  verify_runtime_envelope e key x = Ok c →
  mac_sha256 e = hmac_sha256_hex key (encode_utf8 (payload_json e)) ∧ 16 <= Z.of_nat (length key) ∧
  (∃ decoded, loads (payload_json e) = Some (JObj decoded) ∧ _canonical_json (JObj decoded) = payload_json e ∧
    construct decoded = Some c) ∧
  validate c = Ok tt ∧ meets c x ∧ result_in_scope c.
Proof.
  intros (_ & _ & Hk & decoded & Hl & Hc & _ & Hm & _ & (_ & Hd & Hv)%claims_from_payload_Ok & Hx)%verify_Ok.
  split; [exact Hm|]. split; [done|]. split; [by exists decoded|]. split; [done|]. split; [by apply validate_meets|].
  by apply shape_in_scope, (validate_shape c tt).
Qed.

(** ** The command *)

Lemma normalized_arg_Ok v w :
  normalized_arg v = Ok w ↔ v = JStr w ∧ w ≠ "" ∧ unsafe_text w = false ∧ resumes w = false.
Proof.
  destruct v as [| | |s| |]; try (split; [done|by intros [? _]]). cbn [normalized_arg]. rewrite !check_bind_Ok, !negb_true_iff, orb_false_iff, bool_decide_eq_false.
  naive_solver.
Qed.

(** The arguments a fresh launch may carry. *)
Definition fresh_arg (w : string) : Prop := w ≠ "" ∧ unsafe_text w = false ∧ resumes w = false.

Lemma args_Ok args ws : map_res normalized_arg args = Ok ws ↔ args = map JStr ws ∧ Forall fresh_arg ws.
Proof.
  rewrite map_res_Ok. split.
  - induction 1 as [|v w args ws H%normalized_arg_Ok _ (-> & IH)]; [done|]. destruct H as (-> & H). by split; [|constructor].
  - intros [-> H]. induction H as [|w ws H _ IH]; constructor; [|done]. by apply normalized_arg_Ok.
Qed.

(** The lane's fresh verb, and the prompt as one argument. *)
Definition fresh_form (lane executable prompt : string) (ws cmd : list string) : Prop :=
  isabs executable = true ∧ unsafe_text executable = false ∧ Forall fresh_arg ws ∧
  ∃ verb, dict_get lane _FRESH_LANE_COMMAND = Some verb ∧
    cmd = if bool_decide (verb = "exec") then executable :: verb :: ws ++ [prompt] else executable :: verb :: prompt :: ws.

Lemma fresh_command_Ok lane executable prompt args cmd :
  _fresh_cli_command lane executable prompt args = Ok cmd ↔
  ∃ ws, args = map JStr ws ∧ fresh_form lane (path_str executable) prompt ws cmd.
Proof.
  unfold _fresh_cli_command, fresh_form. rewrite check_bind_Ok, andb_true_iff, negb_true_iff.
  destruct (dict_get lane _FRESH_LANE_COMMAND) as [verb|]; [|naive_solver].
  rewrite bind_Ok. setoid_rewrite args_Ok. naive_solver.
Qed.

(** What the worker is shown: the payload and its hashes, and no key material. *)
Definition projection_of (e : SealedRuntimeEnvelope) (payload : json) : json :=
  JObj [("schema", JStr (env_schema e)); ("payload", payload);
        ("payload_sha256", JStr (payload_sha256 e)); ("envelope_sha256", JStr (envelope_sha256 e))].

(** A launch happens only for an envelope that verifies for exactly that
    task, attempt, generation and time, and for the role context whose hash and
    lane it seals; the command is the absolute executable with the lane's fresh
    verb, the caller's arguments (none of which resumes a session) and, as one
    argument, the role prompt with the projection of the payload; the Stage-1
    profile, request and scope are the sealed ones. *)
Theorem launch_bound e key rc exe task attempt gen t args skills tmo call :
  launch_task e key rc exe task attempt gen t args skills tmo = Ok call →
  ∃ claims payload skill_text ws,
    verify_runtime_envelope e key {| expected_task_id := Some task; expected_attempt_id := Some attempt;
                                     expected_generation := Some gen; now := Some t |} = Ok claims ∧
    verify_role_context rc = Ok rc ∧
    role_context_sha256 claims = JStr (RoleContext.sha256 rc) ∧ lane claims = JStr (RoleContext.lane rc) ∧
    loads (payload_json e) = Some payload ∧ projected_skill_contract skills = Ok skill_text ∧ args = map JStr ws ∧
    fresh_form (RoleContext.lane rc) (path_str exe)
      (launch_prompt (prompt rc) skill_text (_canonical_json (projection_of e payload))) ws (command call) ∧
    expected_profile_sha256 call = stage1_profile_sha256 claims ∧
    expected_request_sha256 call = stage1_request_sha256 claims ∧
    expected_scope_sha256 call = stage1_scope_sha256 claims.
Proof.
  unfold launch_task. intros (claims & Hv & H)%bind_Ok. apply bind_Ok in H as (rc' & Hr%reraise_Ok & H).
  apply check_bind_Ok in H as (Hsha & H). apply check_bind_Ok in H as (Hlane & H).
  apply bind_Ok in H as (proj & Hp & H). apply bind_Ok in H as (skill_text & Hs & H).
  apply bind_Ok in H as (cmd & (ws & Ha & Hf)%fresh_command_Ok & [= <-]).
  assert (rc' = rc) as -> by (by apply verify_role_context_Ok in Hr as [-> _]).
  assert (role_context_sha256 claims = JStr (RoleContext.sha256 rc)) as Hsha'.
  { destruct (role_context_sha256 claims); cbn in Hsha; try done. bool_inv. by subst. }
  assert (lane claims = JStr (RoleContext.lane rc)) as Hlane'.
  { destruct (lane claims); cbn in Hlane; try done. bool_inv. by subst. }
  unfold worker_projection in Hp. destruct (loads (payload_json e)) as [payload|]; [|done]. injection Hp as <-.
  rewrite Hlane' in Hf. exists claims, payload, skill_text, ws. by split_and!.
Qed.

(** ** Concrete launches *)

Definition demo_hash : json := JStr (String.string_of_list_ascii (repeat "a"%char 64)).
Definition demo_claims : RuntimeEnvelopeClaims := {|
  task_id := JStr "TASK-2026-0001"; attempt_id := JStr ("d-" +:+ String.string_of_list_ascii (repeat "0"%char 32));
  generation := JInt 3; run_id := JStr "run-1"; lane := JStr "codex"; author_family := JStr "openai";
  workload_class := JStr "audit"; packet_sha256 := demo_hash; role_context_sha256 := JStr (RoleContext.sha256 demo_context);
  overlay_sha256 := demo_hash; plan_sha256 := demo_hash; authority_sha256 := demo_hash;
  verification_contract_sha256 := demo_hash; selected_model_sha256 := demo_hash;
  read_scope := []; write_scope := [JStr "/repo/results"]; network_scope := []; action_scope := [JStr "write"];
  budgets := JObj [("tokens", JInt 1000); ("minutes", JInt 30)];
  expected_result_path := JStr "/repo/results/out.md"; expected_outbox_path := JStr "/repo/outbox/o.json";
  required_phase_ids := []; verification_kinds := [JStr "artifact_written"]; operator_gates := [];
  stage1_profile_sha256 := demo_hash; stage1_request_sha256 := demo_hash; stage1_scope_sha256 := demo_hash;
  reconciliation_nonce := JStr "nonce"; created_at := JInt 100; expires_at := JInt 200;
  launch_attestation_sha256 := JStr ""; tool_attestation_sha256 := JStr ""; artifact_bundle_sha256 := JStr "";
  model_history_sha256 := JStr ""; review_subject_sha256 := JStr ""; review_family := JStr ""; review_state := JStr ""
|}.
Definition demo_key : bytes := repeat 7 32.
Definition demo_expected : Expectation :=
  {| expected_task_id := Some "TASK-2026-0001"; expected_attempt_id := Some ("d-" +:+ String.string_of_list_ascii (repeat "0"%char 32));
     expected_generation := Some 3; now := Some 150 |}.
Definition demo_sealed : res SealedRuntimeEnvelope := Eval vm_compute in seal_runtime_envelope demo_claims demo_key.
Definition demo_envelope : SealedRuntimeEnvelope :=
  match demo_sealed with Ok e => e | _ => {| env_schema := ""; payload_json := ""; payload_sha256 := ""; mac_sha256 := ""; envelope_sha256 := "" |} end.

Lemma demo_seals : seal_runtime_envelope demo_claims demo_key = Ok demo_envelope.
Proof. vm_compute. reflexivity. Qed.

Lemma seal_verify_roundtrip_witness :
  seal_runtime_envelope demo_claims demo_key = Ok demo_envelope ∧
  verify_runtime_envelope demo_envelope demo_key demo_expected = Ok (normalized demo_claims).
Proof.
  split; [exact demo_seals|]. apply (seal_verify_roundtrip demo_claims demo_key demo_envelope demo_expected demo_seals).
  - by_decide.
  - vm_compute. reflexivity.
Defined.

Lemma verify_sound_witness :
  verify_runtime_envelope demo_envelope demo_key demo_expected = Ok (normalized demo_claims) ∧
  result_in_scope (normalized demo_claims).
Proof.
  assert (E : verify_runtime_envelope demo_envelope demo_key demo_expected = Ok (normalized demo_claims)) by (vm_compute; reflexivity).
  split; [exact E|]. apply (verify_sound _ _ _ _ E).
Defined.

Definition demo_launch : res LauncherCall :=
  launch_task demo_envelope demo_key demo_context "/usr/bin/codex" "TASK-2026-0001"
    ("d-" +:+ String.string_of_list_ascii (repeat "0"%char 32)) 3 150 [JStr "--json"] [JStr "audit"] (float_lit 30).
Definition demo_call : LauncherCall :=
  match demo_launch with Ok c => c | _ => Build_LauncherCall [] JNull JNull JNull (float_lit 0) end.

Lemma launch_bound_witness :
  demo_launch = Ok demo_call ∧
  ∃ claims, verify_runtime_envelope demo_envelope demo_key demo_expected = Ok claims ∧
    role_context_sha256 claims = JStr (RoleContext.sha256 demo_context).
Proof.
  assert (E : demo_launch = Ok demo_call) by (vm_compute; reflexivity). split; [exact E|].
  destruct (launch_bound _ _ _ _ _ _ _ _ _ _ _ _ E) as (claims & _ & _ & _ & Hv & _ & Hr & _).
  exists claims. split; [exact Hv|exact Hr].
Defined.
