(* ===== verification/Clearance.v ===== *)
(** * The memory aperture ([plugins/chrono-vault/clearance.py])

    The pinned policy table and its validation, the engagement context a lane
    process is bound to, and what the context lets the process read, write and
    hold in its environment.  The environment variables and the table's file
    are arguments. *)
From S2P Require Import Prelude Regex Sha256 Json PyText PyTime.

#[local] Open Scope Z_scope.

Definition INTERNAL : string := "internal".
Definition RESTRICTED : string := "restricted".
Definition SENSITIVITIES : list string := [INTERNAL; RESTRICTED].
Definition CONTEXT_ENV : string := "CHRONO_VAULT_CONTEXT".
Definition CONTEXT_SCHEMA : string := "chrono-vault-context/v1".
Definition MEMORY_ENGAGEMENT_MODES : list string := ["bounty"; "project"].
Definition MODELESS_MODE : string := "modeless".
Definition ACCEPTED_ENGAGEMENT_MODES : list string := MODELESS_MODE :: MEMORY_ENGAGEMENT_MODES.
Definition POLICY_FIELDS : list string :=
  ["policy_id"; "aperture"; "recall"; "record"; "get_note"; "browse"; "statuses"; "note_types"; "focus";
   "written_before"; "read_sensitivity"; "write_status"; "project_write_floor"; "bounty_write_floor"].
Definition _APERTURES : list string := ["rich"; "focused"; "default"; "cold"; "pool_blind"; "none"].
Definition _POLICY_TOKEN_RE : re :=
  rrep 1 128 (RChr (λ c, is_lower c || is_digit c || char_in c "_.|-")).
Definition _POLICY_STATUSES : list string := ["candidate"; "verified"; "superseded"; "invalidated"; "archived"].
Definition _POLICY_NOTE_TYPES : list string := ["attempt"; "finding"; "learning"].
Definition POLICY_SHA256 : string := "7f08fcfa1d9773a8bb2bbb6d51c9a03fc7026bad8b9432f5288ce7ecf6720870".
Definition CONTEXT_FIELDS : list string :=
  ["schema"; "task_id"; "attempt_id"; "generation"; "mode"; "aperture"; "focus"; "engagement_start"].
Definition digits (n : nat) : re := rtimes n (RChr is_digit).
Definition TASK_RE : re :=
  RSeq (rlit "TASK-") (RSeq (digits 4) (RSeq (rlit "-") (RSeq (digits 2) (RSeq (rlit "-") (RSeq (digits 2)
    (RSeq (rlit "-") (RSeq (digits 4) (RSeq (rlit "-") (RSeq (RChr is_alnum)
      (RStar (RChr (λ c, is_alnum c || bool_decide (c = "-"%char))))))))))))).
Definition ATTEMPT_RE : re := RSeq (rlit "d-") (rtimes 32 (RChr is_hex)).
Definition VAULT_PATH_ENV : list string := ["CHRONO_VAULT_ROOT"; "OBSIDIAN_VAULT_ROOT"].
Definition VAULT_READ_OPERATIONS : list string := ["recall"; "get_note"; "browse"].
Definition VAULT_OPERATIONS : list string := ["recall"; "record"; "get_note"; "browse"].
Definition PATH_READ : string := "read".
Definition PATH_WRITE_ONLY : string := "write_only".
Definition PATH_NONE : string := "none".

Definition deny_clearance {A} (msg : string) : res A := Err (Exn ClearanceError msg).
Definition require (ok : bool) (msg : string) : res unit := raise_if (negb ok) ClearanceError msg.

(** [_timestamp_ns] *)
Definition _timestamp_ns (value : json) (field : string) : res Z :=
  match value with
  | JStr s =>
      if negb (bool_decide (py_strip s = "")) && (String.length s <=? 64)%nat then
        match fromisoformat (replace_Z s) with
        | None => deny_clearance (field +:+ " is not ISO-8601")
        | Some (_, None) => deny_clearance (field +:+ " requires a timezone")
        | Some (local, Some off) =>
            match to_utc local off with
            | Some t => Ok (timestamp_ns t)
            | None => deny_clearance (field +:+ " is outside the supported range")
            end
        end
      else deny_clearance (field +:+ " must be a bounded timestamp")
  | _ => deny_clearance (field +:+ " must be a bounded timestamp")
  end.

(** ** The policy table *)

(** A validated row: its cells by field name. *)
Definition Policy : Type := list (string * string).
Definition pget (k : string) (p : Policy) : string := default "" (dict_get k p).
Definition permits (operation : string) (p : Policy) : bool := bool_decide (pget operation p = "allow").

Definition _policy_set (value : string) (allowed : list string) : res (list string) :=
  if bool_decide (value = "-") then Ok []
  else
    let tokens := split_char "|" value in
    require (bool_decide (tokens = sort_strings tokens) && bool_decide (NoDup tokens) &&
             forallb (λ t, bool_decide (t ∈ allowed)) tokens) "memory aperture policy set is invalid";;
    Ok tokens.

(** The aperture's part of a policy id: [aperture.replace("_", "-")]. *)
Fixpoint dashed (s : string) : string :=
  match s with
  | "" => ""
  | String c s => String (if decide (c = "_"%char) then "-"%char else c) (dashed s)
  end.

Definition in_domain (row : Policy) : bool :=
  let aperture := pget "aperture" row in
  bool_decide (aperture ∈ _APERTURES) &&
  bool_decide (pget "policy_id" row = "memory." +:+ dashed aperture +:+ ".v1") &&
  forallb (λ f, bool_decide (pget f row ∈ ["allow"; "deny"])) VAULT_OPERATIONS &&
  bool_decide (pget "focus" row ∈ ["any"; "exact"; "none"]) &&
  bool_decide (pget "written_before" row ∈ ["engagement_start"; "none"]) &&
  bool_decide (pget "read_sensitivity" row ∈ ["context"; "none"]) &&
  bool_decide (pget "write_status" row ∈ ["candidate"; "-"]) &&
  bool_decide (pget "project_write_floor" row ∈ "-" :: SENSITIVITIES) &&
  bool_decide (pget "bounty_write_floor" row ∈ "-" :: SENSITIVITIES).

Definition note_read_allowed (row : Policy) : bool := permits "recall" row || permits "get_note" row.

(** [_validate_policy_row] of the cells the table reader found on a line. *)
Definition _validate_policy_row (cells : list string) : res Policy :=
  require (length cells <=? length POLICY_FIELDS)%nat "memory aperture policy row width is invalid";;
  require ((length cells =? length POLICY_FIELDS)%nat && forallb (fullmatch _POLICY_TOKEN_RE) cells)
    "memory aperture policy token is invalid";;
  let row := zip POLICY_FIELDS cells in
  require (in_domain row) "memory aperture policy domain is invalid";;
  statuses ← _policy_set (pget "statuses" row) _POLICY_STATUSES;
  note_types ← _policy_set (pget "note_types" row) _POLICY_NOTE_TYPES;
  let none_of (fs : list string) (v : string) := forallb (λ f, bool_decide (pget f row = v)) fs in
  (if note_read_allowed row then
     require (negb (bool_decide (statuses = [])) && negb (bool_decide (note_types = [])) &&
              bool_decide (pget "read_sensitivity" row = "context")) "memory aperture readable policy is incomplete"
   else
     require (bool_decide (statuses = []) && bool_decide (note_types = []) &&
              none_of ["focus"; "written_before"; "read_sensitivity"] "none")
       "memory aperture denied read carries readable policy");;
  (if bool_decide (pget "aperture" row = "focused") then
     require (note_read_allowed row && bool_decide (pget "focus" row = "exact") &&
              bool_decide (pget "written_before" row = "engagement_start")) "focused memory policy is incomplete"
   else require (negb (bool_decide (pget "focus" row = "exact"))) "exact memory focus requires the focused aperture");;
  (if bool_decide (pget "record" row = "deny") then
     require (none_of ["write_status"; "project_write_floor"; "bounty_write_floor"] "-")
       "memory aperture denied record carries write policy"
   else
     require (bool_decide (pget "write_status" row = "candidate") &&
              bool_decide (pget "project_write_floor" row ∈ SENSITIVITIES) &&
              bool_decide (pget "bounty_write_floor" row = RESTRICTED)) "memory aperture write policy is unsafe");;
  Ok row.

Definition TAB : ascii := "009"%char.

(** The rows by aperture; a repeated aperture is refused. *)
Fixpoint policy_loop (rows : list string) (policies : list (string * Policy)) : res (list (string * Policy)) :=
  match rows with
  | [] => Ok policies
  | line :: rows =>
      row ← _validate_policy_row (split_char TAB line);
      let aperture := pget "aperture" row in
      require (negb (dict_has aperture policies)) "memory aperture policy row is invalid";;
      policy_loop rows (dict_set aperture row policies)
  end.

(** [memory_policies()].  [ClearanceError] is an [OSError], so a wrong hash or
    header is reported as an unavailable policy.  The table's bytes are pinned
    and hold no quote, so a line's cells are what stands between its tabs. *)
Definition memory_policies (policy_file : option string) : res (list (string * Policy)) :=
  match policy_file with
  | None => deny_clearance "memory aperture policy is unavailable"
  | Some text =>
      let lines := splitlines text in
      if bool_decide (sha256_hex (encode_utf8 text) = POLICY_SHA256) &&
         match lines with header :: _ => bool_decide (split_char TAB header = POLICY_FIELDS) | [] => false end
      then
        policies ← policy_loop (List.filter (λ l, negb (bool_decide (l = ""))) (tail lines)) [];
        require (forallb (λ a, dict_has a policies) _APERTURES) "memory aperture policy set is incomplete";;
        Ok policies
      else deny_clearance "memory aperture policy is unavailable"
  end.

(** ** The engagement context *)

Definition str_member (v : json) (l : list string) : bool :=
  match v with JStr s => bool_decide (s ∈ l) | _ => false end.

(** The launcher's identity; [JNull] leaves the test out. *)
Record Identity := { want_task_id : json; want_attempt_id : json; want_generation : json; want_mode : json }.
Definition anyone : Identity := {| want_task_id := JNull; want_attempt_id := JNull; want_generation := JNull; want_mode := JNull |}.

Definition agrees (wanted : json) (v : json) : bool :=
  match wanted with JNull => true | _ => py_eq v wanted end.

Definition focus_ok (focus : json) : bool :=
  match focus with
  | JNull => true
  | JStr s => negb (bool_decide (py_strip s = "")) && (String.length s <=? 256)%nat &&
              negb (char_in NUL s || char_in CR s || char_in LF s)
  | _ => false
  end.

(** The instant a creation time in whole seconds is written as. *)
Definition created_text (created_at : Z) : option string :=
  if created_at * 1000000 <=? MAX_MICROS then Some (isoformat_Z created_at) else None.

Section Policies.
Context (policy_file : option string).

Definition validate_memory_context (value : json) (who : Identity) (created_at : json) : res (list (string * json)) :=
  match value with
  | JObj d =>
      require (bool_decide (list_to_set (C := gset string) d.*1 = list_to_set CONTEXT_FIELDS))
        "memory engagement context fields are invalid";;
      require (py_eq (dget "schema" d) (JStr CONTEXT_SCHEMA)) "memory engagement context schema is invalid";;
      require match dget "task_id" d with JStr s => fullmatch TASK_RE s | _ => false end
        "memory engagement task identity is invalid";;
      require match dget "attempt_id" d with JStr s => fullmatch ATTEMPT_RE s | _ => false end
        "memory engagement attempt identity is invalid";;
      require match dget "generation" d with JInt z => 1 <=? z | _ => false end
        "memory engagement generation is invalid";;
      require (str_member (dget "mode" d) ACCEPTED_ENGAGEMENT_MODES) "unsupported memory engagement mode";;
      policies ← memory_policies policy_file;
      raise_if match dget "aperture" d with JList _ | JObj _ => true | _ => false end TypeError "unhashable type";;
      require (str_member (dget "aperture" d) policies.*1) "memory engagement aperture is invalid";;
      require (focus_ok (dget "focus" d)) "memory engagement focus is invalid";;
      require (Bool.eqb (py_eq (dget "aperture" d) (JStr "focused")) (negb (py_eq (dget "focus" d) JNull)))
        "focused memory requires one exact target";;
      require (agrees (want_task_id who) (dget "task_id" d) && agrees (want_attempt_id who) (dget "attempt_id" d) &&
               agrees (want_generation who) (dget "generation" d) && agrees (want_mode who) (dget "mode" d))
        "memory engagement context identity is inconsistent";;
      match created_at with
      | JNull => Ok tt
      | JInt z =>
          require (0 <? z) "memory engagement creation time is invalid";;
          match created_text z with
          | Some expected => require (py_eq (dget "engagement_start" d) (JStr expected)) "memory engagement start is inconsistent"
          | None => deny_clearance "memory engagement creation time is invalid"
          end
      | _ => deny_clearance "memory engagement creation time is invalid"
      end;;
      _timestamp_ns (dget "engagement_start" d) "engagement_start";;
      Ok d
  | _ => deny_clearance "memory engagement context fields are invalid"
  end.

(** What [memory_context()] returns: the fields, the start in nanoseconds and the row. *)
Record Engagement := { fields : list (string * json); engagement_start_ns : Z; policy : Policy }.
Definition text_field (k : string) (e : Engagement) : string :=
  match dget k (fields e) with JStr s => s | _ => "" end.
Definition focus_of (e : Engagement) : option string :=
  match dget "focus" (fields e) with JStr s => Some s | _ => None end.

(** The environment variables of the process. *)
Context (environ : string → option string).

Definition memory_context : res (option Engagement) :=
  match environ CONTEXT_ENV with
  | None => Ok None
  | Some raw =>
      require (negb (bool_decide (raw = "")) && (length (encode_utf8 raw) <=? 4096)%nat)
        "memory engagement context is invalid";;
      match loads_unique raw with
      | None => deny_clearance "memory engagement context is invalid JSON"
      | Some value =>
          d ← validate_memory_context value anyone JNull;
          ns ← _timestamp_ns (dget "engagement_start" d) "engagement_start";
          policies ← memory_policies policy_file;
          let aperture := match dget "aperture" d with JStr s => s | _ => "" end in
          Ok (Some {| fields := d; engagement_start_ns := ns; policy := default [] (dict_get aperture policies) |})
      end
  end.

Definition require_memory_operation (operation : string) : res (option Engagement) :=
  raise_if (negb (bool_decide (operation ∈ VAULT_OPERATIONS))) ValueError "unknown memory operation";;
  context ← memory_context;
  match context with
  | Some e => require (permits operation (policy e)) "memory operation is denied by aperture";; Ok context
  | None => Ok context
  end.

(** The floor a mode imposes; modeless takes the stricter of the typed ones. *)
Definition write_floor (mode : string) (p : Policy) : string :=
  if bool_decide (mode = MODELESS_MODE) then
    if bool_decide (RESTRICTED ∈ map (λ typed, pget (typed +:+ "_write_floor") p) MEMORY_ENGAGEMENT_MODES)
    then RESTRICTED else INTERNAL
  else pget (mode +:+ "_write_floor") p.

(** [supplied not in {None, "none", focus}] *)
Definition target_allowed (supplied : json) (focus : string) : res bool :=
  match supplied with
  | JList _ | JObj _ => Err (Exn TypeError "unhashable type")
  | JNull => Ok true
  | JStr s => Ok (bool_decide (s = "none") || bool_decide (s = focus))
  | _ => Ok false
  end.

(** [apply_record_policy]; [now] is the clock's text. *)
Definition apply_record_policy (now : string) (note : list (string * json)) : res (list (string * json)) :=
  context ← require_memory_operation "record";
  match context with
  | None => Ok note
  | Some e =>
      require (py_eq (default (JStr "candidate") (dict_get "status" note)) (JStr "candidate"))
        "engagement memory may create candidate notes only";;
      let result := dict_set "status" (JStr "candidate") note in
      let task_id := JStr (text_field "task_id" e) in
      require (py_eq (default task_id (dict_get "source_task" result)) task_id)
        "memory source_task does not match the engagement";;
      let result := dict_set "source_task" task_id result in
      let result := dict_set "created_at" (JStr now) result in
      let result := dict_set "updated_at" (JStr now) result in
      let result := if bool_decide (write_floor (text_field "mode" e) (policy e) = RESTRICTED)
                    then dict_set "sensitivity" (JStr RESTRICTED) result else result in
      match focus_of e with
      | None => Ok result
      | Some focus =>
          ok ← target_allowed (dget "target" result) focus;
          require ok "memory target is outside the focused engagement";;
          Ok (dict_set "target" (JStr focus) result)
      end
  end.

Record RecallConstraints := {
  rc_task_id : string; rc_statuses : list string; rc_note_types : list string;
  rc_target : option string; rc_written_before_ns : option Z }.

Definition nonempty_tokens (v : string) : list string :=
  List.filter (λ t, negb (bool_decide (t = ""))) (split_char "|" v).

Definition constraints_of (e : Engagement) : RecallConstraints := {|
  rc_task_id := text_field "task_id" e;
  rc_statuses := nonempty_tokens (pget "statuses" (policy e));
  rc_note_types := nonempty_tokens (pget "note_types" (policy e));
  rc_target := focus_of e;
  rc_written_before_ns :=
    if bool_decide (pget "written_before" (policy e) = "engagement_start") then Some (engagement_start_ns e) else None
|}.
Definition recall_constraints : res (option RecallConstraints) :=
  context ← require_memory_operation "recall";
  Ok (option_map constraints_of context).

Definition lane_clearance : string :=
  if bool_decide (environ "CHRONO_VAULT_CLEARANCE" = Some RESTRICTED) then RESTRICTED else INTERNAL.

Definition can_read (note_sensitivity clearance : string) : bool :=
  if negb (bool_decide (note_sensitivity ∈ SENSITIVITIES)) then false
  else if bool_decide (note_sensitivity = INTERNAL) then true
  else bool_decide (note_sensitivity = RESTRICTED) && bool_decide (clearance = RESTRICTED).

Definition require_note_within_clearance (note : list (string * json)) : res unit :=
  require (can_read (py_str (dget "sensitivity" note)) lane_clearance) "memory note exceeds lane clearance".

Definition require_note_visible (note : list (string * json)) : res unit :=
  context ← require_memory_operation "get_note";
  require_note_within_clearance note;;
  match context with
  | None => Ok tt
  | Some e =>
      let p := policy e in
      require (str_member (dget "status" note) (split_char "|" (pget "statuses" p))) "memory note status is outside the aperture";;
      require (str_member (dget "type" note) (split_char "|" (pget "note_types" p))) "memory note type is outside the aperture";;
      require match focus_of e with Some focus => py_eq (dget "target" note) (JStr focus) | None => true end
        "memory note target is outside the focused engagement";;
      if bool_decide (pget "written_before" p = "engagement_start") then
        created ← _timestamp_ns (dget "created_at" note) "created_at";
        require (created <? engagement_start_ns e) "memory note was created after engagement start"
      else Ok tt
  end.

Definition require_controller_lifecycle : res unit :=
  context ← memory_context;
  require (negb (bool_decide (is_Some context)))
    "memory lifecycle changes are controller-only".

Definition vault_path_entitlement (ap : string) : res string :=
  policies ← memory_policies policy_file;
  match dict_get ap policies with
  | None => deny_clearance "memory engagement aperture is invalid"
  | Some p =>
      Ok (if existsb (λ op, permits op p) VAULT_READ_OPERATIONS then PATH_READ
          else if permits "record" p then PATH_WRITE_ONLY else PATH_NONE)
  end.

Definition project_worker_vault_environment (environment : list (string * string)) (ap : string) :
    res (list (string * string)) :=
  entitlement ← vault_path_entitlement ap;
  if negb (bool_decide (entitlement = PATH_NONE)) then Ok environment
  else Ok (List.filter (λ kv, negb (bool_decide (kv.1 ∈ VAULT_PATH_ENV))) environment).

End Policies.
