(* ===== verification/ClearanceProps.v ===== *)
(** * What the aperture lets an engagement do

    The shape of an accepted policy table, the exact conditions of a record and
    of a note's visibility, and the agreement between the operations a process
    may perform and the vault paths it is handed. *)
From S2P Require Import Prelude Regex Sha256 Json PyText JsonProps PyTime Clearance.

#[local] Open Scope Z_scope.
#[local] Opaque sha256_hex.

(** ** The table in the repository ([shared/registries/memory-apertures.tsv]) *)

Definition memory_apertures : list (list string) :=
  [["memory.rich.v1"; "rich"; "allow"; "allow"; "allow"; "allow"; "candidate|verified"; "attempt|finding|learning"; "any"; "none"; "context"; "candidate"; "internal"; "restricted"];
   ["memory.default.v1"; "default"; "allow"; "allow"; "allow"; "allow"; "candidate|verified"; "attempt|finding|learning"; "any"; "none"; "context"; "candidate"; "internal"; "restricted"];
   ["memory.focused.v1"; "focused"; "allow"; "allow"; "allow"; "deny"; "verified"; "finding|learning"; "exact"; "engagement_start"; "context"; "candidate"; "internal"; "restricted"];
   ["memory.cold.v1"; "cold"; "deny"; "allow"; "deny"; "deny"; "-"; "-"; "none"; "none"; "none"; "candidate"; "internal"; "restricted"];
   ["memory.pool-blind.v1"; "pool_blind"; "deny"; "allow"; "deny"; "deny"; "-"; "-"; "none"; "none"; "none"; "candidate"; "internal"; "restricted"];
   ["memory.none.v1"; "none"; "deny"; "deny"; "deny"; "deny"; "-"; "-"; "none"; "none"; "none"; "-"; "-"; "-"]].
Definition memory_apertures_tsv : string :=
  py_join (String LF "") (map (py_join (String TAB "")) (POLICY_FIELDS :: memory_apertures)) +:+ String LF "".

Definition pinned_policies : list (string * Policy) :=
  Eval vm_compute in map (λ cells, (nth 1 cells "", zip POLICY_FIELDS cells)) memory_apertures.

Lemma pinned_table : memory_policies (Some memory_apertures_tsv) = Ok pinned_policies.
Proof. vm_compute. reflexivity. Qed.

(** ** Reading the checks back *)

Lemma require_Ok ok msg u : require ok msg = Ok u ↔ ok = true.
Proof. unfold require. rewrite raise_if_Ok. apply negb_false_iff. Qed.

Lemma require_bind_Ok {A} ok msg (m : res A) a : (require ok msg ;; m) = Ok a ↔ ok = true ∧ m = Ok a.
Proof.
  rewrite bind_Ok. setoid_rewrite require_Ok. split; [by intros (? & ? & ?)|intros [? ?]; by exists tt].
Qed.

(** What a row of an accepted table satisfies. *)
Record policy_ok (ap : string) (p : Policy) : Prop := {
  po_aperture : pget "aperture" p = ap;
  po_operations : Forall (λ op, pget op p ∈ ["allow"; "deny"]) VAULT_OPERATIONS;
  po_denied_read : note_read_allowed p = false →
    pget "statuses" p = "-" ∧ pget "note_types" p = "-" ∧ pget "focus" p = "none" ∧ pget "written_before" p = "none";
  po_focus : pget "focus" p = "exact" ↔ ap = "focused";
  po_record : permits "record" p = true →
    pget "write_status" p = "candidate" ∧ pget "project_write_floor" p ∈ SENSITIVITIES ∧
    pget "bounty_write_floor" p = RESTRICTED;
  po_no_record : permits "record" p = false →
    pget "write_status" p = "-" ∧ pget "project_write_floor" p = "-" ∧ pget "bounty_write_floor" p = "-"
}.

Lemma policy_set_nil v allowed : "" ∉ allowed → _policy_set v allowed = Ok [] → v = "-".
Proof.
  unfold _policy_set. intros Ha. case_bool_decide; [done|]. rewrite require_bind_Ok. intros [_ [= Hs]].
  by apply split_char_nonempty in Hs.
Qed.

Lemma validate_row_Ok cells p :
  _validate_policy_row cells = Ok p → p = zip POLICY_FIELDS cells ∧ policy_ok (pget "aperture" p) p.
Proof.
  unfold _validate_policy_row. intros (_ & (_ & (Hd & H)%require_bind_Ok)%require_bind_Ok)%require_bind_Ok.
  apply bind_Ok in H as (st & Hst & H). apply bind_Ok in H as (nt & Hnt & H).
  apply bind_Ok in H as ([] & Hread & H). apply bind_Ok in H as ([] & Hfoc & H). apply bind_Ok in H as ([] & Hrec & H).
  assert (zip POLICY_FIELDS cells = p) as <- by (injection H; done). clear H. split; [done|]. set (row := zip POLICY_FIELDS cells) in *. clearbody row.
  unfold in_domain in Hd. rewrite !andb_true_iff, !bool_decide_eq_true in Hd.
  destruct Hd as ((((((((_ & _) & Hops) & _) & _) & _) & _) & _) & _).
  assert (Hops' : Forall (λ op, pget op row ∈ ["allow"; "deny"]) VAULT_OPERATIONS).
  { apply Forall_forall. intros op Hop%list_elem_of_In. by apply (proj1 (forallb_forall _ _) Hops) in Hop; bool_inv. }
  split; [done..| | | |].
  - intros E. rewrite E in Hread. apply require_Ok in Hread. rewrite !andb_true_iff, !bool_decide_eq_true in Hread.
    destruct Hread as [[-> ->] Hn]. cbn [forallb] in Hn. rewrite !andb_true_iff, !bool_decide_eq_true in Hn.
    apply policy_set_nil in Hst; [|by_decide]. apply policy_set_nil in Hnt; [|by_decide]. naive_solver.
  - destruct (bool_decide_reflect (pget "aperture" row = "focused")) as [E|E]; apply require_Ok in Hfoc.
    + rewrite !andb_true_iff, !bool_decide_eq_true in Hfoc. naive_solver.
    + apply negb_true_iff, bool_decide_eq_false in Hfoc. done.
  - unfold permits. intros E. bool_inv. rewrite (bool_decide_eq_false_2 (_ = "deny")) in Hrec by (by rewrite E).
    apply require_Ok in Hrec. rewrite !andb_true_iff, !bool_decide_eq_true in Hrec. naive_solver.
  - unfold permits. intros E. bool_inv. rewrite bool_decide_eq_true_2 in Hrec.
    + apply require_Ok in Hrec. cbn [forallb] in Hrec. rewrite !andb_true_iff, !bool_decide_eq_true in Hrec. naive_solver.
    + rewrite Forall_forall in Hops'. specialize (Hops' "record" ltac:(by_decide)). set_solver.
Qed.

(** A map from apertures to the rows validated for them. *)
Definition table_ok (ps : list (string * Policy)) : Prop :=
  ∀ ap p, dict_get ap ps = Some p → policy_ok ap p.

Lemma policy_loop_ok rows ps qs : table_ok ps → policy_loop rows ps = Ok qs → table_ok qs.
Proof.
  revert ps. induction rows as [|line rows IH]; intros ps Hps; cbn [policy_loop]; [by intros [= <-]|].
  intros (row & [_ Hrow]%validate_row_Ok & (_ & H)%require_bind_Ok)%bind_Ok.
  revert H. apply IH. intros ap p. rewrite dict_get_set. case_decide as E; [|by apply Hps]. by intros [= <-]; subst.
Qed.

Lemma memory_policies_ok file ps :
  memory_policies file = Ok ps → table_ok ps ∧ ∀ ap, ap ∈ _APERTURES → is_Some (dict_get ap ps).
Proof.
  unfold memory_policies. destruct file as [text|]; [|done]. destruct (_ && _); [|done].
  intros (qs & Hl & (Hf & [= <-])%require_bind_Ok)%bind_Ok. split; [by eapply policy_loop_ok; [|exact Hl]|].
  intros ap Hap%list_elem_of_In. eapply forallb_forall in Hf; [|exact Hap]. unfold dict_has in Hf. by destruct (dict_get ap qs).
Qed.

(** ** The context a process is bound to *)

(** The types of an accepted context. *)
Record context_shape (ps : list (string * Policy)) (d : list (string * json)) : Prop := {
  cx_keys : list_to_set (C := gset string) d.*1 = list_to_set CONTEXT_FIELDS;
  cx_schema : dget "schema" d = JStr CONTEXT_SCHEMA;
  cx_task : ∃ t, dget "task_id" d = JStr t ∧ fullmatch TASK_RE t = true;
  cx_attempt : ∃ a, dget "attempt_id" d = JStr a ∧ fullmatch ATTEMPT_RE a = true;
  cx_generation : ∃ g, dget "generation" d = JInt g ∧ 1 <= g;
  cx_mode : ∃ m, dget "mode" d = JStr m ∧ m ∈ ACCEPTED_ENGAGEMENT_MODES;
  cx_aperture : ∃ ap, dget "aperture" d = JStr ap ∧ is_Some (dict_get ap ps) ∧
    (dget "focus" d ≠ JNull ↔ ap = "focused");
  cx_focus : focus_ok (dget "focus" d) = true
}.

Definition identity_agrees (who : Identity) (d : list (string * json)) : Prop :=
  agrees (want_task_id who) (dget "task_id" d) = true ∧ agrees (want_attempt_id who) (dget "attempt_id" d) = true ∧
  agrees (want_generation who) (dget "generation" d) = true ∧ agrees (want_mode who) (dget "mode" d) = true.

(** The start a creation time demands. *)
Definition created_agrees (created : json) (d : list (string * json)) : Prop :=
  created = JNull ∨
  ∃ z, created = JInt z ∧ 0 < z ∧ z * 1000000 <= MAX_MICROS ∧ dget "engagement_start" d = JStr (isoformat_Z z).

Lemma str_test (v : json) (p : string → bool) :
  match v with JStr s => p s | _ => false end = true ↔ ∃ s, v = JStr s ∧ p s = true.
Proof. destruct v; naive_solver. Qed.

Lemma created_Ok created d u :
  match created with
  | JNull => Ok tt
  | JInt z =>
      require (0 <? z) "memory engagement creation time is invalid";;
      match created_text z with
      | Some expected => require (py_eq (dget "engagement_start" d) (JStr expected)) "memory engagement start is inconsistent"
      | None => deny_clearance "memory engagement creation time is invalid"
      end
  | _ => deny_clearance "memory engagement creation time is invalid"
  end = Ok u ↔ created_agrees created d.
Proof.
  unfold created_agrees, created_text. destruct u. destruct created; try naive_solver.
  rewrite require_bind_Ok. destruct (_ <=? MAX_MICROS) eqn:E.
  - rewrite require_Ok, py_eq_str. split.
    + intros [? ?]. right. eexists. split; [done|]. split_and!; [lia..|done].
    + intros [|(z' & [= <-] & ? & ? & ?)]; [done|]. split; [lia|done].
  - split; [by intros [_ ?]|]. intros [|(z' & [= <-] & ? & ? & ?)]; [done|lia].
Qed.

Lemma validate_context_Ok file v who created d :
  validate_memory_context file v who created = Ok d ↔
  v = JObj d ∧ (∃ ps, memory_policies file = Ok ps ∧ context_shape ps d) ∧ identity_agrees who d ∧
  created_agrees created d ∧ ∃ ns, _timestamp_ns (dget "engagement_start" d) "engagement_start" = Ok ns.
Proof.
  unfold validate_memory_context. destruct v as [| | | | |d']; try (by split; [|intros [? _]]).
  rewrite !require_bind_Ok, bind_Ok, bool_decide_eq_true, py_eq_str, !str_test.
  assert (Htail : ∀ ps : list (string * Policy), (raise_if match dget "aperture" d' with JList _ | JObj _ => true | _ => false end TypeError "unhashable type" = Ok tt ∧
      str_member (dget "aperture" d') ps.*1 = true ∧
      Bool.eqb (py_eq (dget "aperture" d') (JStr "focused")) (negb (py_eq (dget "focus" d') JNull)) = true) ↔
    ∃ ap, dget "aperture" d' = JStr ap ∧ is_Some (dict_get ap ps) ∧ (dget "focus" d' ≠ JNull ↔ ap = "focused")).
  { intros ps. destruct (dget "aperture" d') as [| | |ap| |]; try (by split; [intros (? & ? & ?)|intros (? & ? & _)]). cbn [str_member].
    rewrite bool_decide_eq_true, dict_get_key. cbn [py_eq]. rewrite Bool.eqb_true_iff.
    assert (Hf : negb (py_eq (dget "focus" d') JNull) = true ↔ dget "focus" d' ≠ JNull).
    { rewrite negb_true_iff, <- not_true_iff_false, py_eq_null. done. }
    destruct (negb (py_eq (dget "focus" d') JNull)), (bool_decide_reflect (ap = "focused")); naive_solver. }
  split.
  - intros (Hk & Hs & Ht & Ha & Hg & Hm & ps & Hps & H). apply bind_Ok in H as ([] & Hu & H).
    rewrite !require_bind_Ok in H. destruct H as (Hap & Hfo & Hfe & Hid & H). rewrite !andb_true_iff in Hid.
    apply bind_Ok in H as ([] & Hcr%created_Ok & H). apply bind_Ok in H as (ns & Hns & [= <-]).
    destruct (proj1 (Htail ps)) as (ap & Hap'); [done|]. split; [done|]. split; [|unfold identity_agrees; naive_solver].
    exists ps. split; [done|]. destruct (dget "mode" d') as [| | |m| |] eqn:Em; try done. destruct (dget "generation" d') as [| |g| | |] eqn:Eg; try done.
    split; try done; rewrite ?Eg, ?Em; cbn in Hm; bool_inv; eauto.
  - intros ([= <-] & (ps & Hps & [Hk Hs Ht Ha Hg Hm Hap Hfo]) & Hid & Hcr & ns & Hns). destruct (proj2 (Htail ps) Hap) as (? & ? & ?).
    destruct Hg as (g & Eg & Hg), Hm as (m & Em & Hm). rewrite Eg, Em in *. split_and!; [done..|lia|cbn; by case_bool_decide|].
    exists ps. split; [done|]. apply (bind_intro _ _ tt); [done|]. rewrite !require_bind_Ok.
    split_and!; [done..| |]. { rewrite !andb_true_iff. unfold identity_agrees in Hid. rewrite ?Eg, ?Em in Hid. tauto. }
    apply (bind_intro _ _ tt); [by apply created_Ok|]. by apply (bind_intro _ _ ns).
Qed.

Lemma memory_context_bound file environ e :
  memory_context file environ = Ok (Some e) →
  ∃ ap ps, dget "aperture" (fields e) = JStr ap ∧ memory_policies file = Ok ps ∧
    dict_get ap ps = Some (policy e) ∧ context_shape ps (fields e) ∧
    _timestamp_ns (dget "engagement_start" (fields e)) "engagement_start" = Ok (engagement_start_ns e).
Proof.
  unfold memory_context. destruct (environ CONTEXT_ENV) as [raw|]; [|done]. rewrite require_bind_Ok. intros [_ H].
  destruct (loads_unique raw) as [v|]; [|done]. apply bind_Ok in H as (d & Hd & H).
  apply bind_Ok in H as (ns & Hns & H). apply bind_Ok in H as (ps & Hps & [= <-]). cbn [fields engagement_start_ns policy].
  apply validate_context_Ok in Hd as (_ & (ps' & Hps' & Hsh) & _). assert (ps' = ps) as -> by congruence.
  destruct (cx_aperture _ _ Hsh) as (ap & Hap & [p Hp] & _). exists ap, ps. rewrite Hap. unfold Policy in *. rewrite Hp. by split_and!.
Qed.

Lemma operation_Ok file environ op e :
  require_memory_operation file environ op = Ok (Some e) ↔
  op ∈ VAULT_OPERATIONS ∧ memory_context file environ = Ok (Some e) ∧ permits op (policy e) = true.
Proof.
  unfold require_memory_operation. rewrite bind_Ok. setoid_rewrite raise_if_Ok. split.
  - intros (_ & Hop & ([e'|] & Hc & H)%bind_Ok); [|done]. apply require_bind_Ok in H as [Hp [= <-]]. bool_inv. done.
  - intros (Hop & Hc & Hp). exists tt. split; [by rewrite bool_decide_eq_true_2|]. rewrite Hc. cbn [mbind res_bind].
    by apply require_bind_Ok.
Qed.

(** The fields of a recorded note that the engagement decides. *)
Definition stamped_keys : list string := ["status"; "source_task"; "created_at"; "updated_at"; "sensitivity"; "target"].

(** The caller's own values are compatible with the engagement. *)
Definition record_accepts (e : Engagement) (note : list (string * json)) : Prop :=
  permits "record" (policy e) = true ∧
  (dict_get "status" note = None ∨ dict_get "status" note = Some (JStr "candidate")) ∧
  (dict_get "source_task" note = None ∨ dict_get "source_task" note = Some (JStr (text_field "task_id" e))) ∧
  ∀ focus, focus_of e = Some focus →
    dget "target" note = JNull ∨ dget "target" note = JStr "none" ∨ dget "target" note = JStr focus.

(** What the accepted note carries, key by key. *)
Definition record_result (e : Engagement) (now : string) (note : list (string * json)) (k : string) : json :=
  if bool_decide (k = "status") then JStr "candidate"
  else if bool_decide (k = "source_task") then JStr (text_field "task_id" e)
  else if bool_decide (k = "created_at") || bool_decide (k = "updated_at") then JStr now
  else if bool_decide (k = "sensitivity") && bool_decide (write_floor (text_field "mode" e) (policy e) = RESTRICTED)
  then JStr RESTRICTED
  else if bool_decide (k = "target") then match focus_of e with Some focus => JStr focus | None => dget k note end
  else dget k note.

Lemma default_str_eq (o : option json) (s : string) :
  py_eq (default (JStr s) o) (JStr s) = true ↔ o = None ∨ o = Some (JStr s).
Proof. rewrite py_eq_str. destruct o; cbn; naive_solver. Qed.

Lemma target_allowed_Ok v focus :
  target_allowed v focus = Ok true ↔ v = JNull ∨ v = JStr "none" ∨ v = JStr focus.
Proof.
  destruct v as [| | |s| |]; try (split; [by intros [=]|by intros [|[|]]]); cbn [target_allowed]; [naive_solver|].
  assert (Ok (bool_decide (s = "none") || bool_decide (s = focus)) = Ok true ↔ s = "none" ∨ s = focus) as ->.
  { destruct (bool_decide_reflect (s = "none")), (bool_decide_reflect (s = focus)); naive_solver. }
  naive_solver.
Qed.

(** A decision followed by the test of its answer. *)
Lemma decided_bind_Ok {A} (m : res bool) msg (k : res A) a :
  (ok ← m; require ok msg;; k) = Ok a ↔ m = Ok true ∧ k = Ok a.
Proof.
  rewrite bind_Ok. setoid_rewrite require_bind_Ok. split; [intros (b & ? & -> & ?); done|intros [? ?]; by exists true].
Qed.

Lemma record_policy_Ok file environ now note e result :
  memory_context file environ = Ok (Some e) →
  apply_record_policy file environ now note = Ok result ↔ record_accepts e note ∧
    result = (let stamped := dict_set "updated_at" (JStr now) (dict_set "created_at" (JStr now)
                (dict_set "source_task" (JStr (text_field "task_id" e)) (dict_set "status" (JStr "candidate") note))) in
              let floored := if bool_decide (write_floor (text_field "mode" e) (policy e) = RESTRICTED)
                             then dict_set "sensitivity" (JStr RESTRICTED) stamped else stamped in
              match focus_of e with Some focus => dict_set "target" (JStr focus) floored | None => floored end).
Proof.
  intros Hc. unfold apply_record_policy, record_accepts. rewrite bind_Ok. split.
  - intros (o & Ho & H). unfold require_memory_operation in Ho. rewrite Hc in Ho. apply bind_Ok in Ho as (_ & _ & Ho).
    cbn [mbind res_bind] in Ho. apply require_bind_Ok in Ho as [Hp [= <-]]. rewrite !require_bind_Ok in H.
    destruct H as (Hs%default_str_eq & Ht & H). rewrite dict_get_set, decide_False in Ht by done. apply default_str_eq in Ht.
    destruct (focus_of e) as [focus|]; [|injection H as <-; naive_solver].
    apply decided_bind_Ok in H as [Hta%target_allowed_Ok [= <-]]. split; [|done]. split_and!; [done..|].
    intros ? [= <-]. revert Hta. destruct (bool_decide _); rewrite !dget_set; repeat (rewrite decide_False by done); done.
  - intros [(Hp & Hs & Ht & Hf) ->]. exists (Some e). split; [by apply operation_Ok; split; [by_decide|]|].
    rewrite !require_bind_Ok, !default_str_eq. split; [done|]. rewrite dict_get_set, decide_False by done. split; [done|].
    destruct (focus_of e) as [focus|]; [|done]. rewrite decided_bind_Ok, target_allowed_Ok. split; [|done].
    destruct (bool_decide _); rewrite !dget_set; repeat (rewrite decide_False by done); by apply Hf.
Qed.

Lemma bound_policy_ok file environ e :
  memory_context file environ = Ok (Some e) →
  policy_ok (text_field "aperture" e) (policy e) ∧ text_field "mode" e ∈ ACCEPTED_ENGAGEMENT_MODES.
Proof.
  intros (ap & ps & Hap & Hps & Hp & Hsh & _)%memory_context_bound. unfold text_field. rewrite Hap. split.
  - apply memory_policies_ok in Hps as [Hok _]. by apply Hok.
  - destruct (cx_mode _ _ Hsh) as (m & -> & Hm). done.
Qed.

(** Where notes may be recorded, only a project's notes may stay unrestricted. *)
Lemma floor_restricted e :
  policy_ok (text_field "aperture" e) (policy e) → text_field "mode" e ∈ ACCEPTED_ENGAGEMENT_MODES →
  permits "record" (policy e) = true → text_field "mode" e ≠ "project" →
  write_floor (text_field "mode" e) (policy e) = RESTRICTED.
Proof.
  intros Hok Hm Hr Hp. destruct (po_record _ _ Hok Hr) as (_ & _ & Hb). unfold write_floor.
  unfold ACCEPTED_ENGAGEMENT_MODES, MEMORY_ENGAGEMENT_MODES in *. rewrite !elem_of_cons, elem_of_nil in Hm.
  destruct Hm as [-> | [-> | [?|[]]]]; [| |done].
  - rewrite bool_decide_eq_true_2 by done. rewrite bool_decide_eq_true_2; [done|]. apply list_elem_of_In. left. exact Hb.
  - rewrite bool_decide_eq_false_2 by done. exact Hb.
Qed.

(** Recording a note under an engagement succeeds exactly when the aperture
    permits it and the caller's status, source task and target fit the
    engagement; the note then carries the engagement's values for these, the
    clock's for its times and is otherwise the caller's, and only a project
    engagement can leave a note unrestricted. *)
Theorem record_policy_exact file environ now note e :
  memory_context file environ = Ok (Some e) →
  (record_accepts e note ↔ ∃ result, apply_record_policy file environ now note = Ok result) ∧
  ∀ result, apply_record_policy file environ now note = Ok result →
    (∀ k, dget k result = record_result e now note k) ∧
    (text_field "mode" e ≠ "project" → dget "sensitivity" result = JStr RESTRICTED).
Proof.
  intros Hc. split.
  { split.
    - intros Ha. eexists. by apply (record_policy_Ok _ _ _ _ e).
    - intros (result & H). by apply (record_policy_Ok _ _ _ _ e) in H as [Ha _]. }
  intros result H. apply (record_policy_Ok _ _ _ _ e) in H as [Ha ->]; [|done]. cbv zeta.
  match goal with |- (∀ k, dget k ?r = _) ∧ _ => assert (Hk : ∀ k, dget k r = record_result e now note k) end.
  - intros k. unfold record_result. destruct (focus_of e) as [focus|], (bool_decide (write_floor _ _ = RESTRICTED));
      rewrite !dget_set; rewrite ?andb_true_r, ?andb_false_r;
      repeat (case_decide; [subst; vm_compute; reflexivity|]); repeat (rewrite bool_decide_eq_false_2 by done); by repeat case_bool_decide.
  - split; [exact Hk|]. intros Hm. rewrite Hk. destruct (bound_policy_ok _ _ _ Hc) as [Hok Hmm]. unfold record_result.
    by rewrite (floor_restricted e Hok Hmm) by (done || apply Ha).
Qed.

(** ** Reading *)

Lemma py_str_word v w c t :
  w = String c t → is_lower c = true → py_str v = w ↔ v = JStr w.
Proof.
  intros -> Hc. split; [|by intros ->]. intros H.
  assert (Hhead : ∀ d u, py_str v = String d u → is_lower d = true) by (intros d u Hd; rewrite H in Hd; by injection Hd as <- <-).
  destruct v as [|[]|z|s|l|d]; try (by specialize (Hhead _ _ eq_refl)).
  - destruct (str_of_int_head z) as (d & u & Hz & Hd). specialize (Hhead d u Hz).
    destruct Hd as [->|Hd]; [done|]. unfold is_lower, is_digit in *. lia.
  - cbn in H. by subst.
Qed.

Lemma can_read_Ok v environ :
  can_read (py_str v) (lane_clearance environ) = true ↔
  v = JStr INTERNAL ∨ v = JStr RESTRICTED ∧ environ "CHRONO_VAULT_CLEARANCE" = Some RESTRICTED.
Proof.
  assert (Hi : py_str v = INTERNAL ↔ v = JStr INTERNAL) by (by eapply py_str_word).
  assert (Hr : py_str v = RESTRICTED ↔ v = JStr RESTRICTED) by (by eapply py_str_word).
  unfold can_read, lane_clearance. rewrite <- Hi, <- Hr. generalize (py_str v) as s. intros s. clear Hi Hr.
  destruct (bool_decide_reflect (s ∈ SENSITIVITIES)) as [Hs|Hs]; cbn [negb].
  2:{ split; [done|]. intros [-> |[-> _]]; destruct Hs; unfold SENSITIVITIES; set_solver. }
  destruct (bool_decide_reflect (s = INTERNAL)) as [->|Hn]; [naive_solver|].
  destruct (bool_decide_reflect (environ "CHRONO_VAULT_CLEARANCE" = Some RESTRICTED)) as [E|E]; rewrite andb_true_iff, bool_decide_eq_true.
  - rewrite bool_decide_eq_true_2 by done. naive_solver.
  - rewrite bool_decide_eq_false_2 by done. naive_solver.
Qed.

Lemma str_member_Ok v l : str_member v l = true ↔ ∃ s, v = JStr s ∧ s ∈ l.
Proof. destruct v; cbn; try naive_solver. rewrite bool_decide_eq_true. naive_solver. Qed.

(** What an engagement may see of the vault. *)
Record note_visible (environ : string → option string) (e : Engagement) (note : list (string * json)) : Prop := {
  nv_permitted : permits "get_note" (policy e) = true;
  nv_cleared : dget "sensitivity" note = JStr INTERNAL ∨
    dget "sensitivity" note = JStr RESTRICTED ∧ environ "CHRONO_VAULT_CLEARANCE" = Some RESTRICTED;
  nv_status : ∃ s, dget "status" note = JStr s ∧ s ∈ split_char "|" (pget "statuses" (policy e));
  nv_type : ∃ t, dget "type" note = JStr t ∧ t ∈ split_char "|" (pget "note_types" (policy e));
  nv_focus : ∀ focus, focus_of e = Some focus → dget "target" note = JStr focus;
  nv_before : pget "written_before" (policy e) = "engagement_start" →
    ∃ t, _timestamp_ns (dget "created_at" note) "created_at" = Ok t ∧ t < engagement_start_ns e
}.

(** C8. A note is shown to an engagement exactly when its aperture permits
    reading, the lane is cleared for the note's sensitivity, status and type are
    in the aperture's row, the target is the focus if there is one, and the note
    is older than the engagement where the row demands it. *)
Theorem visible_exact file environ e note :
  memory_context file environ = Ok (Some e) →
  require_note_visible file environ note = Ok tt ↔ note_visible environ e note.
Proof.
  intros Hc. unfold require_note_visible, require_note_within_clearance. rewrite bind_Ok.
  assert (Hfoc : match focus_of e with Some focus => py_eq (dget "target" note) (JStr focus) | None => true end = true ↔
    ∀ focus, focus_of e = Some focus → dget "target" note = JStr focus).
  { destruct (focus_of e); [rewrite py_eq_str|]; naive_solver. }
  assert (Htime : (if bool_decide (pget "written_before" (policy e) = "engagement_start") then
        created ← _timestamp_ns (dget "created_at" note) "created_at";
        require (created <? engagement_start_ns e) "memory note was created after engagement start" else Ok tt) = Ok tt ↔
    (pget "written_before" (policy e) = "engagement_start" →
     ∃ t, _timestamp_ns (dget "created_at" note) "created_at" = Ok t ∧ t < engagement_start_ns e)).
  { case_bool_decide; [|naive_solver]. rewrite bind_Ok. setoid_rewrite require_Ok. setoid_rewrite Z.ltb_lt. naive_solver. }
  split.
  - intros (o & Ho & H). rewrite require_bind_Ok in H. destruct H as [Hr%can_read_Ok H].
    destruct o as [e'|].
    + apply operation_Ok in Ho as (_ & Hc' & Hp). assert (e' = e) as -> by congruence.
      rewrite !require_bind_Ok, !str_member_Ok in H. destruct H as (Hs & Ht & Hf & Hw).
      split; [done..|exact (proj1 Hfoc Hf)|exact (proj1 Htime Hw)].
    + unfold require_memory_operation in Ho. rewrite Hc in Ho. apply bind_Ok in Ho as (? & _ & Ho). cbn [mbind res_bind] in Ho.
      by apply require_bind_Ok in Ho as [_ [=]].
  - intros [Hp Hr Hs Ht Hf Hw]. exists (Some e). split; [by apply operation_Ok; split; [by_decide|]|].
    rewrite !require_bind_Ok, !str_member_Ok. split; [by apply can_read_Ok|]. split; [done|]. split; [done|].
    split; [exact (proj2 Hfoc Hf)|exact (proj2 Htime Hw)].
Qed.

(** ** The environment of a worker *)

(** The vault paths in a worker's environment agree with what its aperture
    lets it do: under an aperture that permits some operation the environment is
    passed on unchanged, under one that permits none every vault path is gone
    and nothing else; and a process bound to an engagement that may perform any
    operation was handed its environment unchanged. *)
Theorem environment_follows_aperture file environ environment env' ap :
  project_worker_vault_environment file environment ap = Ok env' →
  (∃ ps p, memory_policies file = Ok ps ∧ dict_get ap ps = Some p ∧
    ((∃ op, op ∈ VAULT_OPERATIONS ∧ permits op p = true) → env' = environment) ∧
    ((∀ op, op ∈ VAULT_OPERATIONS → permits op p = false) →
      (∀ k, k ∈ VAULT_PATH_ENV → k ∉ env'.*1) ∧
      (∀ kv, kv.1 ∉ VAULT_PATH_ENV → kv ∈ environment ↔ kv ∈ env') ∧ env' `sublist_of` environment)) ∧
  (∀ op e, require_memory_operation file environ op = Ok (Some e) → text_field "aperture" e = ap → env' = environment).
Proof.
  intros (ent & Hent & Henv)%bind_Ok. unfold vault_path_entitlement in Hent. apply bind_Ok in Hent as (ps & Hps & Hent).
  destruct (dict_get ap ps) as [p|] eqn:Hp; [|done]. injection Hent as Hent.
  assert (Hany : (∃ op, op ∈ VAULT_OPERATIONS ∧ permits op p = true) ↔ ent ≠ PATH_NONE).
  { rewrite <- Hent. cbn [existsb VAULT_READ_OPERATIONS]. unfold VAULT_OPERATIONS.
    destruct (permits "recall" p) eqn:E1, (permits "get_note" p) eqn:E2, (permits "browse" p) eqn:E3, (permits "record" p) eqn:E4;
      cbn; (split; [|intros]); try done; intros; try (by eexists; split; [|eassumption]; by_decide).
    intros _. destruct H as (op & Hop & Hpe). rewrite !elem_of_cons, elem_of_nil in Hop.
    destruct Hop as [-> |[-> |[-> |[-> |[]]]]]; congruence. }
  assert (Hkeep : (∃ op, op ∈ VAULT_OPERATIONS ∧ permits op p = true) → env' = environment).
  { intros Hn%Hany. rewrite bool_decide_eq_false_2 in Henv by done. by injection Henv as <-. }
  split.
  - exists ps, p. split; [done|]. split; [done|]. split; [done|]. intros Hnone.
    assert (ent = PATH_NONE) as ->.
    { destruct (decide (ent = PATH_NONE)) as [|Hn]; [done|]. apply Hany in Hn as (op & Hop & Hpe). rewrite Hnone in Hpe; done. }
    rewrite bool_decide_eq_true_2 in Henv by done. injection Henv as <-. split_and!.
    + intros k Hk ([k' v] & -> & Hin)%list_elem_of_fmap. apply elem_of_filter_list in Hin as [_ Hin%negb_true_iff%bool_decide_eq_false]. done.
    + intros kv Hkv. rewrite elem_of_filter_list, bool_decide_eq_false_2 by done. naive_solver.
    + apply filter_sublist.
  - intros op e (Hop & (ap' & ps' & Hap & Hps' & Hpol & _)%memory_context_bound & Hpe)%operation_Ok <-.
    apply Hkeep. unfold text_field in Hp. rewrite Hap in Hp. exists op. split; [done|].
    assert (ps' = ps) as -> by (unfold Policy in *; congruence). assert (policy e = p) as <- by (unfold Policy in *; congruence). done.
Qed.

(** ** Handing a context to a lane process *)

Lemma created_ns z :
  0 < z → z * 1000000 <= MAX_MICROS →
  _timestamp_ns (JStr (isoformat_Z z)) "engagement_start" = Ok (timestamp_ns (z * 1000000)).
Proof.
  intros Hz Hmax. unfold _timestamp_ns. unfold MAX_MICROS, day_micros in Hmax.
  change (day_number 9999 12 31) with 2932896 in Hmax.
  assert (0 <= z / 86400 + 719162 <= 3652058) as Hr by (pose proof (Z.div_mod z 86400); pose proof (Z.mod_pos_bound z 86400); lia).
  destruct (isoformat_secs_chars z) as [Hc Hl]. rewrite isoformat_Z_read by done.
  replace (String.length (isoformat_Z z) <=? 64)%nat with true by (unfold isoformat_Z; rewrite str_length_app, Hl; done).
  rewrite bool_decide_eq_false_2.
  - cbn [negb andb]. unfold to_utc, MIN_MICROS, MAX_MICROS, day_micros. change (day_number 1 1 1) with (-719162).
    change (day_number 9999 12 31) with 2932896. rewrite Z.sub_0_r.
    replace ((-719162 * (86400 * 1000000) <=? z * 1000000) && (z * 1000000 <=? (2932896 + 1) * (86400 * 1000000) - 1)) with true by lia.
    done.
  - unfold isoformat_Z. destruct (isoformat_secs z) as [|c t]; [done|]. rewrite str_app_cons.
    cbn [str_forallb] in Hc. apply andb_true_iff in Hc as [[Hc%negb_true_iff _]%andb_true_iff _].
    unfold py_strip. rewrite lstrip_by_head by done. cbn [rstrip_by]. by destruct (rstrip_by _ _); rewrite ?Hc.
Qed.

(** Every value of a context is a string, a number or null. *)
Lemma context_scalar ps d t :
  context_shape ps d → dget "engagement_start" d = JStr t →
  ∀ k, match dget k d with JNull | JStr _ | JInt _ => True | _ => False end.
Proof.
  intros [Hk Hs (? & Ht & _) (? & Ha & _) (? & Hg & _) (? & Hm & _) (? & Hap & _) Hf] Hst k.
  destruct (dict_get k d) as [v|] eqn:E; [|unfold dget; by rewrite E].
  assert (Hin : k ∈ d.*1) by (apply dict_get_key; eauto).
  apply (elem_of_list_to_set (C := gset string)) in Hin. rewrite Hk, elem_of_list_to_set in Hin.
  unfold CONTEXT_FIELDS in Hin. rewrite !elem_of_cons, elem_of_nil in Hin.
  destruct Hin as [-> |[-> |[-> |[-> |[-> |[-> |[-> |[-> |[]]]]]]]]]; rewrite ?Hs, ?Ht, ?Ha, ?Hg, ?Hm, ?Hap, ?Hst; try done.
  unfold focus_ok in Hf. by destruct (dget "focus" d).
Qed.

(** Hand-off: a context that the launcher validated for its task and
    creation time and passes on as JSON is what the lane process reads back,
    value by value, bound to the table's row for its aperture and with the
    creation time as its cutoff. *)
Theorem context_handoff file environ who z d ea :
  validate_memory_context file (JObj d) who (JInt z) = Ok d → NoDup d.*1 →
  environ CONTEXT_ENV = Some (dumps ea (JObj d)) → (length (encode_utf8 (dumps ea (JObj d))) <= 4096)%nat →
  ∃ e ap ps p, memory_context file environ = Ok (Some e) ∧ (∀ k, dget k (fields e) = dget k d) ∧
    dget "aperture" d = JStr ap ∧ memory_policies file = Ok ps ∧ dict_get ap ps = Some p ∧ policy e = p ∧
    engagement_start_ns e = timestamp_ns (z * 1000000).
Proof.
  intros (_ & (ps & Hps & Hsh) & Hid & Hcr & ns & Hns)%validate_context_Ok Hnd Henv Hlen.
  destruct Hcr as [|(z' & [= <-] & Hz & Hmax & Hst)]; [done|]. rewrite Hst, created_ns in Hns by done. injection Hns as <-.
  pose proof (context_scalar ps d (isoformat_Z z) Hsh Hst) as Hsc.
  destruct (cx_aperture _ _ Hsh) as (ap & Hap & [p Hp] & Hfo).
  assert (Hwf : json_wf (JObj d) = true).
  { apply json_wf_obj. split; [done|]. apply Forall_forall. intros [k v] Hin. apply dict_get_elem in Hin; [|done].
    specialize (Hsc k). unfold dget in Hsc. rewrite Hin in Hsc. cbn in Hsc |- *. by destruct v. }
  set (d' := map (λ kv, (kv.1, json_canon kv.2)) (sort_by key_leb d)).
  assert (Hget : ∀ k, dget k d' = dget k d).
  { intros k. specialize (Hsc k). revert Hsc. unfold dget, d'. rewrite dict_get_canon by done.
    destruct (dict_get k d) as [v|]; [|done]. by destruct v. }
  assert (Hsh' : context_shape ps d').
  { destruct Hsh as [Hk Hs Ht Ha Hg Hm Hapx Hf]. split; rewrite ?Hget; try done.
    rewrite <- Hk. unfold d'. rewrite <- list_fmap_compose. change (fst ∘ _) with (@fst string json).
    by rewrite (sort_by_perm key_leb d). }
  assert (Hns : _timestamp_ns (dget "engagement_start" d') "engagement_start" = Ok (timestamp_ns (z * 1000000)))
    by (rewrite Hget, Hst; by apply created_ns).
  exists {| fields := d'; engagement_start_ns := timestamp_ns (z * 1000000); policy := p |}, ap, ps, p.
  split; [|by split_and!]. unfold memory_context. rewrite Henv, require_bind_Ok. split.
  { apply andb_true_iff. split; [|by apply Nat.leb_le]. apply negb_true_iff, bool_decide_eq_false.
    destruct (dumps_head ea (JObj d)) as (? & ? & -> & _). done. }
  rewrite loads_unique_dumps, canon_obj by done. fold d'.
  apply (bind_intro _ _ d'). { apply validate_context_Ok. split; [done|]. split; [by exists ps|]. split; [done|]. split; [by left|]. by eexists. }
  apply (bind_intro _ _ _ _ Hns). apply (bind_intro _ _ _ _ Hps). rewrite Hget, Hap. unfold Policy in *. by rewrite Hp.
Qed.

(** ** A focused bounty engagement under the repository's table *)

Definition demo_created : Z := 1786959000.
Definition demo_fields : list (string * json) :=
  [("schema", JStr CONTEXT_SCHEMA); ("task_id", JStr "TASK-2026-08-17-0001-recon"); ("attempt_id", JStr "d-0123456789abcdef0123456789abcdef");
   ("generation", JInt 2); ("mode", JStr "bounty"); ("aperture", JStr "focused"); ("focus", JStr "acme");
   ("engagement_start", JStr (isoformat_Z demo_created))].
Definition demo_environ (v : string) : option string :=
  if bool_decide (v = CONTEXT_ENV) then Some (dumps true (JObj demo_fields)) else None.
Definition demo_table : option string := Some memory_apertures_tsv.
Definition demo_engagement : Engagement :=
  Eval vm_compute in match memory_context demo_table demo_environ with
                     | Ok (Some e) => e
                     | _ => {| fields := []; engagement_start_ns := 0; policy := [] |}
                     end.
Definition demo_who : Identity :=
  {| want_task_id := JStr "TASK-2026-08-17-0001-recon"; want_attempt_id := JNull; want_generation := JInt 2; want_mode := JNull |}.
Definition demo_note : list (string * json) :=
  [("sensitivity", JStr "internal"); ("status", JStr "verified"); ("type", JStr "finding"); ("target", JStr "acme");
   ("created_at", JStr "2026-08-16T23:59:59+00:00")].

Lemma demo_bound : memory_context demo_table demo_environ = Ok (Some demo_engagement).
Proof. vm_compute. reflexivity. Qed.

Lemma record_policy_exact_witness :
  ∃ result, apply_record_policy demo_table demo_environ "now" [("target", JStr "none"); ("title", JStr "t")] = Ok result ∧
    dget "sensitivity" result = JStr RESTRICTED ∧ dget "target" result = JStr "acme".
Proof.
  destruct (record_policy_exact demo_table demo_environ "now" [("target", JStr "none"); ("title", JStr "t")] demo_engagement demo_bound)
    as [[Hex _] Hall].
  assert (Ha : record_accepts demo_engagement [("target", JStr "none"); ("title", JStr "t")]).
  { split; [by_decide|]. split; [left; reflexivity|]. split; [left; reflexivity|]. intros ? _. right. left. reflexivity. }
  destruct (Hex Ha) as [result Hr]. exists result. destruct (Hall result Hr) as [Hk Hs]. split; [exact Hr|].
  split; [apply Hs; by_decide|]. rewrite Hk. vm_compute. reflexivity.
Defined.

Lemma visible_exact_witness :
  require_note_visible demo_table demo_environ demo_note = Ok tt ∧ note_visible demo_environ demo_engagement demo_note.
Proof.
  assert (E : require_note_visible demo_table demo_environ demo_note = Ok tt) by (vm_compute; reflexivity).
  split; [exact E|]. exact (proj1 (visible_exact demo_table demo_environ demo_engagement demo_note demo_bound) E).
Defined.

Definition demo_environment : list (string * string) := [("PATH", "/bin"); ("CHRONO_VAULT_ROOT", "/vault")].

Lemma environment_follows_aperture_witness :
  project_worker_vault_environment demo_table demo_environment "none" = Ok [("PATH", "/bin")] ∧
  "CHRONO_VAULT_ROOT" ∉ [("PATH", "/bin")].*1.
Proof.
  assert (E : project_worker_vault_environment demo_table demo_environment "none" = Ok [("PATH", "/bin")]) by (vm_compute; reflexivity).
  split; [exact E|].
  destruct (environment_follows_aperture demo_table demo_environ _ _ _ E) as [(ps & p & Hps & Hp & _ & Hnone) _].
  apply Hnone; [|by_decide]. unfold demo_table in Hps. rewrite pinned_table in Hps. injection Hps as <-.
  vm_compute in Hp. injection Hp as <-. intros op Hop. unfold VAULT_OPERATIONS in Hop. rewrite !elem_of_cons, elem_of_nil in Hop.
  destruct Hop as [-> |[-> |[-> |[-> |[]]]]]; reflexivity.
Defined.

Lemma context_handoff_witness :
  validate_memory_context demo_table (JObj demo_fields) demo_who (JInt demo_created) = Ok demo_fields ∧
  ∃ e, memory_context demo_table demo_environ = Ok (Some e) ∧ engagement_start_ns e = timestamp_ns (demo_created * 1000000).
Proof.
  assert (E : validate_memory_context demo_table (JObj demo_fields) demo_who (JInt demo_created) = Ok demo_fields) by (vm_compute; reflexivity).
  split; [exact E|].
  destruct (context_handoff demo_table demo_environ demo_who demo_created demo_fields true E) as (e & _ & _ & _ & He & _ & _ & _ & _ & _ & Hs).
  - by_decide.
  - reflexivity.
  - vm_compute. lia.
  - exists e. split; [exact He|exact Hs].
Defined.
