(* ===== verification/Notes.v ===== *)
(** * Canonical notes ([plugins/chrono-vault/notes.py], the note parser of [index.py])

    A note is a dict of its front matter fields and its body.  [record] turns a
    caller's fields into a stored file; [_parse_note] reads a file back.  The
    vault's [notes] directory is a map from type and id to text; the clock and
    the random ids are arguments. *)
From S2P Require Import Prelude Regex PyRegex Sha256 Json PyText PyTime Privacy Clearance.

#[local] Open Scope Z_scope.

Abbreviation dict := (list (string * json)).

Definition NOTE_TYPES : list string := ["attempt"; "finding"; "learning"].
Definition NOTE_ID_RE : re := RSeq (rlit "mem-") (rtimes 12 (RChr is_hex)).
Definition CONTRADICTION_FIELD : string := "contradiction".
Definition CONTRADICTION_RELATIONSHIPS : list string := ["new"; "supersedes"; "coexists-with"].
Definition COEXISTS_REF_PREFIX : string := "coexists-with:".
Definition COEXISTS_CONDITION_PREFIX : string := "coexists-condition:".
Definition CONTENT_REF_PREFIX : string := "note-content-sha256:".
Definition MAX_COEXISTS_CONDITION_CHARS : nat := 512.
Definition STATUSES : list string := ["candidate"; "verified"; "superseded"; "invalidated"; "archived"].
Definition ATTACK_NOTE_TYPES : list string := ["attempt"; "finding"].
Definition NOT_APPLICABLE : string := "none".
Definition FRONTMATTER_FIELDS : list string :=
  ["schema_version"; "id"; "title"; "type"; "status"; "target"; "program"; "component"; "attack_class"; "sensitivity";
   "source_task"; "source_artifact_hash"; "created_at"; "updated_at"; "verified_at"; "valid_from"; "valid_to";
   "supersedes"; "superseded_by"; "aliases"; "keywords"; "evidence_refs"; "revision"].
Definition IGNORED_LOCATION_FIELDS : list string := ["id"; "path"; "dest"].
Definition DERIVED_FIELDS : list string := ["verified_at"].
Definition ALLOWED_INPUT_FIELDS : list string :=
  List.filter (λ f, negb (bool_decide (f ∈ DERIVED_FIELDS))) FRONTMATTER_FIELDS ++ IGNORED_LOCATION_FIELDS ++ ["body"].

Definition schema {A} (msg : string) : res A := Err (Exn SchemaError msg).
Definition schema_check (ok : bool) (msg : string) : res unit := raise_if (negb ok) SchemaError msg.

Definition nonempty_text (value : json) : bool :=
  match value with JStr s => negb (bool_decide (py_strip s = "")) | _ => false end.

Definition _require_nonempty_string (value : json) (field : string) : res json :=
  schema_check (nonempty_text value) (field +:+ " must be a non-empty string");; Ok value.
Definition _optional_string (value : json) (field : string) : res json :=
  match value with JNull => Ok JNull | _ => _require_nonempty_string value field end.
Definition is_str (v : json) : bool := match v with JStr _ => true | _ => false end.
Definition string_list (value : json) : bool :=
  match value with JList l => forallb is_str l | _ => false end.
Definition _string_list (value : json) (field : string) : res json :=
  schema_check (string_list value) (field +:+ " must be a list of strings");; Ok value.

Definition strings_of (v : json) : list string :=
  match v with JList l => omap (λ x, match x with JStr s => Some s | _ => None end) l | _ => [] end.
Definition refs_of (note : dict) : list string := strings_of (dget "evidence_refs" note).
Definition is_content_ref (ref : string) : bool := startswith ref CONTENT_REF_PREFIX.

(** The fields a content hash covers. *)
Definition hashed_fields : list string :=
  List.filter (λ k, negb (bool_decide (k ∈ ["id"; "created_at"; "updated_at"; "verified_at"; "revision"])))
    (FRONTMATTER_FIELDS ++ ["body"]).
Definition hash_payload (note : dict) : json := JObj (map (λ k, (k, dget k note)) hashed_fields).

(** [_refresh_content_ref]: the old content references go, the new one comes last. *)
Definition _refresh_content_ref (note : dict) : dict :=
  let evidence_refs := List.filter (λ r, negb (is_content_ref r)) (refs_of note) in
  let note := dict_set "evidence_refs" (JList (map JStr evidence_refs)) note in
  let digest := sha256_hex (encode_utf8 (dumps false (hash_payload note))) in
  dict_set "evidence_refs" (JList (map JStr (evidence_refs ++ [CONTENT_REF_PREFIX +:+ digest]))) note.

(** [fields.get(k, default)] *)
Definition get_or (k : string) (d : json) (fields : dict) : json := default d (dict_get k fields).
Definition member (v : json) (l : list string) : bool := str_member v l.
Definition int_one (v : json) : bool := match v with JInt 1 => true | _ => false end.
Definition or_none (v : json) : json := match v with JNull => JStr NOT_APPLICABLE | _ => v end.

Definition _normalize (now : string) (note_type : string) (fields : dict) : res dict :=
  schema_check (bool_decide (note_type ∈ NOTE_TYPES)) "type must be one of";;
  schema_check (forallb (λ k, bool_decide (k ∈ ALLOWED_INPUT_FIELDS)) fields.*1) "unknown fields";;
  let supplied_type := get_or "type" (JStr note_type) fields in
  schema_check (member supplied_type NOTE_TYPES) "type must be one of";;
  schema_check (py_eq supplied_type (JStr note_type)) "fields.type must match note_type";;
  let status := get_or "status" (JStr "candidate") fields in
  schema_check (member status STATUSES) "status must be one of";;
  let sensitivity := get_or "sensitivity" (JStr "internal") fields in
  schema_check (member sensitivity SENSITIVITIES) "sensitivity must be one of";;
  schema_check (int_one (get_or "schema_version" (JInt 1) fields)) "schema_version must be 1";;
  schema_check (int_one (get_or "revision" (JInt 1) fields)) "revision must be 1 for a new note";;
  created_at ← _require_nonempty_string (get_or "created_at" (JStr now) fields) "created_at";
  updated_at ← _require_nonempty_string (get_or "updated_at" (JStr now) fields) "updated_at";
  schema_check (py_eq (dget "valid_to" fields) JNull) "valid_to must be null for a new note";;
  title ← _require_nonempty_string (dget "title" fields) "title";
  schema_check match title with JStr s => negb (char_in LF s || char_in CR s) | _ => false end "title must be one line";;
  body ← _require_nonempty_string (dget "body" fields) "body";
  let body := match body with JStr s => JStr (if endswith s (String LF "") then s else s +:+ String LF "") | _ => body end in
  target ← (if bool_decide (note_type ∈ ATTACK_NOTE_TYPES) then _require_nonempty_string (dget "target" fields) "target"
            else t ← _optional_string (dget "target" fields) "target"; Ok (or_none t));
  attack_class ← (if bool_decide (note_type ∈ ATTACK_NOTE_TYPES) then _require_nonempty_string (dget "attack_class" fields) "attack_class"
                  else t ← _optional_string (dget "attack_class" fields) "attack_class"; Ok (or_none t));
  program ← _optional_string (dget "program" fields) "program";
  component ← _optional_string (dget "component" fields) "component";
  source_task ← _optional_string (dget "source_task" fields) "source_task";
  source_artifact_hash ← _optional_string (dget "source_artifact_hash" fields) "source_artifact_hash";
  valid_from ← _optional_string (dget "valid_from" fields) "valid_from";
  supersedes ← _string_list (get_or "supersedes" (JList []) fields) "supersedes";
  superseded_by ← _optional_string (dget "superseded_by" fields) "superseded_by";
  aliases ← _string_list (get_or "aliases" (JList []) fields) "aliases";
  keywords ← _string_list (get_or "keywords" (JList []) fields) "keywords";
  evidence_refs ← _string_list (get_or "evidence_refs" (JList []) fields) "evidence_refs";
  Ok (_refresh_content_ref
    [("schema_version", JInt 1); ("id", JNull); ("title", title); ("type", JStr note_type); ("status", status);
     ("target", target); ("program", program); ("component", component); ("attack_class", attack_class);
     ("sensitivity", sensitivity); ("source_task", source_task); ("source_artifact_hash", source_artifact_hash);
     ("created_at", created_at); ("updated_at", updated_at);
     ("verified_at", if py_eq status (JStr "verified") then updated_at else JNull);
     ("valid_from", valid_from); ("valid_to", JNull); ("supersedes", supersedes); ("superseded_by", superseded_by);
     ("aliases", aliases); ("keywords", keywords); ("evidence_refs", evidence_refs); ("revision", JInt 1);
     ("body", body)]).

(** ** The file *)

(** A string with every character spelled as an escape. *)
Fixpoint escaped (s : string) : string :=
  match s with
  | "" => ""
  | String c s => String backslash ("u00" +:+ String (hex4_digit (Z.shiftr (code c) 4)) (String (hex4_digit (Z.land (code c) 15)) (escaped s)))
  end.

(** [_frontmatter_json] of a scalar: its JSON text, screened; a string that
    screens itself but not in its JSON spelling is spelled in escapes. *)
Definition scalar_json (value : json) : res string :=
  match value with
  | JStr s =>
      require_screened s;;
      match require_screened (json_quote false s) with
      | Ok encoded => Ok encoded
      | Err _ => require_screened (String quote_char "" +:+ escaped s +:+ String quote_char "")
      end
  | _ => require_screened (dumps false value)
  end.

Fixpoint _frontmatter_json (value : json) : res string :=
  match value with
  | JList l => ws ← map_res _frontmatter_json l; Ok ("[" +:+ py_join ", " ws +:+ "]")
  | _ => scalar_json value
  end.

Definition field_line (note : dict) (field : string) : res string :=
  value ← _frontmatter_json (dget field note); Ok (field +:+ ": " +:+ value).

Definition body_of (note : dict) : string := match dget "body" note with JStr s => s | _ => "" end.

Definition _serialize (note : dict) : res string :=
  lines ← map_res (field_line note) FRONTMATTER_FIELDS;
  require_screened (py_join (String LF "") (("---" :: lines) ++ ["---"; ""]) +:+ body_of note).

(** ** Reading a note back *)

Definition malformed {A} (msg : string) : res A := Err (Exn MalformedNote msg).
Definition note_check (ok : bool) (msg : string) : res unit := raise_if (negb ok) MalformedNote msg.

Fixpoint frontmatter_loop (lines : list string) (frontmatter : dict) : res dict :=
  match lines with
  | [] => Ok frontmatter
  | line :: lines =>
      match cut ": " line with
      | None => malformed "frontmatter contains an invalid or duplicate key"
      | Some (key, encoded) =>
          note_check (negb (dict_has key frontmatter)) "frontmatter contains an invalid or duplicate key";;
          match loads encoded with
          | None => malformed "frontmatter value is invalid JSON"
          | Some v => frontmatter_loop lines (dict_set key v frontmatter)
          end
      end
  end.

Definition is_text (value : json) : bool := nonempty_text value.
Definition positive_int (v : json) : bool := match v with JInt z => 1 <=? z | _ => false end.
Definition text_or_null (v : json) : bool := match v with JNull => true | _ => is_text v end.

(** An aware timestamp's local time and offset, and its projection into UTC. *)
Definition aware_time (s : string) (field : string) : res (Z * Z) :=
  match fromisoformat (replace_Z s) with
  | None => malformed (field +:+ " is not ISO-8601")
  | Some (_, None) => malformed (field +:+ " requires a timezone")
  | Some (local, Some off) => Ok (local, off)
  end.
Definition in_range (t : Z * Z) (field : string) : res unit :=
  match to_utc t.1 t.2 with Some _ => Ok tt | None => malformed (field +:+ " is outside the supported range") end.
Definition text_of (v : json) : string := match v with JStr s => s | _ => "" end.

(** [_parse_note] in two steps: the fields and the body of a file, and their checks. *)
Definition split_note (text : string) : res (dict * string) :=
  match drop_prefix ("---" +:+ String LF "") text with
  | None => malformed "note is missing opening frontmatter"
  | Some rest =>
      match cut (String LF ("---" +:+ String LF "")) rest with
      | None => malformed "note is missing closing frontmatter"
      | Some (front, body) =>
          frontmatter ← frontmatter_loop (splitlines front) [];
          note_check (forallb (λ f, dict_has f frontmatter || bool_decide (f = "verified_at")) FRONTMATTER_FIELDS &&
                      forallb (λ k, bool_decide (k ∈ FRONTMATTER_FIELDS)) frontmatter.*1) "frontmatter fields differ";;
          Ok (if dict_has "verified_at" frontmatter then frontmatter else dict_set "verified_at" JNull frontmatter, body)
      end
  end.

Definition check_note (directory stem : string) (note : dict) : res unit :=
  let get f := dget f note in
  note_check (is_text (get "body")) "body must be a non-empty string";;
  note_check (is_text (get "id")) "id must be a non-empty string";;
  note_check (fullmatch NOTE_ID_RE (text_of (get "id"))) "id is not canonical";;
  note_check (py_eq (get "id") (JStr stem)) "id does not match filename";;
  note_check (int_one (get "schema_version")) "schema_version is invalid";;
  note_check (positive_int (get "revision")) "revision is invalid";;
  note_check (member (get "type") NOTE_TYPES && py_eq (get "type") (JStr directory)) "type does not match note directory";;
  note_check (member (get "status") STATUSES) "status is invalid";;
  note_check (member (get "sensitivity") SENSITIVITIES) "sensitivity is invalid";;
  note_check (is_text (get "title")) "title must be a non-empty string";;
  note_check (negb (char_in LF (text_of (get "title")) || char_in CR (text_of (get "title")))) "title must be one line";;
  for_each (λ f, note_check (is_text (get f)) (f +:+ " must be a non-empty string"))
    ["target"; "attack_class"; "created_at"; "updated_at"];;
  created_at ← aware_time (text_of (get "created_at")) "created_at";
  for_each (λ f, note_check (text_or_null (get f)) (f +:+ " must be a non-empty string"))
    ["program"; "component"; "source_task"; "source_artifact_hash"; "valid_from"; "superseded_by"];;
  note_check (py_eq (get "valid_to") JNull) "valid_to must be null";;
  for_each (λ f, note_check (string_list (get f)) (f +:+ " must be a list of strings"))
    ["aliases"; "keywords"; "evidence_refs"; "supersedes"];;
  in_range created_at "created_at";;
  match get "verified_at" with
  | JNull => Ok tt
  | v => note_check (is_text v) "verified_at must be a non-empty string";;
         t ← aware_time (text_of v) "verified_at"; in_range t "verified_at"
  end.

(** [_parse_note] of a regular, unchanged UTF-8 file [text] at
    [notes/<directory>/<stem>.md]; of the result the projection into index
    columns is left out. *)
Definition _parse_note (directory stem text : string) : res dict :=
  '(frontmatter, body) ← split_note text;
  let note := dict_set "body" (JStr body) frontmatter in
  check_note directory stem note;;
  Ok note.

(** ** Recording *)

(** What a caller declares about an existing note. *)
Inductive Directive :=
  | New
  | Supersedes (note_id : string)
  | CoexistsWith (note_id condition : string).

Definition _extract_contradiction_directive (fields : dict) : res (dict * Directive) :=
  match dict_get CONTRADICTION_FIELD fields with
  | None => Ok (fields, New)
  | Some raw =>
      let cleaned := List.filter (λ kv, negb (bool_decide (kv.1 = CONTRADICTION_FIELD))) fields in
      match raw with
      | JObj raw =>
          schema_check (forallb (λ k, bool_decide (k ∈ ["relationship"; "note_id"; "condition"])) raw.*1)
            "unknown contradiction fields";;
          let relationship := get_or "relationship" (JStr "new") raw in
          raise_if match relationship with JList _ | JObj _ => true | _ => false end TypeError "unhashable type";;
          schema_check (member relationship CONTRADICTION_RELATIONSHIPS) "contradiction.relationship must be one of";;
          let note_id := dget "note_id" raw in
          let condition := dget "condition" raw in
          if py_eq relationship (JStr "new") then
            schema_check (py_eq note_id JNull && py_eq condition JNull) "contradiction.new takes no note_id or condition";;
            Ok (cleaned, New)
          else
            schema_check match note_id with JStr s => fullmatch NOTE_ID_RE s | _ => false end
              "contradiction.note_id must be a canonical note id";;
            if py_eq relationship (JStr "supersedes") then
              schema_check (py_eq condition JNull) "contradiction.supersedes takes no condition";;
              Ok (cleaned, Supersedes (text_of note_id))
            else
              schema_check (nonempty_text condition) "contradiction.coexists-with requires a non-empty condition";;
              schema_check ((String.length (text_of condition) <=? MAX_COEXISTS_CONDITION_CHARS)%nat && negb (char_in NUL (text_of condition)))
                "contradiction.condition is too long or contains a null byte";;
              Ok (cleaned, CoexistsWith (text_of note_id) (text_of condition))
      | _ => schema "contradiction must be an object"
      end
  end.

(** [redact_fields] of the directive. *)
Definition redact_directive (d : Directive) : Directive :=
  match d with
  | New => New
  | Supersedes id => Supersedes (redact_text id)
  | CoexistsWith id condition => CoexistsWith (redact_text id) (redact_text condition)
  end.

Definition _apply_declared_relationship (note : dict) (directive : Directive) : dict :=
  match directive with
  | New => note
  | Supersedes target =>
      let supersedes := strings_of (dget "supersedes" note) in
      _refresh_content_ref
        (if bool_decide (target ∈ supersedes) then note
         else dict_set "supersedes" (JList (map JStr (supersedes ++ [target]))) note)
  | CoexistsWith target condition =>
      let marker := COEXISTS_REF_PREFIX +:+ target in
      let refs := List.filter (λ r, negb (is_content_ref r)) (refs_of note) in
      _refresh_content_ref
        (if bool_decide (marker ∈ refs) then note
         else dict_set "evidence_refs" (JList (map JStr (refs ++ [marker; COEXISTS_CONDITION_PREFIX +:+ condition]))) note)
  end.

(** A dict redacted value by value. *)
Definition redact_dict (note : dict) : dict := map (λ kv, (kv.1, redact_fields kv.2)) note.
Definition redact_json_dict (note : dict) : dict := map (λ kv, (kv.1, redact_json_fields kv.2)) note.

(** The notes on disk: type and id to text. *)
Abbreviation NoteFiles := (gmap (string * string) string).

(** [_new_note_id]: the first of a hundred drawn ids that is not taken. *)
Definition _new_note_id (files : NoteFiles) (note_type : string) (draws : list string) : res string :=
  match List.find (λ id, bool_decide (files !! (note_type, id) = None)) (map (λ hex, "mem-" +:+ hex) (take 100 draws)) with
  | Some id => Ok id
  | None => Err (Exn NoteWriteError "could not allocate a unique note id")
  end.

(** The note [_record] writes, before it has an id. *)
Definition prepared (file : option string) (environ : string → option string) (now now' : string)
    (note_type : string) (fields : dict) : res dict :=
  '(fields, directive) ← _extract_contradiction_directive fields;
  fields ← apply_record_policy file environ now fields;
  note ← _normalize now' note_type fields;
  let note := _refresh_content_ref (redact_dict note) in
  let note := _apply_declared_relationship note (redact_directive directive) in
  Ok (_refresh_content_ref (redact_json_dict note)).

(** [_record]: the new file and its id.  [now] and [now'] are the clock's
    texts in [apply_record_policy] and [_normalize]. *)
Definition _record (file : option string) (environ : string → option string) (now now' : string) (draws : list string)
    (files : NoteFiles) (note_type : string) (fields : dict) : res (NoteFiles * string) :=
  note ← prepared file environ now now' note_type fields;
  id ← _new_note_id files note_type draws;
  text ← _serialize (dict_set "id" (JStr id) note);
  Ok (<[(note_type, id) := text]> files, id).
