(* ===== verification/NotesProps.v ===== *)
(** * Notes survive their file

    What [_serialize] writes is clean and is what [_parse_note] reads, for
    values without U+0085; with one, a recorded note can no longer be read. *)
From S2P Require Import Prelude Regex PyRegex Sha256 Json PyText PyTime Privacy Clearance ClearanceProps Notes.

#[local] Open Scope Z_scope.
#[local] Opaque sha256_hex redact_text.

(** ** Values *)

(** [w] is a JSON string literal of [s]. *)
Definition quoted (w s : string) : Prop :=
  ∃ u, w = String quote_char u ∧ ∀ rest, parse_string (u +:+ rest) = Some (s, rest).

Lemma quoted_json s : quoted (json_quote false s) s.
Proof.
  exists (json_escape_str false s +:+ String quote_char ""). split; [done|]. intros rest.
  rewrite str_app_assoc, str_app_cons, str_app_nil_l. apply parse_escape_str.
Qed.

Lemma quoted_escaped s : quoted (String quote_char "" +:+ escaped s +:+ String quote_char "") s.
Proof.
  exists (escaped s +:+ String quote_char ""). split; [done|]. intros rest. rewrite str_app_assoc, str_app_cons, str_app_nil_l.
  induction s as [|c s IH]; [done|]. cbn [escaped]. rewrite !str_app_cons, str_app_assoc, !str_app_cons, str_app_nil_l.
  assert (Hc : ∀ t, parse_string (String backslash (String "u" (String "0" (String "0"
      (String (hex4_digit (Z.shiftr (code c) 4)) (String (hex4_digit (Z.land (code c) 15)) t)))))) =
    match parse_string t with Some (t, r) => Some (String c t, r) | None => None end).
  { intros t. destruct c as [[] [] [] [] [] [] [] []]; reflexivity. }
  rewrite Hc. by rewrite IH.
Qed.

(** Texts and values that come back from the file: scalars and lists of strings. *)
Definition storable (v : json) : bool :=
  match v with JNull | JInt _ | JStr _ => true | JList l => forallb is_str l | _ => false end.

Lemma screened_bind {A} t (k : string → res A) a :
  (x ← require_screened t; k x) = Ok a ↔ redact_text t = t ∧ k t = Ok a.
Proof.
  rewrite bind_Ok. setoid_rewrite require_screened_Ok. split; [by intros (x & [-> ?] & ?)|intros [? ?]; by exists t].
Qed.

Lemma scalar_json_str s w : scalar_json (JStr s) = Ok w → quoted w s.
Proof.
  unfold scalar_json. intros [_ H]%screened_bind. destruct (require_screened (json_quote false s)) as [e|e] eqn:E.
  - injection H as <-. apply require_screened_Ok in E as [-> _]. apply quoted_json.
  - apply require_screened_Ok in H as [-> _]. apply quoted_escaped.
Qed.

Lemma parse_quoted fuel w s rest :
  quoted w s → parse_value as_dict (S fuel) (w +:+ rest) = Some (JStr s, rest).
Proof.
  intros (u & -> & Hu). rewrite str_app_cons. cbn [parse_value]. unfold skip_ws. rewrite lstrip_by_head by done.
  rewrite decide_True by done. by rewrite Hu.
Qed.

Lemma parse_value_space fuel s : parse_value as_dict fuel (String " " s) = parse_value as_dict fuel s.
Proof. destruct fuel; [done|]. cbn [parse_value]. unfold skip_ws. by cbn [lstrip_by is_json_ws]. Qed.

Lemma parse_elems_space fuel s : parse_elems as_dict fuel (String " " s) = parse_elems as_dict fuel s.
Proof. destruct fuel; [done|]. cbn [parse_elems]. by rewrite parse_value_space. Qed.

(** The elements of a list, separated by a comma and a space. *)
Lemma parse_elems_quoted ws ss fuel rest :
  Forall2 quoted ws ss → ws ≠ [] → (2 * length ws <= fuel)%nat →
  parse_elems as_dict fuel (py_join ", " ws +:+ String "]" rest) = Some (map JStr ss, rest).
Proof.
  intros H. revert fuel. induction H as [|w s ws ss Hw Hws IH]; intros fuel Hne Hf; [done|].
  destruct fuel as [|[|fuel]]; cbn in Hf; [lia..|].
  assert (Hstep : ∀ x, parse_elems as_dict (S (S fuel)) (w +:+ x) =
    match skip_ws x with
    | String c s2 => if decide (c = "]"%char) then Some ([JStr s], s2)
                     else if decide (c = ","%char) then
                       match parse_elems as_dict (S fuel) s2 with Some (vs, r) => Some (JStr s :: vs, r) | None => None end
                     else None
    | "" => None
    end) by (intros x; change (parse_elems as_dict (S (S fuel)) (w +:+ x)) with
      (match parse_value as_dict (S fuel) (w +:+ x) with
       | None => None
       | Some (v, s1) =>
          match skip_ws s1 with
          | String c s2 =>
              if decide (c = "]"%char) then Some ([v], s2)
              else if decide (c = ","%char) then
                match parse_elems as_dict (S fuel) s2 with Some (vs, r) => Some (v :: vs, r) | None => None end
              else None
          | "" => None
          end
       end); by rewrite (parse_quoted fuel w s)).
  destruct ws as [|w' ws].
  - inversion Hws; subst. cbn [py_join]. rewrite Hstep. unfold skip_ws. by rewrite lstrip_by_head.
  - rewrite py_join_cons, !str_app_assoc, Hstep by done. rewrite str_app_cons. unfold skip_ws. rewrite lstrip_by_head by done.
    rewrite decide_False, decide_True, str_app_cons, str_app_nil_l, parse_elems_space by done.
    rewrite IH; [done..|cbn in *; lia].
Qed.

Lemma map_scalar_quoted l ws :
  map_res _frontmatter_json l = Ok ws → forallb is_str l = true → ∃ ss, l = map JStr ss ∧ Forall2 quoted ws ss.
Proof.
  rewrite map_res_Ok. induction 1 as [|v w l ws Hv Hl IH]; cbn [forallb]; [by exists []|].
  intros [Hs (ss & -> & Hq)%IH]%andb_true_iff. destruct v as [| | |s| |]; try done.
  exists (s :: ss). split; [done|]. constructor; [exact (scalar_json_str s w Hv)|done].
Qed.

Lemma quoted_length w s : quoted w s → (2 <= String.length w)%nat.
Proof. intros (u & -> & Hu). destruct u; [by specialize (Hu "")|cbn; lia]. Qed.

Lemma join_quoted_length ws ss : Forall2 quoted ws ss → (2 * length ws <= String.length (py_join ", " ws))%nat.
Proof.
  induction 1 as [|w s ws ss Hw%quoted_length Hws IH]; [done|]. destruct ws as [|w' ws]; [cbn; lia|].
  rewrite py_join_cons, !str_length_app by done. change (length (w :: w' :: ws)) with (S (length (w' :: ws))). lia.
Qed.

(** A field's text reads back as its value. *)
Lemma loads_frontmatter v w : _frontmatter_json v = Ok w → storable v = true → loads w = Some v.
Proof.
  destruct v as [| |z|s|l|]; cbn [_frontmatter_json storable]; [|by intros _ [=]| | | |by intros _ [=]].
  - intros [-> _]%require_screened_Ok _. vm_compute. reflexivity.
  - intros [-> _]%require_screened_Ok _. exact (loads_dumps false (JInt z) eq_refl).
  - intros H%scalar_json_str _. unfold loads, loads_with. pose proof (parse_quoted (String.length w) w s "" H) as Hp. rewrite str_app_nil_r in Hp. by rewrite Hp.
  - intros (ws & Hws & [= <-])%bind_Ok Hl. destruct (map_scalar_quoted l ws Hws Hl) as (ss & -> & Hq).
    pose proof (join_quoted_length ws ss Hq) as Hlen. unfold loads, loads_with.
    change ("[" +:+ py_join ", " ws +:+ "]") with (String "[" (py_join ", " ws +:+ "]")).
    destruct Hq as [|w s ws ss Hw Hq]; [done|].
    pose proof (parse_elems_quoted (w :: ws) (s :: ss) (String.length (String "[" (py_join ", " (w :: ws) +:+ "]"))) ""
      ltac:(by constructor) ltac:(done)) as He.
    assert (∃ u, py_join ", " (w :: ws) +:+ "]" = String quote_char u) as (u & Eu).
    { destruct Hw as (u & -> & _). destruct ws; [by eexists|]. rewrite py_join_cons by done. by eexists. }
    rewrite Eu in He |- *. change (String.length (String "[" (String quote_char u))) with (S (String.length (String quote_char u))) in *.
    cbn [parse_value]. unfold skip_ws. rewrite lstrip_by_head by done. rewrite decide_False, decide_True by done.
    rewrite lstrip_by_head by done. rewrite decide_False by done.
    rewrite He; [done|]. rewrite <- Eu, str_length_app. cbn [String.length]. lia.
Qed.

(** ** Lines *)

(** U+0085, the one line boundary JSON text does not escape. *)
Definition NEL : ascii := chr 133.
Definition flat_str (s : string) : bool := negb (char_in NEL s).
Definition flat (v : json) : bool :=
  match v with JStr s => flat_str s | JList l => forallb (λ x, match x with JStr s => flat_str s | _ => true end) l | _ => true end.

Lemma json_escape_one_line c : c ≠ NEL → one_line (json_escape false c) = true.
Proof. destruct c as [[] [] [] [] [] [] [] []]; intros Hc; try reflexivity. by destruct Hc. Qed.

Lemma json_quote_one_line s : flat_str s = true → one_line (json_quote false s) = true.
Proof.
  intros Hs. assert (one_line (json_escape_str false s) = true) as H.
  { induction s as [|c s IH]; [done|]. unfold flat_str in *. rewrite char_in_cons in Hs. bool_inv.
    cbn [json_escape_str]. unfold one_line in *. rewrite str_forallb_app, IH by (by rewrite H0). fold (one_line (json_escape false c)). by rewrite json_escape_one_line. }
  unfold json_quote. change (one_line (String quote_char "" +:+ (json_escape_str false s +:+ String quote_char "")) = true).
  unfold one_line in *. by rewrite !str_forallb_app, H.
Qed.

Lemma escaped_one_line s : one_line (escaped s) = true.
Proof.
  induction s as [|c s IH]; [done|]. cbn [escaped].
  change (one_line ((String backslash "u00" +:+ String (hex4_digit (Z.shiftr (code c) 4)) (String (hex4_digit (Z.land (code c) 15)) ""))
     +:+ escaped s) = true).
  unfold one_line in *. rewrite str_forallb_app, IH, andb_true_r. destruct c as [[] [] [] [] [] [] [] []]; reflexivity.
Qed.

Lemma scalar_one_line v w :
  scalar_json v = Ok w → negb (string_list v) && storable v = true → flat v = true → one_line w = true.
Proof.
  destruct v as [| |z|s|l|]; cbn [scalar_json storable string_list flat negb]; [| done | | |by destruct (forallb is_str l)|done].
  - by intros [-> _]%require_screened_Ok.
  - intros [-> _]%require_screened_Ok _ _. apply int_chars; [|done]. intros c Hc. unfold is_digit in Hc. bool_inv.
    unfold is_break. lia.
  - intros [_ H]%screened_bind _ Hf. destruct (require_screened (json_quote false s)) as [e|e] eqn:E.
    + injection H as <-. apply require_screened_Ok in E as [-> _]. by apply json_quote_one_line.
    + apply require_screened_Ok in H as [-> _].
      pose proof (escaped_one_line s) as He. unfold one_line in *. by rewrite !str_forallb_app, He.
Qed.

Lemma join_one_line ws : Forall (λ w, one_line w = true) ws → one_line (py_join ", " ws) = true.
Proof.
  induction 1 as [|w ws Hw Hws IH]; [done|]. destruct ws as [|w' ws]; [done|].
  rewrite py_join_cons by done. unfold one_line in *. by rewrite !str_forallb_app, Hw, IH.
Qed.

Lemma frontmatter_one_line v w :
  _frontmatter_json v = Ok w → storable v = true → flat v = true → one_line w = true.
Proof.
  destruct v as [| | | |l|]; cbn [_frontmatter_json]; try (intros H Hs Hf; by eapply scalar_one_line).
  intros (ws & Hws%map_res_Ok & [= <-])%bind_Ok Hs Hf. unfold one_line. rewrite !str_forallb_app.
  fold (one_line (py_join ", " ws)). rewrite join_one_line; [done|].
  cbn [storable flat] in *. clear -Hws Hs Hf. induction Hws as [|v w l ws Hv Hl IH]; [done|]. cbn in Hs, Hf. bool_inv.
  destruct v; try done. constructor; [|auto]. by apply (scalar_one_line _ _ Hv).
Qed.

Lemma splitlines_one s : one_line s = true → s ≠ "" → splitlines s = [s].
Proof.
  induction s as [|c s IH]; [done|]. unfold one_line in *. cbn [str_forallb splitlines]. intros [Hc Hs]%andb_true_iff _.
  rewrite (proj1 (negb_true_iff _) Hc). destruct s as [|d s]; [done|]. by rewrite IH.
Qed.

(** Lines joined with newlines read back when the last is not empty. *)
Lemma splitlines_joined ls :
  Forall (λ w, one_line w = true ∧ w ≠ "") ls → splitlines (py_join (String LF "") ls) = ls.
Proof.
  induction 1 as [|w ls [Hw Hne] Hls IH]; [done|]. destruct ls as [|w' ls]; [by apply splitlines_one|].
  rewrite py_join_cons by done. rewrite str_app_cons, str_app_nil_l, splitlines_LF by done. by rewrite IH.
Qed.

(** The first occurrence of a text is not before its first character occurs. *)
Lemma cut_skip c needle s t :
  char_in c s = false → cut (String c needle) (s +:+ t) = ('(a, b) ← cut (String c needle) t; Some (s +:+ a, b))%stdpp.
Proof.
  induction s as [|d s IH]; intros Hs.
  - rewrite str_app_nil_l. by destruct (cut (String c needle) t) as [[a b]|].
  - rewrite char_in_cons in Hs. bool_inv. rewrite str_app_cons. cbn [cut]. unfold startswith. cbn [String.prefix].
    destruct (ascii_dec c d); [congruence|]. rewrite IH by done. by destruct (cut (String c needle) t) as [[a b]|].
Qed.

Definition FENCE : string := String LF ("---" +:+ String LF "").

Definition field_text (l : string) : Prop := ∃ c u, l = String c u ∧ c ≠ "-"%char ∧ one_line l = true.

Lemma one_line_no_LF s : one_line s = true → char_in LF s = false.
Proof. intros H. by eapply str_forallb_not_in. Qed.

Lemma cut_here needle t : needle ≠ "" → cut needle (needle +:+ t) = Some ("", t).
Proof.
  intros Hne. assert (startswith (needle +:+ t) needle = true) as H by (apply startswith_app; by exists t).
  destruct needle as [|c n]; [done|]. rewrite str_app_cons in *. cbn [cut]. rewrite H, <- str_app_cons. by rewrite str_drop_app.
Qed.

Lemma cut_fence ls body :
  ls ≠ [] → Forall field_text ls → cut FENCE (py_join (String LF "") ls +:+ FENCE +:+ body) = Some (py_join (String LF "") ls, body).
Proof.
  intros Hne H. induction H as [|l ls (c & u & -> & Hc & Hl) Hls IH]; [done|]. pose proof (one_line_no_LF _ Hl) as Hn.
  destruct ls as [|l' ls].
  - cbn [py_join]. unfold FENCE at 1. rewrite cut_skip by done.
    fold FENCE. rewrite cut_here by done. cbn. by rewrite str_app_nil_r.
  - specialize (IH ltac:(done)). rewrite py_join_cons, !str_app_assoc by done. unfold FENCE at 1. rewrite cut_skip by done.
    fold FENCE. rewrite (str_app_cons LF ""), str_app_nil_l. cbn [cut]. rewrite IH.
    assert (startswith (String LF (py_join (String LF "") (l' :: ls) +:+ FENCE +:+ body)) FENCE = false) as ->; [|done].
    inversion Hls as [|? ? (c' & u' & -> & Hc' & _) _]; subst.
    assert (∃ t, py_join (String LF "") (String c' u' :: ls) = String c' t) as (t & ->).
    { destruct ls; [by eexists|]. rewrite py_join_cons by done. by eexists. }
    rewrite str_app_cons. unfold startswith. change FENCE with (String LF (String "-" ("--" +:+ String LF ""))).
    cbn [String.prefix]. destruct (ascii_dec LF LF); [|done]. by destruct (ascii_dec "-" c'); [congruence|].
Qed.

Lemma cut_field f w : char_in ":" f = false → cut ": " (f +:+ ": " +:+ w) = Some (f, w).
Proof.
  intros Hf. rewrite cut_skip by done. rewrite cut_here by done. cbn. by rewrite str_app_nil_r.
Qed.

Lemma dict_has_absent {A} k (d : list (string * A)) : k ∉ d.*1 → dict_has k d = false.
Proof.
  unfold dict_has. induction d as [|[k' v] d IH]; [done|]. cbn. rewrite not_elem_of_cons. intros [Hk Hd].
  rewrite decide_False by congruence. by apply IH.
Qed.

Lemma frontmatter_loop_reads note fs lines acc :
  map_res (field_line note) fs = Ok lines → Forall (λ f, storable (dget f note) = true ∧ char_in ":" f = false) fs →
  NoDup fs → (∀ f, f ∈ fs → f ∉ acc.*1) →
  frontmatter_loop lines acc = Ok (acc ++ map (λ f, (f, dget f note)) fs).
Proof.
  rewrite map_res_Ok. intros H. revert acc. induction H as [|f l fs lines Hl Hls IH]; intros acc Hf Hnd Ha; [by rewrite app_nil_r|].
  apply Forall_cons in Hf as [[Hs Hc] Hf]. apply NoDup_cons in Hnd as [Hnf Hnd].
  unfold field_line in Hl. apply bind_Ok in Hl as (w & Hw & [= <-]). cbn [frontmatter_loop].
  assert (f ∉ acc.*1) as Hfa by (apply Ha; left).
  rewrite cut_field by done. rewrite dict_has_absent by done.
  rewrite (loads_frontmatter _ _ Hw Hs). change (negb false) with true. cbn [note_check raise_if].
  rewrite dict_set_fresh by done. cbn. rewrite IH; [by rewrite <- app_assoc|done..|].
  intros g Hg. rewrite fmap_app. cbn. rewrite not_elem_of_app, list_elem_of_singleton. split; [apply Ha; by right|].
  by intros ->.
Qed.

(** ** The round trip *)

(** The fields [split_note] returns. *)
Definition fields_of (note : dict) : dict := map (λ f, (f, dget f note)) FRONTMATTER_FIELDS.
Definition writable (note : dict) : Prop :=
  Forall (λ f, storable (dget f note) = true ∧ flat (dget f note) = true) FRONTMATTER_FIELDS ∧
  ∃ body, dget "body" note = JStr body.

Definition field_name (f : string) : bool :=
  match f with String c _ => negb (bool_decide (c = "-"%char)) | "" => false end && one_line f && negb (char_in ":" f).

Lemma field_names : Forall (λ f, field_name f = true) FRONTMATTER_FIELDS ∧ NoDup FRONTMATTER_FIELDS.
Proof. split; by_decide. Qed.

Lemma field_lines note fs lines :
  map_res (field_line note) fs = Ok lines → Forall (λ f, storable (dget f note) = true ∧ flat (dget f note) = true) fs →
  Forall (λ f, field_name f = true) fs → Forall field_text lines.
Proof.
  rewrite map_res_Ok. induction 1 as [|f l fs lines Hl Hls IH]; [by constructor|].
  intros [[Hs Hflat] Hv]%Forall_cons [Hn Hfs]%Forall_cons. constructor; [|auto].
  unfold field_name in Hn. apply andb_true_iff in Hn as [[Hh Hf]%andb_true_iff _].
  unfold field_line in Hl. apply bind_Ok in Hl as (w & Hw & [= <-]).
  pose proof (frontmatter_one_line _ _ Hw Hs Hflat) as H1. destruct f as [|c f]; [done|].
  eexists c, _. split; [by rewrite str_app_cons|]. split; [by bool_inv|]. unfold one_line in *. by rewrite !str_forallb_app, Hf, H1.
Qed.

Lemma drop_prefix_app p s : drop_prefix p (p +:+ s) = Some s.
Proof. induction p as [|c p IH]; [done|]. rewrite str_app_cons. cbn. by rewrite decide_True. Qed.

Lemma fenced_join lines :
  lines ≠ [] → py_join (String LF "") (lines ++ ["---"; ""]) = py_join (String LF "") lines +:+ FENCE.
Proof.
  induction lines as [|l lines IH]; [done|]. intros _. destruct lines as [|l' lines]; [done|].
  cbn [app] in *. by rewrite py_join_cons, (py_join_cons _ l), IH, !str_app_assoc by done.
Qed.

Lemma serialized_text note text :
  _serialize note = Ok text →
  ∃ lines, map_res (field_line note) FRONTMATTER_FIELDS = Ok lines ∧ redact_text text = text ∧
    text = "---" +:+ String LF "" +:+ py_join (String LF "") lines +:+ FENCE +:+ body_of note.
Proof.
  intros (lines & Hl & Ht)%bind_Ok. exists lines. split; [done|]. apply require_screened_Ok in Ht as [-> E]. split; [exact E|].
  assert (Hne : lines ≠ []) by (intros ->; apply map_res_Ok in Hl; by inversion Hl).
  clear Hl E. cbn [app]. rewrite py_join_cons by (by destruct lines). rewrite !str_app_assoc. do 2 f_equal.
  rewrite fenced_join by done. by rewrite !str_app_assoc.
Qed.

Lemma serialized_splits note text :
  _serialize note = Ok text → writable note → split_note text = Ok (fields_of note, body_of note).
Proof.
  intros Hs [Hf _]. destruct (serialized_text note text Hs) as (lines & Hl & Hr & E).
  subst text. clear Hr Hs.
  destruct field_names as [Hn Hnd]. pose proof (field_lines _ _ _ Hl Hf Hn) as Htext.
  assert (Hne : lines ≠ []) by (intros ->; apply map_res_Ok in Hl; by inversion Hl).
  unfold split_note. rewrite <- (str_app_assoc "---"), drop_prefix_app. fold FENCE. rewrite cut_fence by done.
  rewrite splitlines_joined.
  - rewrite (frontmatter_loop_reads note FRONTMATTER_FIELDS lines []); [|done| |done|set_solver].
    + reflexivity.
    + apply (Forall_impl _ _ _ (proj2 (Forall_and _ _) (conj Hf Hn))). intros f [[? _] Hname].
      unfold field_name in Hname. by bool_inv.
  - eapply Forall_impl; [exact Htext|]. by intros l (c & u & -> & _ & ?).
Qed.

Lemma serialized_clean note text : _serialize note = Ok text → clean text.
Proof. intros (lines & _ & Hr & _)%serialized_text. by apply redact_fixpoint_clean. Qed.

(** A note whose front matter holds null, integers, strings and lists of
    strings, none of them with U+0085, is read back as it was written: the
    text [_serialize] returns splits into the same fields and the same body,
    whatever the body, and no screening pattern matches anywhere in it. *)
Theorem serialize_reads_back note text :
  _serialize note = Ok text → writable note →
  split_note text = Ok (fields_of note, body_of note) ∧ clean text.
Proof.
  intros Hs Hw. split; [by apply serialized_splits|by eapply serialized_clean].
Qed.

(** A note as [_record] numbers it, and its text. *)
Definition demo_fields : dict :=
  [("title", JStr "Login rate limit"); ("body", JStr "Ten tries a minute."); ("target", JStr "app.example");
   ("attack_class", JStr "brute-force"); ("keywords", JList [JStr "auth"; JStr "limits"])].
Definition demo_now : string := "2026-08-17T09:30:00.000000Z".
Definition demo_prepared : dict :=
  match prepared None (λ _, None) demo_now demo_now "finding" demo_fields with Ok n => dict_set "id" (JStr "mem-0123456789ab") n | Err _ => [] end.
Definition demo_text : string := match _serialize demo_prepared with Ok t => t | Err _ => "" end.

Lemma serialize_reads_back_witness :
  demo_text ≠ "" ∧ split_note demo_text = Ok (fields_of demo_prepared, body_of demo_prepared) ∧ clean demo_text.
Proof.
  assert (H : _serialize demo_prepared = Ok demo_text) by (vm_compute; reflexivity).
  split; [vm_compute; discriminate|]. apply (serialize_reads_back _ _ H).
  split; [by_decide|]. eexists. vm_compute. reflexivity.
Defined.

(** ** Recording *)

Lemma new_note_id_Ok files t draws id :
  _new_note_id files t draws = Ok id → files !! (t, id) = None ∧ ∃ hex, hex ∈ take 100 draws ∧ id = "mem-" +:+ hex.
Proof.
  unfold _new_note_id. destruct (List.find _ _) as [x|] eqn:E; [|done]. intros [= <-].
  apply List.find_some in E as [Hin Hfree%bool_decide_eq_true]. split; [done|].
  apply list_elem_of_In, list_elem_of_fmap in Hin as (hex & -> & Hh). by exists hex.
Qed.

(** C7. Recording adds one file and changes no other: the id is one of the
    hundred drawn and was free, the text is clean whatever the caller gave,
    and when the prepared note has no U+0085 the file splits back into its
    fields and its body. *)
Theorem record_adds_clean_note file environ now now' draws files note_type fields files' id :
  _record file environ now now' draws files note_type fields = Ok (files', id) →
  ∃ note text,
    prepared file environ now now' note_type fields = Ok note ∧
    files !! (note_type, id) = None ∧ (∃ hex, hex ∈ take 100 draws ∧ id = "mem-" +:+ hex) ∧
    files' = <[(note_type, id) := text]> files ∧ clean text ∧
    (writable (dict_set "id" (JStr id) note) →
     split_note text = Ok (fields_of (dict_set "id" (JStr id) note), body_of (dict_set "id" (JStr id) note))).
Proof.
  unfold _record. intros (note & Hp & (x & Hid & (text & Ht & [= <- <-])%bind_Ok)%bind_Ok)%bind_Ok.
  destruct (new_note_id_Ok _ _ _ _ Hid) as [Hfree Hdraw]. exists note, text.
  pose proof (serialized_clean _ _ Ht) as Hc. do 5 (split; [done|]). by apply serialized_splits.
Qed.

Lemma record_adds_clean_note_witness :
  ∃ note text, prepared None (λ _, None) demo_now demo_now "finding" demo_fields = Ok note ∧ clean text ∧
    split_note text = Ok (fields_of (dict_set "id" (JStr "mem-0123456789ab") note), "Ten tries a minute." +:+ String LF "").
Proof.
  destruct (record_adds_clean_note None (λ _, None) demo_now demo_now ["0123456789ab"] ∅ "finding" demo_fields
    {[("finding", "mem-0123456789ab") := demo_text]} "mem-0123456789ab") as (note & text & Hp & _ & _ & _ & Hc & Hr).
  { vm_compute. reflexivity. }
  exists note, text. assert (E : dict_set "id" (JStr "mem-0123456789ab") note = demo_prepared).
  { unfold demo_prepared. by rewrite Hp. }
  split; [exact Hp|]. split; [exact Hc|]. rewrite E in *. rewrite Hr.
  - vm_compute. reflexivity.
  - split; [by_decide|]. eexists. vm_compute. reflexivity.
Defined.

(** [_normalize] takes any non-empty text as a timestamp and any one-line
    title, the parser does not: these notes are recorded and cannot be read. *)
Definition recorded_unreadable (fields : dict) : bool :=
  match _record None (λ _, None) demo_now demo_now ["0123456789ab"] ∅ "finding" fields with
  | Ok (files, id) => match files !! ("finding", id) with
                      | Some text => match _parse_note "finding" id text with Err e => match exn_kind e with MalformedNote => true | _ => false end | _ => false end
                      | None => false
                      end
  | Err _ => false
  end.

Example untimed_note_unreadable : recorded_unreadable (dict_set "created_at" (JStr "soon") demo_fields) = true.
Proof. vm_compute. reflexivity. Qed.

Example next_line_title_unreadable :
  recorded_unreadable (dict_set "title" (JStr ("Login" +:+ String NEL "limit")) demo_fields) = true.
Proof. vm_compute. reflexivity. Qed.

Example demo_note_readable :
  match _parse_note "finding" "mem-0123456789ab" demo_text with Ok note => py_eq (JObj note) (JObj demo_prepared) | Err _ => false end = true.
Proof. vm_compute. reflexivity. Qed.
