(* ===== verification/Lifecycle.v ===== *)
(** * The lifecycle of a note ([plugins/chrono-vault/lifecycle.py], [curation_queue.py])

    Finding a note among the note files, the compare-and-swap status change
    with its supersession pointers, its staged publication and rollback, and
    usage feedback.  Calls run under the index lock, one at a time.  The clock
    is an argument; so is the fault a status change meets, and which files a
    rollback fails to write.  The SQLite index is a projection of the files and
    appears only as a step that can fail. *)
From S2P Require Import Prelude Regex Sha256 Json PyText PyTime Privacy Clearance Notes.

#[local] Open Scope Z_scope.

Definition OUTCOMES : list string := ["used"; "not_useful"; "incorrect"].
Definition DEMOTING_OUTCOMES : list string := ["not_useful"; "incorrect"].
Definition NOTE_ID_PATTERN : re := NOTE_ID_RE.
Definition MAX_SUPERSESSION_WALK : nat := Z.to_nat 4096.

Definition lifecycle_error {A} (msg : string) : res A := Err (Exn LifecycleError msg).
Definition lifecycle_check (ok : bool) (msg : string) : res unit := raise_if (negb ok) LifecycleError msg.

Definition _validate_note_id (note_id : json) (field : string) : res string :=
  match note_id with
  | JStr s => lifecycle_check (fullmatch NOTE_ID_PATTERN s) (field +:+ " must be a canonical memory note id");; Ok s
  | _ => lifecycle_error (field +:+ " must be a canonical memory note id")
  end.

(** The note's type and its parsed file. *)
Definition _find_note (files : NoteFiles) (note_id : json) : res (string * dict) :=
  id ← _validate_note_id note_id "id";
  match List.filter (λ note_type, bool_decide (is_Some (files !! (note_type, id)))) NOTE_TYPES with
  | [] => Err (Exn NoteNotFound "note does not exist")
  | [note_type] =>
      match _parse_note note_type id (default "" (files !! (note_type, id))) with
      | Ok parsed => Ok (note_type, parsed)
      | Err _ => lifecycle_error "note is malformed or unsafe"
      end
  | _ => lifecycle_error "duplicate canonical note id"
  end.

(** A parsed note's [superseded_by]: null or a text. *)
Definition superseded_by_of (note : dict) : option string :=
  match dget "superseded_by" note with JStr s => Some s | _ => None end.
Definition revision_of (note : dict) : Z := match dget "revision" note with JInt z => z | _ => 0 end.
Definition jopt (o : option string) : json := match o with Some s => JStr s | None => JNull end.

Fixpoint supersession_walk (fuel : nat) (files : NoteFiles) (note_id : string) (current : option string) (seen : list string) : bool :=
  match fuel with
  | O => false
  | S fuel =>
      match current with
      | None => false
      | Some current =>
          if bool_decide (current = note_id) then true
          else if bool_decide (current ∈ seen) then false
          else match _find_note files (JStr current) with
               | Err _ => false
               | Ok (_, parsed) => supersession_walk fuel files note_id (superseded_by_of parsed) (current :: seen)
               end
      end
  end.
Definition _creates_supersession_cycle (files : NoteFiles) (note_id replacement_id : string) : bool :=
  supersession_walk MAX_SUPERSESSION_WALK files note_id (Some replacement_id) [].

Definition _public_note (parsed : dict) : dict :=
  map (λ f, (f, dget f parsed)) FRONTMATTER_FIELDS ++ [("body", dget "body" parsed)].

(** ** The updates of a status change *)

Abbreviation Updates := (list (string * (string * dict))).

(** [note["revision"] += 1] and the new time. *)
Definition touch (now : string) (note : dict) : dict :=
  dict_set "updated_at" (JStr now) (dict_set "revision" (JInt (revision_of note + 1)) note).

Definition on_update (id : string) (f : dict → dict) (updates : Updates) : Updates :=
  match dict_get id updates with
  | Some (note_type, note) => dict_set id (note_type, f note) updates
  | None => updates
  end.

Definition set_supersedes (f : list string → list string) (note : dict) : dict :=
  dict_set "supersedes" (JList (map JStr (f (strings_of (dget "supersedes" note))))) note.

(** The replacement is found, verified and closes no cycle. *)
Definition check_replacement (files : NoteFiles) (note_id : string) (replacement_id : option string) : res unit :=
  match replacement_id with
  | None => Ok tt
  | Some r =>
      '(_, replacement_check) ← _find_note files (JStr r);
      lifecycle_check (py_eq (dget "status" replacement_check) (JStr "verified"))
        "replacement note must be verified before superseding predecessors";;
      lifecycle_check (negb (_creates_supersession_cycle files note_id r)) "supersession would create a cycle"
  end.

(** The notes that may change: the primary, its old and its new replacement. *)
Definition gather_updates (files : NoteFiles) (note_id : string) (primary : string * dict) (replacement_id : option string) : res Updates :=
  let updates := [(note_id, primary)] in
  updates ← match superseded_by_of primary.2 with
            | None => Ok updates
            | Some old => found ← _find_note files (JStr old); Ok (dict_set old found updates)
            end;
  match replacement_id with
  | None => Ok updates
  | Some r => if dict_has r updates then Ok updates else found ← _find_note files (JStr r); Ok (dict_set r found updates)
  end.

Definition old_pointer_dropped (old replacement_id : option string) : list string :=
  match old with
  | Some o => if bool_decide (replacement_id = Some o) then [] else [o]
  | None => []
  end.

(** The replacement, unless it already lists the note. *)
Definition pointer_gained (note_id : string) (replacement_id : option string) (updates : Updates) : list string :=
  match replacement_id with
  | Some r => match dict_get r updates with
              | Some (_, n) => if bool_decide (note_id ∈ strings_of (dget "supersedes" n)) then [] else [r]
              | None => []
              end
  | None => []
  end.

Definition update_each (f : dict → dict) (ids : list string) (updates : Updates) : Updates :=
  fold_left (λ u id, on_update id f u) ids updates.

(** The changes to the gathered notes; [dropped ++ gained] are the targets
    that change besides the primary. *)
Definition change_notes (now note_id new_status : string) (old replacement_id : option string) (updates : Updates) : Updates :=
  let updates := on_update note_id (λ n, dict_set "superseded_by" (jopt replacement_id) (dict_set "status" (JStr new_status) n)) updates in
  let dropped := old_pointer_dropped old replacement_id in
  let updates := update_each (set_supersedes (List.filter (λ v, negb (bool_decide (v = note_id))))) dropped updates in
  let gained := pointer_gained note_id replacement_id updates in
  let updates := update_each (set_supersedes (λ l, l ++ [note_id])) gained updates in
  let stamp n := if bool_decide (new_status = "verified") then dict_set "verified_at" (JStr now) n else n in
  let updates := on_update note_id (λ n, _refresh_content_ref (stamp (touch now n))) updates in
  let updates := update_each (λ n, _refresh_content_ref (touch now n)) (dropped ++ gained) updates in
  List.filter (λ kv, bool_decide (kv.1 = note_id) || bool_decide (kv.1 ∈ dropped ++ gained)) updates.

Definition _updated_notes (files : NoteFiles) (now note_id new_status : string) (replacement_id : option string)
    (expected_revision : Z) : res Updates :=
  primary ← _find_note files (JStr note_id);
  raise_if (negb (revision_of primary.2 =? expected_revision)) RevisionConflict "expected revision";;
  check_replacement files note_id replacement_id;;
  updates ← gather_updates files note_id primary replacement_id;
  Ok (change_notes now note_id new_status (superseded_by_of primary.2) replacement_id updates).

(** ** Publication *)

(** What goes wrong: the [n]th note cannot be staged, the index cannot be
    opened, the [n]th note cannot be moved into place or its directory synced
    after the move, or the index rejects the notes or the commit. *)
Inductive Fault :=
  | NoFault
  | FaultStage (n : nat)
  | FaultConnect
  | FaultPublish (n : nat)
  | FaultSync (n : nat)
  | FaultIndex.
#[export] Instance Fault_eq_dec : EqDecision Fault.
Proof. solve_decision. Defined.

Record Stage := { stage_key : string * string; stage_content : string; stage_original : string }.

(** Screened, hashed again, serialized and staged, in the order of the ids. *)
Fixpoint stage_loop (fault : Fault) (i : nat) (files : NoteFiles) (updates : Updates) : res (list Stage * Updates) :=
  match updates with
  | [] => Ok ([], [])
  | (id, (note_type, note)) :: updates =>
      let note := _refresh_content_ref (redact_dict note) in
      content ← _serialize note;
      raise_if (bool_decide (fault = FaultStage i)) OSError "could not allocate lifecycle staging file";;
      '(stages, rest) ← stage_loop fault (S i) files updates;
      let key := (note_type, id) in
      Ok ({| stage_key := key; stage_content := content; stage_original := default "" (files !! key) |} :: stages,
          (id, (note_type, note)) :: rest)
  end.

(** [_publish_stage] of each: whether all went through, the files, and what
    was published, last first. *)
Fixpoint publish_loop (fault : Fault) (i : nat) (files : NoteFiles) (stages published : list Stage) : bool * NoteFiles * list Stage :=
  match stages with
  | [] => (true, files, published)
  | s :: stages =>
      if bool_decide (fault = FaultPublish i) then (false, files, published)
      else
        let files := <[stage_key s := stage_content s]> files in
        if bool_decide (fault = FaultSync i) then (false, files, s :: published)
        else publish_loop fault (S i) files stages (s :: published)
  end.

(** [lost k]: the rollback cannot write the file [k]. *)
Fixpoint _restore_published (lost : string * string → bool) (files : NoteFiles) (published : list Stage) : NoteFiles * list string :=
  match published with
  | [] => (files, [])
  | s :: published =>
      if lost (stage_key s) then
        let '(files, failures) := _restore_published lost files published in (files, (stage_key s).2 :: failures)
      else _restore_published lost (<[stage_key s := stage_original s]> files) published
  end.

Definition reparse (files : NoteFiles) (s : Stage) : res dict :=
  _parse_note (stage_key s).1 (stage_key s).2 (default "" (files !! stage_key s)).

(** The guarded part of [set_status]: staging, publishing, reading back and
    indexing, with the rollback. *)
Definition publish_updates (fault : Fault) (lost : string * string → bool) (files : NoteFiles) (updates : Updates) :
    res Updates * NoteFiles :=
  let roll_back files' published :=
    let '(files, failures) := _restore_published lost files' published in
    (lifecycle_error (if bool_decide (failures = []) then "status update failed; canonical notes restored"
                      else "lifecycle rollback failed for notes"), files) in
  match stage_loop fault 0 files (sort_by (λ x y, str_leb x.1 y.1) updates) with
  | Err _ => roll_back files []
  | Ok (stages, updates) =>
      if bool_decide (fault = FaultConnect) then roll_back files []
      else
        let '(done, files', published) := publish_loop fault 0 files stages [] in
        if negb done then roll_back files' published
        else match map_res (reparse files') stages with
             | Err _ => roll_back files' published
             | Ok _ => if bool_decide (fault = FaultIndex) then roll_back files' published else (Ok updates, files')
             end
  end.

(** ** [set_status] *)

Record AuditEvent := { audit_result : string; returned_note_ids : list string; audit_status : string; audit_replacement : option string }.
Definition TRANSITIONED : string := "transitioned".
Definition CONFLICT : string := "conflict".
Definition REJECTED : string := "rejected".
Definition ERROR : string := "error".

Definition audit_code (e : exn) : string :=
  match exn_kind e with RevisionConflict => CONFLICT | NoteNotFound | LifecycleError => REJECTED | _ => ERROR end.

(** A validated request. *)
Record StatusRequest := { rq_id : string; rq_status : string; rq_reason : string; rq_revision : Z; rq_replacement : option string }.

Section Process.
Context (policy_file : option string) (environ : string → option string).

Definition status_request (id new_status reason expected_revision supersedes : json) : res StatusRequest :=
  require_controller_lifecycle policy_file environ;;
  note_id ← _validate_note_id id "id";
  lifecycle_check (member new_status STATUSES) "new_status must be one of";;
  lifecycle_check (nonempty_text reason) "reason must be a non-empty string";;
  lifecycle_check match expected_revision with JInt _ => true | _ => false end "expected_revision must be an integer";;
  replacement_id ← (if py_eq new_status (JStr "superseded") then
                      r ← _validate_note_id supersedes "supersedes";
                      lifecycle_check (negb (bool_decide (r = note_id))) "a note cannot supersede itself";;
                      Ok (Some r)
                    else
                      lifecycle_check (py_eq supersedes JNull) "supersedes is only valid with status superseded";;
                      Ok None);
  Ok {| rq_id := note_id; rq_status := text_of new_status; rq_reason := text_of reason;
        rq_revision := match expected_revision with JInt z => z | _ => 0 end; rq_replacement := replacement_id |}.

(** The request's part under the lock: its answer, the files and the event. *)
Definition apply_status (now : string) (fault : Fault) (lost : string * string → bool) (files : NoteFiles) (rq : StatusRequest) :
    res dict * NoteFiles * AuditEvent :=
  let event code ids := {| audit_result := code; returned_note_ids := ids; audit_status := rq_status rq; audit_replacement := rq_replacement rq |} in
  match _updated_notes files now (rq_id rq) (rq_status rq) (rq_replacement rq) (rq_revision rq) with
  | Err e => (Err e, files, event (audit_code e) [])
  | Ok updates =>
      match publish_updates fault lost files updates with
      | (Err e, files) => (Err e, files, event (audit_code e) [])
      | (Ok updates, files) =>
          let note := match dict_get (rq_id rq) updates with Some (_, n) => n | None => [] end in
          (Ok (dict_set "reason" (JStr (rq_reason rq)) (_public_note note)), files, event TRANSITIONED updates.*1)
      end
  end.

(** [set_status]; a request that does not validate leaves no event. *)
Definition set_status (now : string) (fault : Fault) (lost : string * string → bool) (files : NoteFiles)
    (id new_status reason expected_revision supersedes : json) : res dict * NoteFiles * option AuditEvent :=
  match status_request id new_status reason expected_revision supersedes with
  | Err e => (Err e, files, None)
  | Ok rq => let '(r, files, event) := apply_status now fault lost files rq in (r, files, Some event)
  end.

(** [get_note] *)
Definition get_note (files : NoteFiles) (id : json) : res dict :=
  require_memory_operation policy_file environ "get_note";;
  note_id ← _validate_note_id id "id";
  '(_, parsed) ← _find_note files (JStr note_id);
  require_note_visible policy_file environ parsed;;
  Ok (_public_note parsed).

(** ** Usage feedback *)

(** [str(uuid.UUID(s)) == s] *)
Definition UUID_RE : re :=
  RSeq (rtimes 8 (RChr is_hex)) (RSeq (rlit "-") (RSeq (rtimes 4 (RChr is_hex)) (RSeq (rlit "-") (RSeq (rtimes 4 (RChr is_hex))
    (RSeq (rlit "-") (RSeq (rtimes 4 (RChr is_hex)) (RSeq (rlit "-") (rtimes 12 (RChr is_hex))))))))).

Record Feedback := { fb_outcome : string; fb_source_task : option string; fb_ts : string }.
#[export] Instance Feedback_eq_dec : EqDecision Feedback.
Proof. solve_decision. Defined.

Record QueueRow := { q_note_id : string; q_reason : string; q_source_task : option string; q_ts : string }.

(** The usage table and the demotion queue. *)
Record Signals := { usage : gmap (string * string) Feedback; curation_queue : list QueueRow }.

(** [flag_for_curation]; [now] is the clock's text, [appends] whether the file takes the line. *)
Definition flag_for_curation (now : string) (appends : bool) (note_id reason : string) (source_task : option string)
    (queue : list QueueRow) : res (list QueueRow) :=
  raise_if (negb appends) JsonlAppendError "could not append";;
  Ok (queue ++ [{| q_note_id := note_id; q_reason := reason; q_source_task := source_task; q_ts := now |}]).

(** The validated report: recall, note, outcome and task. *)
Record Report := { rp_recall : string; rp_note : string; rp_outcome : string; rp_task : option string }.

Definition usage_report (recall_id note_id outcome source_task : json) : res Report :=
  context ← require_memory_operation policy_file environ "record";
  lifecycle_check match recall_id with JStr s => fullmatch UUID_RE s | _ => false end "recall_id must be a UUID string";;
  note_id ← _validate_note_id note_id "note_id";
  lifecycle_check (member outcome OUTCOMES) "outcome must be one of";;
  lifecycle_check (py_eq source_task JNull || nonempty_text source_task) "source_task must be a non-empty string or null";;
  source_task ← match context with
                | None => Ok match source_task with JStr s => Some s | _ => None end
                | Some e =>
                    let task_id := text_field "task_id" e in
                    lifecycle_check (py_eq source_task JNull || py_eq source_task (JStr task_id)) "source_task does not match the engagement";;
                    Ok (Some task_id)
                end;
  Ok {| rp_recall := text_of recall_id; rp_note := note_id; rp_outcome := text_of outcome; rp_task := source_task |}.

(** The insertion under the primary key: the row's time and whether it is new. *)
Definition insert_usage (now : string) (rp : Report) (rows : gmap (string * string) Feedback) :
    res (gmap (string * string) Feedback * string * bool) :=
  match rows !! (rp_recall rp, rp_note rp) with
  | None => Ok (<[(rp_recall rp, rp_note rp) := {| fb_outcome := rp_outcome rp; fb_source_task := rp_task rp; fb_ts := now |}]> rows, now, true)
  | Some existing =>
      raise_if (negb (bool_decide (fb_outcome existing = rp_outcome rp) && bool_decide (fb_source_task existing = rp_task rp)))
        UsageConflict "recall/note pair already has different feedback";;
      Ok (rows, fb_ts existing, false)
  end.

(** [record_usage]: the row's time, or the exception, and the signals left. *)
Definition record_usage (now now' : string) (appends : bool) (files : NoteFiles) (signals : Signals)
    (recall_id note_id outcome source_task : json) : res (Report * string) * Signals :=
  match (rp ← usage_report recall_id note_id outcome source_task;
         '(_, parsed) ← _find_note files (JStr (rp_note rp));
         require_note_within_clearance environ parsed;;
         row ← insert_usage now rp (usage signals);
         Ok (rp, row)) with
  | Err e => (Err e, signals)
  | Ok (rp, (rows, ts, is_new_signal)) =>
      let signals := {| usage := rows; curation_queue := curation_queue signals |} in
      if is_new_signal && bool_decide (rp_outcome rp ∈ DEMOTING_OUTCOMES) then
        match flag_for_curation now' appends (rp_note rp) (rp_outcome rp) (rp_task rp) (curation_queue signals) with
        | Err e => (Err e, signals)
        | Ok queue => (Ok (rp, ts), {| usage := rows; curation_queue := queue |})
        end
      else (Ok (rp, ts), signals)
  end.

End Process.
