(* ===== verification/LifecycleProps.v ===== *)
(** * Status changes keep the vault sound

    What [set_status] does to the note files in every outcome, faults and
    failed rollbacks included: the supersession graph stays acyclic, a refused
    call changes nothing, a successful one is exactly a compare-and-swap with
    both pointers.  Then usage feedback. *)
From S2P Require Import Prelude Regex PyRegex Sha256 Json PyText JsonProps PyTime Privacy Clearance ClearanceProps Notes NotesProps Lifecycle.

#[local] Open Scope Z_scope.
#[local] Opaque sha256_hex redact_text MAX_SUPERSESSION_WALK.

(** ** Values that survive the file *)

Definition ok_value (v : json) : bool := storable v && flat v.
Definition good (note : dict) : Prop := Forall (λ f, ok_value (dget f note) = true) FRONTMATTER_FIELDS.
Definition is_note_id (s : string) : Prop := fullmatch NOTE_ID_PATTERN s = true.
Definition links_ok (note : dict) : Prop :=
  (∀ s, superseded_by_of note = Some s → is_note_id s) ∧ Forall is_note_id (strings_of (dget "supersedes" note)).

Lemma flat_forallb s : flat_str s = str_forallb (λ c, negb (bool_decide (c = NEL))) s.
Proof.
  unfold flat_str, char_in. induction s as [|c s IH]; [done|].
  cbn [str_existsb str_forallb]. by rewrite negb_orb, IH.
Qed.

Lemma flat_redact s : flat_str s = true → flat_str (redact_text s) = true.
Proof. rewrite !flat_forallb. by apply redact_text_chars. Qed.

Lemma note_id_chars s : is_note_id s → str_forallb (λ c, is_hex c || char_in c "m-") s = true.
Proof. apply fullmatch_within. vm_compute. reflexivity. Qed.

Lemma ascii_impl (p q : ascii → bool) : forallb (λ c, implb (p c) (q c)) all_ascii = true → ∀ c, p c = true → q c = true.
Proof.
  intros H c Hc. pose proof (proj1 (forallb_forall _ _) H c (proj1 (list_elem_of_In _ _) (elem_of_all_ascii c))) as Hi.
  cbv beta in Hi. by rewrite Hc in Hi.
Qed.

Lemma redact_note_id s : is_note_id s → redact_text s = s.
Proof.
  intros H%note_id_chars. apply (redact_text_plain (λ c, negb (is_hex c || char_in c "m-"))).
  - vm_compute. reflexivity.
  - induction s as [|c s IH]; [done|]. cbn [str_forallb str_existsb] in *. apply andb_true_iff in H as [-> H]. by apply IH.
  - revert H. apply str_forallb_impl. apply ascii_impl. vm_compute. reflexivity.
Qed.

Lemma redact_status s : s ∈ STATUSES → redact_text s = s.
Proof.
  assert (Forall (λ s, redact_text s = s) STATUSES) as H by (repeat constructor; vm_compute; reflexivity).
  intros Hs. exact (proj1 (Forall_forall _ _) H s Hs).
Qed.

Lemma ok_redact v : ok_value v = true → ok_value (redact_fields v) = true.
Proof.
  unfold ok_value. destruct v as [| | |s|l|]; try done.
  - cbn. apply flat_redact.
  - cbn [storable flat redact_fields]. intros [Hs Hf]%andb_true_iff. induction l as [|v l IH]; [done|].
    cbn [map forallb] in *. bool_inv. destruct v as [| | |s| |]; try done. cbn [redact_fields is_str andb].
    rewrite flat_redact by done. by apply IH.
Qed.

Lemma dget_map (f : json → json) k note : f JNull = JNull → dget k (map (λ kv, (kv.1, f kv.2)) note) = f (dget k note).
Proof. intros Hf. unfold dget. rewrite dict_get_map. by destruct (dict_get k note). Qed.

Lemma good_redact note : good note → good (redact_dict note).
Proof.
  intros H. apply (Forall_impl _ _ _ H). intros f Hf. unfold redact_dict. rewrite dget_map by done. by apply ok_redact.
Qed.

Lemma good_set k v note : ok_value v = true → good note → good (dict_set k v note).
Proof. intros Hv H. apply (Forall_impl _ _ _ H). intros f Hf. rewrite dget_set. by case_decide. Qed.

Lemma ok_strings l : Forall (λ s, flat_str s = true) l → ok_value (JList (map JStr l)) = true.
Proof.
  unfold ok_value. cbn [storable flat]. induction 1 as [|s l Hs Hl IH]; [done|]. cbn [map forallb is_str]. rewrite Hs. exact IH.
Qed.

Lemma strings_flat v : ok_value v = true → Forall (λ s, flat_str s = true) (strings_of v).
Proof.
  unfold ok_value. destruct v as [| | | |l|]; try (by constructor). cbn [storable flat strings_of]. intros [Hs Hf]%andb_true_iff.
  induction l as [|v l IH]; [by constructor|]. cbn [forallb] in *. bool_inv. destruct v as [| | |s| |]; try done. cbn. constructor; auto.
Qed.

Lemma good_refresh note : good note → good (_refresh_content_ref note).
Proof.
  intros H. assert (Hrefs : Forall (λ s, flat_str s = true) (List.filter (λ r, negb (is_content_ref r)) (refs_of note))).
  { apply Forall_forall. intros s [Hs _]%elem_of_filter_list.
    assert (ok_value (dget "evidence_refs" note) = true) as He by (apply (proj1 (Forall_forall _ _) H); by_decide).
    exact (proj1 (Forall_forall _ _) (strings_flat _ He) s Hs). }
  unfold _refresh_content_ref. apply good_set; [|apply good_set; [by apply ok_strings|done]].
  apply ok_strings, Forall_app. split; [done|]. constructor; [|constructor].
  rewrite flat_forallb, str_forallb_app. apply andb_true_iff. split; [done|].
  apply (str_forallb_impl is_hex); [|apply (fullmatch_within SHA256_RE); [reflexivity|apply sha256_hex_shape]].
  apply ascii_impl. vm_compute. reflexivity.
Qed.

Lemma good_writable note body : good note → dget "body" note = JStr body → writable note.
Proof.
  intros H Hb. split; [|by exists body]. apply (Forall_impl _ _ _ H). intros f [? ?]%andb_true_iff. done.
Qed.

(** ** Reading back what was written *)

Lemma dict_get_tabulate {A} (g : string → A) k l : k ∈ l → dict_get k (map (λ f, (f, g f)) l) = Some (g k).
Proof.
  induction l as [|f l IH]; [by intros ?%elem_of_nil|]. cbn. case_decide as E; [by subst|].
  intros [->|Hk]%elem_of_cons; [done|auto].
Qed.

Lemma parsed_back note text body ty id d :
  _serialize note = Ok text → good note → dget "body" note = JStr body → _parse_note ty id text = Ok d →
  dget "body" d = JStr body ∧ ∀ f, f ∈ FRONTMATTER_FIELDS → dget f d = dget f note.
Proof.
  intros Hs Hg Hb ([fm b] & Hsplit & Hd)%bind_Ok. rewrite (serialized_splits _ _ Hs (good_writable _ _ Hg Hb)) in Hsplit.
  remember (fields_of note) as fields eqn:Hfields. injection Hsplit as <- <-. apply bind_Ok in Hd as (_ & _ & [=]). subst d.
  unfold body_of. rewrite Hb, dget_set. split; [done|].
  intros f Hf. rewrite dget_set, decide_False by (intros <-; revert Hf; by_decide).
  unfold dget at 1. subst fields. unfold fields_of. by rewrite dict_get_tabulate.
Qed.

Lemma find_note_Ok files id ty n :
  _find_note files (JStr id) = Ok (ty, n) ↔
  is_note_id id ∧ List.filter (λ t, bool_decide (is_Some (files !! (t, id)))) NOTE_TYPES = [ty] ∧
  _parse_note ty id (default "" (files !! (ty, id))) = Ok n.
Proof.
  unfold _find_note, _validate_note_id, lifecycle_check, is_note_id.
  destruct (fullmatch NOTE_ID_PATTERN id); cbn [negb]; res_simpl; [|by split; [|intros [? _]]].
  destruct (List.filter _ _) as [|t [|t' l]]; [by split; [|intros (_ & ? & _)]| |by split; [|intros (_ & ? & _)]].
  split.
  - destruct (_parse_note t id _) eqn:E; [|done]. by intros [= <- <-].
  - by intros (_ & [= ->] & ->).
Qed.

Lemma found_present files id ty n : _find_note files (JStr id) = Ok (ty, n) → is_Some (files !! (ty, id)).
Proof.
  intros (_ & Hf & _)%find_note_Ok.
  assert (ty ∈ List.filter (λ t, bool_decide (is_Some (files !! (t, id)))) NOTE_TYPES) as H by (rewrite Hf; left).
  apply elem_of_filter_list in H as [_ H]. by apply bool_decide_eq_true in H.
Qed.

(** [files'] is [files] with some of the stages published. *)
Definition mixed (files : NoteFiles) (stages : list Stage) (files' : NoteFiles) : Prop :=
  ∀ k, files' !! k = files !! k ∨ ∃ s, s ∈ stages ∧ stage_key s = k ∧ files' !! k = Some (stage_content s).

(** Every stage replaces a file and remembers it. *)
Definition staged (files : NoteFiles) (s : Stage) : Prop := files !! stage_key s = Some (stage_original s).

Lemma mixed_refl files stages : mixed files stages files.
Proof. by left. Qed.

Lemma mixed_insert files stages files' s :
  s ∈ stages → mixed files stages files' → mixed files stages (<[stage_key s := stage_content s]> files').
Proof.
  intros Hs H k. destruct (decide (stage_key s = k)) as [<-|Hk].
  - right. exists s. by rewrite lookup_insert_eq.
  - rewrite lookup_insert_ne by done. apply H.
Qed.

Lemma mixed_restore files stages files' s :
  staged files s → mixed files stages files' → mixed files stages (<[stage_key s := stage_original s]> files').
Proof.
  intros Hs H k. destruct (decide (stage_key s = k)) as [<-|Hk].
  - left. by rewrite lookup_insert_eq, Hs.
  - rewrite lookup_insert_ne by done. apply H.
Qed.

Lemma publish_mixed fault i files stages files1 todo published done files2 pub :
  publish_loop fault i files1 todo published = (done, files2, pub) →
  Forall (λ s, s ∈ stages) todo → Forall (λ s, s ∈ stages) published → mixed files stages files1 →
  mixed files stages files2 ∧ Forall (λ s, s ∈ stages) pub.
Proof.
  revert i files1 published. induction todo as [|s todo IH]; intros i files1 published; cbn [publish_loop]; [by intros [= <- <- <-]|].
  intros Hrun [Hs Htodo]%Forall_cons Hpub Hm. case_bool_decide; [by injection Hrun as <- <- <-|].
  case_bool_decide; [injection Hrun as <- <- <-|apply IH in Hrun]; try done; try split; try (by constructor); by apply mixed_insert.
Qed.

Lemma restore_mixed lost files stages files1 pub files2 failures :
  _restore_published lost files1 pub = (files2, failures) →
  Forall (staged files) pub → mixed files stages files1 → mixed files stages files2.
Proof.
  revert files1 failures. induction pub as [|s pub IH]; intros files1 failures; cbn [_restore_published]; [by intros [= <- <-]|].
  intros Hr [Hs Hpub]%Forall_cons Hm. destruct (lost (stage_key s)).
  - destruct (_restore_published lost files1 pub) as [f l] eqn:E. injection Hr as <- <-. by eapply IH.
  - eapply IH; [done..|]. by apply mixed_restore.
Qed.

(** The update a stage was made of. *)
Definition stage_of (files : NoteFiles) (kv : string * (string * dict)) (s : Stage) : Prop :=
  stage_key s = (kv.2.1, kv.1) ∧ _serialize (_refresh_content_ref (redact_dict kv.2.2)) = Ok (stage_content s) ∧
  stage_original s = default "" (files !! stage_key s).
Definition screened_update (kv : string * (string * dict)) : string * (string * dict) :=
  (kv.1, (kv.2.1, _refresh_content_ref (redact_dict kv.2.2))).

Lemma stage_loop_Ok fault i files updates stages us :
  stage_loop fault i files updates = Ok (stages, us) →
  Forall2 (stage_of files) updates stages ∧ us = map screened_update updates.
Proof.
  revert i stages us. induction updates as [|[id [ty n]] updates IH]; intros i stages us; cbn [stage_loop]; [by intros [= <- <-]|].
  intros (content & Hc & (_ & _ & ([ss rest] & [Hss ->]%IH & [= <- <-])%bind_Ok)%bind_Ok)%bind_Ok. split; [|done].
  by constructor.
Qed.

(** ** The updates *)

Lemma Ok_inj {A} (a b : A) : Ok a = Ok b → a = b.
Proof. by intros [=]. Qed.

Lemma on_update_nodup id f u : NoDup u.*1 → NoDup (on_update id f u).*1.
Proof. intros H. unfold on_update. destruct (dict_get id u) as [[ty n]|]; [by apply dict_set_nodup|done]. Qed.

Lemma fold_update_nodup f ids u : NoDup u.*1 → NoDup (update_each f ids u).*1.
Proof. unfold update_each. revert u. induction ids as [|i ids IH]; intros u Hu; [done|]. cbn. by apply IH, on_update_nodup. Qed.

(** Every readable note survives its file and links to ids. *)
Definition tidy (files : NoteFiles) : Prop :=
  ∀ a ty n, _find_note files (JStr a) = Ok (ty, n) → good n ∧ links_ok n.

Section Updates.
Context (files : NoteFiles) (now note_id new_status : string) (replacement_id : option string).
Context (Htidy : tidy files).
Context (Hid : is_note_id note_id) (Hr : ∀ r, replacement_id = Some r → is_note_id r).
Context (Hnow : flat_str now = true) (Hst : new_status ∈ STATUSES).

(** An update of a found note: every value still survives the file, the
    links are ids, the body is kept, and so are the forward pointer and the
    status unless [kv] is the primary and its step is done. *)
Definition derived (stepped : bool) (id : string) (v : string * dict) : Prop :=
  ∃ n0, _find_note files (JStr id) = Ok (v.1, n0) ∧ good v.2 ∧ links_ok v.2 ∧ dget "body" v.2 = dget "body" n0 ∧
    dget "superseded_by" v.2 = (if stepped && bool_decide (id = note_id) then jopt replacement_id else dget "superseded_by" n0) ∧
    dget "status" v.2 = (if stepped && bool_decide (id = note_id) then JStr new_status else dget "status" n0).
Definition all_derived (stepped : bool) (u : Updates) : Prop := ∀ id v, dict_get id u = Some v → derived stepped id v.

Lemma found_derived id v : _find_note files (JStr id) = Ok v → derived false id v.
Proof using Htidy. destruct v as [ty n]. intros H. exists n. destruct (Htidy _ _ _ H). by split_and!. Qed.

Lemma set_derived b id v u : derived b id v → all_derived b u → all_derived b (dict_set id v u).
Proof. intros Hv Hu k w. rewrite dict_get_set. case_decide; [by intros [= <-]; subst|auto]. Qed.

Lemma on_update_derived b b' id f u :
  (∀ ty n, derived b id (ty, n) → derived b' id (ty, f n)) → (∀ k v, k ≠ id → derived b k v → derived b' k v) →
  all_derived b u → all_derived b' (on_update id f u).
Proof.
  intros Hf Hk Hu k v. unfold on_update. destruct (dict_get id u) as [[ty n]|] eqn:E.
  - rewrite dict_get_set. case_decide; [subst; intros [= <-]; auto|]. auto.
  - intros Hv. apply Hk; [congruence|auto].
Qed.

Lemma fold_update_derived f ids u :
  (∀ id ty n, derived true id (ty, n) → derived true id (ty, f n)) →
  all_derived true u → all_derived true (update_each f ids u).
Proof.
  unfold update_each. intros Hf. revert u. induction ids as [|i ids IH]; intros u Hu; [done|]. cbn. apply IH.
  apply (on_update_derived true true); auto.
Qed.

Lemma gather_derived primary u :
  _find_note files (JStr note_id) = Ok primary → gather_updates files note_id primary replacement_id = Ok u →
  all_derived false u ∧ NoDup u.*1.
Proof using Htidy Hr.
  intros Hp (u1 & H1 & H2)%bind_Ok.
  assert (all_derived false u1 ∧ NoDup u1.*1) as [Hd Hn].
  { assert (all_derived false [(note_id, primary)]) as H0.
    { intros k v. cbn. case_decide; [subst; intros [= <-]|done]. by apply found_derived. }
    assert (NoDup [(note_id, primary)].*1) by (repeat constructor; by intros ?%elem_of_nil).
    destruct (superseded_by_of primary.2) as [old|]; [|by injection H1 as <-].
    apply bind_Ok in H1 as (found & Hfo & <-%Ok_inj).
    split; [apply set_derived; [by apply found_derived|done]|by apply dict_set_nodup]. }
  destruct replacement_id as [r|]; [|by injection H2 as <-]. destruct (dict_has r u1); [by injection H2 as <-|].
  apply bind_Ok in H2 as (found & Hfo & <-%Ok_inj).
  split; [apply set_derived; [by apply found_derived|done]|by apply dict_set_nodup].
Qed.

(** The single steps. *)
Lemma strings_set_supersedes f n : strings_of (dget "supersedes" (set_supersedes f n)) = f (strings_of (dget "supersedes" n)).
Proof.
  unfold set_supersedes. rewrite dget_set, decide_True by done. cbn [strings_of].
  induction (f _) as [|x l IH]; [done|]. cbn. by rewrite IH.
Qed.

Lemma dget_refresh k n : k ≠ "evidence_refs" → dget k (_refresh_content_ref n) = dget k n.
Proof. intros Hk. unfold _refresh_content_ref. rewrite !dget_set, !decide_False by congruence. done. Qed.

Lemma dget_touch k n : k ∉ ["updated_at"; "revision"] → dget k (touch now n) = dget k n.
Proof.
  intros Hk. unfold touch. rewrite !dget_set, !decide_False; [done|intros <-; apply Hk; by_decide..].
Qed.

(** A step that leaves the forward pointer alone, and the primary's own. *)
Lemma derived_keep b id ty n n' :
  derived b id (ty, n) → good n' → Forall is_note_id (strings_of (dget "supersedes" n')) →
  dget "body" n' = dget "body" n → dget "superseded_by" n' = dget "superseded_by" n → dget "status" n' = dget "status" n →
  derived b id (ty, n').
Proof.
  intros (n0 & Hf & Hg & [Hl _] & Hb & Hs & Ht) Hg' Hsup Hb' Hs' Ht'. cbn [fst snd] in *. exists n0. cbn [fst snd].
  unfold links_ok, superseded_by_of in *. rewrite Hs', Hb', Ht'. by split_and!.
Qed.

Lemma derived_primary ty n :
  derived false note_id (ty, n) →
  derived true note_id (ty, dict_set "superseded_by" (jopt replacement_id) (dict_set "status" (JStr new_status) n)).
Proof using Hr Hst.
  intros (n0 & Hf & Hg & [Hl Hl'] & Hb & Hs & Ht). cbn [fst snd andb] in *. exists n0. cbn [fst snd andb].
  assert (Hj : ok_value (jopt replacement_id) = true ∧ ∀ s, jopt replacement_id = JStr s → is_note_id s).
  { destruct replacement_id as [r|]; [|done]. split; [|intros s [= <-]; by apply Hr]. unfold ok_value. cbn.
    rewrite flat_forallb. apply (str_forallb_impl (λ c, is_hex c || char_in c "m-")); [|by apply note_id_chars, Hr].
    apply ascii_impl. vm_compute. reflexivity. }
  assert (Hs1 : ok_value (JStr new_status) = true).
  { apply (proj1 (Forall_forall (λ s, ok_value (JStr s) = true) STATUSES)); [by_decide|done]. }
  rewrite bool_decide_eq_true_2 by done. unfold links_ok, superseded_by_of. rewrite !dget_set. cbn -[jopt]. split_and!; try done.
  - apply good_set; [apply Hj|]. by apply good_set.
  - intros s. destruct (jopt replacement_id) eqn:E; try done. intros [= <-]. by apply Hj.
Qed.

Lemma good_supersedes f n : good n → (∀ l, Forall (λ s, flat_str s = true) l → Forall (λ s, flat_str s = true) (f l)) → good (set_supersedes f n).
Proof.
  intros Hg Hf. apply good_set; [|done]. apply ok_strings, Hf, strings_flat.
  apply (proj1 (Forall_forall _ _) Hg). by_decide.
Qed.

Lemma derived_supersedes f id ty n :
  (∀ P : string → Prop, P note_id → ∀ l, Forall P l → Forall P (f l)) → derived true id (ty, n) → derived true id (ty, set_supersedes f n).
Proof using Hid.
  intros Hf H. pose proof H as (n0 & _ & Hg & [_ Hl] & _ & _ & _). cbn [fst snd] in *. eapply derived_keep; [exact H|..].
  - apply good_supersedes; [done|]. apply Hf. rewrite flat_forallb.
    apply (str_forallb_impl (λ c, is_hex c || char_in c "m-")); [|by apply note_id_chars]. apply ascii_impl. vm_compute. reflexivity.
  - rewrite strings_set_supersedes. by apply Hf.
  - unfold set_supersedes. by rewrite dget_set.
  - unfold set_supersedes. by rewrite dget_set.
  - unfold set_supersedes. by rewrite dget_set.
Qed.

Lemma derived_touch g id ty n :
  (∀ m, g m = m ∨ g m = dict_set "verified_at" (JStr now) m) →
  derived true id (ty, n) → derived true id (ty, _refresh_content_ref (g (touch now n))).
Proof using All.
  intros Hg' H. pose proof H as (n0 & _ & Hg & [_ Hl] & _ & _). cbn [fst snd] in *.
  assert (Hn : ok_value (JStr now) = true) by (unfold ok_value; by cbn).
  assert (Ht : good (touch now n)) by (do 2 (apply good_set; [done|]); done).
  assert (Hkeys : ∀ k, k ∉ ["evidence_refs"; "verified_at"; "updated_at"; "revision"] →
    dget k (_refresh_content_ref (g (touch now n))) = dget k n).
  { intros k Hk. rewrite dget_refresh by (intros ->; set_solver). rewrite <- (dget_touch k n) by set_solver.
    destruct (Hg' (touch now n)) as [-> | ->]; [done|]. by rewrite dget_set, decide_False by (intros <-; set_solver). }
  eapply derived_keep; [exact H| |by rewrite Hkeys by by_decide..].
  apply good_refresh. destruct (Hg' (touch now n)) as [-> | ->]; [done|]. by apply good_set.
Qed.

Lemma updated_notes_derived rev u :
  _updated_notes files now note_id new_status replacement_id rev = Ok u →
  NoDup u.*1 ∧ (∀ id v, (id, v) ∈ u → derived true id v) ∧ check_replacement files note_id replacement_id = Ok tt ∧
  ∃ primary, _find_note files (JStr note_id) = Ok primary ∧ revision_of primary.2 = rev.
Proof using All.
  unfold _updated_notes. intros (primary & Hp & ([] & Hrev%raise_if_Ok & ([] & Hcheck & (u0 & Hu0 & Hu%Ok_inj)%bind_Ok)%bind_Ok)%bind_Ok)%bind_Ok.
  destruct (gather_derived _ _ Hp Hu0) as [Hd Hn]. bool_inv.
  unfold change_notes in Hu. set (u1 := on_update note_id _ u0) in Hu. set (u2 := update_each _ (old_pointer_dropped _ _) u1) in Hu.
  set (gains := pointer_gained _ _ _) in Hu. set (u3 := update_each _ gains u2) in Hu.
  set (u4 := on_update note_id _ u3) in Hu. set (u5 := update_each _ (_ ++ gains) u4) in Hu.
  assert (NoDup u5.*1) as Hn5 by (apply fold_update_nodup, on_update_nodup, fold_update_nodup, fold_update_nodup, on_update_nodup; done).
  assert (all_derived true u1) as H1.
  { eapply on_update_derived; [|intros k v Hk Hv|exact Hd].
    - apply derived_primary.
    - destruct Hv as (n0 & ? & ? & ? & ? & Hs & Ht). exists n0. split_and!; try done; [rewrite Hs|rewrite Ht]; by rewrite bool_decide_eq_false_2. }
  assert (all_derived true u5) as H5.
  { apply fold_update_derived; [intros id ty n; apply (derived_touch (λ m, m)); by left|].
    apply (on_update_derived true true); [|done|].
    { intros ty n. apply (derived_touch (λ m, if bool_decide (new_status = "verified") then dict_set "verified_at" (JStr now) m else m)).
      intros m. case_bool_decide; [by right|by left]. }
    apply fold_update_derived; [intros id ty n; apply derived_supersedes|].
    { intros P HP l Hl. apply Forall_app. split; [done|]. by repeat constructor. }
    apply fold_update_derived; [intros id ty n; apply derived_supersedes|done].
    intros P HP l Hl. apply Forall_forall. intros x [Hx _]%elem_of_filter_list. by apply (proj1 (Forall_forall _ _) Hl). }
  split; [|split; [|split; [done|by exists primary]]].
  - subst u. clear -Hn5. revert Hn5. generalize u5 as w. intros w. induction w as [|x w IH]; [done|]. cbn [fmap list_fmap List.filter].
    intros [Hx Hw]%NoDup_cons. destruct (_ || _); [|auto]. cbn. constructor; [|auto].
    intros (y & Hy & [Hyw _]%elem_of_filter_list)%list_elem_of_fmap. apply Hx, list_elem_of_fmap. by exists y.
  - intros id v Hin. subst u. apply elem_of_filter_list in Hin as [Hin _]. apply H5. by apply dict_get_elem.
Qed.

(** ** What a reader finds afterwards *)

Lemma parsed_body ty id text n : _parse_note ty id text = Ok n → ∃ body, dget "body" n = JStr body.
Proof. intros ([fm b] & _ & (_ & _ & <-%Ok_inj)%bind_Ok)%bind_Ok. exists b. by rewrite dget_set. Qed.

Lemma parsed_status ty id text n : _parse_note ty id text = Ok n → ∃ s, dget "status" n = JStr s ∧ s ∈ STATUSES.
Proof.
  intros ([fm b] & _ & ([] & Hc & <-%Ok_inj)%bind_Ok)%bind_Ok. unfold check_note, note_check in Hc.
  do 7 apply bind_Ok in Hc as ([] & _ & Hc). apply bind_Ok in Hc as ([] & Hs%raise_if_Ok & _). bool_inv.
  unfold member, str_member in Hs. destruct (dget "status" _) as [| | |s| |]; try done. exists s. split; [done|]. by bool_inv.
Qed.

Lemma strings_redact v : Forall is_note_id (strings_of v) → strings_of (redact_fields v) = strings_of v.
Proof.
  destruct v as [| | | |l|]; try done. cbn [redact_fields strings_of]. induction l as [|v l IH]; [done|].
  destruct v; try done. cbn. intros [Hs Hl]%Forall_cons. rewrite redact_note_id by done. f_equal. by apply IH.
Qed.

(** The note a stage's file holds. *)
Lemma stage_reads id v s d :
  derived true id v → stage_of files (id, v) s → _parse_note v.1 id (stage_content s) = Ok d →
  good d ∧ links_ok d ∧ superseded_by_of d = superseded_by_of v.2 ∧
  (∀ f, f ∈ FRONTMATTER_FIELDS → f ≠ "evidence_refs" → dget f d = redact_fields (dget f v.2)) ∧
  strings_of (dget "supersedes" d) = strings_of (dget "supersedes" v.2).
Proof.
  intros (n0 & Hf & Hg & [Hl Hsup] & Hb & _) (_ & Hser & _) Hd. cbn [fst snd] in *.
  apply find_note_Ok in Hf as (_ & _ & [body Hbody]%parsed_body). set (m := _refresh_content_ref (redact_dict v.2)) in *.
  assert (Hm : ∀ f, f ≠ "evidence_refs" → dget f m = redact_fields (dget f v.2)).
  { intros f Hf. unfold m. rewrite dget_refresh by done. by apply dget_map. }
  destruct (parsed_back m (stage_content s) (redact_text body) v.1 id d) as [_ Hfields]; [done|by apply good_refresh, good_redact| |done|].
  { rewrite Hm by done. rewrite Hb, Hbody. reflexivity. }
  assert (Hs : dget "superseded_by" d = redact_fields (dget "superseded_by" v.2)).
  { rewrite Hfields by by_decide. by apply Hm. }
  assert (Hp : strings_of (dget "supersedes" d) = strings_of (dget "supersedes" v.2)).
  { rewrite Hfields, Hm by (done || by_decide). by apply strings_redact. }
  assert (superseded_by_of d = superseded_by_of v.2) as Hsb.
  { unfold superseded_by_of in *. rewrite Hs. destruct (dget "superseded_by" v.2) eqn:E; try done. cbn. by rewrite redact_note_id by by apply Hl. }
  split_and!; [| |done| |done].
  - apply Forall_forall. intros f Hf. rewrite Hfields by done. apply (proj1 (Forall_forall _ _) (good_refresh _ (good_redact _ Hg)) f Hf).
  - split; [by rewrite Hsb|by rewrite Hp].
  - intros f Hf Hne. rewrite Hfields by done. by apply Hm.
Qed.

Lemma stage_present u stages s :
  (∀ id v, (id, v) ∈ u → derived true id v) → Forall2 (stage_of files) u stages → s ∈ stages →
  staged files s ∧ ∃ id v, derived true id v ∧ stage_of files (id, v) s.
Proof.
  intros Hu Hst' Hs. apply list_elem_of_lookup in Hs as (i & Hi).
  destruct (Forall2_lookup_r _ _ _ _ _ Hst' Hi) as ([id v] & Hv & Hof). apply list_elem_of_lookup_2 in Hv. split; [|by exists id, v; auto].
  destruct (Hu id v Hv) as (n0 & Hf & _). apply found_present in Hf as [x Hx]. destruct Hof as (Hk & _ & Ho). unfold staged.
  rewrite Ho, Hk. cbn [fst snd]. by rewrite Hx.
Qed.

Lemma mixed_reads u stages files' :
  (∀ id v, (id, v) ∈ u → derived true id v) → Forall2 (stage_of files) u stages → mixed files stages files' →
  (∀ k, is_Some (files' !! k) ↔ is_Some (files !! k)) ∧
  ∀ a ty n', _find_note files' (JStr a) = Ok (ty, n') →
    good n' ∧ links_ok n' ∧
    ∃ n, _find_note files (JStr a) = Ok (ty, n) ∧
      (superseded_by_of n' = superseded_by_of n ∧ dget "status" n' = dget "status" n ∨
       a = note_id ∧ superseded_by_of n' = replacement_id ∧ dget "status" n' = JStr new_status).
Proof using All.
  intros Hu Hstages Hmix.
  assert (Hdom : ∀ k, is_Some (files' !! k) ↔ is_Some (files !! k)).
  { intros k. destruct (Hmix k) as [-> |(s & Hs & <- & ->)]; [done|]. split; [intros _|done].
    destruct (stage_present u stages s Hu Hstages Hs) as [-> _]. done. }
  split; [done|]. intros a ty n' (Ha & Hfil & Hparse)%find_note_Ok.
  assert (Hfil0 : List.filter (λ t, bool_decide (is_Some (files !! (t, a)))) NOTE_TYPES = [ty]).
  { rewrite <- Hfil. apply filter_ext_list. intros t. apply bool_decide_ext. by rewrite Hdom. }
  destruct (Hmix (ty, a)) as [E|(s & Hs & Hk & E)]; rewrite E in Hparse.
  - assert (Hf : _find_note files (JStr a) = Ok (ty, n')) by by apply find_note_Ok.
    destruct (Htidy _ _ _ Hf). split_and!; try done. exists n'. split; [done|by left].
  - destruct (stage_present u stages s Hu Hstages Hs) as [_ (id & v & Hv & Hof)].
    pose proof Hof as (Hk' & _ & _). rewrite Hk in Hk'. cbn [fst snd] in Hk'. injection Hk' as -> ->.
    destruct (stage_reads _ _ _ _ Hv Hof Hparse) as (Hg & Hl & Hsb & Hfd & _). split_and!; [done..|].
    specialize (Hfd "status" ltac:(by_decide) ltac:(done)).
    destruct Hv as (n0 & Hf & _ & _ & _ & Hsv & Htv). exists n0. split; [done|]. rewrite Hsb. unfold superseded_by_of. rewrite Hsv.
    rewrite Hfd, Htv. cbn [andb]. case_bool_decide.
    + right. split_and!; [done|by destruct replacement_id|]. cbn. by rewrite redact_status.
    + left. split; [done|]. apply find_note_Ok in Hf as (_ & _ & (s0 & -> & Hs0)%parsed_status). cbn. by rewrite redact_status.
Qed.
End Updates.

(** ** Every outcome of a publication *)

Lemma restore_nil lost files : _restore_published lost files [] = (files, []).
Proof. done. Qed.

Lemma publish_outcome fault lost files u r files' :
  publish_updates fault lost files u = (r, files') →
  (∀ i stages us, stage_loop fault i files (sort_by (λ x y, str_leb x.1 y.1) u) = Ok (stages, us) → Forall (staged files) stages) →
  files' = files ∨
  ∃ stages, Forall2 (stage_of files) (sort_by (λ x y, str_leb x.1 y.1) u) stages ∧ mixed files stages files'.
Proof.
  unfold publish_updates. destruct (stage_loop _ _ _ _) as [[stages us]|e] eqn:E; [|cbn; intros [= _ <-]; by left].
  case_bool_decide; [cbn; intros [= _ <-]; by left|]. intros Hpub Hst. specialize (Hst _ _ _ E).
  destruct (stage_loop_Ok _ _ _ _ _ _ E) as [Hof _]. right. exists stages. split; [done|].
  destruct (publish_loop fault 0 files stages []) as [[done files1] pub] eqn:Ep.
  destruct (publish_mixed fault 0 files stages files stages [] _ _ _ Ep) as [Hm Hin]; [by apply Forall_forall|by constructor|apply mixed_refl|].
  assert (Hstaged : Forall (staged files) pub).
  { apply Forall_forall. intros s Hs. apply (proj1 (Forall_forall _ _) Hst). exact (proj1 (Forall_forall _ _) Hin s Hs). }
  assert (Hback : mixed files stages (_restore_published lost files1 pub).1).
  { destruct (_restore_published lost files1 pub) as [f l] eqn:Er. by eapply restore_mixed. }
  destruct (_restore_published lost files1 pub) as [f l]. cbn [fst] in Hback.
  destruct done; cbn [negb] in Hpub; [|by injection Hpub as _ <-].
  destruct (map_res (reparse files1) stages); [|by injection Hpub as _ <-].
  case_bool_decide; by injection Hpub as _ <-.
Qed.

(** ** The supersession graph *)

(** [a] is superseded by [b]. *)
Definition supersession (files : NoteFiles) (a b : string) : Prop :=
  ∃ ty n, _find_note files (JStr a) = Ok (ty, n) ∧ superseded_by_of n = Some b.
Definition acyclic (files : NoteFiles) : Prop := ∀ a, ¬ tc (supersession files) a a.

Section Graph.
Context (files : NoteFiles) (Hacyclic : acyclic files).

Lemma walk_finds k fuel target c seen :
  nsteps (supersession files) k c target → (k < fuel)%nat → (∀ x, rtc (supersession files) c x → x ∉ seen) →
  supersession_walk fuel files target (Some c) seen = true.
Proof using Hacyclic.
  revert fuel c seen. induction k as [|k IH]; intros fuel c seen Hn Hf Hseen; (destruct fuel as [|fuel]; [lia|]); cbn [supersession_walk].
  - inversion Hn; subst. by rewrite bool_decide_eq_true_2.
  - inversion Hn as [|? ? d ? (ty & n & Hfind & Hs) Hrest]; subst. case_bool_decide; [done|].
    rewrite bool_decide_eq_false_2 by (apply Hseen, rtc_refl). rewrite Hfind, Hs. apply IH; [done|lia|].
    intros x Hx [->|Hin]%elem_of_cons; [|by apply (Hseen x); [eapply rtc_l; [by exists ty, n|done]|]].
    apply (Hacyclic c). eapply tc_rtc_r; [|exact Hx]. apply tc_once. by exists ty, n.
Qed.

(** A path visits distinct notes. *)
Lemma path_sources k c target :
  nsteps (supersession files) k c target →
  ∃ l, length l = k ∧ NoDup l ∧ ∀ x, x ∈ l → rtc (supersession files) c x ∧ ∃ y, supersession files x y.
Proof using Hacyclic.
  revert c. induction k as [|k IH]; intros c Hn.
  - exists []. split; [done|]. split; [constructor|]. by intros x ?%elem_of_nil.
  - inversion Hn as [|? ? d ? Hcd Hrest]; subst. destruct (IH d Hrest) as (l & Hlen & Hnd & Hl). exists (c :: l).
    split; [by cbn; rewrite Hlen|]. split.
    + constructor; [|done]. intros [Hdc _]%Hl. apply (Hacyclic c). eapply tc_rtc_r; [by apply tc_once|done].
    + intros x [->|Hx]%elem_of_cons; [split; [apply rtc_refl|by exists d]|]. destruct (Hl x Hx) as [Hd Hy]. split; [by eapply rtc_l|done].
Qed.

Lemma path_bound k c target : nsteps (supersession files) k c target → (k <= size files)%nat.
Proof using Hacyclic.
  intros (l & <- & Hnd & Hl)%path_sources. rewrite <- length_map_to_list, <- (length_fmap (λ kv, kv.1.2) (map_to_list files)).
  apply submseteq_length, NoDup_submseteq; [done|]. intros x Hx. destruct (Hl x Hx) as [_ (y & ty & n & Hf & _)].
  apply found_present in Hf as [text Ht]. apply list_elem_of_fmap. exists ((ty, x), text). split; [done|]. by apply elem_of_map_to_list.
Qed.

Lemma no_cycle_found note_id r :
  (size files < MAX_SUPERSESSION_WALK)%nat → _creates_supersession_cycle files note_id r = false → ¬ rtc (supersession files) r note_id.
Proof using Hacyclic.
  intros Hsize Hw (k & Hk)%rtc_nsteps. pose proof (path_bound _ _ _ Hk).
  unfold _creates_supersession_cycle in Hw. rewrite (walk_finds k) in Hw; [done|done|lia|]. by intros x _ ?%elem_of_nil.
Qed.
End Graph.

(** Changing one source to an edge that closes no cycle keeps the graph acyclic. *)
Lemma redirect_acyclic (R R' : string → string → Prop) (a : string) (new : option string) :
  (∀ x, ¬ tc R x x) → (∀ r, new = Some r → ¬ rtc R r a) → (∀ x y, R' x y → R x y ∨ x = a ∧ new = Some y) → ∀ x, ¬ tc R' x x.
Proof.
  intros Hac Hnew Hstep.
  assert (Hpath : ∀ x y, rtc R' x y → rtc R x y ∨ rtc R x a ∧ ∃ r, new = Some r ∧ rtc R r y).
  { intros x y. induction 1 as [x|x z y Hxz _ IH]; [left; apply rtc_refl|]. apply Hstep in Hxz as [Hxz|[-> Hz]].
    - destruct IH as [IH|[IH Hr]]; [left|right; split; [|done]]; by eapply rtc_l.
    - right. split; [apply rtc_refl|]. destruct IH as [IH|[IH (r & Hr & Hry)]]; [by exists z|]. by exists r. }
  intros x Hx. assert (∃ z, R' x z ∧ rtc R' z x) as (z & Hxz & Hzx).
  { inversion Hx as [? ? H|? z ? H Htc]; subst; [exists x; split; [done|apply rtc_refl]|exists z; split; [done|by apply tc_rtc]]. }
  apply Hstep in Hxz as [Hxz|[-> Hz]]; apply Hpath in Hzx as [Hzx|[Hza (r & Hr & Hrx)]].
  - apply (Hac x). eapply tc_rtc_r; [by apply tc_once|done].
  - apply (Hnew r Hr). etrans; [exact Hrx|]. by eapply rtc_l.
  - by apply (Hnew z Hz).
  - by apply (Hnew z Hz).
Qed.

(** ** [set_status] *)

Lemma validate_note_id_Ok v field s : _validate_note_id v field = Ok s ↔ v = JStr s ∧ is_note_id s.
Proof.
  unfold _validate_note_id, lifecycle_check, is_note_id. destruct v; try (split; [done|by intros [? _]]).
  rewrite bind_Ok. setoid_rewrite raise_if_Ok. setoid_rewrite negb_false_iff. split; [by intros ([] & ? & [= <-])|].
  intros [[= <-] H]. by exists tt.
Qed.

Lemma lifecycle_check_bind_Ok {A} ok msg (m : res A) a : (lifecycle_check ok msg;; m) = Ok a ↔ ok = true ∧ m = Ok a.
Proof. destruct ok; cbn; [|by split; [|intros [? _]]]. by split; [|intros [_ ?]]. Qed.

Lemma status_request_Ok file environ id st reason rev sup rq :
  status_request file environ id st reason rev sup = Ok rq →
  is_note_id (rq_id rq) ∧ id = JStr (rq_id rq) ∧ rq_status rq ∈ STATUSES ∧ st = JStr (rq_status rq) ∧ rev = JInt (rq_revision rq) ∧
  memory_context file environ = Ok None ∧
  (∀ r, rq_replacement rq = Some r → is_note_id r ∧ r ≠ rq_id rq ∧ sup = JStr r ∧ rq_status rq = "superseded") ∧
  (rq_replacement rq = None → sup = JNull ∧ rq_status rq ≠ "superseded").
Proof.
  unfold status_request. intros ([] & Hc & (nid & [-> Hid]%validate_note_id_Ok & H)%bind_Ok)%bind_Ok.
  assert (memory_context file environ = Ok None) as Hctx.
  { unfold require_controller_lifecycle in Hc. apply bind_Ok in Hc as (c & -> & Hc%require_Ok). destruct c; [|done].
    rewrite bool_decide_eq_true_2 in Hc; [done|by eexists]. }
  apply lifecycle_check_bind_Ok in H as [(s & -> & Hs)%str_member_Ok H].
  apply lifecycle_check_bind_Ok in H as [_ H]. apply lifecycle_check_bind_Ok in H as [Hrev H].
  apply bind_Ok in H as (rep & Hrep & <-%Ok_inj). cbn [rq_id rq_status rq_revision rq_replacement text_of].
  destruct rev; try done. split_and!; try done.
  - intros r ->. destruct (py_eq (JStr s) (JStr "superseded")) eqn:E.
    + apply py_eq_str in E as [= ->]. apply bind_Ok in Hrep as (r' & [-> Hr]%validate_note_id_Ok & Hrep).
      apply lifecycle_check_bind_Ok in Hrep as [Hne [= <-]]. by bool_inv.
    + apply lifecycle_check_bind_Ok in Hrep as [_ Hrep]. done.
  - intros ->. destruct (py_eq (JStr s) (JStr "superseded")) eqn:E.
    + apply bind_Ok in Hrep as (r' & _ & Hrep). apply lifecycle_check_bind_Ok in Hrep as [_ Hrep]. done.
    + apply lifecycle_check_bind_Ok in Hrep as [->%py_eq_null _]. split; [done|]. intros ->. by rewrite (proj2 (py_eq_str _ _)) in E.
Qed.

Lemma sorted_derived files note_id st replacement_id (u : Updates) :
  (∀ id v, (id, v) ∈ u → derived files note_id st replacement_id true id v) →
  ∀ id v, (id, v) ∈ sort_by (λ x y, str_leb x.1 y.1) u → derived files note_id st replacement_id true id v.
Proof. intros H id v Hin. apply H. by rewrite elem_of_sort_by in Hin. Qed.

Lemma stages_staged files note_id st replacement_id (u : Updates) fault i stages us :
  (∀ id v, (id, v) ∈ u → derived files note_id st replacement_id true id v) →
  stage_loop fault i files u = Ok (stages, us) → Forall (staged files) stages.
Proof.
  intros Hu [Hof _]%stage_loop_Ok. apply Forall_forall. intros s Hs. by eapply stage_present.
Qed.

Lemma apply_status_outcome now fault lost files rq r files' ev :
  tidy files → is_note_id (rq_id rq) → (∀ x, rq_replacement rq = Some x → is_note_id x) → flat_str now = true → rq_status rq ∈ STATUSES →
  apply_status now fault lost files rq = (r, files', ev) →
  files' = files ∨
  check_replacement files (rq_id rq) (rq_replacement rq) = Ok tt ∧
  (∀ k, is_Some (files' !! k) ↔ is_Some (files !! k)) ∧
  ∀ a ty n', _find_note files' (JStr a) = Ok (ty, n') → good n' ∧ links_ok n' ∧
    ∃ n, _find_note files (JStr a) = Ok (ty, n) ∧
      (superseded_by_of n' = superseded_by_of n ∧ dget "status" n' = dget "status" n ∨
       a = rq_id rq ∧ superseded_by_of n' = rq_replacement rq ∧ dget "status" n' = JStr (rq_status rq)).
Proof.
  intros Htidy Hid Hrep Hnow Hst. unfold apply_status.
  destruct (_updated_notes _ _ _ _ _ _) as [u|e] eqn:Eu; [|intros [= _ <- _]; by left].
  apply updated_notes_derived in Eu as (_ & Hu & Hcheck & _); [|done..].
  destruct (publish_updates fault lost files u) as [r1 files1] eqn:Ep. intros Hret.
  assert (files' = files1) as -> by by destruct r1; injection Hret.
  apply publish_outcome in Ep as [->|(stages & Hof & Hm)]; [by left| |].
  - right. split; [done|]. eapply mixed_reads; [..|exact (sorted_derived _ _ _ _ _ Hu)|exact Hof|exact Hm]; done.
  - intros i stages us. apply stages_staged with (rq_id rq) (rq_status rq) (rq_replacement rq). by apply sorted_derived.
Qed.

(** One call of [set_status], by any process, whatever goes wrong with it. *)
Inductive lifecycle_step : NoteFiles → NoteFiles → Prop :=
  | StatusCall file environ now fault lost files id new_status reason expected_revision supersedes r files' event :
      flat_str now = true →
      set_status file environ now fault lost files id new_status reason expected_revision supersedes = (r, files', event) →
      lifecycle_step files files'.

Definition sound_store (files : NoteFiles) : Prop :=
  tidy files ∧ acyclic files ∧ (size files < MAX_SUPERSESSION_WALK)%nat.

Lemma check_replacement_Ok files note_id r :
  check_replacement files note_id (Some r) = Ok tt →
  ∃ ty n, _find_note files (JStr r) = Ok (ty, n) ∧ dget "status" n = JStr "verified" ∧ _creates_supersession_cycle files note_id r = false.
Proof.
  intros ([ty n] & Hf & [Hv Hc]%lifecycle_check_bind_Ok)%bind_Ok. exists ty, n. split; [done|]. split; [by apply py_eq_str|].
  unfold lifecycle_check in Hc. apply raise_if_Ok in Hc. by bool_inv.
Qed.

Lemma step_sound files files' :
  lifecycle_step files files' → sound_store files → sound_store files' ∧ ∀ k, is_Some (files' !! k) ↔ is_Some (files !! k).
Proof.
  intros [file environ now fault lost files0 id st reason rev sup r files1 ev Hnow Hcall] (Htidy & Hac & Hsize).
  unfold set_status in Hcall. destruct (status_request _ _ _ _ _ _ _) as [rq|e] eqn:Erq; [|by injection Hcall as _ <- _].
  apply status_request_Ok in Erq as (Hid & _ & Hst & _ & _ & _ & Hrep & _).
  destruct (apply_status now fault lost files0 rq) as [[r1 f1] ev1] eqn:E. injection Hcall as _ <- _.
  apply apply_status_outcome in E as [->|(Hcheck & Hdom & Hread)]; try done; [|by intros x Hx; apply Hrep].
  split; [|done]. split; [|split].
  - intros a ty n Hf. destruct (Hread a ty n Hf) as (? & ? & _). done.
  - refine (redirect_acyclic (supersession files0) (supersession f1) (rq_id rq) (rq_replacement rq) Hac _ _).
    + intros x Hx. rewrite Hx in Hcheck. apply check_replacement_Ok in Hcheck as (_ & _ & _ & _ & Hc).
      by eapply no_cycle_found.
    + intros x y (ty & n & Hf & Hs). destruct (Hread x ty n Hf) as (_ & _ & n0 & Hf0 & [[H0 _]|(-> & H0 & _)]).
      * left. exists ty, n0. split; [done|congruence].
      * right. split; [done|congruence].
  - assert (dom f1 = dom files0) as Hd by (apply set_eq; intros k; by rewrite !elem_of_dom).
    by rewrite <- size_dom, Hd, size_dom.
Qed.

(** C29. However many status changes processes attempt, with any fault in any
    of them and any rollback that fails to write, no note is ever lost or
    added, every readable note still survives its file, and no note comes to
    supersede itself through others. *)
Theorem supersession_stays_acyclic files files' :
  rtc lifecycle_step files files' → sound_store files → sound_store files' ∧ dom files' = dom files.
Proof.
  induction 1 as [files|files f files' Hstep _ IH]; [done|]. intros Hs. destruct (step_sound _ _ Hstep Hs) as [Hs' Hdom].
  destruct (IH Hs') as [? ->]. split; [done|]. apply set_eq. intros k. by rewrite !elem_of_dom.
Qed.

(** ** What a successful call does *)

Lemma on_update_get id f u k :
  dict_get k (on_update id f u) = if decide (id = k) then (λ v : string * dict, (v.1, f v.2)) <$> dict_get k u else dict_get k u.
Proof.
  unfold on_update. destruct (dict_get id u) as [[ty n]|] eqn:E.
  - rewrite dict_get_set. case_decide; [subst; by rewrite E|done].
  - case_decide; [subst; by rewrite E|done].
Qed.

Lemma publish_done fault i files todo published files' published' :
  publish_loop fault i files todo published = (true, files', published') → NoDup (stage_key <$> todo) →
  (∀ s, s ∈ todo → files' !! stage_key s = Some (stage_content s)) ∧ ∀ k, k ∉ stage_key <$> todo → files' !! k = files !! k.
Proof.
  revert i files published. induction todo as [|s todo IH]; intros i files published; cbn [publish_loop].
  - intros [= <- <-] _. split; [by intros s ?%elem_of_nil|done].
  - intros Hrun [Hs Hnd]%NoDup_cons. do 2 (case_bool_decide; [done|]). destruct (IH _ _ _ Hrun Hnd) as [Hin Hout]. split.
    + intros t [->|Ht]%elem_of_cons; [|auto]. by rewrite Hout, lookup_insert_eq.
    + intros k [Hk Hk']%not_elem_of_cons. by rewrite Hout, lookup_insert_ne.
Qed.

Definition update_key (kv : string * (string * dict)) : string * string := (kv.2.1, kv.1).

Lemma stages_keys files u stages : Forall2 (stage_of files) u stages → stage_key <$> stages = update_key <$> u.
Proof. induction 1 as [|kv s u stages (Hk & _) _ IH]; [done|]. cbn. by rewrite Hk, IH. Qed.

Lemma keys_nodup u : NoDup u.*1 → NoDup (update_key <$> u).
Proof.
  intros H. apply (NoDup_fmap_1 snd). rewrite <- list_fmap_compose.
  replace (snd ∘ update_key <$> u) with u.*1; [done|]. by apply list_fmap_ext.
Qed.

Lemma publish_success fault lost files u us files' :
  publish_updates fault lost files u = (Ok us, files') → NoDup u.*1 →
  us = map screened_update (sort_by (λ x y, str_leb x.1 y.1) u) ∧
  (∀ id v, (id, v) ∈ u → ∃ s d, stage_of files (id, v) s ∧ files' !! (v.1, id) = Some (stage_content s) ∧ _parse_note v.1 id (stage_content s) = Ok d) ∧
  ∀ k, k ∉ update_key <$> u → files' !! k = files !! k.
Proof.
  unfold publish_updates. intros Hpub Hnd. set (v := sort_by _ u) in *. assert (Hp : v ≡ₚ u) by apply sort_by_perm.
  destruct (stage_loop _ _ _ _) as [[stages us']|e] eqn:E; [|by cbn in Hpub].
  apply stage_loop_Ok in E as [Hof ->].
  case_bool_decide; [by cbn in Hpub|]. destruct (publish_loop fault 0 files stages []) as [[done files1] pub] eqn:Ep.
  destruct (_restore_published lost files1 pub) as [f l]. destruct done; [|done]. cbn [negb] in Hpub.
  destruct (map_res (reparse files1) stages) as [ds|] eqn:Er; [|done]. case_bool_decide; [done|]. injection Hpub as <- <-.
  apply map_res_Ok in Er. pose proof (stages_keys _ _ _ Hof) as Hkeys.
  destruct (publish_done _ _ _ _ _ _ _ Ep) as [Hin Hout].
  { rewrite Hkeys. apply keys_nodup. by rewrite Hp. }
  split; [done|]. split.
  - intros id w Hw. rewrite <- Hp in Hw. apply list_elem_of_lookup in Hw as (i & Hi).
    destruct (Forall2_lookup_l _ _ _ _ _ Hof Hi) as (s & Hs & Hofs). destruct (Forall2_lookup_l _ _ _ _ _ Er Hs) as (d & _ & Hd).
    pose proof Hofs as (Hk & _). cbn [fst snd] in Hk. apply list_elem_of_lookup_2 in Hs. specialize (Hin s Hs).
    unfold reparse in Hd. rewrite Hin, Hk in *. by exists s, d.
  - intros k Hk. apply Hout. rewrite Hkeys. by rewrite Hp.
Qed.

(** The value of a field of the primary after a request. *)
Definition primary_value (now : string) (rq : StatusRequest) (note : dict) (f : string) : json :=
  if bool_decide (f = "status") then JStr (rq_status rq)
  else if bool_decide (f = "superseded_by") then jopt (rq_replacement rq)
  else if bool_decide (f = "revision") then JInt (rq_revision rq + 1)
  else if bool_decide (f = "updated_at") then JStr now
  else if bool_decide (f = "verified_at") && bool_decide (rq_status rq = "verified") then JStr now
  else dget f note.

Lemma singleton_nodup {A} (k : string) (v : A) : NoDup [(k, v)].*1.
Proof. repeat constructor. by intros ?%elem_of_nil. Qed.

Lemma gather_nodup files note_id primary rep u : gather_updates files note_id primary rep = Ok u → NoDup u.*1.
Proof.
  intros (u1 & H1 & H2)%bind_Ok. assert (NoDup u1.*1) as Hn.
  { destruct (superseded_by_of primary.2); [|injection H1 as <-; apply singleton_nodup].
    apply bind_Ok in H1 as (? & _ & <-%Ok_inj). apply dict_set_nodup, singleton_nodup. }
  destruct rep as [r|]; [|by injection H2 as <-]. destruct (dict_has r u1); [by injection H2 as <-|].
  apply bind_Ok in H2 as (? & _ & <-%Ok_inj). by apply dict_set_nodup.
Qed.

Lemma gather_entries files note_id ty p rep u :
  gather_updates files note_id (ty, p) rep = Ok u → superseded_by_of p ≠ Some note_id → rep ≠ Some note_id →
  dict_get note_id u = Some (ty, p) ∧
  (∀ x, superseded_by_of p = Some x ∨ rep = Some x → ∃ v, _find_note files (JStr x) = Ok v ∧ dict_get x u = Some v) ∧
  ∀ id v, dict_get id u = Some v → id = note_id ∨ superseded_by_of p = Some id ∨ rep = Some id.
Proof.
  intros (u1 & H1 & H2)%bind_Ok Ho Hr. cbn [snd] in H1.
  assert (dict_get note_id u1 = Some (ty, p) ∧
    (∀ x, superseded_by_of p = Some x → ∃ v, _find_note files (JStr x) = Ok v ∧ dict_get x u1 = Some v) ∧
    ∀ id v, dict_get id u1 = Some v → id = note_id ∨ superseded_by_of p = Some id) as (Hn1 & Ho1 & Hk1).
  { destruct (superseded_by_of p) as [o|].
    - apply bind_Ok in H1 as (v & Hv & <-%Ok_inj). assert (o ≠ note_id) by congruence. split_and!.
      + rewrite dict_get_set, decide_False by done. cbn. by rewrite decide_True.
      + intros x [= <-]. exists v. by rewrite dict_get_set, decide_True.
      + intros id w. rewrite dict_get_set. case_decide; [subst; by right|]. cbn. case_decide; [subst; by left|done].
    - apply Ok_inj in H1 as <-. split_and!; [cbn; by rewrite decide_True|done|]. intros id v. cbn. case_decide; [by left|done]. }
  destruct rep as [r|].
  2: { apply Ok_inj in H2 as <-. split_and!; [done| |].
       - intros x [Hx|[=]]. by apply Ho1.
       - intros id v [?|?]%Hk1; tauto. }
  assert (r ≠ note_id) by congruence. destruct (dict_has r u1) eqn:Hhas.
  - apply Ok_inj in H2 as <-. unfold dict_has in Hhas. destruct (dict_get r u1) as [w|] eqn:Hw; [|done].
    assert (superseded_by_of p = Some r) as Hpr by (destruct (Hk1 r w Hw); [congruence|done]). split_and!; [done| |].
    + intros x [Hx|[= <-]]; by apply Ho1.
    + intros id v [?|?]%Hk1; tauto.
  - apply bind_Ok in H2 as (v & Hv & <-%Ok_inj). split_and!.
    + by rewrite dict_get_set, decide_False.
    + intros x [Hx|[= <-]]; rewrite dict_get_set; [|exists v; by rewrite decide_True].
      destruct (Ho1 x Hx) as (w & Hw & Hg). destruct (decide (r = x)) as [<-|]; [exists v; done|exists w; done].
    + intros id w. rewrite dict_get_set. case_decide; [subst; intros _; tauto|]. intros [?|?]%Hk1; tauto.
Qed.

Lemma update_each_get f l u k :
  NoDup l → dict_get k (update_each f l u) = if decide (k ∈ l) then (λ v : string * dict, (v.1, f v.2)) <$> dict_get k u else dict_get k u.
Proof.
  unfold update_each. revert u. induction l as [|i l IH]; intros u Hnd; [done|]. cbn [fold_left].
  apply NoDup_cons in Hnd as [Hi Hnd]. rewrite IH, on_update_get by done.
  destruct (decide (i = k)) as [<-|Hne].
  - rewrite decide_False, decide_True by (done || left). done.
  - destruct (decide (k ∈ l)); [rewrite decide_True by by right|rewrite decide_False by (by intros [?|?]%elem_of_cons)]; done.
Qed.

Lemma supersedes_touched now f n :
  strings_of (dget "supersedes" (_refresh_content_ref (touch now (set_supersedes f n)))) = f (strings_of (dget "supersedes" n)).
Proof. rewrite dget_refresh, dget_touch by (done || by_decide). apply strings_set_supersedes. Qed.

Section Changes.
Context (now note_id st : string) (old rep : option string) (u : Updates).
Context (Hnd : NoDup u.*1) (Hold : old ≠ Some note_id) (Hrep : rep ≠ Some note_id).

Definition dropped : list string := old_pointer_dropped old rep.
Definition gained : list string :=
  pointer_gained note_id rep (update_each (set_supersedes (List.filter (λ v, negb (bool_decide (v = note_id))))) dropped
    (on_update note_id (λ n, dict_set "superseded_by" (jopt rep) (dict_set "status" (JStr st) n)) u)).

Lemma dropped_elem x : x ∈ dropped ↔ old = Some x ∧ rep ≠ Some x.
Proof using All.
  unfold dropped, old_pointer_dropped. destruct old as [o|]; [|split; [by intros ?%elem_of_nil|by intros [? _]]].
  case_bool_decide; [split; [by intros ?%elem_of_nil|by intros [[= ->] ?]]|]. rewrite list_elem_of_singleton.
  split; [by intros ->|by intros [[= ->] _]].
Qed.

Lemma dropped_nodup : NoDup dropped.
Proof using All.
  unfold dropped, old_pointer_dropped. destruct old; [case_bool_decide|]; repeat constructor; by intros ?%elem_of_nil.
Qed.

Lemma gained_elem x ty q :
  dict_get x u = Some (ty, q) → x ∈ gained ↔ rep = Some x ∧ note_id ∉ strings_of (dget "supersedes" q).
Proof using All.
  intros Hx. unfold gained, pointer_gained.
  assert (Hget : rep = Some x → dict_get x (update_each (set_supersedes (List.filter (λ v, negb (bool_decide (v = note_id))))) dropped
    (on_update note_id (λ n, dict_set "superseded_by" (jopt rep) (dict_set "status" (JStr st) n)) u)) = Some (ty, q)).
  { intros E. rewrite update_each_get by apply dropped_nodup. rewrite decide_False by (rewrite dropped_elem; tauto).
    rewrite on_update_get, decide_False by congruence. done. }
  destruct rep as [r|] eqn:E; [|split; [by intros ?%elem_of_nil|by intros [? _]]].
  destruct (decide (r = x)) as [->|Hne].
  - rewrite Hget by done. case_bool_decide; [split; [by intros ?%elem_of_nil|by intros [_ ?]]|].
    rewrite list_elem_of_singleton. by split.
  - split; [|by intros [[= ->] _]]. destruct (dict_get r _) as [[? ?]|]; [|by intros ?%elem_of_nil].
    case_bool_decide; [by intros ?%elem_of_nil|]. by intros ->%list_elem_of_singleton.
Qed.

Lemma gained_rep x : x ∈ gained → rep = Some x.
Proof using All.
  unfold gained, pointer_gained. destruct rep as [r|]; [|by intros ?%elem_of_nil].
  destruct (dict_get r _) as [[? ?]|]; [|by intros ?%elem_of_nil]. case_bool_decide; [by intros ?%elem_of_nil|].
  by intros ->%list_elem_of_singleton.
Qed.

Lemma targets_nodup : NoDup gained ∧ NoDup (dropped ++ gained) ∧ note_id ∉ dropped ++ gained.
Proof using All.
  assert (NoDup gained) as Hg.
  { unfold gained, pointer_gained. destruct rep; [|constructor]. destruct (dict_get _ _) as [[? ?]|]; [|constructor].
    case_bool_decide; repeat constructor. by intros ?%elem_of_nil. }
  split; [done|]. split.
  - apply NoDup_app. split_and!; [apply dropped_nodup| |done]. intros x [_ Hx]%dropped_elem Hx'%gained_rep. done.
  - intros [[? _]%dropped_elem|?%gained_rep]%elem_of_app; done.
Qed.

(** The entry of a note in the result, before the unchanged ones are left out. *)
Lemma change_entry k ty n' :
  (k = note_id ∨ k ∈ dropped ++ gained) →
  (let u2 := update_each (set_supersedes (List.filter (λ v, negb (bool_decide (v = note_id))))) dropped
     (on_update note_id (λ n, dict_set "superseded_by" (jopt rep) (dict_set "status" (JStr st) n)) u) in
   dict_get k (update_each (λ n, _refresh_content_ref (touch now n)) (dropped ++ gained)
     (on_update note_id (λ n, _refresh_content_ref (if bool_decide (st = "verified") then dict_set "verified_at" (JStr now) (touch now n) else touch now n))
       (update_each (set_supersedes (λ l, l ++ [note_id])) gained u2))) = Some (ty, n')) →
  (k, (ty, n')) ∈ change_notes now note_id st old rep u.
Proof using All.
  intros Hk Hget. unfold change_notes. fold dropped. fold gained. apply elem_of_filter_list. split.
  - apply dict_get_elem; [|exact Hget]. by repeat first [apply fold_update_nodup|apply on_update_nodup].
  - cbn [fst]. apply orb_true_iff. rewrite !bool_decide_eq_true. done.
Qed.

Lemma change_primary ty p rq :
  dict_get note_id u = Some (ty, p) →
  rq = {| rq_id := note_id; rq_status := st; rq_reason := rq_reason rq; rq_revision := revision_of p; rq_replacement := rep |} →
  ∃ n, (note_id, (ty, n)) ∈ change_notes now note_id st old rep u ∧ ∀ f, f ≠ "evidence_refs" → dget f n = primary_value now rq p f.
Proof using All.
  intros Hp ->. destruct targets_nodup as (Hng & Hnt & Hnote). eexists. split.
  - apply change_entry; [by left|]. cbv zeta. rewrite update_each_get, decide_False by done.
    rewrite on_update_get, decide_True by done. rewrite update_each_get, decide_False by (done || (intros ?; apply Hnote, elem_of_app; by right)).
    rewrite update_each_get, decide_False by (apply dropped_nodup || (intros ?; apply Hnote, elem_of_app; by left)).
    rewrite on_update_get, decide_True by done. rewrite Hp. cbn [fmap option_fmap option_map fst snd]. reflexivity.
  - intros f Hf. rewrite dget_refresh by done. unfold primary_value. cbn [rq_status rq_replacement rq_revision].
    assert (Hrev : revision_of (dict_set "superseded_by" (jopt rep) (dict_set "status" (JStr st) p)) = revision_of p).
    { unfold revision_of. by rewrite !dget_set. }
    unfold touch. rewrite Hrev. clear Hp Hng Hnt Hnote Hrev.
    destruct (bool_decide (st = "verified")); rewrite ?andb_true_r, ?andb_false_r;
      repeat (case_bool_decide; [subst; by rewrite ?dget_set|]); by rewrite ?dget_set, ?decide_False by congruence.
Qed.

Lemma change_gained r ty q :
  rep = Some r → dict_get r u = Some (ty, q) →
  note_id ∈ strings_of (dget "supersedes" q) ∨
  ∃ n, (r, (ty, n)) ∈ change_notes now note_id st old rep u ∧
    strings_of (dget "supersedes" n) = strings_of (dget "supersedes" q) ++ [note_id].
Proof using All.
  intros Hr Hq. destruct (decide (note_id ∈ strings_of (dget "supersedes" q))) as [|Hne]; [by left|right].
  destruct targets_nodup as (Hng & Hnt & Hnote). assert (Hg : r ∈ gained) by (apply (gained_elem _ _ _ Hq); by split).
  assert (Ht : r ∈ dropped ++ gained) by (apply elem_of_app; by right). eexists. split.
  - apply change_entry; [by right|]. cbv zeta. rewrite update_each_get, decide_True by done.
    rewrite on_update_get, decide_False by congruence. rewrite update_each_get, decide_True by done.
    rewrite update_each_get, decide_False by (apply dropped_nodup || (rewrite dropped_elem; tauto)).
    rewrite on_update_get, decide_False by congruence. rewrite Hq. reflexivity.
  - cbn [fst snd]. by rewrite supersedes_touched.
Qed.

Lemma change_dropped o ty q :
  old = Some o → rep ≠ Some o → dict_get o u = Some (ty, q) →
  ∃ n, (o, (ty, n)) ∈ change_notes now note_id st old rep u ∧
    strings_of (dget "supersedes" n) = List.filter (λ v, negb (bool_decide (v = note_id))) (strings_of (dget "supersedes" q)).
Proof using All.
  intros Ho Hr Hq. destruct targets_nodup as (Hng & Hnt & Hnote). assert (Hd : o ∈ dropped) by by apply dropped_elem.
  assert (Ht : o ∈ dropped ++ gained) by (apply elem_of_app; by left). eexists. split.
  - apply change_entry; [by right|]. cbv zeta. rewrite update_each_get, decide_True by done.
    rewrite on_update_get, decide_False by congruence. rewrite update_each_get, decide_False by (done || by intros ?%gained_rep).
    rewrite update_each_get, decide_True by (apply dropped_nodup || done).
    rewrite on_update_get, decide_False by congruence. rewrite Hq. reflexivity.
  - cbn [fst snd]. by rewrite supersedes_touched.
Qed.

Lemma change_keys id v : (id, v) ∈ change_notes now note_id st old rep u → id = note_id ∨ rep = Some id ∨ old = Some id ∧ rep ≠ Some id.
Proof using All.
  unfold change_notes. fold dropped. fold gained. intros [_ Ht]%elem_of_filter_list. cbn [fst] in Ht.
  apply orb_true_iff in Ht as [?%bool_decide_eq_true|Ht%bool_decide_eq_true]; [by left|].
  apply elem_of_app in Ht as [?%dropped_elem|?%gained_rep]; tauto.
Qed.

Lemma change_kept r ty q v :
  rep = Some r → dict_get r u = Some (ty, q) → note_id ∈ strings_of (dget "supersedes" q) →
  (r, v) ∉ change_notes now note_id st old rep u.
Proof using All.
  intros Hr Hq Hin. unfold change_notes. fold dropped. fold gained. intros [_ Ht]%elem_of_filter_list. cbn [fst] in Ht.
  apply orb_true_iff in Ht as [->%bool_decide_eq_true|Ht%bool_decide_eq_true]; [done|].
  apply elem_of_app in Ht as [[_ ?]%dropped_elem|[_ ?]%(gained_elem _ _ _ Hq)]; done.
Qed.
End Changes.

Lemma find_transfer files files' a ty q text d :
  (∀ k, is_Some (files' !! k) ↔ is_Some (files !! k)) → _find_note files (JStr a) = Ok (ty, q) →
  files' !! (ty, a) = Some text → _parse_note ty a text = Ok d → _find_note files' (JStr a) = Ok (ty, d).
Proof.
  intros Hdom (Hid & Hfil & _)%find_note_Ok Htext Hd. apply find_note_Ok. rewrite Htext. split_and!; [done| |done].
  rewrite <- Hfil. apply filter_ext_list. intros t. apply bool_decide_ext. by rewrite Hdom.
Qed.

Lemma find_unchanged files files' a ty q :
  (∀ k, is_Some (files' !! k) ↔ is_Some (files !! k)) → _find_note files (JStr a) = Ok (ty, q) →
  files' !! (ty, a) = files !! (ty, a) → _find_note files' (JStr a) = Ok (ty, q).
Proof.
  intros Hdom Hf Hk. pose proof Hf as (_ & _ & Hp)%find_note_Ok. destruct (found_present _ _ _ _ Hf) as [text Ht].
  rewrite Ht in *. by eapply find_transfer.
Qed.

(** The notes of a successful call. *)
Section Success.
Context (now : string) (files files' : NoteFiles) (rq : StatusRequest) (ty : string) (p : dict) (u0 u : Updates).
Context (Hgather : gather_updates files (rq_id rq) (ty, p) (rq_replacement rq) = Ok u0).
Context (Hself : superseded_by_of p ≠ Some (rq_id rq)) (Hrself : rq_replacement rq ≠ Some (rq_id rq)).
Context (Hu : u = change_notes now (rq_id rq) (rq_status rq) (superseded_by_of p) (rq_replacement rq) u0).
Context (Hderived : ∀ id v, (id, v) ∈ u → derived files (rq_id rq) (rq_status rq) (rq_replacement rq) true id v).
Context (Hdom : ∀ k, is_Some (files' !! k) ↔ is_Some (files !! k)).
Context (Hin : ∀ id v, (id, v) ∈ u → ∃ s d, stage_of files (id, v) s ∧ files' !! (v.1, id) = Some (stage_content s) ∧ _parse_note v.1 id (stage_content s) = Ok d).
Context (Hout : ∀ k, k ∉ update_key <$> u → files' !! k = files !! k).

(** An updated note is found with the values of its update. *)
Lemma updated_found id ty' n :
  (id, (ty', n)) ∈ u → ∃ d, _find_note files' (JStr id) = Ok (ty', d) ∧
    (∀ f, f ∈ FRONTMATTER_FIELDS → f ≠ "evidence_refs" → dget f d = redact_fields (dget f n)) ∧
    strings_of (dget "supersedes" d) = strings_of (dget "supersedes" n).
Proof using Hderived Hdom Hin.
  intros Hn. pose proof (Hderived _ _ Hn) as Hd. destruct (Hin _ _ Hn) as (s & d & Hof & Htext & Hparse).
  destruct (stage_reads _ _ _ _ _ _ _ _ Hd Hof Hparse) as (_ & _ & _ & Hfields & Hsup).
  destruct Hd as (n0 & Hf & _). exists d. split; [by eapply find_transfer|done].
Qed.

Lemma others_kept k :
  k.2 ≠ rq_id rq → rq_replacement rq ≠ Some k.2 → superseded_by_of p ≠ Some k.2 → files' !! k = files !! k.
Proof using All.
  intros H1 H2 H3. apply Hout. intros ([id [t n]] & -> & Hk)%list_elem_of_fmap. cbn [update_key fst snd] in *. subst u.
  apply change_keys in Hk as [?|[?|[? _]]]; try done. by eapply gather_nodup.
Qed.

Lemma primary_after :
  revision_of p = rq_revision rq →
  ∃ p', _find_note files' (JStr (rq_id rq)) = Ok (ty, p') ∧
    ∀ f, f ∈ FRONTMATTER_FIELDS → f ≠ "evidence_refs" → dget f p' = redact_fields (primary_value now rq p f).
Proof using All.
  intros Hrev. destruct (gather_entries _ _ _ _ _ _ Hgather Hself Hrself) as (Hp & _).
  destruct (change_primary now (rq_id rq) (rq_status rq) (superseded_by_of p) (rq_replacement rq) u0
    (gather_nodup _ _ _ _ _ Hgather) Hself Hrself ty p rq Hp) as (n & Hn & Hvals).
  { rewrite Hrev. by destruct rq. }
  rewrite <- Hu in Hn. destruct (updated_found _ _ _ Hn) as (d & Hf & Hd & _). exists d. split; [done|].
  intros f Hfin Hne. by rewrite Hd, Hvals.
Qed.

Lemma replacement_after r :
  rq_replacement rq = Some r → ∃ ty' q, _find_note files' (JStr r) = Ok (ty', q) ∧ rq_id rq ∈ strings_of (dget "supersedes" q).
Proof using All.
  intros Hr. destruct (gather_entries _ _ _ _ _ _ Hgather Hself Hrself) as (_ & Hfound & _).
  destruct (Hfound r (or_intror Hr)) as ([ty' q] & Hq & Hget). pose proof (gather_nodup _ _ _ _ _ Hgather) as Hnd.
  destruct (change_gained now (rq_id rq) (rq_status rq) (superseded_by_of p) (rq_replacement rq) u0 Hnd Hself Hrself r ty' q Hr Hget)
    as [Hlisted|(n & Hn & Hsup)].
  - exists ty', q. split; [|done]. eapply find_unchanged; [done..|]. apply Hout.
    intros ([id [t n]] & [= <- <-] & Hk)%list_elem_of_fmap. rewrite Hu in Hk. by eapply change_kept in Hk.
  - rewrite <- Hu in Hn. destruct (updated_found _ _ _ Hn) as (d & Hf & _ & Hd). exists ty', d. split; [done|].
    rewrite Hd, Hsup. apply elem_of_app. right. left.
Qed.

Lemma old_after o :
  superseded_by_of p = Some o → rq_replacement rq ≠ Some o →
  ∃ ty' q, _find_note files' (JStr o) = Ok (ty', q) ∧ rq_id rq ∉ strings_of (dget "supersedes" q).
Proof using All.
  intros Ho Hr. destruct (gather_entries _ _ _ _ _ _ Hgather Hself Hrself) as (_ & Hfound & _).
  destruct (Hfound o (or_introl Ho)) as ([ty' q] & Hq & Hget). pose proof (gather_nodup _ _ _ _ _ Hgather) as Hnd.
  destruct (change_dropped now (rq_id rq) (rq_status rq) (superseded_by_of p) (rq_replacement rq) u0 Hnd Hself Hrself o ty' q Ho Hr Hget)
    as (n & Hn & Hsup).
  rewrite <- Hu in Hn. destruct (updated_found _ _ _ Hn) as (d & Hf & _ & Hd). exists ty', d. split; [done|].
  rewrite Hd, Hsup. intros [_ Hne]%elem_of_filter_list. by bool_inv.
Qed.
End Success.

Lemma no_self_supersession files a ty p :
  acyclic files → _find_note files (JStr a) = Ok (ty, p) → superseded_by_of p ≠ Some a.
Proof. intros Hac Hf Hs. apply (Hac a), tc_once. by exists ty, p. Qed.

(** What a successful status change reads and writes. *)
Lemma status_changed file environ now fault lost files id new_status reason expected supersedes answer files' event :
  set_status file environ now fault lost files id new_status reason expected supersedes = (Ok answer, files', event) →
  sound_store files → flat_str now = true →
  ∃ rq ty p p',
    id = JStr (rq_id rq) ∧ new_status = JStr (rq_status rq) ∧ expected = JInt (rq_revision rq) ∧ supersedes = jopt (rq_replacement rq) ∧
    memory_context file environ = Ok None ∧
    _find_note files id = Ok (ty, p) ∧ revision_of p = rq_revision rq ∧
    check_replacement files (rq_id rq) (rq_replacement rq) = Ok tt ∧
    _find_note files' id = Ok (ty, p') ∧
    (∀ f, f ∈ FRONTMATTER_FIELDS → f ≠ "evidence_refs" → dget f p' = redact_fields (primary_value now rq p f)) ∧
    (∀ r, rq_replacement rq = Some r → ∃ ty' q, _find_note files' (JStr r) = Ok (ty', q) ∧ rq_id rq ∈ strings_of (dget "supersedes" q)) ∧
    (∀ o, superseded_by_of p = Some o → rq_replacement rq ≠ Some o →
       ∃ ty' q, _find_note files' (JStr o) = Ok (ty', q) ∧ rq_id rq ∉ strings_of (dget "supersedes" q)) ∧
    (∀ k, k.2 ≠ rq_id rq → rq_replacement rq ≠ Some k.2 → superseded_by_of p ≠ Some k.2 → files' !! k = files !! k).
Proof.
  unfold set_status. intros Hcall (Htidy & Hac & _) Hnow.
  destruct (status_request _ _ _ _ _ _ _) as [rq|e] eqn:Erq; [|done].
  apply status_request_Ok in Erq as (Hid & -> & Hst & -> & -> & Hctx & Hrep & Hnone).
  destruct (apply_status now fault lost files rq) as [[r1 f1] ev1] eqn:Eapply. injection Hcall as -> -> _.
  assert (Hids : ∀ x, rq_replacement rq = Some x → is_note_id x) by (intros x Hx; by apply Hrep).
  assert (Hrself : rq_replacement rq ≠ Some (rq_id rq)) by (intros Hx; by destruct (Hrep _ Hx) as (_ & ? & _)).
  pose proof Eapply as Hout. apply apply_status_outcome in Hout; [|done..].
  unfold apply_status in Eapply. destruct (_updated_notes _ _ _ _ _ _) as [u|e] eqn:Eu; [|done].
  destruct (publish_updates fault lost files u) as [[us|e] f2] eqn:Ep; [|done]. injection Eapply as _ -> _.
  destruct (updated_notes_derived _ _ _ _ _ Htidy Hid Hids Hnow Hst _ _ Eu) as (Hnd & Hder & Hcheck & _).
  unfold _updated_notes in Eu. apply bind_Ok in Eu as ([ty p] & Hf & Eu). apply bind_Ok in Eu as ([] & Hrev%raise_if_Ok & Eu).
  apply bind_Ok in Eu as ([] & _ & Eu). apply bind_Ok in Eu as (u0 & Hg & <-%Ok_inj). bool_inv. cbn [snd] in *.
  pose proof (no_self_supersession _ _ _ _ Hac Hf) as Hself.
  destruct (publish_success _ _ _ _ _ _ Ep Hnd) as (_ & Hin & Hkeep).
  assert (Hdom : ∀ k, is_Some (files' !! k) ↔ is_Some (files !! k)) by (by destruct Hout as [->|(_ & ? & _)]).
  destruct (primary_after now files files' rq ty p u0 _ Hg Hself Hrself eq_refl Hder Hdom Hin Hkeep Hrev) as (p' & Hf' & Hvals).
  exists rq, ty, p, p'. do 3 (split; [done|]). split.
  { destruct (rq_replacement rq) as [x|] eqn:E; [by destruct (Hrep x eq_refl) as (_ & _ & -> & _)|by destruct (Hnone eq_refl) as [-> _]]. }
  do 6 (split; [done|]). split_and!.
  - intros x Hx. by eapply replacement_after.
  - intros o Ho Hne. by eapply old_after.
  - intros k H1 H2 H3. by eapply others_kept.
Qed.

(** C31. A successful status change is a compare-and-swap: no engagement is
    bound, the note was at the expected revision and its replacement, if any,
    verified and closing no cycle; afterwards the note has the requested
    status and replacement, the next revision and the clock's times, every
    other value as before but screened; the replacement lists it, a former
    replacement no longer does, and no other file changes. *)
Theorem status_change_exact file environ now fault lost files id new_status reason expected supersedes answer files' event :
  set_status file environ now fault lost files id new_status reason expected supersedes = (Ok answer, files', event) →
  sound_store files → flat_str now = true →
  ∃ rq ty p p',
    id = JStr (rq_id rq) ∧ new_status = JStr (rq_status rq) ∧ expected = JInt (rq_revision rq) ∧ supersedes = jopt (rq_replacement rq) ∧
    memory_context file environ = Ok None ∧
    _find_note files id = Ok (ty, p) ∧ revision_of p = rq_revision rq ∧
    check_replacement files (rq_id rq) (rq_replacement rq) = Ok tt ∧
    _find_note files' id = Ok (ty, p') ∧
    (∀ f, f ∈ FRONTMATTER_FIELDS → f ≠ "evidence_refs" → dget f p' = redact_fields (primary_value now rq p f)) ∧
    (∀ r, rq_replacement rq = Some r → ∃ ty' q, _find_note files' (JStr r) = Ok (ty', q) ∧ rq_id rq ∈ strings_of (dget "supersedes" q)) ∧
    (∀ o, superseded_by_of p = Some o → rq_replacement rq ≠ Some o →
       ∃ ty' q, _find_note files' (JStr o) = Ok (ty', q) ∧ rq_id rq ∉ strings_of (dget "supersedes" q)) ∧
    (∀ k, k.2 ≠ rq_id rq → rq_replacement rq ≠ Some k.2 → superseded_by_of p ≠ Some k.2 → files' !! k = files !! k).
Proof. apply status_changed. Qed.

(** ** What a refused call does *)

Lemma publish_touched (fault : Fault) (i : nat) (files files1 files2 : NoteFiles) (todo published pub : list Stage) (done : bool) :
  publish_loop fault i files1 todo published = (done, files2, pub) →
  (∀ k, k ∉ stage_key <$> published → files1 !! k = files !! k) → ∀ k, k ∉ stage_key <$> pub → files2 !! k = files !! k.
Proof.
  revert i files1 published. induction todo as [|s todo IH]; intros i files1 published; cbn [publish_loop]; [by intros [= _ <- <-]|].
  intros Hrun Hout. case_bool_decide; [by injection Hrun as _ <- <-|].
  assert (Hins : ∀ k, k ∉ stage_key <$> s :: published → <[stage_key s := stage_content s]> files1 !! k = files !! k).
  { intros k [Hk Hk']%not_elem_of_cons. rewrite lookup_insert_ne by done. by apply Hout. }
  case_bool_decide; [by injection Hrun as _ <- <-|]. by eapply IH.
Qed.

Lemma restore_back (lost : string * string → bool) (files files1 : NoteFiles) (pub : list Stage) :
  (∀ k, lost k = false) → Forall (staged files) pub → (∀ k, k ∉ stage_key <$> pub → files1 !! k = files !! k) →
  _restore_published lost files1 pub = (files, []).
Proof.
  intros Hlost Hst. revert files1. induction Hst as [|s pub Hs _ IH]; intros files1 Hout; cbn [_restore_published].
  - f_equal. apply map_eq. intros k. apply Hout. by intros ?%elem_of_nil.
  - rewrite Hlost. apply IH. intros k Hk. destruct (decide (stage_key s = k)) as [<-|Hne]; [by rewrite lookup_insert_eq, Hs|].
    rewrite lookup_insert_ne by done. apply Hout. cbn. by rewrite not_elem_of_cons.
Qed.

Lemma publish_refused fault lost files u e files' :
  publish_updates fault lost files u = (Err e, files') → (∀ k, lost k = false) →
  (∀ i stages us, stage_loop fault i files (sort_by (λ x y, str_leb x.1 y.1) u) = Ok (stages, us) → Forall (staged files) stages) →
  files' = files ∧ exn_kind e = LifecycleError.
Proof.
  unfold publish_updates. intros Hpub Hlost Hst.
  destruct (stage_loop _ _ _ _) as [[stages us]|e0] eqn:E; [|cbn in Hpub; by injection Hpub as <- <-].
  case_bool_decide; [cbn in Hpub; by injection Hpub as <- <-|]. specialize (Hst _ _ _ E).
  destruct (publish_loop fault 0 files stages []) as [[done files1] pub] eqn:Ep.
  destruct (publish_mixed fault 0 files stages files stages [] _ _ _ Ep) as [_ Hin]; [by apply Forall_forall|by constructor|apply mixed_refl|].
  rewrite (restore_back lost files files1 pub) in Hpub; [|done| |].
  - destruct done; cbn [negb] in Hpub; [|by injection Hpub as <- <-].
    destruct (map_res (reparse files1) stages); [|by injection Hpub as <- <-]. case_bool_decide; [by injection Hpub as <- <-|done].
  - apply Forall_forall. intros s Hs. apply (proj1 (Forall_forall _ _) Hst). exact (proj1 (Forall_forall _ _) Hin s Hs).
  - by apply (publish_touched _ _ files _ _ _ _ _ _ Ep).
Qed.

(** A status change that raises, whatever the fault, leaves every note
    file as it was, provided the rollback can write; the audit event says
    "transitioned" exactly for the calls that succeed, and a revision other
    than the note's is reported as a conflict. *)
Theorem refused_status_restores file environ now fault lost files id new_status reason expected supersedes r files' event :
  set_status file environ now fault lost files id new_status reason expected supersedes = (r, files', event) →
  sound_store files → flat_str now = true → (∀ k, lost k = false) →
  (is_ok r = false → files' = files) ∧
  (∀ ev, event = Some ev → audit_result ev = TRANSITIONED ↔ is_ok r = true) ∧
  (∀ ev ty p, event = Some ev → _find_note files id = Ok (ty, p) → expected ≠ JInt (revision_of p) →
     audit_result ev = CONFLICT ∧ ∃ e, r = Err e ∧ exn_kind e = RevisionConflict).
Proof.
  unfold set_status. intros Hcall (Htidy & _ & _) Hnow Hlost.
  destruct (status_request _ _ _ _ _ _ _) as [rq|e] eqn:Erq; [|by injection Hcall as <- <- <-].
  apply status_request_Ok in Erq as (Hid & -> & Hst & -> & -> & _ & Hrep & _).
  destruct (apply_status now fault lost files rq) as [[r1 f1] ev1] eqn:Eapply. injection Hcall as -> -> <-.
  unfold apply_status in Eapply. destruct (_updated_notes _ _ _ _ _ _) as [u|e] eqn:Eu.
  - destruct (updated_notes_derived files now (rq_id rq) (rq_status rq) (rq_replacement rq) Htidy Hid) with (rev := rq_revision rq) (u := u)
      as (_ & Hder & _ & primary & Hf & Hrev); [by intros x Hx; apply Hrep|done..|].
    assert (Hconf : ∀ ty p, _find_note files (JStr (rq_id rq)) = Ok (ty, p) → JInt (rq_revision rq) ≠ JInt (revision_of p) → False).
    { intros ty p Hf2. rewrite Hf in Hf2. injection Hf2 as ->. cbn [snd] in Hrev. congruence. }
    destruct (publish_updates fault lost files u) as [[us|e] f2] eqn:Ep; injection Eapply as <- <- <-.
    + split; [done|]. split; [by intros ev [= <-]|]. intros ev ty p _ Hf2 Hne. by destruct (Hconf _ _ Hf2 Hne).
    + apply publish_refused in Ep as [-> He]; [|done|].
      2: { intros i stages us. apply (stages_staged _ (rq_id rq) (rq_status rq) (rq_replacement rq)). by apply sorted_derived. }
      split; [done|]. split; [|intros ev ty p _ Hf2 Hne; by destruct (Hconf _ _ Hf2 Hne)].
      intros ev [= <-]. cbn [audit_result is_ok]. unfold audit_code. by rewrite He.
  - injection Eapply as <- <- <-. split; [done|]. split.
    + intros ev [= <-]. cbn [audit_result is_ok]. split; [|done]. unfold audit_code. by destruct (exn_kind e).
    + intros ev ty p [= <-] Hf Hne. unfold _updated_notes in Eu. rewrite Hf, bind_ret in Eu. cbn [snd] in Eu.
      assert (revision_of p =? rq_revision rq = false) as Hz by (apply Z.eqb_neq; congruence).
      rewrite Hz in Eu. cbn in Eu. injection Eu as <-. cbn. eauto.
Qed.

(** ** Usage feedback *)

Definition is_demotion (fb : Feedback) : bool := bool_decide (fb_outcome fb ∈ DEMOTING_OUTCOMES).
Definition row_flag (row : (string * string) * Feedback) : string * string * option string :=
  (row.1.2, fb_outcome row.2, fb_source_task row.2).
(** What the table says should be queued, and what is queued. *)
Definition demotions (rows : gmap (string * string) Feedback) : list (string * string * option string) :=
  map row_flag (List.filter (λ row, is_demotion row.2) (map_to_list rows)).
Definition flags (queue : list QueueRow) : list (string * string * option string) :=
  map (λ q, (q_note_id q, q_reason q, q_source_task q)) queue.

Lemma demotions_insert rows k fb :
  rows !! k = None → demotions (<[k := fb]> rows) ≡ₚ (if is_demotion fb then [row_flag (k, fb)] else []) ++ demotions rows.
Proof.
  intros Hk. unfold demotions. rewrite (filter_perm_list _ _ _ (map_to_list_insert rows k fb Hk)). cbn [List.filter snd].
  by destruct (is_demotion fb).
Qed.

(** One accepted, repeated or refused report. *)
Lemma record_usage_outcome file environ now now' appends files signals rid nid outcome task r signals' :
  record_usage file environ now now' appends files signals rid nid outcome task = (r, signals') →
  signals' = signals ∨
  ∃ rp, let key := (rp_recall rp, rp_note rp) in
    let fb := {| fb_outcome := rp_outcome rp; fb_source_task := rp_task rp; fb_ts := now |} in
    usage signals !! key = None ∧ usage signals' = <[key := fb]> (usage signals) ∧
    (is_demotion fb = false ∧ curation_queue signals' = curation_queue signals ∧ r = Ok (rp, now) ∨
     is_demotion fb = true ∧ appends = false ∧ curation_queue signals' = curation_queue signals ∧ is_ok r = false ∨
     is_demotion fb = true ∧ appends = true ∧ r = Ok (rp, now) ∧
       curation_queue signals' = curation_queue signals ++ [{| q_note_id := rp_note rp; q_reason := rp_outcome rp; q_source_task := rp_task rp; q_ts := now' |}]).
Proof.
  unfold record_usage. destruct (_ ≫= _) as [[rp [[rows ts] new]]|e] eqn:E; [|intros [= _ <-]; by left].
  apply bind_Ok in E as (rp0 & _ & ([ty n] & _ & ([] & _ & (row & Hins & [= -> ->])%bind_Ok)%bind_Ok)%bind_Ok).
  unfold insert_usage in Hins. destruct (usage signals !! _) as [existing|] eqn:Hk.
  - apply bind_Ok in Hins as ([] & _ & [= <- <- <-]). cbn [andb]. intros [= _ <-]. left. by destruct signals.
  - injection Hins as <- <- <-. cbn [andb]. intros Hr. right. exists rp. cbv zeta. split; [done|].
    unfold is_demotion. cbn [fb_outcome]. destruct (bool_decide _); [|injection Hr as <- <-; cbn; eauto 6].
    unfold flag_for_curation in Hr. destruct appends; cbn in Hr; injection Hr as <- <-; (split; [done|]); [right; right|right; left]; done.
Qed.

(** A call of [record_usage] by any process; [reliable] says the queue file
    takes every line. *)
Inductive usage_step (reliable : bool) : Signals → Signals → Prop :=
  | UsageCall file environ now now' appends files signals recall_id note_id outcome source_task r signals' :
      (reliable = true → appends = true) →
      record_usage file environ now now' appends files signals recall_id note_id outcome source_task = (r, signals') →
      usage_step reliable signals signals'.

Lemma usage_step_flags reliable s s' :
  usage_step reliable s s' →
  usage s ⊆ usage s' ∧
  (flags (curation_queue s) ⊆+ demotions (usage s) → flags (curation_queue s') ⊆+ demotions (usage s')) ∧
  (reliable = true → flags (curation_queue s) ≡ₚ demotions (usage s) → flags (curation_queue s') ≡ₚ demotions (usage s')).
Proof.
  intros [file environ now now' appends files signals rid nid outcome task r signals' Hrel Hcall].
  apply record_usage_outcome in Hcall as [->|(rp & Hk & Hu & Hq)]; [done|].
  rewrite Hu. split; [by apply insert_subseteq|].
  destruct Hq as [(Hd & -> & _)|[(Hd & Ha & -> & _)|(Hd & Ha & _ & ->)]].
  - rewrite demotions_insert, Hd by done. done.
  - rewrite demotions_insert, Hd by done. split; [|by intros ->%Hrel].
    intros H. by apply submseteq_cons.
  - unfold flags. rewrite map_app. cbn [map q_note_id q_reason q_source_task]. rewrite demotions_insert, Hd by done. cbn [app].
    split; [intros H|intros _ H].
    + rewrite Permutation_app_comm. cbn [app]. by apply submseteq_skip.
    + rewrite Permutation_app_comm. cbn [app]. by apply Permutation_skip.
Qed.

(** Whatever feedback processes report, in any order and however often,
    a (recall, note) pair keeps its first row for ever; every queued flag is
    for a row of its own that demotes, and while the queue file takes every
    line the flags are exactly those rows: none twice, none missing. *)
Theorem usage_flags_match reliable s s' :
  rtc (usage_step reliable) s s' →
  usage s ⊆ usage s' ∧
  (flags (curation_queue s) ⊆+ demotions (usage s) → flags (curation_queue s') ⊆+ demotions (usage s')) ∧
  (reliable = true → flags (curation_queue s) ≡ₚ demotions (usage s) → flags (curation_queue s') ≡ₚ demotions (usage s')).
Proof.
  induction 1 as [s|s t s' Hst _ (IH1 & IH2 & IH3)]; [done|]. apply usage_step_flags in Hst as (H1 & H2 & H3).
  split; [by etrans|]. split; auto.
Qed.

(** ** Concrete calls *)

(** Every readable note is flat and linked to nothing. *)
Definition unlinked (files : NoteFiles) : bool :=
  forallb (λ kv : (string * string) * string,
    match _parse_note kv.1.1 kv.1.2 kv.2 with
    | Ok n => forallb (λ f, ok_value (dget f n)) FRONTMATTER_FIELDS &&
              bool_decide (superseded_by_of n = None) && bool_decide (strings_of (dget "supersedes" n) = [])
    | Err _ => true
    end) (map_to_list files).

Lemma unlinked_found files : unlinked files = true →
  ∀ a ty n, _find_note files (JStr a) = Ok (ty, n) → good n ∧ superseded_by_of n = None ∧ strings_of (dget "supersedes" n) = [].
Proof.
  intros Hu a ty n Hf. destruct (found_present _ _ _ _ Hf) as [text Ht]. apply find_note_Ok in Hf as (_ & _ & Hp). rewrite Ht in Hp. change (default "" (Some text)) with text in Hp.
  assert (((ty, a), text) ∈ map_to_list files) as Hin by by apply elem_of_map_to_list.
  apply list_elem_of_In in Hin. apply (proj1 (forallb_forall _ _) Hu) in Hin. cbn [fst snd] in Hin. rewrite Hp in Hin. bool_inv.
  split_and!; [|done..]. apply Forall_forall. intros f Hf%list_elem_of_In. by apply (proj1 (forallb_forall _ _) H).
Qed.

Lemma unlinked_sound files : unlinked files = true → (size files < MAX_SUPERSESSION_WALK)%nat → sound_store files.
Proof.
  intros Hu Hsize. pose proof (unlinked_found _ Hu) as Hn. split; [|split; [|done]].
  - intros a ty n (Hg & Hs & Hl)%Hn. split; [done|]. split; [by rewrite Hs|]. by rewrite Hl.
  - intros a Ha. assert (∃ b, supersession files a b) as (b & ty & n & Hf & Hs) by (inversion Ha; subst; eauto).
    apply Hn in Hf as (_ & Hno & _). congruence.
Qed.

Definition old_id : string := "mem-00000000000a".
Definition new_id : string := "mem-00000000000b".
Definition store_note (id status : string) : string :=
  match prepared None (λ _, None) demo_now demo_now "finding" demo_fields with
  | Ok n => match _serialize (dict_set "status" (JStr status) (dict_set "id" (JStr id) n)) with Ok t => t | Err _ => "" end
  | Err _ => ""
  end.
Definition old_text : string := Eval vm_compute in store_note old_id "candidate".
Definition new_text : string := Eval vm_compute in store_note new_id "verified".
Definition demo_store : NoteFiles := {[("finding", old_id) := old_text; ("finding", new_id) := new_text]}.
Definition demo_time : string := "2026-08-18T10:00:00.000000Z".
Definition supersede (fault : Fault) : res dict * NoteFiles * option AuditEvent :=
  set_status None (λ _, None) demo_time fault (λ _, false) demo_store (JStr old_id) (JStr "superseded") (JStr "newer note") (JInt 1) (JStr new_id).

Lemma triple_eta {A B C} (x : A * B * C) : x = (x.1.1, x.1.2, x.2).
Proof. by destruct x as [[a b] c]. Qed.

Lemma demo_sound : sound_store demo_store.
Proof. apply unlinked_sound; [vm_compute; reflexivity|]. apply Nat.ltb_lt. vm_compute. reflexivity. Qed.

Lemma supersession_stays_acyclic_witness :
  rtc lifecycle_step demo_store (supersede NoFault).1.2 ∧ sound_store (supersede NoFault).1.2 ∧ dom (supersede NoFault).1.2 = dom demo_store.
Proof.
  assert (H : rtc lifecycle_step demo_store (supersede NoFault).1.2).
  { apply rtc_once. exact (StatusCall None (λ _, None) demo_time NoFault (λ _, false) demo_store (JStr old_id) (JStr "superseded")
      (JStr "newer note") (JInt 1) (JStr new_id) _ _ _ eq_refl (triple_eta (supersede NoFault))). }
  split; [exact H|]. apply (supersession_stays_acyclic _ _ H demo_sound).
Defined.

Lemma status_change_exact_witness :
  ∃ p', _find_note (supersede NoFault).1.2 (JStr old_id) = Ok ("finding", p') ∧ dget "revision" p' = JInt 2 ∧
    dget "superseded_by" p' = JStr new_id.
Proof.
  assert (Hok : is_ok (supersede NoFault).1.1 = true) by (vm_compute; reflexivity).
  destruct (supersede NoFault) as [[[answer|e] files'] ev] eqn:E; [|discriminate Hok].
  destruct (status_change_exact _ _ _ _ _ _ _ _ _ _ _ _ _ _ E demo_sound eq_refl)
    as (rq & ty & p & p' & Hid & _ & Hrev & Hsup & _ & Hf & _ & _ & Hf' & Hvals & _).
  assert (Hty : match _find_note demo_store (JStr old_id) with Ok (t, _) => bool_decide (t = "finding") | Err _ => false end = true)
    by (vm_compute; reflexivity).
  rewrite Hf in Hty. apply bool_decide_eq_true in Hty as ->. cbn [fst snd].
  exists p'. split; [exact Hf'|]. injection Hrev as Hrev. rewrite !Hvals by by_decide. unfold primary_value. cbn.
  rewrite <- Hrev. split; [reflexivity|]. rewrite <- Hsup. exact (f_equal JStr (redact_note_id new_id eq_refl)).
Defined.

Lemma refused_status_restores_witness :
  (supersede (FaultSync 1)).1.2 = demo_store ∧ is_ok (supersede (FaultSync 1)).1.1 = false.
Proof.
  assert (Hno : is_ok (supersede (FaultSync 1)).1.1 = false) by (vm_compute; reflexivity).
  split; [|exact Hno].
  apply (refused_status_restores _ _ _ _ _ _ _ _ _ _ _ _ _ _ (triple_eta (supersede (FaultSync 1))) demo_sound eq_refl); [reflexivity|exact Hno].
Defined.

(** Two reports: the first demotes, the second repeats it. *)
Definition demo_recall : string := "0f8fad5b-d9cb-469f-a165-70867728950e".
Definition no_signals : Signals := {| usage := ∅; curation_queue := [] |}.
Definition report (appends : bool) (s : Signals) : res (Report * string) * Signals :=
  record_usage None (λ _, None) demo_time demo_time appends demo_store s (JStr demo_recall) (JStr old_id) (JStr "incorrect") JNull.

Lemma report_eta appends s : report appends s = ((report appends s).1, (report appends s).2).
Proof. by destruct (report appends s). Qed.

Lemma usage_flags_match_witness :
  flags (curation_queue (report true (report true no_signals).2).2) ≡ₚ demotions (usage (report true (report true no_signals).2).2) ∧
  length (curation_queue (report true (report true no_signals).2).2) = 1%nat.
Proof.
  split; [|vm_compute; reflexivity].
  assert (H : rtc (usage_step true) no_signals (report true (report true no_signals).2).2).
  { eapply rtc_l; [eapply UsageCall; [|apply report_eta]; reflexivity|].
    apply rtc_once. eapply UsageCall; [|apply report_eta]; reflexivity. }
  destruct (usage_flags_match true _ _ H) as (_ & _ & Hflags). apply Hflags; [reflexivity|]. vm_compute. reflexivity.
Defined.

(** A line the queue refuses is lost: the row is already committed, so the
    retry counts as a repetition and queues nothing. *)
Example retry_loses_flag :
  let first := report false no_signals in
  let retry := report true first.2 in
  is_ok first.1 = false ∧ is_ok retry.1 = true ∧ length (demotions (usage retry.2)) = 1%nat ∧ curation_queue retry.2 = [].
Proof. vm_compute. done. Qed.
