(* ===== verification/ProcessTruth.v ===== *)
(** * Process truth and attempt receipts ([board_process_truth.py])

    Dispatch descriptors, the identity of the process behind one, and the three
    writers of an attempt's receipt: the finalizer, the operator's cancel and
    the reaper of dead attempts.  The files and the kernel's answers are
    arguments.  A call reads the files at several moments ([Moments]), between
    which other processes may run; it publishes with one atomic [os.link].
    Paths are compared after [os.path.abspath]; no directory is a symbolic
    link.  The JSON read here has no floats and its text no code point above 255.
    The teardown of a cancelled tree is in [ProcessTree]. *)
From S2P Require Import Prelude Regex Sha256 Json Posix Binary64 PyText PyTime PlanItems.

#[local] Open Scope Z_scope.

Definition DESCRIPTOR_V1 : string := "board-dispatch-process/v1".
Definition DESCRIPTOR_V2 : string := "board-dispatch-process/v2".
Definition RECEIPT_V2 : string := "board-dispatch-receipt/v2".
Definition RECEIPT_V1 : string := "board-dispatch-receipt/v1".

Definition TERMINAL_OUTCOMES : list string :=
  ["complete"; "needs_review"; "needs_human"; "blocked"; "cancelled"; "failed"; "denied"].
Definition LEGACY_OUTCOMES : list (string * string) :=
  [("launched", "complete"); ("completed", "complete"); ("canceled", "cancelled")].
Definition ATTEMPT_IDENTITY_FIELDS : list string := ["task_id"; "attempt_id"; "generation"].
Definition PROCESS_IDENTITY_FIELDS : list string := ["pid"; "pgid"; "process_start_token"; "argv_sha256"].
Definition MAX_JSON_BYTES : Z := 1024 * 1024.

(** [type(value) is int and value >= 1] *)
Definition exact_generation (value : json) : bool := match value with JInt z => 1 <=? z | _ => false end.

(** [^[A-Za-z0-9][A-Za-z0-9._-]{0,199}$] *)
Definition identifier_char (c : ascii) : bool := is_alnum c || char_in c "._-".
Definition IDENTIFIER : re := RSeq (RChr is_alnum) (rrep 0 199 (RChr identifier_char)).
Definition SHA256 : re := rrep 64 64 (RChr is_hex).

(** [d.get(k)] where [None] has no keys. *)
Definition jget (k : string) (v : json) : json := match v with JObj d => dget k d | _ => JNull end.
Definition is_dict (v : json) : bool := match v with JObj _ => true | _ => false end.
Definition is_str (v : json) : bool := match v with JStr _ => true | _ => false end.
Definition str_with (p : string → bool) (v : json) : bool := match v with JStr s => p s | _ => false end.
Definition is_null (v : json) : bool := match v with JNull => true | _ => false end.

(** [d[k]] *)
Definition item (k : string) (v : json) : res json :=
  match v with
  | JObj d => match dict_get k d with Some v => Ok v | None => Err (Exn KeyError k) end
  | _ => Err (Exn TypeError "object is not subscriptable")
  end.

(** ** Files *)

(** What a file holds: the UTF-8 of a text, or bytes that are not UTF-8. *)
Variant contents := Text (s : string) | Binary (b : bytes).
Variant node :=
  | Regular (ino : Z) (c : contents)
  | Symlink (target_size : option Z)    (** the size [os.stat] finds behind it *)
  | Directory (size : Z).
Abbreviation files := (gmap string node).

Definition file_bytes (c : contents) : bytes := match c with Text s => encode_utf8 s | Binary b => b end.
Definition byte_count (c : contents) : Z := Z.of_nat (length (file_bytes c)).

Definition abspath (cwd p : string) : string := normpath (path_join cwd p).

(** Where [os.link] or [os.fsync] of the directory failed. *)
Variant publish_fault := NoFault | BeforeLink | AfterLink.

(** The answers of the kernel about processes: [/proc] where it exists, else
    [ps] (a return code and what it printed). *)
Variant proc_file := NoFile | Unreadable | NotAscii | ProcText (s : string).
Record Kernel := {
  getpgid : Z → option Z;
  getsid : Z → option Z;
  proc_stat : Z → proc_file;
  proc_cmdline : Z → option bytes;
  ps_identity : Z → Z * bytes;
  ps_state : Z → Z * bytes
}.

(** What one call finds besides files: [oserror p] is the text of the [OSError]
    of reading [p], [decode_replace] is [bytes.decode("utf-8", "replace")],
    [preserve] the salvage of an attempt's worktree by [worktree_isolation]
    (the snapshot, or the text and class name of its exception). *)
Record Host := {
  cwd : string;
  kernel : Kernel;
  oserror : string → string;
  decode_replace : bytes → string;
  is_dir : string → bool;
  preserve : list (string * json) → json + (string * string);
  now : Z;
  new_ino : Z;
  fault : publish_fault
}.

Definition node_at (h : Host) (fs : files) (path : string) : option node := fs !! abspath (cwd h) path.

Definition _read_fd (c : contents) : json :=
  if MAX_JSON_BYTES <? byte_count c then JNull
  else match c with
       | Text s => match loads_unique s with Some (JObj d) => JObj d | _ => JNull end
       | Binary _ => JNull
       end.

Definition load_json (h : Host) (fs : files) (path : string) : json :=
  match node_at h fs path with Some (Regular _ c) => _read_fd c | _ => JNull end.

Definition lexists (h : Host) (fs : files) (path : string) : bool :=
  match node_at h fs path with Some _ => true | None => false end.

(** The text [atomic_write_json] writes. *)
Definition receipt_text (value : list (string * json)) : string := dumps true (JObj value) +:+ String LF "".

Definition atomic_write_json (h : Host) (fs : files) (path : string) (value : list (string * json))
    (exclusive : bool) : files * res bool :=
  let written := <[abspath (cwd h) path := Regular (new_ino h) (Text (receipt_text value))]> fs in
  let finish := match fault h with AfterLink => (written, Err (Exn OSError "fsync")) | _ => (written, Ok true) end in
  match fault h, node_at h fs path with
  | BeforeLink, _ => (fs, Err (Exn OSError "write"))
  | _, None => finish
  | _, Some n =>
      if exclusive then (fs, Ok false)
      else match n with Directory _ => (fs, Err (Exn OSError "replace")) | _ => finish end
  end.

(** ** Processes *)

Record identity := { pid : Z; pgid : Z; process_start_token : string; argv_sha256 : string }.

#[export] Instance identity_eq_dec : EqDecision identity.
Proof. solve_decision. Defined.

Definition identity_dict (i : identity) : list (string * json) :=
  [("pid", JInt (pid i)); ("pgid", JInt (pgid i)); ("process_start_token", JStr (process_start_token i));
   ("argv_sha256", JStr (argv_sha256 i))].

(** [bytes.split] on ASCII white space. *)
Definition byte_space (z : Z) : bool := (z =? 32) || (9 <=? z) && (z <=? 13).
Fixpoint bytes_lstrip (b : bytes) : bytes :=
  match b with z :: b' => if byte_space z then bytes_lstrip b' else b | [] => [] end.
Definition bytes_strip (b : bytes) : bytes := rev (bytes_lstrip (rev (bytes_lstrip b))).
Fixpoint bytes_word (b : bytes) : bytes * bytes :=
  match b with
  | [] => ([], [])
  | z :: b' => if byte_space z then ([], b) else let '(w, r) := bytes_word b' in (z :: w, r)
  end.
(** [b.split(maxsplit=n)] of stripped bytes. *)
Fixpoint bytes_split (n : nat) (b : bytes) : list bytes :=
  match b, n with
  | [], _ => []
  | _, O => [b]
  | _, S n => let '(w, r) := bytes_word b in w :: bytes_split n (bytes_lstrip r)
  end.
Definition starts_with_byte (z : Z) (b : bytes) : bool := match b with y :: _ => y =? z | [] => false end.
Fixpoint bytes_join (bs : list bytes) : bytes :=
  match bs with [] => [] | [b] => b | b :: bs => b ++ 32 :: bytes_join bs end.
Definition decode_ascii (b : bytes) : res string :=
  raise_if (existsb (λ z, 128 <=? z) b) ValueError "ascii codec can't decode byte";;
  Ok (fold_right (λ z s, String (chr z) s) "" b).

(** [text.rsplit(")", 1)[1]]; [None] is the [IndexError]. *)
Fixpoint after_last (sep : ascii) (s : string) : option string :=
  match s with
  | "" => None
  | String c s' =>
      match after_last sep s' with
      | Some t => Some t
      | None => if decide (c = sep) then Some s' else None
      end
  end.

(** The largest [pid_t]: a larger argument is an [OverflowError] of the call. *)
Definition PID_T_MAX : Z := 2 ^ 31 - 1.

Definition observe_process (k : Kernel) (p : Z) : res (option identity) :=
  raise_if (PID_T_MAX <? p) OverflowError "signed integer is greater than maximum";;
  match getpgid k p with
  | None => Ok None
  | Some group =>
      let found token argv :=
        {| pid := p; pgid := group; process_start_token := token; argv_sha256 := sha256_hex argv |} in
      match proc_stat k p with
      | Unreadable => Ok None
      | NotAscii => Err (Exn ValueError "ascii codec can't decode byte")
      | ProcText text =>
          match py_words <$> after_last ")" text, proc_cmdline k p with
          | Some fields, Some argv =>
              if (length fields <=? 19)%nat || bool_decide (fields !! 0%nat = Some "Z") || bool_decide (argv = [])
              then Ok None
              else Ok (Some (found ("proc:" +:+ default "" (fields !! 19%nat)) argv))
          | _, _ => Ok None
          end
      | NoFile =>
          let '(returncode, stdout) := ps_identity k p in
          let parts := bytes_split 6 (bytes_strip stdout) in
          if negb (returncode =? 0) || negb (length parts =? 7)%nat ||
             starts_with_byte 90 (default [] (parts !! 0%nat)) then Ok None
          else
            started ← decode_ascii (bytes_join (take 5 (drop 1 parts)));
            Ok (Some (found ("ps:" +:+ started) (default [] (parts !! 6%nat))))
      end
  end.

Definition process_run_state (k : Kernel) (p : Z) : res (option string) :=
  let stopped (b : bool) := Ok (Some (if b then "stopped" else "running")) in
  match proc_stat k p with
  | Unreadable => Ok None
  | NotAscii => Err (Exn ValueError "ascii codec can't decode byte")
  | ProcText text =>
      match py_words <$> after_last ")" text with
      | Some (state :: _) => stopped (bool_decide (state ∈ ["T"; "t"]))
      | _ => Ok None
      end
  | NoFile =>
      let '(returncode, stdout) := ps_state k p in
      let state := bytes_strip stdout in
      if negb (returncode =? 0) || bool_decide (state = []) then Ok None
      else stopped (starts_with_byte 84 state || starts_with_byte 116 state)
  end.

(** ** Time *)

(** [datetime.now(timezone.utc).isoformat().replace("+00:00", "Z")], at [t] microseconds. *)
Definition utc_now (t : Z) : string :=
  let us := t mod 1000000 in
  isoformat_secs (t / 1000000) +:+ (if us =? 0 then "" else "." +:+ padded 6 us "") +:+ "Z".

Definition drop_last (s : string) : string := str_take (String.length s - 1) s.

Definition timestamp_epoch (value : json) : option Z :=
  match value with
  | JStr s =>
      if bool_decide (s = "") then None
      else
        '(local, tz) ← fromisoformat (if endswith s "Z" then drop_last s +:+ "+00:00" else s);
        off ← tz;
        Some (float_trunc (timestamp (local - off)))
  | _ => None
  end.

(** ** Descriptors *)

Definition suffix : string := ".dispatch.json".
Definition path_name (p : string) : string := default "" (last (path_comps p)).

Definition descriptor_base (path : string) : string :=
  if endswith path suffix then str_take (String.length path - String.length suffix) path else "".

Definition descriptor_error (cwd path : string) (value : json) (require_v2 : bool) : option string :=
  match value with
  | JObj d =>
      let schema := dget "schema" d in
      if negb (str_with (λ s, bool_decide (s ∈ [DESCRIPTOR_V1; DESCRIPTOR_V2])) schema) then Some "descriptor_schema"
      else if require_v2 && negb (py_eq schema (JStr DESCRIPTOR_V2)) then Some "legacy_process_identity_unverifiable"
      else
        match dget "task_id" d, dget "attempt_id" d with
        | JStr task, JStr attempt =>
            if negb (fullmatch IDENTIFIER task && fullmatch IDENTIFIER attempt && exact_generation (dget "generation" d))
            then Some "descriptor_identity"
            else
              let path := path_str path in
              let base := descriptor_base path in
              let names key item :=
                str_with (λ s, bool_decide (abspath cwd s = abspath cwd item)) (dget key d) in
              if negb (bool_decide (path_name path = task +:+ "." +:+ attempt +:+ suffix)) then
                Some "descriptor_filename_identity"
              else if negb (names "context_path" (base +:+ ".context.json") && names "log_path" (base +:+ ".log") &&
                            names "receipt_path" (base +:+ ".receipt.json")) then Some "descriptor_paths"
              else if py_eq schema (JStr DESCRIPTOR_V2) &&
                (negb (match timestamp_epoch (dget "created_at" d) with Some _ => true | None => false end) ||
                 negb (exact_generation (dget "pid" d)) || negb (exact_generation (dget "pgid" d)) ||
                 negb (py_eq (dget "pid" d) (dget "pgid" d)) ||
                 negb (str_with (λ s, negb (bool_decide (s = ""))) (dget "process_start_token" d)) ||
                 negb (str_with (fullmatch SHA256) (dget "argv_sha256" d)))
              then Some "descriptor_process_identity"
              else if dict_has "plan_item_ids" d && negb (is_ok (canonical_plan_item_ids (dget "plan_item_ids" d)))
              then Some "descriptor_plan_item_ids"
              else None
        | _, _ => Some "descriptor_identity"
        end
  | _ => Some "descriptor_schema"
  end.

Definition context_matches (descriptor context : json) : bool :=
  let authority := jget "authority" context in
  is_dict authority && exact_generation (jget "generation" authority) && exact_generation (jget "generation" descriptor) &&
  forallb (λ key, py_eq (jget key authority) (jget key descriptor)) ATTEMPT_IDENTITY_FIELDS.

(** The evidence snapshot of a sealed attempt worktree, if there is one. *)
Definition _terminal_evidence (h : Host) (context : json) : option json :=
  match jget "authority" context with
  | JObj authority =>
      match dget "task_id" authority, dget "attempt_id" authority, dget "pool_root" authority with
      | JStr task_id, JStr attempt_id, JStr pool_root =>
          let worktree := path_div pool_root attempt_id in
          if negb (isabs pool_root) || negb (is_dir h worktree) then None
          else match preserve h authority with
               | inl snapshot => Some snapshot
               | inr (message, class) =>
                   let reason := str_take 600 (py_join " " (py_words message)) in
                   Some (JObj
                     [("status", JStr "error"); ("task_id", JStr task_id); ("attempt_id", JStr attempt_id);
                      ("selection_policy",
                        JStr "declared-write-scope+explicit-outputs+git-ignore+bounded-untracked/v1");
                      ("evidence_location", JStr ""); ("worktree_location", JStr worktree);
                      ("worktree_retained_required", JBool true);
                      ("reason", JStr (if bool_decide (reason = "") then class else reason))])
               end
      | _, _, _ => None
      end
  | _ => None
  end.

(** [descriptor[key]] for the fields of a descriptor without error. *)
Definition _process_identity (descriptor : list (string * json)) : list (string * json) :=
  map (λ key, (key, dget key descriptor)) PROCESS_IDENTITY_FIELDS.

Record Truth := {
  state : string;
  reason : string;
  observed : option identity;
  live_fields : option (bool * string)   (** [runnable] and [run_state], of a live process *)
}.

Definition truth_of (state reason : string) (observed : option identity) : Truth :=
  {| state := state; reason := reason; observed := observed; live_fields := None |}.

Definition process_truth (h : Host) (path : string) (descriptor : json) : res Truth :=
  match descriptor_error (cwd h) path descriptor true, descriptor with
  | Some error, _ => Ok (truth_of "invalid" error None)
  | None, JObj d =>
      match dget "pid" d with
      | JInt p =>
          observed ← observe_process (kernel h) p;
          match observed with
          | None => Ok (truth_of "dead" "process_not_live" None)
          | Some i =>
              let session_matches := bool_decide (getsid (kernel h) p = Some p) in
              if negb (py_eq (JObj (identity_dict i)) (JObj (_process_identity d))) || negb session_matches then
                Ok (truth_of "mismatch" "process_identity_mismatch" (Some i))
              else
                run_state ← process_run_state (kernel h) p;
                Ok {| state := "live"; reason := "exact_live_process"; observed := Some i;
                      live_fields := Some (negb (bool_decide (run_state = Some "stopped")), default "unknown" run_state) |}
          end
      | _ => Ok (truth_of "invalid" "descriptor_process_identity" None)
      end
  | None, _ => Ok (truth_of "invalid" "descriptor_schema" None)
  end.

Definition descriptor_hash (descriptor : json) : string := sha256_hex (encode_utf8 (dumps true descriptor)).

(** [a or b] *)
Definition or_else (a b : json) : json := if truthy a then a else b.

Definition terminal_outcome (receipt descriptor : json) : option string :=
  if negb (is_dict receipt) || negb (is_dict descriptor) ||
     existsb (λ key, negb (py_eq (jget key receipt) (jget key descriptor))) ["task_id"; "attempt_id"] then None
  else if negb (exact_generation (jget "generation" descriptor)) then None
  else if py_eq (jget "schema" receipt) (JStr RECEIPT_V2) then
    match jget "terminal_outcome" receipt with
    | JStr outcome =>
        if py_eq (jget "schema" descriptor) (JStr DESCRIPTOR_V2) && exact_generation (jget "generation" receipt) &&
           py_eq (jget "generation" receipt) (jget "generation" descriptor) &&
           py_eq (jget "descriptor_sha256" receipt) (JStr (descriptor_hash descriptor)) &&
           bool_decide (outcome ∈ TERMINAL_OUTCOMES) &&
           match timestamp_epoch (jget "completed_at" receipt) with Some _ => true | None => false end
        then Some outcome else None
    | _ => None
    end
  else
    let generation := jget "generation" receipt in
    if negb (py_eq (jget "schema" descriptor) (JStr DESCRIPTOR_V1)) ||
       negb (py_eq (jget "generation" descriptor) (JInt 1)) ||
       negb (is_null (jget "schema" receipt) || py_eq (jget "schema" receipt) (JStr RECEIPT_V1)) ||
       negb (is_null generation) && (negb (exact_generation generation) || negb (py_eq generation (JInt 1)))
    then None
    else match or_else (jget "response_status" receipt) (jget "status" receipt) with
         | JStr status => if decide (status ∈ TERMINAL_OUTCOMES) then Some status else dict_get status LEGACY_OUTCOMES
         | _ => None
         end.

(** ** The three writers of a receipt *)

(** The files at the moments a call reads them: opening the descriptor, after
    locking it, at the later identity check, at the test for a receipt, when it
    reads the other files, and when it publishes. *)
Record Moments := {
  at_open : files;
  at_lock : files;
  at_bound : files;
  at_receipt : files;
  at_reads : files;
  at_publish : files
}.

(** All the moments of a call that nothing interrupts. *)
Definition still (fs : files) : Moments :=
  {| at_open := fs; at_lock := fs; at_bound := fs; at_receipt := fs; at_reads := fs; at_publish := fs |}.

Definition _bound (h : Host) (fs : files) (path : string) (identity : Z) : bool :=
  match node_at h fs path with Some (Regular ino _) => ino =? identity | _ => false end.

(** The descriptor read through the locked file, and the file's identity. *)
Definition _locked (h : Host) (m : Moments) (path : string) : res (json * Z) :=
  match node_at h (at_open m) path with
  | None | Some (Symlink _) => Err (Exn OSError "open")
  | Some (Directory _) => Err (Exn ProcessTruthError "descriptor pathname changed")
  | Some (Regular ino _) =>
      match node_at h (at_lock m) path with
      | Some (Regular ino' c) =>
          raise_if (negb (ino' =? ino)) ProcessTruthError "descriptor pathname changed";; Ok (_read_fd c, ino)
      | _ => Err (Exn ProcessTruthError "descriptor pathname changed")
      end
  end.

Definition CAPTURE_EXCERPT_BYTES : nat := 320.
Definition INVALID_RECEIPT_REASON_LIMIT : nat := 600.

Definition _bounded_reason (text : string) : string :=
  let collapsed := py_join " " (py_words text) in
  if (String.length collapsed <=? INVALID_RECEIPT_REASON_LIMIT)%nat then collapsed
  else str_take (INVALID_RECEIPT_REASON_LIMIT - 3) collapsed +:+ "...".

Fixpoint fold_unprintable (s : string) : string :=
  match s with
  | "" => ""
  | String c s => String (if printable c then c else " "%char) (fold_unprintable s)
  end.

Definition _capture_excerpt (h : Host) (fs : files) (raw_path : string) : string :=
  match node_at h fs raw_path with
  | Some (Regular _ c) =>
      let head := take (CAPTURE_EXCERPT_BYTES + 1) (file_bytes c) in
      let truncated := (CAPTURE_EXCERPT_BYTES <? length head)%nat in
      let text := decode_replace h (take CAPTURE_EXCERPT_BYTES head) in
      let text := py_join " " (py_words (fold_unprintable text)) in
      if truncated then text +:+ " ..." else text
  | _ => "<unreadable: " +:+ oserror h raw_path +:+ ">"
  end.

(** [os.stat(path).st_size] *)
Definition stat_size (h : Host) (fs : files) (path : string) : option Z :=
  match node_at h fs path with
  | Some (Regular _ c) => Some (byte_count c)
  | Some (Symlink size) => size
  | Some (Directory size) => Some size
  | None => None
  end.

Definition invalid_receipt_reason (h : Host) (fs : files) (raw_path : string) (raw descriptor : json) : string :=
  match raw with
  | JObj d =>
      let mismatched := List.filter
        (λ key, dict_has key d && negb (py_eq (dget key d) (jget key descriptor))) ATTEMPT_IDENTITY_FIELDS in
      let non_string := List.filter
        (λ key, dict_has key d && negb (is_str (dget key d))) ["response_status"; "status"] in
      if negb (bool_decide (mismatched = [])) then
        _bounded_reason ("launch receipt belongs to a different attempt: " +:+
          py_join ", " (map (λ key, key +:+ "=" +:+ py_repr (dget key d) +:+ " expected " +:+
            py_repr (jget key descriptor)) mismatched))
      else if dict_has "generation" d && negb (exact_generation (dget "generation" d)) then
        _bounded_reason ("launch receipt generation is not an exact positive integer: " +:+
          py_repr (dget "generation" d))
      else if negb (bool_decide (non_string = [])) then
        _bounded_reason ("launch receipt " +:+
          py_join " and " (map (λ key, key +:+ " is not a string: " +:+ py_repr (dget key d)) non_string))
      else "launch receipt failed an exactness check with no distinguishing condition"
  | _ =>
      match stat_size h fs raw_path with
      | None => _bounded_reason ("launch receipt capture could not be read: " +:+ oserror h raw_path)
      | Some size =>
          if size =? 0 then
            "launch receipt capture was empty: the launch process exited without writing a receipt to stdout"
          else if MAX_JSON_BYTES <? size then
            _bounded_reason ("launch receipt capture is " +:+ str_of_int size +:+ " bytes, over the " +:+
              str_of_int MAX_JSON_BYTES +:+ "-byte receipt bound; stdout begins: " +:+ _capture_excerpt h fs raw_path)
          else
            _bounded_reason ("launch receipt capture is not one JSON object (" +:+ str_of_int size +:+
              " bytes); stdout begins: " +:+ _capture_excerpt h fs raw_path)
      end
  end.

(** The capture is usable: what it says about the attempt agrees with the
    descriptor and its statuses are texts. *)
Definition exact_capture (raw descriptor : json) : bool :=
  match raw with
  | JObj d =>
      forallb (λ key, negb (dict_has key d) || py_eq (dget key d) (jget key descriptor)) ATTEMPT_IDENTITY_FIELDS &&
      (negb (dict_has "generation" d) || exact_generation (dget "generation" d)) &&
      forallb (λ key, negb (dict_has key d) || is_str (dget key d)) ["response_status"; "status"]
  | _ => false
  end.

Definition capture_outcome (payload : list (string * json)) : string :=
  match dget "response_status" payload, dget "status" payload with
  | JStr response, status =>
      if decide (response ∈ TERMINAL_OUTCOMES) then response
      else match status with
           | JStr status =>
               if decide (status ∈ TERMINAL_OUTCOMES) then status
               else if decide (status = "launched") then "complete" else "blocked"
           | _ => "blocked"
           end
  | _, JStr status =>
      if decide (status ∈ TERMINAL_OUTCOMES) then status
      else if decide (status = "launched") then "complete" else "blocked"
  | _, _ => "blocked"
  end.

Definition with_evidence (payload : list (string * json)) (evidence : option json) : list (string * json) :=
  match evidence with Some e => dict_set "evidence_preservation" e payload | None => payload end.

(** What a capture gives the receipt: its own fields when it is usable, else
    why it is not. *)
Definition capture_payload (h : Host) (fs : files) (raw_path : string) (descriptor : json) : list (string * json) :=
  let raw := load_json h fs raw_path in
  let refused :=
    [("status", JStr "blocked"); ("reason", JStr (invalid_receipt_reason h fs raw_path raw descriptor))] in
  match raw with
  | JObj d => if exact_capture raw descriptor then d else refused
  | _ => refused
  end.

(** The payload the finalizer publishes for a capture. *)
Definition finalize_payload (h : Host) (fs : files) (raw_path : string) (descriptor : json) :
    res (list (string * json)) :=
  let payload := capture_payload h fs raw_path descriptor in
  let outcome := capture_outcome payload in
  context_path ← item "context_path" descriptor;
  let payload :=
    if py_eq (dget "status" payload) (JStr "launched") then payload
    else with_evidence payload (_terminal_evidence h (load_json h fs (py_str context_path))) in
  task ← item "task_id" descriptor;
  attempt ← item "attempt_id" descriptor;
  generation ← item "generation" descriptor;
  plan_items ← canonical_plan_item_ids (jget "plan_item_ids" descriptor);
  Ok (dict_update payload
    [("schema", JStr RECEIPT_V2); ("task_id", task); ("attempt_id", attempt); ("generation", generation);
     ("completed_at", JStr (utc_now (now h))); ("terminal_outcome", JStr outcome);
     ("descriptor_sha256", JStr (descriptor_hash descriptor));
     ("plan_item_ids", JList (map JStr plan_items))]).

(** [if not atomic_write_json(path, payload, exclusive=True): raise]. *)
Definition publish (h : Host) (fs : files) (path : string) (payload : list (string * json)) (lost : string) :
    files * res unit :=
  let '(fs, written) := atomic_write_json h fs path payload true in
  (fs, created ← written; raise_if (negb created) ProcessTruthError lost).

(** What [finalize_receipt] decides before it publishes: a receipt that is
    already there, or the payload of a new one. *)
Definition finalize_decision (h : Host) (m : Moments) (raw_path dispatch_path receipt_path : string) :
    res (json + list (string * json)) :=
  '(descriptor, inode) ← _locked h m dispatch_path;
  match descriptor_error (cwd h) dispatch_path descriptor true with
  | Some error => Err (Exn ProcessTruthError error)
  | None =>
      raise_if (negb (_bound h (at_bound m) dispatch_path inode)) ProcessTruthError "descriptor pathname changed";;
      let existing := load_json h (at_receipt m) receipt_path in
      if lexists h (at_receipt m) receipt_path then
        match terminal_outcome existing descriptor with
        | Some _ => Ok (inl existing)
        | None => Err (Exn ProcessTruthError "mismatched receipt occupies exact path")
        end
      else
        truth ← process_truth h dispatch_path descriptor;
        raise_if (negb (bool_decide (state truth = "live"))) ProcessTruthError
          "finalizer lost exact live process identity";;
        payload ← finalize_payload h (at_reads m) raw_path descriptor;
        Ok (inr payload)
  end.

Definition finalize_receipt (h : Host) (m : Moments) (raw_path dispatch_path receipt_path : string) :
    files * res json :=
  match finalize_decision h m raw_path dispatch_path receipt_path with
  | Err e => (at_publish m, Err e)
  | Ok (inl existing) => (at_publish m, Ok existing)
  | Ok (inr payload) =>
      let '(fs, done) := publish h (at_publish m) receipt_path payload "receipt publication lost its fence" in
      (fs, done;; Ok (JObj payload))
  end.

(** The receipt of a cancelled or reaped attempt. *)
Definition closing_receipt (h : Host) (m : Moments) (descriptor : json) (context : json)
    (outcome failure_class reason : string) : res (list (string * json)) :=
  task ← item "task_id" descriptor;
  attempt ← item "attempt_id" descriptor;
  generation ← item "generation" descriptor;
  Ok (with_evidence
    [("schema", JStr RECEIPT_V2); ("task_id", task); ("attempt_id", attempt); ("generation", generation);
     ("status", JStr outcome); ("terminal_outcome", JStr outcome); ("failure_class", JStr failure_class);
     ("reason", JStr reason); ("completed_at", JStr (utc_now (now h)));
     ("descriptor_sha256", JStr (descriptor_hash descriptor))]
    (_terminal_evidence h context)).

(** What [cancel_attempt] does before it publishes; [teardown] is the result of
    [terminate_attributable_tree]. *)
Definition cancel_decision (h : Host) (m : Moments) (dispatch_path : string) (teardown : res unit) :
    res (json * string * list (string * json)) :=
  '(descriptor, inode) ← _locked h m dispatch_path;
  let error := descriptor_error (cwd h) dispatch_path descriptor true in
  context_path ← item "context_path" descriptor;
  let context := load_json h (at_reads m) (py_str context_path) in
  raise_if (match error with Some _ => true | None => negb (context_matches descriptor context) end)
    ProcessTruthError (default "exact identity fence mismatch" error);;
  receipt_path ← item "receipt_path" descriptor;
  raise_if (lexists h (at_receipt m) (py_str receipt_path)) ProcessTruthError "attempt already has a receipt";;
  truth ← process_truth h dispatch_path descriptor;
  raise_if (negb (bool_decide (state truth = "live")) || negb (_bound h (at_bound m) dispatch_path inode))
    ProcessTruthError "refusing stale process identity";;
  teardown;;
  receipt ← closing_receipt h m descriptor context "cancelled" "cancelled" "cancelled by operator";
  Ok (descriptor, py_str receipt_path, receipt).

Definition cancel_attempt (h : Host) (m : Moments) (dispatch_path : string) (teardown : res unit) : files * res json :=
  match cancel_decision h m dispatch_path teardown with
  | Err e => (at_publish m, Err e)
  | Ok (descriptor, receipt_path, receipt) =>
      let '(fs, done) := publish h (at_publish m) receipt_path receipt "cancel receipt lost its fence" in
      (fs, done;; Ok descriptor)
  end.

Definition reap_decision (h : Host) (m : Moments) (dispatch_path : string) :
    res (string * list (string * json)) :=
  '(descriptor, inode) ← _locked h m dispatch_path;
  let error := descriptor_error (cwd h) dispatch_path descriptor true in
  raise_if (match error with Some _ => true | None => negb (_bound h (at_bound m) dispatch_path inode) end)
    ProcessTruthError (default "descriptor pathname changed" error);;
  context_path ← item "context_path" descriptor;
  let context := load_json h (at_reads m) (py_str context_path) in
  raise_if (negb (context_matches descriptor context)) ProcessTruthError "exact identity fence mismatch";;
  receipt_path ← item "receipt_path" descriptor;
  raise_if (lexists h (at_receipt m) (py_str receipt_path)) ProcessTruthError "attempt already has a receipt";;
  truth ← process_truth h dispatch_path descriptor;
  raise_if (negb (bool_decide (state truth = "dead"))) ProcessTruthError "refusing to reap";;
  receipt ← closing_receipt h m descriptor context "failed" "process_died_without_receipt"
    "reaped: process is not live and published no receipt";
  Ok (py_str receipt_path, receipt).

Definition reap_dead_attempt (h : Host) (m : Moments) (dispatch_path : string) : files * res json :=
  match reap_decision h m dispatch_path with
  | Err e => (at_publish m, Err e)
  | Ok (receipt_path, receipt) =>
      let '(fs, done) := publish h (at_publish m) receipt_path receipt "reap receipt lost its fence" in
      (fs, done;; Ok (JObj receipt))
  end.
