(* ===== verification/ProcessTruthProps.v ===== *)
(** * Attempt receipts: what the three writers guarantee

    Reading back a published receipt, the fences before publication, and the
    receipts along any interleaving of calls. *)
From S2P Require Import Prelude Regex Sha256 Json Posix Binary64 PyText PyTime PlanItems JsonProps ProcessTruth.

#[local] Open Scope Z_scope.

(** ** A concrete attempt *)

Module Sample.
Definition base : string := "/v/_state/board-dispatch/TASK-1.d-1".
Definition dispatch : string := base +:+ ".dispatch.json".
Definition receipt : string := base +:+ ".receipt.json".
Definition capture : string := "/v/_state/capture.json".
Definition argv : bytes := [112; 121].

Definition descriptor : list (string * json) :=
  [("argv_sha256", JStr (sha256_hex argv)); ("attempt_id", JStr "d-1"); ("context_path", JStr (base +:+ ".context.json"));
   ("created_at", JStr "2026-08-17T09:30:00Z"); ("generation", JInt 2); ("log_path", JStr (base +:+ ".log"));
   ("pgid", JInt 40); ("pid", JInt 40); ("plan_item_ids", JList [JStr "P1.2"]);
   ("process_start_token", JStr "proc:777"); ("receipt_path", JStr receipt); ("schema", JStr DESCRIPTOR_V2);
   ("task_id", JStr "TASK-1")].

Definition context : list (string * json) :=
  [("authority", JObj [("attempt_id", JStr "d-1"); ("generation", JInt 2); ("lane", JStr "codex");
                       ("task_id", JStr "TASK-1"); ("workload_class", JStr "cpu-light")])].

Definition text (d : list (string * json)) : contents := Text (dumps true (JObj d)).

Definition board : files :=
  {[ dispatch := Regular 1 (text descriptor); base +:+ ".context.json" := Regular 2 (text context);
     capture := Regular 3 (text [("status", JStr "complete"); ("plan_item_ids", JList [JStr "P9.9"])]) ]}.

Definition stat_line : string :=
  "40 (py) S 1 40 40 0 -1 4194304 0 0 0 0 0 0 0 0 20 0 1 0 777 0".

Definition alive : Kernel :=
  {| getpgid p := if p =? 40 then Some 40 else None; getsid p := if p =? 40 then Some 40 else None;
     proc_stat p := if p =? 40 then ProcText stat_line else NoFile;
     proc_cmdline p := if p =? 40 then Some argv else None; ps_identity _ := (1, []); ps_state _ := (1, []) |}.
Definition gone : Kernel :=
  {| getpgid _ := None; getsid _ := None; proc_stat _ := NoFile; proc_cmdline _ := None;
     ps_identity _ := (1, []); ps_state _ := (1, []) |}.

Definition host (k : Kernel) : Host :=
  {| cwd := "/v"; kernel := k; oserror _ := "[Errno 2] No such file or directory"; decode_replace _ := "";
     is_dir _ := false; preserve _ := inl JNull; now := 1786959000250000; new_ino := 9; fault := NoFault |}.
End Sample.

Example now_1 : utc_now 1786959000250000 = "2026-08-17T09:30:00.250000Z".
Proof. vm_compute. reflexivity. Qed.
Example epoch_1 : timestamp_epoch (JStr (utc_now 1786959000250000)) = Some 1786959000.
Proof. vm_compute. reflexivity. Qed.
Example descriptor_1 : descriptor_error "/v" Sample.dispatch (JObj Sample.descriptor) true = None.
Proof. vm_compute. reflexivity. Qed.
Example truth_1 : state <$> process_truth (Sample.host Sample.alive) Sample.dispatch (JObj Sample.descriptor) = Ok "live".
Proof. vm_compute. reflexivity. Qed.
Example truth_2 : state <$> process_truth (Sample.host Sample.gone) Sample.dispatch (JObj Sample.descriptor) = Ok "dead".
Proof. vm_compute. reflexivity. Qed.

(** ** The written time *)

Lemma str_take_app s t : str_take (String.length s) (s +:+ t) = s.
Proof. induction s as [|c s IH]; cbn; [by destruct t|]. rewrite str_app_cons. cbn. by rewrite IH. Qed.

Lemma endswith_snoc s c : endswith (s +:+ String c "") (String c "") = true.
Proof. unfold endswith. rewrite str_rev_snoc. cbn. destruct (ascii_dec c c) as [_|[]]; [|done]. by destruct (str_rev s). Qed.

Lemma drop_last_snoc s c : drop_last (s +:+ String c "") = s.
Proof.
  unfold drop_last. rewrite str_length_app. cbn. rewrite Nat.add_sub. apply str_take_app.
Qed.

Lemma utc_now_epoch t :
  clock_ok t → timestamp_epoch (JStr (utc_now t)) = Some (float_trunc (timestamp t)).
Proof.
  intros Ht. pose proof (Z.div_mod t 1000000 ltac:(lia)) as Ht0. pose proof (Z.mod_pos_bound t 1000000 ltac:(lia)) as Hus.
  assert (Hf : ∀ frac us, str_forallb (λ c, negb (starts_offset c)) frac = true → us = t mod 1000000 →
    (∀ r, 0 <= r < 86400 → parse_hms (clock_text r +:+ frac) = Some ([r / 3600; r / 60 mod 60; r mod 60], us, false)) →
    timestamp_epoch (JStr (isoformat_secs (t / 1000000) +:+ frac +:+ "Z")) = Some (float_trunc (timestamp t))).
  { intros frac us Hp -> Hc. unfold timestamp_epoch. rewrite <- str_app_assoc.
    rewrite bool_decide_eq_false_2 by (intros Hn%(f_equal String.length); rewrite str_length_app in Hn; cbn in Hn; lia).
    rewrite endswith_snoc, drop_last_snoc, str_app_assoc.
    change "+00:00" with (String "+" "00:00"). rewrite (isoformat_text _ _ (t mod 1000000)) by done.
    cbn [mbind option_bind]. do 3 f_equal. lia. }
  unfold utc_now. destruct (Z.eqb_spec (t mod 1000000) 0) as [E|E].
  - rewrite <- (str_app_nil_l "Z") at 1. apply (Hf "" 0); [done..|]. intros r Hr. rewrite str_app_nil_r. by apply clock_parses.
  - rewrite str_app_assoc. rewrite <- (str_app_assoc "." _ "Z"). apply (Hf _ (t mod 1000000)); [|done|].
    + rewrite str_forallb_app. apply andb_true_iff. split; [done|].
      eapply str_forallb_impl; [|apply padded_digits]. intros c Hc. unfold starts_offset.
      destruct (bool_decide_reflect (c = "+"%char)) as [->|]; [done|]. destruct (bool_decide_reflect (c = "-"%char)) as [->|]; [done|].
      by destruct (bool_decide_reflect (c = "Z"%char)) as [->|].
    + intros r Hr. apply clock_fraction_parses; lia.
Qed.

(** ** Descriptors without error *)

(** What the checks of a v2 descriptor leave. *)
Record valid_descriptor (cwd path : string) (d : list (string * json)) : Prop := {
  vd_schema : dget "schema" d = JStr DESCRIPTOR_V2;
  vd_task : ∃ task, dget "task_id" d = JStr task;
  vd_attempt : ∃ attempt, dget "attempt_id" d = JStr attempt;
  vd_generation : ∃ g, dget "generation" d = JInt g ∧ 1 <= g;
  vd_context : ∃ c, dget "context_path" d = JStr c;
  vd_receipt : ∃ r, dget "receipt_path" d = JStr r ∧
    abspath cwd r = abspath cwd (descriptor_base (path_str path) +:+ ".receipt.json");
  vd_pid : ∃ p, dget "pid" d = JInt p ∧ 1 <= p ∧ dget "pgid" d = JInt p;
  vd_token : ∃ t, dget "process_start_token" d = JStr t;
  vd_argv : ∃ a, dget "argv_sha256" d = JStr a;
  vd_items : is_ok (canonical_plan_item_ids (dget "plan_item_ids" d)) = true
}.

Lemma str_with_inv p v : str_with p v = true → ∃ s, v = JStr s ∧ p s = true.
Proof. destruct v; try done. by eexists. Qed.

Lemma exact_generation_inv v : exact_generation v = true → ∃ z, v = JInt z ∧ 1 <= z.
Proof. destruct v; try done. intros ?%Z.leb_le. by eexists. Qed.

Lemma descriptor_ok cwd path v :
  descriptor_error cwd path v true = None → ∃ d, v = JObj d ∧ valid_descriptor cwd path d.
Proof.
  unfold descriptor_error. destruct v as [| | | | |d]; try done. intros H. exists d. split; [done|]. revert H.
  destruct (negb (str_with _ (dget "schema" d))) eqn:Es; [done|].
  destruct (true && negb (py_eq (dget "schema" d) (JStr DESCRIPTOR_V2))) eqn:E2; [done|].
  cbn [andb] in E2. apply negb_false_iff, py_eq_str in E2.
  destruct (dget "task_id" d) as [| | |task| |] eqn:Et; try done. destruct (dget "attempt_id" d) as [| | |attempt| |] eqn:Ea; try done.
  destruct (negb (_ && _ && exact_generation _)) eqn:Eg; [done|]. apply negb_false_iff in Eg. bool_inv.
  destruct (negb (bool_decide (path_name _ = _))) eqn:En; [done|].
  destruct (negb (_ && _ && _)) eqn:Ep; [done|]. apply negb_false_iff in Ep. apply andb_true_iff in Ep as [[Hc Hl]%andb_true_iff Hr].
  rewrite E2, (proj2 (py_eq_str _ _) eq_refl). cbn [andb].
  destruct (_ || _) eqn:Ei; [done|]. destruct (_ && _) eqn:Epl; [done|]. intros _.
  apply str_with_inv in Hc as (c & Hc & _), Hr as (r & Hr & Hr2). apply bool_decide_eq_true in Hr2.
  repeat apply orb_false_iff in Ei as [Ei ?]. rewrite !negb_false_iff in *.
  match goal with H : exact_generation (dget "pid" d) = true |- _ => apply exact_generation_inv in H as (p & Hp & ?) end.
  match goal with H : exact_generation (dget "pgid" d) = true |- _ => apply exact_generation_inv in H as (q & Hq & ?) end.
  match goal with H : py_eq (dget "pid" d) _ = true |- _ => rewrite Hp, Hq in H; apply Z.eqb_eq in H as <- end.
  match goal with H : exact_generation (dget "generation" d) = true |- _ => apply exact_generation_inv in H end.
  match goal with H : str_with _ (dget "process_start_token" d) = true |- _ => apply str_with_inv in H as (t & ? & _) end.
  match goal with H : str_with _ (dget "argv_sha256" d) = true |- _ => apply str_with_inv in H as (a & ? & _) end.
  constructor; eauto.
  unfold dict_has in Epl. revert Epl. unfold dget. destruct (dict_get "plan_item_ids" d); cbn; [|done].
  intros ->%negb_false_iff. done.
Qed.

(** ** Published receipts *)

(** The fields every writer gives a receipt. *)
Record attempt_receipt (t : Z) (d : list (string * json)) (outcome : string) (p : list (string * json)) : Prop := {
  ar_wf : json_wf (JObj p) = true;
  ar_schema : dget "schema" p = JStr RECEIPT_V2;
  ar_task : dget "task_id" p = dget "task_id" d;
  ar_attempt : dget "attempt_id" p = dget "attempt_id" d;
  ar_generation : dget "generation" p = dget "generation" d;
  ar_completed : dget "completed_at" p = JStr (utc_now t);
  ar_hash : dget "descriptor_sha256" p = JStr (descriptor_hash (JObj d));
  ar_outcome : dget "terminal_outcome" p = JStr outcome;
  ar_terminal : outcome ∈ TERMINAL_OUTCOMES
}.

Lemma jget_canon k p : json_wf (JObj p) = true → jget k (json_canon (JObj p)) = json_canon (dget k p).
Proof.
  intros [Hnd _]%json_wf_obj. rewrite canon_obj. cbn [jget]. unfold dget.
  rewrite dict_get_canon by done. by destruct (dict_get k p).
Qed.

Lemma canon_dict p : is_dict (json_canon (JObj p)) = true.
Proof. by rewrite canon_obj. Qed.

#[local] Opaque sha256_hex.

Lemma receipt_recognised cwd path t d outcome p :
  valid_descriptor cwd path d → clock_ok t → attempt_receipt t d outcome p →
  terminal_outcome (json_canon (JObj p)) (JObj d) = Some outcome.
Proof.
  intros [Hs [task Ht] [attempt Ha] (g & Hg & Hg1) _ _ _ _ _ _] Hclock [Hwf Hsc Htk Hat Hgn Hcp Hh Ho Hterm].
  unfold terminal_outcome. rewrite canon_dict. cbn [is_dict negb existsb orb]. rewrite !jget_canon by done.
  rewrite Hsc, Htk, Hat, Hgn, Hcp, Hh, Ho. cbn [jget]. rewrite Hs, Ht, Ha, Hg. cbn [json_canon].
  rewrite !(proj2 (py_eq_str _ _) eq_refl). cbn [negb orb exact_generation].
  replace (1 <=? g) with true by lia. rewrite utc_now_epoch by done. cbn [negb andb py_eq].
  rewrite Z.eqb_refl, !bool_decide_eq_true_2 by done. done.
Qed.

(** The file an exclusive publication leaves. *)
Lemma publish_ok h fs path p lost fs' :
  publish h fs path p lost = (fs', Ok tt) →
  node_at h fs path = None ∧ fault h = NoFault ∧
  fs' = <[abspath (cwd h) path := Regular (new_ino h) (Text (receipt_text p))]> fs.
Proof.
  unfold publish, atomic_write_json. destruct (fault h), (node_at h fs path); cbn; by intros [= <-].
Qed.

Lemma encode_ascii_length s : is_ascii_str s = true → length (encode_utf8 s) = String.length s.
Proof.
  unfold is_ascii_str. induction s as [|c s IH]; [done|]. cbn. intros [-> H]%andb_true_iff. cbn. by rewrite IH.
Qed.

Lemma receipt_bytes p : byte_count (Text (receipt_text p)) = Z.of_nat (String.length (receipt_text p)).
Proof.
  unfold byte_count. cbn [file_bytes]. rewrite encode_ascii_length; [done|].
  unfold receipt_text. by rewrite ascii_app, dumps_ascii.
Qed.

(** Within the bound a written receipt reads back; beyond it, it reads as nothing. *)
Lemma read_receipt p :
  json_wf (JObj p) = true →
  _read_fd (Text (receipt_text p)) =
    if MAX_JSON_BYTES <? Z.of_nat (String.length (receipt_text p)) then JNull else json_canon (JObj p).
Proof.
  intros Hwf. unfold _read_fd. rewrite receipt_bytes. case_match; [done|]. unfold receipt_text.
  rewrite loads_unique_dumps_LF by done. by rewrite canon_obj.
Qed.

(** ** What the writers publish *)

(** The snapshot a salvage returns is a dictionary. *)
Definition salvage_ok (h : Host) : Prop := ∀ a s, preserve h a = inl s → json_wf s = true.

Lemma capture_outcome_terminal p : capture_outcome p ∈ TERMINAL_OUTCOMES.
Proof.
  assert (Hb : ("blocked" : string) ∈ TERMINAL_OUTCOMES) by by_decide.
  assert (Hc : ("complete" : string) ∈ TERMINAL_OUTCOMES) by by_decide.
  unfold capture_outcome. repeat (case_match || case_decide); done.
Qed.

Lemma evidence_wf h context e : salvage_ok h → _terminal_evidence h context = Some e → json_wf e = true.
Proof.
  intros Hs. unfold _terminal_evidence. destruct (jget "authority" context) as [| | | | |a]; try done.
  destruct (dget "task_id" a), (dget "attempt_id" a), (dget "pool_root" a); try done.
  case_match; [done|]. destruct (preserve h a) as [snap|[msg cls]] eqn:E; intros [= <-]; [by eapply Hs|].
  apply json_wf_obj. split; [by_decide|by repeat constructor].
Qed.

Lemma with_evidence_wf h context p :
  salvage_ok h → json_wf (JObj p) = true → json_wf (JObj (with_evidence p (_terminal_evidence h context))) = true.
Proof.
  intros Hs Hp. unfold with_evidence. destruct (_terminal_evidence h context) eqn:E; [|done].
  apply json_wf_set; [by eapply evidence_wf|done].
Qed.

Lemma read_fd_wf c : json_wf (_read_fd c) = true.
Proof.
  unfold _read_fd. case_match; [done|]. destruct c as [s|]; [|done].
  destruct (loads_unique s) as [[]|] eqn:E; try done. by eapply loads_unique_wf.
Qed.

Lemma load_json_wf h fs path : json_wf (load_json h fs path) = true.
Proof. unfold load_json. destruct (node_at h fs path) as [[]|]; try done. apply read_fd_wf. Qed.

Lemma capture_payload_wf h fs raw d : json_wf (JObj (capture_payload h fs raw d)) = true.
Proof.
  pose proof (load_json_wf h fs raw) as Hw. unfold capture_payload.
  destruct (load_json h fs raw) as [| | | | |p]; try done. by destruct (exact_capture _ _).
Qed.

Lemma item_dget k d v : item k (JObj d) = Ok v → v = dget k d.
Proof. unfold item, dget. destruct (dict_get k d); by intros [= <-]. Qed.

Lemma items_wf (l : list string) : json_wf (JList (map JStr l)) = true.
Proof. apply json_wf_list, Forall_map. by apply Forall_true. Qed.

Lemma finalize_payload_ok h fs raw cwd path d p :
  salvage_ok h → json_wf (JObj d) = true → valid_descriptor cwd path d → finalize_payload h fs raw (JObj d) = Ok p →
  attempt_receipt (now h) d (capture_outcome (capture_payload h fs raw (JObj d))) p ∧
  ∃ ids, canonical_plan_item_ids (dget "plan_item_ids" d) = Ok ids ∧ dget "plan_item_ids" p = JList (map JStr ids).
Proof.
  intros Hs Hd Hv. unfold finalize_payload.
  assert (Hbase : ∀ b c, json_wf (JObj (if b : bool then capture_payload h fs raw (JObj d)
                     else with_evidence (capture_payload h fs raw (JObj d)) (_terminal_evidence h c))) = true).
  { intros [] c; [apply capture_payload_wf|]. apply with_evidence_wf; [done|apply capture_payload_wf]. }
  intros H. res_inv.
  repeat match goal with H : item _ _ = Ok _ |- _ => apply item_dget in H as -> end.
  specialize (Hbase (py_eq (dget "status" (capture_payload h fs raw (JObj d))) (JStr "launched"))
    (load_json h fs (py_str (dget "context_path" d)))).
  set (base := if py_eq _ _ then _ else _) in *.
  split; [constructor; [|rewrite !dget_set; reflexivity..|]|].
  - repeat (apply json_wf_set; [by apply json_wf_dget || apply items_wf || done|]). done.
  - apply capture_outcome_terminal.
  - eexists. split; [eassumption|]. by rewrite !dget_set.
Qed.

Lemma closing_receipt_ok h m cwd path d c outcome cls why p :
  salvage_ok h → json_wf (JObj d) = true → valid_descriptor cwd path d → outcome ∈ TERMINAL_OUTCOMES →
  closing_receipt h m (JObj d) c outcome cls why = Ok p → attempt_receipt (now h) d outcome p.
Proof.
  intros Hs Hd Hv Ho H. unfold closing_receipt in H. res_inv.
  repeat match goal with H : item _ _ = Ok _ |- _ => apply item_dget in H as -> end.
  constructor; [|unfold with_evidence; destruct (_terminal_evidence h c);
    [rewrite dget_set; reflexivity|reflexivity]..|done].
  apply with_evidence_wf; [done|]. apply json_wf_obj. split; [by_decide|].
  repeat constructor; try done; cbn [snd]; by apply json_wf_dget.
Qed.

(** ** Calls and the files they leave *)

Variant call :=
  | Finalize (raw_path dispatch_path receipt_path : string)
  | Cancel (dispatch_path : string) (teardown : res unit)
  | Reap (dispatch_path : string).

Definition run_call (h : Host) (m : Moments) (c : call) : files * res json :=
  match c with
  | Finalize raw dispatch receipt => finalize_receipt h m raw dispatch receipt
  | Cancel dispatch teardown => cancel_attempt h m dispatch teardown
  | Reap dispatch => reap_dead_attempt h m dispatch
  end.

Definition dispatch_of (c : call) : string :=
  match c with Finalize _ dispatch _ | Cancel dispatch _ | Reap dispatch => dispatch end.
Definition receipt_of (c : call) (d : list (string * json)) : string :=
  match c with Finalize _ _ receipt => receipt | _ => py_str (dget "receipt_path" d) end.
Definition outcome_of (h : Host) (m : Moments) (c : call) (d : list (string * json)) : string :=
  match c with
  | Finalize raw _ _ => capture_outcome (capture_payload h (at_reads m) raw (JObj d))
  | Cancel _ _ => "cancelled"
  | Reap _ => "failed"
  end.

(** What a call saw of the process before it published. *)
Definition fenced (h : Host) (m : Moments) (c : call) (d : list (string * json)) : Prop :=
  ∃ p, dget "pid" d = JInt p ∧
  match c with
  | Reap _ => observe_process (kernel h) p = Ok None
  | _ => getsid (kernel h) p = Some p ∧ ∃ i, observe_process (kernel h) p = Ok (Some i) ∧
      pid i = p ∧ pgid i = p ∧ dget "process_start_token" d = JStr (process_start_token i) ∧
      dget "argv_sha256" d = JStr (argv_sha256 i)
  end ∧
  match c with
  | Finalize _ _ _ => True
  | _ => context_matches (JObj d) (load_json h (at_reads m) (py_str (dget "context_path" d))) = true
  end.

Lemma identity_matches i d p :
  dget "pid" d = JInt p → dget "pgid" d = JInt p →
  py_eq (JObj (identity_dict i)) (JObj (_process_identity d)) = true →
  pid i = p ∧ pgid i = p ∧ dget "process_start_token" d = JStr (process_start_token i) ∧
  dget "argv_sha256" d = JStr (argv_sha256 i).
Proof.
  intros Hp Hg H.
  assert (Hk : ∀ k v, dict_get k (identity_dict i) = Some v → k ∈ PROCESS_IDENTITY_FIELDS → py_eq v (dget k d) = true).
  { intros k v Hk Hin. destruct (py_eq_obj_get _ _ _ _ H Hk) as (w & Hw & ?).
    enough (dict_get k (_process_identity d) = Some (dget k d)) as E by (rewrite E in Hw; by injection Hw as ->).
    clear -Hin. unfold PROCESS_IDENTITY_FIELDS in Hin. by repeat (apply elem_of_cons in Hin as [->|Hin]); [..|apply elem_of_nil in Hin]. }
  pose proof (Hk "pid" _ eq_refl ltac:(by_decide)) as H1. pose proof (Hk "pgid" _ eq_refl ltac:(by_decide)) as H2.
  pose proof (Hk "process_start_token" _ eq_refl ltac:(by_decide)) as H3.
  pose proof (Hk "argv_sha256" _ eq_refl ltac:(by_decide)) as H4.
  rewrite Hp in H1. rewrite Hg in H2. cbn in H1, H2. bool_inv.
  destruct (dget "process_start_token" d), (dget "argv_sha256" d); try done. cbn in H3, H4. bool_inv. by subst.
Qed.

Lemma truth_live h path d t :
  process_truth h path (JObj d) = Ok t → state t = "live" →
  descriptor_error (cwd h) path (JObj d) true = None ∧ ∃ p i, dget "pid" d = JInt p ∧
    observe_process (kernel h) p = Ok (Some i) ∧ getsid (kernel h) p = Some p ∧
    py_eq (JObj (identity_dict i)) (JObj (_process_identity d)) = true.
Proof.
  unfold process_truth. destruct (descriptor_error _ _ _ _); [by intros [= <-] [=]|].
  destruct (dget "pid" d) as [| |p| | |] eqn:Ep; try by intros [= <-] [=].
  intros (o & Ho & H)%bind_Ok. destruct o as [i|]; [|by simplify_eq].
  destruct (negb _ || negb _) eqn:E; [by simplify_eq|]. bool_inv. eauto 10.
Qed.

Lemma truth_dead h path d t :
  process_truth h path (JObj d) = Ok t → state t = "dead" →
  descriptor_error (cwd h) path (JObj d) true = None ∧ ∃ p, dget "pid" d = JInt p ∧
    observe_process (kernel h) p = Ok None.
Proof.
  unfold process_truth. destruct (descriptor_error _ _ _ _); [by intros [= <-] [=]|].
  destruct (dget "pid" d) as [| |p| | |] eqn:Ep; try by intros [= <-] [=].
  intros (o & Ho & H)%bind_Ok. destruct o as [i|]; [|by eauto].
  destruct (negb _ || negb _); [by simplify_eq|]. apply bind_Ok in H as (r & _ & [= <-]). done.
Qed.

(** A call that publishes: through its locked descriptor, past its fences, one
    new file. *)
Definition published (h : Host) (m : Moments) (c : call) (d p : list (string * json)) (fs : files) : Prop :=
  node_at h (at_publish m) (receipt_of c d) = None ∧
  fs = <[abspath (cwd h) (receipt_of c d) := Regular (new_ino h) (Text (receipt_text p))]> (at_publish m).

Definition locked_descriptor (h : Host) (m : Moments) (c : call) (d : list (string * json)) : Prop :=
  ∃ ino, _locked h m (dispatch_of c) = Ok (JObj d, ino).

(** A call that got as far as publishing [p] for the descriptor [d]. *)
Record cleared (h : Host) (m : Moments) (c : call) (d p : list (string * json)) : Prop := {
  cl_locked : locked_descriptor h m c d;
  cl_error : descriptor_error (cwd h) (dispatch_of c) (JObj d) true = None;
  cl_valid : valid_descriptor (cwd h) (dispatch_of c) d;
  cl_fenced : fenced h m c d;
  cl_absent : lexists h (at_receipt m) (receipt_of c d) = false;
  cl_receipt : attempt_receipt (now h) d (outcome_of h m c d) p
}.

Lemma locked_wf h m path v ino : _locked h m path = Ok (v, ino) → json_wf v = true.
Proof.
  unfold _locked. destruct (node_at h (at_open m) path) as [[]|]; try done.
  destruct (node_at h (at_lock m) path) as [[]|]; try done. intros H. res_inv. apply read_fd_wf.
Qed.

(** A live process in front of a valid descriptor is the descriptor's own. *)
Lemma live_fence h path dispatch d t :
  valid_descriptor (cwd h) dispatch d → process_truth h path (JObj d) = Ok t → state t = "live" →
  ∃ p, dget "pid" d = JInt p ∧ getsid (kernel h) p = Some p ∧ ∃ i, observe_process (kernel h) p = Ok (Some i) ∧
    pid i = p ∧ pgid i = p ∧ dget "process_start_token" d = JStr (process_start_token i) ∧
    dget "argv_sha256" d = JStr (argv_sha256 i).
Proof.
  intros Hv Ht Hs. destruct (truth_live _ _ _ _ Ht Hs) as (_ & q & i & Hp & Ho & Hg & Hi).
  destruct (vd_pid _ _ _ Hv) as (q' & Hq' & _ & Hq2). assert (q' = q) as -> by congruence.
  exists q. split_and!; [done..|]. exists i. split; [done|]. by apply (identity_matches i d q).
Qed.

Section Writers.
  Context (h : Host) (m : Moments) (Hs : salvage_ok h).

Lemma finalize_cleared raw dispatch receipt p :
  finalize_decision h m raw dispatch receipt = Ok (inr p) → ∃ d, cleared h m (Finalize raw dispatch receipt) d p.
Proof using Hs.
  unfold finalize_decision. intros ([v ino] & Hl & E)%bind_Ok.
  destruct (descriptor_error _ _ _ _) eqn:Ed; [done|]. destruct (descriptor_ok _ _ _ Ed) as (d & -> & Hv).
  apply bind_Ok in E as ([] & _ & E). cbv zeta in E. destruct (lexists _ _ _) eqn:Ex; [by case_match|].
  apply bind_Ok in E as (t & Ht & E). apply bind_Ok in E as ([] & Hst & E). apply raise_if_Ok in Hst. bool_inv.
  apply bind_Ok in E as (q & Hq & [= <-]).
  destruct (live_fence _ _ _ _ _ Hv Ht ltac:(done)) as (z & Hz & Hsid & Hi). exists d.
  constructor; [by eexists|done|done|by exists z|done|].
  by destruct (finalize_payload_ok _ _ _ _ _ _ _ Hs (locked_wf _ _ _ _ _ Hl) Hv Hq).
Qed.

Lemma cancel_cleared dispatch teardown v r p :
  cancel_decision h m dispatch teardown = Ok (v, r, p) →
  ∃ d, v = JObj d ∧ r = receipt_of (Cancel dispatch teardown) d ∧ teardown = Ok tt ∧ cleared h m (Cancel dispatch teardown) d p.
Proof using Hs.
  unfold cancel_decision. intros ([v' ino] & Hl & E)%bind_Ok. cbv zeta in E.
  apply bind_Ok in E as (cp & Hcp & E). apply bind_Ok in E as ([] & Hm & E). apply raise_if_Ok in Hm.
  destruct (descriptor_error _ _ _ _) eqn:Ed; [done|]. destruct (descriptor_ok _ _ _ Ed) as (d & -> & Hv). apply negb_false_iff in Hm.
  apply bind_Ok in E as (rp & Hrp & E). apply item_dget in Hcp as ->, Hrp as ->. apply bind_Ok in E as ([] & Hex & E).
  apply raise_if_Ok in Hex. apply bind_Ok in E as (t & Ht & E). apply bind_Ok in E as ([] & Hst & E). apply raise_if_Ok in Hst.
  bool_inv. apply bind_Ok in E as ([] & Hd & E). apply bind_Ok in E as (rc & Hrc & [= <- <- <-]).
  destruct (live_fence _ _ _ _ _ Hv Ht ltac:(done)) as (z & Hz & Hsid & Hi). exists d. split_and!; [done..|].
  constructor; [by eexists|done|done|by exists z|done|].
  eapply (closing_receipt_ok _ _ _ _ _ _ _ _ _ _ Hs (locked_wf _ _ _ _ _ Hl) Hv); [by_decide|exact Hrc].
Qed.

Lemma reap_cleared dispatch r p :
  reap_decision h m dispatch = Ok (r, p) → ∃ d, r = receipt_of (Reap dispatch) d ∧ cleared h m (Reap dispatch) d p.
Proof using Hs.
  unfold reap_decision. intros ([v' ino] & Hl & E)%bind_Ok. cbv zeta in E.
  apply bind_Ok in E as ([] & Hm & E). apply raise_if_Ok in Hm.
  destruct (descriptor_error _ _ _ _) eqn:Ed; [done|]. destruct (descriptor_ok _ _ _ Ed) as (d & -> & Hv).
  apply bind_Ok in E as (cp & Hcp & E). apply bind_Ok in E as ([] & Hc & E). apply raise_if_Ok, negb_false_iff in Hc.
  apply bind_Ok in E as (rp & Hrp & E). apply item_dget in Hcp as ->, Hrp as ->. apply bind_Ok in E as ([] & Hex & E).
  apply raise_if_Ok in Hex. apply bind_Ok in E as (t & Ht & E). apply bind_Ok in E as ([] & Hst & E). apply raise_if_Ok in Hst.
  bool_inv. apply bind_Ok in E as (rc & Hrc & [= <- <-]).
  destruct (truth_dead _ _ _ _ Ht ltac:(done)) as (_ & q & Hp & Ho). exists d. split; [done|].
  constructor; [by eexists|done|done|exists q; by split_and!|done|].
  eapply (closing_receipt_ok _ _ _ _ _ _ _ _ _ _ Hs (locked_wf _ _ _ _ _ Hl) Hv); [by_decide|exact Hrc].
Qed.

End Writers.

Lemma publish_cases h fs path p lost :
  (publish h fs path p lost).1 = fs ∧ (publish h fs path p lost).2 ≠ Ok tt ∨
  node_at h fs path = None ∧
  (publish h fs path p lost).1 = <[abspath (cwd h) path := Regular (new_ino h) (Text (receipt_text p))]> fs.
Proof.
  unfold publish, atomic_write_json. destruct (fault h), (node_at h fs path); cbn; (by left) || by right.
Qed.

(** Every call either leaves the files as they are, and then a finalizer that
    returns found its receipt, or adds one receipt past all the fences. *)
Lemma run_call_cases h m c :
  salvage_ok h →
  (run_call h m c).1 = at_publish m ∧
    (∀ v, (run_call h m c).2 = Ok v → ∃ raw dispatch receipt, c = Finalize raw dispatch receipt ∧
       finalize_decision h m raw dispatch receipt = Ok (inl v)) ∨
  ∃ d p, cleared h m c d p ∧ published h m c d p (run_call h m c).1.
Proof.
  intros Hs. destruct c as [raw dispatch receipt|dispatch teardown|dispatch]; cbn [run_call].
  - unfold finalize_receipt. destruct (finalize_decision h m raw dispatch receipt) as [[e|p]|] eqn:E.
    + left. split; [done|]. intros v [= <-]. eauto 10.
    + destruct (finalize_cleared h m Hs _ _ _ _ E) as (d & Hd).
      destruct (publish_cases h (at_publish m) receipt p "receipt publication lost its fence") as [[? Hr]|Hp];
        destruct (publish _ _ _ _ _) as [fs r]; cbn [fst snd] in *; [left|right; by exists d, p].
      split; [done|]. intros v ([] & ? & _)%bind_Ok. done.
    + left. split; [done|]. intros v [=].
  - unfold cancel_attempt. destruct (cancel_decision h m dispatch teardown) as [[[v r] p]|] eqn:E; [|by left].
    destruct (cancel_cleared h m Hs _ _ _ _ _ E) as (d & -> & -> & _ & Hd).
    destruct (publish_cases h (at_publish m) (receipt_of (Cancel dispatch teardown) d) p "cancel receipt lost its fence") as [[? Hr]|Hp];
      destruct (publish _ _ _ _ _) as [fs r]; cbn [fst snd] in *; [left|right; by exists d, p].
    split; [done|]. intros v ([] & ? & _)%bind_Ok. done.
  - unfold reap_dead_attempt. destruct (reap_decision h m dispatch) as [[r p]|] eqn:E; [|by left].
    destruct (reap_cleared h m Hs _ _ _ E) as (d & -> & Hd).
    destruct (publish_cases h (at_publish m) (receipt_of (Reap dispatch) d) p "reap receipt lost its fence") as [[? Hr]|Hp];
      destruct (publish _ _ _ _ _) as [fs r]; cbn [fst snd] in *; [left|right; by exists d, p].
    split; [done|]. intros v ([] & ? & _)%bind_Ok. done.
Qed.

Definition publishes (h : Host) (m : Moments) (c : call) : Prop := (run_call h m c).1 ≠ at_publish m.

Lemma publishes_cleared h m c :
  salvage_ok h → publishes h m c → ∃ d p, cleared h m c d p ∧ published h m c d p (run_call h m c).1.
Proof. intros Hs Hp. by destruct (run_call_cases h m c Hs) as [[? _]|?]. Qed.

Lemma locked_descriptor_fun h m c d d' : locked_descriptor h m c d → locked_descriptor h m c d' → d = d'.
Proof. intros [i Hi] [j Hj]. rewrite Hi in Hj. by injection Hj. Qed.

Lemma load_published h m c d p fs :
  published h m c d p fs → load_json h fs (receipt_of c d) = _read_fd (Text (receipt_text p)).
Proof. intros [_ ->]. unfold load_json, node_at. by rewrite lookup_insert_eq. Qed.

(** C38. A published receipt reads back.  Whatever call published it, the next
    reader of the receipt's path finds the payload with its keys sorted and
    recognises it as the terminal outcome of exactly this descriptor, provided
    its text is within the readers' bound of one MiB; a longer one is read as
    nothing and recognised by nobody. *)
Theorem receipt_reads_back h m c :
  salvage_ok h → clock_ok (now h) → publishes h m c →
  ∃ d p, locked_descriptor h m c d ∧ published h m c d p (run_call h m c).1 ∧
    let receipt := load_json h (run_call h m c).1 (receipt_of c d) in
    if MAX_JSON_BYTES <? Z.of_nat (String.length (receipt_text p))
    then receipt = JNull ∧ terminal_outcome receipt (JObj d) = None
    else receipt = json_canon (JObj p) ∧ terminal_outcome receipt (JObj d) = Some (outcome_of h m c d).
Proof.
  intros Hs Hc Hp. destruct (publishes_cleared _ _ _ Hs Hp) as (d & p & [Hl _ Hv Hf Ha Hr] & Hpub).
  exists d, p. split; [done|]. split; [done|]. cbv zeta. rewrite (load_published _ _ _ _ _ _ Hpub), read_receipt by apply Hr.
  case_match; [done|]. split; [done|]. by eapply receipt_recognised.
Qed.

(** One step of the shared board: a call by any process, with any earlier view
    of the files, or a change by others that leaves [path] alone. *)
Inductive board_step (path : string) : files → files → Prop :=
  | step_call h m c : salvage_ok h → board_step path (at_publish m) (run_call h m c).1
  | step_other fs fs' : fs' !! path = fs !! path → board_step path fs fs'.

Lemma board_step_keeps path fs fs' n : board_step path fs fs' → fs !! path = Some n → fs' !! path = Some n.
Proof.
  intros [h m c Hs|? ? E] Hn; [|by rewrite E].
  destruct (run_call_cases h m c Hs) as [[-> _]|(d & p & _ & Hfree & ->)]; [done|].
  rewrite lookup_insert_ne; [done|]. intros <-. unfold node_at in Hfree. congruence.
Qed.

(** C12. The first receipt wins.  Once a call has published an attempt's
    receipt, then after any interleaving of further calls, by any processes and
    with any stale views, a later call for the same descriptor publishes
    nothing: a finalizer can only return that first receipt, with its outcome,
    and a cancel or a reap is refused. *)
Theorem first_receipt_wins h m c h' m' c' d :
  salvage_ok h → salvage_ok h' → clock_ok (now h) → publishes h m c → locked_descriptor h m c d →
  rtc (board_step (abspath (cwd h) (receipt_of c d))) (run_call h m c).1 (at_receipt m') →
  locked_descriptor h' m' c' d → cwd h' = cwd h →
  abspath (cwd h) (receipt_of c' d) = abspath (cwd h) (receipt_of c d) →
  (run_call h' m' c').1 = at_publish m' ∧
  ∀ v, (run_call h' m' c').2 = Ok v →
    (∃ raw dispatch receipt, c' = Finalize raw dispatch receipt) ∧
    v = load_json h (run_call h m c).1 (receipt_of c d) ∧
    terminal_outcome v (JObj d) = Some (outcome_of h m c d).
Proof.
  intros Hs Hs' Hclk Hp Hl Hsteps Hl' Hcwd Hpath. destruct (publishes_cleared _ _ _ Hs Hp) as (d0 & p & Hcl & Hpub).
  pose proof (locked_descriptor_fun _ _ _ _ _ Hl (cl_locked _ _ _ _ _ Hcl)) as <-.
  pose proof (load_published _ _ _ _ _ _ Hpub) as Hload. destruct Hpub as [_ Hfs].
  assert (Hn : at_receipt m' !! abspath (cwd h) (receipt_of c d) = Some (Regular (new_ino h) (Text (receipt_text p)))).
  { assert (Hn : (run_call h m c).1 !! abspath (cwd h) (receipt_of c d) = Some (Regular (new_ino h) (Text (receipt_text p))))
      by (rewrite Hfs; by rewrite lookup_insert_eq).
    clear -Hsteps Hn. induction Hsteps; [done|]. by eauto using board_step_keeps. }
  assert (Hex : node_at h' (at_receipt m') (receipt_of c' d) = Some (Regular (new_ino h) (Text (receipt_text p))))
    by (unfold node_at; by rewrite Hcwd, Hpath).
  destruct (run_call_cases h' m' c' Hs') as [[Hsame Hret]|(d' & p' & Hcl' & _)].
  - split; [done|]. intros v Hv. destruct (Hret v Hv) as (raw & dispatch & receipt & -> & Hdec). split; [by eauto|].
    destruct Hl' as [ino Hl']. cbn [dispatch_of receipt_of] in *. unfold finalize_decision in Hdec. rewrite Hl' in Hdec.
    cbn [mbind res_bind] in Hdec. destruct (descriptor_error _ _ _ _); [done|].
    apply bind_Ok in Hdec as ([] & _ & Hdec). cbv zeta in Hdec. unfold lexists, load_json in Hdec. rewrite Hex in Hdec.
    rewrite Hload. destruct (terminal_outcome _ _) as [o|] eqn:Eo; [|done]. injection Hdec as <-. split; [done|].
    revert Eo. pose proof (cl_receipt _ _ _ _ _ Hcl) as Hr. rewrite read_receipt by apply Hr. case_match; [done|].
    erewrite receipt_recognised; [done|apply Hcl|done|done].
  - pose proof (locked_descriptor_fun _ _ _ _ _ Hl' (cl_locked _ _ _ _ _ Hcl')) as <-.
    pose proof (cl_absent _ _ _ _ _ Hcl') as Ha. unfold lexists in Ha. by rewrite Hex in Ha.
Qed.

(** C19. Who may close an attempt.  Any call that publishes has read, through
    the locked file, a well-formed v2 descriptor with no receipt yet.  A
    finalizer or a cancel saw the descriptor's own process alive: same pid,
    group, start token and arguments, leading its session.  A reaper saw no
    process at all, and cancel and reap matched the sealed context.  So nothing
    reaps an attempt in a world where it could be finalized. *)
Theorem writers_fenced h m c :
  salvage_ok h → publishes h m c →
  ∃ d p z, locked_descriptor h m c d ∧ valid_descriptor (cwd h) (dispatch_of c) d ∧
    published h m c d p (run_call h m c).1 ∧ lexists h (at_receipt m) (receipt_of c d) = false ∧
    fenced h m c d ∧ dget "pid" d = JInt z ∧
    (observe_process (kernel h) z = Ok None ↔ ∃ path, c = Reap path).
Proof.
  intros Hs Hp. destruct (publishes_cleared _ _ _ Hs Hp) as (d & p & [Hl _ Hv (z & Hz & Hf & Hc) Ha Hr] & Hpub).
  exists d, p, z. do 4 (split; [done|]). split; [exact (ex_intro _ z (conj Hz (conj Hf Hc)))|]. split; [done|]. destruct c as [| |path]; [..|by split; [intros _; exists path|]];
    (split; [|by intros [? [=]]]; destruct Hf as (_ & i & Hi & _); congruence).
Qed.

Lemma finalize_fields h m (Hs : salvage_ok h) raw dispatch receipt p d :
  finalize_decision h m raw dispatch receipt = Ok (inr p) → locked_descriptor h m (Finalize raw dispatch receipt) d →
  attempt_receipt (now h) d (capture_outcome (capture_payload h (at_reads m) raw (JObj d))) p ∧
  (∃ ids, canonical_plan_item_ids (dget "plan_item_ids" d) = Ok ids ∧ dget "plan_item_ids" p = JList (map JStr ids)) ∧
  (exact_capture (load_json h (at_reads m) raw) (JObj d) = false → dget "terminal_outcome" p = JStr "blocked").
Proof.
  intros H Hl. destruct (finalize_cleared h m Hs _ _ _ _ H) as (d' & Hcl).
  pose proof (locked_descriptor_fun _ _ _ _ _ Hl (cl_locked _ _ _ _ _ Hcl)) as <-. pose proof (cl_valid _ _ _ _ _ Hcl) as Hv.
  destruct Hl as [ino Hl]. cbn [dispatch_of] in *. unfold finalize_decision in H. rewrite Hl in H. cbn [mbind res_bind] in H.
  destruct (descriptor_error _ _ _ _); [done|]. apply bind_Ok in H as ([] & _ & H). cbv zeta in H.
  destruct (lexists _ _ _); [by case_match|].
  apply bind_Ok in H as (t & _ & H). apply bind_Ok in H as ([] & _ & H). apply bind_Ok in H as (q & Hq & [= <-]).
  destruct (finalize_payload_ok _ _ _ _ _ _ _ Hs (locked_wf _ _ _ _ _ Hl) Hv Hq) as [Ha Hids]. split_and!; [done..|].
  intros Hbad. rewrite (ar_outcome _ _ _ _ Ha). unfold capture_payload. cbv zeta.
  destruct (load_json h (at_reads m) raw) as [| | | | |e]; try done. by rewrite Hbad.
Qed.

(** A worker cannot speak for the dispatcher.  Two finalizations of one
    attempt from any two captures publish the same schema, identity, completion
    time, descriptor hash and plan items, the last being exactly those the
    descriptor declares; and a capture that contradicts the attempt's identity
    or is not usable closes it as blocked. *)
Theorem capture_cannot_forge h m m' raw raw' dispatch receipt p p' d :
  salvage_ok h →
  finalize_decision h m raw dispatch receipt = Ok (inr p) →
  finalize_decision h m' raw' dispatch receipt = Ok (inr p') →
  locked_descriptor h m (Finalize raw dispatch receipt) d → locked_descriptor h m' (Finalize raw' dispatch receipt) d →
  (∀ key, key ∈ ["schema"; "task_id"; "attempt_id"; "generation"; "completed_at"; "descriptor_sha256"; "plan_item_ids"] →
     dget key p = dget key p') ∧
  (∃ ids, canonical_plan_item_ids (dget "plan_item_ids" d) = Ok ids ∧ dget "plan_item_ids" p = JList (map JStr ids)) ∧
  (exact_capture (load_json h (at_reads m) raw) (JObj d) = false → dget "terminal_outcome" p = JStr "blocked").
Proof.
  intros Hs H H' Hl Hl'.
  destruct (finalize_fields _ _ Hs _ _ _ _ _ H Hl) as (Ha & (ids & Hids & Hp) & Hbad).
  destruct (finalize_fields _ _ Hs _ _ _ _ _ H' Hl') as (Ha' & (ids' & Hids' & Hp') & _).
  assert (ids' = ids) as -> by congruence. split_and!; [|by eauto|done].
  destruct Ha, Ha'. intros key Hk.
  repeat (apply elem_of_cons in Hk as [->|Hk]; [congruence|]). by apply elem_of_nil in Hk.
Qed.

(** ** Witnesses *)

Lemma sample_salvage k : salvage_ok (Sample.host k).
Proof. by intros a s [= <-]. Qed.

(** A call that leaves something at a path that was free has published. *)
Lemma publishes_at h m c path :
  at_publish m !! path = None → is_Some ((run_call h m c).1 !! path) → publishes h m c.
Proof. intros Hn [n Hs] E. rewrite E in Hs. congruence. Qed.

Definition sample_reap : call := Reap Sample.dispatch.
Definition sample_finalize : call := Finalize Sample.capture Sample.dispatch Sample.receipt.
Definition sample_reaped : files := (run_call (Sample.host Sample.gone) (still Sample.board) sample_reap).1.

Lemma sample_publishes :
  publishes (Sample.host Sample.gone) (still Sample.board) sample_reap ∧
  publishes (Sample.host Sample.alive) (still Sample.board) sample_finalize.
Proof. split; (apply (publishes_at _ _ _ Sample.receipt); [by vm_compute|vm_compute; by eexists]). Qed.

Lemma sample_locked k fs c :
  dispatch_of c = Sample.dispatch → fs !! Sample.dispatch = Sample.board !! Sample.dispatch →
  locked_descriptor (Sample.host k) (still fs) c Sample.descriptor.
Proof.
  intros Hc Hfs. exists 1. unfold _locked, node_at. rewrite Hc. cbn [at_open at_lock still].
  change (abspath (cwd (Sample.host k)) Sample.dispatch) with Sample.dispatch. rewrite Hfs. by vm_compute.
Qed.

Lemma receipt_reads_back_witness :
  ∃ d p, published (Sample.host Sample.gone) (still Sample.board) sample_reap d p sample_reaped.
Proof.
  destruct (receipt_reads_back (Sample.host Sample.gone) (still Sample.board) sample_reap
    (sample_salvage _) ltac:(by vm_compute) (proj1 sample_publishes)) as (d & p & _ & Hp & _). by exists d, p.
Defined.

Lemma first_receipt_wins_witness :
  (run_call (Sample.host Sample.alive) (still sample_reaped) sample_finalize).1 = sample_reaped.
Proof.
  apply (first_receipt_wins (Sample.host Sample.gone) (still Sample.board) sample_reap
    (Sample.host Sample.alive) (still sample_reaped) sample_finalize Sample.descriptor);
    [apply sample_salvage|apply sample_salvage|by vm_compute|apply sample_publishes|by apply sample_locked|done|
     by apply sample_locked; vm_compute|done|by vm_compute].
Defined.

Lemma writers_fenced_witness :
  ∃ d p, published (Sample.host Sample.alive) (still Sample.board) sample_finalize d p
    (run_call (Sample.host Sample.alive) (still Sample.board) sample_finalize).1.
Proof.
  destruct (writers_fenced (Sample.host Sample.alive) (still Sample.board) sample_finalize
    (sample_salvage _) (proj2 sample_publishes)) as (d & p & _ & _ & _ & Hp & _). by exists d, p.
Defined.

Lemma capture_cannot_forge_witness :
  dget "plan_item_ids" <$> (finalize_decision (Sample.host Sample.alive) (still Sample.board) Sample.capture Sample.dispatch
    Sample.receipt ≫= λ v, match v with inr p => Ok p | inl _ => Ok [] end) = Ok (JList [JStr "P1.2"]).
Proof.
  destruct (finalize_decision (Sample.host Sample.alive) (still Sample.board) Sample.capture Sample.dispatch Sample.receipt)
    as [[v|p]|e] eqn:E; [by vm_compute in E| |by vm_compute in E].
  destruct (capture_cannot_forge _ _ _ _ _ _ _ _ _ Sample.descriptor (sample_salvage _) E E) as (_ & (ids & Hids & Hp) & _);
    [by apply sample_locked..|].
  assert (ids = ["P1.2"]) as -> by (vm_compute in Hids; congruence). cbn [mbind res_bind fmap res_fmap]. by rewrite Hp.
Defined.
