(* ===== verification/ProcessTree.v ===== *)
(** * Tearing down a process tree ([board_process_truth.py])

    [terminate_attributable_tree] and the routines below it, as programs over
    the operations they ask of the kernel.  A program is a tree: an operation
    and what to do with each answer.  Nothing is assumed of the answers, so a
    theorem about every execution covers processes that exit, fork, regroup or
    reuse a pid between any two operations.  The two loops without a static
    bound carry fuel and end in [Stuck] without it. *)
From S2P Require Import Prelude Json Binary64 PyText ProcessTruth.

#[local] Open Scope Z_scope.

(** ** Programs *)

Variant signal := SIGSTOP | SIGCONT | SIGTERM | SIGKILL.

#[export] Instance signal_eq_dec : EqDecision signal.
Proof. solve_decision. Defined.

(** [observe_process], [os.kill] ([false] is a [ProcessLookupError]),
    [os.killpg], the [ps] census (return code and output), [os.getsid],
    [time.monotonic] and [time.sleep]. *)
Variant op :=
  | OObserve (p : Z) | OKill (p : Z) (s : signal) | OKillpg (g : Z) (s : signal)
  | OPs | OGetsid (p : Z) | OClock | OSleep.

Definition resp (o : op) : Type :=
  match o with
  | OObserve _ => res (option identity)
  | OKill _ _ => res bool
  | OKillpg _ _ => res unit
  | OPs => res (Z * string)
  | OGetsid _ => option Z
  | OClock => float
  | OSleep => unit
  end.

Inductive prog (A : Type) :=
  | Ret (r : res A)
  | Do (o : op) (k : resp o → prog A)
  | Stuck.
Arguments Ret {A} r.
Arguments Do {A} o k.
Arguments Stuck {A}.

(** [try: p] and what follows, given the value or the exception. *)
Fixpoint catch {A B} (p : prog A) (f : res A → prog B) : prog B :=
  match p with
  | Ret r => f r
  | Do o k => Do o (λ r, catch (k r) f)
  | Stuck => Stuck
  end.

#[export] Instance prog_ret : MRet prog := λ A a, Ret (Ok a).
#[export] Instance prog_bind : MBind prog :=
  λ A B f p, catch p (λ r, match r with Ok a => f a | Err e => Ret (Err e) end).

Definition throw {A} (cls : exn_class) (msg : string) : prog A := Ret (Err (Exn cls msg)).
Definition guard (b : bool) (cls : exn_class) (msg : string) : prog unit := Ret (raise_if b cls msg).

Definition observe (p : Z) : prog (option identity) := Do (OObserve p) Ret.
Definition kill (p : Z) (s : signal) : prog bool := Do (OKill p s) Ret.
Definition killpg (g : Z) (s : signal) : prog unit := Do (OKillpg g s) Ret.
Definition monotonic : prog float := Do OClock (λ t, Ret (Ok t)).
Definition sleep : prog unit := Do OSleep (λ _, Ret (Ok tt)).

(** [except (OSError, ProcessTruthError)] *)
Definition expected_error (e : exn) : bool := bool_decide (exn_kind e ∈ [OSError; ProcessTruthError]).

(** ** Identities and rows *)

(** A process as [ps] lists it: pid, parent, group. *)
Definition row : Type := Z * Z * Z.
Definition row_pid (r : row) : Z := r.1.1.
Definition row_parent (r : row) : Z := r.1.2.
Definition row_group (r : row) : Z := r.2.

Definition read_int (s : string) : Z := (read_digits 0 s).1.

Definition parse_row (line : string) : option row :=
  match py_words line with
  | [p; parent; group; state] =>
      if isdigit p && isdigit parent && isdigit group && negb (startswith state "Z")
      then Some (read_int p, read_int parent, read_int group) else None
  | _ => None
  end.

Definition _process_rows : prog (list row) :=
  Do OPs (λ r,
    match r with
    | Err e => Ret (Err e)
    | Ok (returncode, stdout) =>
        guard (negb (returncode =? 0)) ProcessTruthError "process tree observation failed";;
        mret (omap parse_row (splitlines stdout))
    end).

(** [PROCESS_INCARNATION_FIELDS] agree. *)
Definition same_incarnation (expected observed : identity) : bool :=
  (pid expected =? pid observed) && bool_decide (process_start_token expected = process_start_token observed) &&
  bool_decide (argv_sha256 expected = argv_sha256 observed).

Definition _same_process (expected : identity) (observed : option identity) : bool :=
  match observed with Some i => same_incarnation expected i | None => false end.

(** Re-observe, then signal: [false] when the process is gone. *)
Definition _signal_identity (i : identity) (s : signal) : prog bool :=
  observed ← observe (pid i);
  match observed with
  | None => mret false
  | Some o =>
      guard (negb (same_incarnation i o)) ProcessTruthError "process identity changed before signal";;
      kill (pid i) s
  end.

(** Dictionaries from pids to identities, in insertion order. *)
Abbreviation pid_dict := (list (Z * identity)).
Fixpoint pid_get (p : Z) (d : pid_dict) : option identity :=
  match d with [] => None | (q, i) :: d => if decide (q = p) then Some i else pid_get p d end.
Fixpoint pid_set (p : Z) (i : identity) (d : pid_dict) : pid_dict :=
  match d with [] => [(p, i)] | (q, j) :: d => if decide (q = p) then (p, i) :: d else (q, j) :: pid_set p i d end.
Definition has_pid (p : Z) (d : pid_dict) : bool := match pid_get p d with Some _ => true | None => false end.

(** ** Freezing the tree *)

(** One round of the inner loop: everything whose parent is found. *)
Definition with_children (rows : list row) (found : gset Z) : gset Z :=
  found ∪ list_to_set (map row_pid (List.filter (λ r, bool_decide (row_parent r ∈ found)) rows)).

Fixpoint close_descendants (fuel : nat) (rows : list row) (found : gset Z) : gset Z :=
  match fuel with
  | O => found
  | S fuel => let next := with_children rows found in
      if decide (next = found) then found else close_descendants fuel rows next
  end.

(** The root, its group and all their descendants.  Each round but the last
    finds the pid of another row, so the fuel is enough. *)
Definition descendants (root group : Z) (rows : list row) : gset Z :=
  close_descendants (S (length rows)) rows
    ({[root]} ∪ list_to_set (map row_pid (List.filter (λ r, row_group r =? group) rows))).

(** The [for pid, _group in pending] loop; [stopped] survives an exception. *)
Fixpoint freeze_pending (pending : list (Z * Z)) (stopped : pid_dict) : prog (pid_dict * res unit) :=
  match pending with
  | [] => mret (stopped, Ok tt)
  | (p, _) :: pending =>
      catch (i ← observe p;
             match i with
             | None => mret None
             | Some i => sent ← _signal_identity i SIGSTOP; mret (if sent : bool then Some i else None)
             end)
        (λ r, match r with
              | Err e => mret (stopped, Err e)
              | Ok None => freeze_pending pending stopped
              | Ok (Some i) => freeze_pending pending (pid_set p i stopped)
              end)
  end.

Fixpoint observe_all (ps : list Z) : prog (list (option identity)) :=
  match ps with
  | [] => mret []
  | p :: ps => i ← observe p; rest ← observe_all ps; mret (i :: rest)
  end.

(** [identities] when none is missing. *)
Fixpoint all_some {A} (l : list (option A)) : option (list A) :=
  match l with
  | [] => Some []
  | None :: _ => None
  | Some a :: l => (λ m, a :: m) <$> all_some l
  end.

(** The body of the [try]: [rounds] of census and freezing. *)
Fixpoint freeze_rounds (rounds : nat) (expected : identity) (stopped : pid_dict) :
    prog (pid_dict * res (list identity)) :=
  match rounds with
  | O => mret (stopped, Err (Exn ProcessTruthError "process tree did not stabilize while frozen"))
  | S rounds =>
      catch _process_rows (λ r, match r with
      | Err e => mret (stopped, Err e)
      | Ok rows =>
          let found := descendants (pid expected) (pgid expected) rows in
          let scoped := map (λ r, (row_pid r, row_group r)) (List.filter (λ r, bool_decide (row_pid r ∈ found)) rows) in
          let pending := List.filter (λ pg, negb (pg.2 =? pgid expected) && negb (has_pid pg.1 stopped)) scoped in
          frozen ← freeze_pending pending stopped;
          match frozen with
          | (stopped, Err e) => mret (stopped, Err e)
          | (stopped, Ok _) =>
              if negb (bool_decide (pending = [])) then freeze_rounds rounds expected stopped
              else catch (observe_all scoped.*1) (λ r, match r with
                   | Err e => mret (stopped, Err e)
                   | Ok found =>
                       match all_some found with
                       | Some identities =>
                           if decide (expected ∈ identities) then mret (stopped, Ok identities)
                           else freeze_rounds rounds expected stopped
                       | None => freeze_rounds rounds expected stopped
                       end
                   end)
          end
      end)
  end.

(** The [except BaseException] handler, before it raises again. *)
Fixpoint thaw (stopped : pid_dict) : prog unit :=
  match stopped with
  | [] => mret tt
  | (_, i) :: stopped =>
      catch (_signal_identity i SIGCONT) (λ r, match r with
        | Ok _ => thaw stopped
        | Err e => if expected_error e then thaw stopped else Ret (Err e)
        end)
  end.

Definition FREEZE_ROUNDS : nat := 8.

Definition _freeze_tree (expected : identity) : prog (list identity) :=
  sent ← _signal_identity expected SIGSTOP;
  frozen ← (if sent : bool then o ← observe (pid expected); mret (bool_decide (o = Some expected)) else mret false);
  guard (negb frozen) ProcessTruthError "session leader could not be identity-frozen";;
  killpg (pgid expected) SIGSTOP;;
  outcome ← freeze_rounds FREEZE_ROUNDS expected [];
  match outcome with
  | (_, Ok identities) => mret identities
  | (stopped, Err e) =>
      thaw stopped;;
      o ← observe (pid expected);
      (if decide (o = Some expected) then killpg (pgid expected) SIGCONT else mret tt);;
      Ret (Err e)
  end.

(** ** Teardown *)

(** The variables the closures of [terminate_attributable_tree] share. *)
Record Teardown := {
  members : pid_dict;
  changed : gset Z;
  signal_error : option exn;
  census_error : option exn;
  group_open : bool
}.

Definition set_members (d : pid_dict) (st : Teardown) : Teardown :=
  {| members := d; changed := changed st; signal_error := signal_error st; census_error := census_error st;
     group_open := group_open st |}.
Definition close_group (b : bool) (st : Teardown) : Teardown :=
  {| members := members st; changed := changed st; signal_error := signal_error st; census_error := census_error st;
     group_open := group_open st && b |}.
Definition note_census (e : exn) (st : Teardown) : Teardown :=
  {| members := members st; changed := changed st; signal_error := signal_error st; census_error := Some e;
     group_open := group_open st |}.
(** A refused signal: the first error is kept, and a process whose identity
    changed is never addressed again. *)
Definition note_signal (p : Z) (e : exn) (is_changed : bool) (st : Teardown) : Teardown :=
  {| members := members st; changed := if is_changed then {[p]} ∪ changed st else changed st;
     signal_error := match signal_error st with Some e' => Some e' | None => Some e end;
     census_error := census_error st; group_open := group_open st |}.

Definition signal_member (i : identity) (s : signal) (st : Teardown) : prog Teardown :=
  if decide (pid i ∈ changed st) then mret st
  else catch (_signal_identity i s) (λ r, match r with
    | Ok _ => mret st
    | Err e =>
        if expected_error e then mret (note_signal (pid i) e (bool_decide (exn_kind e = ProcessTruthError)) st)
        else Ret (Err e)
    end).

Fixpoint signal_all (ids : list identity) (s : signal) (st : Teardown) : prog Teardown :=
  match ids with
  | [] => mret st
  | i :: ids => st ← signal_member i s st; signal_all ids s st
  end.

(** What one census gathers: [live] pids and [matching] identities. *)
Record Census := { live : gset Z; matching : pid_dict }.

(** The first loop of [remaining], over the members known. *)
Fixpoint check_members (ms : pid_dict) (st : Teardown) (c : Census) : prog (Teardown * Census) :=
  match ms with
  | [] => mret (st, c)
  | (p, i) :: ms =>
      observed ← observe p;
      match observed with
      | None => check_members ms st c
      | Some o =>
          let alive := {[p]} ∪ live c in
          if negb (same_incarnation i o) then
            check_members ms (note_signal p (Exn ProcessTruthError "process identity changed during cancellation") true st)
              {| live := alive; matching := matching c |}
          else if decide (p ∈ changed st) then check_members ms st {| live := alive; matching := matching c |}
          else check_members ms st {| live := alive; matching := pid_set p i (matching c) |}
      end
  end.

(** One pass of the [while True] loop over the rows: processes that joined the
    open group or have a matching parent. *)
Fixpoint scan_rows (expected : identity) (rows : list row) (st : Teardown) (c : Census) (added : bool) :
    prog (Teardown * Census * bool) :=
  match rows with
  | [] => mret (st, c, added)
  | r :: rows =>
      let p := row_pid r in
      if has_pid p (members st) then scan_rows expected rows st c added
      else
        let in_group := group_open st && (row_group r =? pgid expected) in
        let parent_identity := pid_get (row_parent r) (matching c) in
        if negb in_group && negb (bool_decide (is_Some parent_identity)) then scan_rows expected rows st c added
        else
          observed ← observe p;
          match observed with
          | None => scan_rows expected rows st c added
          | Some o =>
              let in_group := in_group && (pgid o =? pgid expected) in
              witnessed ← (if in_group then mret true
                           else match parent_identity with
                                | None => mret false
                                | Some i => now ← observe (row_parent r); mret (_same_process i now)
                                end);
              if witnessed : bool then
                scan_rows expected rows (set_members (pid_set p o (members st)) st)
                  {| live := {[p]} ∪ live c; matching := pid_set p o (matching c) |} true
              else scan_rows expected rows st c added
          end
  end.

(** Each pass but the last adds the pid of a row to the members. *)
Fixpoint scan (fuel : nat) (expected : identity) (rows : list row) (st : Teardown) (c : Census) : prog (Teardown * Census) :=
  match fuel with
  | O => Stuck
  | S fuel =>
      '(st, c, added) ← scan_rows expected rows st c false;
      if added : bool then scan fuel expected rows st c else mret (st, c)
  end.

Definition remaining (expected : identity) (st : Teardown) : prog (Teardown * Census) :=
  catch _process_rows (λ r,
    let census := match r with
                  | Ok rows => Ok (st, rows)
                  | Err e => if expected_error e then Ok (note_census e st, []) else Err e
                  end in
    match census with
    | Err e => Ret (Err e)
    | Ok (st, rows) =>
        '(st, c) ← check_members (members st) st {| live := ∅; matching := [] |};
        let st := close_group (negb (bool_decide (pid expected ∈ changed st)) &&
                               existsb (λ r, row_group r =? pgid expected) rows) st in
        scan (S (length rows)) expected rows st c
    end).

(** The grace period: until the deadline, or no member is left. *)
Fixpoint wait_grace (fuel : nat) (expected : identity) (deadline : float) (st : Teardown) : prog Teardown :=
  match fuel with
  | O => Stuck
  | S fuel =>
      now ← monotonic;
      if float_gtb deadline now then
        '(st, c) ← remaining expected st;
        if decide (live c = ∅) then mret st else sleep;; wait_grace fuel expected deadline st
      else mret st
  end.

Definition KILL_PASSES : nat := 64.

Fixpoint kill_passes (passes : nat) (expected : identity) (deadline : float) (st : Teardown) : prog Teardown :=
  match passes with
  | O => mret st
  | S passes =>
      '(st, c) ← remaining expected st;
      if decide (live c = ∅) then mret st
      else
        st ← signal_all (rev (matching c).*2) SIGKILL st;
        sleep;;
        now ← monotonic;
        if float_geb now deadline then mret st else kill_passes passes expected deadline st
  end.

Definition members_of (ids : list identity) : pid_dict := fold_left (λ d i, pid_set (pid i) i d) ids [].

(** [fuel] bounds the readings of the clock in the grace period. *)
Definition terminate_attributable_tree (fuel : nat) (expected : identity) (grace : float) : prog unit :=
  guard (negb (pid expected =? pgid expected)) ProcessTruthError "process-tree root is not an exact group leader";;
  sid ← Do (OGetsid (pid expected)) (λ s, Ret (Ok s));
  match sid with
  | None => throw ProcessTruthError "process-tree root session is unavailable"
  | Some sid => guard (negb (sid =? pid expected)) ProcessTruthError "process-tree root is not a session leader"
  end;;
  frozen ← _freeze_tree expected;
  let ms := members_of frozen in
  let st := {| members := ms; changed := ∅; signal_error := None; census_error := None; group_open := true |} in
  st ← signal_all (rev ms.*2) SIGTERM st;
  st ← signal_all (rev ms.*2) SIGCONT st;
  start ← monotonic;
  st ← wait_grace fuel expected (float_add start grace) st;
  start ← monotonic;
  st ← kill_passes KILL_PASSES expected (float_add start (float_lit 1)) st;
  '(st, c) ← remaining expected st;
  guard (negb (bool_decide (live c = ∅))) ProcessTruthError "verified process tree survived cancellation";;
  match census_error st, signal_error st with
  | Some e, _ | None, Some e => Ret (Err e)
  | None, None => mret tt
  end.
