(* ===== verification/ProcessTreeProps.v ===== *)
(** * Tearing down a process tree: every execution

    A program logic for the programs of [ProcessTree]: [wp] holds of a history
    when every operation the program may ask next satisfies the guard, whatever
    the kernel answered.  It gives what every execution signals, what a success
    means, and when an execution can run out of fuel. *)
From S2P Require Import Prelude Json Binary64 PyText ProcessTruth ProcessTree.

#[local] Open Scope Z_scope.

(** ** Executions *)

Record event := Ev { ev_op : op; ev_resp : resp ev_op }.
Arguments Ev ev_op ev_resp : assert.

(** An answer to [observe_process(p)] is about [p]. *)
Definition answer_ok (o : op) : resp o → Prop :=
  match o with
  | OObserve p => λ r, ∀ i, r = Ok (Some i) → pid i = p
  | _ => λ _, True
  end.

(** [steps p t q]: [p] asks the operations of [t], gets its answers, and
    becomes [q]. *)
Inductive steps {A} : prog A → list event → prog A → Prop :=
  | steps_nil p : steps p [] p
  | steps_do o k r t q : answer_ok o r → steps (k r) t q → steps (Do o k) (Ev o r :: t) q.

(** ** The program logic; histories have the latest event first *)

Section Logic.
  Context (G : list event → op → Prop) (S : list event → Prop).

Fixpoint wp {A} (p : prog A) (hist : list event) (Q : list event → res A → Prop) : Prop :=
  match p with
  | Ret r => Q hist r
  | Do o k => G hist o ∧ ∀ r, answer_ok o r → wp (k r) (Ev o r :: hist) Q
  | Stuck => S hist
  end.

Lemma wp_mono {A} (p : prog A) hist (Q Q' : list event → res A → Prop) :
  wp p hist Q → (∀ h r, Q h r → Q' h r) → wp p hist Q'.
Proof.
  revert hist. induction p as [r|o k IH|]; cbn; intros hist H HQ; [by apply HQ| |done].
  destruct H as [? H]. split; [done|]. intros r Hr. apply IH; [by apply H|done].
Qed.

Lemma wp_catch {A B} (p : prog A) (f : res A → prog B) hist Q :
  wp p hist (λ h r, wp (f r) h Q) → wp (catch p f) hist Q.
Proof.
  revert hist. induction p as [r|o k IH|]; cbn; intros hist H; [done| |done].
  destruct H as [? H]. split; [done|]. intros r Hr. by apply IH, H.
Qed.

Lemma wp_bind {A B} (p : prog A) (f : A → prog B) hist Q :
  wp p hist (λ h r, match r with Ok a => wp (f a) h Q | Err e => Q h (Err e) end) → wp (p ≫= f) hist Q.
Proof. intros H. apply wp_catch. eapply wp_mono; [done|]. by intros h [a|e]. Qed.

Lemma wp_steps {A} (p q : prog A) hist t Q :
  wp p hist Q → steps p t q → wp q (rev t ++ hist) Q.
Proof.
  intros H Hs. revert hist H. induction Hs as [p|o k r t q Hr Hs IH]; intros hist H; [done|].
  destruct H as [_ H]. cbn. rewrite <- app_assoc. by apply IH, H.
Qed.

Lemma steps_app {A} (p q : prog A) t1 t2 :
  steps p (t1 ++ t2) q → ∃ m, steps p t1 m ∧ steps m t2 q.
Proof.
  revert p. induction t1 as [|e t1 IH]; intros p H; [exists p; by split; [constructor|]|].
  cbn in H. inversion H as [|o k r t q' Hr Hs]; subst. destruct (IH _ Hs) as (m & ? & ?). exists m.
  split; [by constructor|done].
Qed.

(** The guard holds whenever an operation is asked. *)
Lemma wp_guard {A} (p q : prog A) t1 o r t2 Q :
  wp p [] Q → steps p (t1 ++ Ev o r :: t2) q → G (rev t1) o.
Proof.
  intros H (m & H1 & H2)%steps_app. pose proof (wp_steps _ _ _ _ _ H H1) as Hm. rewrite app_nil_r in Hm.
  inversion H2 as [|o' k r' t q' Hr Hs E]; subst. by destruct Hm.
Qed.

End Logic.

(** ** Histories that grow by operations of one kind *)

Definition grows (P : op → Prop) (hist h' : list event) : Prop :=
  ∃ new, h' = new ++ hist ∧ Forall (λ e, P (ev_op e)) new.

Lemma grows_refl P hist : grows P hist hist.
Proof. exists []. by split. Qed.

Lemma grows_cons P hist h' o r : P o → grows P hist h' → grows P hist (Ev o r :: h').
Proof. intros Ho (new & -> & Hn). exists (Ev o r :: new). split; [done|]. by constructor. Qed.

Lemma grows_trans P h1 h2 h3 : grows P h1 h2 → grows P h2 h3 → grows P h1 h3.
Proof.
  intros (n1 & -> & H1) (n2 & -> & H2). exists (n2 ++ n1). rewrite app_assoc. split; [done|]. by apply Forall_app.
Qed.

Lemma grows_mono (P Q : op → Prop) h1 h2 : (∀ o, P o → Q o) → grows P h1 h2 → grows Q h1 h2.
Proof. intros HPQ (n & -> & Hn). exists n. split; [done|]. eapply Forall_impl; [done|]. intros e. apply HPQ. Qed.

Lemma grows_sub P h1 h2 : grows P h1 h2 → h1 ⊆ h2.
Proof. intros (n & -> & _). set_solver. Qed.

#[local] Hint Resolve grows_refl grows_cons : core.

Lemma sub_empty (X Y : gset Z) : X ⊆ Y → Y = ∅ → X = ∅.
Proof. set_solver. Qed.

(** ** What a signal needs *)

Section Tree.
  Context (expected : identity).

(** A census in the history listed the row. *)
Definition listed (hist : list event) (r : row) : Prop :=
  ∃ out, Ev OPs (Ok (0, out)) ∈ hist ∧ r ∈ omap parse_row (splitlines out).

(** The root, a process some census listed in its group, or one listed as the
    child of such a process. *)
Inductive attributable (hist : list event) : Z → Prop :=
  | attr_root : attributable hist (pid expected)
  | attr_group r : listed hist r → row_group r = pgid expected → attributable hist (row_pid r)
  | attr_child r : listed hist r → attributable hist (row_parent r) → attributable hist (row_pid r).

(** An identity that was given, or observed, for an attributable process. *)
Definition known (hist : list event) (i : identity) : Prop :=
  attributable hist (pid i) ∧ (i = expected ∨ ∃ p, Ev (OObserve p) (Ok (Some i)) ∈ hist).

Definition observed_now (hist : list event) (p : Z) (i : identity) : Prop :=
  ∃ o, head hist = Some (Ev (OObserve p) (Ok (Some o))) ∧ same_incarnation i o = true.

(** The operations the teardown may ask: a signal to a process only right after
    observing that pid as the same incarnation of a known identity; a signal to
    the group only right after observing the root itself. *)
Definition verified (hist : list event) (o : op) : Prop :=
  match o with
  | OKill p _ => ∃ i, pid i = p ∧ observed_now hist p i ∧ known (tail hist) i
  | OKillpg g _ => g = pgid expected ∧ head hist = Some (Ev (OObserve (pid expected)) (Ok (Some expected)))
  | _ => True
  end.

Lemma attributable_sub h h' p : h ⊆ h' → attributable h p → attributable h' p.
Proof.
  intros Hs H. induction H as [|r (out & Ho & Hr) Hg|r (out & Ho & Hr) _ IH].
  - constructor.
  - apply attr_group; [|done]. exists out. set_solver.
  - apply attr_child; [|done]. exists out. set_solver.
Qed.

Lemma known_sub h h' i : h ⊆ h' → known h i → known h' i.
Proof.
  intros Hs [Ha Hk]. split; [by eapply attributable_sub|]. destruct Hk as [->|[p Hp]]; [by left|right]. exists p. by apply Hs.
Qed.

(** ** Dictionaries of pids *)

Definition dict_known (hist : list event) (d : pid_dict) : Prop := ∀ p i, (p, i) ∈ d → pid i = p ∧ known hist i.

Lemma dict_known_sub h h' d : h ⊆ h' → dict_known h d → dict_known h' d.
Proof. intros Hs Hd p i Hi. destruct (Hd p i Hi). split; [done|]. by eapply known_sub. Qed.

Lemma pid_set_elem p i d q j : (q, j) ∈ pid_set p i d → (q, j) = (p, i) ∨ (q, j) ∈ d.
Proof.
  induction d as [|[q' j'] d IH]; cbn; [set_solver|]. case_decide; subst; set_solver.
Qed.

Lemma dict_known_set h p i d : pid i = p → known h i → dict_known h d → dict_known h (pid_set p i d).
Proof. intros Hp Hi Hd q j [[= -> ->]|Hq]%pid_set_elem; [done|by apply Hd]. Qed.

Lemma pid_get_set p q i d : pid_get q (pid_set p i d) = if decide (p = q) then Some i else pid_get q d.
Proof.
  induction d as [|[q' j] d IH]; cbn; [done|]. destruct (decide (q' = p)) as [->|]; cbn.
  - by case_decide.
  - rewrite IH. repeat case_decide; congruence.
Qed.

Lemma has_pid_set p q i d : has_pid q (pid_set p i d) = bool_decide (p = q) || has_pid q d.
Proof. unfold has_pid. rewrite pid_get_set. by repeat (case_decide || case_bool_decide). Qed.

Lemma pid_get_elem p i d : pid_get p d = Some i → (p, i) ∈ d.
Proof. induction d as [|[q j] d IH]; cbn; [done|]. case_decide; intros; simplify_eq; [by left|right; auto]. Qed.

Lemma has_pid_elem p i d : (p, i) ∈ d → has_pid p d = true.
Proof.
  unfold has_pid. induction d as [|[q j] d IH]; cbn; [by intros ?%elem_of_nil|]. intros [[= <- <-]|H]%elem_of_cons.
  - by rewrite decide_True.
  - by case_decide; auto.
Qed.

Lemma pid_set_keys p i d : (pid_set p i d).*1 = if has_pid p d then d.*1 else d.*1 ++ [p].
Proof.
  unfold has_pid. induction d as [|[q j] d IH]; cbn; [done|]. destruct (decide (q = p)) as [->|]; cbn; [done|].
  rewrite IH. by destruct (pid_get p d).
Qed.

Lemma has_pid_key p d : has_pid p d = true ↔ p ∈ d.*1.
Proof.
  split.
  - unfold has_pid. destruct (pid_get p d) as [i|] eqn:E; [|done]. intros _. apply pid_get_elem in E.
    by apply (list_elem_of_fmap_2 fst _ (p, i)).
  - intros ([q i] & -> & H)%list_elem_of_fmap. by eapply has_pid_elem.
Qed.

Lemma pid_set_nodup p i d : NoDup d.*1 → NoDup (pid_set p i d).*1.
Proof.
  intros Hd. rewrite pid_set_keys. destruct (has_pid p d) eqn:E; [done|]. apply NoDup_app. split; [done|].
  split; [|apply NoDup_singleton]. intros q Hq ->%list_elem_of_singleton. apply has_pid_key in Hq. congruence.
Qed.

(** ** Single signals *)

Context (out_of_fuel : list event → Prop).
Abbreviation wpv := (wp verified out_of_fuel).

(** Observing pids and signalling one. *)
Definition signals (p : Z) (s : signal) (o : op) : Prop := o = OObserve p ∨ o = OKill p s.
(** No [SIGTERM] and no [SIGKILL]. *)
Definition quiet (o : op) : Prop := match o with OKill _ s => s = SIGSTOP ∨ s = SIGCONT | _ => True end.

Lemma wp_observe p hist Q :
  (∀ r, answer_ok (OObserve p) r → Q (Ev (OObserve p) r :: hist) r) → wpv (observe p) hist Q.
Proof. intros H. by split. Qed.

Lemma wp_signal_identity i s hist Q :
  known hist i → (∀ h' r, grows (signals (pid i) s) hist h' → Q h' r) → wpv (_signal_identity i s) hist Q.
Proof.
  intros Hk HQ. apply wp_bind, wp_observe. intros r Hr.
  assert (Hg : grows (signals (pid i) s) hist (Ev (OObserve (pid i)) r :: hist)) by (apply grows_cons; [by left|done]).
  destruct r as [[o|]|e]; [|by apply HQ|by apply HQ].
  apply wp_bind. cbn [wp guard]. destruct (same_incarnation i o) eqn:E; [|by apply HQ].
  split; [|intros k _; apply HQ, grows_cons; [by right|done]].
  exists i. split; [done|]. split; [|done]. by exists o.
Qed.

(** ** Freezing *)

Lemma quiet_signals p s o : s = SIGSTOP ∨ s = SIGCONT → signals p s o → quiet o.
Proof. by intros Hs [-> | ->]. Qed.

Lemma wp_rows hist Q :
  (∀ h' r, grows quiet hist h' → (∀ rows, r = Ok rows → Forall (listed h') rows) → Q h' r) → wpv _process_rows hist Q.
Proof.
  intros HQ. split; [done|]. intros [[code out]|e] _; [|by apply HQ; [apply grows_cons|]].
  apply wp_bind. cbn [wp guard]. destruct (Z.eqb_spec code 0) as [->|]; cbn [raise_if negb]; [|by apply HQ; [apply grows_cons|]].
  apply HQ; [by apply grows_cons|]. intros rows [= <-]. apply Forall_forall. intros r Hr. exists out. split; [by left|done].
Qed.

Lemma closure_attributable h fuel rows found :
  Forall (listed h) rows → (∀ p, p ∈ found → attributable h p) →
  ∀ p, p ∈ close_descendants fuel rows found → attributable h p.
Proof.
  intros Hr. revert found. induction fuel as [|fuel IH]; intros found Hf p; cbn [close_descendants]; [by apply Hf|].
  case_decide; [by apply Hf|]. apply IH. intros q Hq. unfold with_children in Hq.
  apply elem_of_union in Hq as [Hq|Hq]; [by apply Hf|].
  apply elem_of_list_to_set, list_elem_of_fmap in Hq as (r & -> & Hq). apply elem_of_filter_list in Hq as [Hq Hp].
  apply bool_decide_eq_true in Hp. apply attr_child; [|by apply Hf]. rewrite Forall_forall in Hr. by apply Hr.
Qed.

Lemma descendants_attributable h rows p :
  Forall (listed h) rows → p ∈ descendants (pid expected) (pgid expected) rows → attributable h p.
Proof.
  intros Hr. apply closure_attributable; [done|]. intros q [->%elem_of_singleton|Hq]%elem_of_union; [constructor|].
  apply elem_of_list_to_set, list_elem_of_fmap in Hq as (r & -> & Hq). apply elem_of_filter_list in Hq as [Hq Hg].
  apply attr_group; [|by apply Z.eqb_eq]. rewrite Forall_forall in Hr. by apply Hr.
Qed.

Lemma observed_known h p i :
  attributable h p → answer_ok (OObserve p) (Ok (Some i)) → known (Ev (OObserve p) (Ok (Some i)) :: h) i.
Proof.
  intros Ha Hi. pose proof (Hi i eq_refl) as <-. split; [|right; eexists; by left].
  eapply attributable_sub; [|done]. intros e He. by right.
Qed.

Lemma wp_freeze_pending pending stopped hist Q :
  (∀ p g, (p, g) ∈ pending → attributable hist p) → dict_known hist stopped →
  (∀ h' stopped' r, grows quiet hist h' → dict_known h' stopped' → Q h' (Ok (stopped', r))) →
  wpv (freeze_pending pending stopped) hist Q.
Proof.
  revert stopped hist. induction pending as [|[p g] pending IH]; intros stopped hist Hp Hs HQ; [by apply HQ|].
  cbn [freeze_pending]. apply wp_catch, wp_bind, wp_observe. intros r Hr. set (h1 := Ev _ r :: hist).
  assert (H1 : grows quiet hist h1) by by apply grows_cons.
  assert (Hnext : ∀ h' d, grows quiet hist h' → dict_known h' d → wpv (freeze_pending pending d) h' Q).
  { intros h' d Hg Hd. pose proof (grows_sub _ _ _ Hg) as Hsub. apply IH; [|done|].
    - intros q g' Hq. eapply attributable_sub; [done|]. eapply Hp. by right.
    - intros h2 d2 r2 Hg2. apply HQ. by eapply grows_trans. }
  destruct r as [[i|]|e]; [|apply Hnext; [done|]|apply HQ; [done|]];
    [|eapply dict_known_sub; [by eapply grows_sub|done]..].
  assert (Hi : known h1 i) by (apply observed_known; [eapply Hp; by left|done]).
  apply wp_bind, wp_signal_identity; [done|]. intros h2 r2 Hg2.
  assert (Hg : grows quiet hist h2).
  { eapply grows_trans; [done|]. eapply grows_mono; [|done]. intros o. apply quiet_signals. by left. }
  assert (Hd2 : dict_known h2 stopped) by (eapply dict_known_sub; [by eapply grows_sub|done]).
  destruct r2 as [[]|e]; cbn [wp]; [apply Hnext| |]; [done| |by apply Hnext|by apply HQ].
  apply dict_known_set; [by apply (Hr i)| |done]. exact (known_sub _ _ _ (grows_sub _ _ _ Hg2) Hi).
Qed.

Lemma wp_observe_all ps hist Q :
  (∀ p, p ∈ ps → attributable hist p) →
  (∀ h' r, grows quiet hist h' → (∀ os i, r = Ok os → Some i ∈ os → known h' i) → Q h' r) →
  wpv (observe_all ps) hist Q.
Proof.
  revert hist Q. induction ps as [|p ps IH]; intros hist Q Hp HQ.
  { apply HQ; [done|]. by intros os i [= <-] ?%elem_of_nil. }
  cbn [observe_all]. apply wp_bind, wp_observe. intros r Hr. set (h1 := Ev _ r :: hist).
  assert (H1 : grows quiet hist h1) by by apply grows_cons.
  destruct r as [o|e]; [|by apply HQ]. apply wp_bind, IH.
  - intros q Hq. eapply attributable_sub; [by eapply grows_sub|]. apply Hp. by right.
  - intros h2 r2 Hg2 Hk. destruct r2 as [os|e]; cbn [wp]; apply HQ; try (by eapply grows_trans); [|done].
    intros os' i [= <-] [Hi|Hi]%elem_of_cons; [|by eapply Hk]. subst o.
    apply (known_sub _ _ _ (grows_sub _ _ _ Hg2)), observed_known; [apply Hp; by left|done].
Qed.

Lemma all_some_elem {A} (l : list (option A)) m a : all_some l = Some m → a ∈ m → Some a ∈ l.
Proof.
  revert m. induction l as [|[b|] l IH]; intros m; cbn; [by intros [= <-] ?%elem_of_nil| |done].
  destruct (all_some l) as [m'|]; [|done]. intros [= <-] [->|H]%elem_of_cons; [by left|right; by eapply IH].
Qed.

Definition freeze_post (h : list event) (r : res (list identity)) : Prop :=
  ∀ ids, r = Ok ids → expected ∈ ids ∧ ∀ i, i ∈ ids → known h i.

Lemma freeze_post_err h e : freeze_post h (Err e).
Proof. by intros ids [=]. Qed.
#[local] Hint Resolve freeze_post_err : core.

Lemma wp_freeze_rounds rounds stopped hist Q :
  dict_known hist stopped →
  (∀ h' stopped' r, grows quiet hist h' → dict_known h' stopped' → freeze_post h' r → Q h' (Ok (stopped', r))) →
  wpv (freeze_rounds rounds expected stopped) hist Q.
Proof.
  revert stopped hist. induction rounds as [|rounds IH]; intros stopped hist Hs HQ; [by apply HQ; auto|].
  cbn [freeze_rounds]. apply wp_catch, wp_rows. intros h1 r1 Hg1 Hrows. pose proof (grows_sub _ _ _ Hg1) as Hsub1.
  destruct r1 as [rows|e]; [|by apply HQ; [|by eapply dict_known_sub|auto]]. specialize (Hrows rows eq_refl).
  assert (Hagain : ∀ h' d, grows quiet hist h' → dict_known h' d → wpv (freeze_rounds rounds expected d) h' Q).
  { intros h' d Hg Hd. apply IH; [done|]. intros h2 d2 r2 Hg2. apply HQ. by eapply grows_trans. }
  cbv zeta. set (scoped := map _ (List.filter _ rows)).
  assert (Hscoped : ∀ p g, (p, g) ∈ scoped → attributable h1 p).
  { intros p g (r & [= -> ->] & Hr)%list_elem_of_fmap. apply elem_of_filter_list in Hr as [_ Hr].
    apply bool_decide_eq_true in Hr. by apply (descendants_attributable _ rows). }
  apply wp_bind, wp_freeze_pending; [|by eapply dict_known_sub|].
  { intros p g [Hp _]%elem_of_filter_list. by eapply Hscoped. }
  intros h2 d2 r2 Hg2 Hd2. assert (Hg : grows quiet hist h2) by by eapply grows_trans.
  destruct r2 as [[]|e]; [|by apply HQ; auto]. destruct (negb _); [by apply Hagain|].
  apply wp_catch, wp_observe_all.
  { intros p ([q g] & -> & Hp)%list_elem_of_fmap. apply (attributable_sub h1); [by eapply grows_sub|]. by eapply Hscoped. }
  intros h3 r3 Hg3 Hk. assert (Hg' : grows quiet hist h3) by by eapply grows_trans.
  assert (Hd3 : dict_known h3 d2) by exact (dict_known_sub _ _ _ (grows_sub _ _ _ Hg3) Hd2).
  destruct r3 as [os|e]; [|by apply HQ; auto]. destruct (all_some os) as [ids|] eqn:E; [|by apply Hagain].
  case_decide; [|by apply Hagain]. apply HQ; [done..|]. intros ids' [= <-]. split; [done|].
  intros i Hi. eapply Hk; [done|]. by eapply all_some_elem.
Qed.

Lemma wp_thaw stopped hist Q :
  dict_known hist stopped → (∀ h' r, grows quiet hist h' → Q h' r) → wpv (thaw stopped) hist Q.
Proof.
  revert hist. induction stopped as [|[p i] stopped IH]; intros hist Hs HQ; [by apply HQ|].
  cbn [thaw]. apply wp_catch, wp_signal_identity; [by apply (Hs p i); left|]. intros h1 r1 Hg1.
  assert (Hg : grows quiet hist h1) by (eapply grows_mono; [|done]; intros o; apply quiet_signals; by right).
  assert (Hnext : wpv (thaw stopped) h1 Q).
  { apply IH; [|intros h2 r2 Hg2; apply HQ; by eapply grows_trans].
    apply (dict_known_sub hist); [by eapply grows_sub|]. intros q j Hq. apply Hs. by right. }
  destruct r1 as [b|e]; [done|]. destruct (expected_error e); [done|]. by apply HQ.
Qed.

Lemma wp_killpg s hist Q :
  head hist = Some (Ev (OObserve (pid expected)) (Ok (Some expected))) →
  (∀ r, Q (Ev (OKillpg (pgid expected) s) r :: hist) r) → wpv (killpg (pgid expected) s) hist Q.
Proof. intros Hh HQ. split; [by split|]. intros r _. apply HQ. Qed.

Lemma known_root hist : known hist expected.
Proof. split; [constructor|by left]. Qed.

Lemma wp_freeze_tree hist Q :
  (∀ h' r, grows quiet hist h' → freeze_post h' r → Q h' r) → wpv (_freeze_tree expected) hist Q.
Proof.
  intros HQ. assert (Herr : ∀ h' e, grows quiet hist h' → Q h' (Err e)) by (intros; apply HQ; auto).
  unfold _freeze_tree. apply wp_bind, wp_signal_identity; [apply known_root|]. intros h1 r1 Hg1.
  assert (Hg : grows quiet hist h1) by (eapply grows_mono; [|done]; intros o; apply quiet_signals; by left).
  destruct r1 as [sent|e]; [|by apply Herr]. apply wp_bind. destruct sent; [|by apply Herr].
  apply wp_bind, wp_observe. intros r _. set (h2 := Ev _ r :: h1). assert (Hg2 : grows quiet hist h2) by by apply grows_cons.
  destruct r as [o|e]; [|by apply Herr]. cbn [wp mret prog_ret].
  apply wp_bind. cbn [wp guard]. case_bool_decide as Ho; cbn [negb raise_if]; [|by apply Herr]. subst o.
  apply wp_bind, wp_killpg; [done|]. intros r3. set (h3 := Ev _ r3 :: h2). assert (Hg3 : grows quiet hist h3) by by apply grows_cons.
  destruct r3 as [[]|e]; [|by apply Herr]. apply wp_bind, wp_freeze_rounds; [by intros ?? ?%elem_of_nil|].
  intros h4 d4 r4 Hg4 Hd4 Hpost. assert (Hg' : grows quiet hist h4) by by eapply grows_trans.
  destruct r4 as [ids|e]; [by apply HQ|]. apply wp_bind, wp_thaw; [done|]. intros h5 r5 Hg5.
  assert (Hg5' : grows quiet hist h5) by by eapply grows_trans. destruct r5 as [[]|e5]; [|by apply Herr].
  apply wp_bind, wp_observe. intros r6 _. assert (Hg6 : grows quiet hist (Ev (OObserve (pid expected)) r6 :: h5)) by by apply grows_cons.
  destruct r6 as [o|e6]; [|by apply Herr]. apply wp_bind. case_decide as Ho; [subst o|by apply Herr].
  apply wp_killpg; [done|]. intros r7. assert (Hg7 : grows quiet hist (Ev (OKillpg (pgid expected) SIGCONT) r7 :: Ev (OObserve (pid expected)) (Ok (Some expected)) :: h5)) by by apply grows_cons.
  destruct r7 as [[]|e7]; by apply Herr.
Qed.

(** ** Signalling the members *)

(** Signals only to these pids, or none at all. *)
Definition signals_among (ps : list Z) (o : op) : Prop := match o with OKill p _ => p ∈ ps | OObserve _ => True | _ => False end.
Definition observes (o : op) : Prop := match o with OObserve _ | OPs => True | _ => False end.

Lemma wp_signal_all ids s st hist Q :
  (∀ i, i ∈ ids → known hist i) →
  (∀ h' r, grows (signals_among (map pid ids)) hist h' → (∀ st', r = Ok st' → members st' = members st) → Q h' r) →
  wpv (signal_all ids s st) hist Q.
Proof.
  revert st hist Q. induction ids as [|i ids IH]; intros st hist Q Hi HQ; [by apply HQ; [|intros st' [= <-]]|].
  cbn [signal_all]. apply wp_bind. unfold signal_member.
  assert (Hnext : ∀ h' st', grows (signals_among (map pid (i :: ids))) hist h' → members st' = members st →
    wpv (signal_all ids s st') h' Q).
  { intros h' st' Hg Hm. apply IH.
    - intros j Hj. eapply known_sub; [by eapply grows_sub|]. apply Hi. by right.
    - intros h2 r2 Hg2 Hm2. apply HQ; [|intros st2 E; by rewrite (Hm2 _ E)].
      eapply grows_trans; [done|]. eapply grows_mono; [|done]. intros []; cbn; try done. intros. by right. }
  case_decide; [by apply Hnext|]. apply wp_catch, wp_signal_identity; [apply Hi; by left|]. intros h1 r1 Hg1.
  assert (Hg : grows (signals_among (map pid (i :: ids))) hist h1).
  { eapply grows_mono; [|done]. intros o [-> | ->]; [done|]. by left. }
  destruct r1 as [b|e]; [by apply Hnext|]. destruct (expected_error e); [by apply Hnext|].
  apply HQ; [done|]. by intros ? [=].
Qed.

(** ** The census of [remaining] *)

Definition about (p : Z) (o : op) : Prop := match o with OObserve q | OKill q _ => q = p | _ => False end.

(** The last thing done about [p] was to observe that it is gone. *)
Definition gone (h : list event) (p : Z) : Prop :=
  ∃ h1 h2, h = h1 ++ Ev (OObserve p) (Ok None) :: h2 ∧ Forall (λ e, ¬ about p (ev_op e)) h1.

Lemma gone_grows P h h' p : (∀ o, P o → ¬ about p o) → gone h p → grows P h h' → gone h' p.
Proof.
  intros HP (h1 & h2 & -> & Ha) (new & -> & Hn). exists (new ++ h1), h2. rewrite app_assoc. split; [done|].
  apply Forall_app. split; [|done]. eapply Forall_impl; [done|]. intros e. apply HP.
Qed.

Record census_ok (h : list event) (c : Census) : Prop := {
  co_known : dict_known h (matching c);
  co_live : ∀ p, has_pid p (matching c) = true → p ∈ live c
}.

Lemma census_ok_sub h h' c : h ⊆ h' → census_ok h c → census_ok h' c.
Proof. intros Hs [? ?]. split; [by eapply dict_known_sub|done]. Qed.

Lemma census_live h c p : census_ok h c → census_ok h {| live := {[p]} ∪ live c; matching := matching c |}.
Proof. intros [Hk Hl]. split; [done|]. intros q Hq. apply elem_of_union. right. by apply Hl. Qed.

Lemma census_add h c p i :
  pid i = p → known h i → census_ok h c →
  census_ok h {| live := {[p]} ∪ live c; matching := pid_set p i (matching c) |}.
Proof.
  intros Hp Hi [Hk Hl]. split; cbn; [by apply dict_known_set|]. intros q. rewrite has_pid_set, orb_true_iff.
  rewrite elem_of_union, elem_of_singleton. intros [->%bool_decide_eq_true|Hq]; [by left|right; by apply Hl].
Qed.

(** What the first loop leaves: its members are live or gone. *)
Lemma wp_check_members ms st c hist Q :
  dict_known hist ms → NoDup ms.*1 → census_ok hist c →
  (∀ h' r, grows (λ o, ∃ p, o = OObserve p ∧ p ∈ ms.*1) hist h' →
     (∀ st' c', r = Ok (st', c') → members st' = members st ∧ group_open st' = group_open st ∧ census_ok h' c' ∧ live c ⊆ live c' ∧
        (∀ p, has_pid p (matching c') = true → has_pid p (matching c) = true ∨ p ∈ ms.*1) ∧
        ∀ p, p ∈ ms.*1 → p ∈ live c' ∨ gone h' p) → Q h' r) →
  wpv (check_members ms st c) hist Q.
Proof.
  revert st c hist Q. induction ms as [|[p i] ms IH]; intros st c hist Q Hd Hnd Hc HQ.
  { apply HQ; [done|]. intros st' c' [= <- <-]. split_and!; try done; [by left|]. by intros ? ?%elem_of_nil. }
  cbn in Hnd. apply NoDup_cons in Hnd as [Hp Hnd]. destruct (Hd p i ltac:(by left)) as [Hpi Hki].
  cbn [check_members]. apply wp_bind, wp_observe. intros r Hr. set (h1 := Ev _ r :: hist).
  set (P := λ o, ∃ q, o = OObserve q ∧ q ∈ ((p, i) :: ms).*1).
  assert (H1 : grows P hist h1) by (apply grows_cons; [exists p; split; [done|by left]|done]).
  pose proof (grows_sub _ _ _ H1) as Hsub. assert (Hd1 : dict_known h1 ms).
  { apply (dict_known_sub hist); [done|]. intros q j Hq. apply Hd. by right. }
  assert (Hnext : ∀ st1 c1, members st1 = members st → group_open st1 = group_open st → census_ok h1 c1 → live c ⊆ live c1 →
    (∀ q, has_pid q (matching c1) = true → has_pid q (matching c) = true ∨ q = p) →
    p ∈ live c1 ∨ gone h1 p → wpv (check_members ms st1 c1) h1 Q).
  { intros st1 c1 Hm Hgo Hc1 Hl Hk Hpg. apply IH; [done..|]. intros h2 r2 Hg2 Hpost. apply HQ.
    - eapply grows_trans; [done|]. eapply grows_mono; [|done]. intros o (q & -> & Hq). exists q. split; [done|by right].
    - intros st2 c2 E. destruct (Hpost st2 c2 E) as (Hm2 & Hgo2 & Hc2 & Hl2 & Hk2 & Hg). split_and!; [congruence|congruence|done|set_solver| |].
      + intros q [Hq|Hq]%Hk2; [|right; by right]. apply Hk in Hq as [?| ->]; [by left|right; by left].
      + intros q [->|Hq]%elem_of_cons; [|by apply Hg]. destruct Hpg as [Hpl|Hpg]; [left; by apply Hl2|right].
        eapply gone_grows; [|done|done]. intros o (q & -> & Hq) Ha. cbn in Ha. by subst. }
  destruct r as [[o|]|e].
  - assert (Hl : live c ⊆ {[p]} ∪ live c) by (intros q Hq; apply elem_of_union; by right).
    assert (Hin : p ∈ ({[p]} ∪ live c : gset Z)) by (apply elem_of_union; left; by apply elem_of_singleton).
    assert (Hc1 : census_ok h1 c) by exact (census_ok_sub _ _ _ Hsub Hc).
    destruct (negb _); [|case_decide]; apply Hnext; cbn; try done; auto using census_live.
    + apply census_add; [done|by eapply known_sub|done].
    + intros q. rewrite has_pid_set, orb_true_iff. intros [->%bool_decide_eq_true|?]; [by right|by left].
  - apply Hnext; try done; [by eapply census_ok_sub|by left|]. right. exists [], hist. split; [done|constructor].
  - apply HQ; [done|]. by intros ?? [=].
Qed.

(** The rows whose process is not a member yet. *)
Definition unseen (rows : list row) (d : pid_dict) : nat := length (List.filter (λ r, negb (has_pid (row_pid r) d)) rows).

Lemma unseen_set rows r i d :
  r ∈ rows → has_pid (row_pid r) d = false → (unseen rows (pid_set (row_pid r) i d) < unseen rows d)%nat.
Proof.
  intros Hr Hp. unfold unseen. apply list_elem_of_split in Hr as (l1 & l2 & ->). rewrite !List.filter_app, !length_app. cbn.
  rewrite Hp, has_pid_set, bool_decide_eq_true_2 by done. cbn.
  assert (Hle : ∀ l, (length (List.filter (λ x, negb (has_pid (row_pid x) (pid_set (row_pid r) i d))) l) ≤
                      length (List.filter (λ x, negb (has_pid (row_pid x) d)) l))%nat).
  { intros l. apply filter_length_mono. intros x. rewrite has_pid_set. by destruct (bool_decide _). }
  pose proof (Hle l1). pose proof (Hle l2). lia.
Qed.

(** A census in step with the teardown: everything matching is a member. *)
Record in_step (h : list event) (st : Teardown) (c : Census) : Prop := {
  is_members : dict_known h (members st);
  is_keys : NoDup (members st).*1;
  is_census : census_ok h c;
  is_matching : ∀ p, has_pid p (matching c) = true → has_pid p (members st) = true
}.

Lemma in_step_sub h h' st c : h ⊆ h' → in_step h st c → in_step h' st c.
Proof. intros Hs [? ? ? ?]. split; try done; [by eapply dict_known_sub|by eapply census_ok_sub]. Qed.

(** Nothing was done about a member. *)
Definition strangers (d : pid_dict) (o : op) : Prop := observes o ∧ ∀ p, has_pid p d = true → ¬ about p o.

Record scan_post (all : list row) (hist h' : list event) (st st' : Teardown) (c c' : Census) (more : Prop) : Prop := {
  sp_step : in_step h' st' c';
  sp_members : ∀ p, has_pid p (members st) = true → has_pid p (members st') = true;
  sp_live : live c ⊆ live c';
  sp_quiet : live c' = ∅ → members st' = members st ∧ grows (strangers (members st)) hist h';
  sp_unseen : (unseen all (members st') ≤ unseen all (members st))%nat;
  sp_more : more → (unseen all (members st') < unseen all (members st))%nat
}.

Lemma scan_post_refl all hist h' st c :
  in_step h' st c → (live c = ∅ → grows (strangers (members st)) hist h') → scan_post all hist h' st st c c False.
Proof. intros Hi Hg. split; try done. intros Hl. split; [done|by apply Hg]. Qed.

Lemma scan_post_trans all h1 h2 h3 st1 st2 st3 c1 c2 c3 (m1 m2 m : Prop) :
  (m → m1 ∨ m2) → scan_post all h1 h2 st1 st2 c1 c2 m1 → scan_post all h2 h3 st2 st3 c2 c3 m2 →
  scan_post all h1 h3 st1 st3 c1 c3 m.
Proof.
  intros Hm [S1 M1 L1 Q1 U1 R1] [S2 M2 L2 Q2 U2 R2]. split; [done|auto|by trans (live c2)| |lia|].
  - intros E. destruct (Q2 E) as [E2 G2]. pose proof (sub_empty _ _ L2 E) as E'.
    destruct (Q1 E') as [E1 G1]. split; [congruence|]. rewrite E1 in G2. by eapply grows_trans.
  - intros [?|?]%Hm; [apply R1 in H|apply R2 in H]; lia.
Qed.

Lemma wp_scan_rows all rows st c added hist Q :
  (∀ r, r ∈ rows → r ∈ all ∧ listed hist r) → in_step hist st c →
  (∀ h' r, grows observes hist h' →
     (∀ st' c' b, r = Ok (st', c', b) → scan_post all hist h' st st' c c' (b = true ∧ added = false)) → Q h' r) →
  wpv (scan_rows expected rows st c added) hist Q.
Proof.
  revert st c added hist Q. induction rows as [|r rows IH]; intros st c added hist Q Hrows Hin HQ.
  { apply HQ; [done|]. intros st' c' b [= <- <- <-]. split; try done. intros [-> [=]]. }
  assert (Hnext : ∀ h' st1 c1 b1, grows observes hist h' →
    scan_post all hist h' st st1 c c1 (b1 = true ∧ added = false) → wpv (scan_rows expected rows st1 c1 b1) h' Q).
  { intros h' st1 c1 b1 Hg Hp1. apply IH; [|by apply Hp1|].
    - intros r' Hr'. destruct (Hrows r' ltac:(by right)) as [? (out & Ho & ?)]. split; [done|]. exists out.
      split; [by eapply grows_sub|done].
    - intros h2 r2 Hg2 Hp2. apply HQ; [by eapply grows_trans|]. intros st2 c2 b2 E.
      eapply scan_post_trans; [|exact Hp1|exact (Hp2 _ _ _ E)]. intros [-> ->]. destruct b1; auto. }
  assert (Hskip : ∀ h', grows observes hist h' → (live c = ∅ → grows (strangers (members st)) hist h') →
    wpv (scan_rows expected rows st c added) h' Q).
  { intros h' Hg Hq. apply Hnext; [done|]. split; try done; [by eapply in_step_sub; [by eapply grows_sub|]|intros E; split; [done|by apply Hq]|].
    intros [-> [=]]. }
  cbn [scan_rows]. cbv zeta. destruct (has_pid (row_pid r) (members st)) eqn:Epid; [by apply Hskip|].
  destruct (negb _ && negb _) eqn:Eskip; [by apply Hskip|].
  apply wp_bind, wp_observe. intros ro Hro. set (h1 := Ev _ ro :: hist).
  assert (Hg1 : grows observes hist h1) by by apply grows_cons.
  assert (Hq1 : grows (strangers (members st)) hist h1).
  { apply grows_cons; [|done]. split; [done|]. intros q Hq Ha. cbn in Ha. congruence. }
  destruct ro as [[o|]|e]; [|by apply Hskip|by apply HQ; [|intros ??? [=]]]. cbn [wp].
  assert (Hadd : ∀ h', h1 ⊆ h' → grows observes hist h' → attributable hist (row_pid r) →
    wpv (scan_rows expected rows (set_members (pid_set (row_pid r) o (members st)) st)
           {| live := {[row_pid r]} ∪ live c; matching := pid_set (row_pid r) o (matching c) |} true) h' Q).
  { intros h' Hsub Hg Hattr. pose proof (observed_known _ _ _ Hattr Hro) as Ho.
    pose proof (known_sub _ _ _ Hsub Ho) as Ho'. pose proof (grows_sub _ _ _ Hg) as Hsub'.
    destruct (in_step_sub _ _ _ _ Hsub' Hin) as [Hm Hk Hc Hmt]. apply Hnext; [done|]. split; cbn.
    - split; cbn; [apply dict_known_set; [by apply (Hro o)|done..]|by apply pid_set_nodup|apply census_add; [by apply (Hro o)|done..]|].
      intros q. rewrite !has_pid_set, !orb_true_iff. intros [?|?]; [by left|right; by apply Hmt].
    - intros q Hq. rewrite has_pid_set, Hq. by rewrite orb_true_r.
    - intros q Hq. apply elem_of_union. by right.
    - intros E. exfalso. apply (not_elem_of_empty (C := gset Z) (row_pid r)). rewrite <- E. apply elem_of_union. left. by apply elem_of_singleton.
    - apply Nat.lt_le_incl, unseen_set; [apply Hrows; by left|done].
    - intros _. apply unseen_set; [apply Hrows; by left|done]. }
  destruct (Hrows r ltac:(by left)) as [_ Hlist].
  apply wp_bind. destruct (_ && (pgid o =? pgid expected)) eqn:Egrp.
  { cbn [wp]. bool_inv. apply Hadd; [done|done|]. by apply attr_group. }
  destruct (pid_get (row_parent r) (matching c)) as [i|] eqn:Epar; [|by apply Hskip].
  apply wp_bind, wp_observe. intros rp Hrp. set (h2 := Ev _ rp :: h1).
  assert (Hg2 : grows observes hist h2) by by apply grows_cons.
  assert (Hlive : live c ≠ ∅).
  { intros E. apply (not_elem_of_empty (C := gset Z) (row_parent r)). rewrite <- E. apply Hin. unfold has_pid. by rewrite Epar. }
  destruct rp as [now|e]; [|by apply HQ; [|intros ??? [=]]]. cbn [wp].
  destruct (_same_process i now); [|by apply Hskip].
  apply Hadd; [intros e He; by right|done|]. apply attr_child; [done|].
  destruct (co_known _ _ (is_census _ _ _ Hin) _ _ (pid_get_elem _ _ _ Epar)) as [<- [? _]]. done.
Qed.

Lemma listed_sub h h' rows : h ⊆ h' → Forall (listed h) rows → Forall (listed h') rows.
Proof. intros Hs Hr. eapply Forall_impl; [done|]. intros r (out & Ho & ?). exists out. split; [by apply Hs|done]. Qed.

Lemma wp_scan fuel rows st c hist Q :
  Forall (listed hist) rows → in_step hist st c → (unseen rows (members st) < fuel)%nat →
  (∀ h' r, grows observes hist h' →
     (∀ st' c', r = Ok (st', c') → scan_post rows hist h' st st' c c' False) → Q h' r) →
  wpv (scan fuel expected rows st c) hist Q.
Proof.
  revert st c hist. induction fuel as [|fuel IH]; intros st c hist Hr Hin Hf HQ; [lia|].
  cbn [scan]. apply wp_bind, (wp_scan_rows rows); [|done|].
  { intros r Hin'. split; [done|]. rewrite Forall_forall in Hr. by apply Hr. }
  intros h1 r1 Hg1 Hp1. destruct r1 as [[[st1 c1] more]|e]; [|by apply HQ; [|intros ?? [=]]].
  specialize (Hp1 st1 c1 more eq_refl). destruct more.
  - apply IH.
    + exact (listed_sub _ _ _ (grows_sub _ _ _ Hg1) Hr).
    + apply Hp1.
    + pose proof (sp_more _ _ _ _ _ _ _ _ Hp1 (conj eq_refl eq_refl)). lia.
    + intros h2 r2 Hg2 Hp2. apply HQ; [by eapply grows_trans|]. intros st2 c2 E.
      eapply scan_post_trans; [|exact Hp1|exact (Hp2 _ _ E)]. by intros [].
  - apply HQ; [done|]. intros st2 c2 [= <- <-]. destruct Hp1. by split.
Qed.

Record remaining_post (hist h' : list event) (st st' : Teardown) (c' : Census) : Prop := {
  rp_step : in_step h' st' c';
  rp_members : ∀ p, has_pid p (members st) = true → has_pid p (members st') = true;
  rp_gone : live c' = ∅ → ∀ p, has_pid p (members st') = true → gone h' p
}.

Lemma wp_remaining st hist Q :
  dict_known hist (members st) → NoDup (members st).*1 →
  (∀ h' r, grows observes hist h' → (∀ st' c', r = Ok (st', c') → remaining_post hist h' st st' c') → Q h' r) →
  wpv (remaining expected st) hist Q.
Proof.
  intros Hd Hnd HQ. unfold remaining. apply wp_catch. split; [done|]. intros ps _. set (h1 := Ev OPs ps :: hist).
  assert (Hg1 : grows observes hist h1) by by apply grows_cons. pose proof (grows_sub _ _ _ Hg1) as Hsub.
  assert (Hrun : ∀ st1 rows, members st1 = members st → Forall (listed h1) rows →
    wpv ('(st, c) ← check_members (members st1) st1 {| live := ∅; matching := [] |};
         let st := close_group (negb (bool_decide (pid expected ∈ changed st)) &&
                                existsb (λ r, row_group r =? pgid expected) rows) st in
         scan (S (length rows)) expected rows st c) h1 Q).
  { intros st1 rows Em Hrows. rewrite Em. pose proof (dict_known_sub _ _ _ Hsub Hd) as Hd1.
    apply wp_bind, wp_check_members; [done|done|split; [by intros ?? ?%elem_of_nil|by intros ?]|].
    intros h2 r2 Hg2 Hp2. assert (Hg12 : grows observes h1 h2) by (eapply grows_mono; [|done]; by intros o (q & -> & _)).
    assert (Hg : grows observes hist h2) by by eapply grows_trans.
    destruct r2 as [[st2 c2]|e]; [|by apply HQ; [|intros ?? [=]]].
    destruct (Hp2 _ _ eq_refl) as (Em2 & _ & Hc2 & _ & Hk2 & Hl2). cbv zeta.
    assert (Hin : in_step h2 (close_group (negb (bool_decide (pid expected ∈ changed st2)) &&
                                existsb (λ r, row_group r =? pgid expected) rows) st2) c2).
    { split; cbn; rewrite ?Em2, ?Em; try done; [by eapply dict_known_sub; [by eapply grows_sub|]|].
      intros p Hp. apply has_pid_key. by destruct (Hk2 p Hp). }
    apply wp_scan; [|done| |].
    - exact (listed_sub _ _ _ (grows_sub _ _ _ Hg12) Hrows).
    - unfold unseen. pose proof (List.filter_length_le (λ r, negb (has_pid (row_pid r) (members st2))) rows). cbn. lia.
    - intros h3 r3 Hg3 Hp3. apply HQ; [by eapply grows_trans|]. intros st3 c3 E.
      destruct (Hp3 _ _ E) as [S3 M3 L3 Q3 _ _]. cbn in M3, Q3. rewrite Em2, Em in M3, Q3. split; [done|done|].
      intros Ee p Hp. destruct (Q3 Ee) as [E3 G3]. rewrite E3 in Hp. pose proof (sub_empty _ _ L3 Ee) as El.
      destruct (Hl2 p) as [Hl|Hgone]; [by apply has_pid_key|rewrite El in Hl; by apply not_elem_of_empty in Hl|].
      eapply gone_grows; [|done|exact G3]. intros o [_ Ho]. by apply Ho. }
  destruct ps as [[code out]|e]; cbn [wp catch mbind prog_bind guard].
  - destruct (Z.eqb_spec code 0) as [->|]; cbn [negb raise_if].
    + apply Hrun; [done|]. apply Forall_forall. intros r Hr. exists out. split; [by left|done].
    + apply Hrun; [done|constructor].
  - destruct (expected_error e); [by apply Hrun|]. apply HQ; [done|]. by intros ?? [=].
Qed.

(** ** The teardown *)

Definition fatal (s : signal) : Prop := s = SIGTERM ∨ s = SIGKILL.

Record teardown_inv (h : list event) (st : Teardown) : Prop := {
  ti_known : dict_known h (members st);
  ti_keys : NoDup (members st).*1;
  ti_killed : ∀ p s r, Ev (OKill p s) r ∈ h → fatal s → has_pid p (members st) = true;
  ti_root : has_pid (pid expected) (members st) = true
}.

(** Operations that send no fatal signal to a process that is not a member. *)
Definition within (d : pid_dict) (o : op) : Prop := ∀ p s, o = OKill p s → fatal s → has_pid p d = true.

Lemma inv_grows h h' st st' :
  teardown_inv h st → grows (within (members st')) h h' → dict_known h' (members st') → NoDup (members st').*1 →
  (∀ p, has_pid p (members st) = true → has_pid p (members st') = true) → teardown_inv h' st'.
Proof.
  intros [Hk Hn Hd Hr] (new & -> & Hg) Hk' Hn' Hm. split; [done|done| |by apply Hm].
  intros p s r [Hin|Hin]%elem_of_app Hf; [|by eapply Hm, Hd]. rewrite Forall_forall in Hg. by apply (Hg _ Hin p s).
Qed.

Lemma observes_within d o : observes o → within d o.
Proof. by intros Ho p s ->. Qed.

Lemma inv_sleep h st o r : o = OClock ∨ o = OSleep → teardown_inv h st → teardown_inv (Ev o r :: h) st.
Proof.
  intros Ho Hi. eapply inv_grows; [done|apply grows_cons; [|done]| |apply Hi|done].
  - by intros p s ->; destruct Ho.
  - eapply dict_known_sub; [|apply Hi]. intros e He. by right.
Qed.

Lemma wp_remaining_inv st hist Q :
  teardown_inv hist st →
  (∀ h' r, grows observes hist h' →
     (∀ st' c', r = Ok (st', c') → teardown_inv h' st' ∧ in_step h' st' c' ∧
        (live c' = ∅ → ∀ p, has_pid p (members st') = true → gone h' p)) → Q h' r) →
  wpv (remaining expected st) hist Q.
Proof.
  intros Hi HQ. apply wp_remaining; [apply Hi..|]. intros h' r Hg Hp. apply HQ; [done|]. intros st' c' E.
  destruct (Hp _ _ E) as [Hin Hm Hgone]. split_and!; [|done|done].
  eapply inv_grows; [done| |apply Hin|apply Hin|done]. eapply grows_mono; [|done]. intros o. apply observes_within.
Qed.

Lemma wp_signal_members ids s st hist Q :
  teardown_inv hist st → (∀ i, i ∈ ids → known hist i ∧ has_pid (pid i) (members st) = true) →
  (∀ h' r, (∀ st', r = Ok st' → teardown_inv h' st' ∧ members st' = members st ∧ grows (λ o, o ≠ OClock) hist h') → Q h' r) →
  wpv (signal_all ids s st) hist Q.
Proof.
  intros Hi Hids HQ. apply wp_signal_all; [by intros i Hin; apply Hids|]. intros h' r Hg Hm. apply HQ.
  intros st' E. pose proof (Hm _ E) as Em. split_and!; [|done|].
  - eapply inv_grows; [done| | |rewrite Em; apply Hi|by rewrite Em].
    + eapply grows_mono; [|done]. intros o Ho p s' -> _. rewrite Em. apply list_elem_of_fmap in Ho as (i & -> & Hin). by apply Hids.
    + rewrite Em. eapply dict_known_sub; [by eapply grows_sub|apply Hi].
  - eapply grows_mono; [|done]. by intros o Ho ->.
Qed.

Lemma census_ids h st c i :
  in_step h st c → i ∈ rev (matching c).*2 → known h i ∧ has_pid (pid i) (members st) = true.
Proof.
  intros Hin Hi. apply list_elem_of_In, in_rev, list_elem_of_In, list_elem_of_fmap in Hi as ([p j] & -> & Hj).
  destruct (co_known _ _ (is_census _ _ _ Hin) p j Hj) as [<- ?]. split; [done|]. eapply is_matching; [done|]. by eapply has_pid_elem.
Qed.

(** What the history read from the clock. *)
Definition clock_of (e : event) : option float :=
  match e with Ev o r => match o return resp o → option float with OClock => Some | _ => λ _, None end r end.
Definition clocks (h : list event) : list float := omap clock_of h.

Lemma clocks_observes h h' : grows observes h h' → clocks h' = clocks h.
Proof.
  intros (new & -> & Hn). unfold clocks. rewrite omap_app. replace (omap clock_of new) with (@nil float); [done|].
  symmetry. induction Hn as [|[[] r] new Ho _ IH]; try done.
Qed.

Lemma wp_wait_grace n base deadline fuel st h1 Q :
  teardown_inv (h1 ++ base) st → (length (clocks h1) + fuel = n)%nat →
  Forall (λ t, float_gtb deadline t = true) (clocks h1) →
  (∀ h2, length (clocks h2) = n → Forall (λ t, float_gtb deadline t = true) (clocks h2) → out_of_fuel (h2 ++ base)) →
  (∀ h' r, (∀ st', r = Ok st' → teardown_inv h' st') → Q h' r) →
  wpv (wait_grace fuel expected deadline st) (h1 ++ base) Q.
Proof.
  revert st h1. induction fuel as [|fuel IH]; intros st h1 Hi Hn Hc Hstop HQ.
  { cbn. apply Hstop; [lia|done]. }
  cbn [wait_grace]. apply wp_bind. split; [done|]. intros now _. cbn [wp]. set (h2 := Ev OClock now :: h1).
  assert (Hi2 : teardown_inv (h2 ++ base) st) by (apply inv_sleep; [by left|done]).
  destruct (float_gtb deadline now) eqn:E; [|by apply HQ; intros st' [= <-]].
  assert (Hc2 : clocks h2 = now :: clocks h1) by done.
  apply wp_bind, wp_remaining_inv; [done|]. intros h3 r3 Hg3 Hp3. destruct r3 as [[st3 c3]|e]; [|by apply HQ; intros ? [=]].
  destruct (Hp3 _ _ eq_refl) as (Hi3 & _ & _). case_decide; [by apply HQ; intros st' [= <-]|].
  apply wp_bind. split; [done|]. intros u _. destruct Hg3 as (new & -> & Hnew). cbn [wp].
  assert (Hc3 : clocks (Ev OSleep u :: new ++ h2) = clocks h2).
  { change (clocks (new ++ h2) = clocks h2). apply clocks_observes. by exists new. }
  change (Ev OClock now :: h1 ++ base) with (h2 ++ base) in Hi3 |- *. rewrite app_assoc in Hi3.
  replace (new ++ h2 ++ base) with ((new ++ h2) ++ base) by by rewrite app_assoc. apply (IH st3 (Ev OSleep u :: new ++ h2)).
  - by apply (inv_sleep ((new ++ h2) ++ base)); [by right|].
  - rewrite Hc3, Hc2. cbn. lia.
  - rewrite Hc3, Hc2. by constructor.
  - done.
  - done.
Qed.

Lemma wp_kill_passes passes deadline st hist Q :
  teardown_inv hist st → (∀ h' r, (∀ st', r = Ok st' → teardown_inv h' st') → Q h' r) →
  wpv (kill_passes passes expected deadline st) hist Q.
Proof.
  revert st hist. induction passes as [|passes IH]; intros st hist Hi HQ; [by apply HQ; intros st' [= <-]|].
  cbn [kill_passes]. apply wp_bind, wp_remaining_inv; [done|]. intros h1 r1 _ Hp1.
  destruct r1 as [[st1 c1]|e]; [|by apply HQ; intros ? [=]]. destruct (Hp1 _ _ eq_refl) as (Hi1 & Hin1 & _).
  case_decide; [by apply HQ; intros st' [= <-]|].
  apply wp_bind, wp_signal_members; [done|intros i; by apply census_ids|]. intros h2 r2 Hp2.
  destruct r2 as [st2|e]; [|by apply HQ; intros ? [=]]. destruct (Hp2 _ eq_refl) as (Hi2 & _).
  apply wp_bind. split; [done|]. intros u _. cbn [wp]. apply wp_bind. split; [done|]. intros now _. cbn [wp].
  assert (Hi3 : teardown_inv (Ev OClock now :: Ev OSleep u :: h2) st2).
  { apply inv_sleep; [by left|]. apply inv_sleep; [by right|done]. }
  destruct (float_geb now deadline); [by apply HQ; intros st' [= <-]|]. by apply IH.
Qed.

Lemma members_of_spec h ids :
  (∀ i, i ∈ ids → known h i) →
  dict_known h (members_of ids) ∧ NoDup (members_of ids).*1 ∧ (∀ i, i ∈ ids → has_pid (pid i) (members_of ids) = true).
Proof.
  intros Hk. unfold members_of.
  enough (∀ d, dict_known h d → NoDup d.*1 → (∀ i, i ∈ ids → known h i) →
    dict_known h (fold_left (λ d i, pid_set (pid i) i d) ids d) ∧ NoDup (fold_left (λ d i, pid_set (pid i) i d) ids d).*1 ∧
    (∀ p, has_pid p d = true ∨ p ∈ map pid ids → has_pid p (fold_left (λ d i, pid_set (pid i) i d) ids d) = true)) as H.
  { destruct (H []) as (? & ? & Hp); [by intros ?? ?%elem_of_nil|constructor|done|]. split_and!; [done..|].
    intros i Hi. apply Hp. right. by apply list_elem_of_fmap_2. }
  clear Hk. induction ids as [|i ids IH]; intros d Hd Hn Hk; cbn.
  { split_and!; [done..|]. by intros p [?|?%elem_of_nil]. }
  destruct (IH (pid_set (pid i) i d)) as (? & ? & Hp); [apply dict_known_set; [done|apply Hk; by left|done]|by apply pid_set_nodup| |].
  { intros j Hj. apply Hk. by right. }
  split_and!; [done..|]. intros p Hpd. apply Hp. rewrite has_pid_set, orb_true_iff, bool_decide_eq_true.
  destruct Hpd as [?|[->|?]%elem_of_cons]; auto.
Qed.

Definition teardown_done (h : list event) : Prop :=
  ∀ p, (p = pid expected ∨ ∃ s x, Ev (OKill p s) x ∈ h ∧ fatal s) → gone h p.

Lemma wp_terminate fuel grace :
  (∀ h1 start base, length (clocks h1) = fuel → Forall (λ t, float_gtb (float_add start grace) t = true) (clocks h1) →
     out_of_fuel (h1 ++ Ev OClock start :: base)) →
  wpv (terminate_attributable_tree fuel expected grace) [] (λ h r, r = Ok tt → teardown_done h).
Proof.
  intros Hstop. unfold terminate_attributable_tree. apply wp_bind. cbn [wp guard].
  destruct (negb _); cbn [raise_if]; [done|]. apply wp_bind. split; [done|]. intros sid _. cbn [wp].
  apply wp_bind. destruct sid as [sid|]; [|by intros [=]]. cbn [wp guard]. destruct (negb _); cbn [raise_if]; [done|].
  apply wp_bind, wp_freeze_tree. intros h1 r1 Hg1 Hpost. destruct r1 as [ids|e]; [|done].
  destruct (Hpost ids eq_refl) as [Hroot Hk]. cbv zeta. destruct (members_of_spec h1 ids Hk) as (Hd & Hn & Hp).
  set (st0 := Build_Teardown _ _ _ _ _).
  assert (Hi0 : teardown_inv h1 st0).
  { split; [done|done| |by apply (Hp expected)]. intros p s x Hin Hf. exfalso. destruct Hg1 as (new & -> & Hq).
    apply elem_of_app in Hin as [Hin|Hin]; [|by apply list_elem_of_singleton in Hin].
    rewrite Forall_forall in Hq. specialize (Hq _ Hin). cbn in Hq. destruct Hf, Hq; congruence. }
  assert (Hids : ∀ h i, dict_known h (members_of ids) → i ∈ rev (members_of ids).*2 →
    known h i ∧ has_pid (pid i) (members_of ids) = true).
  { intros h i Hdk Hi. apply list_elem_of_In, in_rev, list_elem_of_In, list_elem_of_fmap in Hi as ([p j] & -> & Hj).
    destruct (Hdk p j Hj) as [<- ?]. split; [done|]. by eapply has_pid_elem. }
  apply wp_bind, wp_signal_members; [done|intros i; by apply Hids|]. intros h2 r2 Hp2. destruct r2 as [st2|e]; [|done].
  destruct (Hp2 _ eq_refl) as (Hi2 & Em2 & _). cbn in Em2.
  apply wp_bind, wp_signal_members; [done|intros i Hi; rewrite Em2; apply Hids; [|done]; rewrite <- Em2; apply Hi2|].
  intros h3 r3 Hp3. destruct r3 as [st3|e]; [|done]. destruct (Hp3 _ eq_refl) as (Hi3 & _).
  apply wp_bind. split; [done|]. intros start _. cbn [wp].
  apply wp_bind, (wp_wait_grace fuel (Ev OClock start :: h3) _ _ _ []); [by apply inv_sleep; [by left|]|done|constructor|by intros; apply Hstop|].
  intros h4 r4 Hp4. destruct r4 as [st4|e]; [|done]. specialize (Hp4 _ eq_refl).
  apply wp_bind. split; [done|]. intros start2 _. cbn [wp].
  apply wp_bind, wp_kill_passes; [by apply inv_sleep; [by left|]|]. intros h5 r5 Hp5. destruct r5 as [st5|e]; [|done].
  apply wp_bind, wp_remaining_inv; [by apply Hp5|]. intros h6 r6 Hg6 Hp6. destruct r6 as [[st6 c6]|e]; [|done].
  destruct (Hp6 _ _ eq_refl) as (Hi6 & _ & Hgone). apply wp_bind. cbn [wp guard].
  case_bool_decide as El; cbn [negb raise_if]; [|done]. destruct (census_error st6), (signal_error st6); try done.
  intros _ p Hpp. apply Hgone; [done|]. destruct Hpp as [->|(s & x & Hin & Hf)]; [apply Hi6|by eapply Hi6].
Qed.

End Tree.

(** ** The census: descendants are exactly what the rows say *)

Inductive descendant (root group : Z) (rows : list row) : Z → Prop :=
  | desc_root : descendant root group rows root
  | desc_group r : r ∈ rows → row_group r = group → descendant root group rows (row_pid r)
  | desc_child r : r ∈ rows → descendant root group rows (row_parent r) → descendant root group rows (row_pid r).

Lemma elem_of_children rows found p :
  p ∈ with_children rows found ↔ p ∈ found ∨ ∃ r, r ∈ rows ∧ row_pid r = p ∧ row_parent r ∈ found.
Proof.
  unfold with_children. rewrite elem_of_union, elem_of_list_to_set, list_elem_of_fmap.
  setoid_rewrite elem_of_filter_list. setoid_rewrite bool_decide_eq_true. naive_solver.
Qed.

Definition missing (rows : list row) (found : gset Z) : nat :=
  length (List.filter (λ r, negb (bool_decide (row_pid r ∈ found))) rows).

Lemma missing_lt rows found r :
  r ∈ rows → row_pid r ∉ found → row_parent r ∈ found → (missing rows (with_children rows found) < missing rows found)%nat.
Proof.
  intros Hr Hp Hq. unfold missing. assert (Hin : row_pid r ∈ with_children rows found) by (apply elem_of_children; eauto).
  assert (Hsub : ∀ p, p ∈ found → p ∈ with_children rows found) by (intros p ?; apply elem_of_children; by left).
  revert Hin Hsub. generalize (with_children rows found). intros next Hin Hsub. apply list_elem_of_split in Hr as (l1 & l2 & ->). rewrite !List.filter_app, !length_app. cbn.
  rewrite (bool_decide_eq_true_2 (row_pid r ∈ next)), (bool_decide_eq_false_2 (row_pid r ∈ found)) by done. cbn.
  assert (Hle : ∀ l, (length (List.filter (λ x, negb (bool_decide (row_pid x ∈ next))) l) ≤
                      length (List.filter (λ x, negb (bool_decide (row_pid x ∈ found))) l))%nat).
  { intros l. apply filter_length_mono. intros x. rewrite !negb_true_iff, !bool_decide_eq_false. auto. }
  pose proof (Hle l1). pose proof (Hle l2). lia.
Qed.

Lemma close_fixed fuel rows found :
  (missing rows found < fuel)%nat →
  with_children rows (close_descendants fuel rows found) = close_descendants fuel rows found.
Proof.
  revert found. induction fuel as [|fuel IH]; intros found Hf; [lia|]. cbn [close_descendants].
  destruct (decide (with_children rows found = found)) as [E|E]; [done|]. apply IH.
  assert (∃ r, r ∈ rows ∧ row_pid r ∉ found ∧ row_parent r ∈ found) as (r & Hr & Hp & Hq).
  { destruct (decide (Exists (λ r, row_pid r ∉ found ∧ row_parent r ∈ found) rows)) as [H|H].
    - apply Exists_exists in H as (r & ? & ? & ?). eauto.
    - destruct E. apply set_eq. intros p. rewrite elem_of_children. split; [|by left]. intros [?|(r & Hr & <- & Hq)]; [done|].
      destruct (decide (row_pid r ∈ found)); [done|]. destruct H. apply Exists_exists. eauto. }
  pose proof (missing_lt rows found r Hr Hp Hq). lia.
Qed.

Lemma close_sub fuel rows found : found ⊆ close_descendants fuel rows found.
Proof.
  revert found. induction fuel as [|fuel IH]; intros found; cbn [close_descendants]; [done|].
  case_decide; [done|]. intros p Hp. apply IH, elem_of_children. by left.
Qed.

Lemma close_sound (P : Z → Prop) fuel rows found :
  (∀ r, r ∈ rows → P (row_parent r) → P (row_pid r)) → (∀ p, p ∈ found → P p) →
  ∀ p, p ∈ close_descendants fuel rows found → P p.
Proof.
  intros Hc. revert found. induction fuel as [|fuel IH]; intros found Hf p; cbn [close_descendants]; [apply Hf|].
  case_decide; [apply Hf|]. apply IH. intros q [?|(r & Hr & <- & Hq)]%elem_of_children; auto.
Qed.

(** The census is exact.  The loop of [_freeze_tree] that widens the set of
    descendants always reaches its fixed point within one round per listed
    process, and the set it ends with is the root, the members of its group and
    everything below them, and nothing else. *)
Theorem descendants_exact root group rows p :
  p ∈ descendants root group rows ↔ descendant root group rows p.
Proof.
  unfold descendants. set (start := {[root]} ∪ _).
  assert (Hstart : ∀ q, q ∈ start ↔ q = root ∨ ∃ r, r ∈ rows ∧ row_pid r = q ∧ row_group r = group).
  { intros q. unfold start. rewrite elem_of_union, elem_of_singleton, elem_of_list_to_set, list_elem_of_fmap.
    setoid_rewrite elem_of_filter_list. setoid_rewrite Z.eqb_eq. naive_solver. }
  split.
  - apply close_sound; [intros; by eapply desc_child|]. intros q [->|(r & ? & <- & ?)]%Hstart; [constructor|by apply desc_group].
  - assert (Hfix := close_fixed (S (length rows)) rows start). induction 1 as [|r Hr Hg|r Hr Hd IH].
    + apply close_sub, Hstart. by left.
    + apply close_sub, Hstart. right. eauto.
    + rewrite <- Hfix; [apply elem_of_children; right; eauto|].
      unfold missing. pose proof (List.filter_length_le (λ r, negb (bool_decide (row_pid r ∈ start))) rows). lia.
Qed.

(** ** Every execution *)

(** C15. Nothing is signalled on trust.  In every execution of a teardown, with
    processes exiting, forking, regrouping and reusing pids in between, each
    signal to a process directly follows an observation of that pid whose start
    token and arguments are those of an identity observed, or given, before;
    that process is the root, was listed in the root's group, or was listed
    under such a process; and each signal to the group directly follows an
    observation of the root with exactly the expected identity. *)
Theorem signals_verified fuel expected grace t1 o r t2 q :
  steps (terminate_attributable_tree fuel expected grace) (t1 ++ Ev o r :: t2) q →
  match o with
  | OKill p s => ∃ t0 now i, t1 = t0 ++ [Ev (OObserve p) (Ok (Some now))] ∧ pid i = p ∧
      same_incarnation i now = true ∧ known expected t0 i
  | OKillpg g s => g = pgid expected ∧ ∃ t0, t1 = t0 ++ [Ev (OObserve (pid expected)) (Ok (Some expected))]
  | _ => True
  end.
Proof.
  intros H. pose proof (wp_guard (verified expected) (λ _, True) _ _ _ _ _ _ _
    (wp_terminate expected (λ _, True) fuel grace (λ _ _ _ _ _, I)) H) as Hv.
  destruct o as [|p s|g s| | | |]; try done; cbn in Hv.
  - destruct Hv as (i & Hi & (now & Hh & Hn) & Hk). destruct t1 as [|e t0 _] using rev_ind; [done|].
    rewrite rev_unit in Hh, Hk. injection Hh as ->. exists t0, now, i. split_and!; [done..|].
    eapply known_sub; [|exact Hk]. intros e He. by apply list_elem_of_In, in_rev, list_elem_of_In.
  - destruct Hv as [-> Hh]. split; [done|]. destruct t1 as [|e t0 _] using rev_ind; [done|].
    rewrite rev_unit in Hh. injection Hh as ->. by exists t0.
Qed.

(** Success means gone.  When a teardown returns, the root and every process
    it sent a termination or kill signal were last observed as gone, and were
    not touched after that. *)
Theorem success_means_gone fuel expected grace t p :
  steps (terminate_attributable_tree fuel expected grace) t (Ret (Ok tt)) →
  p = pid expected ∨ (∃ s r, Ev (OKill p s) r ∈ t ∧ fatal s) →
  ∃ t1 t2, t = t1 ++ Ev (OObserve p) (Ok None) :: t2 ∧ Forall (λ e, ¬ about p (ev_op e)) t2.
Proof.
  intros H Hp. pose proof (wp_steps (verified expected) (λ _, True) _ _ _ _ _
    (wp_terminate expected (λ _, True) fuel grace (λ _ _ _ _ _, I)) H) as Hd.
  rewrite app_nil_r in Hd. destruct (Hd eq_refl p) as (h1 & h2 & E & Ha).
  { destruct Hp as [?|(s & r & Hin & Hf)]; [by left|right]. exists s, r. split; [|done]. by apply list_elem_of_In, in_rev; rewrite rev_involutive; apply list_elem_of_In. }
  exists (rev h2), (rev h1). split.
  - by rewrite <- (rev_involutive t), E, rev_app_distr; cbn; rewrite <- app_assoc.
  - by apply Forall_rev.
Qed.

(** C39. The teardown ends.  The census loops never run out of their fuel, and an
    execution can only exhaust the fuel of the grace period by reading the
    clock that many times before the deadline: with more fuel than the clock
    has ticks in the grace period, every execution ends in a result. *)
Theorem teardown_terminates fuel expected grace t :
  steps (terminate_attributable_tree fuel expected grace) t Stuck →
  ∃ t1 start t2, t = t1 ++ Ev OClock start :: t2 ∧ length (clocks t2) = fuel ∧
    Forall (λ now, float_gtb (float_add start grace) now = true) (clocks t2).
Proof.
  intros H. set (stop := λ h, ∃ h1 start base, h = h1 ++ Ev OClock start :: base ∧ length (clocks h1) = fuel ∧
    Forall (λ t, float_gtb (float_add start grace) t = true) (clocks h1)).
  pose proof (wp_steps (verified expected) stop _ _ _ _ _
    (wp_terminate expected stop fuel grace (λ h1 start base Hl Hc, ex_intro _ h1 (ex_intro _ start (ex_intro _ base (conj eq_refl (conj Hl Hc)))))) H) as Hd.
  rewrite app_nil_r in Hd. destruct Hd as (h1 & start & base & E & Hl & Hc).
  assert (Hrev : ∀ l, clocks (rev l) = rev (clocks l)).
  { intros l. unfold clocks. induction l as [|e l IH]; [done|]. cbn [rev omap list_omap]. rewrite omap_app, IH. cbn.
    destruct (clock_of e); cbn; [done|]. by rewrite app_nil_r. }
  exists (rev base), start, (rev h1). rewrite Hrev, length_rev. split_and!; [|done|by apply Forall_rev].
  by rewrite <- (rev_involutive t), E, rev_app_distr; cbn; rewrite <- app_assoc.
Qed.

(** ** Concrete executions *)

Fixpoint run {A W} (answer : W → ∀ o, resp o * W) (p : prog A) (w : W) : list event * option (res A) :=
  match p with
  | Ret r => ([], Some r)
  | Stuck => ([], None)
  | Do o k => let '(r, w) := answer w o in let '(t, x) := run answer (k r) w in (Ev o r :: t, x)
  end.

Definition end_of {A} (x : option (res A)) : prog A := match x with Some r => Ret r | None => Stuck end.

Lemma run_steps {A W} (answer : W → ∀ o, resp o * W) (p : prog A) w :
  (∀ w o, answer_ok o (answer w o).1) → steps p (run answer p w).1 (end_of (run answer p w).2).
Proof.
  intros Hok. revert w. induction p as [r|o k IH|]; intros w; cbn; [constructor| |constructor].
  pose proof (Hok w o) as H. destruct (answer w o) as [r w']. specialize (IH r w'). destruct (run answer (k r) w') as [t x].
  by constructor.
Qed.

(** A small kernel: the processes alive, as [ps] lists them, and a clock in
    seconds.  Processes above 41 ignore [SIGTERM]. *)
Module Kernel1.
Record world := { alive : list row; clock : Z; tick : Z }.

Definition id_of (p : Z) (g : Z) : identity := {| pid := p; pgid := g; process_start_token := "t"; argv_sha256 := "a" |}.
Definition row_line (r : row) : string :=
  py_join " " [str_of_int (row_pid r); str_of_int (row_parent r); str_of_int (row_group r); "S"] +:+ String LF "".
Definition find_pid (w : world) (p : Z) : option row := List.find (λ r, row_pid r =? p) (alive w).

Definition answer (w : world) (o : op) : resp o * world :=
  match o return resp o * world with
  | OObserve p => (Ok ((λ r, id_of p (row_group r)) <$> find_pid w p), w)
  | OKill p s =>
      match find_pid w p with
      | None => (Ok false, w)
      | Some _ =>
          (Ok true, if bool_decide (s = SIGKILL) || (bool_decide (s = SIGTERM) && (p <=? 41))
                    then {| alive := List.filter (λ r, negb (row_pid r =? p)) (alive w); clock := clock w; tick := tick w |} else w)
      end
  | OKillpg _ _ => (Ok tt, w)
  | OPs => (Ok (0, fold_right (λ r s, row_line r +:+ s) "" (alive w)), w)
  | OGetsid p => ((λ _, p) <$> find_pid w p, w)
  | OClock => (float_lit (clock w), {| alive := alive w; clock := clock w + tick w; tick := tick w |})
  | OSleep => (tt, w)
  end.

Lemma answer_fine w o : answer_ok o (answer w o).1.
Proof.
  destruct o; cbn; try done. intros i [= H]. destruct (find_pid w p); cbn in H; [by injection H as <-|done].
Qed.

Definition start (t : Z) : world := {| alive := [(40, 1, 40); (41, 40, 40); (42, 41, 42)]; clock := 100; tick := t |}.
Definition teardown (fuel : nat) (t : Z) : list event * option (res unit) :=
  run answer (terminate_attributable_tree fuel (id_of 40 40) (float_lit 5)) (start t).
End Kernel1.

(** The signals of an execution, in order. *)
Definition sent (t : list event) : list (Z * signal) :=
  omap (λ e, match ev_op e with OKill p s => Some (p, s) | _ => None end) t.

Example teardown_1 :
  sent (Kernel1.teardown 10 1).1 =
    [(40, SIGSTOP); (42, SIGSTOP); (42, SIGTERM); (41, SIGTERM); (40, SIGTERM); (42, SIGCONT); (42, SIGKILL)] ∧
  (Kernel1.teardown 10 1).2 = Some (Ok tt).
Proof. split; vm_compute; reflexivity. Qed.

Lemma teardown_steps fuel t :
  steps (terminate_attributable_tree fuel (Kernel1.id_of 40 40) (float_lit 5)) (Kernel1.teardown fuel t).1
    (end_of (Kernel1.teardown fuel t).2).
Proof. unfold Kernel1.teardown. exact (run_steps Kernel1.answer _ (Kernel1.start t) Kernel1.answer_fine). Qed.

Lemma signals_verified_witness :
  ∃ n t0 now, (Kernel1.teardown 10 1).1 !! n = Some (Ev (OKill 42 SIGKILL) (Ok true)) ∧
    take n (Kernel1.teardown 10 1).1 = t0 ++ [Ev (OObserve 42) (Ok (Some now))].
Proof.
  pose proof (teardown_steps 10 1) as H.
  assert ((Kernel1.teardown 10 1).1 !! 55%nat = Some (Ev (OKill 42 SIGKILL) (Ok true))) as Hn by (vm_compute; reflexivity).
  rewrite <- (take_drop_middle _ _ _ Hn) in H.
  destruct (signals_verified _ _ _ _ _ _ _ _ H) as (t0 & now & i & Ht & _).
  exists 55%nat, t0, now. exact (conj Hn Ht).
Defined.

Lemma success_means_gone_witness :
  ∃ t1 t2, (Kernel1.teardown 10 1).1 = t1 ++ Ev (OObserve 42) (Ok None) :: t2 ∧ Forall (λ e, ¬ about 42 (ev_op e)) t2.
Proof.
  apply (success_means_gone 10 (Kernel1.id_of 40 40) (float_lit 5)).
  - pose proof (teardown_steps 10 1) as H. by rewrite (proj2 teardown_1) in H.
  - right. exists SIGKILL, (Ok true). split; [|by right]. apply (list_elem_of_lookup_2 _ 55). vm_compute. reflexivity.
Defined.

Lemma teardown_terminates_witness :
  ∃ t1 start t2, (Kernel1.teardown 2 0).1 = t1 ++ Ev OClock start :: t2 ∧ length (clocks t2) = 2%nat.
Proof.
  destruct (teardown_terminates 2 (Kernel1.id_of 40 40) (float_lit 5) (Kernel1.teardown 2 0).1) as (t1 & start & t2 & E & Hl & _).
  - pose proof (teardown_steps 2 0) as H. assert ((Kernel1.teardown 2 0).2 = None) as E by by vm_compute. by rewrite E in H.
  - exists t1, start, t2. exact (conj E Hl).
Defined.

(** Scripted kernels: the answers to [observe] and to the census depend on how
    many operations came before. *)
Definition scripted (seen : nat → Z → option identity) (ps : nat → list row) (n : nat) (o : op) : resp o * nat :=
  (match o return resp o with
   | OObserve p => Ok (seen n p)
   | OKill _ _ => Ok true
   | OKillpg _ _ => Ok tt
   | OPs => Ok (0, fold_right (λ r s, Kernel1.row_line r +:+ s) "" (ps n))
   | OGetsid p => Some p
   | OClock => float_lit (Z.of_nat n)
   | OSleep => tt
   end, S n).

(** A frozen process can be forgotten.  Process 39, below 41, is frozen first;
    41 exits before its turn, so the next census lists 39 under process 1.  The
    teardown of the tree succeeds, and 39 stays stopped. *)
Example frozen_orphan_left :
  let run39 := run (scripted
    (λ n p, if (p =? 40) && (n <? 22)%nat then Some (Kernel1.id_of 40 40) else if p =? 39 then Some (Kernel1.id_of 39 39) else None)
    (λ n, if (n <? 6)%nat then [(39, 41, 39); (40, 1, 40); (41, 40, 41)] else if (n <? 22)%nat then [(39, 1, 39); (40, 1, 40)] else [(39, 1, 39)]))
    (terminate_attributable_tree 10 (Kernel1.id_of 40 40) (float_lit 5)) 0%nat in
  run39.2 = Some (Ok tt) ∧ List.filter (λ ps, ps.1 =? 39) (sent run39.1) = [(39, SIGSTOP)].
Proof. split; vm_compute; reflexivity. Qed.

(** A refused freeze leaves the root stopped: it was stopped before the second
    observation that refuses it, outside the [try] that would continue it. *)
Example refused_freeze_left :
  let run40 := run (scripted
    (λ n p, if (n <? 2)%nat then Some (Kernel1.id_of 40 40) else Some {| pid := 40; pgid := 40; process_start_token := "t"; argv_sha256 := "b" |})
    (λ _, [])) (terminate_attributable_tree 10 (Kernel1.id_of 40 40) (float_lit 5)) 0%nat in
  run40.2 = Some (Err (Exn ProcessTruthError "session leader could not be identity-frozen")) ∧
  sent run40.1 = [(40, SIGSTOP)].
Proof. split; vm_compute; reflexivity. Qed.
