(* ===== verification/Admission.v ===== *)
(** * Host admission ([host_admission.py])

    Whether a vector of candidates may start on this host: the scan of the board
    for live attempts, the family cap, and the seven clauses over two telemetry
    snapshots.  Numbers have the types [HostSnapshot] declares: Python integers
    and binary64 floats, with every rounding of the code.  The digest of the
    snapshots and the interpolated parts of a reason are not kept; the command
    that takes a snapshot and the packet parser are arguments. *)
From S2P Require Import Prelude Regex Sha256 Json Posix Binary64 PyText PyTime ProcessTruth.
From Stdlib Require Import SpecFloat.

#[local] Open Scope Z_scope.

(** ** Float arithmetic of the clauses *)

(** The literal [p/q], correctly rounded. *)
Definition float_ratio (p q : Z) : float := float_div (float_lit p) (float_lit q).

Definition GIB : Z := 1024 ^ 3.
Definition MIN_SAMPLE_INTERVAL : float := float_lit 2.
Definition MAX_SAMPLE_INTERVAL : float := float_lit 5.
Definition MAX_SAMPLE_AGE : float := float_lit 10.
Definition SWAP_RATE_LIMITS : float * float := (float_lit 64, float_lit 32).
Definition FAMILY_TARGET : Z := 4.
Definition LANE_FAMILY : list (string * string) :=
  [("claude", "anthropic"); ("codex", "openai"); ("gpt-codex", "openai"); ("gemini", "google"); ("grok", "xai")].

Record WorkloadPolicy := {
  p95_rss_bytes : Z;
  reserve_bytes : Z;
  pressure_floor_percent : float;
  expected_processes : Z;
  calibrated : bool
}.

Definition WORKLOAD_POLICIES : list (string * WorkloadPolicy) :=
  [("cpu-light", {| p95_rss_bytes := 512 * 1024 ^ 2; reserve_bytes := GIB; pressure_floor_percent := float_lit 15;
                    expected_processes := 16; calibrated := true |});
   ("repo-build-test", {| p95_rss_bytes := GIB; reserve_bytes := 2 * GIB; pressure_floor_percent := float_lit 20;
                          expected_processes := 64; calibrated := true |});
   ("browser-media", {| p95_rss_bytes := GIB; reserve_bytes := 2 * GIB; pressure_floor_percent := float_lit 25;
                        expected_processes := 128; calibrated := true |});
   ("security-untrusted", {| p95_rss_bytes := 3 * GIB; reserve_bytes := 4 * GIB; pressure_floor_percent := float_lit 30;
                             expected_processes := 128; calibrated := false |})].

Record Candidate := {
  task_id : string;
  lane : string;
  workload_class : string;
  packet_path : string;
  packet_sha256 : string
}.

Record LiveAttempt := { live_task_id : string; live_lane : string; live_workload_class : string }.

Record HostSnapshot := {
  captured_at : float;
  physical_bytes : Z;
  resident_bytes : Z;
  pressure_free_percent : float;
  pressure_level : string;
  swap_total_bytes : Z;
  swap_free_bytes : Z;
  swapins : Z;
  pageouts : Z;
  swapouts : Z;
  compressions : Z;
  load_average_1m : float;
  runnable_processes : Z;
  free_disk_bytes : Z;
  process_count : Z;
  pid_limit : Z
}.

Record AdmissionDecision := {
  admitted : bool;
  failed_clauses : list Z;
  reasons : list string;
  candidate_vector_sha256 : string;
  clearable : bool
}.

Definition action (d : AdmissionDecision) : string :=
  if admitted d then "admit" else if clearable d then "queue" else "refuse".

(** [failed] lists the failed clauses in the order of their numbers. *)
Definition _decision (failed : list (Z * string)) (clearable : bool) : AdmissionDecision :=
  {| admitted := bool_decide (failed = []); failed_clauses := failed.*1;
     reasons := map (λ f, "clause-" +:+ str_of_int f.1 +:+ ": " +:+ f.2) failed;
     candidate_vector_sha256 := ""; clearable := clearable |}.

(** ** Telemetry *)

(** [math.isfinite(float(value)) and value >= 0], of an integer and of a float;
    [float(value)] of a huge integer raises. *)
Definition int_valid (z : Z) : res bool := _ ← float_of_int z; Ok (0 <=? z).
Definition float_valid (x : float) : bool := isfinite x && float_geb x (float_lit 0).

Definition PRESSURE_NAMES : list string := ["normal"; "warn"; "critical"; "unknown"].

(** [any(...)] over the numbers in their order: [false] at the first bad one. *)
Fixpoint all_valid (values : list (Z + float)) : res bool :=
  match values with
  | [] => Ok true
  | inl z :: values => ok ← int_valid z; if ok : bool then all_valid values else Ok false
  | inr x :: values => if float_valid x then all_valid values else Ok false
  end.

Definition _snapshot_schema_valid (s : HostSnapshot) : res bool :=
  ok ← all_valid
    [inr (captured_at s); inl (physical_bytes s); inl (resident_bytes s); inr (pressure_free_percent s);
     inl (swap_total_bytes s); inl (swap_free_bytes s); inl (swapins s); inl (pageouts s); inl (swapouts s);
     inl (compressions s); inr (load_average_1m s); inl (runnable_processes s); inl (free_disk_bytes s);
     inl (process_count s); inl (pid_limit s)];
  Ok ((ok : bool) && bool_decide (pressure_level s ∈ PRESSURE_NAMES) && (0 <? physical_bytes s) &&
      (swap_free_bytes s <=? swap_total_bytes s) &&
      (float_geb (pressure_free_percent s) (float_lit 0) && float_leb (pressure_free_percent s) (float_lit 100)) &&
      (0 <? pid_limit s)).

(** ** The vector *)

Variant Item := ItemLive (a : LiveAttempt) | ItemCandidate (c : Candidate).

Definition item_lane (i : Item) : string := match i with ItemLive a => live_lane a | ItemCandidate c => lane c end.
Definition item_class (i : Item) : string :=
  match i with ItemLive a => live_workload_class a | ItemCandidate c => workload_class c end.
Definition item_valid (i : Item) : bool :=
  match i with
  | ItemLive a => fullmatch IDENTIFIER (live_task_id a)
  | ItemCandidate c => fullmatch IDENTIFIER (task_id c) && fullmatch SHA256 (packet_sha256 c)
  end.
Definition is_live (i : Item) : bool := match i with ItemLive _ => true | ItemCandidate _ => false end.

Definition count_family (name : string) (counts : list (string * Z)) : Z := default 0 (dict_get name counts).

(** The loop over the live attempts, then the candidates: the counts by family and
    the candidates' policies, or the decision of an invalid authority. *)
Fixpoint count_items (items : list Item) (counts : list (string * Z)) (policies : list WorkloadPolicy) :
    AdmissionDecision + (list (string * Z) * list WorkloadPolicy) :=
  match items with
  | [] => inr (counts, policies)
  | i :: items =>
      match dict_get (item_lane i) LANE_FAMILY, dict_get (item_class i) WORKLOAD_POLICIES with
      | Some family, Some policy =>
          if item_valid i then
            count_items items (dict_set family (count_family family counts + 1) counts)
              (if is_live i then policies else policies ++ [policy])
          else inl (_decision [(1, "candidate or live-attempt authority is invalid")] (is_live i))
      | _, policy =>
          inl (_decision [(match policy with None => 4 | Some _ => 1 end,
                           "candidate or live-attempt authority is invalid")] (is_live i))
      end
  end.

Definition candidate_family (c : Candidate) : string := default "" (dict_get (lane c) LANE_FAMILY).
Definition families_of (candidates : list Candidate) : list string := map candidate_family candidates.
Definition occurrences (name : string) (l : list string) : Z := Z.of_nat (length (List.filter (λ n, bool_decide (n = name)) l)).

(** The families over the cap, sorted. *)
Definition over_cap (counts : list (string * Z)) : list string :=
  sort_strings (List.filter (λ name, FAMILY_TARGET <? count_family name counts) counts.*1).

Definition sum_Z (l : list Z) : Z := fold_right Z.add 0 l.
Definition max_Z (l : list Z) : Z := match l with [] => 0 | x :: l => fold_left Z.max l x end.
Definition float_max (x y : float) : float := if float_gtb y x then y else x.
Definition max_float (l : list float) : float := match l with [] => float_lit 0 | x :: l => fold_left float_max l x end.

(** [projected] of clause 4. *)
Definition projected_bytes (s : HostSnapshot) (policies : list WorkloadPolicy) : Z :=
  float_trunc (float_mul (float_lit (physical_bytes s))
                 (float_sub (float_lit 1) (float_div (pressure_free_percent s) (float_lit 100)))) +
  sum_Z (map (λ p, float_trunc (float_mul (float_lit (p95_rss_bytes p)) (float_ratio 125 100))) policies) +
  max_Z (map reserve_bytes policies).

(** The clauses a pair of sound snapshots fails, at the time [now]. *)
Definition failed_telemetry (cpu_count : Z) (policies : list WorkloadPolicy) (first second : HostSnapshot) (now : float) :
    list (Z * string) :=
  let interval := float_sub (captured_at second) (captured_at first) in
  let age := float_sub now (captured_at second) in
  let fresh := float_geb age (float_lit 0) && float_leb age MAX_SAMPLE_AGE in
  let deltas := (swapins second - swapins first, swapouts second - swapouts first) in
  let rate delta := if float_gtb interval (float_lit 0) then float_div (float_lit delta) interval else float_lit 0 in
  let selected_reserve := max_Z (map reserve_bytes policies) in
  let pressure_budget := float_trunc (float_mul (float_lit (physical_bytes second)) (float_ratio 85 100)) in
  let process_ceiling := float_trunc (float_mul (float_lit (pid_limit second)) (float_ratio 80 100)) in
  let clause (failed : bool) number text := if failed then [(number, text)] else [] in
  clause (negb fresh || negb (float_geb interval MIN_SAMPLE_INTERVAL && float_leb interval MAX_SAMPLE_INTERVAL))
    2 "telemetry is missing, stale, or outside the 2-5 second interval" ++
  clause ((Z.min deltas.1 deltas.2 <? 0) || float_gtb (rate deltas.1) SWAP_RATE_LIMITS.1 ||
          float_gtb (rate deltas.2) SWAP_RATE_LIMITS.2)
    3 (if Z.min deltas.1 deltas.2 <? 0 then "swap counters regressed" else "swap rates exceed 64/32 pages/s") ++
  clause (negb (forallb calibrated policies) || (pressure_budget <? projected_bytes second policies))
    4 "workload is uncalibrated or projected resident use exceeds budget" ++
  clause (bool_decide (py_lower (pressure_level second) = "critical") ||
          float_gtb (max_float (map pressure_floor_percent policies)) (pressure_free_percent second))
    6 "memory pressure is critical or below the class threshold" ++
  clause ((free_disk_bytes second <? selected_reserve + GIB) ||
          (process_ceiling <=? process_count second + sum_Z (map expected_processes policies)) ||
          float_gtb (load_average_1m second) (float_max (float_mul (float_lit cpu_count) (float_lit 2)) (float_lit 4)) ||
          (Z.max (cpu_count * 4) 16 <? runnable_processes second))
    7 "disk, PID, load, or runnable-process limit failed".

(** [live_snapshot()] may raise or find nothing; [cpu_count] is
    [os.cpu_count() or 1] and [now] the monotonic clock. *)
Definition _under_admission (cpu_count : Z) (candidates : list Candidate) (live : list LiveAttempt)
    (live_snapshot : res (option (HostSnapshot * HostSnapshot))) (now : float) : res AdmissionDecision :=
  if bool_decide (candidates = []) || negb (bool_decide (NoDup (map task_id candidates))) then
    Ok (_decision [(1, "candidate vector is empty or has duplicate task ids")] false)
  else
    match count_items (map ItemLive live ++ map ItemCandidate candidates) [] [] with
    | inl d => Ok d
    | inr (counts, policies) =>
        let over := over_cap counts in
        if negb (bool_decide (over = [])) then
          let families := families_of candidates in
          Ok (_decision [(1, "family target exceeded")]
                (forallb (λ name, occurrences name families <=? FAMILY_TARGET) over))
        else
          match live_snapshot with
          | Err _ => Ok (_decision [(2, "telemetry collection failed")] true)
          | Ok None => Ok (_decision [(2, "two complete telemetry snapshots are required")] true)
          | Ok (Some (first, second)) =>
              valid1 ← _snapshot_schema_valid first;
              valid2 ← (if valid1 : bool then _snapshot_schema_valid second else Ok true);
              if negb valid1 || negb valid2 || negb (physical_bytes first =? physical_bytes second) ||
                 negb (swap_total_bytes first =? swap_total_bytes second) || negb (pid_limit first =? pid_limit second)
              then Ok (_decision [(2, "telemetry schema or stable host identity is invalid")] true)
              else Ok (_decision (failed_telemetry cpu_count policies first second now) (forallb calibrated policies))
          end
    end.

(** ** The board *)

(** [board.glob("*.dispatch.json")], sorted: the entries of the directory with
    such a name. *)
Definition in_directory (dir path : string) : bool :=
  let p := dir +:+ "/" in
  startswith path p && negb (char_in slash (str_drop (String.length p) path)).

Definition dispatch_paths (fs : files) (board : string) : list string :=
  sort_strings (List.filter (λ p, in_directory board p && endswith p suffix) (map_to_list fs).*1).

(** [x in d] of a dictionary: an unhashable [x] raises. *)
Definition key_of {A} (v : json) (d : list (string * A)) : res (option string) :=
  match v with
  | JStr s => Ok (if dict_has s d then Some s else None)
  | JList _ | JObj _ => Err (Exn TypeError "unhashable type")
  | _ => Ok None
  end.

(** One descriptor of the board: [None] when it counts for nothing.  The paths
    it names are only opened, and [abspath] makes [Path] normalise nothing more. *)
Definition examine (h : Host) (fs : files) (path : string) : res (option LiveAttempt) :=
  let descriptor := load_json h fs path in
  if is_dict descriptor && py_eq (jget "schema" descriptor) (JStr DESCRIPTOR_V1) then Ok None
  else
    match descriptor_error (cwd h) path descriptor true with
    | Some error => Err (Exn HostStateError error)
    | None =>
        receipt_path ← item "receipt_path" descriptor;
        let receipt_path := py_str receipt_path in
        if lexists h fs receipt_path then
          match terminal_outcome (load_json h fs receipt_path) descriptor with
          | Some _ => Ok None
          | None => Err (Exn HostStateError "receipt is not exactly fenced")
          end
        else
          context_path ← item "context_path" descriptor;
          let context := load_json h fs (py_str context_path) in
          raise_if (negb (context_matches descriptor context)) HostStateError "context identity mismatch";;
          truth ← process_truth h path descriptor;
          raise_if (negb (bool_decide (state truth = "live"))) HostStateError "unresolved";;
          let authority := jget "authority" context in
          lane ← key_of (jget "lane" authority) LANE_FAMILY;
          workload ← (match lane with Some _ => key_of (jget "workload_class" authority) WORKLOAD_POLICIES | None => Ok None end);
          task ← item "task_id" descriptor;
          match lane, workload with
          | Some lane, Some workload =>
              Ok (Some {| live_task_id := py_str task; live_lane := lane; live_workload_class := workload |})
          | _, _ => Err (Exn HostStateError "lane or workload authority is invalid")
          end
    end.

Definition board_of (repo_root : string) : string := path_div (path_div repo_root "_state") "board-dispatch".

Definition discover_live_attempts (h : Host) (fs : files) (repo_root : string) : res (list LiveAttempt) :=
  let board := board_of repo_root in
  match node_at h fs board with
  | None | Some (Symlink None) => Ok []
  | Some (Directory _) => found ← map_res (examine h fs) (dispatch_paths fs board); Ok (omap (M:=list) id found)
  | Some _ => Err (Exn HostStateError "board state root is not a real directory")
  end.

(** ** The public seam *)

(** What the digest of the vector covers. *)
Definition vector_bytes (candidates : list Candidate) : bytes :=
  concat (map (λ c, concat (map (λ v, encode_utf8 v ++ [0]) [packet_path c; task_id c; packet_sha256 c])) candidates).
Definition _candidate_vector_sha256 (candidates : list Candidate) : string := sha256_hex (vector_bytes candidates).

(** The first candidate whose packet is not the regular file it was. *)
Definition _binding_changed (h : Host) (fs : files) (candidates : list Candidate) : option string :=
  task_id <$> List.find (λ c,
    match node_at h fs (packet_path c) with
    | Some (Regular _ body) => negb (bool_decide (sha256_hex (file_bytes body) = packet_sha256 c))
    | _ => true
    end) candidates.

(** [fs] are the files when [admit] scans the board, [later] after telemetry. *)
Definition admit_vector (h : Host) (fs later : files) (repo_root : string) (cpu_count : Z) (candidates : list Candidate)
    (snapshots : res (option (HostSnapshot * HostSnapshot))) (now : float) : res AdmissionDecision :=
  let refused text := Ok (_decision [(1, text)] false) in
  let handled (e : exn) := bool_decide (exn_kind e ∈ [HostStateError; OSError; ValueError]) in
  let scanned :=
    raise_if (bool_decide (is_Some (_binding_changed h fs candidates))) HostStateError "candidate packet binding changed";;
    discover_live_attempts h fs repo_root in
  match scanned with
  | Err e => if handled e then refused "authoritative board state failed closed" else Err e
  | Ok live =>
      decision ← _under_admission cpu_count candidates live snapshots now;
      if admitted decision && bool_decide (is_Some (_binding_changed h later candidates))
      then refused "candidate packet changed during telemetry"
      else Ok {| admitted := admitted decision; failed_clauses := failed_clauses decision; reasons := reasons decision;
                 candidate_vector_sha256 := _candidate_vector_sha256 candidates; clearable := clearable decision |}
  end.
