(* ===== verification/AdmissionProps.v ===== *)
(** * Host admission: what a decision promises

    The exact conditions of an admission, against the board its scan found, the
    meaning of the three actions, and how reaping a dead attempt unblocks the
    board. *)
From S2P Require Import Prelude Regex Sha256 Json Posix Binary64 PyText PyTime PlanItems JsonProps ProcessTruth ProcessTruthProps Admission.
From Stdlib Require Import SpecFloat.

#[local] Open Scope Z_scope.

(** ** The vector *)

Definition item_family (i : Item) : string := default "" (dict_get (item_lane i) LANE_FAMILY).
Definition policy_of (cls : string) : option WorkloadPolicy := dict_get cls WORKLOAD_POLICIES.

(** A known lane, a known workload class and a well-formed identity. *)
Definition authorised (i : Item) : Prop :=
  is_Some (dict_get (item_lane i) LANE_FAMILY) ∧ is_Some (policy_of (item_class i)) ∧ item_valid i = true.

Definition candidate_policies (cs : list Candidate) : list WorkloadPolicy := omap (λ c, policy_of (workload_class c)) cs.
Definition item_policies (items : list Item) : list WorkloadPolicy :=
  omap (λ i, match i with ItemCandidate c => policy_of (workload_class c) | ItemLive _ => None end) items.

Lemma count_family_set name family z counts :
  count_family name (dict_set family z counts) = if decide (family = name) then z else count_family name counts.
Proof. unfold count_family. rewrite dict_get_set. by case_decide. Qed.

Lemma occurrences_cons name n l : occurrences name (n :: l) = (if decide (n = name) then 1 else 0) + occurrences name l.
Proof. unfold occurrences. cbn. case_bool_decide; case_decide; try done; cbn; lia. Qed.

Lemma occurrences_app name l m : occurrences name (l ++ m) = occurrences name l + occurrences name m.
Proof. unfold occurrences. rewrite List.filter_app, length_app. lia. Qed.

Lemma count_items_spec items counts policies :
  match count_items items counts policies with
  | inr (counts', policies') =>
      Forall authorised items ∧ policies' = policies ++ item_policies items ∧
      ∀ name, count_family name counts' = count_family name counts + occurrences name (map item_family items)
  | inl d =>
      admitted d = false ∧ ∃ l1 i l2, items = l1 ++ i :: l2 ∧ Forall authorised l1 ∧ ¬ authorised i ∧ clearable d = is_live i
  end.
Proof.
  revert counts policies. induction items as [|i items IH]; intros counts policies; cbn [count_items].
  { split; [constructor|]. split; [by rewrite app_nil_r|]. intros name. unfold occurrences. cbn. lia. }
  assert (Hbad : ∀ n text, ¬ authorised i →
    admitted (_decision [(n, text)] (is_live i)) = false ∧
    ∃ l1 j l2, i :: items = l1 ++ j :: l2 ∧ Forall authorised l1 ∧ ¬ authorised j ∧
      clearable (_decision [(n, text)] (is_live i)) = is_live j).
  { intros n text Hi. split; [done|]. by exists [], i, items. }
  destruct (dict_get (item_lane i) LANE_FAMILY) as [family|] eqn:El;
    [|destruct (dict_get (item_class i) WORKLOAD_POLICIES); apply Hbad; intros ([? ?] & _); congruence].
  destruct (dict_get (item_class i) WORKLOAD_POLICIES) as [policy|] eqn:Ep; [|apply Hbad; intros (_ & [? ?] & _); unfold policy_of in *; congruence].
  destruct (item_valid i) eqn:Ev; [|apply Hbad; intros (_ & _ & ?); congruence].
  assert (Hi : authorised i) by (split; [by eexists|split; [by eexists|done]]).
  specialize (IH (dict_set family (count_family family counts + 1) counts) (if is_live i then policies else policies ++ [policy])).
  destruct (count_items items _ _) as [d|[counts' policies']].
  - destruct IH as (? & l1 & j & l2 & -> & Hl1 & ? & ?). split; [done|]. exists (i :: l1), j, l2. by repeat constructor.
  - destruct IH as (Hall & -> & Hc). split; [by constructor|]. split.
    + destruct i as [a|c]; cbn in *; [done|]. unfold policy_of. rewrite Ep. by rewrite <- app_assoc.
    + intros name. rewrite Hc, count_family_set. cbn [map]. rewrite occurrences_cons.
      assert (item_family i = family) as -> by (unfold item_family; by rewrite El). repeat case_decide; subst; lia.
Qed.

Lemma over_cap_nil counts : over_cap counts = [] ↔ ∀ name, count_family name counts <= FAMILY_TARGET.
Proof.
  unfold over_cap. split.
  - intros H name. destruct (Z.le_gt_cases (count_family name counts) FAMILY_TARGET) as [?|Hgt]; [done|exfalso].
    assert (Hin : name ∈ sort_strings (List.filter (λ name, FAMILY_TARGET <? count_family name counts) counts.*1)).
    { unfold sort_strings. rewrite elem_of_sort_by. apply elem_of_filter_list. split; [|by apply Z.ltb_lt].
      apply dict_get_key. revert Hgt. unfold count_family. destruct (dict_get name counts); [by eexists|]. cbn. unfold FAMILY_TARGET. lia. }
    rewrite H in Hin. by apply elem_of_nil in Hin.
  - intros H. destruct (sort_strings _) as [|name l] eqn:E; [done|exfalso].
    assert (Hin : name ∈ sort_strings (List.filter (λ name, FAMILY_TARGET <? count_family name counts) counts.*1)) by (rewrite E; by left).
    unfold sort_strings in Hin. rewrite elem_of_sort_by in Hin. apply elem_of_filter_list in Hin as [_ Hin%Z.ltb_lt]. specialize (H name). lia.
Qed.

Lemma over_cap_elem name counts : name ∈ over_cap counts ↔ FAMILY_TARGET < count_family name counts.
Proof.
  unfold over_cap, sort_strings. rewrite elem_of_sort_by, elem_of_filter_list, Z.ltb_lt. split; [by intros []|].
  intros Hgt. split; [|done]. apply dict_get_key. revert Hgt. unfold count_family.
  destruct (dict_get name counts); [by eexists|]. cbn. unfold FAMILY_TARGET. lia.
Qed.

(** ** What an admission needs *)

Definition vector (live : list LiveAttempt) (cs : list Candidate) : list Item := map ItemLive live ++ map ItemCandidate cs.

(** How many attempts and candidates of the vector a family has. *)
Definition family_load (name : string) (items : list Item) : Z := occurrences name (map item_family items).

Definition sound_pair (first second : HostSnapshot) : Prop :=
  _snapshot_schema_valid first = Ok true ∧ _snapshot_schema_valid second = Ok true ∧
  physical_bytes first = physical_bytes second ∧ swap_total_bytes first = swap_total_bytes second ∧
  pid_limit first = pid_limit second.

(** The host has room for the policies, seen through two snapshots. *)
Record has_room (cpus : Z) (policies : list WorkloadPolicy) (first second : HostSnapshot) (now : float) : Prop := {
  hr_age : float_geb (float_sub now (captured_at second)) (float_lit 0) = true ∧
    float_leb (float_sub now (captured_at second)) (float_lit 10) = true;
  hr_interval : float_geb (float_sub (captured_at second) (captured_at first)) (float_lit 2) = true ∧
    float_leb (float_sub (captured_at second) (captured_at first)) (float_lit 5) = true;
  hr_counters : swapins first <= swapins second ∧ swapouts first <= swapouts second;
  hr_swapins : float_gtb (float_div (float_lit (swapins second - swapins first))
    (float_sub (captured_at second) (captured_at first))) (float_lit 64) = false;
  hr_swapouts : float_gtb (float_div (float_lit (swapouts second - swapouts first))
    (float_sub (captured_at second) (captured_at first))) (float_lit 32) = false;
  hr_calibrated : Forall (λ p, calibrated p = true) policies;
  hr_memory : projected_bytes second policies <=
    float_trunc (float_mul (float_lit (physical_bytes second)) (float_ratio 85 100));
  hr_pressure : py_lower (pressure_level second) ≠ "critical" ∧
    float_gtb (max_float (map pressure_floor_percent policies)) (pressure_free_percent second) = false;
  hr_disk : max_Z (map reserve_bytes policies) + GIB <= free_disk_bytes second;
  hr_processes : process_count second + sum_Z (map expected_processes policies) <
    float_trunc (float_mul (float_lit (pid_limit second)) (float_ratio 80 100));
  hr_load : float_gtb (load_average_1m second) (float_max (float_mul (float_lit cpus) (float_lit 2)) (float_lit 4)) = false;
  hr_runnable : runnable_processes second <= Z.max (cpus * 4) 16
}.

Lemma float_positive x : float_geb x (float_lit 2) = true → float_gtb x (float_lit 0) = true.
Proof.
  change (float_lit 2) with (S754_finite false 4503599627370496 (-51)). change (float_lit 0) with (S754_zero false).
  unfold float_geb, float_gtb, SFleb, SFltb. by destruct x as [[]|[]| |[] m e].
Qed.

Lemma clause_nil (b : bool) (x : Z * string) l : (if b then [x] else []) ++ l = [] ↔ b = false ∧ l = [].
Proof. destruct b; cbn; naive_solver. Qed.

Lemma failed_nil cpus policies first second now :
  failed_telemetry cpus policies first second now = [] ↔ has_room cpus policies first second now.
Proof.
  unfold failed_telemetry. cbv zeta. rewrite !clause_nil. cbn [fst snd].
  rewrite <- (app_nil_r (if _ || _ || _ || _ then _ else [])), clause_nil.
  rewrite !orb_false_iff, !negb_false_iff, !andb_true_iff, !Z.ltb_ge, Z.leb_gt, bool_decide_eq_false.
  unfold MAX_SAMPLE_AGE, MIN_SAMPLE_INTERVAL, MAX_SAMPLE_INTERVAL, SWAP_RATE_LIMITS. cbn [fst snd].
  rewrite forallb_forall, <- List.Forall_forall. split.
  - intros (((? & ?) & Hi & ?) & ((? & Hr1) & Hr2) & (? & ?) & (? & ?) & (((? & ?) & ?) & ?) & _).
    rewrite (float_positive _ Hi) in Hr1, Hr2. by split; try (split; lia || done); try lia.
  - intros [[? ?] [Hi ?] [? ?] Hr1 Hr2 ? ? [? ?] ? ? ? ?]. rewrite (float_positive _ Hi). split_and!; try done; lia.
Qed.

Lemma vector_policies live cs : item_policies (vector live cs) = candidate_policies cs.
Proof.
  unfold vector, item_policies, candidate_policies. rewrite omap_app.
  assert (∀ l : list LiveAttempt, omap (λ i, match i with ItemCandidate c => policy_of (workload_class c) | ItemLive _ => None end)
    (map ItemLive l) = []) as -> by (by induction l).
  cbn. by induction cs as [|c cs IH]; cbn; [|rewrite <- IH].
Qed.

Lemma vector_count live cs :
  match count_items (vector live cs) [] [] with
  | inr (counts, policies) =>
      Forall authorised (vector live cs) ∧ policies = candidate_policies cs ∧
      ∀ name, count_family name counts = family_load name (vector live cs)
  | inl d =>
      admitted d = false ∧ ∃ l1 i l2, vector live cs = l1 ++ i :: l2 ∧ Forall authorised l1 ∧ ¬ authorised i ∧ clearable d = is_live i
  end.
Proof.
  pose proof (count_items_spec (vector live cs) [] []) as H. destruct (count_items _ _ _) as [d|[counts policies]]; [done|].
  destruct H as (? & -> & Hc). rewrite vector_policies. done.
Qed.

Lemma admitted_decision failed b : admitted (_decision failed b) = true ↔ failed = [].
Proof. apply bool_decide_eq_true. Qed.

Section Decision.
  Context (cpus : Z) (cs : list Candidate) (live : list LiveAttempt)
    (snapshots : res (option (HostSnapshot * HostSnapshot))) (now : float).

Definition vector_fits : Prop :=
  cs ≠ [] ∧ NoDup (map task_id cs) ∧ Forall authorised (vector live cs) ∧
  ∀ name, family_load name (vector live cs) <= FAMILY_TARGET.

(** A decision is that of the telemetry when the vector fits, and otherwise is
    taken without looking at the host. *)
Lemma decision_cases d :
  _under_admission cpus cs live snapshots now = Ok d →
  (vector_fits ∧
     ((∃ first second, snapshots = Ok (Some (first, second)) ∧ sound_pair first second ∧
         d = _decision (failed_telemetry cpus (candidate_policies cs) first second now) (forallb calibrated (candidate_policies cs))) ∨
      (admitted d = false ∧ clearable d = true ∧ ∀ first second, snapshots = Ok (Some (first, second)) → ¬ sound_pair first second))) ∨
  (admitted d = false ∧ ¬ vector_fits ∧
     ((cs = [] ∨ ¬ NoDup (map task_id cs)) ∧ clearable d = false ∨
      (∃ l1 i l2, vector live cs = l1 ++ i :: l2 ∧ Forall authorised l1 ∧ ¬ authorised i ∧ clearable d = is_live i) ∨
      (NoDup (map task_id cs) ∧ cs ≠ [] ∧ Forall authorised (vector live cs) ∧ ∃ name, FAMILY_TARGET < family_load name (vector live cs) ∧
         (clearable d = false → FAMILY_TARGET < occurrences name (families_of cs)) ∧
         (clearable d = true → ∀ name, occurrences name (families_of cs) <= FAMILY_TARGET ∨ family_load name (vector live cs) <= FAMILY_TARGET)))).
Proof.
  unfold _under_admission. destruct (bool_decide (cs = []) || _) eqn:E1.
  { intros [= <-]. right. split; [done|]. apply orb_true_iff in E1. rewrite bool_decide_eq_true, negb_true_iff, bool_decide_eq_false in E1.
    split; [|by left]. intros (? & ? & _). naive_solver. }
  bool_inv. fold (vector live cs). pose proof (vector_count live cs) as Hv.
  destruct (count_items _ _ _) as [d'|[counts policies]].
  { intros [= ->]. right. destruct Hv as (? & l1 & i & l2 & E & ? & ? & ?). split; [done|]. split; [|right; left; by exists l1, i, l2].
    intros (_ & _ & Hall & _). rewrite E in Hall. apply Forall_app in Hall as [_ [? _]%Forall_cons]. done. }
  destruct Hv as (Hall & -> & Hc). destruct (negb (bool_decide (over_cap counts = []))) eqn:Eo; bool_inv.
  { intros [= <-]. right. split; [done|]. destruct (over_cap counts) as [|n0 l0] eqn:El; [done|]. rewrite <- El in *.
    assert (Hn0 : FAMILY_TARGET < family_load n0 (vector live cs)) by (rewrite <- Hc; apply over_cap_elem; rewrite El; by left).
    split; [intros (_ & _ & _ & Hn); specialize (Hn n0); lia|]. right; right. split_and!; [done..|].
    destruct (forallb (λ name, occurrences name (families_of cs) <=? FAMILY_TARGET) (over_cap counts)) eqn:Ef; cbn [clearable _decision].
    - exists n0. split_and!; [done|done|]. intros _ name. rewrite forallb_forall in Ef.
      destruct (Z.le_gt_cases (family_load name (vector live cs)) FAMILY_TARGET) as [?|Hgt]; [by right|left].
      apply Z.leb_le, Ef, list_elem_of_In, over_cap_elem. by rewrite Hc.
    - apply not_true_iff_false in Ef. rewrite forallb_forall in Ef.
      assert (∃ name, name ∈ over_cap counts ∧ FAMILY_TARGET < occurrences name (families_of cs)) as (name & Hin & Hgt).
      { destruct (decide (Exists (λ name, FAMILY_TARGET < occurrences name (families_of cs)) (over_cap counts))) as [H'|H'].
        - apply Exists_exists in H' as (? & ? & ?). eauto.
        - destruct Ef. intros name Hin. apply Z.leb_le, Z.nlt_ge. intros ?. destruct H'. apply Exists_exists. exists name.
          split; [by apply list_elem_of_In|done]. }
      exists name. split_and!; [rewrite <- Hc; by apply over_cap_elem|done|done]. }
  assert (Hfit : vector_fits) by (split_and!; [done..|]; intros name; rewrite <- Hc; by apply over_cap_nil).
  intros Hd. left. split; [done|]. revert Hd. destruct snapshots as [[[first second]|]|e]; [|intros [= <-]; right; by split_and!..].
  intros (v1 & Hv1 & Hd)%bind_Ok. apply bind_Ok in Hd as (v2 & Hv2 & Hd). destruct (_ || _) eqn:Es; injection Hd as <-.
  - right. split_and!; [done..|]. intros f s [= <- <-] (? & ? & ? & ? & ?). assert (v1 = true) as -> by congruence.
    assert (v2 = true) as -> by congruence. cbn in Es. rewrite !orb_true_iff, !negb_true_iff, !Z.eqb_neq in Es. lia.
  - left. exists first, second. bool_inv. subst. done.
Qed.

End Decision.

(** A decision admits exactly when the vector fits and two sound snapshots of
    the same host show room. *)
Lemma under_admission_exact cpus cs live snapshots now d :
  _under_admission cpus cs live snapshots now = Ok d →
  admitted d = true ↔
    vector_fits cs live ∧ ∃ first second, snapshots = Ok (Some (first, second)) ∧ sound_pair first second ∧
      has_room cpus (candidate_policies cs) first second now.
Proof.
  intros H. destruct (decision_cases _ _ _ _ _ _ H) as [(Hfit & [(f & s & -> & Hp & ->)|(Hd & _ & Hbad)])|(Hd & Hnot & _)].
  - rewrite admitted_decision, failed_nil. split; [by eauto 10|]. by intros (_ & f' & s' & [= <- <-] & _ & ?).
  - split; [congruence|]. intros (_ & f & s & E & Hp & _). destruct (Hbad f s E Hp).
  - split; [congruence|]. by intros [? _].
Qed.

(** ** The whole admission *)

Lemma occurrences_nonneg name l : 0 <= occurrences name l.
Proof. unfold occurrences. lia. Qed.

(** The packet of a candidate is the regular file whose digest it names. *)
Definition bound (h : Host) (fs : files) (c : Candidate) : Prop :=
  ∃ ino body, node_at h fs (packet_path c) = Some (Regular ino body) ∧ sha256_hex (file_bytes body) = packet_sha256 c.

Lemma binding_unchanged h fs cs : bool_decide (is_Some (_binding_changed h fs cs)) = false ↔ Forall (bound h fs) cs.
Proof.
  rewrite bool_decide_eq_false, <- eq_None_not_Some. unfold _binding_changed, bound. induction cs as [|c cs IH]; [done|].
  cbn [List.find]. rewrite Forall_cons. destruct (node_at h fs (packet_path c)) as [[]|];
    try (cbn; split; [done|]; by intros ((? & ? & ? & _) & _)).
  case_bool_decide as Hd; cbn [negb].
  - rewrite IH. split; [|by intros [_ ?]]. intros ?. split; [|done]. eauto.
  - cbn. split; [done|]. intros ((? & ? & [= <- <-] & ?) & _). done.
Qed.

Lemma scan_Ok {A} (b : bool) k msg (m : res A) a :
  (raise_if b k msg;; m) = Ok a ↔ b = false ∧ m = Ok a.
Proof. destruct b; cbn; naive_solver. Qed.

(** C18. Admission is exact, against the board its scan found.  An answer admits the
    vector exactly when every packet is bound to its digest before the scan and again
    after the telemetry; the scan succeeds; the vector is a non-empty set of
    well-formed candidates that leaves no family above four, the attempts the scan
    found live included; and two sound snapshots of one host show room: fresh and 2
    to 5 seconds apart, little swapping, every policy calibrated, projected memory
    within 85 percent, pressure above every class threshold, and disk, processes,
    load and run queue within their limits.  The digest of the vector is answered
    with it.  Nothing is promised of a launch decided meanwhile. *)
Theorem vector_admitted_exact h fs later repo cpus cs snapshots now d :
  admit_vector h fs later repo cpus cs snapshots now = Ok d →
  (admitted d = true ↔
    Forall (bound h fs) cs ∧ Forall (bound h later) cs ∧
    ∃ live, discover_live_attempts h fs repo = Ok live ∧
      cs ≠ [] ∧ NoDup (map task_id cs) ∧ Forall authorised (vector live cs) ∧
      (∀ name, family_load name (vector live cs) <= 4) ∧
      ∃ first second, snapshots = Ok (Some (first, second)) ∧ sound_pair first second ∧
        has_room cpus (candidate_policies cs) first second now) ∧
  (admitted d = true → candidate_vector_sha256 d = _candidate_vector_sha256 cs).
Proof.
  unfold admit_vector. destruct (raise_if _ _ _;; discover_live_attempts h fs repo) as [live|e] eqn:Hscan.
  - apply scan_Ok in Hscan as [Hb%binding_unchanged Hlive]. intros (dec & Hdec & H)%bind_Ok.
    pose proof (under_admission_exact _ _ _ _ _ _ Hdec) as Hx. unfold vector_fits in Hx.
    destruct (admitted dec && bool_decide (is_Some (_binding_changed h later cs))) eqn:Hl; injection H as <-; cbn [admitted _decision candidate_vector_sha256].
    + split; [|done]. split; [done|]. intros (_ & Hlater%binding_unchanged & _). by rewrite Hlater, andb_false_r in Hl.
    + split; [|done]. rewrite Hx. split.
      * intros Ha. pose proof (proj2 Hx Ha) as Had. rewrite Had in Hl. apply binding_unchanged in Hl.
        destruct Ha as ((? & ? & ? & ?) & ?). split_and!; [done..|]. by exists live.
      * intros (_ & _ & live' & Hlive' & ? & ? & ? & ? & ?). rewrite Hlive in Hlive'. injection Hlive' as <-. done.
  - destruct (bool_decide (exn_kind e ∈ _)); [|done]. intros [= <-]. split; [|done]. split; [done|]. intros (Hb%binding_unchanged & _ & live & Hlive & _).
    assert ((raise_if (bool_decide (is_Some (_binding_changed h fs cs))) HostStateError "candidate packet binding changed";;
      discover_live_attempts h fs repo) = Ok live) as E by (by apply scan_Ok). congruence.
Qed.

(** ** What queueing and refusing promise *)

Definition idle (t : Z) : HostSnapshot :=
  {| captured_at := float_lit t; physical_bytes := 2 ^ 50; resident_bytes := 0; pressure_free_percent := float_lit 100;
     pressure_level := "normal"; swap_total_bytes := 0; swap_free_bytes := 0; swapins := 0; pageouts := 0; swapouts := 0;
     compressions := 0; load_average_1m := float_lit 0; runnable_processes := 0; free_disk_bytes := 2 ^ 50;
     process_count := 0; pid_limit := 2 ^ 40 |}.

Lemma sum_bound (f : WorkloadPolicy → Z) ps b :
  Forall (λ p, 0 <= f p <= b) ps → 0 <= sum_Z (map f ps) <= b * Z.of_nat (length ps).
Proof. induction 1 as [|p ps ? _ IH]; cbn [map sum_Z fold_right length]; [lia|]. unfold sum_Z in IH. lia. Qed.

Lemma max_bound (f : WorkloadPolicy → Z) ps b : 0 <= b → Forall (λ p, f p <= b) ps → max_Z (map f ps) <= b.
Proof.
  intros Hb H. unfold max_Z. destruct H as [|p ps Hp H]; [done|]. cbn. revert Hp. generalize (f p).
  induction H as [|q ps Hq _ IH]; intros z Hz; cbn; [done|]. apply IH. lia.
Qed.

Lemma max_float_in (P : float → Prop) l : P (float_lit 0) → Forall P l → P (max_float l).
Proof.
  intros H0 H. unfold max_float. destruct H as [|x l Hx H]; [done|]. revert x Hx.
  induction H as [|y l Hy _ IH]; intros x Hx; cbn; [done|]. apply IH. unfold float_max. by destruct (float_gtb y x).
Qed.

Lemma policy_facts ps :
  Forall (λ p, p ∈ WORKLOAD_POLICIES.*2) ps →
  Forall (λ p, 0 <= float_trunc (float_mul (float_lit (p95_rss_bytes p)) (float_ratio 125 100)) <= 4 * GIB) ps ∧
  Forall (λ p, reserve_bytes p <= 4 * GIB) ps ∧ Forall (λ p, 0 <= expected_processes p <= 128) ps ∧
  Forall (λ x, float_gtb x (float_lit 100) = false) (map pressure_floor_percent ps).
Proof.
  intros H. rewrite Forall_map. rewrite <- !Forall_and. eapply Forall_impl; [exact H|]. intros p Hp.
  enough (Forall (λ p, (0 <= float_trunc (float_mul (float_lit (p95_rss_bytes p)) (float_ratio 125 100)) <= 4 * GIB) ∧
    reserve_bytes p <= 4 * GIB ∧ 0 <= expected_processes p <= 128 ∧ float_gtb (pressure_floor_percent p) (float_lit 100) = false)
    WORKLOAD_POLICIES.*2) as Hf by (rewrite Forall_forall in Hf; by apply Hf).
  apply (Forall_impl (λ p, bool_decide (0 <= float_trunc (float_mul (float_lit (p95_rss_bytes p)) (float_ratio 125 100)) <= 4 * GIB ∧
    reserve_bytes p <= 4 * GIB ∧ 0 <= expected_processes p <= 128 ∧ float_gtb (pressure_floor_percent p) (float_lit 100) = false) = true)).
  - repeat constructor; vm_compute; reflexivity.
  - intros q Hq. by apply bool_decide_eq_true in Hq.
Qed.

(** An idle host has room for any calibrated vector of at most sixteen. *)
Lemma idle_room ps :
  Forall (λ p, p ∈ WORKLOAD_POLICIES.*2) ps → Forall (λ p, calibrated p = true) ps → (length ps <= 16)%nat →
  has_room 8 ps (idle 1) (idle 3) (float_lit 4).
Proof.
  intros Hin Hcal Hlen. destruct (policy_facts ps Hin) as (Hp & Hr & He & Hf).
  pose proof (max_bound reserve_bytes ps (4 * GIB) ltac:(done) Hr) as Hres.
  assert (Hbudget : float_trunc (float_mul (float_lit (2 ^ 50)) (float_ratio 85 100)) = 957014920816230) by (vm_compute; reflexivity).
  assert (Hused : float_trunc (float_mul (float_lit (2 ^ 50)) (float_sub (float_lit 1) (float_div (float_lit 100) (float_lit 100)))) = 0)
    by (vm_compute; reflexivity).
  assert (Hpids : float_trunc (float_mul (float_lit (2 ^ 40)) (float_ratio 80 100)) = 879609302220) by (vm_compute; reflexivity).
  constructor; cbn [captured_at swapins swapouts physical_bytes pressure_level pressure_free_percent free_disk_bytes pid_limit
    process_count load_average_1m runnable_processes idle].
  - split; vm_compute; reflexivity.
  - split; vm_compute; reflexivity.
  - lia.
  - vm_compute; reflexivity.
  - vm_compute; reflexivity.
  - done.
  - unfold projected_bytes. cbn [physical_bytes pressure_free_percent idle]. rewrite Hused, Hbudget.
    pose proof (sum_bound _ ps _ Hp). unfold GIB in *. lia.
  - split; [by_decide|]. apply (max_float_in (λ x, float_gtb x (float_lit 100) = false)); [vm_compute; reflexivity|done].
  - unfold GIB in *. lia.
  - rewrite Hpids. pose proof (sum_bound _ ps _ He). lia.
  - vm_compute; reflexivity.
  - lia.
Qed.

Lemma candidate_families cs : map item_family (map ItemCandidate cs) = families_of cs.
Proof. induction cs as [|c cs IH]; [done|]. cbn. by rewrite IH. Qed.

Lemma load_candidates name live cs : occurrences name (families_of cs) <= family_load name (vector live cs).
Proof.
  unfold family_load, vector. rewrite map_app, occurrences_app, candidate_families.
  pose proof (occurrences_nonneg name (map item_family (map ItemLive live))). lia.
Qed.

Lemma fits_alone cs live :
  cs ≠ [] → NoDup (map task_id cs) → Forall authorised (vector live cs) →
  (∀ name, occurrences name (families_of cs) <= FAMILY_TARGET) → vector_fits cs [].
Proof.
  intros Hne Hnd Hall Hc. unfold vector_fits, vector. cbn [map app]. split_and!; [done..| |].
  - by apply Forall_app in Hall as [_ ?].
  - intros name. unfold family_load. rewrite candidate_families. apply Hc.
Qed.

Lemma families_total l :
  Forall (λ n, n ∈ ["anthropic"; "openai"; "google"; "xai"]) l →
  Z.of_nat (length l) = occurrences "anthropic" l + occurrences "openai" l + occurrences "google" l + occurrences "xai" l.
Proof.
  induction 1 as [|n l Hn _ IH]; [done|]. rewrite !occurrences_cons. cbn [length].
  repeat (apply elem_of_cons in Hn as [->|Hn]; [repeat case_decide; try done; lia|]). by apply elem_of_nil in Hn.
Qed.

(** At most sixteen candidates fit: four in each of the four families. *)
Lemma fits_length cs : vector_fits cs [] → (length cs <= 16)%nat.
Proof.
  intros (_ & _ & Hall & Hc). unfold vector in *. cbn [map app] in *.
  assert (Hf : Forall (λ n, n ∈ ["anthropic"; "openai"; "google"; "xai"]) (families_of cs)).
  { clear Hc. induction cs as [|c cs IH]; [constructor|]. cbn in Hall. apply Forall_cons in Hall as [([f Hl] & _) Hall].
    constructor; [|by apply IH]. unfold candidate_family. cbn [item_lane] in Hl. rewrite Hl. cbn [default]. unfold id.
    assert (Hin : f ∈ LANE_FAMILY.*2).
    { apply dict_get_elem in Hl; [|by_decide]. by apply (list_elem_of_fmap_2 snd _ (lane c, f)). }
    clear -Hin. unfold LANE_FAMILY in Hin. cbn in Hin. set_unfold. naive_solver. }
  pose proof (families_total _ Hf) as Ht. unfold families_of in Ht at 1. rewrite length_map in Ht.
  assert (H : ∀ n, occurrences n (families_of cs) <= 4) by (intros n; specialize (Hc n); unfold family_load in Hc; by rewrite candidate_families in Hc).
  pose proof (H "anthropic"). pose proof (H "openai"). pose proof (H "google"). pose proof (H "xai"). lia.
Qed.

Lemma policies_known cs : Forall (λ p, p ∈ WORKLOAD_POLICIES.*2) (candidate_policies cs).
Proof.
  apply Forall_forall. intros p Hp. apply list_elem_of_omap in Hp as (c & _ & Hp). unfold policy_of in Hp.
  apply dict_get_elem in Hp; [|by_decide]. by apply (list_elem_of_fmap_2 snd _ (workload_class c, p)).
Qed.

Lemma policies_length cs : (length (candidate_policies cs) <= length cs)%nat.
Proof.
  unfold candidate_policies. induction cs as [|c cs IH]; [done|].
  change (omap _ (c :: cs)) with (match policy_of (workload_class c) with
    | Some p => p :: candidate_policies cs | None => candidate_policies cs end).
  fold (candidate_policies cs) in IH. destruct (policy_of (workload_class c)); cbn [length]; lia.
Qed.

(** Queueing and refusing are honest.  A refused vector is refused for good:
    no live attempts, telemetry or time ever admit it.  A queued vector whose
    policies are all calibrated, behind live attempts that are themselves well
    formed, is admitted by an idle host once those attempts have ended. *)
Theorem waiting_is_honest cpus cs live snapshots now d :
  _under_admission cpus cs live snapshots now = Ok d →
  (action d = "refuse" → ∀ cpus' live' snapshots' now' d',
     _under_admission cpus' cs live' snapshots' now' = Ok d' → admitted d' = false) ∧
  (action d = "queue" → Forall authorised (map ItemLive live) →
     Forall (λ p, calibrated p = true) (candidate_policies cs) →
     ∃ cpus' snapshots' now' d', _under_admission cpus' cs [] snapshots' now' = Ok d' ∧ action d' = "admit").
Proof.
  intros H. pose proof (decision_cases _ _ _ _ _ _ H) as Hcases. split.
  - intros Ha cpus' live' snapshots' now' d' H'. unfold action in Ha.
    destruct (admitted d) eqn:Ead; [done|]. destruct (clearable d) eqn:Ecl; [done|]. clear Ha.
    apply not_true_iff_false. intros Had'. apply (under_admission_exact _ _ _ _ _ _ H') in Had' as ((Hne & Hnd & Hall & Hload) & f & s & _ & _ & Hroom).
    destruct Hcases as [(_ & [(f0 & s0 & _ & _ & ->)|(_ & ? & _)])|(_ & _ & [[[?|?] _]|[(l1 & i & l2 & E & _ & Hi & Hlive)|(_ & _ & _ & name & _ & Hover & _)]])];
      [|congruence|done|done| |].
    + cbn in Ecl. apply not_true_iff_false in Ecl. destruct Ecl. apply forallb_forall, List.Forall_forall, Hroom.
    + assert (Hin : i ∈ vector live cs) by (rewrite E; apply elem_of_app; right; by left).
      destruct Hi. unfold vector in *. apply elem_of_app in Hin as [(a & -> & _)%list_elem_of_fmap|Hin]; [by cbn in Hlive; congruence|].
      rewrite Forall_forall in Hall. apply Hall, elem_of_app. by right.
    + pose proof (load_candidates name live' cs). specialize (Hload name). specialize (Hover eq_refl). lia.
  - intros Ha Hlive Hcal. unfold action in Ha. destruct (admitted d) eqn:Ead; [done|]. destruct (clearable d) eqn:Ecl; [|done].
    assert (Hfit : vector_fits cs []).
    { destruct Hcases as [((Hne & Hnd & Hall & Hload) & _)|(_ & _ & [[_ ?]|[(l1 & i & l2 & E & _ & Hi & Hl)|(Hnd & Hne & Hall & name & _ & _ & Hle)]])];
        [|congruence| |].
      - eapply fits_alone; [done..|]. intros name. specialize (Hload name). pose proof (load_candidates name live cs). lia.
      - assert (Hin : i ∈ vector live cs) by (rewrite E; apply elem_of_app; right; by left). destruct Hi. unfold vector in Hin.
        apply elem_of_app in Hin as [Hin|(c & -> & _)%list_elem_of_fmap]; [|by cbn in Hl; congruence].
        rewrite Forall_forall in Hlive. by apply Hlive.
      - eapply fits_alone; [done..|]. intros n. pose proof (load_candidates n live cs). destruct (Hle eq_refl n); lia. }
    assert (Hd : ∃ d', _under_admission 8 cs [] (Ok (Some (idle 1, idle 3))) (float_lit 4) = Ok d').
    { unfold _under_admission. destruct (_ || _); [by eexists|]. destruct (count_items _ _ _) as [|[? ?]]; [by eexists|].
      destruct (negb _); [by eexists|]. 
      assert (_snapshot_schema_valid (idle 1) = Ok true) as -> by (vm_compute; reflexivity).
      assert (_snapshot_schema_valid (idle 3) = Ok true) as -> by (vm_compute; reflexivity). res_simpl. case_match; by eexists. }
    destruct Hd as [d' Hd']. exists 8, (Ok (Some (idle 1, idle 3))), (float_lit 4), d'. split; [done|].
    assert (admitted d' = true) as Had; [|by unfold action; rewrite Had]. apply (under_admission_exact _ _ _ _ _ _ Hd'). split; [done|].
    exists (idle 1), (idle 3). split; [done|]. split; [split_and!; vm_compute; reflexivity|].
    apply idle_room; [apply policies_known|done|]. pose proof (policies_length cs). pose proof (fits_length _ Hfit). lia.
Qed.

(** ** Reaping unblocks the board *)

Lemma examine_dead h fs path d p :
  cleared h (still fs) (Reap path) d p → examine h fs path = Err (Exn HostStateError "unresolved").
Proof.
  intros [[ino Hl] He Hv (z & Hz & Ho & Hc) Ha _]. cbn [dispatch_of receipt_of at_receipt at_reads still] in *.
  assert (Hd : load_json h fs path = JObj d).
  { unfold _locked, load_json in *. cbn [at_open at_lock still] in *. destruct (node_at h fs path) as [[]|]; try done. res_inv. done. }
  destruct (vd_receipt _ _ _ Hv) as (r & Hr & _). destruct (vd_context _ _ _ Hv) as (c & Hctx). destruct (vd_task _ _ _ Hv) as (t & Ht).
  unfold examine. rewrite Hd. cbn [is_dict jget andb]. rewrite (vd_schema _ _ _ Hv).
  replace (py_eq (JStr DESCRIPTOR_V2) (JStr DESCRIPTOR_V1)) with false by done. rewrite He.
  assert (Hitem : ∀ k s, dget k d = JStr s → item k (JObj d) = Ok (JStr s)).
  { intros k s. unfold item, dget. by destruct (dict_get k d); intros [= ->]. }
  rewrite (Hitem _ _ Hr). rewrite bind_ret. rewrite Hr in Ha. cbv zeta. rewrite Ha, (Hitem _ _ Hctx), bind_ret. rewrite Hctx in Hc.
  rewrite Hc. cbn [negb]. rewrite raise_if_false, bind_ret.
  unfold process_truth. rewrite He, Hz, Ho, !bind_ret. done.
Qed.

Lemma published_other h m c d p fs path :
  published h m c d p fs → is_Some (node_at h (at_publish m) path) → node_at h fs path = node_at h (at_publish m) path.
Proof.
  intros [Hn ->] [n Hp]. unfold node_at in *. rewrite lookup_insert_ne; [done|]. intros E. rewrite E in Hn. congruence.
Qed.

Lemma examine_reaped h fs path d p fs' :
  clock_ok (now h) → cleared h (still fs) (Reap path) d p → published h (still fs) (Reap path) d p fs' →
  Z.of_nat (String.length (receipt_text p)) <= MAX_JSON_BYTES → examine h fs' path = Ok None.
Proof.
  intros Hclk [[ino Hl] He Hv _ Ha Hr] Hpub Hlen. cbn [dispatch_of receipt_of at_receipt still] in *.
  assert (Hd : load_json h fs' path = JObj d).
  { unfold load_json. rewrite (published_other _ _ _ _ _ _ path Hpub); cbn [at_publish still];
      unfold _locked in Hl; cbn [at_open at_lock still] in Hl; destruct (node_at h fs path) as [[]|]; try done. res_inv. done. }
  destruct (vd_receipt _ _ _ Hv) as (r & Hrp & _).
  pose proof (load_published _ _ _ _ _ _ Hpub) as Hload. cbn [receipt_of] in Hload. rewrite Hrp in Hload. cbn [py_str] in Hload.
  rewrite read_receipt in Hload by apply Hr. replace (MAX_JSON_BYTES <? _) with false in Hload by lia.
  unfold examine. rewrite Hd. cbn [is_dict jget andb]. rewrite (vd_schema _ _ _ Hv).
  replace (py_eq (JStr DESCRIPTOR_V2) (JStr DESCRIPTOR_V1)) with false by done. rewrite He.
  assert (item "receipt_path" (JObj d) = Ok (JStr r)) as ->.
  { unfold item. revert Hrp. unfold dget. by destruct (dict_get "receipt_path" d); intros [= ->]. }
  rewrite bind_ret. cbv zeta. cbn [py_str]. rewrite Hload.
  assert (lexists h fs' r = true) as ->.
  { unfold lexists. destruct Hpub as [_ ->]. unfold node_at. cbn [receipt_of]. rewrite Hrp. cbn [py_str]. by rewrite lookup_insert_eq. }
  by erewrite receipt_recognised.
Qed.

Lemma map_res_is_ok {A B} (f : A → res B) l : is_ok (map_res f l) = true ↔ Forall (λ x, is_ok (f x) = true) l.
Proof.
  induction l as [|x l IH]; cbn; [done|]. rewrite Forall_cons, <- IH. destruct (f x) as [y|e]; cbn; [|naive_solver].
  destruct (map_res f l); cbn; naive_solver.
Qed.

Lemma discover_ok h fs repo size :
  node_at h fs (board_of repo) = Some (Directory size) →
  is_ok (discover_live_attempts h fs repo) = true ↔
    ∀ path, path ∈ dispatch_paths fs (board_of repo) → is_ok (examine h fs path) = true.
Proof.
  intros Hb. unfold discover_live_attempts. rewrite Hb. rewrite <- Forall_forall, <- map_res_is_ok.
  by destruct (map_res _ _).
Qed.

(** C34. Reaping unblocks the host.  While a dead attempt without a receipt is
    on the board, no scan of the board succeeds, so nothing is admitted; once
    the reaper has published its receipt (within the readers' bound), the scan
    succeeds as soon as every other descriptor is in order. *)
Theorem reap_unblocks h fs path repo size :
  salvage_ok h → clock_ok (now h) → publishes h (still fs) (Reap path) →
  node_at h fs (board_of repo) = Some (Directory size) → path ∈ dispatch_paths fs (board_of repo) →
  is_ok (discover_live_attempts h fs repo) = false ∧
  ∃ p, let fs' := (run_call h (still fs) (Reap path)).1 in
    (∃ d, published h (still fs) (Reap path) d p fs') ∧
    (Z.of_nat (String.length (receipt_text p)) <= MAX_JSON_BYTES →
     (∀ other, other ∈ dispatch_paths fs' (board_of repo) → other ≠ path → is_ok (examine h fs' other) = true) →
     is_ok (discover_live_attempts h fs' repo) = true).
Proof.
  intros Hs Hclk Hp Hb Hin. destruct (publishes_cleared _ _ _ Hs Hp) as (d & p & Hcl & Hpub). split.
  - apply not_true_iff_false. intros Hok. apply (discover_ok _ _ _ _ Hb) in Hin; [|done].
    by rewrite (examine_dead _ _ _ _ _ Hcl) in Hin.
  - exists p. cbv zeta. split; [by exists d|]. intros Hlen Hothers.
    assert (Hb' : node_at h (run_call h (still fs) (Reap path)).1 (board_of repo) = Some (Directory size)).
    { rewrite (published_other _ _ _ _ _ _ _ Hpub); [done|]. by eexists. }
    apply (discover_ok _ _ _ _ Hb'). intros other Ho. destruct (decide (other = path)) as [->|Hne]; [|by apply Hothers].
    by rewrite (examine_reaped _ _ _ _ _ _ Hclk Hcl Hpub Hlen).
Qed.

(** ** Witnesses *)

Definition sample_candidate (task lane class : string) : Candidate :=
  {| task_id := task; lane := lane; workload_class := class; packet_path := "/v/p.md"; packet_sha256 := sha256_hex [] |}.
Definition two : list Candidate :=
  [sample_candidate "TASK-1" "codex" "cpu-light"; sample_candidate "TASK-2" "claude" "browser-media"].
Definition idle_pair : res (option (HostSnapshot * HostSnapshot)) := Ok (Some (idle 1, idle 3)).

Example admit_two : action <$> _under_admission 8 two [] idle_pair (float_lit 4) = Ok "admit".
Proof. vm_compute. reflexivity. Qed.
Example stale_queues : action <$> _under_admission 8 two [] idle_pair (float_lit 20) = Ok "queue".
Proof. vm_compute. reflexivity. Qed.

(** An uncalibrated policy is refused only when the host was looked at: behind
    a failed telemetry read, or behind a full family, the same vector queues. *)
Example uncalibrated_queues :
  let cs := [sample_candidate "TASK-1" "codex" "security-untrusted"] in
  action <$> _under_admission 8 cs [] idle_pair (float_lit 4) = Ok "refuse" ∧
  action <$> _under_admission 8 cs [] (Ok None) (float_lit 4) = Ok "queue" ∧
  action <$> _under_admission 8 cs (repeat {| live_task_id := "T"; live_lane := "codex"; live_workload_class := "cpu-light" |} 4)
    idle_pair (float_lit 4) = Ok "queue".
Proof. split_and!; vm_compute; reflexivity. Qed.

Lemma two_admitted : ∃ d, _under_admission 8 two [] idle_pair (float_lit 4) = Ok d ∧ admitted d = true.
Proof. eexists. split; vm_compute; reflexivity. Qed.

(** Two dispatches that scan the same board are both admitted: the cap is one of
    each decision, and the two together leave a family with five attempts. *)
Example same_scan_twice :
  let live := repeat {| live_task_id := "T"; live_lane := "codex"; live_workload_class := "cpu-light" |} 3 in
  let admits task := admitted <$> _under_admission 8 [sample_candidate task "codex" "cpu-light"] live idle_pair (float_lit 4) in
  admits "TASK-1" = Ok true ∧ admits "TASK-2" = Ok true.
Proof. split; vm_compute; reflexivity. Qed.

Definition quiet_board : files :=
  <[board_of "/v" := Directory 64]> {["/v/p.md" := Regular 3 (Text "")]}.

Lemma vector_admitted_exact_witness :
  ∃ d live, admit_vector (Sample.host Sample.gone) quiet_board quiet_board "/v" 8 two idle_pair (float_lit 4) = Ok d ∧
    discover_live_attempts (Sample.host Sample.gone) quiet_board "/v" = Ok live ∧ ∀ name, family_load name (vector live two) <= 4.
Proof.
  destruct (admit_vector (Sample.host Sample.gone) quiet_board quiet_board "/v" 8 two idle_pair (float_lit 4)) as [d|e] eqn:E; [|by vm_compute in E].
  assert (Ha : admitted d = true).
  { assert (Hd : admitted <$> (Ok d : res AdmissionDecision) = Ok true) by (rewrite <- E; vm_compute; reflexivity). by injection Hd. }
  apply (vector_admitted_exact _ _ _ _ _ _ _ _ _ E) in Ha as (_ & _ & live & Hl & _ & _ & _ & Hn & _).
  exists d, live. split; [reflexivity|]. split; [exact Hl|exact Hn].
Defined.

Lemma waiting_is_honest_witness :
  ∃ cpus snapshots now d, _under_admission cpus two [] snapshots now = Ok d ∧ action d = "admit".
Proof.
  destruct (_under_admission 8 two [] idle_pair (float_lit 20)) as [d|e] eqn:E; [|by vm_compute in E].
  apply (waiting_is_honest 8 two [] idle_pair (float_lit 20) d E).
  - pose proof stale_queues as H. rewrite E in H. by injection H.
  - constructor.
  - by_decide.
Defined.

Definition dead_board : files := <[board_of "/v" := Directory 96]> Sample.board.

Lemma reap_unblocks_witness :
  is_ok (discover_live_attempts (Sample.host Sample.gone) dead_board "/v") = false.
Proof.
  apply (reap_unblocks (Sample.host Sample.gone) dead_board Sample.dispatch "/v" 96).
  - apply sample_salvage.
  - by vm_compute.
  - apply (publishes_at _ _ _ Sample.receipt); [by vm_compute|vm_compute; by eexists].
  - by vm_compute.
  - apply (bool_decide_eq_true (Sample.dispatch ∈ dispatch_paths dead_board (board_of "/v"))). vm_compute. reflexivity.
Defined.
