(* ===== verification/Registry.v ===== *)
(** * The task registry

    [registry_reconciler.py], the operations on [active-tasks.json]: loading,
    registration, the claim of a queued task by a lane or a pooled worker, and
    the explicit close and reopening of tasks.  The registry is the JSON object
    of the file; an operation runs under the file lock and returns its value or
    exception with the registry it leaves there.  The packets of a task, as one
    scan of the mailbox finds them, are an argument, and so is what its writes
    meet: each may fail before or after the file is replaced. *)
From S2P Require Import Prelude Regex Json PyText PyTime.

#[local] Open Scope Z_scope.

(** ** Data *)

Definition entry : Type := list (string * json).
Definition registry : Type := list (string * json).

Definition DELIVERY_OPEN_STATES : list string := ["queued"; "claimed"; "in-progress"].
Definition REVIEW_CLASSES : list string := ["standard"; "factual"; "security-finding"].
Definition REVIEW_TRIGGERS : list string := ["blast_radius"; "adversarial_claim"; "deciding_measurement"; "architecture"].
Definition SETTLEABLE_STATUSES : list string := ["complete"; "needs_review"; "blocked"; "needs_human"; "cancelled"].
Definition _STATUS_ALIASES : list (string * string) := [("completed", "complete"); ("canceled", "cancelled")].
Definition REVIEW_REQUIRED : string := "review-required".

Definition token_char (c : ascii) : bool := is_alnum c || char_in c "._:-".
Definition low_token_char (c : ascii) : bool := is_lower c || is_digit c || char_in c "._:-".
Definition WORKER_ID_RE : re := RSeq (RChr (λ c, is_lower c || is_digit c)) (rrep 0 127 (RChr low_token_char)).
Definition WORKER_EPOCH_RE : re := RSeq (RChr is_alnum) (rrep 0 127 (RChr token_char)).
Definition MAILBOX_TASK_RE : re :=
  RSeq (rlit "TASK-") (RSeq (RChr is_alnum) (rrep 0 127 (RChr (λ c, is_alnum c || char_in c "._-")))).

Definition invalid {A} (msg : string) : res A := Err (Exn ValueError msg).
Definition check (ok : bool) (msg : string) : res unit := raise_if (negb ok) ValueError msg.

(** [int(s)] of a string: signs, and digits with single underscores between. *)
Fixpoint int_digits (seen : bool) (acc : Z) (s : string) : option Z :=
  match s with
  | "" => if seen then Some acc else None
  | String c s =>
      if is_digit c then int_digits true (10 * acc + (code c - 48)) s
      else if bool_decide (c = "_"%char) && seen then int_digits false acc s
      else None
  end.
Definition int_text (s : string) : option Z :=
  match py_strip s with
  | String "-" s => Z.opp <$> int_digits false 0 s
  | String "+" s => int_digits false 0 s
  | s => int_digits false 0 s
  end.
Definition py_int (v : json) : res Z :=
  match v with
  | JInt z => Ok z
  | JBool b => Ok (if b then 1 else 0)
  | JStr s => match int_text s with Some z => Ok z | None => invalid "invalid literal for int()" end
  | _ => Err (Exn TypeError "int() argument must be a string or a number")
  end.
(** [int(v or d)] *)
Definition int_or (v : json) (d : Z) : res Z := if truthy v then py_int v else Ok d.

(** [a or b] on values. *)
Definition jor (a b : json) : json := if truthy a then a else b.
Definition get_str (k : string) (e : entry) : string := str_or_empty (dget k e).

(** [parse_dt]: local microseconds and the offset, if the text has one. *)
Definition parse_dt (v : json) : option (Z * option Z) :=
  if truthy v then fromisoformat (replace_Z (py_str v)) else None.
(** [now >= t] and [t < now] with an aware [now]; a naive [t] is the [TypeError]. *)
Definition not_before (now : Z) (t : Z * option Z) : res bool :=
  match t with
  | (local, Some off) => Ok (local - off <=? now)
  | (_, None) => Err (Exn TypeError "can't compare offset-naive and offset-aware datetimes")
  end.

(** ** Loading *)

Variant stored := Absent | NotUtf8 | Stored (text : string).

Definition load_registry (file : stored) : res registry :=
  match file with
  | Absent => Ok []
  | NotUtf8 => Err (Exn RegistryCorruptError "active-tasks.json is not valid UTF-8")
  | Stored text =>
      match loads text with
      | None => Err (Exn RegistryCorruptError "active-tasks.json is not valid JSON")
      | Some (JObj r) => Ok r
      | Some _ => Err (Exn RegistryCorruptError "active-tasks.json is not a JSON object")
      end
  end.

(** ** Review policy of an entry *)

Definition canonical_review_class (value : json) : res string :=
  match value with
  | JStr s =>
      check (negb (bool_decide (py_strip s = ""))) "missing an explicit review_class";;
      let canonical := py_lower (py_strip s) in
      check (bool_decide (canonical ∈ REVIEW_CLASSES)) "invalid review_class";;
      Ok canonical
  | _ => invalid "missing an explicit review_class"
  end.

Fixpoint all_strings (l : list json) : option (list string) :=
  match l with
  | [] => Some []
  | JStr s :: l => match all_strings l with Some ss => Some (s :: ss) | None => None end
  | _ :: _ => None
  end.

Definition canonical_review_triggers (value : json) : res (list string) :=
  match value with
  | JList l =>
      match all_strings l with
      | None => invalid "review_triggers must be a list of strings"
      | Some items =>
          check (bool_decide (NoDup items)) "review_triggers contains duplicate values";;
          check (forallb (λ t, bool_decide (t ∈ REVIEW_TRIGGERS)) items) "review_triggers contains unknown value(s)";;
          Ok items
      end
  | _ => invalid "review_triggers must be a list of strings"
  end.

(** [str(entry.get("mandatory_review", "")).strip().lower() == "true"] *)
Definition mandatory_flag (e : entry) : bool :=
  bool_decide (py_lower (py_strip (py_str (default (JStr "") (dict_get "mandatory_review" e)))) = "true").
Definition requires_review_class (e : entry) : bool := mandatory_flag e.

Definition is_null (v : json) : bool := match v with JNull => true | _ => false end.

Definition packet_declares_review (e : entry) : bool :=
  let raw_triggers := dget "review_triggers" e in
  if is_null raw_triggers then mandatory_flag e
  else match canonical_review_triggers raw_triggers with
       | Err _ => true
       | Ok triggers => mandatory_flag e || negb (bool_decide (triggers = []))
       end.

Definition resolve_worker_status (e : entry) (reported_status : string) : string * bool :=
  if bool_decide (reported_status = "needs_review") && negb (packet_declares_review e) then ("complete", true)
  else (reported_status, false).

Definition valid_response_status (status : string) : bool := bool_decide (status ∈ SETTLEABLE_STATUSES).
Definition registry_status (raw : string) : string :=
  let status := py_strip raw in
  let status := default status (dict_get status _STATUS_ALIASES) in
  if valid_response_status status then status else "".

(** ** Identities *)

Definition _lane (value : json) : string :=
  let lane := py_lower (py_strip (str_or_empty value)) in
  if bool_decide (lane = "codex") then "gpt-codex" else lane.
Definition _delivery_lane (e : entry) : string := str_or_empty (jor (dget "delivery_lane" e) (dget "to_model" e)).

Definition apply_worker_schema_defaults (e : entry) : entry :=
  let e := dict_default "delivery_worker_id" JNull e in
  let e := dict_default "worker_epoch" JNull e in
  let e := dict_default "lease_generation" (JInt 0) e in
  let e := dict_default "lease_expires_at" JNull e in
  let e := dict_default "heartbeat_observed_at" JNull e in
  let e := dict_default "member_id" JNull e in
  let e := dict_default "replica_index" JNull e in
  let e := dict_default "priority_class" (JStr "normal") e in
  dict_default "enqueued_at" (dget "dispatched_at" e) e.

(** The replica a member id of [lane] names. *)
Definition member_replica (lane member : string) : option Z :=
  rest ← (if char_in ":" lane then None else drop_prefix (lane +:+ ":") member);
  let digits := match drop_prefix "sub" rest with Some d => Some d | None => drop_prefix "r" rest end in
  match digits with
  | Some (String a (String b "")) => if is_digit a && is_digit b then int_text (String a (String b "")) else None
  | _ => None
  end.

Definition validate_member_identity (e : entry) : res unit :=
  let member_id := dget "member_id" e in
  let replica := dget "replica_index" e in
  if is_null member_id || py_eq member_id (JStr "") then check (is_null replica) "replica_index requires member_id"
  else
    let lane := _delivery_lane e in
    match (if bool_decide (lane = "") then None else member_replica lane (py_str member_id)) with
    | None => invalid "member_id must be <lane>:rNN or <lane>:subNN and match delivery lane"
    | Some expected =>
        if is_null replica then Ok tt
        else n ← py_int replica; check (n =? expected) "replica_index does not match member_id"
    end.

Definition _stored_review_class (e : entry) : json :=
  match dget "review_class" e with
  | JStr s => if bool_decide (py_lower (py_strip s) ∈ REVIEW_CLASSES) then JStr (py_lower (py_strip s)) else JStr s
  | v => v
  end.

(** [tuple(value or ())] *)
Definition as_tuple (value : json) : res (list json) :=
  if truthy value then
    match value with
    | JList l => Ok l
    | JStr s => Ok (map (λ c, JStr (String c "")) (String.list_ascii_of_string s))
    | JObj d => Ok (map JStr d.*1)
    | _ => Err (Exn TypeError "object is not iterable")
    end
  else Ok [].

(** The tuple, as the list of its components. *)
Definition _dispatch_identity (e : entry) : res (list json) :=
  scope ← as_tuple (dget "write_scope" e);
  triggers ← as_tuple (dget "review_triggers" e);
  Ok [dget "specialist" e; dget "to_model" e; dget "source_namespace" e; dget "return_artifact" e; JList scope;
      dget "capability_card_sha256" e; dget "verification_contract_sha256" e; dget "review_model" e;
      dget "mandatory_review" e; JList triggers; _stored_review_class e; dget "swarm_spec_sha256" e; dget "reviews" e].
Definition same_dispatch (a b : entry) : res bool :=
  i ← _dispatch_identity a; j ← _dispatch_identity b; Ok (py_eq (JList i) (JList j)).

(** ** Packets *)

(** The text between the fences, [None] when there are none: the opening line's
    white space may run over blank lines, longest first. *)
Definition closes (t : string) : bool :=
  str_existsb (λ c, bool_decide (c = LF)) (take_while py_isspace t) || bool_decide (drop_while py_isspace t = "").
Fixpoint front_body (s : string) : option string :=
  if startswith s (String LF "---") && closes (str_drop 4 s) then Some ""
  else match s with "" => None | String c s => match front_body s with Some b => Some (String c b) | None => None end end.
Fixpoint front_match (s : string) : option string :=
  match s with
  | "" => None
  | String c s =>
      if py_isspace c then
        match front_match s with
        | Some b => Some b
        | None => if bool_decide (c = LF) then front_body s else None
        end
      else None
  end.

Fixpoint front_fields (reject_duplicates : bool) (lines : list string) (meta : list (string * string)) :
    list (string * string) :=
  match lines with
  | [] => meta
  | line :: lines =>
      if char_in ":" line then
        let key := py_strip (take_while (λ c, negb (bool_decide (c = ":"%char))) line) in
        let value := py_strip (str_drop 1 (drop_while (λ c, negb (bool_decide (c = ":"%char))) line)) in
        let unquote q v := rstrip_by (λ c, bool_decide (c = q)) (lstrip_by (λ c, bool_decide (c = q)) v) in
        if reject_duplicates && dict_has key meta then []
        else front_fields reject_duplicates lines (dict_set key (unquote single_quote (unquote quote_char value)) meta)
      else front_fields reject_duplicates lines meta
  end.

Definition strip_frontmatter (reject_duplicates : bool) (text : string) : list (string * string) :=
  match (rest ← drop_prefix "---" text; front_match rest) with
  | Some body => front_fields reject_duplicates (splitlines body) []
  | None => []
  end.
Definition meta_get (k : string) (meta : list (string * string)) : string := default "" (dict_get k meta).

Definition _validated_review_target (value : json) : res string :=
  match value with
  | JStr s =>
      let target := py_strip s in
      check (negb (bool_decide (target = ""))) "invalid reviews provenance value";;
      check (fullmatch MAILBOX_TASK_RE target) "invalid reviews provenance task id";;
      Ok target
  | _ => invalid "invalid reviews provenance value"
  end.

(** The targets the packets of one scan name, each once. *)
Fixpoint observed_targets (packets : list string) (observed : list string) : res (list string) :=
  match packets with
  | [] => Ok observed
  | text :: packets =>
      let loose := strip_frontmatter false text in
      let strict := strip_frontmatter true text in
      check (negb (negb (bool_decide (meta_get "reviews" loose = "")) && bool_decide (strict = [])))
        "review task packet has ambiguous frontmatter";;
      if bool_decide (meta_get "reviews" strict = "") then observed_targets packets observed
      else
        target ← _validated_review_target (JStr (meta_get "reviews" strict));
        observed_targets packets (if decide (target ∈ observed) then observed else observed ++ [target])
  end.

(** [_packet_review_target]: the scans of the mailbox, in turn. *)
Fixpoint _packet_review_target (scans : list (list string)) : res string :=
  match scans with
  | [] => Ok ""
  | packets :: scans =>
      observed ← observed_targets packets [];
      match observed with
      | [] => _packet_review_target scans
      | [target] => Ok target
      | _ => invalid "review task packet copies disagree on reviews provenance"
      end
  end.

Definition _project_review_packet_provenance (scans : list (list string)) (e : entry) : res (string * entry) :=
  let raw_stored := dget "reviews" e in
  stored ← (if is_null raw_stored then Ok "" else _validated_review_target raw_stored);
  packet ← _packet_review_target scans;
  check (bool_decide (stored = "") || bool_decide (packet = "") || bool_decide (stored = packet))
    "review task registry provenance conflicts with its task packet";;
  Ok (if bool_decide (packet = "") then (stored, e) else (packet, dict_set "reviews" (JStr packet) e)).

(** ** Registration *)

Definition with_triggers (e : entry) : res entry :=
  if dict_has "review_triggers" e then
    triggers ← canonical_review_triggers (dget "review_triggers" e);
    let e := dict_set "review_triggers" (JList (map JStr triggers)) e in
    check (bool_decide (negb (bool_decide (triggers = [])) = mandatory_flag e)) "review_triggers and mandatory_review disagree";;
    Ok e
  else Ok e.

Definition with_review_class (e : entry) : res entry :=
  if requires_review_class e || negb (is_null (dget "review_class" e)) then
    cls ← canonical_review_class (dget "review_class" e); Ok (dict_set "review_class" (JStr cls) e)
  else Ok e.

(** ** Writing *)

(** What one [atomic_write] meets: it returns; it raises before the temporary
    file takes the place of the file; or it raises after, as the directory does
    not sync. *)
Variant write_answer := Landed | Unwritten | Unsynced.
#[export] Instance write_answer_eq_dec : EqDecision write_answer.
Proof. solve_decision. Defined.
(** The answers to the registry's write and to those of the queue. *)
Record Storage := { registry_write : write_answer; queue_writes : list write_answer }.
Definition reliable : Storage := {| registry_write := Landed; queue_writes := [] |}.

Definition write_failed {A} : res A := Err (Exn OSError "atomic_write").
(** The answer of an operation that writes [new] over [old]. *)
Definition write_registry {A} (w : write_answer) (old new : registry) (answer : res A) : res A * registry :=
  match w with Landed => (answer, new) | Unwritten => (write_failed, old) | Unsynced => (write_failed, new) end.

(** One line of the coordinator's queue: status, task and summary. *)
Definition queue_line : Type := string * string * string.
(** [append_chrono_queue] of each line: the first that raises ends it. *)
Fixpoint append_chrono_queue (answers : list write_answer) (lines : list queue_line) : res unit * list queue_line :=
  match lines with
  | [] => (Ok tt, [])
  | line :: lines =>
      match hd Landed answers with
      | Landed => let '(done, landed) := append_chrono_queue (tail answers) lines in (done, line :: landed)
      | Unwritten => (write_failed, [])
      | Unsynced => (write_failed, [line])
      end
  end.
(** The queue lines that follow a write, if it returned. *)
Definition announce (answers : list write_answer) (lines : list queue_line) (saved : res bool * registry) :
    res bool * (registry * list queue_line) :=
  match saved with
  | (Ok b, r) => let '(done, landed) := append_chrono_queue answers lines in (done;; Ok b, (r, landed))
  | (Err err, r) => (Err err, (r, []))
  end.

(** The entry as [register_task] prepares it before it takes the lock. *)
Definition prepared_entry (scans : list (list string)) (e : entry) : res entry :=
  e ← with_triggers e;
  e ← with_review_class e;
  '(_, e) ← _project_review_packet_provenance scans e;
  let e := apply_worker_schema_defaults e in
  validate_member_identity e;; Ok e.

(** What registering over [existing] does: [None] keeps it, [Some e] replaces it. *)
Definition reregister (existing e : entry) : res (option entry) :=
  let existing_target := dget "reviews" existing in
  let incoming_target := dget "reviews" e in
  let conflict same := check same "conflicting task re-registration";; Ok None in
  if is_null existing_target && negb (is_null incoming_target) then
    let enriched := dict_set "reviews" incoming_target existing in
    same ← same_dispatch enriched e;
    if (same : bool) then Ok (Some enriched) else (same ← same_dispatch existing e; conflict same)
  else if negb (is_null existing_target) && is_null incoming_target then
    same ← same_dispatch existing (dict_set "reviews" existing_target e);
    if (same : bool) then Ok None else (same ← same_dispatch existing e; conflict same)
  else same ← same_dispatch existing e; conflict same.

Definition register_task (w : write_answer) (scans : list (list string)) (task_id : string) (e : entry) (r : registry) :
    res bool * registry :=
  match prepared_entry scans e with
  | Err err => (Err err, r)
  | Ok e =>
      match dget task_id r with
      | JNull => write_registry w r (dict_set task_id (JObj e) r) (Ok true)
      | JObj existing =>
          match reregister existing e with
          | Err err => (Err err, r)
          | Ok None => (Ok false, r)
          | Ok (Some enriched) => write_registry w r (dict_set task_id (JObj enriched) r) (Ok false)
          end
      | _ => (invalid "conflicting task re-registration", r)
      end
  end.

(** ** Delivery *)

Definition delivery_open (e : entry) : bool :=
  bool_decide (get_str "status" e = "in-flight") &&
  match dget "delivery_state" e with JStr s => bool_decide (s ∈ DELIVERY_OPEN_STATES) | _ => false end.

(** [state in DELIVERY_OPEN_STATES] of a list or an object is a [TypeError]. *)
Definition hashable (v : json) : bool := match v with JList _ | JObj _ => false | _ => true end.

(** The tasks of [lane] still to be delivered, with their dispatch times. *)
Fixpoint lane_candidates (lane : string) (r : registry) : res (list (string * string)) :=
  match r with
  | [] => Ok []
  | (task_id, JObj e) :: r =>
      if bool_decide (_delivery_lane e = lane) && bool_decide (get_str "status" e = "in-flight") then
        raise_if (negb (hashable (dget "delivery_state" e))) TypeError "unhashable type";;
        rest ← lane_candidates lane r;
        Ok (if delivery_open e then (get_str "dispatched_at" e, task_id) :: rest else rest)
      else lane_candidates lane r
  | _ :: r => lane_candidates lane r
  end.

Definition pair_leb (a b : string * string) : bool :=
  if decide (a.1 = b.1) then str_leb a.2 b.2 else str_leb a.1 b.1.
Fixpoint pair_min (m : string * string) (l : list (string * string)) : string * string :=
  match l with [] => m | x :: l => pair_min (if pair_leb m x then m else x) l end.
Definition _delivery_head (r : registry) (lane : string) : res (option string) :=
  candidates ← lane_candidates lane r;
  Ok match candidates with [] => None | c :: l => Some (pair_min c l).2 end.

Definition _worker_fence (e : entry) (task_id : string) : res entry :=
  generation ← int_or (dget "delivery_generation" e) 1;
  lease ← int_or (dget "lease_generation" e) 0;
  Ok [("task_id", JStr task_id); ("delivery_attempt_id", JStr (get_str "delivery_attempt_id" e));
      ("delivery_generation", JInt generation); ("delivery_worker_id", JStr (get_str "delivery_worker_id" e));
      ("worker_epoch", JStr (get_str "worker_epoch" e)); ("lease_generation", JInt lease);
      ("delivery_lane", JStr (_delivery_lane e)); ("lease_expires_at", JStr (get_str "lease_expires_at" e));
      ("member_id", dget "member_id" e); ("replica_index", dget "replica_index" e)].

(** [entry.setdefault(key, []).append(item)] *)
Definition append_to (key : string) (item : json) (e : entry) : res entry :=
  match default (JList []) (dict_get key e) with
  | JList l => Ok (dict_set key (JList (l ++ [item])) e)
  | _ => Err (Exn AttributeError "append")
  end.

(** The entry when the delivery was still open; the retired stub is a file. *)
Definition mark_delivery_terminal (now : Z) (reason : string) (e : entry) : res (option entry) :=
  if negb (truthy (dget "delivery_attempt_id" e)) || py_eq (dget "delivery_state" e) (JStr "terminal") then Ok None
  else
    let e := dict_set "delivery_state" (JStr "terminal") e in
    let e := dict_set "delivery_terminal_at" (JStr (isoformat_utc now)) e in
    let e := dict_del "delivery_next_attempt_at" e in
    generation ← int_or (dget "delivery_generation" e) 1;
    e ← append_to "delivery_history"
      (JObj [("event", JStr "terminal"); ("at", JStr (isoformat_utc now)); ("attempt_id", dget "delivery_attempt_id" e);
             ("generation", JInt generation); ("reason", JStr reason)]) e;
    Ok (Some e).

(** ** Claiming *)

(** What the caller of [claim_task] passes. *)
Record ClaimArgs := {
  attempt_id : string;
  worker_id : option string;
  worker_epoch : option string;
  lease_generation : option Z;
  claim_lane : option string
}.

Definition opt_json (s : option string) : json := match s with Some s => JStr s | None => JNull end.
Definition _validate_worker_token (value : option string) (pattern : re) (msg : string) : res string :=
  let token := py_strip (default "" value) in check (fullmatch pattern token) msg;; Ok token.

(** The fence of a pooled worker: identity, epoch, lease and lane. *)
Definition worker_checks (a : ClaimArgs) (e : entry) : res string :=
  worker ← _validate_worker_token (worker_id a) WORKER_ID_RE "invalid worker_id";
  epoch ← _validate_worker_token (worker_epoch a) WORKER_EPOCH_RE "invalid worker_epoch";
  match lease_generation a with
  | None => invalid "worker claim requires lease_generation"
  | Some lease =>
      let claimed_lane := _lane (opt_json (claim_lane a)) in
      check (bool_decide (worker = get_str "delivery_worker_id" e)) "worker assignment mismatch";;
      check (bool_decide (epoch = get_str "worker_epoch" e)) "stale worker epoch";;
      current ← int_or (dget "lease_generation" e) 0;
      check (lease =? current) "stale lease generation";;
      check (negb (bool_decide (claimed_lane = "")) && bool_decide (claimed_lane = _delivery_lane e)) "worker lane mismatch";;
      Ok worker
  end.

Definition lease_expired (now : Z) (e : entry) : res bool :=
  match parse_dt (dget "lease_expires_at" e) with None => Ok true | Some t => not_before now t end.

(** Another task of the worker that is still open. *)
Definition busy_with (worker task_id : string) (kv : string * json) : bool :=
  match kv.2 with
  | JObj other =>
      negb (bool_decide (kv.1 = task_id)) && bool_decide (get_str "delivery_worker_id" other = worker) &&
      bool_decide (get_str "status" other = "in-flight") && bool_decide (get_str "delivery_state" other ∈ DELIVERY_OPEN_STATES)
  | _ => false
  end.

Definition expired_entry (now : Z) (e : entry) : res entry :=
  marked ← mark_delivery_terminal now "worker-lease-expired-at-claim" e;
  let e := default e marked in
  let e := dict_set "worker_assignment_state" (JStr "expired") e in
  let e := dict_set "worker_cancel_reason" (JStr "worker-lease-expired-at-claim") e in
  Ok (dict_set "worker_cancelled_at" (JStr (isoformat_utc now)) e).

(** The history row of a claim, and the entry in progress. *)
Definition claimed_row (now : Z) (attempt : string) (generation : Z) (pooled : bool) (e : entry) : res json :=
  worker ← (if pooled then
              lease ← int_or (dget "lease_generation" e) 0;
              Ok [("worker_id", dget "delivery_worker_id" e); ("worker_epoch", dget "worker_epoch" e); ("lease_generation", JInt lease)]
            else Ok []);
  Ok (JObj ([("event", JStr "claimed"); ("at", JStr (isoformat_utc now)); ("attempt_id", JStr attempt);
             ("generation", JInt generation)] ++ worker)).

Definition started_entry (now : Z) (attempt : string) (pooled : bool) (generation : Z) (e : entry) : res entry :=
  let e := dict_default "delivery_history" (JList []) e in
  let e := dict_set "delivery_state" (JStr "claimed") e in
  let e := dict_set "claimed_at" (jor (dget "claimed_at" e) (JStr (isoformat_utc now))) e in
  row ← claimed_row now attempt generation pooled e;
  e ← append_to "delivery_history" row e;
  let e := dict_set "delivery_state" (JStr "in-progress") e in
  let e := if pooled then dict_set "worker_assignment_state" (JStr "in-progress") e else e in
  let e := dict_set "started_at" (jor (dget "started_at" e) (JStr (isoformat_utc now))) e in
  append_to "delivery_history"
    (JObj [("event", JStr "in-progress"); ("at", JStr (isoformat_utc now)); ("attempt_id", JStr attempt);
           ("generation", JInt generation)]) e.

(** The last part of a claim, after the fences: only a queued task in flight,
    and without a pool only the head of its lane. *)
Definition start_claim (now : Z) (task_id : string) (a : ClaimArgs) (pooled : bool) (e : entry) (r : registry) :
    res (entry * entry) :=
  check (bool_decide (get_str "delivery_state" e = "queued")) "task cannot be claimed from delivery state";;
  check (bool_decide (get_str "status" e = "in-flight")) "task cannot be claimed from registry status";;
  head ← (if pooled then Ok (Some task_id) else _delivery_head r (_delivery_lane e));
  check (bool_decide (head = Some task_id)) "task is not the head of lane";;
  generation ← int_or (dget "delivery_generation" e) 1;
  e' ← started_entry now (attempt_id a) pooled generation e;
  fence ← (if pooled then _worker_fence e' task_id else Ok []);
  Ok (dict_update fence
        [("task_id", JStr task_id); ("attempt_id", JStr (attempt_id a)); ("generation", JInt generation);
         ("delivery_state", JStr "in-progress"); ("idempotent", JBool false)], e').

Definition again (task_id : string) (a : ClaimArgs) (pooled : bool) (e : entry) : res entry :=
  fence ← (if pooled then _worker_fence e task_id else Ok [("task_id", JStr task_id)]);
  Ok (dict_update fence
        [("attempt_id", JStr (attempt_id a)); ("delivery_state", JStr "in-progress"); ("idempotent", JBool true)]).

Definition claim_task (w : write_answer) (now : Z) (task_id : string) (a : ClaimArgs) (r : registry) : res entry * registry :=
  let start pooled e :=
    match start_claim now task_id a pooled e r with
    | Ok (answer, e') => write_registry w r (dict_set task_id (JObj e') r) (Ok answer)
    | Err err => (Err err, r)
    end in
  match dget task_id r with
  | JObj e =>
      if negb (bool_decide (attempt_id a = get_str "delivery_attempt_id" e)) then (invalid "stale delivery attempt", r)
      else
        let state := get_str "delivery_state" e in
        if truthy (dget "delivery_worker_id" e) then
          match worker_checks a e with
          | Err err => (Err err, r)
          | Ok worker =>
              match lease_expired now e with
              | Err err => (Err err, r)
              | Ok true =>
                  if bool_decide (state ∈ DELIVERY_OPEN_STATES) then
                    match expired_entry now e with
                    | Err err => (Err err, r)
                    | Ok e' => write_registry w r (dict_set task_id (JObj e') r) (invalid "worker lease expired")
                    end
                  else (invalid "worker lease expired", r)
              | Ok false =>
                  if existsb (busy_with worker task_id) r then (invalid "worker already has active task", r)
                  else if bool_decide (state = "in-progress") then (again task_id a true e, r)
                  else start true e
              end
          end
        else if bool_decide (state = "in-progress") then (again task_id a false e, r)
        else start false e
  | _ => (invalid "unknown registry task", r)
  end.

(** ** Closing *)

Definition CLOSE_STATUSES : list string := ["superseded"; "closed"].

Variant disposition := CLOSE_ALREADY | CLOSE_CLOSED.

(** The ids, stripped, none empty and none twice. *)
Fixpoint close_ids (raw : list string) (seen : list string) : res (list string) :=
  match raw with
  | [] => Ok seen
  | raw_task_id :: raw =>
      let task_id := py_strip raw_task_id in
      check (negb (bool_decide (task_id = ""))) "--close-task task ids must be non-empty";;
      check (negb (bool_decide (task_id ∈ seen))) "duplicate --close-task id";;
      close_ids raw (seen ++ [task_id])
  end.

(** The preflight of one member: the refusal, or whether it changes. *)
Definition close_preflight (reason target : string) (r : registry) (task_id : string) : res (entry * bool) :=
  match dget task_id r with
  | JObj e =>
      let current := get_str "status" e in
      let closed_by who := py_eq (dget "lifecycle_closed_by" e) (JStr who) in
      if bool_decide (current ∈ CLOSE_STATUSES) then
        if bool_decide (current = target) && bool_decide (target = "closed") && closed_by "registry-reconciler-auto" then Ok (e, false)
        else if bool_decide (current = target) && py_eq (dget "closure_reason" e) (JStr reason) && closed_by "chrono-explicit"
        then Ok (e, false)
        else invalid "task is already terminal lifecycle status"
      else match dget "closure_history" e with
           | JNull | JList _ => Ok (e, true)
           | _ => invalid "task has malformed closure_history"
           end
  | _ => invalid "unknown registry task"
  end.

Definition closed_entry (now : Z) (reason target : string) (e : entry) : res entry :=
  let current := JStr (get_str "status" e) in
  let at_ := JStr (isoformat_utc now) in
  let by_ := JStr "chrono-explicit" in
  e ← append_to "closure_history"
    (JObj [("at", at_); ("from_status", current); ("to_status", JStr target); ("reason", JStr reason); ("by", by_)]) e;
  Ok (dict_update e
        [("status", JStr target); ("lifecycle_closed_at", at_); ("lifecycle_closed_by", by_);
         ("closed_from_status", current); ("closure_reason", JStr reason)]).

Fixpoint close_all (now : Z) (reason target : string) (prepared : list (string * (entry * bool))) (r : registry) : res registry :=
  match prepared with
  | [] => Ok r
  | (_, (_, false)) :: prepared => close_all now reason target prepared r
  | (task_id, (e, true)) :: prepared =>
      e' ← closed_entry now reason target e;
      close_all now reason target prepared (dict_set task_id (JObj e') r)
  end.

(** The members as judged, or the refusal of the whole batch. *)
Definition close_judged (reason target : string) (r : registry) (ids : list string) : res (list (string * (entry * bool))) :=
  match map_res (λ id : string, pair id <$> close_preflight reason target r id) ids with
  | Ok prepared => Ok prepared
  | Err err => Err (Exn BatchCloseRefused (exn_msg err))
  end.

Definition close_batch (now : Z) (raw : list string) (reason target : string) (r : registry) :
    res (list (string * disposition) * registry) :=
  check (bool_decide (target ∈ CLOSE_STATUSES)) "--close-status must be superseded or closed";;
  let reason := py_join " " (py_words reason) in
  check (negb (bool_decide (reason = ""))) "--close-reason must be non-empty";;
  check (negb (bool_decide (raw = []))) "--close-task requires at least one task id";;
  ids ← close_ids raw [];
  prepared ← close_judged reason target r ids;
  r' ← close_all now reason target prepared r;
  Ok (map (λ p : string * (entry * bool), (p.1, if p.2.2 then CLOSE_CLOSED else CLOSE_ALREADY)) prepared, r').

Definition any_closed (report : list (string * disposition)) : bool :=
  existsb (λ m, match m.2 with CLOSE_CLOSED => true | CLOSE_ALREADY => false end) report.

(** One write commits every member; what follows it is recorded, never raised. *)
Definition close_task (w : write_answer) (now : Z) (raw : list string) (reason target : string) (r : registry) :
    res (list (string * disposition)) * registry :=
  match close_batch now raw reason target r with
  | Ok (report, r') => if any_closed report then write_registry w r r' (Ok report) else (Ok report, r)
  | Err err => (Err err, r)
  end.

(** ** Reopening *)

Definition REOPEN_STATUSES : list string := ["needs_review"; "needs_rework"].

Definition reopened_entry (now : Z) (target : string) (e : entry) : res entry :=
  let at_ := JStr (isoformat_utc now) in
  let row := JObj
    [("at", at_); ("from_status", JStr (get_str "status" e)); ("to_status", JStr target);
     ("completed_at", dget "completed_at" e); ("review_settled_at", dget "review_settled_at" e);
     ("review_settled_by", dget "review_settled_by" e);
     ("review_ref", jor (dget "review_ref" e) (dget "cross_family_review_ref" e)); ("verdict", dget "verdict" e)] in
  let current := JStr (get_str "status" e) in
  e ← match default (JList []) (dict_get "reopen_history" e) with
      | JList l => Ok (dict_set "reopen_history" (JList (l ++ [row])) e)
      | _ => invalid "task has malformed reopen_history"
      end;
  count ← int_or (dget "reopen_count" e) 0;
  Ok (dict_update e
        [("status", JStr target); ("completed_at", JNull); ("review_settled_at", JNull);
         ("review_settled_by", JStr "chrono-reopened"); ("reopened_at", at_); ("reopened_by", JStr "chrono-explicit");
         ("reopened_from_status", current); ("reopen_count", JInt (count + 1))]).

Definition reopen_target (target_status : option string) (e : entry) : string :=
  let stored_verdict := py_upper (py_strip (get_str "verdict" e)) in
  match target_status with
  | Some target => target
  | None =>
      if negb (bool_decide (stored_verdict = "")) && negb (bool_decide (stored_verdict = "APPROVE"))
      then "needs_rework" else "needs_review"
  end.

Definition reopen_entry (now : Z) (target_status : option string) (e : entry) : res (option entry) :=
  let target := reopen_target target_status e in
  let current := get_str "status" e in
  if bool_decide (current = target) && py_eq (dget "reopened_by" e) (JStr "chrono-explicit") then Ok None
  else
    check (bool_decide (current = "complete")) "task is not explicitly settled complete";;
    e' ← reopened_entry now target e; Ok (Some e').

Definition reopened_line (target_status : option string) (task_id : string) (e : entry) : queue_line :=
  let stored_verdict := py_upper (py_strip (get_str "verdict" e)) in
  ("REVIEW-REOPENED", "coding/" +:+ task_id,
   "explicit Chrono reopen -> " +:+ reopen_target target_status e +:+ "; verdict=" +:+
   (if bool_decide (stored_verdict = "") then "MISSING" else stored_verdict)).

Definition reopen_task (s : Storage) (now : Z) (task_id : string) (target_status : option string) (r : registry) :
    res bool * (registry * list queue_line) :=
  let ok := match target_status with
            | Some target => check (bool_decide (target ∈ REOPEN_STATUSES)) "--reopen-status must be needs_review or needs_rework"
            | None => Ok tt
            end in
  match ok, dget task_id r with
  | Err err, _ => (Err err, (r, []))
  | Ok _, JObj e =>
      match reopen_entry now target_status e with
      | Err err => (Err err, (r, []))
      | Ok None => (Ok false, (r, []))
      | Ok (Some e') =>
          announce (queue_writes s) [reopened_line target_status task_id e]
            (write_registry (registry_write s) r (dict_set task_id (JObj e') r) (Ok true))
      end
  | Ok _, _ => (invalid "unknown registry task", (r, []))
  end.
