(* ===== verification/Settlement.v ===== *)
(** * Review settlement

    [registry_reconciler.py], [settle_review]: the explicit settlement of a held
    task by a review by the configured reviewer or the coordinator, with the choice of the landed
    response, the checks of its fences, the three kinds of review and their
    provenance, the verdict and its fallback in the review's artifact.  The
    files of the vault are those of [ProcessTruth] and stay as they are during
    a call; a path written by a person or an entry is taken after [expanduser];
    no path runs through a regular file; modification times are whole
    microseconds.  A settlement returns its value or exception, the registry on
    disk and the lines that reached the coordinator's queue. *)
From S2P Require Import Prelude Regex Sha256 Json Posix PyText PyTime Contract ProcessTruth Registry.

#[local] Open Scope Z_scope.

Definition LANE_AUTHOR_FAMILY : list (string * string) :=
  [("gpt-codex", "openai"); ("claude", "anthropic"); ("gemini", "google"); ("grok", "xai")].
Definition INVALID_REVIEW_LANE : string := "distinct-family-review-required".

(** ** Files *)

(** The vault as one call finds it: the names under [departments], the
    modification times, the specialist map if it can be read, the least age of
    a response, the clock when responses are judged and when the entry is
    settled, and the outcome of the memory promotion. *)
Record World := {
  host : Host;
  disk : files;
  vault : string;
  state_dir : string;
  departments : list string;
  modified : string → Z;
  min_age : Z;
  runtime_map : option string;
  read_clock : Z;
  settle_clock : Z;
  memory_promotion_message : string → string → string → option (string * string)
}.

Definition found (w : World) (rel : string) : option node := node_at (host w) (disk w) (path_div (vault w) rel).
(** [path.is_file() and not path.is_symlink()] *)
Definition regular (w : World) (rel : string) : bool := match found w rel with Some (Regular _ _) => true | _ => false end.

Definition read_text (w : World) (rel : string) : res string :=
  match found w rel with
  | None => Ok ""
  | Some (Regular _ (Text s)) => Ok (universal_newlines s)
  | Some (Regular _ (Binary _)) => invalid "'utf-8' codec can't decode"
  | Some _ => Err (Exn OSError "read")
  end.
Definition read_meta (w : World) (strict : bool) (rel : string) : res (list (string * string)) :=
  text ← read_text w rel; Ok (strip_frontmatter strict text).
Definition file_sha256 (w : World) (rel : string) : res string :=
  match found w rel with Some (Regular _ c) => Ok (sha256_hex (file_bytes c)) | _ => Err (Exn OSError "read") end.

Definition _canonical_mailbox_label : string := "coding".
Definition mailbox_path (department state filename : string) : string :=
  "departments/" +:+ department +:+ "/" +:+ state +:+ "/" +:+ filename.
Definition mailbox_filename (task_id : string) (response : bool) : string :=
  task_id +:+ (if response then "-response.md" else ".md").
Definition canonical_mailbox_relative (state task_id : string) (response : bool) : string :=
  mailbox_path _canonical_mailbox_label state (mailbox_filename task_id response).

Definition _mailbox_file_candidates (w : World) (state task_id : string) (response : bool) : res (list string) :=
  check (fullmatch MAILBOX_TASK_RE task_id) "invalid mailbox task id";;
  let canonical := canonical_mailbox_relative state task_id response in
  let legacy := map (λ d, mailbox_path d state (mailbox_filename task_id response)) (sort_strings (departments w)) in
  Ok (canonical :: List.filter (λ p, negb (bool_decide (p = canonical)) &&
                                     match found w p with Some _ => true | None => false end) legacy).

Definition task_packet_candidates (w : World) (task_id : string) : res (list string) :=
  groups ← map_res (λ state, _mailbox_file_candidates w state task_id false) ["inbox"; "active"; "archive"];
  Ok (List.filter (regular w) (concat groups)).

(** The two scans of the task's packets. *)
Definition packet_scans (w : World) (task_id : string) : res (list (list string)) :=
  packets ← task_packet_candidates w task_id;
  texts ← map_res (read_text w) packets; Ok [texts; texts].

(** ** The landed response *)

Variant rail := V1 | V2 | Invalid.
#[export] Instance rail_eq_dec : EqDecision rail.
Proof. solve_decision. Defined.

Definition board_rows (history : list json) : list json :=
  List.filter (λ row, py_eq (jget "event" row) (JStr "in-progress") && py_eq (jget "transport" row) (JStr "board-supervisor"))
    history.

(** [generation = 1 if raw is None else raw], when it is an [int]. *)
Definition entry_generation (e : entry) : option Z :=
  match dget "delivery_generation" e with JNull => Some 1 | JInt z => Some z | _ => None end.

Definition names_generation (attempt : string) (generation : Z) (row : json) : bool :=
  py_eq (jget "attempt_id" row) (JStr attempt) && match jget "generation" row with JInt z => z =? generation | _ => false end.

Definition descriptor_path (w : World) (task_id : string) (e : entry) : string :=
  path_div (path_div (state_dir w) "board-dispatch") (task_id +:+ "." +:+ get_str "delivery_attempt_id" e +:+ ProcessTruth.suffix).

(** The rail the descriptor itself declares. *)
Definition descriptor_rail (w : World) (path : string) (generation : Z) (boarded : bool) : rail :=
  match node_at (host w) (disk w) path with
  | Some (Regular _ _) =>
      let payload := load_json (host w) (disk w) path in
      match descriptor_error (cwd (host w)) path payload false with
      | Some _ => Invalid
      | None =>
          if negb (py_eq (jget "generation" payload) (JInt generation)) then Invalid
          else if py_eq (jget "schema" payload) (JStr DESCRIPTOR_V1) then (if generation =? 1 then V1 else Invalid)
          else if py_eq (jget "schema" payload) (JStr DESCRIPTOR_V2) then (if boarded then V2 else Invalid)
          else Invalid
      end
  | _ => Invalid
  end.

Definition settlement_process (w : World) (task_id : string) (e : entry) : rail :=
  match (match dget "delivery_history" e with JNull => Some [] | JList l => Some l | _ => None end) with
  | None => Invalid
  | Some history =>
      let board_history := board_rows history in
      let descriptor := descriptor_path w task_id e in
      if bool_decide (board_history = []) && negb (lexists (host w) (disk w) descriptor) then V1
      else match entry_generation e with
           | None => Invalid
           | Some generation =>
               if generation <? 1 then Invalid
               else if negb (bool_decide (board_history = [])) &&
                       negb (existsb (names_generation (get_str "delivery_attempt_id" e) generation) board_history)
               then Invalid
               else descriptor_rail w descriptor generation (negb (bool_decide (board_history = [])))
           end
  end.

Definition response_ready (w : World) (path : string) (schema : rail) : bool :=
  match schema with
  | V2 => regular w path
  | _ => match found w path with None => false | Some _ => min_age w <=? read_clock w - modified w path end
  end.

(** Newest first, then the greatest path. *)
Definition newer (w : World) (a b : string) : bool :=
  if decide (modified w a = modified w b) then str_leb b a else modified w b <=? modified w a.

Definition response_candidates (w : World) (task_id : string) (schema : rail) : res (list string) :=
  match schema with
  | V2 => outbox ← _mailbox_file_candidates w "outbox" task_id true; Ok (List.filter (regular w) outbox)
  | Invalid => Ok []
  | V1 =>
      outbox ← _mailbox_file_candidates w "outbox" task_id true;
      archive ← _mailbox_file_candidates w "archive" task_id true;
      Ok (sort_by (newer w) (remove_dups (List.filter (regular w) (outbox ++ archive))))
  end.

Definition response_status (w : World) (path : string) : res string :=
  meta ← read_meta w false path; Ok (registry_status (meta_get "status" meta)).

(** A response of the board's supervisor names its task and its attempt. *)
Definition names_attempt (task_id : string) (e : entry) (meta : list (string * string)) : bool :=
  bool_decide (dict_get "id" meta = Some (task_id +:+ "-response")) &&
  bool_decide (dict_get "in_response_to" meta = Some task_id) && bool_decide (dict_get "type" meta = Some "RESULT") &&
  bool_decide (dict_get "delivery_attempt_id" meta = Some (get_str "delivery_attempt_id" e)) &&
  bool_decide (dict_get "delivery_generation" meta = Some (py_str (dget "delivery_generation" e))).

Fixpoint landed_response (w : World) (task_id : string) (candidates : list string) (schema : rail) (e : entry) :
    res (option (string * string)) :=
  match candidates with
  | [] => Ok None
  | candidate :: candidates =>
      if negb (response_ready w candidate schema) then landed_response w task_id candidates schema e
      else
        named ← match schema with
                | V2 => meta ← read_meta w true candidate; Ok (names_attempt task_id e meta)
                | _ => Ok true
                end;
        if negb named then landed_response w task_id candidates schema e
        else
          status ← response_status w candidate;
          if valid_response_status status then Ok (Some (candidate, status))
          else landed_response w task_id candidates schema e
  end.

(** ** The fences of the response *)

Definition _authority_attempt_fence_echoed (e : entry) (meta : list (string * string)) : bool :=
  let attempt := get_str "delivery_attempt_id" e in
  match entry_generation e with
  | Some generation =>
      negb (bool_decide (attempt = "")) && bool_decide (py_strip (meta_get "delivery_attempt_id" meta) = attempt) &&
      bool_decide (py_strip (meta_get "delivery_generation" meta) = str_of_int generation)
  | None => false
  end.

Definition ECHO_ABSENT : string := "missing capability_card_sha256 echo".

(** The blocking issue and the advisory, empty when there is none. *)
Definition capability_pin_echo (w : World) (e : entry) (response : string) : res (string * string) :=
  let pinned := py_strip (get_str "capability_card_sha256" e) in
  if bool_decide (pinned = "") then Ok ("", "")
  else
    text ← read_text w response;
    let echoed := py_strip (meta_get "capability_card_sha256" (strip_frontmatter false text)) in
    if bool_decide (echoed = "") then
      if _authority_attempt_fence_echoed e (strip_frontmatter true text) then Ok ("", ECHO_ABSENT)
      else Ok ("missing capability_card_sha256 echo, and no launch-authority attempt fence", "")
    else if bool_decide (echoed = pinned) then Ok ("", "") else Ok ("capability_card_sha256 mismatch", "").

Definition worker_lease_absence (e : entry) : string :=
  if negb (truthy (dget "delivery_worker_id" e)) then ""
  else match parse_dt (dget "lease_expires_at" e) with Some _ => "" | None => "assigned worker task is missing lease_expires_at" end.

Fixpoint echo_issue (meta : list (string * string)) (expected : list (string * string)) : string :=
  match expected with
  | [] => ""
  | (key, value) :: expected =>
      let observed := py_strip (meta_get key meta) in
      if bool_decide (observed = "") then "missing worker-fence echo"
      else if bool_decide (observed = value) then echo_issue meta expected else "worker-fence mismatch"
  end.
Fixpoint echo_int_issue (meta : list (string * string)) (expected : list (string * Z)) : string :=
  match expected with
  | [] => ""
  | (key, value) :: expected =>
      let observed := py_strip (meta_get key meta) in
      if bool_decide (observed = "") then "missing worker-fence echo"
      else match int_text observed with
           | None => "invalid worker-fence echo"
           | Some parsed => if parsed =? value then echo_int_issue meta expected else "worker-fence mismatch"
           end
  end.

Definition first_issue (a b : string) : string := if bool_decide (a = "") then b else a.

(** Whether the response landed after the lease; a lease never written is none. *)
Definition landed_late (w : World) (e : entry) (response : string) (schema : rail) : res bool :=
  match parse_dt (dget "lease_expires_at" e), schema with
  | Some (local, Some off), V1 => Ok (local - off <? modified w response)
  | Some (_, None), V1 => Err (Exn TypeError "can't compare offset-naive and offset-aware datetimes")
  | _, _ => Ok false
  end.

Definition expected_strings (task_id : string) (e : entry) : list (string * string) :=
  [("in_response_to", task_id); ("delivery_attempt_id", get_str "delivery_attempt_id" e);
   ("delivery_worker_id", get_str "delivery_worker_id" e); ("worker_epoch", get_str "worker_epoch" e);
   ("delivery_lane", _delivery_lane e)].
Definition expected_ints (e : entry) : res (list (string * Z)) :=
  generation ← int_or (dget "delivery_generation" e) 1;
  lease ← int_or (dget "lease_generation" e) 0;
  replica ← (if Registry.is_null (dget "replica_index" e) then Ok []
             else n ← py_int (dget "replica_index" e); Ok [("replica_index", n)]);
  Ok ([("delivery_generation", generation); ("lease_generation", lease)] ++ replica).

Definition worker_response_issue (w : World) (task_id : string) (e : entry) (response : string) (schema : rail) : res string :=
  if negb (truthy (dget "delivery_worker_id" e)) then Ok ""
  else if bool_decide (get_str "worker_assignment_state" e ∈ ["expired"; "silent"]) || truthy (dget "worker_cancel_reason" e)
  then Ok "worker assignment is terminal"
  else
    late ← landed_late w e response schema;
    if (late : bool) then Ok "response landed after worker lease expiry"
    else
      meta ← read_meta w false response;
      let strings := echo_issue meta (expected_strings task_id e) in
      if negb (bool_decide (strings = "")) then Ok strings
      else
        ints ← expected_ints e;
        let member := if Registry.is_null (dget "member_id" e) then []
                      else [("member_id", py_str (dget "member_id" e))] in
        Ok (first_issue (echo_int_issue meta ints) (echo_issue meta member)).

(** ** Whether a review is owed *)

Definition is_terminal_review_task (contract write_scope : json) : res bool :=
  match write_scope with
  | JList [] =>
      match validate_verification_contract contract None with
      | Ok validated =>
          result_type ← in_set (dget "result_type" validated) ["review"; "verification"];
          Ok (result_type && is_false (jget "required" (dget "deliverable_review_policy" validated)))
      | Err err => if bool_decide (exn_kind err ∈ [ContractError; TypeError]) then Ok false else Err err
      end
  | _ => Ok false
  end.

Definition _has_terminal_review_contract (e : entry) : res bool :=
  terminal ← is_terminal_review_task (dget "verification_contract" e) (dget "write_scope" e);
  if negb terminal then Ok false
  else match dget "verification_contract" e with
       | JObj contract =>
           if py_eq (dget "verification_contract_sha256" e) (JStr (verification_contract_sha256 contract)) then
             match author_family_for_lane (JStr (_lane (dget "to_model" e))) with
             | Ok family => Ok (py_eq (dget "author_family" contract) (JStr family))
             | Err _ => Ok false
             end
           else Ok false
       | _ => Ok false
       end.

Definition _specialist_primary_lane (w : World) (specialist : string) : string :=
  if bool_decide (specialist = "") then ""
  else match runtime_map w with
       | None => ""
       | Some text =>
           let names line := let parts := split_char "009" line in
                             bool_decide (hd "" parts = specialist) && (7 <=? Z.of_nat (length parts)) in
           match List.find names (split_char LF (universal_newlines text)) with
           | Some line => _lane (JStr (nth 6 (split_char "009" line) ""))
           | None => ""
           end
       end.

Definition _review_class (e : entry) : res string := canonical_review_class (dget "review_class" e).

Definition triggers_require_review (e : entry) : bool :=
  let raw_triggers := dget "review_triggers" e in
  if Registry.is_null raw_triggers then false
  else match canonical_review_triggers raw_triggers with
       | Ok triggers => negb (bool_decide (triggers = []))
       | Err _ => true
       end.

Definition executing_lane (w : World) (e : entry) : string :=
  let lane := _lane (dget "to_model" e) in
  if bool_decide (lane = "") then _specialist_primary_lane w (get_str "specialist" e) else lane.

(** Whether a review is pending, the executing lane and the review lane. *)
Definition cross_family_review_pending (w : World) (e : entry) : res (bool * string * string) :=
  if negb (mandatory_flag e || triggers_require_review e) then Ok (false, "", "")
  else
    let review_lane := _lane (dget "review_model" e) in
    let lane := executing_lane w e in
    if bool_decide (review_lane ∈ [""; "none"]) then
      Ok (true, if bool_decide (lane = "") then "unknown" else lane, INVALID_REVIEW_LANE)
    else if bool_decide (lane = "") then Ok (true, "unknown", review_lane)
    else if bool_decide (lane = review_lane) then Ok (true, lane, review_lane)
    else match _review_class e with
         | Ok cls =>
             if negb (bool_decide (cls = "standard")) then Ok (true, lane, review_lane)
             else
               terminal ← _has_terminal_review_contract e;
               Ok (negb terminal, lane, review_lane)
         | Err _ => Ok (true, lane, review_lane)
         end.

Definition response_review_pending (w : World) (e : entry) (status : string) : res (bool * string * string) :=
  '(pending, lane, review_lane) ← cross_family_review_pending w e;
  if pending || negb (bool_decide (status = "needs_review")) then Ok (pending, lane, review_lane)
  else if negb (mandatory_flag e) then Ok (pending, lane, review_lane)
  else if bool_decide (review_lane ∈ [""; "none"]) || bool_decide (lane = review_lane) then Ok (pending, lane, review_lane)
  else
    terminal ← _has_terminal_review_contract e;
    if (terminal : bool) then Ok (pending, lane, review_lane) else Ok (true, lane, review_lane).

(** The hold the sweep records for a pending review. *)
Definition review_hold_reason (lane review_lane : string) : string :=
  if bool_decide (review_lane = INVALID_REVIEW_LANE) then
    "invalid mandatory-review contract: distinct-family review_model is missing"
  else if bool_decide (lane = review_lane) then
    "invalid mandatory-review anti-affinity: to_model and review_model are both " +:+ review_lane +:+
    "; redispatch with a distinct-family review_model"
  else "awaiting explicit Chrono settlement after " +:+ review_lane +:+ " review".
Definition review_hold_next_action (lane review_lane : string) : string :=
  if bool_decide (review_lane = INVALID_REVIEW_LANE) || bool_decide (lane = review_lane) then
    "Correct the packet contract and redispatch; this invalid entry cannot be review-settled"
  else "Dispatch/read the " +:+ review_lane +:+
       " review, then use registry_reconciler.py --settle-review with its review ref".

(** ** The review file and its artifact *)

Definition lower_meta (k : string) (meta : list (string * string)) : string := py_lower (py_strip (meta_get k meta)).
Definition upper_meta (k : string) (meta : list (string * string)) : string := py_upper (py_strip (meta_get k meta)).

Fixpoint strip_list (prefix l : list string) : option (list string) :=
  match prefix, l with
  | [], l => Some l
  | p :: prefix, x :: l => if decide (p = x) then strip_list prefix l else None
  | _ :: _, [] => None
  end.
(** [resolved.relative_to(root).parts] *)
Definition relative_parts (w : World) (path : string) : option (list string) :=
  strip_list (path_comps (abspath (cwd (host w)) (vault w))) (path_comps (abspath (cwd (host w)) path)).

Definition REF_MISSING : string := "--review-ref must name an existing mailbox response".
Definition REF_OUTSIDE : string := "--review-ref must name an outbox/archive response inside VAULT_ROOT".

(** The review file, by its path in the vault. *)
Definition _review_reference (w : World) (raw : string) : res string :=
  match found w raw with
  | Some (Symlink _) => invalid "--review-ref must not be a symlink"
  | None => invalid REF_MISSING
  | Some n =>
      match relative_parts w (path_div (vault w) raw) with
      | None => invalid REF_MISSING
      | Some [a; b; c; d] =>
          let file := match n with Regular _ _ => true | _ => false end in
          check (file && bool_decide (a = "departments") && bool_decide (c ∈ ["outbox"; "archive"]) &&
                 endswith d "-response.md") REF_OUTSIDE;;
          Ok (py_join "/" [a; b; c; d])
      | Some _ => invalid REF_OUTSIDE
      end
  end.

(** The task whose response a file is, by its name. *)
Definition response_task (path : string) : string :=
  let filename := path_name path in
  let tail := "-response.md" in
  if endswith filename tail then str_take (String.length filename - String.length tail) filename else "".

Definition _registry_review_artifact (w : World) (review_path : string) (r : registry)
    (response_meta : list (string * string)) : res (option string) :=
  match dget (response_task review_path) r with
  | JObj review_entry =>
      match dget "return_artifact" review_entry with
      | JNull => Ok None
      | JStr raw =>
          let declared := py_strip raw in
          check (negb (bool_decide (declared = ""))) "review task registry entry has an invalid return_artifact";;
          let response_declared := py_strip (meta_get "return_artifact" response_meta) in
          check (bool_decide (response_declared = "") || bool_decide (response_declared = declared))
            "review response return_artifact conflicts with registry provenance";;
          check (negb (bool_decide (path_comps declared = []) && negb (isabs declared)) &&
                 negb (bool_decide (".." ∈ path_comps declared)))
            "review task registry return_artifact is not a canonical in-root path";;
          match found w declared with
          | None | Some (Symlink None) => invalid "review task registry return_artifact does not exist"
          | Some (Symlink (Some _)) => invalid "review task registry return_artifact must not be a symlink"
          | Some n =>
              match relative_parts w (path_div (vault w) declared) with
              | None => invalid "review task registry return_artifact must resolve inside VAULT_ROOT"
              | Some parts =>
                  match n with
                  | Regular _ _ => Ok (if decide (py_join "/" parts = review_path) then None else Some (py_join "/" parts))
                  | _ => invalid "review task registry return_artifact must be a regular file"
                  end
              end
          end
      | _ => invalid "review task registry entry has an invalid return_artifact"
      end
  | _ => Ok None
  end.

Definition FLAT_FRONTMATTER_KEY_RE : re :=
  RSeq (RChr (λ c, is_lower c || is_upper c || bool_decide (c = "_"%char))) (RStar (RChr (λ c, is_alnum c || char_in c "_-"))).

Definition _unquote (value : string) : string :=
  let value := py_strip value in
  match value, str_rev value with
  | String a (String b rest), String z _ =>
      if bool_decide (a = z) && (bool_decide (a = quote_char) || bool_decide (a = single_quote))
      then str_take (String.length rest) (String b rest) else value
  | _, _ => value
  end.

Definition drop_trailing_empty (records : list string) : list string :=
  match rev records with "" :: before => rev before | _ => records end.
Definition _frontmatter_records (text : string) : list string := drop_trailing_empty (split_char LF text).

Definition reject {A} (msg : string) : res A := Err (Exn DispatchContextError msg).

(** The lines after the opening one; [nesting] while the last key had no value. *)
Fixpoint flat_lines (lines : list string) (nesting : bool) (fields : list (string * string)) : res (list (string * string)) :=
  match lines with
  | [] => reject "frontmatter is unclosed; an exact --- delimiter is required"
  | line :: lines =>
      if bool_decide (line = "---") then Ok fields
      else if bool_decide (py_strip line = "") || startswith (lstrip_by py_isspace line) "#" then flat_lines lines nesting fields
      else if match line with String c _ => (code c =? 32) || (9 <=? code c) && (code c <=? 13) && negb (code c =? 10) | "" => false end
      then reject (if nesting then "frontmatter key has nested content" else "frontmatter line is indented")
      else match cut ":" line with
           | None => reject "frontmatter line is not a top-level key/value pair"
           | Some (key, value) =>
               raise_if (negb (fullmatch FLAT_FRONTMATTER_KEY_RE key)) DispatchContextError "frontmatter line has an invalid key";;
               raise_if (dict_has key fields) DispatchContextError "frontmatter key is duplicated";;
               flat_lines lines (bool_decide (py_strip value = "")) (dict_set key (_unquote value) fields)
           end
  end.

Definition _parse_flat_frontmatter (records : list string) : res (list (string * string)) :=
  match records with
  | [] => reject "frontmatter is empty; an exact --- delimiter is required at line 1"
  | first :: lines =>
      raise_if (negb (bool_decide (first = "---"))) DispatchContextError
        "frontmatter must begin with an exact --- delimiter at line 1";;
      flat_lines lines false []
  end.

Definition _strict_review_artifact_frontmatter (w : World) (artifact_path : string) : res (list (string * string)) :=
  match found w artifact_path with
  | Some (Regular _ (Text text)) =>
      reraise (λ k, bool_decide (k = DispatchContextError)) ValueError (_parse_flat_frontmatter (_frontmatter_records text))
  | Some (Regular _ (Binary _)) => invalid "review return artifact is not valid UTF-8"
  | _ => invalid "review return artifact cannot be read"
  end.

Definition review_verdict (w : World) (review_path : string) (r : registry) : res string :=
  response_meta ← read_meta w false review_path;
  let response_verdict := upper_meta "verdict" response_meta in
  if negb (bool_decide (response_verdict = "")) then Ok response_verdict
  else
    artifact ← _registry_review_artifact w review_path r response_meta;
    match artifact with
    | Some artifact => artifact_meta ← _strict_review_artifact_frontmatter w artifact; Ok (upper_meta "verdict" artifact_meta)
    | None => Ok ""
    end.

Definition require_approval_verdict (w : World) (review_path : string) (r : registry) (force : bool) : res (string * bool) :=
  verdict ← review_verdict w review_path r;
  let approved := bool_decide (verdict = "APPROVE") in
  check (approved || force) "review response verdict must be exactly APPROVE";;
  Ok (if bool_decide (verdict = "") then "MISSING" else verdict, negb approved && force).

(** ** The three kinds of review *)

Definition family_of (lane : string) : string := default "" (dict_get lane LANE_AUTHOR_FAMILY).

Definition _entry_author_family (e : entry) : string :=
  let explicit := py_lower (py_strip (get_str "author_family" e)) in
  if negb (bool_decide (explicit = "")) then explicit
  else
    let contracted := match dget "verification_contract" e with
                      | JObj contract => py_lower (py_strip (get_str "author_family" contract))
                      | _ => ""
                      end in
    if negb (bool_decide (contracted = "")) then contracted else family_of (_lane (dget "to_model" e)).

Definition nonempty (s : string) : bool := negb (bool_decide (s = "")).

Definition _validate_factual_attestation (w : World) (task_id : string) (e : entry) (response review_path : string) : res unit :=
  meta ← read_meta w false review_path;
  check (bool_decide (lower_meta "from" meta = "chrono")) "factual coordinator attestation must be authored by from: chrono";;
  check (bool_decide (upper_meta "type" meta = "REVIEW_ATTESTATION")) "factual coordinator attestation requires type";;
  check (bool_decide (lower_meta "review_class" meta = "factual")) "factual coordinator attestation must echo review_class";;
  check (bool_decide (py_strip (meta_get "in_response_to" meta) = task_id)) "factual coordinator attestation must target the held task";;
  check (bool_decide (registry_status (meta_get "status" meta) = "complete")) "factual coordinator attestation status must be complete";;
  let reviewer_lane := _lane (JStr (meta_get "reviewer_lane" meta)) in
  check (nonempty reviewer_lane && bool_decide (reviewer_lane = _lane (dget "review_model" e)))
    "factual coordinator attestation reviewer_lane must match review_model";;
  let reviewer_family := lower_meta "reviewer_family" meta in
  check (nonempty reviewer_family && bool_decide (reviewer_family = family_of reviewer_lane))
    "factual coordinator attestation has invalid reviewer_family";;
  let author_family := _entry_author_family e in
  check (nonempty author_family && negb (bool_decide (reviewer_family = author_family)))
    "factual coordinator attestation must be cross-family";;
  digest ← file_sha256 w response;
  check (bool_decide (lower_meta "attested_response_sha256" meta = digest)) "factual coordinator attestation response hash mismatch".

Definition by_coordinator (meta : list (string * string)) : bool :=
  bool_decide (lower_meta "from" meta = "chrono") || bool_decide (upper_meta "type" meta = "REVIEW_ATTESTATION").

Definition _validate_security_review (w : World) (task_id : string) (e : entry) (response review_path : string) : res unit :=
  meta ← read_meta w false review_path;
  check (negb (by_coordinator meta)) "security-finding tasks require an independent lane review";;
  check (bool_decide (py_strip (meta_get "in_response_to" meta) = task_id)) "security-finding review must target the held task";;
  let reviewer_lane := _lane (JStr (meta_get "from" meta)) in
  check (nonempty reviewer_lane && bool_decide (reviewer_lane = _lane (dget "review_model" e)))
    "security-finding review must come from the configured review_model";;
  let reviewer_family := family_of reviewer_lane in
  let echoed := meta_get "reviewer_family" meta in
  let echoed_family := py_lower (py_strip (if nonempty echoed then echoed else reviewer_family)) in
  check (nonempty reviewer_family && bool_decide (echoed_family = reviewer_family)) "security-finding review has invalid reviewer family";;
  let author_family := _entry_author_family e in
  check (nonempty author_family && negb (bool_decide (reviewer_family = author_family)))
    "security-finding review must be cross-family";;
  digest ← file_sha256 w response;
  check (bool_decide (lower_meta "reviewed_response_sha256" meta = digest)) "security-finding review response hash mismatch";;
  check (bool_decide (registry_status (meta_get "status" meta) = "complete")) "security-finding review status must be complete".

(** What the registry says of a review: its target, lane and family. *)
Record Provenance := { review_target : string; reviewer_lane : string; reviewer_family : string }.

(** The target is the registry's, or else the packet's, stored on the way. *)
Definition review_target_of (w : World) (review_task_id : string) (review_entry : entry) (r : registry) : res (string * registry) :=
  match dget "reviews" review_entry with
  | JNull =>
      scans ← packet_scans w review_task_id;
      '(target, review_entry) ← _project_review_packet_provenance scans review_entry;
      Ok (target, dict_set review_task_id (JObj review_entry) r)
  | JStr target => Ok (target, r)
  | _ => invalid "review task registry entry is missing reviews provenance"
  end.

Definition _standard_review_provenance (w : World) (r : registry) (review_path : string) : res (Provenance * registry) :=
  let review_task_id := response_task review_path in
  check (nonempty review_task_id) "standard review response has no registry task identity";;
  match dget review_task_id r with
  | JObj review_entry =>
      '(raw_target, r) ← review_target_of w review_task_id review_entry r;
      check (nonempty (py_strip raw_target)) "review task registry entry is missing reviews provenance";;
      let lane := _lane (dget "to_model" review_entry) in
      check (nonempty lane) "review task registry entry is missing its reviewer lane";;
      check (nonempty (family_of lane)) "review task registry lane has no author family";;
      Ok ({| review_target := py_strip raw_target; reviewer_lane := lane; reviewer_family := family_of lane |}, r)
  | _ => invalid "standard review task is absent from the registry"
  end.

Definition _validate_standard_review (w : World) (task_id : string) (e : entry) (review_path : string) (r : registry) : res registry :=
  meta ← read_meta w false review_path;
  check (negb (by_coordinator meta)) "standard review requires an independent lane response";;
  check (bool_decide (upper_meta "type" meta = "RESULT")) "standard review must be a RESULT response";;
  '(p, r) ← _standard_review_provenance w r review_path;
  check (bool_decide (review_target p = task_id)) "registry provenance targets a different held task";;
  let echoed_target := py_strip (meta_get "reviews" meta) in
  check (bool_decide (echoed_target = "") || bool_decide (echoed_target = review_target p)) "reviews conflicts with registry provenance";;
  let echoed_lane := _lane (JStr (meta_get "from" meta)) in
  check (nonempty echoed_lane) "standard review response is missing from";;
  check (bool_decide (echoed_lane = reviewer_lane p)) "from conflicts with registry reviewer lane";;
  check (nonempty (reviewer_lane p) && bool_decide (reviewer_lane p = _lane (dget "review_model" e)))
    "standard review must come from the configured review_model";;
  let echoed_family := lower_meta "reviewer_family" meta in
  check (bool_decide (echoed_family = "") || bool_decide (echoed_family = reviewer_family p))
    "reviewer_family conflicts with registry reviewer lane";;
  let author_family := _entry_author_family e in
  check (nonempty author_family && negb (bool_decide (reviewer_family p = author_family))) "standard review must be cross-family";;
  check (bool_decide (registry_status (meta_get "status" meta) ∈ ["complete"; "needs_review"]))
    "standard review status must be complete or needs_review";;
  Ok r.

(** ** Settlement *)

(** The digest of the task's capability card now, or [missing]. *)
Definition card_digest (w : World) (capability_id : string) : string :=
  let part := RSeq (RChr (λ c, is_lower c || is_digit c)) (RStar (RChr (λ c, is_lower c || is_digit c || char_in c "-"))) in
  if fullmatch (RSeq part (RSeq (rlit "/") part)) capability_id then
    match found w ("shared/capabilities/" +:+ capability_id +:+ ".md") with
    | Some (Regular _ c) => sha256_hex (file_bytes c)
    | _ => "missing"
    end
  else "missing".

(** The entry, whether it changed, and whether the drift is new. *)
Definition update_capability_card_drift (w : World) (now : Z) (e : entry) : entry * (bool * bool) :=
  let pinned := py_strip (get_str "capability_card_sha256" e) in
  if bool_decide (pinned = "") then (e, (false, false))
  else
    let current := card_digest w (py_strip (get_str "capability_id" e)) in
    let drift := negb (bool_decide (current = pinned)) in
    let previous := dget "capability_card_drift" e in
    let changed := negb (py_eq (dget "capability_card_current_sha256" e) (JStr current)) || negb (py_eq previous (JBool drift)) in
    (if changed then
       dict_update e [("capability_card_current_sha256", JStr current); ("capability_card_drift", JBool drift);
                      ("capability_card_drift_checked_at", JStr (isoformat_utc now))]
     else e,
     (changed, drift && negb (match previous with JBool true => true | _ => false end))).

(** Recording one note: the entry, whether it moved, and the announcements. *)
Definition advise (task_ref key note : string) (e : entry) : entry * bool * list queue_line :=
  if nonempty note then
    let told := bool_decide (get_str key e = note) in
    (dict_set key (JStr note) e, negb told, if told then [] else [("SETTLEMENT-ADVISORY", task_ref, note)])
  else (dict_del key e, negb (Registry.is_null (dget key e)), []).

Definition record_settlement_advisories (task_ref : string) (e : entry) (capability_echo_absent : string) :
    entry * bool * list queue_line :=
  let absence := worker_lease_absence e in
  let '(e, moved, lines) := advise task_ref "capability_echo_absence" capability_echo_absent e in
  let '(e, moved', lines') := advise task_ref "worker_lease_absence" absence e in
  (e, moved || moved', lines ++ lines').

(** The landed response of a held task, its status and the advisory. *)
Definition response_for (w : World) (task_id normalized_ref : string) (e : entry) : res (string * string) :=
  let schema := settlement_process w task_id e in
  candidates ← response_candidates w task_id schema;
  landed ← landed_response w task_id candidates schema e;
  match landed with
  | None => invalid "task has no landed response"
  | Some (response, status) =>
      '(issue, absent) ← capability_pin_echo w e response;
      check (bool_decide (issue = "")) "task response does not match dispatched capability snapshot";;
      issue ← (if py_eq (dget "envelope_repaired_by" e) (JStr "chrono-explicit") then Ok ""
               else worker_response_issue w task_id e response schema);
      check (bool_decide (issue = "")) "task response does not match dispatched worker fence";;
      check (bool_decide (status ∈ ["complete"; "needs_review"; "needs_human"])) "task response status cannot be settled";;
      check (negb (bool_decide (normalized_ref = response))) "--review-ref must not be the task's own response";;
      '(pending, _, _) ← response_review_pending w e status;
      check pending "task does not require cross-family settlement";;
      Ok (response, absent)
  end.

(** The review, judged by the class of the entry: who settles, and the registry. *)
Definition reviewed (w : World) (task_id review_path response : string) (e : entry) (r : registry) :
    res (string * string * registry) :=
  cls ← _review_class e;
  if bool_decide (cls = "factual") then
    _validate_factual_attestation w task_id e response review_path;; Ok (cls, "chrono-factual-attestation", r)
  else if bool_decide (cls = "security-finding") then
    _validate_security_review w task_id e response review_path;; Ok (cls, "chrono-explicit-independent", r)
  else r ← _validate_standard_review w task_id e review_path r; Ok (cls, "chrono-explicit", r).

Definition settled_fields (now : Z) (response ref cls settled_by verdict : string) (forced : bool) : entry :=
  let at_ := JStr (isoformat_utc now) in
  [("status", JStr "complete"); ("completed_at", at_); ("reconciled_at", at_); ("review_settled_at", at_);
   ("review_settled_by", JStr settled_by); ("cross_family_review_ref", JStr ref); ("review_ref", JStr ref);
   ("verdict", JStr verdict); ("review_force_override", JBool forced)] ++
  (if forced then [("review_force_override_at", at_)] else []) ++
  (if bool_decide (cls = "factual") then [("coordinator_attestation_ref", JStr ref)] else []) ++
  [("response_path", JStr response)].

Definition settled_entry (w : World) (task_ref response absent ref cls settled_by verdict : string) (forced : bool) (e : entry) :
    entry * list queue_line :=
  let now := settle_clock w in
  let '(e, _) := update_capability_card_drift w now e in
  let '(e, _, lines) := record_settlement_advisories task_ref e absent in
  (dict_del "review_signature" (dict_del "review_blocking_ref"
     (dict_update e (settled_fields now response ref cls settled_by verdict forced))), lines).

Definition settled_status (cls : string) (forced : bool) : string :=
  (if bool_decide (cls = "factual") then "FACTUAL-ATTESTATION-SETTLED" else "REVIEW-SETTLED") +:+
  (if forced then "-FORCED" else "").
Definition settled_summary (cls ref verdict : string) (forced : bool) : string :=
  "explicit Chrono settlement class=" +:+ cls +:+ "; review=" +:+ ref +:+ "; verdict=" +:+ verdict +:+
  "; force=" +:+ (if forced then "True" else "False").

(** The settlement of a held entry: the registry written and the queue lines. *)
Definition settle_entry (w : World) (task_id ref : string) (force : bool) (e : entry) (r : registry) :
    res (registry * list queue_line) :=
  let task_ref := _canonical_mailbox_label +:+ "/" +:+ task_id in
  '(response, absent) ← response_for w task_id ref e;
  '(cls, settled_by, r) ← reviewed w task_id ref response e r;
  '(verdict, forced) ← require_approval_verdict w ref r force;
  let e := match dget task_id r with JObj e => e | _ => e end in
  let '(e, advisories) := settled_entry w task_ref response absent ref cls settled_by verdict forced e in
  let promotion := match memory_promotion_message w task_id verdict cls with
                   | Some (status, summary) => [(status, task_ref, summary)]
                   | None => []
                   end in
  Ok (dict_set task_id (JObj e) r,
      advisories ++ [(settled_status cls forced, task_ref, settled_summary cls ref verdict forced)] ++ promotion).

(** [entry.get("status") == "complete"], settled by a coordinator's action. *)
Definition settled_already (e : entry) : bool :=
  py_eq (dget "status" e) (JStr "complete") && startswith (get_str "review_settled_by" e) "chrono-".
Definition HELD_STATUSES : list string := [REVIEW_REQUIRED; "needs_review"].

Definition settle_held (w : World) (task_id ref : string) (force : bool) (r : registry) : res (option (registry * list queue_line)) :=
  match dget task_id r with
  | JObj e =>
      if settled_already e then
        check (py_eq (dget "cross_family_review_ref" e) (JStr ref)) "task already settled with a different review ref";; Ok None
      else
        check (bool_decide (get_str "status" e ∈ HELD_STATUSES)) "task is not review-required or needs_review";;
        done ← settle_entry w task_id ref force e r; Ok (Some done)
  | _ => invalid "unknown registry task"
  end.

(** The lines are queued once the registry is written and its lock released;
    an append that raises ends them, and the settlement stands. *)
Definition settle_review (s : Storage) (w : World) (task_id review_ref : string) (force : bool) (r : registry) :
    res bool * (registry * list queue_line) :=
  match (ref ← _review_reference w review_ref; settle_held w task_id ref force r) with
  | Ok (Some (r', lines)) => announce (queue_writes s) lines (write_registry (registry_write s) r r' (Ok true))
  | Ok None => (Ok false, (r, []))
  | Err err => (Err err, (r, []))
  end.
