(* ===== verification/RegistryProps.v ===== *)
(** * Properties of the task registry

    What an operation of [Registry] may touch of an entry, the histories it may
    only extend, and what it did when it succeeded; the properties of the whole
    registry, with the settlements, are in [SettlementProps]. *)
From S2P Require Import Prelude Regex Json PyText PyTime JsonProps Registry.

(** ** Touched keys and histories *)

(** Only the keys [ks] may differ. *)
Definition touches (ks : list string) (e e' : entry) : Prop := ∀ k, k ∉ ks → dict_get k e' = dict_get k e.

(** The list a history key holds: empty while absent, [None] when no list. *)
Definition history (k : string) (e : entry) : option (list json) :=
  match default (JList []) (dict_get k e) with JList l => Some l | _ => None end.
Definition extends (k : string) (e e' : entry) : Prop := ∀ l, history k e = Some l → ∃ t, history k e' = Some (l ++ t).
Definition HISTORIES : list string := ["delivery_history"; "closure_history"; "reopen_history"].
(** Every history is kept, and may have grown. *)
Definition grows (e e' : entry) : Prop := ∀ k, k ∈ HISTORIES → extends k e e'.

#[export] Instance extends_preorder k : PreOrder (extends k).
Proof.
  split.
  - intros e l Hl. exists []. by rewrite app_nil_r.
  - intros e e' e'' H1 H2 l (t & (t' & ->)%H2)%H1. exists (t ++ t'). by rewrite app_assoc.
Qed.
#[export] Instance grows_preorder : PreOrder grows.
Proof. split; [intros e k _; reflexivity|intros e e' e'' H1 H2 k Hk; etrans; [by apply H1|by apply H2]]. Qed.

Lemma touches_refl ks e : touches ks e e.
Proof. by intros k _. Qed.
Lemma touches_trans ks e e' e'' : touches ks e e' → touches ks e' e'' → touches ks e e''.
Proof. intros H1 H2 k Hk. by rewrite (H2 k Hk), (H1 k Hk). Qed.
Lemma touches_weaken ks ks' e e' : (∀ k, k ∈ ks → k ∈ ks') → touches ks e e' → touches ks' e e'.
Proof. intros Hs H k Hk. apply H. by intros ?%Hs. Qed.
Lemma touches_dget ks e e' k : touches ks e e' → k ∉ ks → dget k e' = dget k e.
Proof. intros H Hk. unfold dget. by rewrite (H k Hk). Qed.
Lemma touches_str ks e e' k : touches ks e e' → k ∉ ks → get_str k e' = get_str k e.
Proof. intros H Hk. unfold get_str. by rewrite (touches_dget _ _ _ _ H Hk). Qed.

Lemma touches_set ks k v e : k ∈ ks → touches ks e (dict_set k v e).
Proof. intros Hk k' Hk'. rewrite dict_get_set, decide_False; [done|]. by intros ->. Qed.
Lemma touches_del ks k e : k ∈ ks → touches ks e (dict_del k e).
Proof. intros Hk k' Hk'. apply dict_get_del. by intros ->. Qed.
Lemma touches_default ks k v e : k ∈ ks → touches ks e (dict_default k v e).
Proof. intros Hk. unfold dict_default. case_match; [apply touches_refl|by apply touches_set]. Qed.
Lemma touches_update ks d e : (∀ k, k ∈ d.*1 → k ∈ ks) → touches ks e (dict_update e d).
Proof.
  revert e. induction d as [|[k v] d IH]; intros e Hd; [apply touches_refl|].
  apply (touches_trans _ _ (dict_set k v e)).
  - apply touches_set, Hd. left.
  - apply IH. intros k' Hk'. apply Hd. by right.
Qed.
Lemma within_keys (l ks : list string) : forallb (λ k, bool_decide (k ∈ ks)) l = true → ∀ k, k ∈ l → k ∈ ks.
Proof. intros H k Hk. rewrite forallb_forall in H. apply list_elem_of_In, H in Hk. by apply bool_decide_eq_true in Hk. Qed.
Lemma append_touches ks k x e e' : append_to k x e = Ok e' → k ∈ ks → touches ks e e'.
Proof. unfold append_to. case_match; try done. intros [= <-]. by apply touches_set. Qed.

Lemma touches_extends ks k e e' : touches ks e e' → k ∉ ks → extends k e e'.
Proof. intros H Hk l. unfold history. rewrite (H k Hk). exists []. by rewrite app_nil_r. Qed.
Lemma append_extends k x e e' : append_to k x e = Ok e' → extends k e e'.
Proof.
  unfold append_to, extends, history. case_match eqn:E; try done. intros [= <-] l' [= <-].
  exists [x]. by rewrite dict_get_set, decide_True.
Qed.
Lemma append_history k x e e' : append_to k x e = Ok e' → ∃ l, history k e = Some l ∧ history k e' = Some (l ++ [x]).
Proof.
  unfold append_to, history. case_match eqn:E; try done. intros [= <-].
  eexists. by rewrite dict_get_set, decide_True.
Qed.

(** The first keys touched in a chain of updates, one update at a time. *)
Ltac touch_tac :=
  repeat first
    [ apply touches_refl
    | assumption
    | eapply touches_trans; [|first [apply touches_set|apply touches_del|apply touches_default]; by_decide]
    | eapply touches_trans; [|eapply append_touches; [eassumption|by_decide]]
    | eapply touches_trans; [|apply touches_update; by apply within_keys]
    | case_match ].

(** ** What each operation touches *)

Ltac reg_inv := unfold check, invalid in *; res_inv; bool_inv.

Definition TERMINAL_KEYS : list string :=
  ["delivery_state"; "delivery_terminal_at"; "delivery_next_attempt_at"; "delivery_history"].
Definition EXPIRED_KEYS : list string :=
  TERMINAL_KEYS ++ ["worker_assignment_state"; "worker_cancel_reason"; "worker_cancelled_at"].
Definition STARTED_KEYS : list string :=
  ["delivery_history"; "delivery_state"; "claimed_at"; "started_at"; "worker_assignment_state"].

Lemma set_str k v e : get_str k (dict_set k (JStr v) e) = v.
Proof. unfold get_str. rewrite dget_set, decide_True by done. by destruct v. Qed.
Lemma set_str_other k k' v e : k ≠ k' → get_str k' (dict_set k v e) = get_str k' e.
Proof. intros Hk. unfold get_str. by rewrite dget_set, decide_False. Qed.

Lemma append_str k x e e' k' : append_to k x e = Ok e' → k' ≠ k → get_str k' e' = get_str k' e.
Proof. intros Ha Hk. apply (touches_str [k]); [|set_solver]. eapply append_touches; [exact Ha|set_solver]. Qed.

Lemma marked_touches now reason e e' : mark_delivery_terminal now reason e = Ok (Some e') →
  touches TERMINAL_KEYS e e' ∧ extends "delivery_history" e e' ∧ get_str "delivery_state" e' = "terminal".
Proof.
  unfold mark_delivery_terminal. case_match; [done|]. intros (g & _ & (e1 & Ha & [= <-])%bind_Ok)%bind_Ok.
  split_and!.
  - touch_tac.
  - etrans; [|by eapply append_extends].
    apply (touches_extends ["delivery_state"; "delivery_terminal_at"; "delivery_next_attempt_at"]); [touch_tac|by_decide].
  - rewrite (append_str _ _ _ _ _ Ha) by done.
    unfold get_str, dget. rewrite dict_get_del by done. by rewrite !dict_get_set.
Qed.

Lemma expired_touches now e e' : expired_entry now e = Ok e' →
  touches EXPIRED_KEYS e e' ∧ extends "delivery_history" e e' ∧
  (get_str "delivery_state" e' = "terminal" ∨ get_str "delivery_state" e' = get_str "delivery_state" e).
Proof.
  unfold expired_entry. intros (marked & Hm & [= <-])%bind_Ok.
  assert (touches EXPIRED_KEYS e (default e marked) ∧ extends "delivery_history" e (default e marked) ∧
    (get_str "delivery_state" (default e marked) = "terminal" ∨ get_str "delivery_state" (default e marked) = get_str "delivery_state" e))
    as (Ht & He & Hs).
  { destruct marked as [e1|]; cbn; [|split_and!; [apply touches_refl|reflexivity|by right]].
    apply marked_touches in Hm as (Ht & He & Hs). split_and!; [|done|by left]. eapply touches_weaken; [|exact Ht]. by apply within_keys. }
  split_and!; [touch_tac| |by rewrite !set_str_other]. etrans; [exact He|].
  apply (touches_extends ["worker_assignment_state"; "worker_cancel_reason"; "worker_cancelled_at"]); [touch_tac|by_decide].
Qed.

Lemma expired_terminal now e e' : expired_entry now e = Ok e' → get_str "delivery_state" e ∈ DELIVERY_OPEN_STATES →
  truthy (dget "delivery_attempt_id" e) = true → get_str "delivery_state" e' = "terminal".
Proof.
  unfold expired_entry. intros (marked & Hm & [= <-])%bind_Ok Hs Ha. rewrite !set_str_other by done.
  destruct marked as [e1|]; [by apply marked_touches in Hm as (_ & _ & ?)|]. exfalso.
  unfold mark_delivery_terminal in Hm. rewrite Ha in Hm. cbn [negb orb] in Hm.
  destruct (py_eq (dget "delivery_state" e) (JStr "terminal")) eqn:Ht.
  - apply py_eq_str in Ht. unfold get_str in Hs. rewrite Ht in Hs. revert Hs. by_decide.
  - by apply bind_Ok in Hm as (? & _ & (? & _ & ?)%bind_Ok).
Qed.

Lemma default_extends k e : extends k e (dict_default k (JList []) e).
Proof.
  intros l. unfold history, dict_default. destruct (dict_get k e) eqn:E.
  - rewrite E. exists []. by rewrite app_nil_r.
  - cbn. intros [= <-]. exists []. by rewrite dict_get_set, decide_True.
Qed.

Lemma started_touches now attempt pooled generation e e' : started_entry now attempt pooled generation e = Ok e' →
  touches STARTED_KEYS e e' ∧ extends "delivery_history" e e' ∧ get_str "delivery_state" e' = "in-progress".
Proof.
  unfold started_entry. intros (row & _ & (e1 & Ha & Hb)%bind_Ok)%bind_Ok. split_and!.
  - touch_tac.
  - transitivity e1; [|etrans; [|exact (append_extends _ _ _ _ Hb)]].
    + etrans; [apply default_extends|]. etrans; [|exact (append_extends _ _ _ _ Ha)].
      apply (touches_extends ["delivery_state"; "claimed_at"]); [touch_tac|by_decide].
    + apply (touches_extends ["delivery_state"; "started_at"; "worker_assignment_state"]); [touch_tac|by_decide].
  - rewrite (append_str _ _ _ _ _ Hb) by done.
    rewrite (touches_str ["started_at"; "worker_assignment_state"] (dict_set "delivery_state" (JStr "in-progress") e1)).
    + unfold get_str, dget. by rewrite dict_get_set.
    + touch_tac.
    + by_decide.
Qed.

Definition CLOSED_KEYS : list string :=
  ["closure_history"; "status"; "lifecycle_closed_at"; "lifecycle_closed_by"; "closed_from_status"; "closure_reason"].

Lemma closed_touches now reason target e e' : closed_entry now reason target e = Ok e' →
  touches CLOSED_KEYS e e' ∧ extends "closure_history" e e' ∧ get_str "status" e' = target.
Proof.
  unfold closed_entry. intros (e1 & Ha & [= <-])%bind_Ok. split_and!.
  - touch_tac.
  - etrans; [exact (append_extends _ _ _ _ Ha)|]. apply (touches_extends (tail CLOSED_KEYS)); [touch_tac|by_decide].
  - rewrite !set_str_other by done. apply set_str.
Qed.

Definition REOPENED_KEYS : list string :=
  ["reopen_history"; "status"; "completed_at"; "review_settled_at"; "review_settled_by"; "reopened_at"; "reopened_by";
   "reopened_from_status"; "reopen_count"].

Lemma reopened_touches now target e e' : reopened_entry now target e = Ok e' →
  touches REOPENED_KEYS e e' ∧ extends "reopen_history" e e' ∧ get_str "status" e' = target.
Proof.
  unfold reopened_entry. intros (e1 & Ha & (count & _ & [= <-])%bind_Ok)%bind_Ok.
  assert (touches REOPENED_KEYS e e1 ∧ extends "reopen_history" e e1) as [Ht He].
  { case_match eqn:E; try done. simplify_eq. split; [touch_tac|].
    intros l'. unfold history. rewrite E. intros [= ->]. by rewrite dict_get_set, decide_True by done; eauto. }
  split_and!.
  - touch_tac.
  - etrans; [exact He|]. apply (touches_extends (tail REOPENED_KEYS)); [touch_tac|by_decide].
  - rewrite !set_str_other by done. apply set_str.
Qed.

(** ** Claims *)

Definition pooled (e : entry) : bool := truthy (dget "delivery_worker_id" e).

(** The fence of a pooled worker: its identity, epoch, lease and lane are the
    entry's, the lease runs, and none of its other tasks is open. *)
Definition fenced (now : Z) (task_id : string) (a : ClaimArgs) (e : entry) (r : registry) : Prop :=
  ∃ worker, worker_checks a e = Ok worker ∧ lease_expired now e = Ok false ∧ existsb (busy_with worker task_id) r = false.

Lemma written_Ok {A} w r r1 (answer : res A) a r' : write_registry w r r1 answer = (Ok a, r') → w = Landed ∧ answer = Ok a ∧ r' = r1.
Proof. destruct w; cbn; unfold write_failed; intros H; simplify_eq; done. Qed.
Lemma written_registry {A} w r r1 (answer : res A) : (write_registry w r r1 answer).2 = r ∨ (write_registry w r r1 answer).2 = r1.
Proof. destruct w; cbn; auto. Qed.

(** What reached the queue, whatever failed, is the first of the lines. *)
Lemma append_lines_Ok answers lines v landed : append_chrono_queue answers lines = (v, landed) →
  landed `prefix_of` lines ∧ (v = Ok tt → landed = lines).
Proof.
  revert answers v landed. induction lines as [|line lines IH]; intros answers v landed; cbn [append_chrono_queue].
  - intros [= <- <-]. done.
  - unfold write_failed. destruct (hd Landed answers); [|intros [= <- <-]; split; [apply prefix_nil|done]|intros [= <- <-]; split; [|done]].
    + destruct (append_chrono_queue (tail answers) lines) as [v1 l1] eqn:E. intros [= <- <-].
      apply IH in E as [Hp Ha]. split; [by apply prefix_cons|]. by intros ->%Ha.
    + apply prefix_cons, prefix_nil.
Qed.
Lemma announced_Ok answers lines w r r1 b r' landed :
  announce answers lines (write_registry w r r1 (Ok true)) = (Ok b, (r', landed)) → b = true ∧ r' = r1 ∧ landed = lines.
Proof.
  destruct w; cbn; try done. destruct (append_chrono_queue answers lines) as [[[]|] l] eqn:E; [|done]. intros [= <- <- <-].
  apply append_lines_Ok in E as [_ ->]; done.
Qed.
Lemma announced_registry answers lines saved : (announce answers lines saved).2.1 = saved.2.
Proof. destruct saved as [[b|] r]; cbn; [|done]. by destruct (append_chrono_queue answers lines). Qed.

Inductive claim_outcome (w : write_answer) (now : Z) (task_id : string) (a : ClaimArgs) (r : registry) : res entry * registry → Prop :=
  | claim_refused err : claim_outcome w now task_id a r (Err err, r)
  | claim_expired e e' :
      dget task_id r = JObj e → pooled e = true → lease_expired now e = Ok true →
      get_str "delivery_state" e ∈ DELIVERY_OPEN_STATES → expired_entry now e = Ok e' →
      claim_outcome w now task_id a r (write_registry w r (dict_set task_id (JObj e') r) (Err (Exn ValueError "worker lease expired")))
  | claim_again e answer :
      dget task_id r = JObj e → attempt_id a = get_str "delivery_attempt_id" e →
      (pooled e = true → fenced now task_id a e r) → get_str "delivery_state" e = "in-progress" →
      again task_id a (pooled e) e = Ok answer →
      claim_outcome w now task_id a r (Ok answer, r)
  | claim_started e e' answer :
      dget task_id r = JObj e → attempt_id a = get_str "delivery_attempt_id" e →
      (pooled e = true → fenced now task_id a e r) →
      start_claim now task_id a (pooled e) e r = Ok (answer, e') →
      claim_outcome w now task_id a r (write_registry w r (dict_set task_id (JObj e') r) (Ok answer)).

Lemma claim_task_outcome w now task_id a r : claim_outcome w now task_id a r (claim_task w now task_id a r).
Proof.
  unfold claim_task, invalid. destruct (dget task_id r) as [| | | | |e] eqn:Hr; try constructor.
  case_bool_decide as Hatt; cbn [negb]; [|constructor].
  assert (Hgo : ∀ p, p = pooled e → (pooled e = true → fenced now task_id a e r) →
    claim_outcome w now task_id a r
      (if bool_decide (get_str "delivery_state" e = "in-progress") then (again task_id a p e, r)
       else match start_claim now task_id a p e r with
            | Ok (answer, e') => write_registry w r (dict_set task_id (JObj e') r) (Ok answer)
            | Err err => (Err err, r)
            end)).
  { intros p -> Hf. case_bool_decide.
    - destruct (again _ _ _ _) eqn:Ha; [by eapply claim_again|constructor].
    - destruct (start_claim _ _ _ _ _ _) as [[answer e']|] eqn:Hs; [by eapply claim_started|constructor]. }
  destruct (truthy (dget "delivery_worker_id" e)) eqn:Hp.
  - destruct (worker_checks a e) as [worker|] eqn:Hchecks; [|constructor].
    destruct (lease_expired now e) as [[]|] eqn:Hl; [| |constructor].
    + destruct (decide (get_str "delivery_state" e ∈ DELIVERY_OPEN_STATES)) as [Ho|Ho];
        [rewrite bool_decide_eq_true_2 by exact Ho|rewrite (bool_decide_eq_false_2 _ Ho); constructor].
      destruct (expired_entry now e) eqn:Hx; [by eapply claim_expired|constructor].
    + destruct (existsb _ r) eqn:Hb; [constructor|]. apply Hgo; [done|]. intros _. by exists worker.
  - apply Hgo; [done|]. unfold pooled. by rewrite Hp.
Qed.

(** A claim with a write that may fail, from the one whose write does not. *)
Lemma claim_task_write w now task_id a r : let '(v, r1) := claim_task Landed now task_id a r in
  claim_task w now task_id a r = (v, r1) ∧ r1 = r ∨ claim_task w now task_id a r = write_registry w r r1 v.
Proof.
  unfold claim_task. destruct (dget task_id r) as [| | | | |e]; try (by left).
  destruct (negb (bool_decide (attempt_id a = get_str "delivery_attempt_id" e))); [by left|].
  assert (Hs : ∀ p, let '(v, r1) := match start_claim now task_id a p e r with
      | Ok (answer, e') => write_registry Landed r (dict_set task_id (JObj e') r) (Ok answer) | Err err => (Err err, r) end in
    match start_claim now task_id a p e r with
    | Ok (answer, e') => write_registry w r (dict_set task_id (JObj e') r) (Ok answer) | Err err => (Err err, r) end = (v, r1) ∧ r1 = r ∨
    match start_claim now task_id a p e r with
    | Ok (answer, e') => write_registry w r (dict_set task_id (JObj e') r) (Ok answer) | Err err => (Err err, r) end = write_registry w r r1 v).
  { intros p. destruct (start_claim _ _ _ _ _ _) as [[answer e']|]; [by right|by left]. }
  destruct (truthy _).
  - destruct (worker_checks a e); [|by left]. destruct (lease_expired now e) as [[]|]; [| |by left].
    + destruct (bool_decide (get_str "delivery_state" e ∈ DELIVERY_OPEN_STATES)); [|by left]. destruct (expired_entry now e); [by right|by left].
    + destruct (existsb _ r); [by left|]. destruct (bool_decide (get_str "delivery_state" e = "in-progress")); [by left|]. apply Hs.
  - destruct (bool_decide (get_str "delivery_state" e = "in-progress")); [by left|]. apply Hs.
Qed.

(** What the start of a claim established. *)
Lemma start_claim_Ok now task_id a p e r answer e' : start_claim now task_id a p e r = Ok (answer, e') →
  get_str "delivery_state" e = "queued" ∧ get_str "status" e = "in-flight" ∧
  (p = false → _delivery_head r (_delivery_lane e) = Ok (Some task_id)) ∧
  ∃ generation, started_entry now (attempt_id a) p generation e = Ok e'.
Proof.
  unfold start_claim. intros H. apply bind_Ok in H as ([] & Hq & H). apply bind_Ok in H as ([] & Hs & H).
  apply bind_Ok in H as (head & Hh & H). apply bind_Ok in H as ([] & Hd & H).
  apply bind_Ok in H as (g & _ & H). apply bind_Ok in H as (e1 & Hst & H). apply bind_Ok in H as (f & _ & [= _ ->]).
  unfold check in *. reg_inv. split_and!; eauto. by intros ->; subst.
Qed.

Lemma worker_checks_Ok a e worker : worker_checks a e = Ok worker →
  worker = py_strip (default "" (worker_id a)) ∧ worker = get_str "delivery_worker_id" e ∧
  py_strip (default "" (worker_epoch a)) = get_str "worker_epoch" e ∧
  (∃ lease, lease_generation a = Some lease ∧ int_or (dget "lease_generation" e) 0 = Ok lease) ∧
  _lane (opt_json (claim_lane a)) = _delivery_lane e ∧ _delivery_lane e ≠ "".
Proof.
  unfold worker_checks, _validate_worker_token, check.
  intros (worker' & (_ & _ & [= <-])%bind_Ok & H)%bind_Ok. apply bind_Ok in H as (epoch & (_ & _ & [= <-])%bind_Ok & H).
  destruct (lease_generation a) as [lease|]; [|done].
  apply bind_Ok in H as (_ & H1%raise_if_Ok & H). apply bind_Ok in H as (_ & H2%raise_if_Ok & H).
  apply bind_Ok in H as (current & Hc & H). apply bind_Ok in H as (_ & H3%raise_if_Ok & H).
  apply bind_Ok in H as (_ & H4%raise_if_Ok & [= <-]). bool_inv. split_and!; try congruence.
  - exists lease. split; [done|congruence].
Qed.

Lemma dget_in t v r : dget t r = v → v ≠ JNull → (t, v) ∈ r.
Proof.
  unfold dget. intros <- Hv. induction r as [|[k u] r IH]; cbn in *; [done|].
  destruct (decide (k = t)) as [->|]; [left|right; by apply IH].
Qed.

(** Not busy: no other task of the worker is open. *)
Lemma not_busy worker task_id r t e : existsb (busy_with worker task_id) r = false → dget t r = JObj e → t ≠ task_id →
  get_str "delivery_worker_id" e = worker → get_str "status" e = "in-flight" →
  get_str "delivery_state" e ∉ DELIVERY_OPEN_STATES.
Proof.
  intros Hb He Ht Hw Hs Ho.
  assert (Hin : (t, JObj e) ∈ r) by by apply dget_in.
  apply not_true_iff_false in Hb. apply Hb, existsb_exists. exists (t, JObj e). split; [by apply list_elem_of_In|].
  unfold busy_with. cbn. rewrite Hw, Hs, (bool_decide_eq_false_2 (t = task_id)) by done.
  by rewrite !bool_decide_eq_true_2.
Qed.

(** ** Closing *)

Lemma close_ids_Ok raw seen ids : close_ids raw seen = Ok ids → NoDup seen → NoDup ids ∧ ids = seen ++ map py_strip raw.
Proof.
  revert seen. induction raw as [|x raw IH]; intros seen; cbn [close_ids].
  - intros [= <-] ?. by rewrite app_nil_r.
  - unfold check. intros (_ & H1%raise_if_Ok & H)%bind_Ok Hn. apply bind_Ok in H as (_ & H2%raise_if_Ok & H). bool_inv.
    apply IH in H as [Hnd ->]; [by rewrite <- app_assoc in *|].
    apply NoDup_app. split_and!; [done| |apply NoDup_singleton]. by intros y Hy ->%list_elem_of_singleton.
Qed.

Lemma close_preflight_Ok reason target r id e b : close_preflight reason target r id = Ok (e, b) →
  dget id r = JObj e ∧ (b = true → get_str "status" e ∉ CLOSE_STATUSES) ∧ (b = false → get_str "status" e = target).
Proof.
  unfold close_preflight, invalid. destruct (dget id r) as [| | | | |e0] eqn:He; try done.
  destruct (decide (get_str "status" e0 ∈ CLOSE_STATUSES)) as [Hc|Hc];
    [rewrite bool_decide_eq_true_2 by exact Hc|rewrite (bool_decide_eq_false_2 _ Hc)].
  - repeat case_match; try done; intros [= <- <-]; bool_inv; split_and!; done.
  - case_match; try done; intros [= <- <-]; split_and!; done.
Qed.

Definition judged : Type := list (string * (entry * bool)).

Lemma close_judged_Ok reason target r ids prepared : close_judged reason target r ids = Ok prepared →
  prepared.*1 = ids ∧ Forall (λ p : string * (entry * bool), close_preflight reason target r p.1 = Ok p.2) prepared.
Proof.
  unfold close_judged. destruct (map_res _ ids) eqn:Hm; [|done]. intros [= ->]. apply map_res_Ok in Hm.
  induction Hm as [|id p ids prepared Hp _ [IH1 IH2]]; [by split|].
  destruct (close_preflight reason target r id) as [eb|] eqn:Hc; [|done].
  injection Hp as <-. cbn. split; [by rewrite IH1|by constructor].
Qed.

Lemma close_all_get now reason target (prepared : judged) r r' : close_all now reason target prepared r = Ok r' → NoDup prepared.*1 →
  (∀ t, (∀ e, (t, (e, true)) ∉ prepared) → dget t r' = dget t r) ∧
  (∀ t e, (t, (e, true)) ∈ prepared → ∃ e', closed_entry now reason target e = Ok e' ∧ dget t r' = JObj e').
Proof.
  revert r. induction prepared as [|[id [e0 b]] prepared IH]; intros r; cbn [close_all].
  - intros [= <-] _. split; [done|]. by intros t e ?%elem_of_nil.
  - intros H [Hid Hnd]%NoDup_cons.
    assert (Hfresh : ∀ e, (id, (e, true)) ∉ prepared).
    { intros e He. apply Hid. by apply (list_elem_of_fmap_2 fst _ (id, (e, true))). }
    destruct b.
    + apply bind_Ok in H as (e' & Hc & H). apply IH in H as [H1 H2]; [|done]. split.
      * intros t Ht. rewrite H1, dget_set by (intros e He; apply (Ht e); by right).
        rewrite decide_False; [done|]. intros ->. apply (Ht e0). left.
      * intros t e [[= -> ->]|He]%elem_of_cons; [|by eapply H2].
        exists e'. split; [done|]. by rewrite H1, dget_set, decide_True.
    + apply IH in H as [H1 H2]; [|done]. split.
      * intros t Ht. apply H1. intros e He. apply (Ht e). by right.
      * intros t e [[= ]|He]%elem_of_cons; by eapply H2.
Qed.

(** What a batch that was not refused did. *)
Lemma close_batch_Ok now raw reason target r report r' : close_batch now raw reason target r = Ok (report, r') →
  let reason := py_join " " (py_words reason) in
  ∃ prepared : judged, target ∈ CLOSE_STATUSES ∧ NoDup prepared.*1 ∧ prepared.*1 = map py_strip raw ∧
    Forall (λ p : string * (entry * bool), close_preflight reason target r p.1 = Ok p.2) prepared ∧
    close_all now reason target prepared r = Ok r' ∧
    report = map (λ p : string * (entry * bool), (p.1, if p.2.2 then CLOSE_CLOSED else CLOSE_ALREADY)) prepared.
Proof.
  unfold close_batch, check. intros (_ & H1%raise_if_Ok & H)%bind_Ok. apply bind_Ok in H as ([] & H2 & H).
  apply bind_Ok in H as ([] & H3 & H). apply bind_Ok in H as (ids & Hids & H). apply bind_Ok in H as (prepared & Hj & H).
  apply bind_Ok in H as (r1 & Hall & [= <- <-]). bool_inv.
  apply close_ids_Ok in Hids as [Hnd Hids]; [|by constructor]. apply close_judged_Ok in Hj as [<- Hf].
  exists prepared. split_and!; done.
Qed.

(** ** Reopening and registration *)

Lemma reopen_entry_Ok now target_status e e' : reopen_entry now target_status e = Ok (Some e') →
  get_str "status" e = "complete" ∧ reopened_entry now (reopen_target target_status e) e = Ok e'.
Proof.
  unfold reopen_entry, check. case_match; [done|]. intros (_ & Hc%raise_if_Ok & Hr)%bind_Ok.
  apply bind_Ok in Hr as (e1 & Hr & [= <-]). bool_inv. done.
Qed.

Lemma reopen_target_in target_status e : (∀ t, target_status = Some t → t ∈ REOPEN_STATUSES) →
  reopen_target target_status e ∈ REOPEN_STATUSES.
Proof. intros Ht. unfold reopen_target. destruct target_status; [by apply Ht|]. case_match; by_decide. Qed.

Definition PREPARED_KEYS : list string :=
  ["review_triggers"; "review_class"; "reviews"; "delivery_worker_id"; "worker_epoch"; "lease_generation"; "lease_expires_at";
   "heartbeat_observed_at"; "member_id"; "replica_index"; "priority_class"; "enqueued_at"].

Lemma project_touches scans e target e' : _project_review_packet_provenance scans e = Ok (target, e') → touches ["reviews"] e e'.
Proof.
  unfold _project_review_packet_provenance. intros (s & _ & H)%bind_Ok. apply bind_Ok in H as (p & _ & H).
  apply bind_Ok in H as (_ & _ & H). case_match; injection H as <- <-; touch_tac.
Qed.

Lemma prepared_touches scans e e' : prepared_entry scans e = Ok e' → touches PREPARED_KEYS e e'.
Proof.
  unfold prepared_entry. intros (e1 & H1 & H)%bind_Ok. apply bind_Ok in H as (e2 & H2 & H).
  apply bind_Ok in H as ([target e3] & H3 & H). apply bind_Ok in H as (_ & _ & [= <-]).
  assert (touches PREPARED_KEYS e e1).
  { unfold with_triggers in H1. case_match; [|by simplify_eq; apply touches_refl].
    apply bind_Ok in H1 as (ts & _ & H1). apply bind_Ok in H1 as (_ & _ & [= <-]). touch_tac. }
  assert (touches PREPARED_KEYS e1 e2).
  { unfold with_review_class in H2. case_match; [|by simplify_eq; apply touches_refl].
    apply bind_Ok in H2 as (c & _ & [= <-]). touch_tac. }
  apply project_touches in H3.
  assert (touches PREPARED_KEYS e2 e3) by (eapply touches_weaken; [|exact H3]; by apply within_keys).
  unfold apply_worker_schema_defaults. eapply touches_trans; [by eapply touches_trans|].
  eapply touches_trans; [eassumption|]. touch_tac.
Qed.

Lemma reregister_touches existing e e' : reregister existing e = Ok (Some e') →
  touches ["reviews"] existing e' ∧ is_null (dget "reviews" existing) = true.
Proof.
  unfold reregister.
  assert (Hno : ∀ m : res bool, (same ← m; check same "conflicting task re-registration";; Ok None) = Ok (Some e') → False).
  { by intros m (? & _ & (? & _ & ?)%bind_Ok)%bind_Ok. }
  destruct (is_null (dget "reviews" existing) && negb (is_null (dget "reviews" e))) eqn:E.
  - intros (same & _ & H)%bind_Ok. destruct same; [|by apply Hno in H].
    injection H as <-. bool_inv. split; [touch_tac|done].
  - destruct (negb _ && _); [|by intros ?%Hno]. intros (same & _ & H)%bind_Ok. destruct same; [done|by apply Hno in H].
Qed.

(** ** The head of a lane *)

Lemma lane_candidates_Ok lane r c d t : lane_candidates lane r = Ok c →
  (d, t) ∈ c ↔ ∃ e, (t, JObj e) ∈ r ∧ _delivery_lane e = lane ∧ delivery_open e = true ∧ d = get_str "dispatched_at" e.
Proof.
  revert c. induction r as [|[t0 v] r IH]; intros c; cbn [lane_candidates].
  - intros [= <-]. split; [by intros ?%elem_of_nil|]. by intros (e & ?%elem_of_nil & _).
  - assert (Hskip : (∀ e, v = JObj e → _delivery_lane e = lane → delivery_open e = true → False) → lane_candidates lane r = Ok c →
      (d, t) ∈ c ↔ ∃ e, (t, JObj e) ∈ (t0, v) :: r ∧ _delivery_lane e = lane ∧ delivery_open e = true ∧ d = get_str "dispatched_at" e).
    { intros Hno ->%IH. split; intros (e & He & Hl & Ho & Hd).
      - exists e. split; [by right|done].
      - apply elem_of_cons in He as [[= <- <-]|He]; [by destruct (Hno e)|eauto]. }
    destruct v as [| | | | |e]; try (by apply Hskip).
    destruct (bool_decide (_delivery_lane e = lane) && bool_decide (get_str "status" e = "in-flight")) eqn:Hl.
    + intros (_ & _ & H)%bind_Ok. apply bind_Ok in H as (rest & Hr & [= <-]). bool_inv.
      destruct (delivery_open e) eqn:Ho; [|apply Hskip; [by intros e' [= <-] _; rewrite Ho|done]].
      rewrite elem_of_cons, (IH rest Hr). split.
      * intros [[= -> ->]|(e' & He & ?)]; [exists e; split_and!; [left|done..]|exists e'; split; [by right|done]].
      * intros (e' & [[= -> ->]|He]%elem_of_cons & ? & ? & ->); [by left|right; eauto].
    + apply Hskip. intros e' [= <-] H1 H2. unfold delivery_open in H2. bool_inv. rewrite H1, H in Hl.
      by rewrite !bool_decide_eq_true_2 in Hl.
Qed.

Lemma pair_leb_total a b : pair_leb a b = true ∨ pair_leb b a = true.
Proof.
  destruct a as [a1 a2], b as [b1 b2]. unfold pair_leb. cbn.
  repeat case_decide; subst; try congruence; apply str_leb_total.
Qed.
Lemma pair_leb_trans a b c : pair_leb a b = true → pair_leb b c = true → pair_leb a c = true.
Proof.
  destruct a as [a1 a2], b as [b1 b2], c as [c1 c2]. unfold pair_leb. cbn.
  repeat case_decide; subst; try congruence; eauto using str_leb_trans.
  intros Hab Hbc. destruct H. by apply str_leb_antisym.
Qed.

Lemma pair_min_least m l : (pair_min m l ∈ m :: l) ∧ ∀ x, x ∈ m :: l → pair_leb (pair_min m l) x = true.
Proof.
  revert m. induction l as [|y l IH]; intros m; cbn [pair_min].
  - split; [left|]. intros x ->%list_elem_of_singleton. by destruct (pair_leb_total m m).
  - destruct (IH (if pair_leb m y then m else y)) as [Hin Hle]. split.
    + apply elem_of_cons in Hin as [->|Hin]; [destruct (pair_leb m y); set_solver|set_solver].
    + set (n := if pair_leb m y then m else y) in *.
      assert (pair_leb n m = true ∧ pair_leb n y = true) as [Hm Hy].
      { unfold n. destruct (pair_leb m y) eqn:E; destruct (pair_leb_total m y), (pair_leb_total m m), (pair_leb_total y y); split; congruence. }
      intros x [->|[->|Hx]%elem_of_cons]%elem_of_cons; [..|apply Hle; by right].
      * eapply pair_leb_trans; [apply Hle; left|done].
      * eapply pair_leb_trans; [apply Hle; left|done].
Qed.

Lemma delivery_head_least r lane t : _delivery_head r lane = Ok (Some t) →
  ∃ e, (t, JObj e) ∈ r ∧ _delivery_lane e = lane ∧ ∀ t' e', (t', JObj e') ∈ r → _delivery_lane e' = lane → delivery_open e' = true →
    pair_leb (get_str "dispatched_at" e, t) (get_str "dispatched_at" e', t') = true.
Proof.
  unfold _delivery_head. intros (c & Hc & H)%bind_Ok. destruct c as [|m c]; [done|]. injection H as Ht.
  destruct (pair_min_least m c) as [Hin Hle]. destruct (pair_min m c) as [d t0] eqn:E. cbn in Ht. subst t0.
  apply (lane_candidates_Ok _ _ _ _ _ Hc) in Hin as (e & He & Hl & _ & ->). exists e. split_and!; [done..|].
  intros t' e' He' Hl' Ho'. apply Hle, (lane_candidates_Ok _ _ _ _ _ Hc). eauto.
Qed.

(** ** Claims are fenced *)

(** C27. A claim succeeds only for the current attempt of the task, and leaves the
    delivery in progress.  Of a pooled worker it needs the assigned worker, epoch,
    lease generation and lane, a lease that still runs, and no other open task of
    the same worker.  Without a pool a queued task must be the head of its lane:
    no open task of the lane was dispatched before it. *)
Theorem claims_fenced w now task_id a r answer r' : NoDup r.*1 → claim_task w now task_id a r = (Ok answer, r') →
  ∃ e e', dget task_id r = JObj e ∧ dget task_id r' = JObj e' ∧
    attempt_id a = get_str "delivery_attempt_id" e ∧ get_str "delivery_state" e' = "in-progress" ∧
    (get_str "delivery_state" e = "in-progress" ∧ r' = r ∨
     get_str "delivery_state" e = "queued" ∧ get_str "status" e = "in-flight" ∧
     (pooled e = false → ∀ t other, dget t r = JObj other → _delivery_lane other = _delivery_lane e → delivery_open other = true →
        pair_leb (get_str "dispatched_at" e, task_id) (get_str "dispatched_at" other, t) = true)) ∧
    (pooled e = true →
       py_strip (default "" (worker_id a)) = get_str "delivery_worker_id" e ∧
       py_strip (default "" (worker_epoch a)) = get_str "worker_epoch" e ∧
       (∃ lease, lease_generation a = Some lease ∧ int_or (dget "lease_generation" e) 0 = Ok lease) ∧
       _lane (opt_json (claim_lane a)) = _delivery_lane e ∧
       (∃ local off, parse_dt (dget "lease_expires_at" e) = Some (local, Some off) ∧ (now < local - off)%Z) ∧
       ∀ t other, dget t r = JObj other → t ≠ task_id → get_str "delivery_worker_id" other = get_str "delivery_worker_id" e →
         get_str "status" other = "in-flight" → get_str "delivery_state" other ∉ DELIVERY_OPEN_STATES).
Proof.
  intros Hnd H. pose proof (claim_task_outcome w now task_id a r) as Ho. rewrite H in Ho.
  assert (Hpool : ∀ e, (pooled e = true → fenced now task_id a e r) → pooled e = true →
    py_strip (default "" (worker_id a)) = get_str "delivery_worker_id" e ∧
    py_strip (default "" (worker_epoch a)) = get_str "worker_epoch" e ∧
    (∃ lease, lease_generation a = Some lease ∧ int_or (dget "lease_generation" e) 0 = Ok lease) ∧
    _lane (opt_json (claim_lane a)) = _delivery_lane e ∧
    (∃ local off, parse_dt (dget "lease_expires_at" e) = Some (local, Some off) ∧ (now < local - off)%Z) ∧
    ∀ t other, dget t r = JObj other → t ≠ task_id → get_str "delivery_worker_id" other = get_str "delivery_worker_id" e →
      get_str "status" other = "in-flight" → get_str "delivery_state" other ∉ DELIVERY_OPEN_STATES).
  { intros e Hf Hp. destruct (Hf Hp) as (worker & (Hw & Hwe & ? & ? & ? & _)%worker_checks_Ok & Hl & Hb). subst worker.
    split_and!; [congruence|done..| |].
    - unfold lease_expired, not_before in Hl. destruct (parse_dt _) as [[local [off|]]|]; try done.
      injection Hl as Hl. exists local, off. bool_inv. done.
    - intros t other He Ht Hw Hs. rewrite Hwe in Hb. by apply (not_busy _ _ _ _ _ Hb He Ht Hw Hs). }
  inversion Ho as [|e e' He _ _ _ _ Hw|e ans He Hatt Hf Hs _|e e' ans He Hatt Hf Hs Hw]; subst; [by apply written_Ok in Hw as (_ & [=] & _)| |apply written_Ok in Hw as (-> & _ & ->)].
  - exists e, e. split_and!; eauto.
  - apply start_claim_Ok in Hs as (Hq & Hs & Hh & g & (Ht & _ & Hp)%started_touches). exists e, e'.
    rewrite dget_set, decide_True by done. split_and!; eauto. right. split_and!; [done..|]. intros Hnp t other Hother Hl Hop.
    apply Hh, delivery_head_least in Hnp as (e0 & He0 & _ & Hle).
    assert (e0 = e) as ->.
    { unfold dget in He. destruct (dict_get task_id r) eqn:Hg; cbn in He; [subst|done].
      apply dict_get_elem in He0; [|done]. congruence. }
    apply Hle; [apply dget_in; done|done..].
Qed.

(** ** A pooled worker claims *)

Module Claims1.
Definition task (status state worker : string) : entry :=
  [("status", JStr status); ("delivery_state", JStr state); ("delivery_attempt_id", JStr "a-1"); ("delivery_generation", JInt 1);
   ("delivery_lane", JStr "claude"); ("delivery_worker_id", JStr worker); ("worker_epoch", JStr "E1"); ("lease_generation", JInt 2);
   ("lease_expires_at", JStr "2026-08-28T01:00:00+00:00"); ("dispatched_at", JStr "2026-08-28T00:00:00+00:00")].
Definition r : registry :=
  [("TASK-1", JObj (task "in-flight" "queued" "w1")); ("TASK-2", JObj (task "in-flight" "in-progress" "w2"));
   ("TASK-3", JObj (task "complete" "in-progress" "w1"))].
Definition now : Z := 1787877000000000.
Definition args : ClaimArgs :=
  {| attempt_id := "a-1"; worker_id := Some "w1"; worker_epoch := Some "E1"; lease_generation := Some 2%Z; claim_lane := Some "claude" |}.
Definition late : Z := 1787878800000000.
Definition null_history : registry := [("TASK-1", JObj [("status", JStr "in-flight"); ("closure_history", JNull)])].
End Claims1.

Example claim_1 : is_ok (claim_task Landed Claims1.now "TASK-1" Claims1.args Claims1.r).1 = true.
Proof. vm_compute. reflexivity. Qed.
(** At the very moment the lease ends the claim is refused, and the task closed. *)
Example claim_2 :
  (claim_task Landed Claims1.late "TASK-1" Claims1.args Claims1.r).1 = Err (Exn ValueError "worker lease expired") ∧
  match dget "TASK-1" (claim_task Landed Claims1.late "TASK-1" Claims1.args Claims1.r).2 with
  | JObj e => get_str "delivery_state" e = "terminal"
  | _ => False
  end.
Proof. vm_compute. done. Qed.
(** A [closure_history] of null passes the preflight and fails in the write. *)
Example null_history_fails :
  close_task Landed Claims1.now ["TASK-1"] "done elsewhere" "closed" Claims1.null_history = (Err (Exn AttributeError "append"), Claims1.null_history).
Proof. vm_compute. reflexivity. Qed.

Lemma claims_fenced_witness :
  ∃ e e', dget "TASK-1" Claims1.r = JObj e ∧ dget "TASK-1" (claim_task Landed Claims1.now "TASK-1" Claims1.args Claims1.r).2 = JObj e' ∧
    pooled e = true ∧ get_str "delivery_state" e' = "in-progress".
Proof.
  destruct (claim_task Landed Claims1.now "TASK-1" Claims1.args Claims1.r) as [[answer|err] r'] eqn:H; [|by vm_compute in H].
  assert (Hnd : NoDup Claims1.r.*1) by by_decide.
  destruct (claims_fenced _ _ _ _ _ _ _ Hnd H) as (e & e' & He & He' & _ & Hs & _).
  exists e, e'. split_and!; [done..| |done]. vm_compute in He. injection He as <-. reflexivity.
Defined.
