(* ===== verification/SettlementProps.v ===== *)
(** * Properties of review settlement and of the registry as a whole

    What a settlement needs and leaves, and the registry as a state machine:
    every operation of [Registry] and [Settlement] as one step, the change it
    makes to each entry, and the properties of the reachable registries. *)
From S2P Require Import Prelude Regex Sha256 Json Posix PyText PyTime JsonProps Contract ProcessTruth Registry RegistryProps Settlement.

(** ** What a settlement is warranted by *)

Definition reviewing_lane (e : entry) : string := _lane (dget "review_model" e).

(** The configured reviewer is of a known family, not the author's. *)
Definition cross_family (e : entry) : Prop :=
  family_of (reviewing_lane e) ≠ "" ∧ _entry_author_family e ≠ "" ∧ family_of (reviewing_lane e) ≠ _entry_author_family e.

(** The task the registry, or else the packets, say a review is of. *)
Definition registered_target (w : World) (review_task : string) (e : entry) (target : string) : Prop :=
  (∃ s, dget "reviews" e = JStr s ∧ py_strip s = target) ∨
  (dget "reviews" e = JNull ∧ ∃ scans raw, packet_scans w review_task = Ok scans ∧ _packet_review_target scans = Ok raw ∧ py_strip raw = target).

(** The three kinds of review and what each establishes.  A standard review is
    the response of a task the registry sent to the configured reviewer about
    this task.  An attestation and a security review bind the digest of the
    reviewed response; who wrote them is what they say of themselves. *)
Inductive warrant (w : World) (r : registry) (task_id response review : string) (e : entry) : Prop :=
  | standard_warrant review_entry meta :
      _review_class e = Ok "standard" → dget (response_task review) r = JObj review_entry →
      _lane (dget "to_model" review_entry) = reviewing_lane e →
      registered_target w (response_task review) review_entry task_id →
      read_meta w false review = Ok meta → by_coordinator meta = false → upper_meta "type" meta = "RESULT" →
      _lane (JStr (meta_get "from" meta)) = reviewing_lane e →
      registry_status (meta_get "status" meta) ∈ ["complete"; "needs_review"] → warrant w r task_id response review e
  | factual_warrant meta :
      _review_class e = Ok "factual" → read_meta w false review = Ok meta → lower_meta "from" meta = "chrono" →
      upper_meta "type" meta = "REVIEW_ATTESTATION" → py_strip (meta_get "in_response_to" meta) = task_id →
      _lane (JStr (meta_get "reviewer_lane" meta)) = reviewing_lane e →
      registry_status (meta_get "status" meta) = "complete" →
      file_sha256 w response = Ok (lower_meta "attested_response_sha256" meta) → warrant w r task_id response review e
  | security_warrant meta :
      _review_class e = Ok "security-finding" → read_meta w false review = Ok meta → by_coordinator meta = false →
      py_strip (meta_get "in_response_to" meta) = task_id → _lane (JStr (meta_get "from" meta)) = reviewing_lane e →
      registry_status (meta_get "status" meta) = "complete" →
      file_sha256 w response = Ok (lower_meta "reviewed_response_sha256" meta) → warrant w r task_id response review e.

Ltac chk_inv H := unfold check in H; apply bind_Ok in H as (_ & ?Hc%raise_if_Ok & H).

Lemma factual_Ok w r task_id e response review : _validate_factual_attestation w task_id e response review = Ok tt →
  _review_class e = Ok "factual" → cross_family e ∧ warrant w r task_id response review e.
Proof.
  intros H Hcls. revert H. unfold _validate_factual_attestation. intros (meta & Hm & H)%bind_Ok. do 8 chk_inv H.
  apply bind_Ok in H as (digest & Hd & H). unfold check, nonempty in *. apply raise_if_Ok in H. bool_inv. subst.
  split; [|eapply factual_warrant; eauto]. unfold cross_family, reviewing_lane. repeat match goal with Hx : _ = _lane _ |- _ => rewrite <- Hx end.
  split_and!; congruence.
Qed.

Lemma security_Ok w r task_id e response review : _validate_security_review w task_id e response review = Ok tt →
  _review_class e = Ok "security-finding" → cross_family e ∧ warrant w r task_id response review e.
Proof.
  intros H Hcls. revert H. unfold _validate_security_review. intros (meta & Hm & H)%bind_Ok. do 5 chk_inv H.
  apply bind_Ok in H as (digest & Hd & H). chk_inv H. unfold check, nonempty in *. apply raise_if_Ok in H. bool_inv. subst.
  split; [|eapply security_warrant; eauto]. unfold cross_family, reviewing_lane. repeat match goal with Hx : _ = _lane _ |- _ => rewrite <- Hx end.
  split_and!; congruence.
Qed.

Lemma target_of_Ok w t re r raw r' : review_target_of w t re r = Ok (raw, r') →
  registered_target w t re (py_strip raw) ∧ (r' = r ∨ ∃ re', touches ["reviews"] re re' ∧ r' = dict_set t (JObj re') r).
Proof.
  unfold review_target_of, registered_target. destruct (dget "reviews" re) as [| | |s| |] eqn:Hr; try done.
  - intros (scans & Hs & H)%bind_Ok. apply bind_Ok in H as ([target re'] & Hp & [= <- <-]).
    pose proof (project_touches _ _ _ _ Hp) as Ht.
    unfold _project_review_packet_provenance in Hp. rewrite Hr in Hp. cbn [is_null] in Hp. rewrite bind_ret in Hp.
    apply bind_Ok in Hp as (packet & Hpk & Hp). apply bind_Ok in Hp as (_ & _ & Hp).
    split; [right; split; [done|]; exists scans, packet; case_match; bool_inv; naive_solver|right; eauto].
  - intros [= <- <-]. eauto 6.
Qed.

Lemma standard_Ok w task_id e response review r r' : _validate_standard_review w task_id e review r = Ok r' →
  _review_class e = Ok "standard" → cross_family e ∧ warrant w r task_id response review e ∧
    (r' = r ∨ ∃ re re', dget (response_task review) r = JObj re ∧ touches ["reviews"] re re' ∧
       r' = dict_set (response_task review) (JObj re') r).
Proof.
  intros H Hcls. revert H. unfold _validate_standard_review. intros (meta & Hm & H)%bind_Ok. do 2 chk_inv H.
  apply bind_Ok in H as ([p r1] & Hp & H). do 8 chk_inv H. injection H as <-.
  unfold _standard_review_provenance in Hp. chk_inv Hp. destruct (dget (response_task review) r) as [| | | | |re] eqn:Hre; try done.
  apply bind_Ok in Hp as ([raw r2] & Ht & Hp). do 3 chk_inv Hp. injection Hp as <- <-. cbn [review_target reviewer_lane reviewer_family] in *.
  apply target_of_Ok in Ht as [Ht Hr']. unfold nonempty in *. bool_inv. subst.
  split_and!; [|eapply standard_warrant; eauto; unfold reviewing_lane; congruence|naive_solver]. unfold cross_family, reviewing_lane.
  repeat match goal with Hx : _ = _lane (dget "review_model" _) |- _ => rewrite <- Hx end. split_and!; congruence.
Qed.

Lemma canonical_class_in v c : canonical_review_class v = Ok c → c ∈ REVIEW_CLASSES.
Proof.
  unfold canonical_review_class, check, invalid. destruct v; try done.
  intros (_ & _ & H)%bind_Ok. apply bind_Ok in H as (_ & H%raise_if_Ok & [= <-]). by bool_inv.
Qed.

(** A review that passed warrants the settlement and at most links its own task. *)
Lemma reviewed_Ok w task_id review response e r cls settled_by r' :
  reviewed w task_id review response e r = Ok (cls, settled_by, r') →
  cross_family e ∧ warrant w r task_id response review e ∧ startswith settled_by "chrono-" = true ∧
  (r' = r ∨ ∃ re re', dget (response_task review) r = JObj re ∧ touches ["reviews"] re re' ∧
     r' = dict_set (response_task review) (JObj re') r).
Proof.
  unfold reviewed. intros (c & Hc & H)%bind_Ok. pose proof (canonical_class_in _ _ Hc) as Hin.
  destruct (bool_decide_reflect (c = "factual")) as [->|]; [|destruct (bool_decide_reflect (c = "security-finding")) as [->|]].
  - apply bind_Ok in H as ([] & Hv & [= <- <- <-]). destruct (factual_Ok w r _ _ _ _ Hv Hc). auto.
  - apply bind_Ok in H as ([] & Hv & [= <- <- <-]). destruct (security_Ok w r _ _ _ _ Hv Hc). auto.
  - assert (c = "standard") as -> by set_solver.
    apply bind_Ok in H as (r1 & Hv & [= <- <- <-]). destruct (standard_Ok _ _ _ response _ _ _ Hv Hc) as (? & ? & ?). auto.
Qed.

(** ** What a settlement writes *)

Definition SETTLED_KEYS : list string :=
  ["capability_card_current_sha256"; "capability_card_drift"; "capability_card_drift_checked_at"; "capability_echo_absence";
   "worker_lease_absence"; "status"; "completed_at"; "reconciled_at"; "review_settled_at"; "review_settled_by";
   "cross_family_review_ref"; "review_ref"; "verdict"; "review_force_override"; "review_force_override_at";
   "coordinator_attestation_ref"; "response_path"; "review_blocking_ref"; "review_signature"].

Lemma advise_touches ref key note e e' b lines : advise ref key note e = (e', b, lines) → touches [key] e e'.
Proof. unfold advise. case_match; intros [= <- _ _]; [apply touches_set|apply touches_del]; set_solver. Qed.

Lemma settled_touches w ref response absent review cls settled_by verdict forced e e' lines :
  settled_entry w ref response absent review cls settled_by verdict forced e = (e', lines) → touches SETTLED_KEYS e e'.
Proof.
  unfold settled_entry. destruct (update_capability_card_drift _ _ _) as [e1 x] eqn:Hd.
  unfold record_settlement_advisories. destruct (advise ref "capability_echo_absence" _ _) as [[e2 m] l2] eqn:H2.
  destruct (advise ref "worker_lease_absence" _ _) as [[e3 m3] l3] eqn:H3. intros [<- _]%pair_equal_spec.
  apply advise_touches in H2, H3.
  assert (touches SETTLED_KEYS e e1).
  { unfold update_capability_card_drift in Hd. case_match; injection Hd as <- _; [apply touches_refl|]. touch_tac. }
  do 2 (eapply touches_trans; [|apply touches_del; by_decide]).
  eapply touches_trans; [|apply touches_update; unfold settled_fields; destruct forced, (bool_decide _); by apply within_keys].
  eapply touches_trans; [eassumption|]. eapply touches_trans; [eapply touches_weaken; [|exact H2]|eapply touches_weaken; [|exact H3]]; by apply within_keys.
Qed.

(** The settled entry's own fields. *)
Lemma settled_field w ref response absent review cls settled_by verdict forced e e' lines k v :
  settled_entry w ref response absent review cls settled_by verdict forced e = (e', lines) →
  dict_get k (settled_fields (settle_clock w) response review cls settled_by verdict forced) = Some v →
  dget k e' = v.
Proof.
  unfold settled_entry. destruct (update_capability_card_drift _ _ _) as [e1 x].
  destruct (record_settlement_advisories _ _ _) as [[e2 m] l2]. intros [<- _]%pair_equal_spec Hk.
  assert (k ≠ "review_signature" ∧ k ≠ "review_blocking_ref") as [H1 H2].
  { split; intros ->; revert Hk; unfold settled_fields; destruct forced, (bool_decide _); done. }
  unfold dget. rewrite !dict_get_del by done. rewrite dict_get_update.
  - by rewrite Hk.
  - unfold settled_fields. destruct forced, (bool_decide _); cbn; by_decide.
Qed.

(** The entry a settlement settles is the held one, perhaps with its own review
    link added by the provenance. *)
Definition linked (e e' : entry) : Prop := touches ["reviews"] e e'.

(** What a settlement that was not refused did. *)
Record settlement (w : World) (task_id ref : string) (force : bool) (r r' : registry) (e e' : entry)
    (review response verdict : string) : Prop := {
  found_review : _review_reference w ref = Ok review;
  held : dget task_id r = JObj e ∧ settled_already e = false ∧ get_str "status" e ∈ HELD_STATUSES;
  others_response : review ≠ response;
  pending : ∃ status lane review_lane, response_review_pending w e status = Ok (true, lane, review_lane);
  warranted : warrant w r task_id response review e;
  crossed : cross_family e;
  approved : ∃ r1, review_verdict w review r1 = Ok verdict ∧ (force = false → verdict = "APPROVE");
  written : ∃ e1 absent cls settled_by lines, linked e e1 ∧ startswith settled_by "chrono-" = true ∧
    settled_entry w (_canonical_mailbox_label +:+ "/" +:+ task_id) response absent review cls settled_by
      (if bool_decide (verdict = "") then "MISSING" else verdict) (negb (bool_decide (verdict = "APPROVE")) && force) e1 = (e', lines);
  replaced : dget task_id r' = JObj e';
  others : ∀ t, t ≠ task_id → dget t r' = dget t r ∨
    t = response_task review ∧ ∃ re re', dget t r = JObj re ∧ linked re re' ∧ dget t r' = JObj re'
}.

Lemma response_for_Ok w task_id review e response absent : response_for w task_id review e = Ok (response, absent) →
  review ≠ response ∧ ∃ status lane review_lane, response_review_pending w e status = Ok (true, lane, review_lane).
Proof.
  unfold response_for. intros (cs & _ & H)%bind_Ok. apply bind_Ok in H as (landed & _ & H).
  destruct landed as [[resp status]|]; [|done]. apply bind_Ok in H as ([issue ab] & _ & H). chk_inv H.
  apply bind_Ok in H as (issue' & _ & H). do 3 chk_inv H. apply bind_Ok in H as ([[p lane] review_lane] & Hp & H).
  chk_inv H. injection H as <- <-. bool_inv. subst. eauto.
Qed.

Lemma verdict_Ok w review r force verdict forced : require_approval_verdict w review r force = Ok (verdict, forced) →
  ∃ v, review_verdict w review r = Ok v ∧ (force = false → v = "APPROVE") ∧
    verdict = (if bool_decide (v = "") then "MISSING" else v) ∧ forced = negb (bool_decide (v = "APPROVE")) && force.
Proof.
  unfold require_approval_verdict. intros (v & Hv & H)%bind_Ok. chk_inv H. injection H as <- <-.
  exists v. split_and!; try done. intros ->. bool_inv. rewrite orb_false_r in Hc. by bool_inv.
Qed.

(** What a settlement writes and announces, if it is not refused. *)
Definition settlement_of (w : World) (task_id ref : string) (force : bool) (r : registry) : res (option (registry * list queue_line)) :=
  ref ← _review_reference w ref; settle_held w task_id ref force r.

Lemma settlement_of_Ok w task_id ref force r r' lines : settlement_of w task_id ref force r = Ok (Some (r', lines)) →
  ∃ e e' review response verdict, settlement w task_id ref force r r' e e' review response verdict.
Proof.
  unfold settlement_of. intros (review & Hrev & H)%bind_Ok.
  unfold settle_held, invalid in H. destruct (dget task_id r) as [| | | | |e] eqn:He; try done.
  destruct (settled_already e) eqn:Hs; [by apply bind_Ok in H as (_ & _ & H)|]. chk_inv H.
  apply bind_Ok in H as (d & H & [= ->]). unfold settle_entry in H.
  apply bind_Ok in H as ([response absent] & [Hne Hp]%response_for_Ok & H).
  apply bind_Ok in H as ([[cls settled_by] r2] & (Hx & Hw & Hby & Hr2)%reviewed_Ok & H).
  apply bind_Ok in H as ([verdict forced] & (v & Hv & Hf & -> & ->)%verdict_Ok & H). cbn beta iota zeta in H.
  set (e1 := match dget task_id r2 with JObj e => e | _ => e end) in H.
  assert (linked e e1) as Hl.
  { destruct Hr2 as [->|(re & re' & Hre & Ht & ->)]; unfold e1; [rewrite He; apply touches_refl|].
    rewrite dget_set. destruct (decide (response_task review = task_id)) as [Hd|Hd]; [|rewrite He; apply touches_refl]. rewrite Hd, He in Hre. by injection Hre as ->. }
  match type of H with context [settled_entry ?a ?b ?c ?d ?f ?g ?h ?i ?j ?k] =>
    destruct (settled_entry a b c d f g h i j k) as [e' adv] eqn:Hse end.
  injection H as <- _.
  exists e, e', review, response, v. bool_inv. split; [done..| | | | | |]; eauto 10.
  - by rewrite dget_set, decide_True.
  - intros t Ht. rewrite dget_set, decide_False by done. destruct Hr2 as [->|(re & re' & Hre & Hre' & ->)]; [by left|].
    rewrite dget_set. destruct (decide (response_task review = t)) as [<-|Hd]; [right; split; [done|]; eauto|by left].
Qed.

(** A settlement that returned true was written and announced in full. *)
Lemma settle_review_done s w task_id ref force r r' lines : settle_review s w task_id ref force r = (Ok true, (r', lines)) →
  settlement_of w task_id ref force r = Ok (Some (r', lines)).
Proof.
  unfold settle_review. change (_review_reference w ref ≫= _) with (settlement_of w task_id ref force r).
  destruct (settlement_of w task_id ref force r) as [[[r1 l]|]|]; [|done..]. by intros (_ & -> & ->)%announced_Ok.
Qed.
Lemma settle_review_Ok s w task_id ref force r r' lines : settle_review s w task_id ref force r = (Ok true, (r', lines)) →
  ∃ e e' review response verdict, settlement w task_id ref force r r' e e' review response verdict.
Proof. intros H%settle_review_done. by eapply settlement_of_Ok. Qed.

Lemma settled_status_complete w task_id ref force r r' e e' review response verdict :
  settlement w task_id ref force r r' e e' review response verdict →
  get_str "status" e' = "complete" ∧ touches ("reviews" :: SETTLED_KEYS) e e'.
Proof.
  intros []. destruct written0 as (e1 & absent & cls & by_ & lines & Hl & _ & Hs). split.
  - unfold get_str. by rewrite (settled_field _ _ _ _ _ _ _ _ _ _ _ _ "status" (JStr "complete") Hs).
  - apply (touches_trans _ _ e1); [eapply touches_weaken; [|exact Hl]|eapply touches_weaken; [|by eapply settled_touches]];
      by apply within_keys.
Qed.

(** ** The registry as a state machine *)

Inductive operation :=
  | Register (s : Storage) (scans : list (list string)) (task_id : string) (e : entry)
  | Claim (s : Storage) (now : Z) (task_id : string) (a : ClaimArgs)
  | Close (s : Storage) (now : Z) (raw : list string) (reason target : string)
  | Reopen (s : Storage) (now : Z) (task_id : string) (target : option string)
  | Settle (s : Storage) (w : World) (task_id ref : string) (force : bool).

(** Whether the operation returned, and the registry it leaves. *)
Definition perform (o : operation) (r : registry) : bool * registry :=
  match o with
  | Register s scans task_id e => let '(v, r') := register_task (registry_write s) scans task_id e r in (is_ok v, r')
  | Claim s now task_id a => let '(v, r') := claim_task (registry_write s) now task_id a r in (is_ok v, r')
  | Close s now raw reason target => let '(v, r') := close_task (registry_write s) now raw reason target r in (is_ok v, r')
  | Reopen s now task_id target => let '(v, (r', _)) := reopen_task s now task_id target r in (is_ok v, r')
  | Settle s w task_id ref force => let '(v, (r', _)) := settle_review s w task_id ref force r in (is_ok v, r')
  end.
(** The lines it queues. *)
Definition announced (o : operation) (r : registry) : list queue_line :=
  match o with
  | Reopen s now task_id target => (reopen_task s now task_id target r).2.2
  | Settle s w task_id ref force => (settle_review s w task_id ref force r).2.2
  | _ => []
  end.
(** The same operation, none of its writes failing. *)
Definition reliably (o : operation) : operation :=
  match o with
  | Register _ scans task_id e => Register reliable scans task_id e
  | Claim _ now task_id a => Claim reliable now task_id a
  | Close _ now raw reason target => Close reliable now raw reason target
  | Reopen _ now task_id target => Reopen reliable now task_id target
  | Settle _ w task_id ref force => Settle reliable w task_id ref force
  end.

(** The change one operation makes to one entry. *)
Inductive change (claiming : bool) (e : entry) : entry → Prop :=
  | unchanged : change claiming e e
  | expired e' : touches EXPIRED_KEYS e e' → extends "delivery_history" e e' →
      (get_str "delivery_state" e' = "terminal" ∨ get_str "delivery_state" e' = get_str "delivery_state" e) → change claiming e e'
  | started e' : claiming = true → touches STARTED_KEYS e e' → extends "delivery_history" e e' → change claiming e e'
  | closed target e' : get_str "status" e ∉ CLOSE_STATUSES → target ∈ CLOSE_STATUSES → touches CLOSED_KEYS e e' →
      extends "closure_history" e e' → get_str "status" e' = target → change claiming e e'
  | reopened target e' : get_str "status" e = "complete" → target ∈ REOPEN_STATUSES → touches REOPENED_KEYS e e' →
      extends "reopen_history" e e' → get_str "status" e' = target → change claiming e e'
  | relinked e' : linked e e' → change claiming e e'
  | settled e' : get_str "status" e ∈ HELD_STATUSES → touches ("reviews" :: SETTLED_KEYS) e e' →
      get_str "status" e' = "complete" → change claiming e e'.

(** An entry is kept with a change, and whatever appears is new. *)
Definition slot (claiming : bool) (new : entry → Prop) (v v' : json) : Prop :=
  (∀ e, v = JObj e → ∃ e', v' = JObj e' ∧ change claiming e e') ∧
  ((∀ e, v ≠ JObj e) → v' = v ∨ ∃ e', v' = JObj e' ∧ new e').
Definition evolves (claiming : bool) (new : entry → Prop) (r r' : registry) : Prop :=
  ∀ t, slot claiming new (dget t r) (dget t r').

Lemma slot_refl b new v : slot b new v v.
Proof. split; [|by left]. intros e He. exists e. split; [done|constructor]. Qed.
Lemma slot_change b new e e' : change b e e' → slot b new (JObj e) (JObj e').
Proof. intros Hc. split; [intros ? [= <-]; eauto|by intros []%(λ H, H e)]. Qed.
Lemma registry_evolves_refl b new r : evolves b new r r.
Proof. intros t. apply slot_refl. Qed.
Lemma evolves_set b new r task_id e e' : dget task_id r = JObj e → change b e e' → evolves b new r (dict_set task_id (JObj e') r).
Proof.
  intros He Hc t. rewrite dget_set. destruct (decide (task_id = t)) as [<-|]; [|apply slot_refl].
  rewrite He. by apply slot_change.
Qed.
Lemma evolves_new b (new : entry → Prop) r task_id e :
  dget task_id r = JNull → new e → evolves b new r (dict_set task_id (JObj e) r).
Proof.
  intros He Hn t. rewrite dget_set. destruct (decide (task_id = t)) as [<-|]; [|apply slot_refl].
  rewrite He. split; [done|]. intros _. right. eauto.
Qed.

(** A write leaves the old registry or the whole new one. *)
Lemma write_evolves {A} b new w r r1 (answer : res A) : evolves b new r r1 → evolves b new r (write_registry w r r1 answer).2.
Proof. intros H. destruct (written_registry w r r1 answer) as [-> | ->]; [apply registry_evolves_refl|done]. Qed.

Lemma register_evolves w scans task_id e r : evolves false (touches PREPARED_KEYS e) r (register_task w scans task_id e r).2.
Proof.
  unfold register_task. destruct (prepared_entry scans e) as [e0|] eqn:Hp; [|apply registry_evolves_refl].
  destruct (dget task_id r) as [| | | | |existing] eqn:Hr; try apply registry_evolves_refl; [apply write_evolves; by eapply evolves_new, prepared_touches|].
  destruct (reregister existing e0) as [[enriched|]|] eqn:He; try apply registry_evolves_refl.
  apply reregister_touches in He as [Ht _]. apply write_evolves. eapply evolves_set; [done|]. by apply relinked.
Qed.

Lemma claim_evolves w now task_id a r : evolves true (λ _, False) r (claim_task w now task_id a r).2.
Proof.
  destruct (claim_task_outcome w now task_id a r) as [|e e' He _ _ _ Hx| |e e' ans He _ _ Hs]; cbn [snd]; try apply registry_evolves_refl.
  - apply expired_touches in Hx as (Ht & Hx & Hd). apply write_evolves. eapply evolves_set; [done|]. by apply expired.
  - apply start_claim_Ok in Hs as (_ & _ & _ & g & (Ht & Hx & _)%started_touches). apply write_evolves. eapply evolves_set; [done|]. by apply started.
Qed.

Lemma close_task_evolves w now raw reason target r : evolves false (λ _, False) r (close_task w now raw reason target r).2.
Proof.
  unfold close_task. destruct (close_batch now raw reason target r) as [[report r']|] eqn:H; [|apply registry_evolves_refl].
  destruct (any_closed report); [apply write_evolves|apply registry_evolves_refl].
  apply close_batch_Ok in H as (prepared & Htg & Hnd & _ & Hf & Hall & _). apply close_all_get in Hall as [H1 H2]; [|done].
  intros t. destruct (existsb (λ p : string * (entry * bool), bool_decide (p.1 = t) && p.2.2) prepared) eqn:Hb.
  - apply existsb_exists in Hb as ([t' [e b]] & Hin & Hb). apply list_elem_of_In in Hin. cbn in Hb. bool_inv. subst.
    destruct (H2 _ _ Hin) as (e' & (Ht & Hx & Hs)%closed_touches & ->).
    rewrite Forall_forall in Hf. apply Hf in Hin. cbn in Hin. apply close_preflight_Ok in Hin as (-> & Hn & _).
    apply slot_change, (closed _ e target); [by apply Hn|done..].
  - rewrite H1; [apply slot_refl|]. intros e Hin. apply not_true_iff_false in Hb. apply Hb, existsb_exists.
    exists (t, (e, true)). split; [by apply list_elem_of_In|]. cbn. by rewrite bool_decide_eq_true_2.
Qed.

Lemma reopen_evolves s now task_id target r : evolves false (λ _, False) r (reopen_task s now task_id target r).2.1.
Proof.
  unfold reopen_task. destruct (match target with Some _ => _ | None => Ok tt end) as [u|] eqn:Hok; [|apply registry_evolves_refl].
  destruct (dget task_id r) as [| | | | |e] eqn:He; try apply registry_evolves_refl.
  destruct (reopen_entry now target e) as [[e'|]|] eqn:H; try apply registry_evolves_refl.
  apply reopen_entry_Ok in H as [Hs (Ht & Hx & Hs')%reopened_touches]. rewrite announced_registry. apply write_evolves. eapply evolves_set; [done|].
  eapply reopened; [done| |done..]. apply reopen_target_in. intros t ->. unfold check in Hok. destruct u.
  apply raise_if_Ok in Hok. by bool_inv.
Qed.

Lemma settle_evolves s w task_id ref force r : evolves false (λ _, False) r (settle_review s w task_id ref force r).2.1.
Proof.
  unfold settle_review. change (_review_reference w ref ≫= _) with (settlement_of w task_id ref force r).
  destruct (settlement_of w task_id ref force r) as [[[r' lines]|]|] eqn:H; try apply registry_evolves_refl.
  rewrite announced_registry. apply write_evolves. apply settlement_of_Ok in H as (e & e' & review & response & verdict & Hs).
  destruct (settled_status_complete _ _ _ _ _ _ _ _ _ _ _ Hs) as [Hc Ht]. destruct Hs as [_ [He [_ Hh]] _ _ _ _ _ _ He' Ho].
  intros t. destruct (decide (t = task_id)) as [->|Hne].
  - rewrite He, He'. by apply slot_change, settled.
  - destruct (Ho t Hne) as [->|(_ & re & re' & -> & Hl & ->)]; [apply slot_refl|]. by apply slot_change, relinked.
Qed.

Definition is_claim (o : operation) : bool := match o with Claim _ _ _ _ => true | _ => false end.
(** An entry registered by [o]. *)
Definition registered (o : operation) (e' : entry) : Prop :=
  match o with Register _ _ _ e => touches PREPARED_KEYS e e' | _ => False end.

Lemma perform_evolves o r : evolves (is_claim o) (registered o) r (perform o r).2.
Proof.
  destruct o as [s scans t e|s now t a|s now raw reason target|s now t target|s w t ref force]; cbn [perform].
  - pose proof (register_evolves (registry_write s) scans t e r). by destruct (register_task (registry_write s) scans t e r).
  - pose proof (claim_evolves (registry_write s) now t a r). by destruct (claim_task (registry_write s) now t a r).
  - pose proof (close_task_evolves (registry_write s) now raw reason target r). by destruct (close_task (registry_write s) now raw reason target r).
  - pose proof (reopen_evolves s now t target r). by destruct (reopen_task s now t target r) as [? [? ?]].
  - pose proof (settle_evolves s w t ref force r). by destruct (settle_review s w t ref force r) as [? [? ?]].
Qed.

(** ** Entries over many operations *)

Definition run (os : list operation) (r : registry) : registry := fold_left (λ r o, (perform o r).2) os r.

(** The statuses of a task: closed for good from anywhere, settled while held
    for review, reopened once complete. *)
Inductive moves : string → string → Prop :=
  | stays s : moves s s
  | closes s t : s ∉ CLOSE_STATUSES → t ∈ CLOSE_STATUSES → moves s t
  | settles s : s ∈ HELD_STATUSES → moves s "complete"
  | reopens t : t ∈ REOPEN_STATUSES → moves "complete" t.

Lemma change_moves b e e' : change b e e' → moves (get_str "status" e) (get_str "status" e').
Proof.
  intros [|e1 Ht _ _|e1 _ Ht _|target e1 Hs Htg _ _ <-|target e1 -> Htg _ _ <-|e1 Ht|e1 Hh _ ->]; try by constructor.
  - rewrite (touches_str _ _ _ _ Ht) by by_decide. constructor.
  - rewrite (touches_str _ _ _ _ Ht) by by_decide. constructor.
  - rewrite (touches_str _ _ _ _ Ht) by by_decide. constructor.
Qed.

Definition follows (e e' : entry) : Prop := rtc moves (get_str "status" e) (get_str "status" e').
#[export] Instance follows_preorder : PreOrder follows.
Proof. split; [intros e; apply rtc_refl|intros e1 e2 e3; unfold follows; apply rtc_trans]. Qed.

Lemma moves_final s t : moves s t → s ∈ CLOSE_STATUSES → t = s.
Proof. intros [|s' t' Hs _|s' Hs|t' Ht] Hc; [done|done|exfalso; set_solver|exfalso; set_solver]. Qed.

Lemma change_grows b e e' : change b e e' → grows e e'.
Proof.
  intros [|e1 Ht Hx _|e1 _ Ht Hx|target e1 _ _ Ht Hx _|target e1 _ _ Ht Hx _|e1 Ht|e1 _ Ht _] k Hk; [reflexivity|..].
  all: repeat (apply elem_of_cons in Hk as [->|Hk]; [first [exact Hx|apply (touches_extends _ _ _ _ Ht); by_decide]|]).
  all: by apply elem_of_nil in Hk.
Qed.

(** A property of the changes that composes holds over a run. *)
Lemma run_changes (P : entry → entry → Prop) `{!PreOrder P} : (∀ b e e', change b e e' → P e e') →
  ∀ os r t e, dget t r = JObj e → ∃ e', dget t (run os r) = JObj e' ∧ P e e'.
Proof.
  intros HP os. induction os as [|o os IH]; intros r t e He; cbn [run fold_left].
  - exists e. by split.
  - destruct (proj1 (perform_evolves o r t) _ He) as (e1 & He1 & Hc%HP).
    destruct (IH _ _ _ He1) as (e2 & He2 & H2). exists e2. split; [exact He2|by etrans].
Qed.

(** ** One task per pooled worker *)

Definition running (worker : string) (e : entry) : Prop :=
  get_str "delivery_worker_id" e = worker ∧ get_str "status" e = "in-flight" ∧
  get_str "delivery_state" e ∈ ["claimed"; "in-progress"].
Definition exclusive (r : registry) : Prop :=
  ∀ worker t t' e e', worker ≠ "" → dget t r = JObj e → dget t' r = JObj e' → running worker e → running worker e' → t = t'.

(** A task is registered before it is delivered. *)
Definition undelivered (o : operation) : Prop :=
  match o with Register _ _ _ e => get_str "delivery_state" e ∉ ["claimed"; "in-progress"] | _ => True end.
Inductive reachable : registry → Prop :=
  | no_tasks : reachable []
  | operated o r : undelivered o → reachable r → reachable (perform o r).2.

Lemma change_running e e' worker : change false e e' → running worker e' → running worker e.
Proof.
  unfold running.
  intros [|e1 Ht _ Hd|e1 [=]|target e1 _ Htg _ _ <-|target e1 _ Htg _ _ <-|e1 Ht|e1 _ _ Hs] (Hw & Hi & Hr); [done|..].
  - rewrite (touches_str _ _ _ _ Ht) in Hw by by_decide. rewrite (touches_str _ _ _ _ Ht) in Hi by by_decide. split_and!; [done..|].
    destruct Hd as [Hd|Hd]; [exfalso; rewrite Hd in Hr; revert Hr; by_decide|by rewrite <- Hd].
  - exfalso. rewrite Hi in Htg. revert Htg. by_decide.
  - exfalso. rewrite Hi in Htg. revert Htg. by_decide.
  - rewrite (touches_str _ _ _ _ Ht) in Hw by by_decide. rewrite (touches_str _ _ _ _ Ht) in Hi by by_decide.
    by rewrite (touches_str _ _ _ _ Ht) in Hr by by_decide.
  - by rewrite Hs in Hi.
Qed.

(** Backwards: a running task was running, or has just been claimed or registered. *)
Lemma perform_running o r t e' worker : is_claim o = false → undelivered o → dget t (perform o r).2 = JObj e' → running worker e' →
  ∃ e, dget t r = JObj e ∧ running worker e.
Proof.
  intros Ho Hu He' Hrun. pose proof (perform_evolves o r t) as [H1 H2]. rewrite Ho in H1.
  destruct (dget t r) as [| | | | |e] eqn:Hr.
  6: { destruct (H1 _ eq_refl) as (e1 & He1 & Hc). rewrite He1 in He'. injection He' as <-.
       exists e. split; [done|]. by eapply change_running. }
  all: destruct H2 as [H2|(e1 & He1 & Hn)]; [done|rewrite He' in H2; discriminate H2|].
  all: rewrite He1 in He'; injection He' as <-; exfalso; destruct o; cbn in Hn; try done.
  all: destruct Hrun as (_ & _ & Hs); rewrite (touches_str _ _ _ _ Hn) in Hs by by_decide; by apply Hu.
Qed.

Lemma claim_exclusive w now task_id a r : exclusive r → exclusive (claim_task w now task_id a r).2.
Proof.
  intros Hx. destruct (claim_task_outcome w now task_id a r) as [|e e1 He _ _ _ Hs| |e e1 ans He _ Hf Hs]; try done.
  all: match goal with |- exclusive (write_registry ?w ?r ?r1 ?v).2 => destruct (written_registry w r r1 v) as [-> | ->]; [done|] end.
  - apply expired_touches in Hs as (Ht & Hh & Hd).
    assert (Hback : ∀ t e' worker, dget t (dict_set task_id (JObj e1) r) = JObj e' → running worker e' →
      ∃ e0, dget t r = JObj e0 ∧ running worker e0).
    { intros t e' worker. rewrite dget_set. destruct (decide (task_id = t)) as [<-|]; [|eauto].
      intros [= <-] Hrun. exists e. split; [done|]. eapply change_running; [|exact Hrun]. by apply expired. }
    intros worker t t' e2 e3 Hw H2 H3 Hr2 Hr3.
    destruct (Hback _ _ _ H2 Hr2) as (? & ? & ?), (Hback _ _ _ H3 Hr3) as (? & ? & ?). by eapply Hx.
  - apply start_claim_Ok in Hs as (_ & _ & _ & g & (Ht & _)%started_touches).
    assert (Halone : ∀ worker t e', worker ≠ "" → t ≠ task_id → running worker e1 → dget t r = JObj e' → running worker e' → False).
    { intros worker t e' Hw Hne (Hw1 & _) He' (Hw' & Hi' & Hs'). rewrite (touches_str _ _ _ _ Ht) in Hw1 by by_decide.
      assert (Hp : pooled e = true).
      { unfold pooled. unfold get_str, str_or_empty in Hw1. by destruct (truthy (dget "delivery_worker_id" e)). }
      destruct (Hf Hp) as (worker' & (_ & Hwk & _)%worker_checks_Ok & _ & Hb). rewrite Hw1 in Hwk. subst worker'.
      apply (not_busy _ _ _ _ _ Hb He' Hne Hw' Hi'). unfold DELIVERY_OPEN_STATES. set_solver. }
    intros worker t t' e2 e3 Hw. rewrite !dget_set.
    destruct (decide (task_id = t)) as [<-|Hn], (decide (task_id = t')) as [<-|Hn']; [done|..].
    + intros [= <-] He3 Hr2 Hr3. exfalso. by eapply (Halone worker t' e3).
    + intros He2 [= <-] Hr2 Hr3. exfalso. by eapply (Halone worker t e2).
    + intros He2 He3. by apply Hx.
Qed.

(** ** Concrete settlements *)

Module Settle1.
Definition lf : string := String LF "".
Definition doc (rows : list (string * string)) : string :=
  "---" +:+ lf +:+ foldr (λ kv t, kv.1 +:+ ": " +:+ kv.2 +:+ lf +:+ t) "" rows +:+ "---" +:+ lf +:+ "done" +:+ lf.
Definition outbox (task : string) : string := "departments/coding/outbox/" +:+ task +:+ "-response.md".
Definition letter (n : Z) (task : string) (rows : list (string * string)) : string * node :=
  ("/v/" +:+ outbox task, Regular n (Text (doc rows))).
Definition no_kernel : Kernel :=
  {| getpgid _ := None; getsid _ := None; proc_stat _ := NoFile; proc_cmdline _ := None; ps_identity _ := (1%Z, []); ps_state _ := (1%Z, []) |}.
Definition h : Host :=
  {| cwd := "/v"; kernel := no_kernel; oserror _ := ""; decode_replace _ := ""; is_dir _ := false;
     preserve _ := inl JNull; now := 0%Z; new_ino := 9%Z; fault := NoFault |}.
Definition review (verdict : string) : string * node :=
  letter 2 "TASK-B" [("from", "claude"); ("type", "RESULT"); ("status", "complete"); ("verdict", verdict)].
Definition world (verdict : string) : World :=
  {| host := h; disk := list_to_map [letter 1 "TASK-A" [("status", "complete")]; review verdict]; vault := "/v";
     state_dir := "/v/_state"; departments := ["coding"; "research"]; modified _ := 0%Z; min_age := 5000000%Z;
     runtime_map := None; read_clock := 60000000%Z; settle_clock := 61000000%Z; memory_promotion_message _ _ _ := None |}.
(** A task of the lane [executor], held for a review by claude. *)
Definition held (executor family : string) : entry :=
  [("status", JStr "review-required"); ("to_model", JStr executor); ("review_model", JStr "claude"); ("mandatory_review", JStr "true");
   ("review_class", JStr "standard"); ("author_family", JStr family); ("review_signature", JStr "s")].
Definition r (executor family : string) : registry :=
  [("TASK-A", JObj (held executor family)); ("TASK-B", JObj [("to_model", JStr "claude"); ("reviews", JStr "TASK-A"); ("status", JStr "complete")])].
Definition outcome (verdict executor family : string) (force : bool) : res bool * list queue_line :=
  let '(v, (_, lines)) := settle_review reliable (world verdict) "TASK-A" (outbox "TASK-B") force (r executor family) in (v, lines).
End Settle1.

Example settled_1 :
  Settle1.outcome "APPROVE" "gpt-codex" "openai" false =
    (Ok true, [("REVIEW-SETTLED", "coding/TASK-A",
                "explicit Chrono settlement class=standard; review=departments/coding/outbox/TASK-B-response.md; verdict=APPROVE; force=False")]).
Proof. vm_compute. reflexivity. Qed.
Example settled_2 :
  (Settle1.outcome "REVISE" "gpt-codex" "openai" false).1 = Err (Exn ValueError "review response verdict must be exactly APPROVE") ∧
  (Settle1.outcome "REVISE" "gpt-codex" "openai" true).2 =
    [("REVIEW-SETTLED-FORCED", "coding/TASK-A",
      "explicit Chrono settlement class=standard; review=departments/coding/outbox/TASK-B-response.md; verdict=REVISE; force=True")].
Proof. vm_compute. done. Qed.
(** The write fails, before or after it lands; or the queue does after it. *)
Example settled_3 :
  let settle s := settle_review s (Settle1.world "APPROVE") "TASK-A" (Settle1.outbox "TASK-B") false (Settle1.r "gpt-codex" "openai") in
  let failing w q := settle {| registry_write := w; queue_writes := q |} in
  failing Unwritten [] = (write_failed, (Settle1.r "gpt-codex" "openai", [])) ∧
  failing Unsynced [] = (write_failed, ((settle reliable).2.1, [])) ∧
  failing Landed [Unwritten] = (write_failed, ((settle reliable).2.1, [])).
Proof. vm_compute. done. Qed.
(** A review by the lane that executed the task is refused for every lane but
    claude, whose family the dispatcher stores as [claude] and the settlement
    calls [anthropic]. *)
Example own_family_reviews :
  (Settle1.outcome "APPROVE" "claude" "anthropic" false).1 = Err (Exn ValueError "standard review must be cross-family") ∧
  author_family_for_lane (JStr "claude") = Ok "claude" ∧
  (Settle1.outcome "APPROVE" "claude" "claude" false).1 = Ok true.
Proof. vm_compute. done. Qed.

(** ** The properties *)

(** The lane the task was sent to. *)
Definition sent_to (e : entry) : string := _lane (dget "to_model" e).

(** The family the dispatcher stores is the settlement's own, but for claude. *)
Lemma dispatched_family v family : author_family_for_lane (JStr (_lane v)) = Ok family → _lane v ≠ "claude" → family = family_of (_lane v).
Proof.
  assert (Hc : _lane v ≠ "codex") by (unfold _lane; case_bool_decide; done). revert Hc. generalize (_lane v). intros lane Hc.
  unfold author_family_for_lane, family_of. cbn. repeat case_decide; subst; try done; by intros [= <-].
Qed.

(** C9. A held task is settled only by a warranted review.  When [settle_review]
    completes a held task, the review is a file of the mailbox other than the task's
    own response, and one of three things: the response of a task that the registry
    sent to the configured reviewer, with this task as its subject; an attestation
    in the coordinator's name, or a review in the configured reviewer's, that
    carries the digest of the reviewed response (who wrote either is what the file
    says).  The family the settlement gives the configured reviewer is known and not
    the author family of the entry.  So the reviewing lane is not the lane of the
    task when the entry carries the author family of the settlement's table, or that
    of the dispatcher's table for any lane but claude; the two tables name claude's
    family differently, and there the check lets a lane review itself.  The verdict
    is exactly APPROVE unless the coordinator forced it, which the entry records. *)
Theorem settled_by_warranted_review s w task_id ref force r r' lines :
  settle_review s w task_id ref force r = (Ok true, (r', lines)) →
  ∃ e e' review response verdict,
    _review_reference w ref = Ok review ∧ review ≠ response ∧
    dget task_id r = JObj e ∧ get_str "status" e ∈ HELD_STATUSES ∧
    warrant w r task_id response review e ∧ cross_family e ∧
    (_entry_author_family e = family_of (sent_to e) ∨
     sent_to e ≠ "claude" ∧ author_family_for_lane (JStr (sent_to e)) = Ok (_entry_author_family e) →
     reviewing_lane e ≠ sent_to e) ∧
    (∃ r1, review_verdict w review r1 = Ok verdict) ∧ (verdict = "APPROVE" ∨ force = true) ∧
    dget task_id r' = JObj e' ∧ get_str "status" e' = "complete" ∧ dget "cross_family_review_ref" e' = JStr review ∧
    dget "verdict" e' = JStr (if bool_decide (verdict = "") then "MISSING" else verdict) ∧
    dget "review_force_override" e' = JBool (negb (bool_decide (verdict = "APPROVE"))).
Proof.
  intros (e & e' & review & response & verdict & Hs)%settle_review_Ok. exists e, e', review, response, verdict.
  destruct (settled_status_complete _ _ _ _ _ _ _ _ _ _ _ Hs) as [Hc _].
  destruct Hs as [? [? [? ?]] ? _ ? Hx (r1 & Hv & Hf) (e1 & absent & cls & by_ & l & _ & _ & Hse) ? _].
  assert (Hforce : verdict = "APPROVE" ∨ force = true) by (destruct force; auto).
  split_and!; try done.
  - intros Ha Hl. destruct Hx as (_ & _ & Hx). apply Hx. rewrite Hl.
    destruct Ha as [Ha|[Hne Ha]]; [done|]. symmetry. by apply dispatched_family.
  - by exists r1.
  - by eapply settled_field.
  - by eapply settled_field.
  - erewrite settled_field; [|exact Hse|reflexivity]. by destruct Hforce as [->| ->]; [|rewrite andb_true_r].
Qed.

(** A settlement is made once.  After a task was settled by a review, any later
    call for it leaves the registry and the queue alone: it returns false for the
    same review, whatever else it asks, and refuses every other review. *)
Theorem settled_by_one_review s w task_id ref force r r' lines :
  settle_review s w task_id ref force r = (Ok true, (r', lines)) →
  ∃ review, _review_reference w ref = Ok review ∧
    ∀ s2 w2 ref2 review2 force2, _review_reference w2 ref2 = Ok review2 →
      settle_review s2 w2 task_id ref2 force2 r' =
        (if decide (review2 = review) then Ok false else Err (Exn ValueError "task already settled with a different review ref"), (r', [])).
Proof.
  intros (e & e' & review & response & verdict & [Hrev _ _ _ _ _ _ (e1 & absent & cls & by_ & l & _ & Hby & Hse) He' _])%settle_review_Ok.
  exists review. split; [done|]. intros s2 w2 ref2 review2 force2 Hr2. unfold settle_review. rewrite Hr2, bind_ret. unfold settle_held. rewrite He'.
  pose proof (settled_field _ _ _ _ _ _ _ _ _ _ _ _ "status" _ Hse eq_refl) as H1.
  pose proof (settled_field _ _ _ _ _ _ _ _ _ _ _ _ "review_settled_by" _ Hse eq_refl) as H2.
  pose proof (settled_field _ _ _ _ _ _ _ _ _ _ _ _ "cross_family_review_ref" _ Hse eq_refl) as H3.
  assert (settled_already e' = true) as ->.
  { unfold settled_already, get_str. rewrite H1, H2. unfold str_or_empty. cbn [truthy py_str].
    destruct (bool_decide_reflect (by_ = "")) as [->|]; done. }
  rewrite H3. unfold check. destruct (decide (review2 = review)) as [->|Hne]; cbn; [by rewrite bool_decide_eq_true_2|].
  by rewrite bool_decide_eq_false_2 by congruence.
Qed.

(** C30. Over any operations on the registry, registrations, claims, closes,
    reopenings and settlements in any order, a task is never dropped and its
    delivery, closure and reopening histories are only ever appended to. *)
Theorem histories_append_only os r task_id e : dget task_id r = JObj e →
  ∃ e', dget task_id (run os r) = JObj e' ∧ ∀ k l, k ∈ HISTORIES → history k e = Some l → ∃ t, history k e' = Some (l ++ t).
Proof.
  intros He. destruct (run_changes grows change_grows os r task_id e He) as (e' & He' & Hg).
  exists e'. split; [done|]. intros k l Hk. by apply Hg.
Qed.

(** C28. Over any operations on the registry the status of a task follows its
    lifecycle: held statuses are settled to complete, only a complete task is
    reopened, any task not yet closed may be closed, and a closed or superseded
    task keeps its status whatever of these is done. *)
Theorem statuses_follow_lifecycle os r task_id e : dget task_id r = JObj e →
  ∃ e', dget task_id (run os r) = JObj e' ∧ rtc moves (get_str "status" e) (get_str "status" e') ∧
    (get_str "status" e ∈ CLOSE_STATUSES → get_str "status" e' = get_str "status" e).
Proof.
  intros He. destruct (run_changes follows (λ b e e' Hc, rtc_once _ _ (change_moves b e e' Hc)) os r task_id e He) as (e' & He' & Hm).
  exists e'. split_and!; [done..|]. clear He He'. unfold follows in Hm. induction Hm as [|s s1 s2 H1 _ IH]; [done|]. intros Hs.
  pose proof (moves_final _ _ H1 Hs) as ->. by apply IH.
Qed.

(** C13. In every registry reachable from the empty one by operations that register
    tasks before their delivery, a pooled worker has at most one task in flight
    that it has claimed. *)
Theorem one_task_per_worker r worker t t' e e' : reachable r → worker ≠ "" →
  dget t r = JObj e → dget t' r = JObj e' → running worker e → running worker e' → t = t'.
Proof.
  intros Hr. revert worker t t' e e'. change (exclusive r). induction Hr as [|o r Hu Hr IH].
  - intros worker t t' e e' _ He. discriminate He.
  - destruct (is_claim o) eqn:Ho.
    + destruct o as [|s now t a| | |]; try discriminate Ho. cbn [perform].
      pose proof (claim_exclusive (registry_write s) now t a r IH). by destruct (claim_task (registry_write s) now t a r).
    + intros worker t t' e e' Hw He He' Hrun Hrun'.
      destruct (perform_running _ _ _ _ _ Ho Hu He Hrun) as (e1 & He1 & Hr1).
      destruct (perform_running _ _ _ _ _ Ho Hu He' Hrun') as (e2 & He2 & Hr2). by eapply IH.
Qed.

(** What the failure of a write leaves. *)
Lemma unsaved {A} w r r1 (a : A) r' (P : Prop) :
  (let '(v, r2) := write_registry w r r1 (Ok a) in (is_ok v, r2)) = (false, r') →
  (r' = r ∧ @nil queue_line = []) ∨
  ((let '(v, r2) := write_registry (registry_write reliable) r r1 (Ok a) in (is_ok v, r2)) = (true, r') ∧ @nil queue_line `prefix_of` []) ∨ P.
Proof. destruct w; cbn; [done| |]; intros [= <-]; auto. Qed.
Lemma unannounced s lines r r1 r' (P : Prop) (saved := announce (queue_writes s) lines (write_registry (registry_write s) r r1 (Ok true)))
    (full := announce (queue_writes reliable) lines (write_registry (registry_write reliable) r r1 (Ok true))) :
  (let '(v, (r2, _)) := saved in (is_ok v, r2)) = (false, r') →
  (r' = r ∧ saved.2.2 = []) ∨ ((let '(v, (r2, _)) := full in (is_ok v, r2)) = (true, r') ∧ saved.2.2 `prefix_of` full.2.2) ∨ P.
Proof.
  subst saved full. cbn [announce write_registry registry_write queue_writes reliable].
  assert (Hl : append_chrono_queue [] lines = (Ok tt, lines)).
  { induction lines as [|l ls IH]; cbn; [done|]. by rewrite IH. }
  rewrite Hl. cbn. destruct (registry_write s); cbn; [|intros [= <-]; by left|].
  - destruct (append_chrono_queue (queue_writes s) lines) as [[[]|] l] eqn:E; cbn; [done|]. intros [= <-]. right; left.
    apply append_lines_Ok in E as [Hp _]. by split.
  - intros [= <-]. right; left. split; [done|apply prefix_nil].
Qed.

(** C16. An operation that raises leaves the old registry or its own complete
    result.  Either nothing changed and nothing was queued; or the operation would
    have returned with reliable storage and the registry is the one it then leaves,
    what failed being the sync after the write or an append to the queue, of whose
    lines a first part has landed; or it is the claim of a pooled task whose lease
    has run out, which also closes the delivery: only the delivery and assignment
    fields of that task change, and it is delivered to nobody any more. *)
Theorem raised_all_or_nothing o r r' : perform o r = (false, r') →
  (r' = r ∧ announced o r = []) ∨
  (perform (reliably o) r = (true, r') ∧ announced o r `prefix_of` announced (reliably o) r) ∨
  ∃ s now task_id a e e', o = Claim s now task_id a ∧ dget task_id r = JObj e ∧ pooled e = true ∧ lease_expired now e = Ok true ∧
    r' = dict_set task_id (JObj e') r ∧ touches EXPIRED_KEYS e e' ∧
    (truthy (dget "delivery_attempt_id" e) = true → get_str "delivery_state" e' = "terminal").
Proof.
  destruct o as [s scans t e|s now t a|s now raw reason target|s now t target|s w t ref force]; cbn [perform reliably announced].
  - unfold register_task. destruct (prepared_entry scans e); [|intros [= <-]; by left].
    destruct (dget t r); try (by intros [= <-]; left); [apply unsaved|].
    destruct (reregister _ _) as [[?|]|]; [apply unsaved|done|intros [= <-]; by left].
  - pose proof (claim_task_write (registry_write s) now t a r) as Hw. cbn [registry_write reliable].
    destruct (claim_task_outcome Landed now t a r) as [|e e' He Hp Hl Hst Hx| |]; cbn [write_registry] in *.
    + destruct Hw as [[-> _]| ->]; [intros [= <-]; by left|]. destruct (registry_write s); intros [= <-]; by left.
    + intros H. assert (r' = r ∨ r' = dict_set t (JObj e') r) as [-> | ->].
      { destruct Hw as [[Hw _]|Hw]; rewrite Hw in H; [|destruct (registry_write s)]; injection H as <-; auto. }
      * by left.
      * right; right. exists s, now, t, a, e, e'. pose proof (expired_touches _ _ _ Hx) as (Ht & _ & _). split_and!; try done.
        by eapply expired_terminal.
    + destruct Hw as [[-> _]| ->]; [done|apply unsaved].
    + destruct Hw as [[-> _]| ->]; [done|apply unsaved].
  - unfold close_task. destruct (close_batch now raw reason target r) as [[report r1]|]; [|intros [= <-]; by left].
    destruct (any_closed report); [apply unsaved|done].
  - unfold reopen_task. destruct (match target with Some _ => _ | None => Ok tt end); [|intros [= <-]; by left].
    destruct (dget t r) as [| | | | |e]; try (by intros [= <-]; left).
    destruct (reopen_entry now target e) as [[e'|]|]; [apply unannounced|done|intros [= <-]; by left].
  - unfold settle_review. destruct (_review_reference w ref ≫= _) as [[[r1 l]|]|]; [apply unannounced|done|intros [= <-]; by left].
Qed.

(** ** Witnesses *)

Module Machine1.
Definition fresh : entry :=
  [("status", JStr "in-flight"); ("delivery_state", JStr "queued"); ("delivery_attempt_id", JStr "a-1"); ("delivery_lane", JStr "claude");
   ("delivery_worker_id", JStr "w1"); ("worker_epoch", JStr "E1"); ("lease_generation", JInt 2);
   ("lease_expires_at", JStr "2026-08-28T01:00:00+00:00")].
Definition register : operation := Register reliable [] "TASK-1" fresh.
Definition claim : operation := Claim reliable Claims1.now "TASK-1" Claims1.args.
Definition close : operation := Close reliable Claims1.late ["TASK-1"] "not needed" "superseded".
Definition claimed : registry := run [register; claim] [].
Definition settle : operation := Settle reliable (Settle1.world "APPROVE") "TASK-A" (Settle1.outbox "TASK-B") false.
Definition r : registry := Settle1.r "gpt-codex" "openai".
End Machine1.

Example machine_1 :
  match dget "TASK-1" (run [Machine1.close; Machine1.claim] Machine1.claimed) with
  | JObj e => get_str "status" e = "superseded" ∧ length <$> history "delivery_history" e = Some 2 ∧
              length <$> history "closure_history" e = Some 1
  | _ => False
  end.
Proof. vm_compute. done. Qed.

Lemma settled_by_warranted_review_witness :
  ∃ e', dget "TASK-A" (perform Machine1.settle Machine1.r).2 = JObj e' ∧ get_str "status" e' = "complete" ∧
    cross_family (Settle1.held "gpt-codex" "openai").
Proof.
  destruct (settle_review reliable (Settle1.world "APPROVE") "TASK-A" (Settle1.outbox "TASK-B") false Machine1.r) as [v [r' lines]] eqn:H.
  assert (v = Ok true) as -> by (change v with (v, (r', lines)).1; rewrite <- H; vm_compute; reflexivity).
  destruct (settled_by_warranted_review _ _ _ _ _ _ _ _ H) as (e & e' & review & response & verdict & _ & _ & He & _ & _ & Hx & _ & _ & _ & He' & Hs & _).
  exists e'. split_and!; [unfold Machine1.settle, perform; by rewrite H|done|].
  vm_compute in He. injection He as <-. exact Hx.
Defined.

Lemma settled_by_one_review_witness :
  let w := Settle1.world "APPROVE" in
  let r' := (settle_review reliable w "TASK-A" (Settle1.outbox "TASK-B") false Machine1.r).2.1 in
  settle_review reliable w "TASK-A" (Settle1.outbox "TASK-B") true r' = (Ok false, (r', [])).
Proof.
  cbv zeta. destruct (settle_review reliable (Settle1.world "APPROVE") "TASK-A" (Settle1.outbox "TASK-B") false Machine1.r) as [v [r' lines]] eqn:H.
  assert (v = Ok true) as -> by (change v with (v, (r', lines)).1; rewrite <- H; vm_compute; reflexivity).
  destruct (settled_by_one_review _ _ _ _ _ _ _ _ H) as (review & Hrev & Hagain).
  cbn [fst snd]. rewrite (Hagain reliable (Settle1.world "APPROVE") _ review true Hrev). by rewrite decide_True.
Defined.

Lemma histories_append_only_witness :
  ∃ e', dget "TASK-1" (run [Machine1.close; Machine1.claim] Machine1.claimed) = JObj e' ∧
    ∃ t, history "delivery_history" e' = Some t ∧ 2 ≤ length t.
Proof.
  destruct (dget "TASK-1" Machine1.claimed) as [| | | | |e] eqn:He; try (by vm_compute in He).
  destruct (histories_append_only [Machine1.close; Machine1.claim] Machine1.claimed "TASK-1" e He) as (e' & He' & Hk).
  destruct (history "delivery_history" e) as [l|] eqn:Hl; [|vm_compute in He; injection He as <-; by vm_compute in Hl].
  destruct (Hk "delivery_history" l ltac:(by_decide) Hl) as (t & Ht). exists e'. split; [done|]. exists (l ++ t). split; [done|].
  vm_compute in He. injection He as <-. vm_compute in Hl. injection Hl as <-. cbn. lia.
Defined.

Lemma statuses_follow_lifecycle_witness :
  ∃ e', dget "TASK-1" (run [Machine1.claim] (run [Machine1.close] Machine1.claimed)) = JObj e' ∧ get_str "status" e' = "superseded".
Proof.
  destruct (dget "TASK-1" (run [Machine1.close] Machine1.claimed)) as [| | | | |e] eqn:He; try (by vm_compute in He).
  destruct (statuses_follow_lifecycle [Machine1.claim] _ "TASK-1" e He) as (e' & He' & _ & Hfin).
  exists e'. split; [done|]. vm_compute in He. injection He as <-. by rewrite Hfin by by_decide.
Defined.

Lemma one_task_per_worker_witness :
  reachable Machine1.claimed ∧ ∀ t e, dget t Machine1.claimed = JObj e → running "w1" e → t = "TASK-1".
Proof.
  assert (Hr : reachable Machine1.claimed).
  { apply (operated Machine1.claim (run [Machine1.register] [])); [done|]. apply (operated Machine1.register []); [by_decide|constructor]. }
  split; [exact Hr|]. intros t e He Hrun.
  destruct (dget "TASK-1" Machine1.claimed) as [| | | | |e1] eqn:He1; try (vm_compute in He1; discriminate He1).
  assert (Hrun1 : running "w1" e1) by (vm_compute in He1; injection He1 as <-; split_and!; [reflexivity..|by_decide]).
  assert (Hw : "w1" ≠ "") by discriminate.
  exact (one_task_per_worker Machine1.claimed "w1" t "TASK-1" e e1 Hr Hw He He1 Hrun Hrun1).
Defined.

(** The queue is full when the settlement has landed: it raises, and is settled. *)
Lemma raised_all_or_nothing_witness :
  let o := Settle {| registry_write := Landed; queue_writes := [Unwritten] |} (Settle1.world "APPROVE") "TASK-A" (Settle1.outbox "TASK-B") false in
  (perform o Machine1.r).1 = false ∧ perform (reliably o) Machine1.r = (true, (perform o Machine1.r).2).
Proof.
  intros o. destruct (perform o Machine1.r) as [b r'] eqn:H.
  assert (b = false) as -> by (change b with (b, r').1; rewrite <- H; vm_compute; reflexivity).
  split; [done|].
  destruct (raised_all_or_nothing _ _ _ H) as [[Hr _]|[[Hd _]|(s & now & t & a & e & e' & Ho & _)]]; [|exact Hd|discriminate Ho].
  exfalso. set (complete r := match dget "TASK-A" r with JObj e => get_str "status" e | _ => "" end).
  assert (Hs : complete r' = "complete") by (change r' with (false, r').2; rewrite <- H; vm_compute; reflexivity).
  rewrite Hr in Hs. vm_compute in Hs. discriminate Hs.
Defined.
