(* ===== verification/Promotion.v ===== *)
(** * Promotion of memory notes

    [memory_promotion.py] and its call in [registry_reconciler.py]: after a
    settlement the candidate notes the task reported as used become verified.
    The index is the two tables the query joins; the notes and [set_status] are
    those of [Lifecycle], each call of it with its own clock and faults.
    [MemoryPromotionError] is a [RuntimeError]. *)
From S2P Require Import Prelude Json PyText Notes Lifecycle.

Definition SUBSTANTIVE_REVIEW_CLASSES : list string := ["standard"; "factual"; "security-finding"].
Definition PASSING_VERDICTS : list string := ["APPROVE"].
Definition PROMOTING_OUTCOME : string := "used".

(** The index: the [usage] table unless nothing was ever reported, and the
    ids and statuses of [meta]. *)
Record MemoryIndex := { usage_table : option (gmap (string * string) Feedback); meta : list (string * string) }.
Variant index_file := IndexMissing | IndexUnreadable | IndexOf (db : MemoryIndex).

Definition reported_used (task_ref : string) (row : (string * string) * Feedback) : bool :=
  bool_decide (fb_source_task row.2 = Some task_ref) && bool_decide (fb_outcome row.2 = PROMOTING_OUTCOME).

Definition _cited_candidates (db : MemoryIndex) (task_ref : string) : list string :=
  match usage_table db with
  | None => []
  | Some rows =>
      let cited := map (λ row : (string * string) * Feedback, row.1.2) (List.filter (reported_used task_ref) (map_to_list rows)) in
      let is_candidate id := existsb (λ m, bool_decide (m = (id, "candidate"))) (meta db) in
      sort_strings (remove_dups (List.filter is_candidate cited))
  end.

(** The clock and the faults of one call of [set_status]. *)
Record Conditions := { clock : string; fault : Fault; lost : string * string → bool }.

Definition _vault_root_env (environ : string → option string) (root : string) (name : string) : option string :=
  if decide (name = "CHRONO_VAULT_ROOT") then Some root else environ name.

Section Promote.
Context (policy_file : option string) (environ : string → option string) (conditions : string → Conditions).

(** Whether the note was promoted, or the exception that ends the loop. *)
Definition promote_note (root reason : string) (files : NoteFiles) (note_id : string) : res bool * NoteFiles :=
  match _find_note files (JStr note_id) with
  | Err err => (if bool_decide (exn_kind err = NoteNotFound) then Ok false else Err err, files)
  | Ok (_, note) =>
      if negb (py_eq (dget "status" note) (JStr "candidate")) then (Ok false, files)
      else
        let c := conditions note_id in
        match set_status policy_file (_vault_root_env environ root) (clock c) (fault c) (lost c) files
                (JStr note_id) (JStr "verified") (JStr reason) (dget "revision" note) JNull with
        | (Ok _, files, _) => (Ok true, files)
        | (Err err, files, _) => (if bool_decide (exn_kind err = RevisionConflict) then Ok false else Err err, files)
        end
  end.

Fixpoint promote_all (root reason : string) (files : NoteFiles) (candidates : list string) : res (list string) * NoteFiles :=
  match candidates with
  | [] => (Ok [], files)
  | note_id :: candidates =>
      match promote_note root reason files note_id with
      | (Err err, files) => (Err err, files)
      | (Ok promoted, files) =>
          let '(rest, files) := promote_all root reason files candidates in
          (rest ≫= λ ids, Ok (if (promoted : bool) then note_id :: ids else ids), files)
      end
  end.

Definition promote_cited_notes (index : index_file) (files : NoteFiles) (task_ref verdict review_class root : string) :
    res (list string) * NoteFiles :=
  let task_ref := py_strip task_ref in
  if bool_decide (task_ref = "") then (Ok [], files)
  else if negb (bool_decide (py_upper (py_strip verdict) ∈ PASSING_VERDICTS)) then (Ok [], files)
  else if negb (bool_decide (py_lower (py_strip review_class) ∈ SUBSTANTIVE_REVIEW_CLASSES)) then (Ok [], files)
  else match index with
       | IndexMissing => (Err (Exn RuntimeError "memory index is missing"), files)
       | IndexUnreadable => (Err (Exn RuntimeError "memory index is unreadable"), files)
       | IndexOf db =>
           promote_all root ("reported used by " +:+ task_ref +:+ ", which passed " +:+ review_class +:+ " review")
             files (_cited_candidates db task_ref)
       end.

Definition MEMORY_PROMOTION_STATUS : string := "MEMORY-PROMOTION".
Definition MEMORY_PROMOTION_SKIPPED_STATUS : string := "MEMORY-PROMOTION-SKIPPED".
Definition MEMORY_PROMOTION_FAILED_STATUS : string := "MEMORY-PROMOTION-FAILED".

(** The line for the queue, if any, and the files; no exception leaves it. *)
Definition memory_promotion_message (index : index_file) (files : NoteFiles) (task_id verdict review_class : string) :
    option (string * string) * NoteFiles :=
  let root := default "" (environ "CHRONO_VAULT_ROOT") in
  if bool_decide (root = "") then
    (Some (MEMORY_PROMOTION_SKIPPED_STATUS, "memory promotion skipped: CHRONO_VAULT_ROOT is unset"), files)
  else match promote_cited_notes index files task_id verdict review_class root with
       | (Err err, files) => (Some (MEMORY_PROMOTION_FAILED_STATUS, "memory promotion failed: " +:+ exn_msg err), files)
       | (Ok [], files) => (None, files)
       | (Ok promoted, files) =>
           (Some (MEMORY_PROMOTION_STATUS, "promoted " +:+ str_of_int (Z.of_nat (length promoted)) +:+
                  " memory note(s) to verified: " +:+ py_join ", " promoted), files)
       end.

End Promote.
