(* ===== verification/PromotionProps.v ===== *)
(** * Properties of memory promotion

    A settlement with the promotion that follows it, over a vault other
    processes leave alone: what it promotes and what it leaves. *)
From S2P Require Import Prelude Json PyText JsonProps Clearance Notes NotesProps Lifecycle LifecycleProps Registry RegistryProps Settlement SettlementProps Promotion.

(** ** One promotion *)

(** No candidate note names a successor.  A note may be recorded with one, if its
    author writes it; no status change makes one ([step_current]). *)
Definition candidates_current (files : NoteFiles) : Prop :=
  ∀ id ty n, _find_note files (JStr id) = Ok (ty, n) → dget "status" n = JStr "candidate" → superseded_by_of n = None.

Lemma step_current files files' : lifecycle_step files files' → sound_store files → candidates_current files → candidates_current files'.
Proof.
  intros [file environ now fault lost files0 id st reason rev sup r files1 ev Hnow Hcall] (Htidy & _ & _) Hcur.
  unfold set_status in Hcall. destruct (status_request _ _ _ _ _ _ _) as [rq|e] eqn:Erq; [|by injection Hcall as _ <- _].
  apply status_request_Ok in Erq as (Hid & _ & Hst & _ & _ & _ & Hrep & _).
  destruct (apply_status now fault lost files0 rq) as [[r1 f1] ev1] eqn:E. injection Hcall as _ <- _.
  apply apply_status_outcome in E as [->|(_ & _ & Hread)]; try done; [|by intros x Hx; apply Hrep].
  intros a ty n (_ & _ & n0 & Hf0 & [[-> Hs]|(_ & -> & Hs)])%Hread Hc; [by rewrite Hs in Hc; eapply Hcur|].
  destruct (rq_replacement rq) as [x|] eqn:Hx; [|done]. destruct (Hrep x eq_refl) as (_ & _ & _ & Hsup). rewrite Hs, Hsup in Hc. discriminate Hc.
Qed.

(** A note became verified: a candidate before, one revision on after. *)
Definition verified_note (files files' : NoteFiles) (id : string) : Prop :=
  ∃ ty p p', _find_note files (JStr id) = Ok (ty, p) ∧ dget "status" p = JStr "candidate" ∧
    _find_note files' (JStr id) = Ok (ty, p') ∧ dget "status" p' = JStr "verified" ∧ dget "revision" p' = JInt (revision_of p + 1).

Lemma find_frame files files' id : (∀ ty, files' !! (ty, id) = files !! (ty, id)) →
  _find_note files' (JStr id) = _find_note files (JStr id).
Proof.
  intros Hk. unfold _find_note, _validate_note_id. destruct (lifecycle_check _ _); [|done]. cbn [mbind res_bind].
  rewrite (filter_ext_list _ (λ note_type, bool_decide (is_Some (files !! (note_type, id)))) NOTE_TYPES).
  - destruct (List.filter _ NOTE_TYPES) as [|ty [|]]; [done| |done]. by rewrite Hk.
  - intros ty. by rewrite Hk.
Qed.

(** A refused compare-and-swap writes nothing. *)
Lemma conflict_keeps file environ now fault lost files id st reason rev sup e files' ev :
  set_status file environ now fault lost files id st reason rev sup = (Err e, files', ev) → exn_kind e = RevisionConflict → files' = files.
Proof.
  unfold set_status. destruct (status_request _ _ _ _ _ _ _) as [rq|]; [|by intros [= _ <- _]].
  unfold apply_status. destruct (_updated_notes _ _ _ _ _ _) as [u|]; [|by intros [= _ <- _]].
  destruct (publish_updates fault lost files u) as [[us|e1] f1] eqn:Hp; [done|]. intros [= -> <- _] He.
  exfalso. unfold publish_updates, lifecycle_error in Hp. repeat (case_match; simplify_eq); done.
Qed.

Section Promotions.
Context (policy_file : option string) (environ : string → option string) (conditions : string → Conditions).
Context (Hclock : ∀ id, flat_str (clock (conditions id)) = true).

Lemma promote_note_Ok root reason files id b files' :
  promote_note policy_file environ conditions root reason files id = (Ok b, files') → sound_store files → candidates_current files →
  sound_store files' ∧ candidates_current files' ∧ (∀ k, k.2 ≠ id → files' !! k = files !! k) ∧
  if b then verified_note files files' id else files' = files.
Proof using Hclock.
  unfold promote_note. destruct (_find_note files (JStr id)) as [[ty p]|err] eqn:Hf; [|by case_match; intros [= <- <-]].
  destruct (py_eq (dget "status" p) (JStr "candidate")) eqn:Hst; cbn [negb]; [|by intros [= <- <-]]. apply py_eq_str in Hst.
  destruct (set_status _ _ _ _ _ _ _ _ _ _ _) as [[[answer|err] f1] ev] eqn:Hs; intros H Hsound Hcur.
  - injection H as <- <-.
    pose proof (StatusCall _ _ _ _ _ _ _ _ _ _ _ _ _ _ (Hclock id) Hs) as Hstep.
    pose proof (step_sound _ _ Hstep Hsound) as [Hsound' _]. pose proof (step_current _ _ Hstep Hsound Hcur) as Hcur'.
    destruct (status_changed _ _ _ _ _ _ _ _ _ _ _ _ _ _ Hs Hsound (Hclock id))
      as (rq & ty1 & p1 & p' & [= Hid] & [= Hrq] & Hrev & Hsup & _ & Hf1 & _ & _ & Hf' & Hvals & _ & _ & Hkeep).
    rewrite Hf in Hf1. injection Hf1 as <- <-. rewrite <- Hid in *.
    assert (Hnone : rq_replacement rq = None) by (by destruct (rq_replacement rq)).
    assert (Hothers : ∀ k, k.2 ≠ id → f1 !! k = files !! k).
    { intros k Hk. apply Hkeep; [done|by rewrite Hnone|by rewrite (Hcur _ _ _ Hf Hst)]. }
    assert (Hst' : dget "status" p' = JStr "verified").
    { rewrite Hvals by by_decide. unfold primary_value. cbn. rewrite <- Hrq. by vm_compute. }
    split_and!; try done.
    exists ty, p, p'. split_and!; try done. rewrite Hvals by by_decide. unfold primary_value. cbn.
    unfold revision_of. rewrite Hrev. done.
  - destruct (bool_decide (exn_kind err = RevisionConflict)) eqn:Hk; [|done]. injection H as <- <-. bool_inv.
    apply conflict_keeps in Hs; [|done]. by subst.
Qed.

Lemma promote_all_Ok root reason cs files promoted files' :
  promote_all policy_file environ conditions root reason files cs = (Ok promoted, files') → NoDup cs →
  sound_store files → candidates_current files →
  sound_store files' ∧ candidates_current files' ∧ (∀ id, id ∈ promoted → id ∈ cs ∧ verified_note files files' id) ∧ (∀ k, k.2 ∉ promoted → files' !! k = files !! k).
Proof using Hclock.
  revert files promoted. induction cs as [|id cs IH]; intros files promoted; cbn [promote_all].
  - intros [= <- <-] _ Hs Hc. split_and!; [done..|by intros id ?%elem_of_nil|done].
  - destruct (promote_note _ _ _ _ _ _ _) as [[b|] f1] eqn:Hp; [|done].
    destruct (promote_all _ _ _ _ _ f1 cs) as [[rest|] f2] eqn:Ha; [|done].
    intros [= <- <-] [Hid Hnd]%NoDup_cons Hs Hc.
    apply promote_note_Ok in Hp as (Hs1 & Hc1 & Ho & Hb); [|done..].
    destruct (IH _ _ Ha Hnd Hs1 Hc1) as (Hs2 & Hc2 & Hin & Hk).
    assert (Hrest : ∀ i, i ∈ rest → i ≠ id) by (intros i [Hi _]%Hin ->; done).
    split; [done|]. split; [done|]. split.
    + intros i Hi. assert (Hcase : (b = true ∧ i = id) ∨ i ∈ rest) by (destruct b; set_solver).
      destruct Hcase as [[-> ->]|Hr].
      * split; [left|]. destruct Hb as (ty & p & p' & Hf & Hst & Hf' & Hv & Hrv). exists ty, p, p'. split_and!; try done.
        rewrite (find_frame f1 f2); [done|]. intros ty'. apply Hk. cbn. intros Hr. by apply (Hrest id).
      * destruct (Hin i Hr) as [Hcs (ty & p & p' & Hf & ?)]. split; [by right|]. exists ty, p, p'.
        rewrite (find_frame files f1) in Hf; [done|]. intros ty'. apply Ho. cbn. by apply Hrest.
    + intros k Hkk. rewrite Hk by (destruct b; set_solver). destruct b; [|by rewrite Hb]. apply Ho. set_solver.
Qed.
End Promotions.

(** ** The candidates *)

Lemma cited_Ok db task_ref : NoDup (_cited_candidates db task_ref) ∧
  ∀ id, id ∈ _cited_candidates db task_ref → ∃ rows recall fb, usage_table db = Some rows ∧ rows !! (recall, id) = Some fb ∧
    fb_source_task fb = Some task_ref ∧ fb_outcome fb = PROMOTING_OUTCOME.
Proof.
  unfold _cited_candidates. destruct (usage_table db) as [rows|]; [|split; [constructor|by intros id ?%elem_of_nil]].
  split; [rewrite sort_strings_perm; apply NoDup_remove_dups|].
  intros id. rewrite sort_strings_perm, elem_of_remove_dups, elem_of_filter_list.
  intros [([[recall id'] fb] & -> & Hin)%list_elem_of_fmap _]. apply elem_of_filter_list in Hin as [Hin Hb].
  apply elem_of_map_to_list in Hin. unfold reported_used in Hb. cbn [fst snd] in *. bool_inv. by exists rows, recall, fb.
Qed.

(** ** The verdict *)

Definition no_space (c : ascii) : bool := negb (py_isspace c).
Definition trimmed (s : string) : Prop := rstrip_by py_isspace s = s ∧ lstrip_by py_isspace s = s.

Lemma rstrip_idemp p s : rstrip_by p (rstrip_by p s) = rstrip_by p s.
Proof.
  induction s as [|c s IH]; cbn; [done|]. destruct (rstrip_by p s) as [|d t] eqn:E; [destruct (p c) eqn:Ep; cbn; [done|by rewrite Ep]|].
  cbn [rstrip_by] in *. by rewrite IH.
Qed.
Lemma strip_trimmed s : trimmed (py_strip s).
Proof.
  split; [apply rstrip_idemp|]. unfold py_strip.
  assert (Hl : lstrip_by py_isspace s = "" ∨ ∃ c t, lstrip_by py_isspace s = String c t ∧ py_isspace c = false).
  { induction s as [|c s IH]; cbn; [by left|]. destruct (py_isspace c) eqn:E; [done|right; eauto]. }
  destruct Hl as [->|(c & t & -> & Hc)]; [done|]. cbn. destruct (rstrip_by py_isspace t); [rewrite Hc|]; by apply lstrip_by_head.
Qed.
Lemma trimmed_strip s : trimmed s → py_strip s = s.
Proof. intros [Hr Hl]. unfold py_strip. by rewrite Hl. Qed.

Lemma upper_no_space c : no_space c = true → match upper_char c with String d t => no_space d && str_forallb no_space t | "" => false end = true.
Proof. apply (ascii_impl no_space (λ c, match upper_char c with String d t => no_space d && str_forallb no_space t | "" => false end)). vm_compute. reflexivity. Qed.
Lemma upper_app s t : py_upper (s +:+ t) = py_upper s +:+ py_upper t.
Proof. induction s as [|c s IH]; [done|]. rewrite str_app_cons. cbn [py_upper]. by rewrite IH, str_app_assoc. Qed.
Lemma upper_idemp s : py_upper (py_upper s) = py_upper s.
Proof.
  induction s as [|c s IH]; [done|]. cbn [py_upper]. rewrite upper_app, IH. f_equal.
  apply String.eqb_eq. apply (ascii_impl (λ _, true) (λ c, String.eqb (py_upper (upper_char c)) (upper_char c))); [vm_compute; reflexivity|done].
Qed.

Lemma rstrip_app_full p s t : t ≠ "" → rstrip_by p t = t → rstrip_by p (s +:+ t) = s +:+ t.
Proof.
  intros Ht Hr. induction s as [|c s IH]; [done|]. rewrite str_app_cons. cbn [rstrip_by]. rewrite IH.
  destruct (s +:+ t) eqn:E; [|done]. destruct s; done.
Qed.
Lemma rstrip_all_full p s : str_forallb (λ c, negb (p c)) s = true → rstrip_by p s = s.
Proof. induction s as [|c s IH]; cbn; [done|]. intros H. bool_inv. rewrite IH by done. destruct s; [by rewrite H|done]. Qed.

Lemma trimmed_upper s : trimmed s → trimmed (py_upper s).
Proof.
  intros [Hr Hl]. split.
  - clear Hl. induction s as [|c s IH]; [done|]. cbn [rstrip_by py_upper] in *. destruct (rstrip_by py_isspace s) as [|d t] eqn:E.
    + destruct (py_isspace c) eqn:Ec; [done|]. injection Hr as <-. cbn [py_upper]. rewrite str_app_nil_r. apply rstrip_all_full.
      pose proof (upper_no_space c ltac:(unfold no_space; by rewrite Ec)) as H. by destruct (upper_char c).
    + injection Hr as Hs. assert (Hu : py_upper s ≠ "").
      { rewrite <- Hs. cbn [py_upper]. unfold upper_char. repeat case_match; done. }
      apply rstrip_app_full; [done|]. apply IH. by rewrite <- Hs in E |- *.
  - clear Hr. destruct s as [|c s]; [done|]. cbn in Hl. destruct (py_isspace c) eqn:Ec.
    + exfalso. assert (Hlen : ∀ x, (String.length (lstrip_by py_isspace x) ≤ String.length x)%nat).
      { induction x as [|d x IH]; cbn; [lia|]. destruct (py_isspace d); cbn; lia. }
      specialize (Hlen s). rewrite Hl in Hlen. cbn in Hlen. lia.
    + pose proof (upper_no_space c ltac:(unfold no_space; by rewrite Ec)) as H. cbn [py_upper]. destruct (upper_char c) as [|d t]; [done|].
      rewrite str_app_cons. apply lstrip_by_head. unfold no_space in H. by bool_inv.
Qed.

(** A canonical verdict is its own canonical form. *)
Lemma canonical_verdict s : py_upper (py_strip (py_upper (py_strip s))) = py_upper (py_strip s).
Proof. rewrite (trimmed_strip (py_upper _)); [apply upper_idemp|]. apply trimmed_upper, strip_trimmed. Qed.

Lemma review_verdict_canonical w review r v : review_verdict w review r = Ok v → py_upper (py_strip v) = v.
Proof.
  unfold review_verdict. intros (meta & _ & H)%bind_Ok. destruct (negb _).
  - injection H as <-. apply canonical_verdict.
  - apply bind_Ok in H as (artifact & _ & H). destruct artifact; [|by injection H as <-].
    apply bind_Ok in H as (am & _ & [= <-]). apply canonical_verdict.
Qed.

(** ** What a settlement promotes *)

(** The task reported the note as used. *)
Definition used_by (db : MemoryIndex) (task_ref id : string) : Prop :=
  ∃ rows recall fb, usage_table db = Some rows ∧ rows !! (recall, id) = Some fb ∧
    fb_source_task fb = Some task_ref ∧ fb_outcome fb = PROMOTING_OUTCOME.

(** C11. Memory is promoted by approved work only.  The store is sound (every
    readable note survives its file, no supersession cycle, fewer notes than the walk
    visits) and no candidate in it names a successor; both stay so.  When a settlement
    is followed by the promotion, with the verdict it stored, every promoted note was
    a candidate, was reported used by this very task, and is verified at its next
    revision, and every other note file is as it was.  Anything is promoted only if
    the settlement had the warrant of a review by the configured reviewer whose
    verdict was exactly APPROVE, and was not forced. *)
Theorem promoted_by_approved_work s w task_id ref force r r' lines e' policy_file environ conditions db files cls root promoted files' :
  settle_review s w task_id ref force r = (Ok true, (r', lines)) → dget task_id r' = JObj e' →
  promote_cited_notes policy_file environ conditions (IndexOf db) files task_id (get_str "verdict" e') cls root = (Ok promoted, files') →
  (∀ id, flat_str (clock (conditions id)) = true) → sound_store files → candidates_current files →
  sound_store files' ∧ candidates_current files' ∧ (∀ k, k.2 ∉ promoted → files' !! k = files !! k) ∧
  (∀ id, id ∈ promoted → verified_note files files' id ∧ used_by db (py_strip task_id) id) ∧
  (promoted ≠ [] → ∃ e response review, dget task_id r = JObj e ∧ warrant w r task_id response review e ∧ cross_family e ∧
     (∃ r1, review_verdict w review r1 = Ok "APPROVE") ∧ dget "review_force_override" e' = JBool false).
Proof.
  intros (e & e1 & review & response & v & Hs)%settle_review_Ok He' Hp Hclock Hsound Hcur.
  assert (e1 = e') as -> by (pose proof (replaced _ _ _ _ _ _ _ _ _ _ _ Hs); congruence).
  unfold promote_cited_notes in Hp.
  destruct (bool_decide (py_strip task_id = "")).
  { injection Hp as <- <-. split_and!; [done..|by intros id ?%elem_of_nil|done]. }
  destruct (bool_decide (py_upper _ ∈ PASSING_VERDICTS)) eqn:Hv; cbn [negb] in Hp.
  2: { injection Hp as <- <-. split_and!; [done..|by intros id ?%elem_of_nil|done]. }
  destruct (bool_decide (py_lower _ ∈ _)); cbn [negb] in Hp.
  2: { injection Hp as <- <-. split_and!; [done..|by intros id ?%elem_of_nil|done]. }
  destruct (cited_Ok db (py_strip task_id)) as [Hnd Hused].
  apply promote_all_Ok in Hp as (Hs' & Hc' & Hin & Hk); [|done..]. split_and!; [done..| |].
  - intros id [Hc Hver]%Hin. split; [done|]. by apply Hused.
  - intros _. exists e, response, review. destruct Hs as [_ [He _] _ _ Hw Hx (r1 & Hrv & Hf) (e0 & absent & cls' & by_ & l & _ & _ & Hse) _ _].
    pose proof (settled_field _ _ _ _ _ _ _ _ _ _ _ _ "verdict" _ Hse eq_refl) as Hverdict.
    rewrite (settled_field _ _ _ _ _ _ _ _ _ _ _ _ "review_force_override" _ Hse eq_refl).
    assert (v = "APPROVE") as ->; [|split_and!; [done..|by exists r1|done]].
    apply bool_decide_eq_true, list_elem_of_singleton in Hv. unfold get_str in Hv. rewrite Hverdict in Hv.
    rewrite <- (review_verdict_canonical _ _ _ _ Hrv).
    destruct (bool_decide_reflect (v = "")) as [->|Hne]; [by vm_compute in Hv|].
    unfold str_or_empty in Hv. cbn in Hv. by rewrite bool_decide_eq_false_2 in Hv.
Qed.

(** ** A concrete promotion *)

Module Promote1.
Definition fb : Feedback := {| fb_outcome := "used"; fb_source_task := Some "TASK-A"; fb_ts := demo_time |}.
Definition db : MemoryIndex := {| usage_table := Some {[(demo_recall, old_id) := fb]}; meta := [(old_id, "candidate"); (new_id, "verified")] |}.
Definition still (id : string) : Conditions := {| clock := demo_time; Promotion.fault := Lifecycle.NoFault; lost _ := false |}.
Definition promotion (verdict : string) : res (list string) * NoteFiles :=
  promote_cited_notes None (λ _, None) still (IndexOf db) demo_store "TASK-A" verdict "standard" "/v".
End Promote1.

Example approved_promotes : (Promote1.promotion "APPROVE").1 = Ok [old_id] ∧ Promote1.promotion "REVISE" = (Ok [], demo_store).
Proof. split; vm_compute; reflexivity. Qed.

Lemma unlinked_current files : unlinked files = true → candidates_current files.
Proof. intros Hu id ty n Hf _. apply (unlinked_found _ Hu _ _ _ Hf). Qed.

Lemma promoted_by_approved_work_witness :
  verified_note demo_store (Promote1.promotion "APPROVE").2 old_id ∧ cross_family (Settle1.held "gpt-codex" "openai").
Proof.
  destruct (settle_review reliable (Settle1.world "APPROVE") "TASK-A" (Settle1.outbox "TASK-B") false Machine1.r) as [v [r' lines]] eqn:H.
  assert (Hv : v = Ok true) by (change v with (v, (r', lines)).1; rewrite <- H; vm_compute; reflexivity). subst v.
  assert (Hd : match dget "TASK-A" r' with JObj e' => bool_decide (get_str "verdict" e' = "APPROVE") | _ => false end = true).
  { change r' with (Ok true, (r', lines)).2.1. rewrite <- H. vm_compute. reflexivity. }
  destruct (dget "TASK-A" r') as [| | | | |e'] eqn:He'; try discriminate Hd. apply bool_decide_eq_true in Hd.
  destruct (Promote1.promotion "APPROVE") as [promoted files'] eqn:Hp.
  assert (Hl : promoted = Ok [old_id]) by (change promoted with (promoted, files').1; rewrite <- Hp; vm_compute; reflexivity). subst promoted.
  unfold Promote1.promotion in Hp. rewrite <- Hd in Hp.
  destruct (promoted_by_approved_work _ _ _ _ _ _ _ _ _ _ _ _ _ _ _ _ _ _ H He' Hp (λ _, eq_refl) demo_sound
    (unlinked_current demo_store eq_refl)) as (_ & _ & _ & Hin & Hw).
  split; [apply Hin; by left|]. destruct (Hw ltac:(discriminate)) as (e & _ & _ & He & _ & Hx & _).
  vm_compute in He. injection He as <-. exact Hx.
Defined.
