(* ===== verification/Notices.v ===== *)
(** * Durable notices

    [chrono_state/notifications.py], [NotificationStore]: one JSON file of
    notices under a lock, which producers fill, sessions offer to their
    coordinator and only an acknowledgment by exact id consumes.  An operation
    runs under the lock and returns its value or exception with the file it
    leaves.  A notice has the fields the operations write; a file that does not
    read as that is [Unreadable].  The clock is read once for each notice and
    once for the write. *)
From S2P Require Import Prelude Sha256 Json Binary64 PyText PyTime FloatText.
From Stdlib Require Import SpecFloat.

#[local] Open Scope Z_scope.

Definition SCHEMA : string := "chrono-notifications/v1".
Definition DEFAULT_CUTOFF : string := "2026-09-27T15:19:27+00:00".
Definition MAX_STORE_BYTES : Z := 8 * 1024 * 1024.
Definition ACK_RETENTION_SECONDS : Z := 30 * 24 * 60 * 60.
Definition OFFER_BACKOFF : list Z := [1; 5; 30].
Definition MAX_ASYNC_OFFERS : Z := 4.

Definition check (ok : bool) (msg : string) : res unit := raise_if (negb ok) ValueError msg.

(** ** Time *)

(** One reading of the clock: [datetime.now(timezone.utc)], in microseconds,
    and [time.time()]. *)
Record Clock := { micros : Z; time : float }.
Definition utc_now (c : Clock) : string := isoformat_utc (micros c).

Definition timestamp (value : json) : res float :=
  match value with
  | JStr s =>
      match fromisoformat (replace_Z s) with
      | Some (local, Some off) => Ok (PyTime.timestamp (local - off))
      | Some (_, None) => Err (Exn ValueError "notice timestamps must include a timezone")
      | None => Err (Exn ValueError "Invalid isoformat string")
      end
  | _ => Err (Exn ValueError "notice timestamps must be strings")
  end.

(** ** Process identities *)

(** What the host answers: [/proc/<pid>/stat], the boot id, and the status,
    output and error text of [ps] or the exception of running it. *)
Record Processes := {
  on_linux : bool;
  proc_stat : Z → option string;
  boot_id : string;
  ps : Z → res (Z * string * string)
}.

(** [s.rsplit(")", 1)[1]] *)
Definition after_last_paren (s : string) : res string :=
  if char_in ")" s then Ok (str_rev (take_while (λ c, negb (bool_decide (c = ")"%char))) (str_rev s)))
  else Err (Exn IndexError "list index out of range").
Definition nth_word (ws : list string) (n : nat) : res string :=
  match ws !! n with Some w => Ok w | None => Err (Exn IndexError "list index out of range") end.

Definition process_start_identity (k : Processes) (pid : Z) : res (option string) :=
  check (0 <? pid) "lease PID must be a positive integer";;
  if on_linux k then
    match proc_stat k pid with
    | None => Ok None
    | Some stat =>
        rest ← after_last_paren stat;
        let fields := py_words rest in
        state ← nth_word fields 0;
        if bool_decide (state = "Z") then Ok None
        else started ← nth_word fields 19; Ok (Some (py_strip (boot_id k) +:+ ":" +:+ started))
    end
  else
    '(returncode, out, err) ← ps k pid;
    let ws := py_words out in
    if (returncode =? 1) && bool_decide (ws = []) && bool_decide (py_strip err = "") then Ok None
    else if negb (returncode =? 0) || bool_decide (ws = []) then Err (Exn OSError "process start identity unavailable")
    else match reverse ws with
         | state :: (_ :: _) as start => Ok (if startswith state "Z" then None else Some (py_join " " (reverse (tail start))))
         | _ => Err (Exn ValueError "not enough values to unpack")
         end.

(** ** Data *)

Record Owner := { pid : Z; process_start : string }.
#[export] Instance Owner_eq_dec : EqDecision Owner.
Proof. solve_decision. Defined.

Definition lease_alive (k : Processes) (o : Owner) : res bool :=
  if bool_decide (process_start o = "") then Ok false
  else start ← process_start_identity k (pid o); Ok (bool_decide (start = Some (process_start o))).

Variant State := Pending | Offered | Acknowledged | Attention.
#[export] Instance State_eq_dec : EqDecision State.
Proof. solve_decision. Defined.
Definition state_text (s : State) : string :=
  match s with Pending => "pending" | Offered => "offered" | Acknowledged => "acknowledged" | Attention => "operator-attention-required" end.
Definition STATES : list State := [Pending; Offered; Acknowledged; Attention].

Record Lease := { holder : Owner; lease_session : option string; expires_at : float }.

(** What a producer writes once; a tombstone has lost it. *)
Record Body := { identity : list json; summary : string; metadata : list (string * value); occurred_at : string; enqueued_at : string }.
Record Notice := {
  id : string;
  state : State;
  body : option Body;
  lease : option Lease;
  offer_count : option Z;
  offered_at : option string;
  attention_reason : option string;
  acknowledged_at : option string;
  ack_latency_seconds : option (Z + float)
}.

(** What the sessions and the resource sampler keep in the same file. *)
Record Worker := { worker_owner : Owner; token : string; worker_expires_at : float; deadline : option float }.
Record Exit := { exit_at : string; exit_reason : string }.
Record Session := {
  session_id : string;
  owner : Owner;
  opened_at : string;
  waiter : option Worker;
  sampler : option Worker;
  closed_at : option string;
  last_hook_at : option string;
  last_hook_event : option string;
  last_armed_at : option string;
  last_waiter_exit : option Exit;
  last_sampler_exit : option Exit;
  last_sampler_start_at : option string;
  sampler_failures : option Z;
  sampler_retry_at : option float;
  sampler_fault_epoch : option string;
  last_sample_at : option string;
  sample_period_seconds : option float;
  last_fault_wake_at : option float
}.

Variant Level := Normal | Warn | Critical | Unknown.
#[export] Instance Level_eq_dec : EqDecision Level.
Proof. solve_decision. Defined.
Definition level_text (l : Level) : string :=
  match l with Normal => "normal" | Warn => "warn" | Critical => "critical" | Unknown => "unknown" end.
Record Resource := {
  level : Level;
  episode : Z;
  transition_seq : option Z;
  candidate : option (option Level);
  candidate_count : option Z;
  sampled_at : option string;
  observed : option Level;
  observed_value : option json;
  last_known_level : option Level
}.

Record Data := {
  cutoff : string;
  notices : gmap string Notice;
  sessions : option (gmap string Session);
  resources : option (gmap string Resource);
  last_resource_sample_at : option string
}.
Variant store_file := Missing | Unreadable | Holds (d : Data).

(** The items of a dictionary in the order of its keys, which is their order
    in the file. *)
Definition by_key {A} (m : gmap string A) : list (string * A) := sort_by key_leb (map_to_list m).

(** ** The text of the file *)

Definition vdict {A} (f : A → value) (m : gmap string A) : value := VObj (map (λ kv, (kv.1, f kv.2)) (by_key m)).
Definition vnum (x : Z + float) : value := match x with inl z => VInt z | inr x => VFloat x end.
Definition vowner (o : Owner) : list (string * value) := [("pid", VInt (pid o)); ("process_start", VStr (process_start o))].
Definition vlease (l : Lease) : value :=
  VObj (vowner (holder l) ++ opt_field "session" VStr (lease_session l) ++ [("expires_at", VFloat (expires_at l))]).
Definition vnotice (n : Notice) : value :=
  VObj ([("id", VStr (id n)); ("state", VStr (state_text (state n)))] ++
    match body n with
    | Some b => [("identity", VList (map of_json (identity b))); ("summary", VStr (summary b)); ("metadata", VObj (metadata b));
                 ("occurred_at", VStr (occurred_at b)); ("enqueued_at", VStr (enqueued_at b))]
    | None => []
    end ++ opt_field "lease" vlease (lease n) ++ opt_field "offer_count" VInt (offer_count n) ++
    opt_field "offered_at" VStr (offered_at n) ++ opt_field "attention_reason" VStr (attention_reason n) ++
    opt_field "acknowledged_at" VStr (acknowledged_at n) ++ opt_field "ack_latency_seconds" vnum (ack_latency_seconds n)).
Definition vworker (w : Worker) : value :=
  VObj (vowner (worker_owner w) ++ [("token", VStr (token w)); ("expires_at", VFloat (worker_expires_at w))] ++
        opt_field "deadline" VFloat (deadline w)).
Definition vexit (e : Exit) : value := VObj [("at", VStr (exit_at e)); ("reason", VStr (exit_reason e))].
Definition vsession (s : Session) : value :=
  VObj ([("session_id", VStr (session_id s)); ("owner", VObj (vowner (owner s))); ("opened_at", VStr (opened_at s));
         ("workers", VObj (opt_field "waiter" vworker (waiter s) ++ opt_field "sampler" vworker (sampler s)))] ++
    opt_field "closed_at" VStr (closed_at s) ++ opt_field "last_hook_at" VStr (last_hook_at s) ++
    opt_field "last_hook_event" VStr (last_hook_event s) ++ opt_field "last_armed_at" VStr (last_armed_at s) ++
    opt_field "last_waiter_exit" vexit (last_waiter_exit s) ++ opt_field "last_sampler_exit" vexit (last_sampler_exit s) ++
    opt_field "last_sampler_start_at" VStr (last_sampler_start_at s) ++ opt_field "sampler_failures" VInt (sampler_failures s) ++
    opt_field "sampler_retry_at" VFloat (sampler_retry_at s) ++ opt_field "sampler_fault_epoch" VStr (sampler_fault_epoch s) ++
    opt_field "last_sample_at" VStr (last_sample_at s) ++ opt_field "sample_period_seconds" VFloat (sample_period_seconds s) ++
    opt_field "last_fault_wake_at" VFloat (last_fault_wake_at s)).
Definition vlevel (l : Level) : value := VStr (level_text l).
Definition vopt {A} (f : A → value) (x : option A) : value := match x with Some a => f a | None => VNull end.
Definition vresource (r : Resource) : value :=
  VObj ([("level", vlevel (level r)); ("episode", VInt (episode r))] ++ opt_field "transition_seq" VInt (transition_seq r) ++
    opt_field "candidate" (vopt vlevel) (candidate r) ++ opt_field "candidate_count" VInt (candidate_count r) ++
    opt_field "last_sample_at" VStr (sampled_at r) ++ opt_field "observed" vlevel (observed r) ++
    opt_field "value" of_json (observed_value r) ++ opt_field "last_known_level" vlevel (last_known_level r)).
Definition vdata (d : Data) : value :=
  VObj ([("schema", VStr SCHEMA); ("cutoff", VStr (cutoff d)); ("notices", vdict vnotice (notices d))] ++
    opt_field "sessions" (vdict vsession) (sessions d) ++ opt_field "resources" (vdict vresource) (resources d) ++
    opt_field "last_resource_sample_at" VStr (last_resource_sample_at d)).
(** [len(payload)], with the final line feed. *)
Definition payload_bytes (d : Data) : Z := utf8_length (value_dumps (vdata d)) + 1.

(** ** Reading and writing *)

Definition ojson (x : option string) : json := match x with Some s => JStr s | None => JNull end.
Definition enqueued (n : Notice) : option string := enqueued_at <$> body n.
Definition record_check (kn : string * Notice) : res unit :=
  let '(key, n) := kn in
  check (bool_decide (id n = key)) "invalid notification record";;
  timestamp (ojson (if decide (state n = Acknowledged) then acknowledged_at n else enqueued n));; Ok tt.

Definition _read (f : store_file) : res Data :=
  match f with
  | Missing => Err (Exn OSError "No such file or directory")
  | Unreadable => Err (Exn ValueError "invalid notification store")
  | Holds d => timestamp (JStr (cutoff d));; for_each record_check (by_key (notices d));; Ok d
  end.

Definition set_notice (key : string) (n : Notice) (d : Data) : Data :=
  {| cutoff := cutoff d; notices := <[key := n]> (notices d); sessions := sessions d; resources := resources d;
     last_resource_sample_at := last_resource_sample_at d |}.

(** An acknowledged notice keeps its id, state and time after the retention. *)
Definition tombstone (n : Notice) : Notice :=
  {| id := id n; state := state n; body := None; lease := None; offer_count := None; offered_at := None;
     attention_reason := None; acknowledged_at := acknowledged_at n; ack_latency_seconds := None |}.
Definition expire_one (limit : float) (n : Notice) : res Notice :=
  if decide (state n = Acknowledged) then
    at_ ← timestamp (ojson (acknowledged_at n)); Ok (if SFltb at_ limit then tombstone n else n)
  else Ok n.
Fixpoint expire_all (limit : float) (l : list (string * Notice)) (d : Data) : res Data :=
  match l with
  | [] => Ok d
  | (key, n) :: l => n ← expire_one limit n; expire_all limit l (set_notice key n d)
  end.

(** Where the write fails: before [os.replace], or after it, when the
    directory cannot be synced. *)
Variant Fault := NoFault | BeforeReplace | AfterReplace.

Definition _write (c : Clock) (fault : Fault) (d : Data) (f : store_file) : res unit * store_file :=
  match expire_all (float_sub (time c) (float_lit ACK_RETENTION_SECONDS)) (by_key (notices d)) d with
  | Err e => (Err e, f)
  | Ok d =>
      if MAX_STORE_BYTES <? payload_bytes d then (Err (Exn ValueError "notification store exceeds byte limit; enqueue deferred"), f)
      else match fault with
           | NoFault => (Ok tt, Holds d)
           | BeforeReplace => (Err (Exn OSError "write failed"), f)
           | AfterReplace => (Err (Exn OSError "directory sync failed"), Holds d)
           end
  end.

(** The value of an operation that has written. *)
Definition written {A} (w : res unit * store_file) (a : A) : res A * store_file :=
  (match w.1 with Ok _ => Ok a | Err e => Err e end, w.2).
(** An operation that computes [a] and the data to write. *)
Definition transact {A} (c : Clock) (fault : Fault) (f : store_file) (step : Data → res (A * Data)) : res A * store_file :=
  match _read f ≫= step with
  | Err e => (Err e, f)
  | Ok (a, d) => written (_write c fault d f) a
  end.

Definition empty_data (cutoff : string) : Data :=
  {| cutoff := cutoff; notices := ∅; sessions := None; resources := None; last_resource_sample_at := None |}.
Definition initialize (c : Clock) (fault : Fault) (cutoff : string) (f : store_file) : res (option string) * store_file :=
  match f with
  | Missing =>
      let cutoff := if bool_decide (cutoff = "") then DEFAULT_CUTOFF else cutoff in
      match timestamp (JStr cutoff) with
      | Err e => (Err e, f)
      | Ok _ => written (_write c fault (empty_data cutoff) f) (Some cutoff)
      end
  | _ => (Ok None, f)
  end.

(** ** Producers *)

(** The key of a notice: the hash of its identity. *)
Definition notice_key (identity : list json) : string :=
  "notice-" +:+ sha256_hex (encode_utf8 (dumps true (JList identity))).
Definition blank (part : json) : bool := bool_decide (py_strip (py_str part) = "").
Definition new_notice (key : string) (b : Body) : Notice :=
  {| id := key; state := Pending; body := Some b; lease := None; offer_count := None; offered_at := None;
     attention_reason := None; acknowledged_at := None; ack_latency_seconds := None |}.

(** [value or utc_now()], which must then be a timestamp's text. *)
Definition or_now (c : Clock) (value : json) : json := if truthy value then value else JStr (utc_now c).

Definition _enqueue_into (c : Clock) (identity : list json) (summary occurred_at : json) (metadata : list (string * value)) (d : Data) :
    res (option Notice * Data) :=
  let occurred_at := or_now c occurred_at in
  event_time ← timestamp occurred_at;
  check (negb (existsb blank identity)) "notice identity components must not be empty";;
  let key := notice_key identity in
  match notices d !! key with
  | Some n => Ok (Some n, d)
  | None =>
      limit ← timestamp (JStr (cutoff d));
      if SFltb event_time limit then Ok (None, d)
      else
        let n := new_notice key {| identity := identity; summary := py_str summary; metadata := metadata;
                                   occurred_at := py_str occurred_at; enqueued_at := utc_now c |} in
        Ok (Some n, set_notice key n d)
  end.

(** [_enqueue]: the file is written only when a notice was added. *)
Definition _enqueue (c : Clock) (fault : Fault) (identity : list json) (summary occurred_at : json) (metadata : list (string * value))
    (f : store_file) : res (option Notice) * store_file :=
  match d ← _read f; '(n, d') ← _enqueue_into c identity summary occurred_at metadata d; Ok (d, n, d') with
  | Err e => (Err e, f)
  | Ok (d, n, d') => if (size (notices d') =? size (notices d))%nat then (Ok n, f) else written (_write c fault d' f) n
  end.

Definition dash (c : ascii) : ascii := if decide (c = "_"%char) then "-"%char else c.
Fixpoint dashes (s : string) : string := match s with "" => "" | String c s => String (dash c) (dashes s) end.
Definition task_identity (task_id : string) (generation : Z) (kind : json) : list json :=
  [JStr "task"; JStr task_id; JInt generation; JStr (py_lower (dashes (py_strip (py_str kind))))].
Definition enqueue_task (c : Clock) (fault : Fault) (task_id : string) (generation kind summary occurred_at : json)
    (metadata : list (string * value)) (f : store_file) : res (option Notice) * store_file :=
  match generation with
  | JInt g =>
      if g <? 1 then (Err (Exn ValueError "delivery generation must be a positive integer"), f)
      else _enqueue c fault (task_identity task_id g kind) summary occurred_at metadata f
  | _ => (Err (Exn ValueError "delivery generation must be a positive integer"), f)
  end.
Definition enqueue_resource (c : Clock) (fault : Fault) (resource : string) (episode summary occurred_at : json)
    (metadata : list (string * value)) (f : store_file) : res (option Notice) * store_file :=
  _enqueue c fault [JStr "resource"; JStr resource; JStr (py_str episode)] summary occurred_at metadata f.

(** ** Readers *)

Definition is_pending (n : Notice) : bool := negb (bool_decide (state n = Acknowledged)).
(** [sorted(..., key=lambda n: (n["enqueued_at"], n["id"]))] *)
Definition queue_key (n : Notice) : string * string := (default "" (enqueued n), id n).
Definition queue_leb (m n : Notice) : bool :=
  let '(t, i) := queue_key m in let '(u, j) := queue_key n in
  if bool_decide (t = u) then str_leb i j else str_leb t u.
Definition pending (d : Data) : list Notice := sort_by queue_leb (List.filter is_pending (by_key (notices d)).*2).

Definition list_pending (limit : Z) (f : store_file) : res (list Notice) :=
  check ((1 <=? limit) && (limit <=? 1000)) "limit must be between 1 and 1000";;
  d ← _read f; Ok (firstn (Z.to_nat limit) (pending d)).
Definition notice_of (key : string) (d : Data) : res Notice :=
  match notices d !! key with Some n => Ok n | None => Err (Exn KeyError key) end.
Definition show (key : string) (f : store_file) : res Notice := d ← _read f; notice_of key d.

(** ** Transitions of named notices *)

(** [list(dict.fromkeys(ids))] *)
Fixpoint first_uses (seen ids : list string) : list string :=
  match ids with
  | [] => []
  | x :: ids => if bool_decide (x ∈ seen) then first_uses seen ids else x :: first_uses (x :: seen) ids
  end.

(** All ids are found before the first update; [update] gets the notice's own
    reading of the clock. *)
Fixpoint update_all (update : Notice → res Notice) (l : list Notice) (d : Data) : res (list Notice * Data) :=
  match l with
  | [] => Ok ([], d)
  | n :: l => n ← update n; '(rest, d) ← update_all update l (set_notice (id n) n d); Ok (n :: rest, d)
  end.
Definition transition_step (ids : list string) (update : Notice → res Notice) (d : Data) : res (list Notice * Data) :=
  records ← map_res (λ key, notice_of key d) ids; update_all update records d.
Definition _transition (c : Clock) (fault : Fault) (ids : list string) (update : Notice → res Notice) (f : store_file) :
    res (list Notice) * store_file :=
  let ids := first_uses [] ids in
  if bool_decide (ids = []) || (1000 <? length ids)%nat then
    (Err (Exn ValueError "supply between 1 and 1000 exact notice IDs"), f)
  else transact c fault f (transition_step ids update).

Section Transitions.
Context (clocks : string → Clock).

(** [max(0, time.time() - timestamp(notice["enqueued_at"]))] *)
Definition latency (c : Clock) (since : float) : Z + float :=
  let x := float_sub (time c) since in if float_gtb x (float_lit 0) then inr x else inl 0.
Definition acknowledge_one (n : Notice) : res Notice :=
  if decide (state n = Acknowledged) then Ok n
  else
    since ← timestamp (ojson (enqueued n));
    let c := clocks (id n) in
    Ok {| id := id n; state := Acknowledged; body := body n; lease := None; offer_count := offer_count n; offered_at := offered_at n;
          attention_reason := attention_reason n; acknowledged_at := Some (utc_now c); ack_latency_seconds := Some (latency c since) |}.
Definition acknowledge (c : Clock) (fault : Fault) (ids : list string) (f : store_file) : res (list Notice) * store_file :=
  _transition c fault ids acknowledge_one f.

Definition require_attention_one (reason : string) (n : Notice) : res Notice :=
  check (negb (bool_decide (state n = Acknowledged))) "acknowledged notice cannot require attention";;
  Ok {| id := id n; state := Attention; body := body n; lease := lease n; offer_count := offer_count n; offered_at := offered_at n;
        attention_reason := Some reason; acknowledged_at := acknowledged_at n; ack_latency_seconds := ack_latency_seconds n |}.
Definition require_attention (c : Clock) (fault : Fault) (ids : list string) (reason : string) (f : store_file) :
    res (list Notice) * store_file :=
  _transition c fault ids (require_attention_one reason) f.

(** ** Offers *)

Definition ttl_ok (ttl : float) : bool := isfinite ttl && SFltb (float_lit 0) ttl && float_leb ttl (float_lit 3600).
Definition leased (n : Notice) (at_ : string) (count : option Z) (l : Lease) (s : State) : Notice :=
  {| id := id n; state := s; body := body n; lease := Some l; offer_count := count; offered_at := Some at_;
     attention_reason := attention_reason n; acknowledged_at := acknowledged_at n; ack_latency_seconds := ack_latency_seconds n |}.

(** [offer]: a caller claims notices by id; [start_of] is [process_start_identity]. *)
Definition offer_one (start_of : Z → res (option string)) (now : float) (o : Owner) (ttl : float) (n : Notice) : res Notice :=
  check (negb (bool_decide (state n = Acknowledged))) "acknowledged notice cannot be offered";;
  (match lease n with
   | Some l =>
       if SFltb now (expires_at l) && negb (bool_decide (holder l = o)) then
         start ← start_of (pid (holder l));
         check (negb (bool_decide (start = Some (process_start (holder l))))) "notice already leased by another live process"
       else Ok tt
   | None => Ok tt
   end);;
  Ok (leased n (utc_now (clocks (id n))) (offer_count n)
        {| holder := o; lease_session := None; expires_at := float_add now ttl |} Offered).
Definition offer (c : Clock) (fault : Fault) (start_of : Z → res (option string)) (now : float) (ids : list string) (o : Owner)
    (ttl : float) (f : store_file) : res (list Notice) * store_file :=
  match (if bool_decide (process_start o = "") then Ok None else start_of (pid o)) with
  | Err e => (Err e, f)
  | Ok start =>
      if negb (bool_decide (start = Some (process_start o))) then (Err (Exn ValueError "lease owner process-start identity mismatch"), f)
      else if negb (ttl_ok ttl) then (Err (Exn ValueError "lease TTL must be between 0 and 3600 seconds"), f)
      else _transition c fault ids (offer_one start_of now o ttl) f
  end.

(** [offer_pending]: a session takes the first notices that are due. *)
Section OfferPending.
Context (identity_alive : Owner → res bool) (now : float) (async_wake : bool).

Definition offers (n : Notice) : Z := default 0 (offer_count n).
Definition due (n : Notice) : res bool :=
  if bool_decide (state n = Acknowledged) || async_wake && (MAX_ASYNC_OFFERS <=? offers n) then Ok false
  else match lease n with
       | Some l => if SFltb now (expires_at l) then alive ← identity_alive (holder l); Ok (negb alive) else Ok true
       | None => Ok true
       end.

(** [any(due(n) for n in ...)] *)
Fixpoint any_due (l : list Notice) : res bool :=
  match l with
  | [] => Ok false
  | n :: l => b ← due n; if (b : bool) then Ok true else any_due l
  end.

(** [min(3600, ttl * OFFER_BACKOFF[...])] *)
Definition backoff (count : Z) : Z := nth (Z.to_nat (Z.min (count - 1) (Z.of_nat (length OFFER_BACKOFF) - 1))) OFFER_BACKOFF 0.
Definition delay (ttl : float) (count : Z) : float :=
  let x := float_mul ttl (float_lit (backoff count)) in if SFltb x (float_lit 3600) then x else float_lit 3600.
Definition offered (session : string) (o : Owner) (ttl : float) (n : Notice) : Notice :=
  let count := offers n + 1 in
  leased n (utc_now (clocks (id n))) (Some count)
    {| holder := o; lease_session := Some session; expires_at := float_add now (delay ttl count) |}
    (if decide (state n = Attention) then Attention else Offered).

(** The first [limit] candidates that are due, each with its lease. *)
Fixpoint take_due (session : string) (o : Owner) (ttl : float) (limit : nat) (l : list Notice) : res (list Notice) :=
  match limit, l with
  | O, _ | _, [] => Ok []
  | S limit', n :: l =>
      b ← due n;
      if (b : bool) then rest ← take_due session o ttl limit' l; Ok (offered session o ttl n :: rest)
      else take_due session o ttl limit l
  end.
End OfferPending.

Definition put_all (l : list Notice) (d : Data) : Data := foldl (λ d n, set_notice (id n) n d) d l.

(** [view] is the snapshot: the file as read under the lock at this moment or,
    unchanged since by its version, at an earlier one. *)
Definition offer_pending (c : Clock) (fault : Fault) (identity_alive : Owner → res bool) (now : float) (async_wake : bool)
    (session : string) (o : Owner) (ttl : float) (limit : Z) (view : res Data) (f : store_file) : res (list Notice) * store_file :=
  match check (ttl_ok ttl && (1 <=? limit) && (limit <=? 8)) "invalid offer TTL or batch limit";;
        alive ← identity_alive o;
        check alive "session process-start identity mismatch";;
        d ← view; any_due identity_alive now async_wake (by_key (notices d)).*2
  with
  | Err e => (Err e, f)
  | Ok false => (Ok [], f)
  | Ok true =>
      match d ← _read f; l ← take_due identity_alive now async_wake session o ttl (Z.to_nat limit) (pending d); Ok (d, l) with
      | Err e => (Err e, f)
      | Ok (_, []) => (Ok [], f)
      | Ok (d, l) => written (_write c fault (put_all l d) f) l
      end
  end.
End Transitions.
