(* ===== verification/NoticeSessions.v ===== *)
(** * Notification sessions

    [chrono_state/notifications.py], [NotificationSession]: the leases of a
    coordinator's waiter and sampler in the notice store.  [me] is the calling
    process with its start identity, [lease_alive] the answer for another, a
    token or an epoch one draw of [uuid4]; a call reads the clock once. *)
From S2P Require Import Prelude Sha256 Json Binary64 PyText PyTime FloatText Notices.
From Stdlib Require Import SpecFloat.

#[local] Open Scope Z_scope.

Definition WORKER_LEASE_SECONDS : Z := 15.
Definition HEARTBEAT_SECONDS : Z := 5.
Definition HOOK_WRITE_SECONDS : Z := 5.
Definition SAMPLER_RETRY_SECONDS : list Z := [5; 60; 600].
Definition SAMPLER_FAULT_NOTICE_AFTER : Z := 3.

(** [hashlib.sha256(json.dumps([session_id, owner_pid, owner_start]).encode()).hexdigest()] *)
Definition session_key (session_id : string) (o : Owner) : string :=
  sha256_hex (encode_utf8 ("[" +:+ json_quote true session_id +:+ ", " +:+ str_of_int (pid o) +:+ ", " +:+
                           json_quote true (process_start o) +:+ "]")).
Definition session_valid (session_id : string) : bool :=
  (1 <=? String.length session_id)%nat && (String.length session_id <=? 200)%nat.

(** ** Updates of a session *)

Definition sessions_of (d : Data) : gmap string Session := default ∅ (sessions d).
Definition with_sessions (m : gmap string Session) (d : Data) : Data :=
  {| cutoff := cutoff d; notices := notices d; sessions := Some m; resources := resources d;
     last_resource_sample_at := last_resource_sample_at d |}.
Definition put_session (key : string) (s : Session) (d : Data) : Data := with_sessions (<[key := s]> (sessions_of d)) d.
(** [data["sessions"][key]] *)
Definition session_of (key : string) (d : Data) : res Session :=
  match sessions_of d !! key with Some s => Ok s | None => Err (Exn KeyError key) end.

Definition new_session (session_id_ : string) (o : Owner) (at_ : string) : Session :=
  {| session_id := session_id_; owner := o; opened_at := at_; waiter := None; sampler := None; closed_at := None; last_hook_at := None;
     last_hook_event := None; last_armed_at := None; last_waiter_exit := None; last_sampler_exit := None; last_sampler_start_at := None;
     sampler_failures := None; sampler_retry_at := None; sampler_fault_epoch := None; last_sample_at := None;
     sample_period_seconds := None; last_fault_wake_at := None |}.
Definition with_closed (at_ : option string) (s : Session) : Session :=
  {| session_id := session_id s; owner := owner s; opened_at := opened_at s; waiter := waiter s; sampler := sampler s;
     closed_at := at_; last_hook_at := last_hook_at s; last_hook_event := last_hook_event s; last_armed_at := last_armed_at s;
     last_waiter_exit := last_waiter_exit s; last_sampler_exit := last_sampler_exit s; last_sampler_start_at := last_sampler_start_at s;
     sampler_failures := sampler_failures s; sampler_retry_at := sampler_retry_at s; sampler_fault_epoch := sampler_fault_epoch s;
     last_sample_at := last_sample_at s; sample_period_seconds := sample_period_seconds s; last_fault_wake_at := last_fault_wake_at s |}.
Definition with_hook (at_ event : string) (s : Session) : Session :=
  {| session_id := session_id s; owner := owner s; opened_at := opened_at s; waiter := waiter s; sampler := sampler s;
     closed_at := closed_at s; last_hook_at := Some at_; last_hook_event := Some event; last_armed_at := last_armed_at s;
     last_waiter_exit := last_waiter_exit s; last_sampler_exit := last_sampler_exit s; last_sampler_start_at := last_sampler_start_at s;
     sampler_failures := sampler_failures s; sampler_retry_at := sampler_retry_at s; sampler_fault_epoch := sampler_fault_epoch s;
     last_sample_at := last_sample_at s; sample_period_seconds := sample_period_seconds s; last_fault_wake_at := last_fault_wake_at s |}.
(** The workers of a session and when they were last started. *)
Definition with_workers (w p : option Worker) (armed started : option string) (s : Session) : Session :=
  {| session_id := session_id s; owner := owner s; opened_at := opened_at s; waiter := w; sampler := p;
     closed_at := closed_at s; last_hook_at := last_hook_at s; last_hook_event := last_hook_event s; last_armed_at := armed;
     last_waiter_exit := last_waiter_exit s; last_sampler_exit := last_sampler_exit s; last_sampler_start_at := started;
     sampler_failures := sampler_failures s; sampler_retry_at := sampler_retry_at s; sampler_fault_epoch := sampler_fault_epoch s;
     last_sample_at := last_sample_at s; sample_period_seconds := sample_period_seconds s; last_fault_wake_at := last_fault_wake_at s |}.
Definition with_exits (w p : option Exit) (s : Session) : Session :=
  {| session_id := session_id s; owner := owner s; opened_at := opened_at s; waiter := waiter s; sampler := sampler s;
     closed_at := closed_at s; last_hook_at := last_hook_at s; last_hook_event := last_hook_event s; last_armed_at := last_armed_at s;
     last_waiter_exit := w; last_sampler_exit := p; last_sampler_start_at := last_sampler_start_at s;
     sampler_failures := sampler_failures s; sampler_retry_at := sampler_retry_at s; sampler_fault_epoch := sampler_fault_epoch s;
     last_sample_at := last_sample_at s; sample_period_seconds := sample_period_seconds s; last_fault_wake_at := last_fault_wake_at s |}.
Definition with_faults (failures : option Z) (retry_at : option float) (epoch : option string) (s : Session) : Session :=
  {| session_id := session_id s; owner := owner s; opened_at := opened_at s; waiter := waiter s; sampler := sampler s;
     closed_at := closed_at s; last_hook_at := last_hook_at s; last_hook_event := last_hook_event s; last_armed_at := last_armed_at s;
     last_waiter_exit := last_waiter_exit s; last_sampler_exit := last_sampler_exit s; last_sampler_start_at := last_sampler_start_at s;
     sampler_failures := failures; sampler_retry_at := retry_at; sampler_fault_epoch := epoch;
     last_sample_at := last_sample_at s; sample_period_seconds := sample_period_seconds s; last_fault_wake_at := last_fault_wake_at s |}.
Definition with_sample (at_ : string) (period : float) (s : Session) : Session :=
  {| session_id := session_id s; owner := owner s; opened_at := opened_at s; waiter := waiter s; sampler := sampler s;
     closed_at := closed_at s; last_hook_at := last_hook_at s; last_hook_event := last_hook_event s; last_armed_at := last_armed_at s;
     last_waiter_exit := last_waiter_exit s; last_sampler_exit := last_sampler_exit s; last_sampler_start_at := last_sampler_start_at s;
     sampler_failures := sampler_failures s; sampler_retry_at := sampler_retry_at s; sampler_fault_epoch := sampler_fault_epoch s;
     last_sample_at := Some at_; sample_period_seconds := Some period; last_fault_wake_at := last_fault_wake_at s |}.

Definition given (x : option string) : bool := match x with Some s => negb (bool_decide (s = "")) | None => false end.
Definition is_closed (s : Session) : bool := given (closed_at s).
Variant Role := Waiter | Sampler.
Definition worker_of (role : Role) (s : Session) : option Worker := match role with Waiter => waiter s | Sampler => sampler s end.
Definition set_worker (role : Role) (w : option Worker) (s : Session) : Session :=
  match role with
  | Waiter => with_workers w (sampler s) (last_armed_at s) (last_sampler_start_at s) s
  | Sampler => with_workers (waiter s) w (last_armed_at s) (last_sampler_start_at s) s
  end.

(** A transaction that writes only when it has something to write. *)
Definition maybe {A} (c : Clock) (fault : Fault) (f : store_file) (step : Data → res (A * option Data)) : res A * store_file :=
  match _read f ≫= step with
  | Err e => (Err e, f)
  | Ok (a, None) => (Ok a, f)
  | Ok (a, Some d) => written (_write c fault d f) a
  end.

(** ** Opening and closing *)

Section Calls.
Context (c : Clock) (fault : Fault).

(** At a [SessionStart] the other open sessions of the same process end. *)
Definition retire_prior (event key : string) (o : Owner) (m : gmap string Session) : gmap string Session :=
  if bool_decide (event = "SessionStart") then
    map_imap (λ k s, Some (if negb (bool_decide (k = key)) && bool_decide (owner s = o) && negb (is_closed s)
                           then with_closed (Some (utc_now c)) s else s)) m
  else m.
(** [record.pop("closed_at")] when a session starts again. *)
Definition reopen (event : string) (s : Session) : Session :=
  if bool_decide (event = "SessionStart") && is_closed s then with_closed None s else s.

Definition open_step (key session_id_ : string) (o : Owner) (event : string) (d : Data) : res (bool * option Data) :=
  let m := sessions_of d in
  let record := match m !! key with Some s => reopen event s | None => new_session session_id_ o (utc_now c) end in
  let m' := retire_prior event key o (<[key := record]> m) in
  let changed := negb (bool_decide (is_Some (m !! key))) ||
    bool_decide (event = "SessionStart") &&
      (match m !! key with Some s => is_closed s | None => false end ||
       existsb (λ ks : string * Session, negb (bool_decide (ks.1 = key)) && bool_decide (owner ks.2 = o) && negb (is_closed ks.2)) (map_to_list m)) in
  if is_closed record then Ok (false, None)
  else
    recent ← (match last_hook_at record with
              | Some at_ => if negb changed && given (Some at_) then
                              t ← timestamp (JStr at_); Ok (SFltb (float_sub (time c) t) (float_lit HOOK_WRITE_SECONDS))
                            else Ok false
              | None => Ok false
              end);
    if (recent : bool) then Ok (true, None)
    else Ok (true, Some (with_sessions (<[key := with_hook (utc_now c) event record]> m') d)).

(** [open]: the store is created first if it is missing. *)
Definition open (init_fault : Fault) (alive : res bool) (session_id_ : string) (o : Owner) (event : string) (f : store_file) :
    res bool * store_file :=
  match alive with
  | Err e => (Err e, f)
  | Ok false => (Err (Exn ValueError "coordinator identity unavailable or changed"), f)
  | Ok true =>
      match initialize c init_fault "" f with
      | (Err e, f) => (Err e, f)
      | (Ok _, f) => maybe c fault f (open_step (session_key session_id_ o) session_id_ o event)
      end
  end.

Definition close (key : string) (f : store_file) : res unit * store_file :=
  maybe c fault f (λ d, match sessions_of d !! key with
                        | Some s => Ok (tt, Some (put_session key (with_closed (Some (utc_now c)) s) d))
                        | None => Ok (tt, None)
                        end).

(** ** Worker leases *)

Context (me : Owner) (lease_alive : Owner → res bool).

Definition worker_alive (w : option Worker) : res bool :=
  match w with Some w => lease_alive (worker_owner w) | None => Ok false end.

Definition claim_waiter (draw : string) (lifetime : float) (key : string) (f : store_file) : res (option string) * store_file :=
  maybe c fault f (λ d,
    s ← session_of key d;
    taken ← (if is_closed s then Ok true else worker_alive (waiter s));
    if (taken : bool) then Ok (None, None)
    else
      let w := {| worker_owner := me; token := draw; worker_expires_at := float_add (time c) (float_lit WORKER_LEASE_SECONDS);
                  deadline := Some (float_add (time c) lifetime) |} in
      Ok (Some draw, Some (put_session key (with_workers (Some w) (sampler s) (Some (utc_now c)) (last_sampler_start_at s) s) d))).

(** The lease is this process's and of this token, in an open session. *)
Definition owned (role : Role) (token_ : string) (s : Session) : bool :=
  negb (is_closed s) &&
  match worker_of role s with
  | Some w => bool_decide (token w = token_) && bool_decide (worker_owner w = me)
  | None => false
  end.
Definition fresh (role : Role) (s : Session) : bool :=
  match worker_of role s with
  | Some w => SFltb (float_sub (float_add (time c) (float_lit WORKER_LEASE_SECONDS)) (float_lit HEARTBEAT_SECONDS)) (worker_expires_at w)
  | None => false
  end.
Definition renew (w : Worker) : Worker :=
  {| worker_owner := worker_owner w; token := token w; worker_expires_at := float_add (time c) (float_lit WORKER_LEASE_SECONDS); deadline := deadline w |}.

(** [heartbeat]: [sample] is the sampler's [last_sample_at] and period. *)
Definition heartbeat_step (role : Role) (token_ : string) (sample : option (string * float)) (key : string) (d : Data) :
    res (bool * option Data) :=
  s ← session_of key d;
  if negb (owned role token_ s) then Ok (false, None)
  else if negb (bool_decide (is_Some sample)) && fresh role s then Ok (true, None)
  else
    let s := set_worker role (renew <$> worker_of role s) s in
    let s := match sample with
             | Some (at_, period) => let s := with_sample at_ period s in
                                     match role with Sampler => with_faults None None None s | Waiter => s end
             | None => s
             end in
    Ok (true, Some (put_session key s d)).
Definition heartbeat (role : Role) (token_ : string) (sample : option (string * float)) (key : string) (view : res Data) (f : store_file) :
    res bool * store_file :=
  match d ← view; s ← session_of key d; Ok (s : Session) with
  | Err e => (Err e, f)
  | Ok s =>
      if negb (owned role token_ s) then (Ok false, f)
      else if negb (bool_decide (is_Some sample)) && fresh role s then (Ok true, f)
      else maybe c fault f (heartbeat_step role token_ sample key)
  end.

(** ** Sampler faults *)

Definition retry_delay (failures : Z) : Z :=
  nth (Z.to_nat (Z.min (failures - 1) (Z.of_nat (length SAMPLER_RETRY_SECONDS) - 1))) SAMPLER_RETRY_SECONDS 0.
Definition fault_summary (reason : string) : string :=
  "RESOURCE MONITORING OFF: resource sampler down: " +:+ str_take 300 reason +:+
  ". Automatic retries are backed off to at most one per 10 minutes; task notices still require acknowledgment. No cleanup authorized.".
(** [_sampler_fault]: one failed attempt is counted; from the third on a notice
    of the episode is due. *)
Definition _sampler_fault (epoch_draw : string) (key reason : string) (s : Session) (d : Data) : res Data :=
  let failures := default 0 (sampler_failures s) + 1 in
  let epoch := default epoch_draw (sampler_fault_epoch s) in
  let s := with_exits (last_waiter_exit s) (Some {| exit_at := utc_now c; exit_reason := reason |})
             (with_faults (Some failures) (Some (float_add (time c) (float_lit (retry_delay failures)))) (Some epoch) s) in
  let d := put_session key s d in
  if SAMPLER_FAULT_NOTICE_AFTER <=? failures then
    '(_, d) ← _enqueue_into c [JStr "sampler"; JStr key; JStr "fault"; JStr epoch] (JStr (fault_summary reason)) JNull
                [("session", VStr key); ("consecutive_failures", VInt failures)] d;
    Ok d
  else Ok d.

Definition release (epoch_draw : string) (role : Role) (token_ reason : string) (key : string) (f : store_file) : res unit * store_file :=
  maybe c fault f (λ d,
    s ← session_of key d;
    match worker_of role s with
    | Some w =>
        if bool_decide (token w = token_) && (pid (worker_owner w) =? pid me) then
          let ended := Some {| exit_at := utc_now c; exit_reason := reason |} in
          let s := set_worker role None s in
          let s := match role with
                   | Waiter => with_exits ended (last_sampler_exit s) s
                   | Sampler => with_exits (last_waiter_exit s) ended s
                   end in
          match role with
          | Sampler => if startswith reason "fault" && negb (is_closed s) then
                         d ← _sampler_fault epoch_draw key reason s d; Ok (tt, Some d)
                       else Ok (tt, Some (put_session key s d))
          | Waiter => Ok (tt, Some (put_session key s d))
          end
        else Ok (tt, None)
    | None => Ok (tt, None)
    end).
End Calls.

(** [active]: whether the workers of the session go on. *)
Definition active (enabled : bool) (alive : res bool) (key : string) (view : res Data) : res bool :=
  if negb enabled then Ok false
  else
    living ← alive;
    if negb living then Ok false
    else d ← view; Ok (match sessions_of d !! key with Some s => negb (is_closed s) | None => false end).

(** ** Starting the sampler *)

(** One call of [ensure_sampler] that finds something to do in the snapshot:
    [spawn] is the process started with [token], its identity, or the
    exception. The fault of a sampler that left its lease is written first. *)
Definition before_retry (c : Clock) (s : Session) : bool :=
  match sampler_retry_at s with Some t => SFltb (time c) t | None => SFltb (time c) (float_lit 0) end.
Definition start_sampler (c : Clock) (fault : Fault) (spawn : res Owner) (draw epoch_draw key : string) (d : Data) (f : store_file) :
    res unit * store_file :=
  match session_of key d with
  | Err e => (Err e, f)
  | Ok s =>
      if before_retry c s then (Ok tt, f)
      else match spawn with
           | Err e =>
               match _sampler_fault c epoch_draw key ("fault: " +:+ exn_msg e) s d with
               | Err e => (Err e, f)
               | Ok d => written (_write c fault d f) tt
               end
           | Ok child =>
               let w := {| worker_owner := child; token := draw; worker_expires_at := float_add (time c) (float_lit WORKER_LEASE_SECONDS);
                           deadline := None |} in
               written (_write c fault (put_session key (with_workers (waiter s) (Some w) (last_armed_at s) (Some (utc_now c)) s) d) f) tt
           end
  end.
Definition ensure_sampler (c : Clock) (fault fault' : Fault) (lease_alive : Owner → res bool) (spawn : res Owner)
    (draw epoch_draw key : string) (f : store_file) : res unit * store_file :=
  match d ← _read f; s ← session_of key d;
        busy ← (if is_closed s then Ok true else worker_alive lease_alive (sampler s)); Ok (d, s, busy) with
  | Err e => (Err e, f)
  | Ok (d, s, busy) =>
      if (busy : bool) then (Ok tt, f)
      else match sampler s with
           | None => start_sampler c fault' spawn draw epoch_draw key d f
           | Some _ =>
               match _sampler_fault c epoch_draw key "fault: sampler process exited before release" (set_worker Sampler None s) d with
               | Err e => (Err e, f)
               | Ok d => match _write c fault d f with
                         | (Err e, f) => (Err e, f)
                         | (Ok _, f) => start_sampler c fault' spawn draw epoch_draw key d f
                         end
               end
           end
  end.
