(* ===== verification/ResourceWatch.v ===== *)
(** * Resource watch ([chrono_state/resource_watch.py])

    The levels of disk space and memory pressure, the episodes of a resource
    with their hysteresis, and the transaction that publishes a sample.  The
    samples themselves and the environment settings are arguments. *)
From S2P Require Import Prelude Json Binary64 PyText PyTime FloatText Notices.
From Stdlib Require Import SpecFloat.

#[local] Open Scope Z_scope.

Definition GIB : Z := 1024 ^ 3.
(** [RANK]; there is none of [unknown]. *)
Definition RANK (l : Level) : Z := match l with Normal => 0 | Warn => 1 | Critical => 2 | Unknown => 0 end.

Record ResourceConfig := { warn_gib : float; critical_gib : float; hysteresis_gib : float; recovery_samples : Z; period : float }.
Definition default_config : ResourceConfig :=
  {| warn_gib := float_lit 25; critical_gib := float_lit 15; hysteresis_gib := float_lit 2; recovery_samples := 2; period := float_lit 60 |}.
(** [__post_init__] *)
Definition config_valid (g : ResourceConfig) : bool :=
  forallb isfinite [warn_gib g; critical_gib g; hysteresis_gib g; period g] &&
  (SFltb (float_lit 0) (critical_gib g) && SFltb (critical_gib g) (warn_gib g)) &&
  (SFltb (float_lit 0) (hysteresis_gib g) && SFltb (float_lit 0) (period g)) && (1 <=? recovery_samples g).

(** [free / GIB] of a byte count, correctly rounded. *)
Definition in_gib (free : Z) : float :=
  match free with
  | 0 => S754_zero false
  | _ => SFdiv 53 1024 (S754_finite (free <? 0) (Z.to_pos (Z.abs free)) 0) (S754_finite false (Z.to_pos GIB) 0)
  end.

Definition disk_level (free : option Z) (previous : option Level) (g : ResourceConfig) : Level :=
  match free with
  | None => Unknown
  | Some free =>
      if free <? 0 then Unknown
      else
        let gib := in_gib free in
        if SFltb gib (critical_gib g) then Critical
        else if bool_decide (previous = Some Critical) && SFltb gib (float_add (critical_gib g) (hysteresis_gib g)) then Critical
        else if SFltb gib (warn_gib g) then Warn
        else if bool_decide (previous = Some Warn ∨ previous = Some Critical) && SFltb gib (float_add (warn_gib g) (hysteresis_gib g)) then Warn
        else Normal
  end.

(** ** Episodes *)

Definition first_state : Resource :=
  {| level := Normal; episode := 0; transition_seq := None; candidate := None; candidate_count := None; sampled_at := None;
     observed := None; observed_value := None; last_known_level := None |}.
Definition with_candidate (c : option Level) (count : Z) (r : Resource) : Resource :=
  {| level := level r; episode := episode r; transition_seq := transition_seq r; candidate := Some c; candidate_count := Some count;
     sampled_at := sampled_at r; observed := observed r; observed_value := observed_value r; last_known_level := last_known_level r |}.
Definition with_level (l : Level) (e : Z) (seq : Z) (r : Resource) : Resource :=
  {| level := l; episode := e; transition_seq := Some seq; candidate := Some None; candidate_count := Some 0;
     sampled_at := sampled_at r; observed := observed r; observed_value := observed_value r; last_known_level := last_known_level r |}.

Definition is_down (seen old : Level) : bool :=
  negb (bool_decide (seen = Unknown)) && (bool_decide (old = Unknown) || (RANK seen <? RANK old)).
Definition candidate_run (seen : Level) (r : Resource) : Z :=
  if bool_decide (candidate r = Some (Some seen)) then default 0 (candidate_count r) + 1 else 1.
(** The new state, and the edge to announce. *)
Definition move_to (seen : Level) (r : Resource) : Resource * option Level :=
  let fresh := bool_decide (level r = Normal) || bool_decide (seen = Unknown) in
  (with_level seen (if fresh then episode r + 1 else episode r) ((if fresh then 0 else default 0 (transition_seq r)) + 1) r, Some seen).
Definition transition (prior : option Resource) (seen : Level) (recovery_samples : Z) : Resource * option Level :=
  let r := default first_state prior in
  if bool_decide (seen = level r) then (with_candidate None 0 r, None)
  else if is_down seen (level r) then
    let count := candidate_run seen r in
    if count <? recovery_samples then (with_candidate (Some seen) count r, None)
    else move_to seen (with_candidate (Some seen) count r)
  else move_to seen r.
(** ["recovered" if observed == "normal" else observed] *)
Definition edge_text (l : Level) : string := match l with Normal => "recovered" | _ => level_text l end.

(** ** Publishing a sample *)

Record Sample := { disk_free_bytes : option Z; memory_pressure : string; disk_path : string; sample_errors : list (string * json) }.
Definition pressure_level (v : string) : Level :=
  if bool_decide (v = "normal") then Normal else if bool_decide (v = "warn") then Warn
  else if bool_decide (v = "critical") then Critical else Unknown.

(** [f"{x:.2f}"] of a float at least zero: the exact value rounded half to even. *)
Definition fixed2 (x : float) : string :=
  match x with
  | S754_finite _ m e =>
      let s := scale (fraction m e) 2 in
      let q := s.1 / s.2 in let r := 2 * (s.1 - q * s.2) in
      let n := if (s.2 <? r) || (r =? s.2) && Z.odd q then q + 1 else q in
      str_of_int (n / 100) +:+ "." +:+ padded 2 (n mod 100) ""
  | _ => "0.00"
  end.

Section Publish.
Context (c : Clock) (g : ResourceConfig) (sample : Sample).

Definition seen_level (resource : string) (prior : option Resource) : Level :=
  if bool_decide (resource = "disk") then
    disk_level (disk_free_bytes sample) (r ← prior; Some (default (level r) (last_known_level r))) g
  else pressure_level (memory_pressure sample).
Definition seen_value (resource : string) : json :=
  if bool_decide (resource = "disk") then match disk_free_bytes sample with Some z => JInt z | None => JNull end
  else JStr (memory_pressure sample).
Definition detail (resource : string) (seen : Level) : string :=
  if bool_decide (resource = "disk") then
    match seen, disk_free_bytes sample with
    | Unknown, _ | _, None => "unknown free space"
    | _, Some z => fixed2 (in_gib z) +:+ " GiB free"
    end
  else "pressure enum " +:+ level_text seen.
Definition with_observation (seen : Level) (value : json) (r : Resource) : Resource :=
  {| level := level r; episode := episode r; transition_seq := transition_seq r; candidate := candidate r; candidate_count := candidate_count r;
     sampled_at := Some (utc_now c); observed := Some seen; observed_value := Some (if decide (seen = Unknown) then JNull else value);
     last_known_level := if decide (level r = Unknown) then last_known_level r else Some (level r) |}.

Definition set_resource (name : string) (r : Resource) (d : Data) : Data :=
  {| cutoff := cutoff d; notices := notices d; sessions := sessions d; resources := Some (<[name := r]> (default ∅ (resources d)));
     last_resource_sample_at := last_resource_sample_at d |}.
Definition sampled (d : Data) : Data :=
  {| cutoff := cutoff d; notices := notices d; sessions := sessions d; resources := resources d;
     last_resource_sample_at := Some (utc_now c) |}.

Definition edge_identity (resource : string) (r : Resource) (edge : Level) : list json :=
  [JStr "resource"; JStr resource;
   JStr (str_of_int (episode r) +:+ ":" +:+ str_of_int (default 0 (transition_seq r)) +:+ ":" +:+ edge_text edge)].
Definition edge_metadata (r : Resource) (edge : Level) : list (string * value) :=
  [("episode", VInt (episode r)); ("level", VStr (edge_text edge)); ("transition_seq", VInt (default 0 (transition_seq r)));
   ("disk_path", VStr (disk_path sample)); ("errors", of_json (JObj (sample_errors sample))); ("warn_gib", VFloat (warn_gib g));
   ("critical_gib", VFloat (critical_gib g)); ("hysteresis_gib", VFloat (hysteresis_gib g)); ("recovery_samples", VInt (recovery_samples g))].

Definition publish_one (resource : string) (d : Data) : res (list Notice * Data) :=
  let prior := default ∅ (resources d) !! resource in
  let seen := seen_level resource prior in
  let '(r, edge) := transition prior seen (recovery_samples g) in
  let d := set_resource resource (with_observation seen (seen_value resource) r) d in
  match edge with
  | None => Ok ([], d)
  | Some edge =>
      '(n, d') ← _enqueue_into c (edge_identity resource r edge)
        (JStr ("RESOURCE " +:+ resource +:+ " " +:+ edge_text edge +:+ ": " +:+ detail resource seen +:+
               ". Read-only observation; no cleanup authorized.")) JNull (edge_metadata r edge) d;
      Ok (match n with Some n => if (size (notices d) <? size (notices d'))%nat then [n] else [] | None => [] end, d')
  end.
Definition publish_step (d : Data) : res (list Notice * Data) :=
  '(l, d) ← publish_one "disk" d; '(l', d) ← publish_one "memory" d; Ok (l ++ l', sampled d).
Definition publish_sample (fault : Fault) (f : store_file) : res (list Notice) * store_file := transact c fault f publish_step.
End Publish.

Example fixed2_1 : map fixed2 [in_gib 0; in_gib (GIB * 3 / 2); in_gib 25769803776; in_gib 1342177280; in_gib 12345678901] =
  ["0.00"; "1.50"; "24.00"; "1.25"; "11.50"].
Proof. vm_compute. reflexivity. Qed.
