(* ===== verification/NoticeOutbox.v ===== *)
(** * The outbox of the registry

    [registry_reconciler.py], [publish_durable_notices]: every event of a
    reconcile is first an intent in its task's entry, and an intent leaves the
    entry only after the notice store accepted it.  The store file and the
    clock and fault of each enqueue are arguments; the caller writes the
    registry. *)
From S2P Require Import Prelude Json PyText PyTime Posix Registry Notices.

#[local] Open Scope Z_scope.

Definition NOTICE_PENDING : string := "notice_pending_events".
Definition NOTIFICATION_PENDING_EVENTS_FIELD : string := "notification_pending_events".
Definition COORDINATION_REQUESTED : string := "COORDINATION-REQUESTED".

(** One delivery of the reconcile; [queued] is not read here. *)
Record Delivery := { status : string; task_ref : string; summary_text : string; nudge : string; pending_key : string }.

(** [task_ref.rsplit("/", 1)[-1]] *)
Definition ref_task (ref : string) : string := List.last (split_char slash ref) "".
Definition notification_queue_detail (summary nudge : string) : string :=
  if bool_decide (nudge = "") || bool_decide (nudge = summary) then summary else summary +:+ " / " +:+ nudge.
Definition attribute_error {A} : res A := Err (Exn AttributeError "object has no attribute").
Definition as_object (v : json) : res (list (string * json)) := match v with JObj d => Ok d | _ => attribute_error end.

Definition _pending_notification_events (e : entry) : res (list (string * json)) :=
  match dget NOTIFICATION_PENDING_EVENTS_FIELD e with
  | JNull => Ok []
  | JObj d => Ok d
  | _ => invalid "notification_pending_events must be an object"
  end.

(** ** Intents *)

Definition intent_key (task status : string) (generation : Z) : string := task +:+ "|" +:+ status +:+ "|" +:+ str_of_int generation.
Definition intent (generation : Z) (kind summary : string) (occurred_at : json) : json :=
  JObj [("generation", JInt generation); ("kind", JStr kind); ("summary", JStr summary); ("occurred_at", occurred_at)].
(** [pending[key] = intent] in the entry, which gets the field if it has none. *)
Definition with_intents (f : list (string * json) → list (string * json)) (e : entry) : res entry :=
  pending ← as_object (default (JObj []) (dict_get NOTICE_PENDING e));
  Ok (dict_set NOTICE_PENDING (JObj (f pending)) e).
Definition put_if_new (key : string) (v : json) (pending : list (string * json)) : list (string * json) :=
  if dict_has key pending then pending else dict_set key v pending.
(** [if pending.get(key) != intent: pending[key] = intent] *)
Definition put_if_other (key : string) (v : json) (pending : list (string * json)) : list (string * json) :=
  if py_eq (dget key pending) v then pending else dict_set key v pending.

Definition stage_entry (now : Z) (d : Delivery) (task : string) (e : entry) : res entry :=
  events ← _pending_notification_events e;
  record ← as_object (default (JObj []) (dict_get (pending_key d) events));
  generation ← int_or (jor (dget "delivery_generation" record) (dget "delivery_generation" e)) 1;
  let occurred := jor (dget "created_at" record) (JStr (isoformat_utc now)) in
  e ← with_intents (put_if_other (intent_key task (status d) generation)
        (intent generation (status d) (notification_queue_detail (summary_text d) (nudge d)) occurred)) e;
  if truthy (dget "coordination_requested" e) && py_eq (dget "coordination_notification_delivery_generation" e) (JInt generation) then
    with_intents (put_if_new (intent_key task COORDINATION_REQUESTED generation)
      (intent generation COORDINATION_REQUESTED (py_str (jor (dget "coordination_request_summary" e) (JStr "Coordination requested"))) occurred)) e
  else Ok e.
Definition stage_delivery (now : Z) (r : registry) (d : Delivery) : res registry :=
  let task := ref_task (task_ref d) in
  match dget task r with
  | JObj e => e ← stage_entry now d task e; Ok (dict_set task (JObj e) r)
  | _ => Ok r
  end.

(** A coordination record: status, reference and summary. *)
Definition stage_coordination (now : Z) (r : registry) (record : string * string * string) : res registry :=
  let '(status, ref, summary) := record in
  let task := ref_task ref in
  match dict_get task r with
  | None => Err (Exn KeyError task)
  | Some v =>
      e ← as_object v;
      generation ← int_or (dget "delivery_generation" e) 1;
      e ← with_intents (put_if_new (intent_key task status generation) (intent generation status summary (JStr (isoformat_utc now)))) e;
      Ok (dict_set task (JObj e) r)
  end.

Fixpoint fold_res {A B} (f : A → B → res A) (a : A) (l : list B) : res A :=
  match l with [] => Ok a | b :: l => a ← f a b; fold_res f a l end.
Definition stage (now : Z) (deliveries : list Delivery) (coordination : list (string * string * string)) (r : registry) : res registry :=
  r ← fold_res (stage_delivery now) r deliveries; fold_res (stage_coordination now) r coordination.

(** ** Enqueueing *)

(** [intent[k]] *)
Definition subscript (k : string) (v : json) : res json :=
  match v with
  | JObj d => match dict_get k d with Some v => Ok v | None => Err (Exn KeyError k) end
  | _ => Err (Exn TypeError "indices must be integers")
  end.

Section Flush.
Context (conditions : string → string → Clock * Fault).

Definition enqueue_intent (task key : string) (v : json) (f : store_file) : res (option Notice) * store_file :=
  match generation ← subscript "generation" v; kind ← subscript "kind" v; summary ← subscript "summary" v;
        occurred ← subscript "occurred_at" v; Ok (generation, kind, summary, occurred) with
  | Err e => (Err e, f)
  | Ok (generation, kind, summary, occurred) =>
      let '(c, fault) := conditions task key in enqueue_task c fault task generation kind summary occurred [] f
  end.

Definition deferred (what : string) : string := "durable-notice enqueue deferred" +:+ what.
(** The intents that stay, the errors and the file. *)
Fixpoint flush_intents (task : string) (l : list (string * json)) (f : store_file) :
    list (string * json) * list string * store_file :=
  match l with
  | [] => ([], [], f)
  | (key, v) :: l =>
      let '(r, f) := enqueue_intent task key v f in
      let '(kept, errors, f) := flush_intents task l f in
      match r with
      | Ok _ => (kept, errors, f)
      | Err e => ((key, v) :: kept, deferred (" for " +:+ task +:+ "/" +:+ key +:+ ": " +:+ exn_msg e) :: errors, f)
      end
  end.

Definition flush_entry (task : string) (e : entry) (f : store_file) : entry * list string * store_file :=
  match dict_get NOTICE_PENDING e with
  | None => (e, [], f)
  | Some (JObj pending) =>
      let '(kept, errors, f) := flush_intents task pending f in
      (if bool_decide (kept = []) then dict_del NOTICE_PENDING e else dict_set NOTICE_PENDING (JObj kept) e, errors, f)
  | Some _ => (e, [deferred (" for " +:+ task +:+ ": invalid pending intents")], f)
  end.

Fixpoint flush (only : string) (r : registry) (f : store_file) : registry * list string * store_file :=
  match r with
  | [] => ([], [], f)
  | (task, v) :: r =>
      let '(v, errors, f) :=
        match v with
        | JObj e => if negb (bool_decide (only = "")) && negb (bool_decide (task = only)) then (v, [], f)
                    else let '(e, errors, f) := flush_entry task e f in (JObj e, errors, f)
        | _ => (v, [], f)
        end in
      let '(r, errors', f) := flush only r f in
      ((task, v) :: r, errors ++ errors', f)
  end.

(** Whether the intents of an entry read differently from before. *)
Definition intents_changed (before after : registry) : bool :=
  existsb (λ tv : string * json,
    match tv.2 with
    | JObj e => match dget tv.1 before with
                | JObj e0 => negb (bool_decide (dumps true (dget NOTICE_PENDING e) = dumps true (dget NOTICE_PENDING e0)))
                | _ => false
                end
    | _ => false
    end) after.

(** The registry to write, whether it changed, and the messages. *)
Definition publish_durable_notices (now : Z) (init : Clock * Fault) (deliveries : list Delivery)
    (coordination : list (string * string * string)) (only : string) (r : registry) (f : store_file) :
    res (registry * bool * list string) * store_file :=
  match stage now deliveries coordination r with
  | Err e => (Err e, f)
  | Ok staged =>
      match initialize init.1 init.2 "" f with
      | (Err e, f) => (Ok (staged, intents_changed r staged, [deferred (": " +:+ exn_msg e)]), f)
      | (Ok _, f) => let '(r', errors, f) := flush only staged f in (Ok (r', intents_changed r r', errors), f)
      end
  end.
End Flush.
