(* ===== verification/NoticesProps.v ===== *)
(** * Properties of the notice store

    What any sequence of operations may do to a notice: it is consumed by an
    acknowledgment of its own id and by nothing else, for good; a batch is
    written whole or not at all; a notice under a lease in force is not offered
    again, and wakes a session a bounded number of times. *)
From S2P Require Import Prelude Sha256 Json Binary64 PyText PyTime FloatText Notices NoticeSessions ResourceWatch.
From Stdlib Require Import SpecFloat.

#[local] Open Scope Z_scope.

(** ** Dictionaries in key order *)

Lemma by_key_elem {A} (m : gmap string A) k a : (k, a) ∈ by_key m ↔ m !! k = Some a.
Proof. unfold by_key. by rewrite elem_of_sort_by, elem_of_map_to_list. Qed.
Lemma by_key_nodup {A} (m : gmap string A) : NoDup (by_key m).*1.
Proof. unfold by_key. rewrite sort_by_perm. apply NoDup_fst_map_to_list. Qed.

(** ** What may happen to a notice *)

Definition acked (n : Notice) : Prop := state n = Acknowledged.

(** An acknowledged notice stays acknowledged at the same time; one that is
    not has what its producer wrote, and its offers only count up. *)
Record keeps (n n' : Notice) : Prop := {
  ke_id : id n' = id n;
  ke_acked : acked n → acked n' ∧ acknowledged_at n' = acknowledged_at n;
  ke_open : ¬ acked n' → body n' = body n ∧ offers n <= offers n'
}.
#[export] Instance keeps_preorder : PreOrder keeps.
Proof.
  split.
  - intros n. by constructor.
  - intros a b c [H1 H2 H3] [H4 H5 H6]. constructor; [congruence| |].
    + intros Ha. destruct (H2 Ha) as [Hb E]. destruct (H5 Hb). split; congruence.
    + intros Hc. destruct (H6 Hc). assert (Hb : ¬ acked b) by (intros Hb; by destruct (H5 Hb)). destruct (H3 Hb). split; [congruence|lia].
Qed.

(** Every notice is kept, and those that become acknowledged are in [A]. *)
Record evolves (A : string → Prop) (d d' : Data) : Prop := {
  ev_cutoff : cutoff d' = cutoff d;
  ev_notice k n : notices d !! k = Some n → ∃ n', notices d' !! k = Some n' ∧ keeps n n' ∧ (acked n' → acked n ∨ A k);
  ev_new k n' : notices d' !! k = Some n' → notices d !! k = None → (acked n' → A k) ∧ (¬ acked n' → 0 <= offers n')
}.
#[export] Instance evolves_preorder A : PreOrder (evolves A).
Proof.
  split.
  - intros d. constructor; [done| |congruence]. intros k n Hn. exists n. split_and!; [done..|by left].
  - intros a b c [H1 H2 H3] [H4 H5 H6]. constructor; [congruence| |].
    + intros k n (n1 & Hb & Hk1 & Ha1)%H2. destruct (H5 _ _ Hb) as (n2 & Hc & Hk2 & Ha2). exists n2. split_and!; [done|by etrans|].
      intros [Hx|Hx]%Ha2; [by apply Ha1|by right].
    + intros k n Hc Ha. destruct (notices b !! k) as [n1|] eqn:Hb; [|by apply H6].
      destruct (H3 _ _ Hb Ha) as [Hx Hy]. destruct (H5 _ _ Hb) as (n2 & Hc2 & [_ Hka Hko] & Hz). replace n2 with n in * by congruence.
      split; [intros [?|?]%Hz; auto|]. intros Hn. destruct (Hko Hn). assert (¬ acked n1) by (intros Hn1; by destruct (Hka Hn1)). specialize (Hy ltac:(done)). lia.
Qed.
Lemma evolves_mono (A B : string → Prop) d d' : (∀ k, A k → B k) → evolves A d d' → evolves B d d'.
Proof.
  intros HAB [H1 H2 H3]. constructor; [done| |].
  - intros k n (n' & ? & ? & Ha)%H2. exists n'. split_and!; [done..|]. intros [?|?]%Ha; auto.
  - intros k n Hn Hk. destruct (H3 k n Hn Hk). auto.
Qed.

(** Every notice is under its own id. *)
Definition keyed (d : Data) : Prop := ∀ k n, notices d !! k = Some n → id n = k.
Lemma evolves_keyed A d d' : evolves A d d' → keyed d → (∀ k n, notices d' !! k = Some n → notices d !! k = None → id n = k) → keyed d'.
Proof.
  intros [_ H _] Hk Hn k n Hd. destruct (notices d !! k) as [n0|] eqn:E; [|by apply Hn].
  destruct (H _ _ E) as (n' & Hd' & [Hi _ _] & _). replace n with n' by congruence. rewrite Hi. by apply Hk.
Qed.

Lemma set_notice_evolves (A : string → Prop) k n n' d :
  notices d !! k = Some n → keeps n n' → (acked n' → acked n ∨ A k) → evolves A d (set_notice k n' d).
Proof.
  intros Hn Hk Ha. constructor; [done| |]; cbn; intros j m Hj.
  - destruct (decide (j = k)) as [->|Hjk].
    + exists n'. rewrite lookup_insert_eq. replace m with n by congruence. done.
    + exists m. rewrite lookup_insert_ne by done. split_and!; [done..|by left].
  - intros Hj0. rewrite lookup_insert_ne in Hj by congruence. congruence.
Qed.

(** ** Reading and writing *)

Lemma notice_check_Ok b msg u : check b msg = Ok u ↔ b = true.
Proof. unfold check. rewrite raise_if_Ok. by destruct b. Qed.

Lemma read_Ok f d : _read f = Ok d → f = Holds d ∧ keyed d ∧ ∀ kn, kn ∈ by_key (notices d) → record_check kn = Ok tt.
Proof.
  destruct f as [| |d0]; [done..|]. cbn [_read]. intros (t & _ & (u & Hc & [= ->])%bind_Ok)%bind_Ok.
  assert (Hall : ∀ kn, kn ∈ by_key (notices d) → record_check kn = Ok tt).
  { intros kn Hin. apply for_each_Ok in Hc. rewrite Forall_forall in Hc. by apply Hc. }
  split_and!; [done| |done]. intros k n Hn. apply by_key_elem, Hall in Hn. cbn in Hn.
  apply bind_Ok in Hn as (? & Hn%notice_check_Ok & _). by bool_inv.
Qed.

(** Only tombstones replace notices. *)
Record expired (d d' : Data) : Prop := {
  ex_cutoff : cutoff d' = cutoff d;
  ex_sessions : sessions d' = sessions d;
  ex_resources : resources d' = resources d;
  ex_dom : dom (notices d') = dom (notices d);
  ex_notice k n : notices d !! k = Some n → ∃ n', notices d' !! k = Some n' ∧ (n' = n ∨ acked n ∧ n' = tombstone n)
}.

Lemma expire_one_cases limit n n' : expire_one limit n = Ok n' → n' = n ∨ acked n ∧ n' = tombstone n.
Proof.
  unfold expire_one, acked. destruct (decide (state n = Acknowledged)) as [Ha|Ha].
  - intros (t & _ & [= <-])%bind_Ok. destruct (SFltb _ _); auto.
  - intros [= <-]. by left.
Qed.

Lemma expire_all_expired limit l d d' :
  expire_all limit l d = Ok d' → NoDup l.*1 → (∀ k n, (k, n) ∈ l → notices d !! k = Some n) →
  expired d d' ∧ ∀ k, k ∉ l.*1 → notices d' !! k = notices d !! k.
Proof.
  revert d. induction l as [|[k n] l IH]; intros d; cbn [expire_all fmap list_fmap fst].
  - intros [= <-]. split; [constructor; try done; by eauto|done].
  - intros (n' & Hx%expire_one_cases & H)%bind_Ok [Hk Hnd]%NoDup_cons Hl.
    assert (Hn : notices d !! k = Some n) by (apply Hl; by left).
    apply IH in H as [[Hc Hs Hr Hd Hnot] Hkeep]; [|done|].
    + split.
      * constructor; [done..| |].
        -- rewrite Hd. cbn. rewrite dom_insert_L. apply elem_of_dom_2 in Hn. set_solver.
        -- intros j m Hj. destruct (decide (j = k)) as [->|Hne].
           ++ rewrite Hkeep by done. cbn. rewrite lookup_insert_eq. exists n'. split; [done|]. by replace m with n by congruence.
           ++ apply Hnot. cbn. by rewrite lookup_insert_ne.
      * intros j Hj. rewrite Hkeep by set_solver. cbn. rewrite lookup_insert_ne; [done|set_solver].
    + intros j m Hj. cbn. rewrite lookup_insert_ne; [apply Hl; by right|]. intros ->. apply Hk. by apply (list_elem_of_fmap_2 fst) in Hj.
Qed.

Lemma expired_absent d d' k : expired d d' → notices d !! k = None ↔ notices d' !! k = None.
Proof. intros [_ _ _ Hd _]. by rewrite <- !not_elem_of_dom, Hd. Qed.

Lemma expired_evolves d d' : expired d d' → evolves (λ _, False) d d'.
Proof.
  intros He. constructor; [apply He| |intros k n Hn Hk%(expired_absent _ _ _ He); congruence].
  - intros k n (n' & Hn & [->|[Ha ->]])%(ex_notice _ _ He); [exists n|exists (tombstone n)]; split_and!; try done; try (by left).
Qed.

Lemma write_cases c fault d f r f' : _write c fault d f = (r, f') →
  (f' = f ∧ is_ok r = false) ∨ ∃ d', f' = Holds d' ∧ expired d d' ∧ (is_ok r = false → fault = AfterReplace).
Proof.
  unfold _write. destruct (expire_all _ _ _) as [d'|e] eqn:He; [|intros [= <- <-]; left; by split].
  apply expire_all_expired in He as [He _]; [|apply by_key_nodup|by intros k n ?%by_key_elem].
  destruct (_ <? _); [intros [= <- <-]; left; by split|].
  destruct fault; intros [= <- <-]; [right|left; by split|right]; exists d'; by split_and!.
Qed.

(** ** What an operation leaves *)

(** The file is as it was, a store just created, or one that evolved. *)
Inductive follows (A : string → Prop) (f : store_file) : store_file → Prop :=
  | FSame : follows A f f
  | FNew cutoff d : f = Missing → evolves A (empty_data cutoff) d → keyed d → follows A f (Holds d)
  | FStep d d' : f = Holds d → evolves A d d' → (keyed d → keyed d') → follows A f (Holds d').

Lemma follows_holds A d f : follows A (Holds d) f → ∃ d', f = Holds d' ∧ evolves A d d' ∧ (keyed d → keyed d').
Proof. inversion 1; subst; [by exists d|done|]. simplify_eq. eauto. Qed.
Lemma follows_trans A f g h : follows A f g → follows A g h → follows A f h.
Proof.
  intros [|c d -> He Hk|d d' -> He Hk] Hgh; [done|..]; apply follows_holds in Hgh as (d2 & -> & He2 & Hk2).
  - apply (FNew _ _ c); [done|by etrans|auto].
  - apply (FStep _ _ d); [done|by etrans|auto].
Qed.

Section Follows.
Context (A : string → Prop).

(** A write over [g], which the operation may itself have written before. *)
Lemma write_follows c fault d d1 f g r f' :
  _read f = Ok d → follows A f g → evolves A d d1 → keyed d1 → _write c fault d1 g = (r, f') → follows A f f'.
Proof.
  intros (-> & Hk & _)%read_Ok Hg He Hk1 [[-> _]|(d' & -> & Hexp & _)]%write_cases; [done|].
  pose proof (expired_evolves _ _ Hexp) as Hx.
  apply (FStep _ _ d d'); [done| |].
  - etrans; [done|]. by eapply evolves_mono; [|done].
  - intros _. apply (evolves_keyed _ _ _ Hx Hk1). intros k n Hn Hnone%(expired_absent _ _ _ Hexp). congruence.
Qed.

Lemma transact_follows {B} c fault f (step : Data → res (B * Data)) r f' :
  (∀ d b d', keyed d → step d = Ok (b, d') → evolves A d d' ∧ keyed d') → transact c fault f step = (r, f') → follows A f f'.
Proof.
  intros Hstep. unfold transact. destruct (_read f) as [d|] eqn:Hr; cbn [mbind res_bind]; [|intros [= _ <-]; constructor].
  destruct (step d) as [[b d1]|] eqn:Hs; [|intros [= _ <-]; constructor].
  apply Hstep in Hs as [He Hk]; [|by apply read_Ok in Hr as (_ & ? & _)].
  unfold written. destruct (_write c fault d1 f) as [w f1] eqn:Hw. intros [= _ <-]. eapply write_follows; [done|constructor|done..].
Qed.
End Follows.

Lemma initialize_follows A c fault cutoff f r f' : initialize c fault cutoff f = (r, f') → follows A f f'.
Proof.
  unfold initialize. destruct f; [|intros [= _ <-]; constructor..]. set (ct := if bool_decide _ then _ else _).
  destruct (timestamp _); [|intros [= _ <-]; constructor].
  unfold written, _write. replace (by_key (notices (empty_data ct))) with (@nil (string * Notice)) by done. cbn [expire_all].
  destruct (_ <? _); [intros [= _ <-]; constructor|].
  destruct fault; intros [= _ <-]; [|constructor|]; apply (FNew _ _ ct); done.
Qed.

(** ** Producers *)

Lemma enqueue_into_spec c identity summary occurred metadata d n d' :
  _enqueue_into c identity summary occurred metadata d = Ok (n, d') →
  let key := notice_key identity in
  (d' = d ∧ n = notices d !! key ∧ (n = None → ∃ t limit, timestamp (or_now c occurred) = Ok t ∧ timestamp (JStr (cutoff d)) = Ok limit ∧ SFltb t limit = true)) ∨
  (notices d !! key = None ∧ ∃ b, d' = set_notice key (new_notice key b) d ∧ n = Some (new_notice key b)).
Proof.
  unfold _enqueue_into. intros (t & Ht & (u & _ & H)%bind_Ok)%bind_Ok. destruct (notices d !! notice_key identity) as [n0|] eqn:Hn.
  - injection H as <- <-. left. by split_and!.
  - apply bind_Ok in H as (limit & Hl & H). destruct (SFltb t limit) eqn:Hlt; injection H as <- <-; [left|right]; [|eauto].
    split_and!; [done..|]. intros _. eauto.
Qed.

Lemma enqueue_into_evolves A c identity summary occurred metadata d n d' :
  _enqueue_into c identity summary occurred metadata d = Ok (n, d') → evolves A d d' ∧ (keyed d → keyed d').
Proof.
  intros [(-> & _)|(Hn & b & -> & _)]%enqueue_into_spec; [done|]. split.
  - constructor; [done| |]; cbn; intros j m Hj.
    + exists m. rewrite lookup_insert_ne by congruence. split_and!; [done..|by left].
    + intros Hj0. destruct (decide (j = notice_key identity)) as [->|]; [|rewrite lookup_insert_ne in Hj by done; congruence].
      rewrite lookup_insert_eq in Hj. injection Hj as <-. unfold acked. cbn. by split_and!.
  - intros Hk j m. cbn. destruct (decide (j = notice_key identity)) as [->|]; [rewrite lookup_insert_eq; by intros [= <-]|].
    rewrite lookup_insert_ne by done. apply Hk.
Qed.

Lemma enqueue_follows A c fault identity summary occurred metadata f r f' :
  _enqueue c fault identity summary occurred metadata f = (r, f') → follows A f f'.
Proof.
  unfold _enqueue. destruct (_read f) as [d|] eqn:Hr; cbn [mbind res_bind]; [|intros [= _ <-]; constructor].
  destruct (_enqueue_into _ _ _ _ _ d) as [[n d']|] eqn:He; cbn [mbind res_bind]; [|intros [= _ <-]; constructor].
  destruct (_ =? _)%nat; [intros [= _ <-]; constructor|]. unfold written. destruct (_write c fault d' f) as [w f1] eqn:Hw.
  intros [= _ <-]. apply (enqueue_into_evolves A) in He as [? Hk]. eapply write_follows; [done|constructor|done| |done].
  apply Hk. by apply read_Ok in Hr as (_ & ? & _).
Qed.

(** ** Transitions *)

Lemma first_uses_spec seen ids : NoDup (first_uses seen ids) ∧ ∀ x, x ∈ first_uses seen ids ↔ x ∈ ids ∧ x ∉ seen.
Proof.
  revert seen. induction ids as [|y ids IH]; intros seen; cbn; [split; [constructor|set_solver]|].
  destruct (bool_decide_reflect (y ∈ seen)) as [Hy|Hy].
  - destruct (IH seen) as [Hn Hi]. split; [done|]. set_solver.
  - destruct (IH (y :: seen)) as [Hn Hi]. split; [constructor; [set_solver|done]|]. intros x. destruct (decide (x = y)); set_solver.
Qed.

Section Updates.
Context (A named : string → Prop) (update : Notice → res Notice).
Context (Hup : ∀ n n', update n = Ok n' → named (id n) → keeps n n' ∧ (acked n' → acked n ∨ A (id n))).

Lemma update_all_evolves l d l' d' :
  update_all update l d = Ok (l', d') → NoDup (map id l) → (∀ n, n ∈ l → named (id n) ∧ notices d !! id n = Some n) →
  evolves A d d' ∧ dom (notices d') = dom (notices d) ∧
  Forall2 (λ n n', update n = Ok n' ∧ notices d' !! id n = Some n') l l' ∧ (∀ k, k ∉ map id l → notices d' !! k = notices d !! k).
Proof using Hup.
  revert d l'. induction l as [|n l IH]; intros d l'; cbn [update_all map].
  - intros [= <- <-] _ _. split_and!; [done..|constructor|done].
  - intros (n' & Hu & ([rest d1] & H & [= <- <-])%bind_Ok)%bind_Ok [Hid Hnd]%NoDup_cons Hl.
    destruct (Hl n) as [Ha Hn]; [by left|]. destruct (Hup _ _ Hu Ha) as [Hk Hac]. pose proof (ke_id _ _ Hk) as Hi. rewrite Hi in H.
    apply IH in H as (He & Hd & Hf & Hkeep); [|done|].
    + split_and!.
      * etrans; [|done]. apply (set_notice_evolves _ _ n); done.
      * rewrite Hd. cbn. rewrite dom_insert_L. apply elem_of_dom_2 in Hn. set_solver.
      * constructor; [|done]. split; [done|]. rewrite Hkeep by done. cbn. by rewrite lookup_insert_eq.
      * intros k Hkk. rewrite Hkeep by set_solver. cbn. rewrite lookup_insert_ne by set_solver. done.
    + intros m Hm. destruct (Hl m) as [Ham Hnm]; [by right|]. split; [done|]. cbn. rewrite lookup_insert_ne; [done|].
      intros E. apply Hid. rewrite E. by apply list_elem_of_fmap_2.
Qed.
End Updates.

Lemma records_spec ids d records : map_res (λ key, notice_of key d) ids = Ok records → keyed d →
  map id records = ids ∧ ∀ n, n ∈ records → id n ∈ ids ∧ notices d !! id n = Some n.
Proof.
  intros H%map_res_Ok Hk. induction H as [|k n ids records Hn H [IH1 IH2]]; [split; [done|by intros ? ?%elem_of_nil]|].
  unfold notice_of in Hn. destruct (notices d !! k) as [n0|] eqn:E; [|done]. injection Hn as ->. pose proof (Hk _ _ E) as Hi.
  split; [cbn; by rewrite Hi, IH1|]. intros m [->|Hm]%elem_of_cons; [rewrite Hi; by split; [left|]|].
  destruct (IH2 m Hm). by split; [right|].
Qed.

Lemma transition_step_spec A ids update d l d' :
  (∀ n n', update n = Ok n' → id n ∈ ids → keeps n n' ∧ (acked n' → acked n ∨ A (id n))) →
  transition_step (first_uses [] ids) update d = Ok (l, d') → keyed d →
  evolves A d d' ∧ keyed d' ∧
  ∃ records, map id records = first_uses [] ids ∧ (∀ n, n ∈ records → notices d !! id n = Some n) ∧
    Forall2 (λ n n', update n = Ok n' ∧ notices d' !! id n = Some n') records l ∧
    (∀ k, k ∉ ids → notices d' !! k = notices d !! k).
Proof.
  intros Hup (records & Hr & Hu)%bind_Ok Hk. destruct (first_uses_spec [] ids) as [Hnd Hin].
  apply records_spec in Hr as [Hids Hrec]; [|done].
  apply (update_all_evolves A (λ k, k ∈ ids)) in Hu as (He & Hd & Hf & Hkeep); [|done|by rewrite Hids|].
  - split; [done|]. split.
    + apply (evolves_keyed _ _ _ He Hk). intros k n Hn Hnone. apply elem_of_dom_2 in Hn. rewrite Hd in Hn. by apply not_elem_of_dom in Hnone.
    + exists records. split_and!; [done|by intros n []%Hrec|done|]. intros k Hkk. apply Hkeep. rewrite Hids. set_solver.
  - intros n Hn. destruct (Hrec n Hn). split; [|done]. set_solver.
Qed.

Lemma transition_follows A c fault ids update f r f' :
  (∀ n n', update n = Ok n' → id n ∈ ids → keeps n n' ∧ (acked n' → acked n ∨ A (id n))) →
  _transition c fault ids update f = (r, f') → follows A f f'.
Proof.
  intros Hup. unfold _transition. destruct (_ || _); [intros [= _ <-]; constructor|].
  apply transact_follows. intros d l d' Hk Hs. by apply (transition_step_spec A) in Hs as (? & ? & _).
Qed.

Lemma acknowledge_one_keeps clocks n n' : acknowledge_one clocks n = Ok n' → keeps n n' ∧ acked n'.
Proof.
  unfold acknowledge_one. destruct (decide (state n = Acknowledged)) as [E|E]; [by intros [= <-]|].
  intros (t & _ & [= <-])%bind_Ok. split; [|done]. constructor; [done|by intros ?%E|by intros []].
Qed.
Lemma require_attention_one_keeps reason n n' : require_attention_one reason n = Ok n' → keeps n n' ∧ ¬ acked n'.
Proof.
  unfold require_attention_one. intros (u & Hc%notice_check_Ok & [= <-])%bind_Ok. bool_inv. split; [|done]. by constructor.
Qed.
Lemma offer_one_keeps clocks start_of now o ttl n n' : offer_one clocks start_of now o ttl n = Ok n' → keeps n n' ∧ ¬ acked n'.
Proof.
  unfold offer_one. intros (u & Hc%notice_check_Ok & (v & _ & [= <-])%bind_Ok)%bind_Ok. bool_inv. split; [|done]. by constructor.
Qed.

(** ** Offers of a session *)

Lemma list_filter_sublist {B} (p : B → bool) l : List.filter p l `sublist_of` l.
Proof. induction l as [|x l IH]; [constructor|]. cbn. destruct (p x); by constructor. Qed.

Lemma by_key_ids d : keyed d → map id (by_key (notices d)).*2 = (by_key (notices d)).*1.
Proof.
  intros Hk. assert (H : ∀ l, (∀ k n, (k, n) ∈ l → id n = k) → map id l.*2 = l.*1).
  { intros l. induction l as [|[k n] l IH]; intros Hl; [done|]. cbn. rewrite (Hl k n) by (by left). f_equal. apply IH. intros. apply Hl. by right. }
  apply H. intros k n ?%by_key_elem. by apply Hk.
Qed.
Lemma pending_elem d n : keyed d → n ∈ pending d ↔ notices d !! id n = Some n ∧ ¬ acked n.
Proof.
  intros Hk. unfold pending. rewrite elem_of_sort_by, elem_of_filter_list. unfold is_pending, acked. split.
  - intros [Hin Hp]. bool_inv. apply list_elem_of_fmap in Hin as ([k n0] & -> & Hin). apply by_key_elem in Hin. cbn in *.
    by rewrite (Hk _ _ Hin).
  - intros [Hn Ha]. split; [|by rewrite bool_decide_eq_false_2]. apply by_key_elem in Hn. by apply (list_elem_of_fmap_2 snd) in Hn.
Qed.
Lemma pending_nodup d : keyed d → NoDup (map id (pending d)).
Proof.
  intros Hk. unfold pending. rewrite (fmap_Permutation id _ _ (sort_by_perm _ _)).
  eapply sublist_NoDup; [|apply (fmap_sublist id), list_filter_sublist]. change (NoDup (map id (by_key (notices d)).*2)).
  rewrite by_key_ids by done. apply by_key_nodup.
Qed.

Section OfferFacts.
Context (clocks : string → Clock) (identity_alive : Owner → res bool) (now : float) (async_wake : bool) (session : string) (o : Owner) (ttl : float).
Notation offered := (offered clocks now session o ttl).

Definition is_due (n : Notice) : bool := match due identity_alive now async_wake n with Ok b => b | Err _ => false end.

Lemma due_open n : is_due n = true → ¬ acked n ∧ (async_wake = true → offers n < MAX_ASYNC_OFFERS) ∧
  (∀ l, lease n = Some l → SFltb now (expires_at l) = true → identity_alive (holder l) = Ok false).
Proof.
  unfold is_due, due, acked. destruct (bool_decide_reflect (state n = Acknowledged)) as [|Ha]; [by cbn|]. cbn [orb].
  destruct async_wake; cbn [andb]; [destruct (Z.leb_spec MAX_ASYNC_OFFERS (offers n)); [by cbn|]|]; intros Hdue;
    (split_and!; [done|intros; first [done|lia]|]); intros l Hl Hlt; rewrite Hl, Hlt in Hdue; cbn in Hdue; by destruct (identity_alive (holder l)) as [[]|].
Qed.

Lemma take_due_spec limit l l' :
  take_due clocks identity_alive now async_wake session o ttl limit l = Ok l' → l' = map offered (take limit (List.filter is_due l)).
Proof.
  revert limit l'. induction l as [|n l IH]; intros [|limit] l'; cbn [take_due]; try by intros [= <-].
  intros (b & Hb & H)%bind_Ok. cbn [List.filter]. unfold is_due at 1. rewrite Hb. destruct b.
  - apply bind_Ok in H as (rest & Hr & [= <-]). cbn. f_equal. by apply IH.
  - by apply IH in H.
Qed.

Lemma offered_keeps n : ¬ acked n → keeps n (offered n) ∧ ¬ acked (offered n).
Proof.
  intros Ha. assert (Hn : ¬ acked (offered n)) by (unfold acked; cbn; by destruct (decide _)).
  split; [|done]. constructor; [done|by intros|]. intros _. split; [done|]. unfold offers. cbn. unfold offers. cbn. lia.
Qed.
End OfferFacts.

Lemma put_all_spec l d : NoDup (map id l) →
  (∀ n', n' ∈ l → ∃ n, notices d !! id n' = Some n ∧ keeps n n' ∧ ¬ acked n') →
  evolves (λ _, False) d (put_all l d) ∧ dom (notices (put_all l d)) = dom (notices d) ∧
  (∀ n', n' ∈ l → notices (put_all l d) !! id n' = Some n') ∧ (∀ k, k ∉ map id l → notices (put_all l d) !! k = notices d !! k).
Proof.
  revert d. induction l as [|n' l IH]; intros d; cbn [map put_all foldl].
  - intros _ _. split_and!; [done..| |done]. by intros n' ?%elem_of_nil.
  - intros [Hid Hnd]%NoDup_cons Hl. destruct (Hl n') as (n & Hn & Hk & Ha); [by left|].
    destruct (IH (set_notice (id n') n' d)) as (He & Hd & Hin & Hkeep); [done| |].
    + intros m' Hm. destruct (Hl m') as (m & Hm0 & ? & ?); [by right|]. exists m. split; [|done]. cbn. rewrite lookup_insert_ne; [done|].
      intros E. apply Hid. rewrite E. by apply list_elem_of_fmap_2.
    + fold (put_all l (set_notice (id n') n' d)). split_and!.
      * etrans; [|done]. by apply (set_notice_evolves _ _ n).
      * rewrite Hd. cbn. rewrite dom_insert_L. apply elem_of_dom_2 in Hn. set_solver.
      * intros m [->|Hm]%elem_of_cons; [rewrite Hkeep by done; cbn; by rewrite lookup_insert_eq|by apply Hin].
      * intros k Hkk. rewrite Hkeep by set_solver. cbn. rewrite lookup_insert_ne; [done|set_solver].
Qed.

(** The batch of a session: the first due notices of the queue. *)
Definition batch (identity_alive : Owner → res bool) (now : float) (async_wake : bool) (limit : Z) (d : Data) : list Notice :=
  take (Z.to_nat limit) (List.filter (is_due identity_alive now async_wake) (pending d)).

Lemma batch_elem alive now async limit d n : n ∈ batch alive now async limit d → n ∈ pending d ∧ is_due alive now async n = true.
Proof. unfold batch. intros Hn. apply elem_of_filter_list. rewrite <- (take_drop (Z.to_nat limit) (List.filter _ _)). apply elem_of_app. by left. Qed.
Lemma batch_nodup alive now async limit d : keyed d → NoDup (map id (batch alive now async limit d)).
Proof.
  intros Hk. eapply sublist_NoDup; [by apply pending_nodup|]. apply (fmap_sublist id). etrans; [apply sublist_take|apply list_filter_sublist].
Qed.

Lemma offered_batch clocks alive now async session o ttl limit d : keyed d →
  let l := map (offered clocks now session o ttl) (batch alive now async limit d) in
  evolves (λ _, False) d (put_all l d) ∧ keyed (put_all l d) ∧
  (∀ n, n ∈ batch alive now async limit d → notices (put_all l d) !! id n = Some (offered clocks now session o ttl n)) ∧
  (∀ k, k ∉ map id (batch alive now async limit d) → notices (put_all l d) !! k = notices d !! k).
Proof.
  intros Hk l. assert (Hids : map id l = map id (batch alive now async limit d)) by (unfold l; by rewrite map_map).
  destruct (put_all_spec l d) as (He & Hd & Hin & Hkeep); [by rewrite Hids; apply batch_nodup| |].
  - intros n' (n & -> & [Hp Hdue]%batch_elem)%list_elem_of_fmap. apply pending_elem in Hp as [Hn Ha]; [|done]. exists n. split; [done|].
    by apply offered_keeps.
  - split_and!; [done| | |by rewrite <- Hids].
    + apply (evolves_keyed _ _ _ He Hk). intros k n Hn Hnone. apply elem_of_dom_2 in Hn. rewrite Hd in Hn. by apply not_elem_of_dom in Hnone.
    + intros n Hn. by apply (Hin (offered clocks now session o ttl n)), list_elem_of_fmap_2.
Qed.

Lemma offer_pending_spec clocks c fault alive now async session o ttl limit view f r f' :
  offer_pending clocks c fault alive now async session o ttl limit view f = (r, f') →
  (f' = f ∧ ∀ l, r = Ok l → l = []) ∨
  ∃ d, _read f = Ok d ∧ (1 <= limit <= 8) ∧ ttl_ok ttl = true ∧
    let l := map (offered clocks now session o ttl) (batch alive now async limit d) in
    (r, f') = written (_write c fault (put_all l d) f) l.
Proof.
  unfold offer_pending. destruct (_ ≫= _) as [[]|e] eqn:Hpre; [|intros [= <- <-]; left; split; [done|congruence]..].
  apply bind_Ok in Hpre as (u & Hc%notice_check_Ok & _). bool_inv.
  destruct (_read f) as [d|] eqn:Hr; cbn [mbind res_bind]; [|intros [= <- <-]; left; split; [done|congruence]].
  destruct (take_due _ _ _ _ _ _ _ _ _) as [l|] eqn:Ht; cbn [mbind res_bind]; [|intros [= <- <-]; left; split; [done|congruence]].
  apply take_due_spec in Ht. destruct l as [|n l]; [intros [= <- <-]; left; split; [done|congruence]|].
  intros Hw. right. exists d. split_and!; try done; [lia..|]. cbv zeta. unfold batch. by rewrite <- Ht.
Qed.

Lemma offer_pending_follows A clocks c fault alive now async session o ttl limit view f r f' :
  offer_pending clocks c fault alive now async session o ttl limit view f = (r, f') → follows A f f'.
Proof.
  intros [[-> _]|(d & Hr & _ & _ & H)]%offer_pending_spec; [constructor|]. cbv zeta in H. unfold written in H. injection H as _ ->.
  destruct (_write _ _ _ _) as [w f1] eqn:Hw. destruct (read_Ok _ _ Hr) as (_ & Hk & _).
  destruct (offered_batch clocks alive now async session o ttl limit d Hk) as (He & Hk' & _).
  eapply write_follows; [done|constructor|by eapply evolves_mono; [|done]|done|done].
Qed.

(** ** Sessions and samples leave the notices they find *)

Lemma same_notices_evolves A d d' : notices d' = notices d → cutoff d' = cutoff d → evolves A d d' ∧ (keyed d → keyed d').
Proof.
  intros Hn Hc. split; [|by unfold keyed; rewrite Hn]. constructor; [done| |]; intros k n; rewrite Hn; [|congruence].
  intros Hk. exists n. split_and!; [done..|by left].
Qed.

Lemma same_then_evolves A d d1 d2 :
  notices d1 = notices d → cutoff d1 = cutoff d → evolves A d1 d2 ∧ (keyed d1 → keyed d2) → evolves A d d2 ∧ (keyed d → keyed d2).
Proof. intros Hn Hc [He Hk]. destruct (same_notices_evolves A d d1 Hn Hc) as [? ?]. split; [by etrans|auto]. Qed.

Lemma maybe_follows {B} A c fault f (step : Data → res (B * option Data)) r f' :
  (∀ d b d', step d = Ok (b, Some d') → evolves A d d' ∧ (keyed d → keyed d')) → maybe c fault f step = (r, f') → follows A f f'.
Proof.
  intros Hstep. unfold maybe. destruct (_read f) as [d|] eqn:Hr; cbn [mbind res_bind]; [|intros [= _ <-]; constructor].
  destruct (step d) as [[b [d1|]]|] eqn:Hs; [|intros [= _ <-]; constructor..].
  apply Hstep in Hs as [He Hk]. destruct (read_Ok _ _ Hr) as (_ & Hk0 & _).
  unfold written. destruct (_write c fault d1 f) as [w f1] eqn:Hw. intros [= _ <-]. eapply write_follows; [done|constructor|done|by apply Hk|done].
Qed.

Lemma sampler_fault_evolves A c epoch key reason s d d' :
  _sampler_fault c epoch key reason s d = Ok d' → evolves A d d' ∧ (keyed d → keyed d').
Proof.
  unfold _sampler_fault. destruct (_ <=? _); [|intros [= <-]; by apply same_notices_evolves].
  intros ([n d1] & He & [= <-])%bind_Ok. eapply same_then_evolves; [..|by eapply enqueue_into_evolves]; done.
Qed.

Lemma publish_one_evolves A c g sample resource d l d' :
  publish_one c g sample resource d = Ok (l, d') → evolves A d d' ∧ (keyed d → keyed d').
Proof.
  unfold publish_one. destruct (transition _ _ _) as [r [edge|]]; [|intros [= _ <-]; by apply same_notices_evolves].
  intros ([n d1] & He & [= _ <-])%bind_Ok. eapply same_then_evolves; [..|by eapply enqueue_into_evolves]; done.
Qed.
Lemma publish_step_evolves A c g sample d l d' : publish_step c g sample d = Ok (l, d') → evolves A d d' ∧ (keyed d → keyed d').
Proof.
  intros ([l1 d1] & H1 & ([l2 d2] & H2 & [= _ <-])%bind_Ok)%bind_Ok.
  apply (publish_one_evolves A) in H1 as [E1 K1]. apply (publish_one_evolves A) in H2 as [E2 K2].
  destruct (same_notices_evolves A d2 (sampled c d2)) as [E3 K3]; [done..|]. split; [by do 2 (etrans; [done|])|auto].
Qed.

Lemma open_step_notices c key sid o event d b d' : open_step c key sid o event d = Ok (b, Some d') → notices d' = notices d ∧ cutoff d' = cutoff d.
Proof.
  unfold open_step. destruct (is_closed _); [done|]. intros (recent & _ & H)%bind_Ok. destruct recent; [done|]. by injection H as _ <-.
Qed.
Lemma heartbeat_step_notices c me role tok sample key d b d' :
  heartbeat_step c me role tok sample key d = Ok (b, Some d') → notices d' = notices d ∧ cutoff d' = cutoff d.
Proof.
  unfold heartbeat_step. intros (s & _ & H)%bind_Ok. destruct (negb (owned _ _ _ _)); [done|]. destruct (_ && _); [done|]. by injection H as _ <-.
Qed.

Lemma start_sampler_follows A c fault spawn draw epoch key d0 d f g r f' :
  _read f = Ok d0 → follows A f g → evolves A d0 d → keyed d → start_sampler c fault spawn draw epoch key d g = (r, f') → follows A f f'.
Proof.
  intros Hr Hg He Hk. unfold start_sampler, written. destruct (session_of key d) as [s|]; [|by intros [= _ <-]].
  destruct (before_retry c s); [by intros [= _ <-]|]. destruct spawn as [child|e].
  - set (d1 := put_session _ _ _). destruct (_write c fault d1 g) as [w f1] eqn:Hw. intros [= _ <-].
    destruct (same_notices_evolves A d d1) as [E1 K1]; [done..|]. eapply write_follows; [done|done|by etrans|by apply K1|done].
  - destruct (_sampler_fault _ _ _ _ _ _) as [d1|] eqn:Hs; [|by intros [= _ <-]].
    apply (sampler_fault_evolves A) in Hs as [E1 K1]. destruct (_write c fault d1 g) as [w f1] eqn:Hw. intros [= _ <-].
    eapply write_follows; [done|done|by etrans|by apply K1|done].
Qed.

Lemma ensure_sampler_follows A c fault fault' alive spawn draw epoch key f r f' :
  ensure_sampler c fault fault' alive spawn draw epoch key f = (r, f') → follows A f f'.
Proof.
  unfold ensure_sampler. destruct (_ ≫= _) as [[[d s] busy]|] eqn:Hpre; [|intros [= _ <-]; constructor].
  apply bind_Ok in Hpre as (d0 & Hr & (s0 & _ & (b0 & _ & Heq)%bind_Ok)%bind_Ok). injection Heq as -> -> ->.
  destruct (read_Ok _ _ Hr) as (_ & Hk & _). destruct busy; [intros [= _ <-]; constructor|].
  destruct (sampler s) as [w|]; [|by apply (start_sampler_follows _ _ _ _ _ _ _ d d f f); [|constructor| |]].
  destruct (_sampler_fault _ _ _ _ _ _) as [d1|] eqn:Hs; [|intros [= _ <-]; constructor].
  apply (sampler_fault_evolves A) in Hs as [E1 K1]. destruct (_write c fault d1 f) as [[[]|e] g] eqn:Hw; intros H.
  - eapply (start_sampler_follows A _ _ _ _ _ _ d d1 f g); [done| |done|by apply K1|done].
    eapply write_follows; [done|constructor|done|by apply K1|done].
  - injection H as _ <-. eapply write_follows; [done|constructor|done|by apply K1|done].
Qed.

(** ** The store as a state machine *)

(** One operation of any process, with its clock readings and faults. *)
Inductive operation :=
  | Initialize (c : Clock) (fault : Fault) (cutoff : string)
  | EnqueueTask (c : Clock) (fault : Fault) (task_id : string) (generation kind summary occurred_at : json) (metadata : list (string * value))
  | EnqueueResource (c : Clock) (fault : Fault) (resource : string) (episode summary occurred_at : json) (metadata : list (string * value))
  | Acknowledge (clocks : string → Clock) (c : Clock) (fault : Fault) (ids : list string)
  | RequireAttention (c : Clock) (fault : Fault) (ids : list string) (reason : string)
  | Offer (clocks : string → Clock) (c : Clock) (fault : Fault) (start_of : Z → res (option string)) (now : float) (ids : list string) (o : Owner) (ttl : float)
  | OfferPending (clocks : string → Clock) (c : Clock) (fault : Fault) (alive : Owner → res bool) (now : float) (async : bool)
      (session : string) (o : Owner) (ttl : float) (limit : Z) (view : res Data)
  | PublishSample (c : Clock) (g : ResourceConfig) (sample : Sample) (fault : Fault)
  | OpenSession (c : Clock) (fault init_fault : Fault) (alive : res bool) (session_id : string) (o : Owner) (event : string)
  | CloseSession (c : Clock) (fault : Fault) (key : string)
  | ClaimWaiter (c : Clock) (fault : Fault) (me : Owner) (alive : Owner → res bool) (draw : string) (lifetime : float) (key : string)
  | Heartbeat (c : Clock) (fault : Fault) (me : Owner) (role : Role) (token : string) (sample : option (string * float)) (key : string) (view : res Data)
  | Release (c : Clock) (fault : Fault) (me : Owner) (epoch : string) (role : Role) (token reason key : string)
  | EnsureSampler (c : Clock) (fault fault' : Fault) (alive : Owner → res bool) (spawn : res Owner) (draw epoch key : string).

Definition perform (op : operation) (f : store_file) : store_file :=
  match op with
  | Initialize c fault cutoff => (initialize c fault cutoff f).2
  | EnqueueTask c fault t g k s at_ m => (enqueue_task c fault t g k s at_ m f).2
  | EnqueueResource c fault r e s at_ m => (enqueue_resource c fault r e s at_ m f).2
  | Acknowledge clocks c fault ids => (acknowledge clocks c fault ids f).2
  | RequireAttention c fault ids reason => (require_attention c fault ids reason f).2
  | Offer clocks c fault start_of now ids o ttl => (offer clocks c fault start_of now ids o ttl f).2
  | OfferPending clocks c fault alive now async session o ttl limit view =>
      (offer_pending clocks c fault alive now async session o ttl limit view f).2
  | PublishSample c g sample fault => (publish_sample c g sample fault f).2
  | OpenSession c fault init alive sid o event => (open c fault init alive sid o event f).2
  | CloseSession c fault key => (close c fault key f).2
  | ClaimWaiter c fault me alive draw lifetime key => (claim_waiter c fault me alive draw lifetime key f).2
  | Heartbeat c fault me role tok sample key view => (heartbeat c fault me role tok sample key view f).2
  | Release c fault me epoch role tok reason key => (release c fault me epoch role tok reason key f).2
  | EnsureSampler c fault fault' alive spawn draw epoch key => (ensure_sampler c fault fault' alive spawn draw epoch key f).2
  end.
Definition run (ops : list operation) (f : store_file) : store_file := foldl (λ f op, perform op f) f ops.

(** The ids an operation acknowledges. *)
Definition acknowledges (op : operation) (k : string) : Prop := match op with Acknowledge _ _ _ ids => k ∈ ids | _ => False end.

Lemma open_follows A c fault init alive sid o event f r f' : open c fault init alive sid o event f = (r, f') → follows A f f'.
Proof.
  unfold open. destruct alive as [[]|]; [|intros [= _ <-]; constructor..].
  destruct (initialize c init "" f) as [[x|e] g] eqn:Hi; apply (initialize_follows A) in Hi; [|by intros [= _ <-]].
  intros H. eapply follows_trans; [done|]. eapply maybe_follows; [|done]. intros d b d' [Hn Hc]%open_step_notices.
  by apply same_notices_evolves.
Qed.

Lemma release_follows A c fault me epoch role tok reason key f r f' :
  release c fault me epoch role tok reason key f = (r, f') → follows A f f'.
Proof.
  apply maybe_follows. intros d b d' (s & _ & H)%bind_Ok. destruct (worker_of role s) as [w|]; [|done].
  destruct (_ && _); [|done]. cbv zeta in H. destruct role; [by injection H as _ <-; apply same_notices_evolves|].
  destruct (_ && _); [|by injection H as _ <-; apply same_notices_evolves].
  apply bind_Ok in H as (d1 & Hs & [= _ <-]). by eapply sampler_fault_evolves.
Qed.

Lemma perform_follows op f : follows (acknowledges op) f (perform op f).
Proof.
  destruct op as [c fault ct|c fault t g k s at_ m|c fault r e s at_ m|clocks c fault ids|c fault ids reason|clocks c fault start_of now ids o ttl|
    clocks c fault alive now async session o ttl limit view|c g sample fault|c fault init alive sid o event|c fault key|
    c fault me alive draw lifetime key|c fault me role tok sample key view|c fault me epoch role tok reason key|
    c fault fault' alive spawn draw epoch key]; cbn [perform].
  - destruct (initialize _ _ _ _) eqn:H. by eapply initialize_follows.
  - destruct (enqueue_task _ _ _ _ _ _ _ _ _) as [x f'] eqn:H. unfold enqueue_task in H. destruct g; try (injection H as _ <-; constructor).
    destruct (_ <? _); [injection H as _ <-; constructor|]. by eapply enqueue_follows.
  - destruct (enqueue_resource _ _ _ _ _ _ _ _) eqn:H. by eapply enqueue_follows.
  - destruct (acknowledge _ _ _ _ _) eqn:H. eapply transition_follows; [|done]. intros n n' [? _]%acknowledge_one_keeps ?. split; [done|by right].
  - destruct (require_attention _ _ _ _ _) eqn:H. eapply transition_follows; [|done]. by intros n n' [? ?]%require_attention_one_keeps ?.
  - destruct (offer _ _ _ _ _ _ _ _ _) as [x f'] eqn:H. unfold offer in H. destruct (if bool_decide _ then _ else _); [|injection H as _ <-; constructor].
    destruct (negb _); [injection H as _ <-; constructor|]. destruct (negb _); [injection H as _ <-; constructor|].
    eapply transition_follows; [|done]. by intros n n' [? ?]%offer_one_keeps ?.
  - destruct (offer_pending _ _ _ _ _ _ _ _ _ _ _ _) eqn:H. by eapply offer_pending_follows.
  - destruct (publish_sample _ _ _ _ _) eqn:H. eapply transact_follows; [|done]. intros d b d' Hk Hs.
    eapply publish_step_evolves in Hs as [? ?]. split; [done|auto].
  - destruct (open _ _ _ _ _ _ _ _) eqn:H. by eapply open_follows.
  - destruct (close _ _ _ _) eqn:H. eapply maybe_follows; [|done]. intros d b d'. cbv beta. destruct (sessions_of d !! key); [|by intros [=]].
    intros [= _ <-]. by apply same_notices_evolves.
  - destruct (claim_waiter _ _ _ _ _ _ _ _) eqn:H. eapply maybe_follows; [|done]. intros d b d' (s1 & _ & (taken & _ & Hd)%bind_Ok)%bind_Ok.
    destruct taken; [done|]. injection Hd as _ <-. by apply same_notices_evolves.
  - destruct (heartbeat _ _ _ _ _ _ _ _ _) as [x f'] eqn:H. unfold heartbeat in H. destruct (_ ≫= _); [|injection H as _ <-; constructor].
    destruct (negb _); [injection H as _ <-; constructor|]. destruct (_ && _); [injection H as _ <-; constructor|].
    eapply maybe_follows; [|done]. intros d b d' [Hn Hc]%heartbeat_step_notices. by apply same_notices_evolves.
  - destruct (release _ _ _ _ _ _ _ _ _) eqn:H. by eapply release_follows.
  - destruct (ensure_sampler _ _ _ _ _ _ _ _ _) eqn:H. by eapply ensure_sampler_follows.
Qed.

(** ** Consumption *)

Lemma run_app ops ops' f : run (ops ++ ops') f = run ops' (run ops f).
Proof. apply foldl_app. Qed.

(** C10. A notice is an obligation until it is acknowledged by its own id.  Over
    any operations of any processes, with any faults, no notice is lost and none
    changes its id; an acknowledged one stays so, since the same time; and one
    that is open stays in the queue with what its producer wrote unless an
    operation acknowledges its id. *)
Theorem consumed_by_exact_ack ops d k n :
  keyed d → notices d !! k = Some n →
  ∃ d' n', run ops (Holds d) = Holds d' ∧ notices d' !! k = Some n' ∧ id n' = id n ∧
    (state n = Acknowledged → state n' = Acknowledged ∧ acknowledged_at n' = acknowledged_at n) ∧
    (state n ≠ Acknowledged → (∀ op, op ∈ ops → ¬ acknowledges op k) → body n' = body n ∧ n' ∈ pending d').
Proof.
  intros Hk Hn. cut (∃ d' n', run ops (Holds d) = Holds d' ∧ keyed d' ∧ notices d' !! k = Some n' ∧ keeps n n' ∧
    ((∀ op, op ∈ ops → ¬ acknowledges op k) → acked n' → acked n)).
  { intros (d' & n' & Hrun & Hk' & Hn' & [Hid Ha Ho] & Hack). exists d', n'. split_and!; [done..|].
    intros Hopen Hops. assert (Hna : ¬ acked n') by (intros Hx; by apply Hopen, Hack). split; [by apply Ho|]. apply pending_elem; [done|].
    by rewrite (Hk' _ _ Hn'). }
  revert d n Hk Hn. induction ops as [|op ops IH]; intros d n Hk Hn.
  - exists d, n. by split_and!.
  - cbn [run foldl]. destruct (follows_holds _ _ _ (perform_follows op (Holds d))) as (d1 & -> & He & Hk1).
    destruct (ev_notice _ _ _ He _ _ Hn) as (n1 & Hn1 & Hkeep & Hack).
    destruct (IH d1 n1) as (d2 & n2 & Hrun & Hk2 & Hn2 & Hkeep2 & Hack2); [by apply Hk1|done|].
    exists d2, n2. split_and!; [done..|by etrans|]. intros Hops Ha. destruct Hack as [?|Hop]; [|done|].
    + apply Hack2; [|done]. intros. apply Hops. by right.
    + exfalso. eapply Hops; [by left|done].
Qed.

(** An acknowledgment is a batch.  It succeeds only if every id it names is
    in the store, and then all of them are acknowledged and every other notice
    is as it was or an acknowledged one past its retention; if it fails, the file
    is as it was unless the directory could not be synced. *)
Theorem acknowledge_all_or_nothing clocks c fault ids f r f' :
  acknowledge clocks c fault ids f = (r, f') →
  match r with
  | Ok l => ∃ d d', f = Holds d ∧ f' = Holds d' ∧ map id l = first_uses [] ids ∧
      (∀ k, k ∈ ids → ∃ n n', notices d !! k = Some n ∧ notices d' !! k = Some n' ∧ state n' = Acknowledged ∧
         acknowledged_at n' = (if decide (state n = Acknowledged) then acknowledged_at n else Some (utc_now (clocks k)))) ∧
      (∀ k n, k ∉ ids → notices d !! k = Some n →
         ∃ n', notices d' !! k = Some n' ∧ (n' = n ∨ state n = Acknowledged ∧ n' = tombstone n))
  | Err _ => f' = f ∨ fault = AfterReplace
  end.
Proof.
  unfold acknowledge, _transition, transact. destruct (_ || _); [intros [= <- <-]; by left|].
  destruct (_read f) as [d|] eqn:Hr; cbn [mbind res_bind]; [|intros [= <- <-]; by left]. destruct (read_Ok _ _ Hr) as (-> & Hk & _).
  destruct (transition_step _ _ d) as [[l d1]|] eqn:Hs; [|intros [= <- <-]; by left].
  apply (transition_step_spec (λ k, k ∈ ids)) in Hs as (_ & Hk1 & records & Hids & Hrec & Hf2 & Hkeep); [| |done].
  2: { intros n n' [? _]%acknowledge_one_keeps ?. split; [done|by right]. }
  unfold written. destruct (_write c fault d1 _) as [w f1] eqn:Hw. cbn [fst snd]. apply write_cases in Hw as [[-> Hno]|(d' & -> & Hexp & Hfault)].
  - destruct w; [done|]. intros [= <- <-]. by left.
  - destruct w as [u|e]; intros [= <- <-]; [|by right; apply Hfault]. exists d, d'. split_and!; [done..| | |].
    + rewrite <- Hids. clear -Hf2. induction Hf2 as [|n n' records l [Hu _] _ IH]; [done|]. cbn. f_equal; [|done].
      apply acknowledge_one_keeps in Hu as [[Hi _ _] _]. done.
    + intros k Hki. assert (Hin : k ∈ map id records) by (rewrite Hids; apply first_uses_spec; set_solver).
      apply list_elem_of_fmap in Hin as (n & -> & Hin). apply list_elem_of_lookup in Hin as [i Hi].
      destruct (Forall2_lookup_l _ _ _ _ _ Hf2 Hi) as (n1 & _ & Hu & Hn1). destruct (ex_notice _ _ Hexp _ _ Hn1) as (n' & Hn' & Hcase).
      exists n, n'. split_and!; [apply Hrec; by eapply list_elem_of_lookup_2|done| |].
      * apply acknowledge_one_keeps in Hu as [_ Ha]. by destruct Hcase as [->|[_ ->]].
      * transitivity (acknowledged_at n1); [by destruct Hcase as [->|[_ ->]]|]. unfold acknowledge_one in Hu.
        destruct (decide _); [by injection Hu as <-|]. by apply bind_Ok in Hu as (t & _ & [= <-]).
    + intros k n Hki Hn. rewrite <- Hkeep in Hn by done. by apply (ex_notice _ _ Hexp).
Qed.

(** ** Offers *)

(** The file after a batch was offered. *)
Lemma offered_file clocks c fault alive now async session o ttl limit view f l f' :
  offer_pending clocks c fault alive now async session o ttl limit view f = (Ok l, f') → l ≠ [] →
  ∃ d d', _read f = Ok d ∧ f' = Holds d' ∧ keyed d ∧ keyed d' ∧ l = map (offered clocks now session o ttl) (batch alive now async limit d) ∧
    expired (put_all l d) d' ∧ (∀ n, n ∈ l → notices d' !! id n = Some n).
Proof.
  intros [[_ Hnil]|(d & Hr & _ & _ & H)]%offer_pending_spec Hl; [by specialize (Hnil l eq_refl)|]. cbv zeta in H.
  destruct (read_Ok _ _ Hr) as (-> & Hk & _).
  destruct (offered_batch clocks alive now async session o ttl limit d Hk) as (_ & Hk1 & Hin & _). unfold written in H.
  destruct (_write _ _ _ _) as [w f1] eqn:Hw. cbn [fst snd] in H. destruct w as [u|]; [|done]. injection H as -> ->.
  apply write_cases in Hw as [[_ Hw]|(d' & -> & Hexp & _)]; [done|]. exists d, d'. split_and!; try done.
  - apply (evolves_keyed _ _ _ (expired_evolves _ _ Hexp) Hk1). intros k n Hn Hnone%(expired_absent _ _ _ Hexp). congruence.
  - intros n (n0 & -> & Hn0)%list_elem_of_fmap. pose proof (batch_elem _ _ _ _ _ _ Hn0) as [_ [Ha _]%due_open].
    destruct (ex_notice _ _ Hexp _ _ (Hin _ Hn0)) as (n' & Hn' & [->|[Hx _]]); [done|].
    by apply (offered_keeps clocks now session o ttl) in Ha as [_ []].
Qed.

(** C17. Two sessions are never offered the same notice at once: while the leases of
    an offer run and their holder is the live process it named, the next offer
    to any session leaves its notices out. *)
Theorem offers_exclusive clocks c fault alive now async session o ttl limit view f l f'
    clocks2 c2 fault2 alive2 now2 async2 session2 o2 ttl2 limit2 view2 l2 f2 :
  offer_pending clocks c fault alive now async session o ttl limit view f = (Ok l, f') →
  offer_pending clocks2 c2 fault2 alive2 now2 async2 session2 o2 ttl2 limit2 view2 f' = (Ok l2, f2) →
  alive2 o = Ok true → (∀ n ls, n ∈ l → lease n = Some ls → SFltb now2 (expires_at ls) = true) →
  map id l ## map id l2.
Proof.
  intros H1 H2 Halive Hrun k Hk1 Hk2.
  assert (Hl : l ≠ []) by (intros ->; by apply elem_of_nil in Hk1). assert (Hl2 : l2 ≠ []) by (intros ->; by apply elem_of_nil in Hk2).
  destruct (offered_file _ _ _ _ _ _ _ _ _ _ _ _ _ _ H1 Hl) as (d & d1 & _ & -> & _ & Hkd & -> & _ & Hin).
  destruct (offered_file _ _ _ _ _ _ _ _ _ _ _ _ _ _ H2 Hl2) as (d1' & d2 & [[= <-] _]%read_Ok & _ & _ & _ & -> & _ & _).
  apply list_elem_of_fmap in Hk1 as (n & -> & Hn). apply list_elem_of_fmap in Hk2 as (n2' & Hid & Hn2').
  apply list_elem_of_fmap in Hn2' as (n2 & -> & [Hp Hdue]%batch_elem). apply pending_elem in Hp as [Hn2 _]; [|done]. cbn in Hid.
  pose proof (Hin _ Hn) as Hnd. rewrite Hid in Hnd. assert (n2 = n) as -> by congruence.
  apply list_elem_of_fmap in Hn as (n0 & -> & Hn0). apply due_open in Hdue as (_ & _ & Hfree). cbn in Hfree.
  specialize (Hfree _ eq_refl). cbn [holder expires_at] in Hfree. rewrite Hfree in Halive; [done|].
  refine (Hrun (offered clocks now session o ttl n0) _ _ eq_refl). by apply list_elem_of_fmap_2.
Qed.

(** A session is offered exactly the first notices of the queue, by time and
    id, that are due: not acknowledged, not under a lease in force, and for an
    asynchronous wake not offered four times before; each gets a lease in the
    name of the session and counts one offer more, and one that needs the
    operator's attention keeps that state. *)
Theorem offers_first_due clocks c fault alive now async session o ttl limit view f l f' :
  offer_pending clocks c fault alive now async session o ttl limit view f = (Ok l, f') → l ≠ [] →
  ∃ d d', f = Holds d ∧ f' = Holds d' ∧
    map id l = map id (take (Z.to_nat limit) (List.filter (is_due alive now async) (pending d))) ∧
    (∀ n', n' ∈ l → notices d' !! id n' = Some n' ∧ ∃ n, notices d !! id n' = Some n ∧
       state n ≠ Acknowledged ∧ (async = true → offers n < MAX_ASYNC_OFFERS) ∧
       (∀ ls, lease n = Some ls → SFltb now (expires_at ls) = true → alive (holder ls) = Ok false) ∧
       body n' = body n ∧ offers n' = offers n + 1 ∧ state n' = (if decide (state n = Attention) then Attention else Offered) ∧
       ∃ e, lease n' = Some {| holder := o; lease_session := Some session; expires_at := e |}) ∧
    (∀ k n, k ∉ map id l → notices d !! k = Some n → ∃ n', notices d' !! k = Some n' ∧ (n' = n ∨ state n = Acknowledged ∧ n' = tombstone n)).
Proof.
  intros H Hl. destruct (offered_file _ _ _ _ _ _ _ _ _ _ _ _ _ _ H Hl) as (d & d' & Hr & -> & Hk & _ & -> & Hexp & Hin).
  destruct (read_Ok _ _ Hr) as (-> & _ & _). exists d, d'. split_and!; [done..|by rewrite map_map| |].
  - intros n' Hn'. split; [by apply Hin|]. apply list_elem_of_fmap in Hn' as (n & -> & [Hp Hdue]%batch_elem).
    apply pending_elem in Hp as [Hn _]; [|done]. apply due_open in Hdue as (Ha & Hasync & Hfree). exists n. split_and!; try done. by eexists.
  - intros k n Hkk Hn. destruct (offered_batch clocks alive now async session o ttl limit d Hk) as (_ & _ & _ & Hkeep).
    rewrite <- Hkeep in Hn by (by rewrite map_map in Hkk). by apply (ex_notice _ _ Hexp).
Qed.

(** ** Wakes *)

(** Whether an operation wakes a session for the notice. *)
Definition wakes_for (k : string) (op : operation) (f : store_file) : bool :=
  match op with
  | OfferPending clocks c fault alive now true session o ttl limit view =>
      match (offer_pending clocks c fault alive now true session o ttl limit view f).1 with
      | Ok l => bool_decide (k ∈ map id l)
      | Err _ => false
      end
  | _ => false
  end.
Fixpoint wakes (k : string) (ops : list operation) (f : store_file) : Z :=
  match ops with
  | [] => 0
  | op :: ops => (if wakes_for k op f then 1 else 0) + wakes k ops (perform op f)
  end.

(** The wakes a notice has left. *)
Definition wakes_left (k : string) (f : store_file) : Z :=
  match f with
  | Holds d => match notices d !! k with
               | Some n => if decide (state n = Acknowledged) then 0 else Z.max 0 (MAX_ASYNC_OFFERS - offers n)
               | None => MAX_ASYNC_OFFERS
               end
  | _ => MAX_ASYNC_OFFERS
  end.

Lemma wakes_left_nonneg k f : 0 <= wakes_left k f.
Proof. unfold wakes_left, MAX_ASYNC_OFFERS. repeat case_match; lia. Qed.

Lemma new_wakes_left A cutoff0 d k : evolves A (empty_data cutoff0) d → wakes_left k (Holds d) <= MAX_ASYNC_OFFERS.
Proof.
  intros [_ _ Hnew]. cbn. destruct (notices d !! k) as [n|] eqn:Hn; [|done]. destruct (Hnew k n Hn) as [_ Ho]; [apply lookup_empty|].
  destruct (decide _) as [|Ha]; [done|]. specialize (Ho Ha). unfold MAX_ASYNC_OFFERS. lia.
Qed.

Lemma wakes_left_step k op f : wakes_left k (perform op f) <= wakes_left k f.
Proof.
  pose proof (perform_follows op f) as Hf. remember (perform op f) as f' eqn:Heq. clear Heq. destruct Hf as [|ct d -> He _|d d' -> He _]; [done| |].
  - by eapply new_wakes_left.
  - cbn. destruct (notices d !! k) as [n|] eqn:Hn.
    + destruct (ev_notice _ _ _ He _ _ Hn) as (n' & -> & [_ Ha Ho] & _). unfold acked in *.
      destruct (decide (state n' = Acknowledged)); [destruct (decide _); lia|]. destruct (Ho ltac:(done)) as [_ Hle].
      rewrite decide_False by (intros Hx; by destruct (Ha Hx)). lia.
    + destruct (notices d' !! k) as [n'|] eqn:Hn'; [|done]. destruct (ev_new _ _ _ He _ _ Hn' Hn) as [_ Ho].
      destruct (decide _) as [|Ha]; [done|]. specialize (Ho Ha). unfold MAX_ASYNC_OFFERS. lia.
Qed.

Lemma wakes_for_step k op f : wakes_for k op f = true → wakes_left k (perform op f) + 1 <= wakes_left k f.
Proof.
  destruct op as [| | | | | |clocks c fault alive now async session o ttl limit view| | | | | | |]; try done. cbn. destruct async; [|done].
  destruct (offer_pending _ _ _ _ _ _ _ _ _ _ _ _) as [[l|] f'] eqn:H; [|done]. cbn [fst snd]. intros Hk%bool_decide_eq_true.
  assert (Hl : l ≠ []) by (intros ->; by apply elem_of_nil in Hk).
  destruct (offered_file _ _ _ _ _ _ _ _ _ _ _ _ _ _ H Hl) as (d & d' & [-> _]%read_Ok & -> & Hkd & _ & -> & _ & Hin).
  apply list_elem_of_fmap in Hk as (n' & -> & Hn'). pose proof (Hin _ Hn') as Hnd'. apply list_elem_of_fmap in Hn' as (n & -> & [Hp Hdue]%batch_elem).
  apply pending_elem in Hp as [Hn _]; [|done]. apply due_open in Hdue as (Ha & Hmax & _). specialize (Hmax eq_refl).
  cbn. cbn in Hnd'. rewrite Hnd', Hn, (decide_False (P := state n = Acknowledged)) by done.
  apply (offered_keeps clocks now session o ttl) in Ha as [_ Ha]. rewrite (decide_False (P := state (offered clocks now session o ttl n) = Acknowledged)) by done.
  unfold offers in *. cbn. unfold offers. lia.
Qed.

(** C32. Over any operations from an empty inbox a notice wakes sessions at most
    four times, however often leases run out and processes die. *)
Theorem wakes_bounded k ops f : f = Missing ∨ (∃ c, f = Holds (empty_data c)) → wakes k ops f <= MAX_ASYNC_OFFERS.
Proof.
  intros Hf. transitivity (wakes_left k f).
  - clear Hf. revert f. induction ops as [|op ops IH]; intros f; cbn [wakes]; [apply wakes_left_nonneg|].
    specialize (IH (perform op f)). destruct (wakes_for k op f) eqn:Hw.
    + apply wakes_for_step in Hw. lia.
    + pose proof (wakes_left_step k op f). lia.
  - by destruct Hf as [->|[c ->]].
Qed.

(** ** A concrete inbox *)

Module Inbox1.
(** A day after the cutoff. *)
Definition at_ (s : Z) : Clock := {| micros := (1790600000 + s) * 1000000; time := float_lit (1790600000 + s) |}.
Definition clocks (s : Z) (_ : string) : Clock := at_ s.
Definition task (n : string) : operation :=
  EnqueueTask (at_ 0) NoFault n (JInt 1) (JStr "needs_human") (JStr "a question") JNull [].
Definition key (n : string) : string := notice_key (task_identity n 1 (JStr "needs_human")).
Definition inbox : store_file := run [Initialize (at_ 0) NoFault ""; task "TASK-1"; task "TASK-2"] Missing.
Definition data : Data := match inbox with Holds d => d | _ => empty_data "" end.
Definition alice : Owner := {| pid := 100; process_start := "boot:1" |}.
Definition bob : Owner := {| pid := 200; process_start := "boot:2" |}.
Definition alive (_ : Owner) : res bool := Ok true.
Definition take (s : Z) (o : Owner) (limit : Z) (f : store_file) : res (list Notice) * store_file :=
  offer_pending (clocks s) (at_ s) NoFault alive (time (at_ s)) true "session" o (float_lit 60) limit (_read f) f.
Definition taken (s : Z) (o : Owner) (limit : Z) : operation :=
  OfferPending (clocks s) (at_ s) NoFault alive (time (at_ s)) true "session" o (float_lit 60) limit (_read inbox).
End Inbox1.

Lemma inbox_data : Inbox1.inbox = Holds Inbox1.data ∧ keyed Inbox1.data ∧
  match notices Inbox1.data !! Inbox1.key "TASK-1" with Some n => bool_decide (state n = Pending) | None => false end = true.
Proof.
  assert (Hr : is_ok (_read Inbox1.inbox) = true) by (vm_compute; reflexivity).
  destruct (_read Inbox1.inbox) as [d|] eqn:H; [|discriminate Hr]. apply read_Ok in H as (Hd & Hk & _).
  unfold Inbox1.data. rewrite Hd. split; [reflexivity|]. split; [exact Hk|]. rewrite <- (f_equal (λ f, match f with Holds d => d | _ => d end) Hd).
  vm_compute. reflexivity.
Qed.

(** Both notices are offered; the retention and the four wakes end their lives. *)
Example inbox_1 : map id (match (Inbox1.take 0 Inbox1.alice 8 Inbox1.inbox).1 with Ok l => l | Err _ => [] end) =
  map id (pending Inbox1.data).
Proof. vm_compute. reflexivity. Qed.
(** An offer by id takes a notice out of the operator's attention, which the
    offers of sessions keep. *)
Example offer_downgrades_attention :
  let f := run [RequireAttention (Inbox1.at_ 0) NoFault [Inbox1.key "TASK-1"] "waits for the operator"] Inbox1.inbox in
  let after op := match run [op] f with Holds d => state <$> notices d !! Inbox1.key "TASK-1" | _ => None end in
  after (Offer (Inbox1.clocks 1) (Inbox1.at_ 1) NoFault (λ _, Ok (Some "boot:1")) (time (Inbox1.at_ 1)) [Inbox1.key "TASK-1"] Inbox1.alice (float_lit 60)) = Some Offered ∧
  after (Inbox1.taken 1 Inbox1.alice 8) = Some Attention.
Proof. split; vm_compute; reflexivity. Qed.

Lemma consumed_by_exact_ack_witness :
  ∃ d' n', run [Inbox1.taken 0 Inbox1.alice 8; Acknowledge (Inbox1.clocks 5) (Inbox1.at_ 5) NoFault [Inbox1.key "TASK-2"]; Inbox1.task "TASK-1"]
      (Holds Inbox1.data) = Holds d' ∧
    notices d' !! Inbox1.key "TASK-1" = Some n' ∧ n' ∈ pending d'.
Proof.
  destruct inbox_data as (_ & Hk & Hn). destruct (notices Inbox1.data !! Inbox1.key "TASK-1") as [n|] eqn:Hl; [|discriminate Hn].
  set (ops := [_; _; _]).
  destruct (consumed_by_exact_ack ops Inbox1.data (Inbox1.key "TASK-1") n Hk Hl) as (d' & n' & Hrun & Hn' & _ & _ & Ho).
  exists d', n'. split; [exact Hrun|]. split; [exact Hn'|]. apply bool_decide_eq_true in Hn. apply Ho; [congruence|].
  assert (Hack : Inbox1.key "TASK-1" ∉ [Inbox1.key "TASK-2"]) by by_decide.
  apply Forall_forall. apply Forall_cons; split; [intros []|]. apply Forall_cons; split; [exact Hack|].
  apply Forall_cons; split; [intros []|apply Forall_nil; exact I].
Defined.

Lemma acknowledge_all_or_nothing_witness :
  let r := acknowledge (Inbox1.clocks 5) (Inbox1.at_ 5) NoFault [Inbox1.key "TASK-1"; "notice-unknown"] Inbox1.inbox in
  is_ok r.1 = false ∧ r.2 = Inbox1.inbox.
Proof.
  destruct (acknowledge _ _ _ _ _) as [r f'] eqn:H. assert (Hr : is_ok r = false) by (change r with (r, f').1; rewrite <- H; vm_compute; reflexivity).
  apply acknowledge_all_or_nothing in H. destruct r as [l|e]; [discriminate Hr|]. split; [reflexivity|]. by destruct H.
Defined.

Lemma offers_exclusive_witness :
  match Inbox1.take 0 Inbox1.alice 1 Inbox1.inbox with
  | (Ok l, f1) => match Inbox1.take 30 Inbox1.bob 1 f1 with
                  | (Ok l2, _) => map id l ## map id l2 ∧ length l = 1%nat ∧ length l2 = 1%nat
                  | _ => False
                  end
  | _ => False
  end.
Proof.
  assert (Hlen : match Inbox1.take 0 Inbox1.alice 1 Inbox1.inbox with
    | (Ok l, f1) => forallb (λ n, match lease n with Some ls => SFltb (time (Inbox1.at_ 30)) (expires_at ls) | None => false end) l && (length l =? 1)%nat &&
        match (Inbox1.take 30 Inbox1.bob 1 f1).1 with Ok l2 => (length l2 =? 1)%nat | _ => false end
    | _ => false end = true) by (vm_compute; reflexivity).
  destruct (Inbox1.take 0 Inbox1.alice 1 Inbox1.inbox) as [[l|] f1] eqn:H1; [|discriminate Hlen].
  destruct (Inbox1.take 30 Inbox1.bob 1 f1) as [[l2|] f2] eqn:H2; cbn [fst] in Hlen; [|by rewrite andb_false_r in Hlen].
  apply andb_true_iff in Hlen as [[Hl Hn]%andb_true_iff Hn2]. apply Nat.eqb_eq in Hn, Hn2. split; [|by split].
  apply (offers_exclusive _ _ _ _ _ _ _ _ _ _ _ _ _ _ _ _ _ _ _ _ _ _ _ _ _ _ _ H1 H2 eq_refl).
  intros n ls Hin Hls. apply (proj1 (forallb_forall _ _) Hl) in Hin || (apply list_elem_of_In in Hin; apply (proj1 (forallb_forall _ _) Hl) in Hin).
  rewrite Hls in Hin. exact Hin.
Defined.

Lemma offers_first_due_witness :
  match Inbox1.take 0 Inbox1.alice 8 Inbox1.inbox with
  | (Ok l, f') => l ≠ [] ∧ ∃ d', f' = Holds d' ∧ ∀ n', n' ∈ l → notices d' !! id n' = Some n'
  | _ => False
  end.
Proof.
  assert (Hlen : match (Inbox1.take 0 Inbox1.alice 8 Inbox1.inbox).1 with Ok (_ :: _) => true | _ => false end = true) by (vm_compute; reflexivity).
  destruct (Inbox1.take 0 Inbox1.alice 8 Inbox1.inbox) as [[l|] f'] eqn:H; [|discriminate Hlen].
  assert (Hl : l ≠ []) by (intros ->; discriminate Hlen). split; [exact Hl|].
  destruct (offers_first_due _ _ _ _ _ _ _ _ _ _ _ _ _ _ H Hl) as (d & d' & _ & -> & _ & Hin & _). exists d'. split; [reflexivity|].
  intros n' Hn'. by apply Hin.
Defined.

Lemma wakes_bounded_witness :
  let day n := Inbox1.taken (n * 86400) Inbox1.alice 8 in
  let ops := [Initialize (Inbox1.at_ 0) NoFault ""; Inbox1.task "TASK-1"; day 1; day 2; day 3; day 4; day 5; day 6] in
  wakes (Inbox1.key "TASK-1") ops Missing <= MAX_ASYNC_OFFERS ∧ wakes (Inbox1.key "TASK-1") [] Missing = 0.
Proof. split; [apply wakes_bounded; by left|reflexivity]. Defined.
