(* ===== verification/NoticeOutboxProps.v ===== *)
(** * Properties of the outbox

    No event of a reconcile is lost between the registry and the notice store,
    and replaying one changes nothing. *)
From S2P Require Import Prelude Sha256 Json Binary64 PyText PyTime Registry Notices NoticesProps NoticeOutbox.
From Stdlib Require Import SpecFloat.

#[local] Open Scope Z_scope.

(** ** Accepted intents *)

(** The store holds the notice of an identity, or its event is before the cutoff. *)
Definition settled_notice (identity : list json) (occurred : json) (f : store_file) : Prop :=
  ∃ d, f = Holds d ∧
    (is_Some (notices d !! notice_key identity) ∨
     ∃ c t limit, timestamp (or_now c occurred) = Ok t ∧ timestamp (JStr (cutoff d)) = Ok limit ∧ SFltb t limit = true).

Lemma settled_follows A identity occurred f f' : settled_notice identity occurred f → follows A f f' → settled_notice identity occurred f'.
Proof.
  intros (d & -> & H) (d' & -> & He & _)%follows_holds. exists d'. split; [done|]. destruct H as [[n Hn]|H].
  - left. destruct (ev_notice _ _ _ He _ _ Hn) as (n' & ? & _). by eexists.
  - right. by rewrite (ev_cutoff _ _ _ He).
Qed.

Lemma enqueue_Ok c fault identity summary occurred metadata f n f' :
  _enqueue c fault identity summary occurred metadata f = (Ok n, f') → settled_notice identity occurred f'.
Proof.
  unfold _enqueue. destruct (_read f) as [d|] eqn:Hr; cbn [mbind res_bind]; [|done]. destruct (read_Ok _ _ Hr) as (-> & _ & _).
  destruct (_enqueue_into _ _ _ _ _ d) as [[n1 d1]|] eqn:He; cbn [mbind res_bind]; [|done]. apply enqueue_into_spec in He.
  destruct He as [(-> & -> & Hnone)|(Hn & b & -> & ->)].
  - rewrite Nat.eqb_refl. intros [= _ <-]. exists d. split; [done|]. destruct (notices d !! notice_key identity) as [m|]; [left; by eexists|right].
    destruct Hnone as (t & limit & ?); [done|]. by exists c, t, limit.
  - cbn [notices set_notice]. rewrite map_size_insert_None by done. replace (S _ =? _)%nat with false by (symmetry; apply Nat.eqb_neq; lia).
    unfold written. destruct (_write _ _ _ _) as [w f1] eqn:Hw. cbn [fst snd]. destruct w; [|done]. intros [= _ <-].
    apply write_cases in Hw as [[_ Hw]|(d' & -> & Hexp & _)]; [done|]. exists d'. split; [done|]. left.
    destruct (ex_notice _ _ Hexp (notice_key identity) (new_notice (notice_key identity) b)) as (n' & ? & _); [cbn; by rewrite lookup_insert_eq|by eexists].
Qed.

(** The parts of an intent. *)
Definition accepted (task : string) (v : json) (f : store_file) : Prop :=
  ∃ g kind occurred, subscript "generation" v = Ok (JInt g) ∧ subscript "kind" v = Ok kind ∧ subscript "occurred_at" v = Ok occurred ∧
    settled_notice (task_identity task g kind) occurred f.

Lemma accepted_follows A task v f f' : accepted task v f → follows A f f' → accepted task v f'.
Proof. intros (g & kind & occ & ? & ? & ? & ?) ?. exists g, kind, occ. split_and!; try done. by eapply settled_follows. Qed.

Section Flush.
Context (conditions : string → string → Clock * Fault) (A : string → Prop).

Lemma enqueue_intent_follows task key v f r f' : enqueue_intent conditions task key v f = (r, f') → follows A f f'.
Proof.
  unfold enqueue_intent. destruct (_ ≫= _) as [[[[g kind] summary] occ]|]; [|intros [= _ <-]; constructor].
  destruct (conditions task key) as [c fault]. unfold enqueue_task. destruct g; try (intros [= _ <-]; constructor).
  destruct (_ <? _); [intros [= _ <-]; constructor|]. by apply enqueue_follows.
Qed.

Lemma enqueue_intent_Ok task key v f n f' : enqueue_intent conditions task key v f = (Ok n, f') → accepted task v f'.
Proof.
  unfold enqueue_intent. destruct (_ ≫= _) as [[[[g kind] summary] occ]|] eqn:Hp; [|done].
  apply bind_Ok in Hp as (g0 & Hg & (k0 & Hk & (s0 & Hs & (o0 & Ho & Heq)%bind_Ok)%bind_Ok)%bind_Ok). injection Heq as -> -> -> ->.
  destruct (conditions task key) as [c fault]. unfold enqueue_task. destruct g; try done. destruct (_ <? _); [done|].
  intros He%enqueue_Ok. by exists z, kind, occ.
Qed.

Lemma flush_intents_spec task l f kept errors f' : flush_intents conditions task l f = (kept, errors, f') →
  follows A f f' ∧ kept `sublist_of` l ∧ ∀ kv, kv ∈ l → kv ∈ kept ∨ accepted task kv.2 f'.
Proof.
  revert f kept errors f'. induction l as [|[key v] l IH]; intros f kept errors f'; cbn [flush_intents].
  - intros [= <- <- <-]. split_and!; [constructor|constructor|]. by intros kv ?%elem_of_nil.
  - destruct (enqueue_intent conditions task key v f) as [r f1] eqn:He.
    destruct (flush_intents conditions task l f1) as [[kept1 errors1] f2] eqn:Hf.
    apply IH in Hf as (Hfol & Hsub & Hall). pose proof (enqueue_intent_follows _ _ _ _ _ _ He) as Hfol1.
    destruct r as [n|e]; intros [= <- <- <-]; (split_and!; [by eapply follows_trans|by constructor|]).
    + intros kv [->|Hkv]%elem_of_cons; [right|by apply Hall]. apply enqueue_intent_Ok in He. by eapply accepted_follows.
    + intros kv [->|Hkv]%elem_of_cons; [left; by left|]. destruct (Hall kv Hkv); [left; by right|by right].
Qed.

(** The intents of an entry. *)
Definition intents_of (e : entry) : list (string * json) := match dict_get NOTICE_PENDING e with Some (JObj p) => p | _ => [] end.


Lemma flush_entry_spec task e f e' errors f' : flush_entry conditions task e f = (e', errors, f') →
  follows A f f' ∧ ∀ kv, kv ∈ intents_of e → kv ∈ intents_of e' ∨ accepted task kv.2 f'.
Proof.
  unfold flush_entry, intents_of. destruct (dict_get NOTICE_PENDING e) as [v|] eqn:Hp.
  2: { intros [= <- <- <-]. rewrite Hp. split; [constructor|]. by left. }
  destruct v as [| | | | |p]; try (intros [= <- <- <-]; rewrite Hp; split; [constructor|by left]).
  destruct (flush_intents conditions task p f) as [[kept errors1] f1] eqn:Hf. intros [= <- <- <-].
  apply flush_intents_spec in Hf as (Hfol & _ & Hall). split; [done|]. intros kv [Hk|Hk]%Hall; [left|by right].
  destruct (bool_decide_reflect (kept = [])) as [->|_]; [by apply elem_of_nil in Hk|]. by rewrite dict_get_set, decide_True.
Qed.

Lemma flush_spec only r f r' errors f' : flush conditions only r f = (r', errors, f') →
  follows A f f' ∧ ∀ task e kv, (task, JObj e) ∈ r → kv ∈ intents_of e →
    (∃ e', (task, JObj e') ∈ r' ∧ kv ∈ intents_of e') ∨ accepted task kv.2 f'.
Proof.
  revert f r' errors f'. induction r as [|[task v] r IH]; intros f r' errors f'; cbn [flush].
  - intros [= <- <- <-]. split; [constructor|]. by intros task e kv ?%elem_of_nil.
  - destruct (match v with JObj _ => _ | _ => _ end) as [[v1 errors1] f1] eqn:Hv.
    destruct (flush conditions only r f1) as [[r1 errors2] f2] eqn:Hr. intros [= <- <- <-]. apply IH in Hr as [Hfol Hall].
    assert (Hhead : follows A f f1 ∧ ∀ e kv, v = JObj e → kv ∈ intents_of e → (∃ e', v1 = JObj e' ∧ kv ∈ intents_of e') ∨ accepted task kv.2 f1).
    { destruct v as [| | | | |e]; try (injection Hv as <- <- <-; by split; [constructor|]).
      destruct (negb _ && negb _); [injection Hv as <- <- <-; split; [constructor|]; intros e0 kv [= <-] Hk; left; by eexists|].
      destruct (flush_entry conditions task e f) as [[e1 errs] f3] eqn:He. injection Hv as <- <- <-. apply flush_entry_spec in He as [Hfe He].
      split; [done|]. intros e0 kv [= <-] [Hk|Hk]%He; [left; by eexists|by right]. }
    destruct Hhead as [Hf1 Hh]. split; [by eapply follows_trans|]. intros t e kv [[= -> Hve]|Hin]%elem_of_cons Hkv.
    + destruct (Hh e kv (eq_sym Hve) Hkv) as [(e' & -> & Hk)|Hac]; [left|right; by eapply accepted_follows].
      exists e'. split; [by left|done].
    + destruct (Hall _ _ _ Hin Hkv) as [(e' & ? & ?)|]; [left|by right]. exists e'. split; [by right|done].
Qed.
End Flush.

(** C14. No event is lost between the registry and the notice store.  Whatever
    fails, after a publication every intent of the staged registry, old or new,
    is still in its entry of the registry to be written, or the store holds its
    notice (pending or already acknowledged) or its event is before the cutoff. *)
Theorem no_intent_lost conditions now init deliveries coordination only r f r' changed messages f' :
  publish_durable_notices conditions now init deliveries coordination only r f = (Ok (r', changed, messages), f') →
  ∃ staged, stage now deliveries coordination r = Ok staged ∧
    ∀ task e kv, (task, JObj e) ∈ staged → kv ∈ intents_of e →
      (∃ e', (task, JObj e') ∈ r' ∧ kv ∈ intents_of e') ∨ accepted task kv.2 f'.
Proof.
  unfold publish_durable_notices. destruct (stage now deliveries coordination r) as [staged|] eqn:Hs; [|done]. intros H. exists staged. split; [done|].
  destruct (initialize init.1 init.2 "" f) as [[x|e] f1].
  - destruct (flush conditions only staged f1) as [[r1 errors] f2] eqn:Hf. injection H as <- <- <- <-.
    by apply (flush_spec conditions (λ _, False)) in Hf as [_ ?].
  - injection H as <- <- <- <-. intros task e0 kv Hin Hkv. left. by exists e0.
Qed.

(** Replaying an event is harmless: once the store holds the notice of a
    task's event, acknowledged or not, enqueueing the event again returns that
    notice, creates nothing and leaves the file as it was, whatever the new
    summary, time and clock. *)
Theorem replay_changes_nothing c fault task g kind summary occurred metadata d n r f' :
  notices d !! notice_key (task_identity task g kind) = Some n →
  enqueue_task c fault task (JInt g) kind summary occurred metadata (Holds d) = (r, f') →
  f' = Holds d ∧ ∀ m, r = Ok m → m = Some n.
Proof.
  intros Hn. unfold enqueue_task. destruct (_ <? _); [by intros [= <- <-]|]. unfold _enqueue.
  destruct (_read (Holds d)) as [d0|] eqn:Hr; cbn [mbind res_bind]; [|by intros [= <- <-]]. apply read_Ok in Hr as ([= <-] & _ & _).
  destruct (_enqueue_into _ _ _ _ _ d) as [[n1 d1]|] eqn:He; cbn [mbind res_bind]; [|by intros [= <- <-]].
  apply enqueue_into_spec in He as [(-> & -> & _)|(Hnone & _)]; [|congruence]. rewrite Nat.eqb_refl. intros [= <- <-].
  split; [done|]. by intros m [= <-].
Qed.

(** ** A concrete publication *)

Module Outbox1.
Definition now : Z := 1790600000000000.
Definition entry1 : entry := [("status", JStr "needs_human"); ("delivery_generation", JInt 2)].
Definition r : registry := [("TASK-1", JObj entry1)].
Definition delivery : Delivery :=
  {| status := "needs_human"; task_ref := "coding/TASK-1"; summary_text := "a question"; nudge := "answer it"; pending_key := "none" |}.
Definition quiet (_ _ : string) : Clock * Fault := (Inbox1.at_ 0, NoFault).
Definition broken (_ _ : string) : Clock * Fault := (Inbox1.at_ 0, BeforeReplace).
Definition publish (conditions : string → string → Clock * Fault) (f : store_file) : res (registry * bool * list string) * store_file :=
  publish_durable_notices conditions now (Inbox1.at_ 0, NoFault) [delivery] [] "" r f.
Definition kept (x : res (registry * bool * list string) * store_file) : option nat :=
  match x.1 with Ok (r, _, _) => match dget "TASK-1" r with JObj e => Some (length (intents_of e)) | _ => None end | Err _ => None end.
End Outbox1.

(** A failed enqueue keeps the intent, which the next publication delivers. *)
Example publish_1 : Outbox1.kept (Outbox1.publish Outbox1.broken Missing) = Some 1%nat ∧ Outbox1.kept (Outbox1.publish Outbox1.quiet Missing) = Some 0%nat.
Proof. split; vm_compute; reflexivity. Qed.

Lemma no_intent_lost_witness :
  match Outbox1.publish Outbox1.broken Missing with
  | (Ok (r', _, _), f') => ∃ e kv, kv ∈ intents_of e ∧
      ((∃ e', ("TASK-1", JObj e') ∈ r' ∧ kv ∈ intents_of e') ∨ accepted "TASK-1" kv.2 f')
  | _ => False
  end.
Proof.
  assert (Hok : is_ok (Outbox1.publish Outbox1.broken Missing).1 = true) by (vm_compute; reflexivity).
  destruct (Outbox1.publish Outbox1.broken Missing) as [[[[r' changed] messages]|] f'] eqn:H; [|discriminate Hok].
  destruct (no_intent_lost _ _ _ _ _ _ _ _ _ _ _ _ H) as (staged & Hs & Hall).
  assert (Hst : match stage Outbox1.now [Outbox1.delivery] [] Outbox1.r with Ok [(t, JObj e)] => bool_decide (t = "TASK-1") && (length (intents_of e) =? 1)%nat | _ => false end = true)
    by (vm_compute; reflexivity).
  rewrite Hs in Hst. destruct staged as [|[t [| | | | |e]] [|]]; try discriminate Hst. apply andb_true_iff in Hst as [->%bool_decide_eq_true Hlen].
  destruct (intents_of e) as [|kv l] eqn:He; [discriminate Hlen|]. exists e, kv. rewrite He. split; [by left|].
  apply (Hall "TASK-1" e); [by left|]. rewrite He. by left.
Defined.

Lemma replay_changes_nothing_witness :
  (enqueue_task (Inbox1.at_ 99) NoFault "TASK-1" (JInt 1) (JStr "needs_human") (JStr "again") JNull [] (Holds Inbox1.data)).2 = Holds Inbox1.data.
Proof.
  destruct inbox_data as (_ & _ & Hn). destruct (notices Inbox1.data !! Inbox1.key "TASK-1") as [n|] eqn:Hl; [|discriminate Hn].
  destruct (enqueue_task _ _ _ _ _ _ _ _ _) as [r f'] eqn:H.
  exact (proj1 (replay_changes_nothing _ _ _ _ _ _ _ _ _ _ _ _ Hl H)).
Defined.
