(* ===== verification/ResourceWatchProps.v ===== *)
(** * Properties of the resource watch

    Worse levels are announced at once, better ones only after enough samples
    in a row, every announcement under an identity of its own, and the state of
    a resource is stored together with its notice. *)
From S2P Require Import Prelude Sha256 Json Binary64 PyText PyTime Notices NoticesProps ResourceWatch.
From Stdlib Require Import SpecFloat.

#[local] Open Scope Z_scope.

(** The state after some observations, and the identities announced on the way. *)
Definition observe (n : Z) (seen : list Level) : Resource := foldl (λ r l, (transition (Some r) l n).1) first_state seen.
Fixpoint announced (n : Z) (resource : string) (r : Resource) (seen : list Level) : list (list json) :=
  match seen with
  | [] => []
  | l :: seen =>
      let '(r, edge) := transition (Some r) l n in
      match edge with Some e => edge_identity resource r e :: announced n resource r seen | None => announced n resource r seen end
  end.

(** ** Recovery *)

(** The candidate's run is the end of what was observed. *)
Definition run_seen (r : Resource) (seen : list Level) : Prop :=
  ∀ l, candidate r = Some (Some l) → ∃ k before, candidate_count r = Some (Z.of_nat k) ∧ seen = before ++ replicate k l.

Lemma observe_snoc n seen l : observe n (seen ++ [l]) = (transition (Some (observe n seen)) l n).1.
Proof. unfold observe. by rewrite foldl_app. Qed.

Lemma candidate_run_seen r seen l : run_seen r seen →
  ∃ k before, candidate_run l r = Z.of_nat k ∧ seen ++ [l] = before ++ replicate k l.
Proof.
  intros Hr. unfold candidate_run. destruct (bool_decide_reflect (candidate r = Some (Some l))) as [E|_].
  - destruct (Hr _ E) as (k & before & -> & ->). exists (S k), before. split; [cbn; lia|].
    by rewrite <- app_assoc, <- (replicate_cons_app k).
  - by exists 1%nat, seen.
Qed.

Lemma observed_run n seen : run_seen (observe n seen) seen.
Proof.
  induction seen as [|l seen IH] using rev_ind; [done|]. rewrite observe_snoc. unfold transition. cbn [default].
  destruct (bool_decide _); [done|]. destruct (is_down _ _); [|done]. destruct (_ <? n); [|done].
  destruct (candidate_run_seen _ _ l IH) as (k & before & Hk & Heq). intros l' [= <-]. exists k, before. split; [|done]. cbn. by rewrite Hk.
Qed.

(** Worse is announced at once, better is not.  After any observations, an
    unknown level, or one worse than a known announced level, is announced at
    once; a better one, and any known level after an unknown one, is announced
    only when the last [recovery_samples] observations, this one included, were
    all of that level. *)
Theorem recovery_needs_a_run n seen l : 1 <= n →
  let r := observe n seen in
  l ≠ level r →
  (is_down l (level r) = false → (transition (Some r) l n).2 = Some l) ∧
  (is_down l (level r) = true → (transition (Some r) l n).2 = Some l →
     ∃ before k, seen ++ [l] = before ++ replicate k l ∧ n <= Z.of_nat k).
Proof.
  intros Hn r Hl. unfold transition. change (default first_state (Some r)) with r. rewrite bool_decide_eq_false_2 by done. split; intros ->; [done|].
  destruct (candidate_run_seen r seen l (observed_run n seen)) as (k & before & Hk & Heq). rewrite Hk.
  destruct (Z.ltb_spec (Z.of_nat k) n); [done|]. intros _. by exists before, k.
Qed.

(** ** Identities *)

Definition colon_free (s : string) : bool := str_forallb (λ c, negb (bool_decide (c = ":"%char))) s.
Lemma split_colon s t u v : colon_free s = true → colon_free t = true → s +:+ String ":" u = t +:+ String ":" v → s = t ∧ u = v.
Proof.
  revert t. induction s as [|c s IH]; intros [|d t]; rewrite ?str_app_nil_l, ?str_app_cons; cbn.
  - by intros _ _ [= ->].
  - intros _ Ht [= <- _]. done.
  - intros Hs _ [= -> _]. done.
  - intros Hs Ht [= -> Heq]. bool_inv. destruct (IH t) as [-> ->]; done.
Qed.
Lemma int_colon_free z : colon_free (str_of_int z) = true.
Proof.
  apply int_chars; [|done]. intros c Hc. by destruct (bool_decide_reflect (c = ":"%char)) as [->|].
Qed.

(** The number of an announcement: its episode and its place there. *)
Definition number (r : Resource) : Z * Z := (episode r, default 0 (transition_seq r)).
Definition later (p q : Z * Z) : Prop := p.1 < q.1 ∨ p.1 = q.1 ∧ p.2 < q.2.
Lemma later_trans p q s : later p q → later q s → later p s.
Proof. unfold later. lia. Qed.

Lemma edge_identity_number resource r e r' e' : edge_identity resource r e = edge_identity resource r' e' → number r = number r'.
Proof.
  intros [= H]. apply split_colon in H as [He H]; [|apply int_colon_free..]. apply split_colon in H as [Hs _]; [|apply int_colon_free..].
  apply str_of_int_inj in He, Hs. unfold number. by rewrite He, Hs.
Qed.

Lemma transition_number r l n : let '(r', edge) := transition (Some r) l n in
  match edge with Some _ => later (number r) (number r') | None => number r' = number r end.
Proof.
  unfold transition. cbn [default]. destruct (bool_decide _); [done|]. destruct (is_down _ _); [destruct (_ <? n); [done|]|];
    unfold move_to, number, later; cbn; destruct (_ || _); cbn; lia.
Qed.

Lemma announced_later n resource r seen i : i ∈ announced n resource r seen →
  ∃ r' e, i = edge_identity resource r' e ∧ later (number r) (number r').
Proof.
  revert r. induction seen as [|l seen IH]; intros r; cbn [announced]; [by intros ?%elem_of_nil|].
  pose proof (transition_number r l n) as Hnum. destruct (transition (Some r) l n) as [r1 [e|]].
  - intros [->|Hi]%elem_of_cons; [by exists r1, e|]. destruct (IH _ Hi) as (r' & e' & -> & Hl). exists r', e'. split; [done|]. by eapply later_trans.
  - intros Hi. destruct (IH _ Hi) as (r' & e' & -> & Hl). exists r', e'. by rewrite <- Hnum.
Qed.

(** C36. Every announcement of a resource has an identity of its own: over any
    observations, from any state, no two are alike, so none is mistaken for the
    replay of another. *)
Theorem announcements_distinct n resource r seen : NoDup (announced n resource r seen).
Proof.
  revert r. induction seen as [|l seen IH]; intros r; cbn [announced]; [constructor|].
  destruct (transition (Some r) l n) as [r1 [e|]]; [|done]. constructor; [|done].
  intros (r' & e' & Heq & Hl)%announced_later. apply edge_identity_number in Heq. unfold later in Hl. rewrite Heq in Hl. lia.
Qed.

(** ** Samples *)

Lemma publish_one_spec c g sample resource d l d' : publish_one c g sample resource d = Ok (l, d') →
  let prior := default ∅ (resources d) !! resource in
  let seen := seen_level g sample resource prior in
  let '(r, edge) := transition prior seen (recovery_samples g) in
  default ∅ (resources d') = <[resource := with_observation c seen (seen_value sample resource) r]> (default ∅ (resources d)) ∧
  cutoff d' = cutoff d ∧
  ∀ e, edge = Some e → is_Some (notices d' !! notice_key (edge_identity resource r e)) ∨
    ∃ t limit, timestamp (JStr (utc_now c)) = Ok t ∧ timestamp (JStr (cutoff d)) = Ok limit ∧ SFltb t limit = true.
Proof.
  unfold publish_one. cbv zeta. destruct (transition _ _ _) as [r [e|]].
  - intros ([n d1] & He & [= _ <-])%bind_Ok. apply enqueue_into_spec in He. cbv zeta in He.
    destruct He as [(-> & -> & Hnone)|(_ & b & -> & ->)]; (split_and!; [done..|]); intros e0 [= <-].
    + cbn [notices set_resource cutoff] in *. destruct (notices d !! _) as [m|]; [left; by eexists|right]. by apply Hnone.
    + left. cbn. rewrite lookup_insert_eq. by eexists.
  - intros [= _ <-]. by split_and!.
Qed.

(** The resource's step from the data before, as the data after holds it. *)
Definition committed (c : Clock) (g : ResourceConfig) (sample : Sample) (d d' : Data) (resource : string) : Prop :=
  let prior := default ∅ (resources d) !! resource in
  let seen := seen_level g sample resource prior in
  let '(r, edge) := transition prior seen (recovery_samples g) in
  default ∅ (resources d') !! resource = Some (with_observation c seen (seen_value sample resource) r) ∧
  ∀ e, edge = Some e → is_Some (notices d' !! notice_key (edge_identity resource r e)) ∨
    ∃ t limit, timestamp (JStr (utc_now c)) = Ok t ∧ timestamp (JStr (cutoff d)) = Ok limit ∧ SFltb t limit = true.

Lemma committed_evolves c g sample d d1 d2 resource A :
  committed c g sample d d1 resource → evolves A d1 d2 → default ∅ (resources d2) !! resource = default ∅ (resources d1) !! resource →
  committed c g sample d d2 resource.
Proof.
  unfold committed. destruct (transition _ _ _) as [r edge]. intros [Hr Hn] He Heq. split; [by rewrite Heq|].
  intros e [[m Hm]|?]%Hn; [left|by right]. destruct (ev_notice _ _ _ He _ _ Hm) as (m' & ? & _). by eexists.
Qed.

Lemma publish_one_committed c g sample resource d l d' :
  publish_one c g sample resource d = Ok (l, d') → committed c g sample d d' resource ∧
    ∀ other, other ≠ resource → default ∅ (resources d') !! other = default ∅ (resources d) !! other.
Proof.
  intros H%publish_one_spec. cbv zeta in H. unfold committed. destruct (transition _ _ _) as [r edge]. destruct H as (Hr & _ & Hn).
  rewrite Hr. split; [split; [by rewrite lookup_insert_eq|done]|]. intros other Ho. by rewrite lookup_insert_ne.
Qed.

(** C33. A sample is committed whole.  Whatever fails, either the file is as it
    was, or both resources have made their step and the notice of each edge is
    in the same file (unless it is before the cutoff): no announcement is lost
    because its state was already recorded. *)
Theorem sample_committed_whole c g sample fault f r f' :
  publish_sample c g sample fault f = (r, f') →
  f' = f ∨ ∃ d d', f = Holds d ∧ f' = Holds d' ∧ committed c g sample d d' "disk" ∧ committed c g sample d d' "memory".
Proof.
  unfold publish_sample, transact. destruct (_read f) as [d|] eqn:Hr; cbn [mbind res_bind]; [|intros [= _ <-]; by left].
  destruct (read_Ok _ _ Hr) as (-> & _ & _). destruct (publish_step c g sample d) as [[l d3]|] eqn:Hs; [|intros [= _ <-]; by left].
  unfold written. destruct (_write c fault d3 _) as [w f1] eqn:Hw. intros [= _ <-].
  apply write_cases in Hw as [[-> _]|(d' & -> & Hexp & _)]; [by left|]. right. exists d, d'. split; [done|]. split; [done|].
  pose proof (expired_evolves _ _ Hexp) as Hev. revert Hs.
  intros ([l1 d1] & H1 & ([l2 d2] & H2 & [= _ <-])%bind_Ok)%bind_Ok.
  pose proof (publish_one_evolves (λ _, False) _ _ _ _ _ _ _ H1) as [He1 _].
  pose proof (publish_one_evolves (λ _, False) _ _ _ _ _ _ _ H2) as [He2 _].
  apply publish_one_committed in H1 as [Hd Ho1], H2 as [Hm Ho2].
  assert (Hres : resources d' = resources d2) by apply (ex_resources _ _ Hexp).
  assert (Hev' : evolves (λ _, False) d2 d') by (etrans; [by apply (same_notices_evolves _ d2 (sampled c d2))|done]).
  assert (Hcut : cutoff d1 = cutoff d) by apply (ev_cutoff _ _ _ He1).
  split.
  - eapply committed_evolves; [exact Hd|by etrans|]. rewrite Hres. by apply Ho2.
  - eapply committed_evolves; [|exact Hev'|by rewrite Hres]. unfold committed in *. cbv zeta in *. rewrite Ho1 in Hm by done.
    revert Hm. clear Hd. destruct (transition _ _ _) as [r0 edge]. intros [Hm Hn]. split; [done|].
    intros e [?|(t & limit & ? & Hlim & ?)]%Hn; [by left|right]. exists t, limit. by rewrite <- Hcut.
Qed.

(** ** Concrete samples *)

(** Critical pressure after an unknown sample waits for a second one. *)
Example critical_after_unknown :
  (transition (Some (observe 2 [Unknown])) Critical 2).2 = None ∧ (transition (Some (observe 2 [Unknown; Critical])) Critical 2).2 = Some Critical ∧
  (transition (Some (observe 2 [Warn])) Critical 2).2 = Some Critical.
Proof. vm_compute. by split_and!. Qed.

Lemma recovery_needs_a_run_witness :
  ∃ before k, [Critical; Warn; Warn] ++ [Normal] = before ++ replicate k Normal ∧ (1 <= Z.of_nat k) ∧
    (transition (Some (observe 2 [Warn])) Critical 2).2 = Some Critical.
Proof.
  destruct (recovery_needs_a_run 1 [Critical; Warn; Warn] Normal) as [_ H]; [lia|by vm_compute|].
  destruct (recovery_needs_a_run 2 [Warn] Critical) as [Hup _]; [lia|by vm_compute|].
  destruct H as (before & k & Heq & Hk); [reflexivity|reflexivity|]. exists before, k. split; [exact Heq|]. split; [exact Hk|]. apply Hup. reflexivity.
Defined.

Definition low_disk : Sample :=
  {| disk_free_bytes := Some (10 * GIB); memory_pressure := "normal"; disk_path := "/"; sample_errors := [] |}.
Lemma sample_committed_whole_witness :
  match publish_sample (Inbox1.at_ 0) default_config low_disk NoFault Inbox1.inbox with
  | (r, f') => is_ok r = true ∧ (f' = Inbox1.inbox ∨ ∃ d d', Inbox1.inbox = Holds d ∧ f' = Holds d' ∧ committed (Inbox1.at_ 0) default_config low_disk d d' "disk")
  end.
Proof.
  assert (Hok : match publish_sample (Inbox1.at_ 0) default_config low_disk NoFault Inbox1.inbox with (Ok [_], _) => true | _ => false end = true)
    by (vm_compute; reflexivity).
  destruct (publish_sample _ _ _ _ _) as [r f'] eqn:H. split; [by destruct r|].
  destruct (sample_committed_whole _ _ _ _ _ _ _ H) as [Hs|(d & d' & ? & ? & ? & _)]; [left; exact Hs|right; exists d, d'; by split_and!].
Defined.
