(* ===== verification/NoticeSessionsProps.v ===== *)
(** * Properties of notification sessions

    One live waiter per session, and a session that ended stays ended until it
    is started again, whatever hooks and workers still run. *)
From S2P Require Import Prelude Sha256 Json Binary64 PyText PyTime Notices NoticeSessions ResourceWatch NoticesProps.
From Stdlib Require Import SpecFloat.

#[local] Open Scope Z_scope.

(** ** The waiter *)

Lemma session_of_Ok key d s : session_of key d = Ok s ↔ sessions_of d !! key = Some s.
Proof. unfold session_of. destruct (sessions_of d !! key); split; congruence. Qed.
Lemma expired_sessions d d' : expired d d' → sessions_of d' = sessions_of d.
Proof. intros H. unfold sessions_of. by rewrite (ex_sessions _ _ H). Qed.
Lemma put_session_lookup key s d : sessions_of (put_session key s d) !! key = Some s.
Proof. cbn. by rewrite lookup_insert_eq. Qed.

(** A session has one waiter.  A claim is granted only in an open session whose
    waiter, if any, is not the live process of its lease; and while the process
    it was granted to lives, every further claim is refused and writes nothing. *)
Theorem one_waiter c fault me alive draw lifetime key f granted f1 c2 fault2 me2 alive2 draw2 lifetime2 r f2 :
  claim_waiter c fault me alive draw lifetime key f = (Ok (Some granted), f1) →
  claim_waiter c2 fault2 me2 alive2 draw2 lifetime2 key f1 = (r, f2) → alive2 me = Ok true →
  granted = draw ∧ f2 = f1 ∧ (∀ t, r ≠ Ok (Some t)) ∧
  ∃ d s, f = Holds d ∧ sessions_of d !! key = Some s ∧ is_closed s = false ∧ worker_alive alive (waiter s) = Ok false.
Proof.
  unfold claim_waiter, maybe. destruct (_read f) as [d|] eqn:Hr; cbn [mbind res_bind]; [|done]. destruct (read_Ok _ _ Hr) as (-> & _ & _).
  destruct (session_of key d) as [s|] eqn:Hs; cbn [mbind res_bind]; [|done]. apply session_of_Ok in Hs.
  destruct (is_closed s) eqn:Hc; cbn [mbind res_bind]; [done|]. destruct (worker_alive alive (waiter s)) as [[]|] eqn:Hw; cbn [mbind res_bind]; [done| |done].
  unfold written. set (d0 := put_session _ _ _). destruct (_write c fault d0 _) as [w f'] eqn:Hwr. cbn [fst snd]. destruct w; [|done].
  intros [= <- <-]. apply write_cases in Hwr as [[_ Hn]|(d1 & -> & Hexp & _)]; [done|].
  assert (Hs1 : sessions_of d1 !! key = sessions_of d0 !! key) by (by rewrite (expired_sessions _ _ Hexp)).
  unfold d0 in Hs1. rewrite put_session_lookup in Hs1. apply session_of_Ok in Hs1.
  intros H Halive. cut (f2 = Holds d1 ∧ ∀ t, r ≠ Ok (Some t)).
  { intros [? ?]. split_and!; try done. by exists d, s. }
  destruct (_read (Holds d1)) as [d1'|] eqn:Hr1; cbn [mbind res_bind] in H; [|by injection H as <- <-].
  apply read_Ok in Hr1 as ([= <-] & _ & _). rewrite Hs1 in H. cbn [mbind res_bind] in H.
  change (is_closed (with_workers _ _ _ _ s)) with (is_closed s) in H. rewrite Hc in H. cbn in H. rewrite Halive in H. cbn in H. by injection H as <- <-.
Qed.

(** ** Ended sessions *)

(** A closed session stays closed and gets no worker it did not have. *)
Definition less_worker (w w' : option Worker) : Prop := w' = None ∨ ∃ x y, w = Some x ∧ w' = Some y ∧ worker_owner y = worker_owner x ∧ token y = token x.
Record still_closed (s s' : Session) : Prop := {
  sc_closed : is_closed s' = true;
  sc_waiter : less_worker (waiter s) (waiter s');
  sc_sampler : less_worker (sampler s) (sampler s')
}.
Lemma less_worker_refl w : less_worker w w.
Proof. destruct w as [x|]; [right; by exists x, x|by left]. Qed.
Lemma less_worker_trans a b c : less_worker a b → less_worker b c → less_worker a c.
Proof. intros [->|(x & y & -> & -> & H1 & H2)] [->|(y' & z & H3 & -> & H4 & H5)]; try by left. simplify_eq. right. exists x, z. split_and!; congruence. Qed.

Section Ended.
Context (key : string).

Definition ends (d d' : Data) : Prop :=
  ∀ s, sessions_of d !! key = Some s → is_closed s = true → ∃ s', sessions_of d' !! key = Some s' ∧ still_closed s s'.
#[export] Instance ends_preorder : PreOrder ends.
Proof.
  split.
  - intros d s Hs Hc. exists s. split; [done|]. by constructor; try apply less_worker_refl.
  - intros a b c Hab Hbc s Hs Hc. destruct (Hab s Hs Hc) as (s1 & Hs1 & [Hc1 Hw1 Hp1]). destruct (Hbc s1 Hs1 Hc1) as (s2 & Hs2 & [Hc2 Hw2 Hp2]).
    exists s2. split; [done|]. constructor; [done|by eapply less_worker_trans|by eapply less_worker_trans].
Qed.

Lemma ends_same d d' : sessions_of d' = sessions_of d → ends d d'.
Proof. intros H s Hs Hc. exists s. rewrite H. split; [done|]. by constructor; try apply less_worker_refl. Qed.
Lemma ends_put k s s' d : sessions_of d !! k = Some s → (k = key → is_closed s = true → still_closed s s') → ends d (put_session k s' d).
Proof.
  intros Hs Hst s0 Hs0 Hc. cbn. destruct (decide (k = key)) as [->|Hne].
  - exists s'. rewrite lookup_insert_eq. replace s0 with s in * by congruence. split; [done|]. by apply Hst.
  - exists s0. rewrite lookup_insert_ne by done. split; [done|]. by constructor; try apply less_worker_refl.
Qed.

(** What an operation does to the file. *)
Definition ends_file (f f' : store_file) : Prop := ∀ d, f = Holds d → ∃ d', f' = Holds d' ∧ ends d d'.
Lemma ends_file_refl f : ends_file f f.
Proof. intros d ->. by exists d. Qed.
Lemma ends_file_trans f g h : ends_file f g → ends_file g h → ends_file f h.
Proof. intros H1 H2 d Hd. destruct (H1 d Hd) as (d1 & Hd1 & He). destruct (H2 d1 Hd1) as (d2 & ? & ?). exists d2. split; [done|by etrans]. Qed.

Lemma write_ends c fault d d1 f g r f' :
  _read f = Ok d → ends_file f g → ends d d1 → _write c fault d1 g = (r, f') → ends_file f f'.
Proof.
  intros (-> & _ & _)%read_Ok Hg He [[-> _]|(d' & -> & Hexp & _)]%write_cases; [done|]. intros d0 [= <-]. exists d'. split; [done|].
  etrans; [done|]. by apply ends_same, expired_sessions.
Qed.
Lemma transact_ends {B} c fault f (step : Data → res (B * Data)) r f' :
  (∀ d b d', step d = Ok (b, d') → ends d d') → transact c fault f step = (r, f') → ends_file f f'.
Proof.
  intros Hstep. unfold transact. destruct (_read f) as [d|] eqn:Hr; cbn [mbind res_bind]; [|intros [= _ <-]; apply ends_file_refl].
  destruct (step d) as [[b d1]|] eqn:Hs; [|intros [= _ <-]; apply ends_file_refl]. apply Hstep in Hs.
  unfold written. destruct (_write c fault d1 f) as [w f1] eqn:Hw. intros [= _ <-]. eapply write_ends; [done|apply ends_file_refl|done..].
Qed.
Lemma maybe_ends {B} c fault f (step : Data → res (B * option Data)) r f' :
  (∀ d b d', step d = Ok (b, Some d') → ends d d') → maybe c fault f step = (r, f') → ends_file f f'.
Proof.
  intros Hstep. unfold maybe. destruct (_read f) as [d|] eqn:Hr; cbn [mbind res_bind]; [|intros [= _ <-]; apply ends_file_refl].
  destruct (step d) as [[b [d1|]]|] eqn:Hs; [|intros [= _ <-]; apply ends_file_refl..]. apply Hstep in Hs.
  unfold written. destruct (_write c fault d1 f) as [w f1] eqn:Hw. intros [= _ <-]. eapply write_ends; [done|apply ends_file_refl|done..].
Qed.

Lemma enqueue_into_sessions c identity summary occurred metadata d n d' :
  _enqueue_into c identity summary occurred metadata d = Ok (n, d') → sessions_of d' = sessions_of d.
Proof. by intros [(-> & _)|(_ & b & -> & _)]%enqueue_into_spec. Qed.

Lemma sampler_fault_ends c epoch k reason s s0 d d' :
  sessions_of d !! k = Some s0 → (k = key → is_closed s0 = true → still_closed s0 s) →
  _sampler_fault c epoch k reason s d = Ok d' → ends d d'.
Proof.
  intros Hs Hst. unfold _sampler_fault. set (s1 := with_exits _ _ _).
  assert (He : ends d (put_session k s1 d)) by (eapply ends_put; [done|]; intros Hk Hc; destruct (Hst Hk Hc); by constructor).
  destruct (_ <=? _); [|by intros [= <-]]. intros ([n d1] & Hn & [= <-])%bind_Ok. apply enqueue_into_sessions in Hn.
  etrans; [done|by apply ends_same].
Qed.

Lemma update_all_sessions update l d l' d' : update_all update l d = Ok (l', d') → sessions_of d' = sessions_of d.
Proof.
  revert d l'. induction l as [|n l IH]; intros d l'; cbn [update_all]; [by intros [= <- <-]|].
  intros (n' & _ & ([rest d1] & H & [= <- <-])%bind_Ok)%bind_Ok. by apply IH in H.
Qed.
Lemma transition_ends c fault ids update f r f' : _transition c fault ids update f = (r, f') → ends_file f f'.
Proof.
  unfold _transition. destruct (_ || _); [intros [= _ <-]; apply ends_file_refl|]. apply transact_ends.
  intros d l d' (records & _ & H)%bind_Ok. by eapply ends_same, update_all_sessions.
Qed.
Lemma put_all_sessions l d : sessions_of (put_all l d) = sessions_of d.
Proof. revert d. induction l as [|n l IH]; intros d; [done|]. unfold put_all in *. cbn [foldl]. by rewrite IH. Qed.

Lemma enqueue_ends c fault identity summary occurred metadata f r f' :
  _enqueue c fault identity summary occurred metadata f = (r, f') → ends_file f f'.
Proof.
  unfold _enqueue. destruct (_read f) as [d|] eqn:Hr; cbn [mbind res_bind]; [|intros [= _ <-]; apply ends_file_refl].
  destruct (_enqueue_into _ _ _ _ _ d) as [[n d']|] eqn:He; cbn [mbind res_bind]; [|intros [= _ <-]; apply ends_file_refl].
  destruct (_ =? _)%nat; [intros [= _ <-]; apply ends_file_refl|]. unfold written. destruct (_write c fault d' f) as [w f1] eqn:Hw.
  intros [= _ <-]. eapply write_ends; [done|apply ends_file_refl| |done]. by eapply ends_same, enqueue_into_sessions.
Qed.

Lemma publish_one_sessions c g sample resource d l d' : publish_one c g sample resource d = Ok (l, d') → sessions_of d' = sessions_of d.
Proof.
  unfold publish_one. destruct (transition _ _ _) as [r [edge|]]; [|by intros [= _ <-]].
  intros ([n d1] & He & [= _ <-])%bind_Ok. by apply enqueue_into_sessions in He.
Qed.

Lemma initialize_ends c fault ct f r f' : initialize c fault ct f = (r, f') → ends_file f f'.
Proof. destruct f; cbn [initialize]; [by intros _ d|intros [= _ <-]; apply ends_file_refl..]. Qed.

Lemma retire_prior_keeps c event k o m s : m !! key = Some s → is_closed s = true → retire_prior c event k o m !! key = Some s.
Proof.
  intros Hs Hc. unfold retire_prior. destruct (bool_decide _); [|done]. rewrite map_lookup_imap, Hs. cbn. by rewrite Hc, andb_false_r.
Qed.

Lemma open_step_ends c k sid o event d b d' : (event = "SessionStart" → k ≠ key) →
  open_step c k sid o event d = Ok (b, Some d') → ends d d'.
Proof.
  intros Hev. unfold open_step. set (record := match sessions_of d !! k with Some s => _ | None => _ end).
  destruct (is_closed record) eqn:Hrc; [done|]. intros (recent & _ & H)%bind_Ok. destruct recent; [done|]. injection H as _ <-.
  intros s Hs Hc. cbn. destruct (decide (k = key)) as [->|Hne].
  - exfalso. unfold record in Hrc. rewrite Hs in Hrc. unfold reopen in Hrc.
    rewrite bool_decide_eq_false_2 in Hrc by (intros E; by apply (Hev E)). cbn in Hrc. congruence.
  - exists s. rewrite lookup_insert_ne by done. split; [|constructor; [done|apply less_worker_refl..]].
    apply retire_prior_keeps; [|done]. by rewrite lookup_insert_ne.
Qed.

Lemma claim_ends c fault me alive draw lifetime k f r f' : claim_waiter c fault me alive draw lifetime k f = (r, f') → ends_file f f'.
Proof.
  apply maybe_ends. intros d b d' (s & Hs%session_of_Ok & (taken & Ht & H)%bind_Ok)%bind_Ok. destruct (is_closed s) eqn:Hc.
  - injection Ht as <-. done.
  - destruct taken; [done|]. injection H as _ <-. eapply ends_put; [done|]. congruence.
Qed.

Lemma heartbeat_ends c fault me role tok sample k view f r f' : heartbeat c fault me role tok sample k view f = (r, f') → ends_file f f'.
Proof.
  unfold heartbeat. destruct (_ ≫= _); [|intros [= _ <-]; apply ends_file_refl].
  destruct (negb _); [intros [= _ <-]; apply ends_file_refl|]. destruct (_ && _); [intros [= _ <-]; apply ends_file_refl|].
  apply maybe_ends. unfold heartbeat_step. intros d b d' (s1 & Hs%session_of_Ok & H)%bind_Ok.
  destruct (owned me role tok s1) eqn:Ho; cbn [negb] in H; [|done]. destruct (_ && _); [done|]. injection H as _ <-.
  eapply ends_put; [done|]. intros _ Hc. unfold owned in Ho. by rewrite Hc in Ho.
Qed.

Lemma close_ends c fault k f r f' : utc_now c ≠ "" → close c fault k f = (r, f') → ends_file f f'.
Proof.
  intros Hnow. apply maybe_ends. intros d b d'. cbv beta. destruct (sessions_of d !! k) as [s|] eqn:Hs; [|by intros [=]].
  intros [= _ <-]. eapply ends_put; [done|]. intros _ Hc. constructor; [|apply less_worker_refl..].
  unfold is_closed. cbn. by rewrite bool_decide_eq_false_2.
Qed.

Lemma removed_worker role s ended : is_closed s = true → still_closed s
  (match role with Waiter => with_exits ended (last_sampler_exit s) (set_worker role None s)
                 | Sampler => with_exits (last_waiter_exit s) ended (set_worker role None s) end).
Proof. intros Hc. destruct role; constructor; cbn; try done; try apply less_worker_refl; by left. Qed.

Lemma release_ends c fault me epoch role tok reason k f r f' : release c fault me epoch role tok reason k f = (r, f') → ends_file f f'.
Proof.
  apply maybe_ends. intros d b d' (s & Hs%session_of_Ok & H)%bind_Ok. destruct (worker_of role s) as [w|]; [|done].
  destruct (_ && _); [|done]. cbv zeta in H. destruct role.
  - injection H as _ <-. eapply ends_put; [done|]. intros _ Hc. exact (removed_worker Waiter s _ Hc).
  - destruct (_ && _) in H.
    + apply bind_Ok in H as (d1 & Hf & [= _ <-]). eapply sampler_fault_ends; [done| |done]. intros _ Hc. exact (removed_worker Sampler s _ Hc).
    + injection H as _ <-. eapply ends_put; [done|]. intros _ Hc. exact (removed_worker Sampler s _ Hc).
Qed.

Lemma start_sampler_ends c fault spawn draw epoch k d0 d s f g r f' :
  _read f = Ok d0 → ends_file f g → ends d0 d → sessions_of d !! k = Some s → (k = key → is_closed s = false) →
  start_sampler c fault spawn draw epoch k d g = (r, f') → ends_file f f'.
Proof.
  intros Hr Hg He Hs Hc. unfold start_sampler, written. apply session_of_Ok in Hs as Hsk. rewrite Hsk.
  destruct (before_retry c s); [by intros [= _ <-]|]. assert (Hno : k = key → is_closed s = true → ∀ s', still_closed s s') by (intros Hk Ht; rewrite Hc in Ht; done).
  destruct spawn as [child|e].
  - destruct (_write c fault _ g) as [w f1] eqn:Hw. intros [= _ <-]. eapply write_ends; [done|done| |done].
    etrans; [done|]. eapply ends_put; [done|]. intros Hk Ht. by apply Hno.
  - destruct (_sampler_fault _ _ _ _ _ _) as [d1|] eqn:Hf; [|by intros [= _ <-]].
    destruct (_write c fault d1 g) as [w f1] eqn:Hw. intros [= _ <-]. eapply write_ends; [done|done| |done].
    etrans; [done|]. eapply sampler_fault_ends; [done| |done]. intros Hk Ht. by apply Hno.
Qed.

Lemma sampler_fault_session c epoch k reason s d d' : _sampler_fault c epoch k reason s d = Ok d' →
  ∃ s', sessions_of d' !! k = Some s' ∧ is_closed s' = is_closed s.
Proof.
  unfold _sampler_fault. set (s1 := with_exits _ _ _). destruct (_ <=? _).
  - intros ([n d1] & Hn & [= <-])%bind_Ok. apply enqueue_into_sessions in Hn. exists s1. by rewrite Hn, put_session_lookup.
  - intros [= <-]. exists s1. by rewrite put_session_lookup.
Qed.

Lemma ensure_sampler_ends c fault fault' alive spawn draw epoch k f r f' :
  ensure_sampler c fault fault' alive spawn draw epoch k f = (r, f') → ends_file f f'.
Proof.
  unfold ensure_sampler. destruct (_ ≫= _) as [[[d s] busy]|] eqn:Hpre; [|intros [= _ <-]; apply ends_file_refl].
  apply bind_Ok in Hpre as (d0 & Hr & (s0 & Hs%session_of_Ok & (b0 & Hb & Heq)%bind_Ok)%bind_Ok). injection Heq as -> -> ->.
  destruct busy; [intros [= _ <-]; apply ends_file_refl|].
  assert (Hc : is_closed s = false) by (by destruct (is_closed s); [injection Hb as [=]|]).
  destruct (sampler s) as [w|].
  2: { eapply start_sampler_ends; [done|apply ends_file_refl|done|done|done]. }
  destruct (_sampler_fault _ _ _ _ _ _) as [d1|] eqn:Hf; [|intros [= _ <-]; apply ends_file_refl].
  assert (He : ends d d1). { eapply sampler_fault_ends; [done| |done]. intros _ Ht. congruence. }
  destruct (sampler_fault_session _ _ _ _ _ _ _ Hf) as (s1 & Hs1 & Hc1).
  destruct (_write c fault d1 f) as [[[]|e] g] eqn:Hw; intros H.
  - eapply start_sampler_ends; [done| |done|done| |done]; [|intros _; by rewrite Hc1]. eapply write_ends; [done|apply ends_file_refl|done..].
  - injection H as _ <-. eapply write_ends; [done|apply ends_file_refl|done..].
Qed.

(** ** Any operations *)

(** A [SessionStart] hook of this session. *)
Definition starts (op : operation) : Prop :=
  match op with OpenSession _ _ _ _ sid o event => event = "SessionStart" ∧ session_key sid o = key | _ => False end.
(** The clock of an operation prints a text; that of [isoformat] is never empty. *)
Lemma perform_ends op f : ¬ starts op → ends_file f (perform op f).
Proof.
  intros Hst. destruct op as [c fault ct|c fault t g k s at_ m|c fault r e s at_ m|clocks c fault ids|c fault ids reason|clocks c fault start_of now ids o ttl|
    clocks c fault alive now async session o ttl limit view|c g sample fault|c fault init alive sid o event|c fault k|
    c fault me alive draw lifetime k|c fault me role tok sample k view|c fault me epoch role tok reason k|
    c fault fault' alive spawn draw epoch k]; cbn [perform].
  - destruct (initialize _ _ _ _) eqn:H. by eapply initialize_ends.
  - destruct (enqueue_task _ _ _ _ _ _ _ _ _) as [x f'] eqn:H. unfold enqueue_task in H. destruct g; try (injection H as _ <-; apply ends_file_refl).
    destruct (_ <? _); [injection H as _ <-; apply ends_file_refl|]. by eapply enqueue_ends.
  - destruct (enqueue_resource _ _ _ _ _ _ _ _) eqn:H. by eapply enqueue_ends.
  - destruct (acknowledge _ _ _ _ _) eqn:H. by eapply transition_ends.
  - destruct (require_attention _ _ _ _ _) eqn:H. by eapply transition_ends.
  - destruct (offer _ _ _ _ _ _ _ _ _) as [x f'] eqn:H. unfold offer in H. destruct (if bool_decide _ then _ else _); [|injection H as _ <-; apply ends_file_refl].
    destruct (negb _); [injection H as _ <-; apply ends_file_refl|]. destruct (negb _); [injection H as _ <-; apply ends_file_refl|].
    by eapply transition_ends.
  - destruct (offer_pending _ _ _ _ _ _ _ _ _ _ _ _) as [x f'] eqn:H. apply offer_pending_spec in H as [[-> _]|(d & Hr & _ & _ & H)]; [apply ends_file_refl|].
    cbv zeta in H. unfold written in H. injection H as _ ->. destruct (_write _ _ _ _) as [w f1] eqn:Hw.
    eapply write_ends; [done|apply ends_file_refl| |done]. apply ends_same, put_all_sessions.
  - destruct (publish_sample _ _ _ _ _) eqn:H. eapply transact_ends; [|done].
    intros d b d' ([l1 d1] & H1 & ([l2 d2] & H2 & [= _ <-])%bind_Ok)%bind_Ok. apply ends_same.
    apply publish_one_sessions in H1, H2. etrans; [|done]. exact H2.
  - destruct (open _ _ _ _ _ _ _ _) as [x f'] eqn:H. unfold open in H. destruct alive as [[]|]; [|injection H as _ <-; apply ends_file_refl..].
    destruct (initialize c init "" f) as [[y|e] g] eqn:Hi; apply initialize_ends in Hi; [|by injection H as _ <-].
    eapply ends_file_trans; [done|]. eapply maybe_ends; [|done]. intros d b d'. apply open_step_ends.
    intros Hev Hk. by apply Hst.
  - destruct (close _ _ _ _) eqn:H. eapply close_ends; [|done]. unfold utc_now, isoformat_utc. intros E.
    apply (f_equal String.length) in E. rewrite !str_length_app in E. destruct (isoformat_secs_chars (micros c / 1000000)) as [_ Hl]. rewrite Hl in E. done.
  - destruct (claim_waiter _ _ _ _ _ _ _ _) eqn:H. by eapply claim_ends.
  - destruct (heartbeat _ _ _ _ _ _ _ _ _) eqn:H. by eapply heartbeat_ends.
  - destruct (release _ _ _ _ _ _ _ _ _) eqn:H. by eapply release_ends.
  - destruct (ensure_sampler _ _ _ _ _ _ _ _ _) eqn:H. by eapply ensure_sampler_ends.
Qed.
End Ended.

(** C26. A session that ended stays ended.  Over any operations without a
    [SessionStart] of this session, whatever late hooks, heartbeats and restarts
    they hold, a closed session stays closed and its workers are those it had,
    with their owners and tokens, or gone: no worker is started or replaced. *)
Theorem ended_sessions_stay key ops d s :
  sessions_of d !! key = Some s → is_closed s = true → (∀ op, op ∈ ops → ¬ starts key op) →
  ∃ d' s', run ops (Holds d) = Holds d' ∧ sessions_of d' !! key = Some s' ∧ still_closed s s'.
Proof.
  intros Hs Hc Hops. assert (H : ends_file key (Holds d) (run ops (Holds d))).
  { clear Hs. revert Hops. generalize (Holds d). induction ops as [|op ops IH]; intros f Hops; [apply ends_file_refl|].
    eapply ends_file_trans; [apply (perform_ends key op); apply Hops; by left|]. apply IH. intros. apply Hops. by right. }
  destruct (H d eq_refl) as (d' & Hd' & He). destruct (He s Hs Hc) as (s' & Hs' & Hst). by exists d', s'.
Qed.

(** ** A concrete session *)

Module Session1.
Definition key : string := session_key "s-1" Inbox1.alice.
Definition start (s : Z) : operation := OpenSession (Inbox1.at_ s) NoFault NoFault (Ok true) "s-1" Inbox1.alice "SessionStart".
Definition stop (s : Z) : operation := OpenSession (Inbox1.at_ s) NoFault NoFault (Ok true) "s-1" Inbox1.alice "Stop".
Definition opened : store_file := run [start 0] Inbox1.inbox.
Definition claim (s : Z) (me : Owner) (draw : string) (f : store_file) : res (option string) * store_file :=
  claim_waiter (Inbox1.at_ s) NoFault me Inbox1.alive draw (float_lit 1500) key f.
Definition waiting (s : Z) (me : Owner) : operation := ClaimWaiter (Inbox1.at_ s) NoFault me Inbox1.alive "token" (float_lit 1500) key.
Definition closed : store_file := run [start 0; waiting 1 Inbox1.bob; CloseSession (Inbox1.at_ 2) NoFault key] Inbox1.inbox.
Definition session (f : store_file) : option Session := match f with Holds d => sessions_of d !! key | _ => None end.
End Session1.

Lemma one_waiter_witness :
  (Session1.claim 1 Inbox1.bob "t1" Session1.opened).1 = Ok (Some "t1") ∧
  ∀ t, (Session1.claim 2 Inbox1.alice "t2" (Session1.claim 1 Inbox1.bob "t1" Session1.opened).2).1 ≠ Ok (Some t).
Proof.
  assert (Hc : (Session1.claim 1 Inbox1.bob "t1" Session1.opened).1 = Ok (Some "t1")) by (vm_compute; reflexivity). split; [exact Hc|].
  destruct (Session1.claim 1 Inbox1.bob "t1" Session1.opened) as [g f1] eqn:H1. cbn [fst snd] in *. subst g.
  destruct (Session1.claim 2 Inbox1.alice "t2" f1) as [r f2] eqn:H2.
  destruct (one_waiter _ _ _ _ _ _ _ _ _ _ _ _ _ _ _ _ _ _ H1 H2 eq_refl) as (_ & _ & Hr & _). exact Hr.
Defined.

Lemma ended_sessions_stay_witness :
  match Session1.closed with
  | Holds d => ∃ d' s', run [Session1.stop 3; Session1.waiting 4 Inbox1.alice] (Holds d) = Holds d' ∧ sessions_of d' !! Session1.key = Some s' ∧ is_closed s' = true
  | _ => False
  end.
Proof.
  assert (Hs : match Session1.session Session1.closed with Some s => is_closed s | None => false end = true) by (vm_compute; reflexivity).
  destruct Session1.closed as [| |d]; [discriminate Hs..|]. cbn in Hs. destruct (sessions_of d !! Session1.key) as [s|] eqn:Hd; [|discriminate Hs].
  destruct (ended_sessions_stay Session1.key [Session1.stop 3; Session1.waiting 4 Inbox1.alice] d s Hd Hs) as (d' & s' & Hrun & Hs' & [Hc _ _]).
  - apply Forall_forall. apply Forall_cons; split; [intros [Hev _]; discriminate Hev|]. apply Forall_cons; split; [intros []|apply Forall_nil; exact I].
  - exists d', s'. split; [exact Hrun|]. split; [exact Hs'|exact Hc].
Defined.
